(* ===== verification/_CoqProject ===== *)
-Q . S2P
Prelude.v
Log.v
NodeList.v
Rings.v
FlowData.v
Pools.v
NodePool.v
SessionPool.v
FlowTable.v
FlowCore.v
FlowInv.v
FlowInsert.v
FlowExpire.v
Packet.v
Monitor.v
ProcessInv.v
CacheLaws.v
PacketSpec.v
Frame.v
Export.v
Blocks.v
System.v
Run.v
Shutdown.v
WireRun.v
MonitorProps.v
ListPoolProps.v
XskRing.v
Xsk.v
XskInv.v
XskSpec.v
XskKernel.v
XskProps.v
AfXdp.v
AfXdpProps.v
BpfParse.v
XdpProgs.v
XdpProps.v
Io.v
Config.v
CmdLine.v
CmdLineProps.v
Loader.v
LoaderProps.v
XdpSetup.v
CaptureRun.v
WireCapture.v
CaptureEnd.v
XdpSetupProps.v
DpMain.v
Nlattr.v
Netlink.v
NlattrProps.v
NetlinkProps.v
RtnlProps.v
DefaultProg.v
XskLib.v
XskLibProps.v
AfXdpStats.v
Date.v
HashMap.v
HashMapProps.v
LibSys.v
Bytes.v
Linfo.v
LinfoProps.v
BpfSys.v
BpfSysProps.v
BpfLoadProps.v
Btf.v
BtfProps.v
Object.v
ObjectProps.v
ObjectLink.v
ObjectLoad.v
ObjectOpen.v
ObjectPin.v
ObjectKernel.v
ObjectReuse.v
ObjectLib.v
