(* ===== verification/Prelude.v ===== *)
(** * Flow monitor and AF_XDP scenarios: a verification development

    The repository has two programs that take packets from a network card
    through AF_XDP sockets, and the XDP programs that run in the kernel before
    them.

    - The flow monitor (flujos/): the capture library lxdpFlow.c passes packets
      to [process_packet] of dp.c, which parses them and keeps a table of flows
      (IPflow.c) over circular lists and pools (list.c, pool.c); a second thread
      (export.c) prints the flows that ended; log.c writes the log; comm.c opens
      and closes the socket.
    - The receiver of scenarios 1 and 2 (af_xdp_user.c): a command line
      (common_params.c), a program loader (common_user_bpf_xdp.c,
      common_libbpf.c), a socket and a loop that counts packets.
    - The XDP programs: af_xdp_kern.c (one per program) and xdp_echo.c, on the
      helpers parsing_helpers.h, rewrite_helpers.h and xdp_stats_kern.h.

    ** The files

    Prelude: faults, machine integers, shared lemmas.  Every function of the
    source that can stop the process is a function into [res]; code that calls
    libbpf or the system is in the monad [io] of Io.

    The flow monitor:
    - Log: log.c, with the counters that throttle [logErrorCount].
    - NodeList: list.c over a heap of nodes, one definition per function, with
      freed memory and NULL as faults.  Rings: the abstraction of a heap by the
      sequences of its circular lists.
    - FlowData: the structs of IPflow.h and the pure functions on flows.
    - Pools, NodePool, SessionPool: the node pool of list.c and the session pool
      of pool.c, with their invariants.
    - FlowTable: [insertFlowTable], [updateFlowTable], [insertFlow] and
      [cleanup_flows] of IPflow.c, every pointer write in the order of the code.
      FlowCore, FlowInv: the ghost state and the invariant.  CacheLaws: the
      abstract flow cache.  FlowInsert, FlowExpire: the refinement.
    - Packet: [parsePacket] and [processL4Flow] on the bytes of a buffer.
      PacketSpec: what they do for any bytes.  Frame: an encoder of frames, and
      that the parser inverts it.
    - Monitor: [process_packet] with its clock, the start-up and the shutdown.
      ProcessInv: its invariant.  Export: the export thread as a program counter
      that moves one mutex section at a time.
    - System, Run, WireRun: both threads, as sequences of events of either;
      the run from start-up to shutdown; the reference NetFlow computation.
    - MonitorProps, ListPoolProps: the theorems.

    The capture and the receiver:
    - XskRing: the rings of libbpf's xsk.h.  Xsk: lxdpFlow.c.  XskInv: the
      contract of the kernel as a step relation, and where every frame of the
      umem is.  XskSpec: the specifications.  XskKernel: an executable kernel
      that keeps the contract, for the witnesses.  XskProps: the theorems.
    - AfXdp, AfXdpProps: the receiver's loop, statistics and checksum helpers.
      AfXdpStats: its statistics thread, with the rates in binary64.
    - CaptureRun: [processThread], the capture feeding the monitor.  WireCapture:
      from frames on the wire to packets; CaptureEnd: the loop ends when packets do.
    - Blocks, Shutdown: the pools' arrays, and the whole SIGINT handler.
    - DpMain: [main] of dp.c, over all of these.

    The XDP programs:
    - BpfParse, XdpProgs, XdpProps.

    Loading and set-up:
    - Config: [struct config], its character arrays and flags.  CmdLine,
      CmdLineProps: the command line.  Loader, LoaderProps: attaching, detaching,
      loading, reusing and pinning.  XdpSetup, XdpSetupProps: the set-up of a
      socket, [main] of the receiver, comm.c.
    - Date: date.c.

    The parts of the vendored libbpf that the programs call:
    - Nlattr, NlattrProps: nlattr.c, streams of attributes.  Netlink,
      NetlinkProps: netlink.c, messages as bytes.  RtnlProps: that they implement
      the interface [LinkOps] of the loader, for a kernel that speaks rtnetlink.
    - DefaultProg: the instructions of the program that xsk.c loads, and a machine
      that runs them.  XskLib, XskLibProps: xsk.c, with what it holds.
    - LibSys: that xsk.c implements [SysOps], the interface of the set-up.
    - HashMap, HashMapProps: hashmap.c, and that it is a finite map.
    - Bytes: numbers of 64 bits in bytes, strings, arrays of cells that may not be
      set, and malloc, realloc and free as an interface that counts blocks.
    - Linfo, LinfoProps: bpf_prog_linfo.c, the source lines of a loaded program.
    - BpfSys: bpf.c, every call of bpf(2) over the bytes of [union bpf_attr].
      BpfSysProps: storing and reading members; BpfLoadProps: what the retries
      of [bpf_load_program_xattr] show the kernel.
    - Btf: the accessors of btf.h, and parsing, look-ups and sizes of btf.c.
      BtfProps: the encoding of types, and C's size of a type as a relation.
    - Object: libbpf.c from an ELF file that was read on: maps, relocation, loading,
      pinning, closing.  ObjectProps: the system's laws, who owns which descriptor, the
      creation of maps.  ObjectLink: what relocations mean, and that the code does it.
      ObjectLoad, ObjectOpen: loading an object, and [bpf_prog_load_xattr].  ObjectPin:
      the files of maps.  ObjectKernel: a small kernel, with the witnesses.

    ** What the theorems show

    - The monitor, for every interleaving of its two threads, prints exactly the
      flows of the reference computation, never faults, accounts for every
      packet and keeps the order; its table refines the abstract cache; the lists
      refine sequences and the pools queues; the parser inverts the encoder and
      is total when twelve bytes can be read behind a packet; the shutdown prints
      what is left.  The deviations are theorems too: reads past a short packet,
      flows lost when the clock goes back, a flow split by an older packet.
    - The capture processes exactly what the kernel delivers, loses no frame and
      takes batches of at most 64; the fill ring holds only frames as long as the
      kernel keeps at most 2048, and can get invalid ones otherwise; the loop
      ends after its timeouts.  [capture_drives_the_monitor] puts the capture and
      the monitor together: the monitor's state is that of a run on the packets
      delivered.  The receiver's statistics are exact.
    - The XDP programs never read outside the packet; the echo answers as it
      should and keeps the checksums; the filter redirects exactly the packets of
      the generator; pushing and popping a VLAN tag are inverse.
    - The parser of the command line keeps the types of the configuration; the
      flags it leaves; attaching and detaching change only what they may; loading
      with pinned maps leaves nothing open or pinned when it fails; opening the
      socket gives all the frames or ends the program.
    - [main] of the flow monitor ends once packets do, and has printed the flows of
      the reference computation for the frames on the wire.
    - Setting and reading the program of an interface through netlink does what the
      loader's interface promises; the attribute parser is safe for any bytes, up to
      the padding of its last attribute, and the request that sets a program decodes
      to what it was made from.  Umems and sockets give back what they took, with two
      exact exceptions, also when createXDPSocket and destroyXDPSocket
      call them; the default program is the C program of its comment; the hash
      table answers as a finite map, also when memory runs out.
    - Every try to load a program shows the kernel the program it was given, its
      records whole or cut to what the kernel knows, and frees what it made; the
      types that are parsed are those that were encoded, and are found by id and
      name; the size of a type is the one C gives, also when types refer to each
      other in circles; the look-ups of line information find the last line that
      is not above an instruction or address.

    ** Conventions

    A C integer is a [Z] with its wrap-around written out ([u8] to [u64], [s32]);
    a pointer to a node or session is an [option loc] into a heap; a pointer to a
    struct of libbpf is a handle.  Loops that follow lists take the number of
    nodes of the heap as fuel, which a ring never exceeds ([NodeList]); the loop of
    [parsePacket] takes the captured length, every turn consuming four bytes
    ([PacketSpec]), and the VLAN loop of the BPF parser its VLAN_MAX_DEPTH; [reserve_again] needs no fuel under the kernel's contract, and
    the theorems run it with 0; the capture loops take a number of rounds, and
    answer [None] when the caller gives fewer than the loop needs, which
    [rx_and_process_ends_after_timeouts] counts.  The sizes of the pools are
    parameters ([M] sessions and [2 * M] nodes, as pool.c and list.c relate them).

    The reception of netlink messages takes the number of datagrams it may read,
    which [dump_rounds] of [RtnlLaws] bounds; the attribute loop the length of the
    stream, four bytes a turn; the machine of DefaultProg the steps its theorem counts.
    Loading takes the number of tries that the kernel may ask for, which [bs_again] of
    [BpfSysLaws] bounds, and at most two corrections; the parser of types the number of
    bytes, twelve of which every type takes; dissecting addresses their number.  Loading a
    program of an object takes seven tries, as its buffer doubles and the kernel takes
    less than [2 ^ 30] bytes for a log; steps over programs take the number of programs.

    The kernel, the ELF part of libbpf, getopt_long, the clock and the other calls
    of the system are parameters; the classes [LinkLaws], [BpfLaws], [SysLaws],
    [RtnlLaws], [XskLaws], [HostLaws], [MemLaws], [BpfSysLaws], [ObjLaws], [OpenLaws] and [PinLaws]
    and the relation [kstep] state
    what the code relies on, each with an instance.  [BpfView] is what the loader sees of
    libbpf's objects; a map keeps the path it was given even where pinning failed, so the
    theorem on pinned maps asks that no two entries name the same map.

    ** Not modelled

    Of the vendored libbpf the reading of ELF files, .BTF.ext, CO-RE relocation,
    preprocessors and perf buffers (libbpf.c), the deduplication and the loading of btf.c, btf_dump.c and the probes, and the
    kernel headers but for their constants and macros in use: a third party's code behind
    [BpfOps] and [XskSys].  What is printed on the terminal, other than the flows,
    the log, the statistics and the help.  Thread affinity, mlockall, signal masks
    and sigwait in [main] of dp.c.
    The test program libs/xdp/test/main.c, written for an older interface that the
    repository does not have.  The copies of the loader under flujos/libs/xdp/common
    and of the parsers in flujos' af_xdp_kern.c are the same functions again. *)

From stdpp Require Export base functions gmap list strings numbers fin_maps.
From Stdlib Require Export ZArith Lia.

#[global] Open Scope Z_scope.

(** ** Faults

    A C function either returns, or stops the process: a dereference of NULL or
    of freed memory, a failed [assert], a [void *] read at the wrong type, a
    read past a buffer, a [free] of what [malloc] did not give, a call of [exit], or (in the model only) a loop that
    uses up its fuel. *)

Inductive fault :=
  | NullDeref
  | AssertFail
  | BadCast
  | OutOfBounds
  | BadFree
  | ExitProgram (code : Z)
  | OutOfFuel.

Inductive res (A : Type) :=
  | Ok (a : A)
  | Err (f : fault).
Arguments Ok {A} a.
Arguments Err {A} f.

#[global] Instance fault_eq_dec : EqDecision fault.
Proof. solve_decision. Defined.

#[global] Instance res_ret : MRet res := fun A a => Ok a.
#[global] Instance res_bind : MBind res := fun A B f m =>
  match m with Ok a => f a | Err e => Err e end.

(** [or_fault o e] reads an optional value, and faults with [e] without it. *)
Definition or_fault {A} (o : option A) (e : fault) : res A :=
  match o with Some a => Ok a | None => Err e end.

(** [assert(b)] of <assert.h>. *)
Definition c_assert (b : bool) : res unit :=
  if b then Ok tt else Err AssertFail.

(** ** Machine integers *)

Declare Scope cint_scope.
Delimit Scope cint_scope with cint.

Definition u8 (x : Z) : Z := x mod 2 ^ 8.
Definition u16 (x : Z) : Z := x mod 2 ^ 16.
Definition u32 (x : Z) : Z := x mod 2 ^ 32.
Definition u64 (x : Z) : Z := x mod 2 ^ 64.

(** Conversion to a signed 32-bit [int] (two's complement). *)
Definition s32 (x : Z) : Z :=
  let y := u32 x in if y <? 2 ^ 31 then y else y - 2 ^ 32.

Notation "a ⊕64 b" := (u64 (a + b)) (at level 50, left associativity) : cint_scope.
Notation "a ⊖64 b" := (u64 (a - b)) (at level 50, left associativity) : cint_scope.
Notation "a ⊕32 b" := (u32 (a + b)) (at level 50, left associativity) : cint_scope.
Notation "a ⊖32 b" := (u32 (a - b)) (at level 50, left associativity) : cint_scope.

(** ** Automation *)

(** [lia] with division and remainder by constants. *)
Ltac dlia := Z.to_euclidean_division_equations; lia.

Lemma u32_range x : 0 ≤ u32 x < 2 ^ 32.
Proof. by apply Z.mod_pos_bound. Qed.
Lemma u64_range x : 0 ≤ u64 x < 2 ^ 64.
Proof. by apply Z.mod_pos_bound. Qed.
Lemma u16_range x : 0 ≤ u16 x < 2 ^ 16.
Proof. by apply Z.mod_pos_bound. Qed.
Lemma u8_range x : 0 ≤ u8 x < 2 ^ 8.
Proof. by apply Z.mod_pos_bound. Qed.

Lemma u32_small x : 0 ≤ x < 2 ^ 32 → u32 x = x.
Proof. apply Z.mod_small. Qed.
Lemma u64_small x : 0 ≤ x < 2 ^ 64 → u64 x = x.
Proof. apply Z.mod_small. Qed.
Lemma u16_small x : 0 ≤ x < 2 ^ 16 → u16 x = x.
Proof. apply Z.mod_small. Qed.
Lemma u8_small x : 0 ≤ x < 2 ^ 8 → u8 x = x.
Proof. apply Z.mod_small. Qed.

Lemma fmap_rev {A B} (f : A → B) (l : list A) : f <$> rev l = rev (f <$> l).
Proof. induction l as [|x l IH]; [done|]. cbn. rewrite fmap_app. by rewrite IH. Qed.

Create HintDb cint.
#[export] Hint Resolve u8_range u16_range u32_range u64_range : cint.
Lemma s32_small x : - 2 ^ 31 ≤ x < 2 ^ 31 → s32 x = x.
Proof. intros Hx. unfold s32, u32. destruct (Z.ltb_spec (x mod 2 ^ 32) (2 ^ 31)); Z.div_mod_to_equations; lia. Qed.

#[export] Hint Rewrite u8_small u16_small u32_small u64_small using lia : cint.

(** ** Bit fields: disjoint [lor] is addition *)

Lemma land_low_shiftl a b n : 0 ≤ n → 0 ≤ a < 2 ^ n → Z.land a (Z.shiftl b n) = 0.
Proof.
  intros Hn Ha. apply Z.bits_inj'. intros i Hi. rewrite Z.land_spec, Z.bits_0, Z.shiftl_spec by done.
  destruct (Z.ltb_spec i n) as [Hl|Hl].
  - rewrite (Z.testbit_neg_r b) by lia. apply andb_false_r.
  - rewrite <-(Z.mod_small a (2 ^ n)) by done. by rewrite Z.mod_pow2_bits_high by lia.
Qed.

Lemma lor_shiftl_add a b n : 0 ≤ n → 0 ≤ a < 2 ^ n → Z.lor a (Z.shiftl b n) = a + b * 2 ^ n.
Proof.
  intros Hn Ha. pose proof (land_low_shiftl a b n Hn Ha) as Hl.
  rewrite <-Z.lxor_lor, <-Z.add_nocarry_lxor by done. by rewrite Z.shiftl_mul_pow2.
Qed.

Lemma below_of_mod a w : 0 ≤ w → a mod 2 ^ w = a → 0 ≤ a < 2 ^ w.
Proof. intros Hw <-. apply Z.mod_pos_bound. lia. Qed.

Lemma land_below x m w : 0 ≤ w → 0 ≤ m < 2 ^ w → 0 ≤ Z.land x m < 2 ^ w.
Proof.
  intros Hw Hm. apply below_of_mod; [done|].
  by rewrite <-Z.land_ones, <-Z.land_assoc, Z.land_ones, (Z.mod_small m) by done.
Qed.

Lemma lor_below a b w : 0 ≤ w → 0 ≤ a < 2 ^ w → 0 ≤ b < 2 ^ w → 0 ≤ Z.lor a b < 2 ^ w.
Proof.
  intros Hw Ha Hb. apply below_of_mod; [done|].
  by rewrite <-Z.land_ones, Z.land_lor_distr_l, !Z.land_ones, !Z.mod_small by done.
Qed.

Lemma shiftl_lor_add a b n : 0 ≤ n → 0 ≤ a < 2 ^ n → Z.lor (Z.shiftl b n) a = b * 2 ^ n + a.
Proof. intros. rewrite Z.lor_comm, lor_shiftl_add by done. lia. Qed.

(** ** Results of closed computations *)

Definition faults_with {A} (e : fault) (r : res A) : bool :=
  match r with Err e' => bool_decide (e' = e) | Ok _ => false end.

Lemma faults_with_true {A} e (r : res A) : faults_with e r = true → r = Err e.
Proof. destruct r as [|e']; [done|]. cbn. by intros ->%bool_decide_eq_true. Qed.

(** A computation that ends in a value with property [P], checked by evaluation. *)
Lemma checked {A} (r : res A) (P : A → bool) :
  match r with Ok x => P x | Err _ => false end = true → ∃ x, r = Ok x ∧ P x = true.
Proof. destruct r as [x|]; [|done]. intros H. by exists x. Qed.

(** ** Inversion of computations that returned *)

Lemma res_bind_Ok {A B} (m : res A) (f : A → res B) b :
  m ≫= f = Ok b → ∃ a, m = Ok a ∧ f a = Ok b.
Proof. destruct m as [a|e]; [|done]. intros H. by exists a. Qed.

(** Follow a hypothesis [op = Ok v] through the steps of [op]: every step
    returned, and every test went one way. *)
Ltac res_inv :=
  repeat match goal with
  | H : Ok _ = Ok _ |- _ => injection H as H; subst
  | H : (_, _) = (_, _) |- _ => injection H as H; subst
  | H : Some _ = Some _ |- _ => injection H as H; subst
  | H : Err _ = Ok _ |- _ => discriminate H
  | H : _ ≫= _ = Ok _ |- _ =>
      let a := fresh "a" in let E := fresh "E" in
      apply res_bind_Ok in H as (a & E & H); try (progress cbn beta in H)
  | H : (let '_ := ?p in _) = Ok _ |- _ => destruct p eqn:?
  | H : (if ?b then _ else _) = Ok _ |- _ => destruct b eqn:?
  | H : (match ?o with _ => _ end) = Ok _ |- _ => destruct o eqn:?
  end.
