(* ===== verification/Log.v ===== *)
(** * log.c: the log and its throttled errors

    The log stream and the per-type message counters of flujos/src/log.c.  What
    a call prints is kept as an entry (level and text); the time prefix the
    functions put in front is [log_text], a function of the local time the
    environment gives. *)

From S2P Require Import Prelude.
From stdpp Require Import pretty.
#[local] Open Scope Z_scope.

Definition MESSAGE_COUNT_LIMIT : Z := 50000.
Definition DISK_ERROR : Z := 0.
Definition MEMORY_ERROR : Z := 1.
Definition NUM_ERROR_TYPES : Z := 2.

Inductive log_level := INFO | ERROR | HP.

#[global] Instance log_level_eq_dec : EqDecision log_level.
Proof. solve_decision. Defined.

Inductive stream := Stderr | LogFile (path : string).

(** [FILE *dplog]: NULL, an open stream, or the dangling pointer [fclose] leaves. *)
Inductive log_handle := NoLog | OpenLog (s : stream) | ClosedLog.

Record logst := MkLog {
  dplog : log_handle;
  message_count : list Z;              (** uint64_t[NUM_ERROR_TYPES] *)
  log_entries : list (log_level * string)   (** newest first *)
}.

Definition init_log : logst := MkLog NoLog (replicate (Z.to_nat NUM_ERROR_TYPES) 0) [].

(** The fields of [struct tm] the log prints. *)
Record log_tm := MkTm {
  tm_hour : Z; tm_min : Z; tm_sec : Z; tm_mday : Z; tm_mon : Z; tm_year : Z }.

(** [%02d] of a non-negative number. *)
Definition pad2 (z : Z) : string := (if z <? 10 then "0" else "") +:+ pretty z.

Definition log_time (t : log_tm) : string :=
  pad2 (tm_hour t) +:+ ":" +:+ pad2 (tm_min t) +:+ ":" +:+ pad2 (tm_sec t) +:+ " " +:+
  pad2 (tm_mday t) +:+ "-" +:+ pad2 (tm_mon t + 1) +:+ "-" +:+ pad2 (tm_year t + 1900).

Definition log_text (t : log_tm) (e : log_level * string) : string :=
  match e with
  | (INFO, m) => "(" +:+ log_time t +:+ ") INFO: " +:+ m
  | (ERROR, m) => "(" +:+ log_time t +:+ ") ERROR: " +:+ m
  | (HP, m) => m
  end.

(** [fprintf(dplog, ...)]: a NULL or closed stream is a fault. *)
Definition log_print (lg : logst) (e : log_level * string) : res logst :=
  match dplog lg with
  | OpenLog _ => Ok (MkLog (dplog lg) (message_count lg) (e :: log_entries lg))
  | _ => Err NullDeref
  end.

(** [startLog]: [fopen_ok] is what [fopen] answers for the path. *)
Definition startLog (fopen_ok : bool) (pathToLog : string) (lg : logst) : res (Z * logst) :=
  let opened := if bool_decide (pathToLog = "stderr") then Some Stderr
                else if fopen_ok then Some (LogFile pathToLog) else None in
  match opened with
  | None => Ok (-1, MkLog NoLog (message_count lg) (log_entries lg))
  | Some s =>
      let lg := MkLog (OpenLog s) (message_count lg) (log_entries lg) in
      lg ← log_print lg (INFO, "Nueva Sesion");
      Ok (0, lg)
  end.

Definition logInfo (lg : logst) (message : string) : res logst := log_print lg (INFO, message).
Definition logError (lg : logst) (message : string) : res logst := log_print lg (ERROR, message).

(** The variants with a format string: [text] is the formatted text. *)
Definition logInfoVar (lg : logst) (text : string) : res logst := log_print lg (INFO, text).
Definition logErrorVar (lg : logst) (text : string) : res logst := log_print lg (ERROR, text).

Definition logHighPerformance (time : Z) (lg : logst) (message : string) : res logst :=
  log_print lg (HP, pretty time +:+ " HP: " +:+ message).

(** [logErrorCount]: prints the first message of a type, then only one in a while. *)
Definition logErrorCount (lg : logst) (message : string) (error : Z) : res logst :=
  if error <? NUM_ERROR_TYPES then
    if error <? 0 then Err OutOfBounds else
    let i := Z.to_nat error in
    c ← or_fault (message_count lg !! i) OutOfBounds;
    lg ← (if (c =? 0) || (MESSAGE_COUNT_LIMIT <=? c) then
            lg ← log_print lg (ERROR, message);
            Ok (MkLog (dplog lg) (<[i := 1]> (message_count lg)) (log_entries lg))
          else Ok lg);
    c ← or_fault (message_count lg !! i) OutOfBounds;
    Ok (MkLog (dplog lg) (<[i := u64 (c + 1)]> (message_count lg)) (log_entries lg))
  else Ok lg.

Definition stopLog (lg : logst) : res (Z * logst) :=
  match dplog lg with
  | NoLog => Ok (-1, lg)
  | _ =>
      lg ← log_print lg (INFO, "Fin Sesion");
      match dplog lg with
      | OpenLog (LogFile _) => Ok (0, MkLog ClosedLog (message_count lg) (log_entries lg))
      | _ => Ok (0, lg)
      end
  end.

(** ** The log while the monitor runs *)

(** Open, with one counter per error type, each a [uint64_t] below its limit. *)
Definition log_ok (lg : logst) : Prop :=
  (∃ s, dplog lg = OpenLog s) ∧
  length (message_count lg) = Z.to_nat NUM_ERROR_TYPES ∧
  Forall (λ c, 0 ≤ c ≤ MESSAGE_COUNT_LIMIT) (message_count lg).

Definition count_of (lg : logst) (error : Z) : Z :=
  default 0 (message_count lg !! Z.to_nat error).

(** One call, on a valid error type: what is printed and what is counted. *)
Lemma logErrorCount_ok lg message error :
  log_ok lg → 0 ≤ error < NUM_ERROR_TYPES →
  ∃ lg', logErrorCount lg message error = Ok lg' ∧ log_ok lg' ∧
    (∀ e, 0 ≤ e → e ≠ error → count_of lg' e = count_of lg e) ∧
    if (count_of lg error =? 0) || (MESSAGE_COUNT_LIMIT <=? count_of lg error)
    then count_of lg' error = 2 ∧ log_entries lg' = (ERROR, message) :: log_entries lg
    else count_of lg' error = count_of lg error + 1 ∧ log_entries lg' = log_entries lg.
Proof.
  intros ([s Hs] & Hlen & Hall) He. unfold logErrorCount.
  rewrite (proj2 (Z.ltb_lt error _)) by lia. rewrite (proj2 (Z.ltb_ge error 0)) by lia.
  destruct (lookup_lt_is_Some_2 (message_count lg) (Z.to_nat error)) as [c Hc];
    [rewrite Hlen; lia|].
  assert (0 ≤ c ≤ MESSAGE_COUNT_LIMIT) as Hcr.
  { rewrite Forall_forall in Hall. apply Hall. by eapply list_elem_of_lookup_2. }
  assert (Hci : (Z.to_nat error < length (message_count lg))%nat) by (rewrite Hlen; lia).
  unfold MESSAGE_COUNT_LIMIT in *.
  assert (count_of lg error = c) as -> by (unfold count_of; by rewrite Hc).
  rewrite Hc. simpl.
  destruct ((c =? 0) || _) eqn:Hp; simpl.
  - unfold log_print. rewrite Hs. simpl. rewrite list_lookup_insert_eq by done. simpl.
    eexists; split; [done|]. split; [|split; [|split]].
    + split; [|split]; simpl; [eauto|by rewrite !length_insert|].
      rewrite list_insert_insert_eq by done. apply Forall_insert; [done|]. vm_compute. split; discriminate.
    + intros e Hge Hne. unfold count_of. simpl. by rewrite !list_lookup_insert_ne by lia.
    + unfold count_of. simpl. by rewrite list_lookup_insert_eq by (by rewrite length_insert).
    + done.
  - apply orb_false_iff in Hp as [H0 H1]. rewrite Hc. simpl.
    eexists; split; [done|]. split; [|split; [|split]].
    + split; [|split]; simpl; [eauto|by rewrite !length_insert|].
      apply Forall_insert; [done|]. unfold u64. rewrite Z.mod_small; [|lia].
      unfold MESSAGE_COUNT_LIMIT. lia.
    + intros e Hge Hne. unfold count_of. simpl. by rewrite !list_lookup_insert_ne by lia.
    + unfold count_of. simpl. rewrite list_lookup_insert_eq by done. simpl.
      unfold u64. rewrite Z.mod_small; lia.
    + done.
Qed.

(** ** The throttle: one message in 49999 *)

(** [n] consecutive calls of [logErrorCount]. *)
Fixpoint logErrorCount_calls (n : nat) (lg : logst) (message : string) (error : Z) : res logst :=
  match n with
  | O => Ok lg
  | S n => lg ← logErrorCount_calls n lg message error; logErrorCount lg message error
  end.

Definition errors_printed (lg : logst) : Z := Z.of_nat (length (log_entries lg)).

Lemma logErrorCount_calls_state lg message error n :
  log_ok lg → 0 ≤ error < NUM_ERROR_TYPES → count_of lg error = 0 → log_entries lg = [] →
  ∃ lg', logErrorCount_calls (S n) lg message error = Ok lg' ∧ log_ok lg' ∧
    count_of lg' error = 2 + Z.of_nat n mod (MESSAGE_COUNT_LIMIT - 1) ∧
    errors_printed lg' = 1 + Z.of_nat n / (MESSAGE_COUNT_LIMIT - 1).
Proof.
  intros Hok He Hc Hp. change (MESSAGE_COUNT_LIMIT - 1) with 49999.
  induction n as [|n IH].
  - destruct (logErrorCount_ok lg message error Hok He) as (lg' & E & Hok' & _ & H).
    rewrite Hc in H. simpl in H. destruct H as [H1 H2].
    exists lg'. simpl. rewrite E. split_and!; [done|done|by rewrite H1|].
    unfold errors_printed. by rewrite H2, Hp.
  - destruct IH as (lg1 & E1 & Hok1 & Hc1 & Hp1).
    destruct (logErrorCount_ok lg1 message error Hok1 He) as (lg' & E & Hok' & _ & H).
    exists lg'. change (logErrorCount_calls (S (S n)) lg message error) with
      (lg ← logErrorCount_calls (S n) lg message error; logErrorCount lg message error).
    rewrite E1. simpl. rewrite E. split; [done|]. split; [done|].
    rewrite Hc1 in H. unfold MESSAGE_COUNT_LIMIT in H. unfold errors_printed in *.
    destruct (_ || _) eqn:Hb; destruct H as [H1 H2]; rewrite H1, H2; simpl length; [|
      apply orb_false_iff in Hb as [_ Hb%Z.leb_gt]; rewrite Hp1; clear -Hb; dlia].
    apply orb_true_iff in Hb as [Hb%Z.eqb_eq|Hb%Z.leb_le]; clear -Hb Hp1; dlia.
Qed.

(** [n] calls of [logErrorCount] for one error type, on a freshly started log, print
    the first message and then one message every 49999 calls (the limit 50000
    less the counter's restart at 1 followed by the increment). *)
Lemma logErrorCount_throttle lg message error n :
  log_ok lg → 0 ≤ error < NUM_ERROR_TYPES → count_of lg error = 0 → log_entries lg = [] →
  ∃ lg', logErrorCount_calls n lg message error = Ok lg' ∧
    errors_printed lg' = (Z.of_nat n + 49998) / 49999.
Proof.
  intros Hok He Hc Hp. destruct n as [|n].
  - exists lg. split; [done|]. unfold errors_printed. by rewrite Hp.
  - destruct (logErrorCount_calls_state lg message error n Hok He Hc Hp) as (lg' & E & _ & _ & H).
    exists lg'. split; [done|]. rewrite H. change (MESSAGE_COUNT_LIMIT - 1) with 49999. clear. dlia.
Qed.

Lemma logErrorCount_throttle_witness :
  ∃ lg', logErrorCount_calls 50001 (MkLog (OpenLog Stderr) [0; 0] []) "Pool de flujos vacío" MEMORY_ERROR = Ok lg' ∧
    errors_printed lg' = (Z.of_nat 50001 + 49998) / 49999.
Proof.
  apply (logErrorCount_throttle (MkLog (OpenLog Stderr) [0; 0] []) "Pool de flujos vacío" MEMORY_ERROR 50001).
  - split_and!; [by exists Stderr|done|]. by repeat constructor.
  - by vm_compute.
  - done.
  - done.
Defined.
