(* ===== verification/NodeList.v ===== *)
(** * list.c: circular doubly linked lists

    The heap of [node_l] structures, the list functions of flujos/src/list.c
    over it (one definition per function, writing the fields in the order the
    code writes them), and the ring predicate that says what list a head
    pointer stands for.  Every operation is shown to implement the
    corresponding operation on Rocq lists, to keep the [data] fields, and to
    touch no node outside the list it works on. *)

From S2P Require Import Prelude.

Abbreviation loc := positive.

(** ** Data: [node_l] and what a [void *data] can point to *)

(** A [void *] of the program is NULL, a [node_l *] or an [IPSession *]. *)
Inductive vptr :=
  | VNull
  | VNode (n : loc)
  | VSession (s : loc).

#[global] Instance vptr_eq_dec : EqDecision vptr.
Proof. solve_decision. Defined.

Record node_l := Node {
  prev : option loc;
  next : option loc;
  data : vptr
}.

Abbreviation heap := (gmap loc node_l).

(** ** Field reads and writes through a pointer *)

(** Every access goes through a pointer value: NULL ([None]) and a location that
    holds no node both fault. *)
Definition load (h : heap) (p : option loc) : res node_l :=
  x ← or_fault p NullDeref;
  or_fault (h !! x) NullDeref.

Definition store (h : heap) (p : option loc) (f : node_l → node_l) : res heap :=
  x ← or_fault p NullDeref;
  n ← or_fault (h !! x) NullDeref;
  Ok (<[x := f n]> h).

Definition with_prev (v : option loc) (n : node_l) : node_l := Node v (next n) (data n).
Definition with_next (v : option loc) (n : node_l) : node_l := Node (prev n) v (data n).
Definition with_data (v : vptr) (n : node_l) : node_l := Node (prev n) (next n) v.

Definition set_prev h p v := store h p (with_prev v).
Definition set_next h p v := store h p (with_next v).
Definition set_data h p v := store h p (with_data v).

(** [if (p != NULL) p->next = v] and its twin, as [list_prepend_node] and
    [list_unlink] guard their writes to a neighbour. *)
Definition set_next_if (h : heap) (p : option loc) (v : option loc) : res heap :=
  match p with Some _ => set_next h p v | None => Ok h end.
Definition set_prev_if (h : heap) (p : option loc) (v : option loc) : res heap :=
  match p with Some _ => set_prev h p v | None => Ok h end.

(** ** The functions of list.c *)

Definition list_get_first_node (list : option loc) : option loc := list.

Definition list_get_last_node (h : heap) (list : option loc) : res (option loc) :=
  match list with
  | None => Ok None
  | Some _ => n ← load h list; Ok (prev n)
  end.

(** The macros [list_get_next_node] and [list_get_prev_node] of list.h. *)
Definition list_get_next_node (h : heap) (list link : option loc) : res (option loc) :=
  n ← load h link;
  Ok (if decide (next n = list) then None else next n).

Definition list_get_prev_node (h : heap) (list link : option loc) : res (option loc) :=
  if decide (link = list) then Ok None else n ← load h link; Ok (prev n).

Definition list_prepend_node (h : heap) (list node : option loc) : res (heap * option loc) :=
  _ ← c_assert (bool_decide (node ≠ None));
  let here := list in
  match list with
  | None =>
      h ← set_prev h node node;
      h ← set_next h node node;
      Ok (h, node)
  | Some _ =>
      hn ← load h here;
      h ← set_prev h node (prev hn);
      h ← set_next h node here;
      h ← set_prev h here node;
      nd ← load h node;
      h ← set_next_if h (prev nd) node;
      Ok (h, if decide (here = list) then node else list)
  end.

Definition list_append_node (h : heap) (list node : option loc) : res (heap * option loc) :=
  _ ← c_assert (bool_decide (node ≠ None));
  '(h, list) ← list_prepend_node h list node;
  hd ← load h list;
  Ok (h, next hd).

(** [list_search]: the loop follows [list_get_next_node] until [cmp] answers 0;
    [cmp] is the comparison function pointer, and [key] the [data] field of
    [node_to_find]. *)
Fixpoint list_search_from (fuel : nat) (h : heap) (list : option loc) (key : vptr)
    (cmp : vptr → vptr → res Z) (n : option loc) : res (option loc) :=
  match n, fuel with
  | None, _ => Ok None
  | Some _, O => Err OutOfFuel
  | Some _, S fuel =>
      nd ← load h n;
      c ← cmp (data nd) key;
      if c =? 0 then Ok n
      else n' ← list_get_next_node h list n;
           list_search_from fuel h list key cmp n'
  end.

Definition list_search (h : heap) (list : option loc) (node_to_find : node_l)
    (cmp : vptr → vptr → res Z) : res (option loc) :=
  list_search_from (S (size h)) h list (data node_to_find) cmp list.

Definition list_unlink (h : heap) (list node : option loc) : res (heap * option loc) :=
  _ ← c_assert (bool_decide (node ≠ None));
  nd ← load h node;
  '(h, list) ←
    (if decide (next nd = node) then Ok (h, None)
     else
       h ← set_next_if h (prev nd) (next nd);
       nd ← load h node;
       h ← set_prev_if h (next nd) (prev nd);
       nd ← load h node;
       Ok (h, if decide (list = node) then next nd else list));
  h ← set_next h node None;
  h ← set_prev h node None;
  Ok (h, list).

Definition list_pop_first_node (h : heap) (list : option loc) : res (heap * option loc * option loc) :=
  let n := list_get_first_node list in
  match n with
  | None => Ok (h, list, n)
  | Some _ => '(h, list) ← list_unlink h list n; Ok (h, list, n)
  end.

(** ** Rings

    [seg h p l n]: the nodes of [l] are chained by [next] and [prev], the node
    before the first is [p] and the node after the last is [n].  A ring is a
    segment that closes on itself. *)

Definition fst_of (d : loc) (l : list loc) : loc := match l with [] => d | x :: _ => x end.

Fixpoint lst_of (d : loc) (l : list loc) : loc :=
  match l with [] => d | x :: l' => lst_of x l' end.

Fixpoint seg (h : heap) (p : loc) (l : list loc) (n : loc) : Prop :=
  match l with
  | [] => True
  | x :: l' =>
      (∃ d, h !! x = Some (Node (Some p) (Some (fst_of n l')) d)) ∧ seg h x l' n
  end.

Definition ring (h : heap) (l : list loc) : Prop :=
  ∀ d, seg h (lst_of d l) l (fst_of d l).

(** The list a head pointer stands for. *)
Definition dll (h : heap) (hd : option loc) (l : list loc) : Prop :=
  hd = head l ∧ NoDup l ∧ ring h l.

(** [touches ls h h']: the step from [h] to [h'] wrote only to nodes of [ls], and
    wrote no [data] field. *)
Definition touches (ls : list loc) (h h' : heap) : Prop :=
  (∀ y, y ∉ ls → h' !! y = h !! y) ∧ (∀ y, data <$> (h' !! y) = data <$> (h !! y)).

(** ** Lemmas on segments *)

Lemma lst_of_nonempty d d' (l : list loc) : l ≠ [] → lst_of d l = lst_of d' l.
Proof. by destruct l. Qed.

Lemma fst_of_nonempty d d' (l : list loc) : l ≠ [] → fst_of d l = fst_of d' l.
Proof. by destruct l. Qed.

Lemma lst_of_app d l1 l2 : lst_of d (l1 ++ l2) = lst_of (lst_of d l1) l2.
Proof. revert d; induction l1; simpl; auto. Qed.

Lemma fst_of_app d l1 l2 : fst_of d (l1 ++ l2) = fst_of (fst_of d l2) l1.
Proof. by destruct l1. Qed.

Lemma lst_of_in d l : l ≠ [] → lst_of d l ∈ l.
Proof.
  revert d; induction l as [|x l IH]; intros d Hne; [done|]; simpl.
  destruct l; [by left|]. right. by apply IH.
Qed.

Lemma fst_of_in d l : l ≠ [] → fst_of d l ∈ l.
Proof. destruct l; [done|]. intros _; left. Qed.

Lemma fst_of_head d l : l ≠ [] → head l = Some (fst_of d l).
Proof. by destruct l. Qed.

Lemma seg_app h p l1 l2 n :
  seg h p (l1 ++ l2) n ↔ seg h p l1 (fst_of n l2) ∧ seg h (lst_of p l1) l2 n.
Proof.
  revert p; induction l1 as [|x l1 IH]; intros p; simpl; [tauto|].
  rewrite IH, fst_of_app. tauto.
Qed.

Lemma seg_frame h h' p l n :
  (∀ y, y ∈ l → h' !! y = h !! y) → seg h p l n → seg h' p l n.
Proof.
  revert p; induction l as [|x l IH]; intros p Heq; simpl; [done|].
  intros [[d Hd] Hs]. split.
  - exists d. rewrite Heq by left. done.
  - apply IH; [|done]. intros y Hy. apply Heq. by right.
Qed.

Lemma seg_set_first h h' p p' x l n d :
  seg h p (x :: l) n → x ∉ l →
  h !! x = Some d → h' = <[x := with_prev (Some p') d]> h →
  seg h' p' (x :: l) n.
Proof.
  simpl. intros [[e He] Hs] Hx Hd ->. simplify_eq. split.
  - exists e. by rewrite lookup_insert_eq.
  - eapply seg_frame, Hs. intros y Hy. apply lookup_insert_ne. set_solver.
Qed.

Lemma seg_set_last h h' p l n n' d e :
  seg h p l n → NoDup l → l ≠ [] →
  h !! lst_of d l = Some e → h' = <[lst_of d l := with_next (Some n') e]> h →
  seg h' p l n'.
Proof.
  intros Hs Hnd Hne Hd ->.
  destruct (exists_last Hne) as (l0 & x & ->).
  rewrite lst_of_app in *; simpl in *.
  apply seg_app in Hs as [H1 H2]. apply seg_app. simpl in *.
  apply NoDup_app in Hnd as (_ & Hx & _).
  destruct H2 as [[c Hc] _]. simplify_eq. split; [|split; [|done]].
  - eapply seg_frame, H1. intros y Hy. apply lookup_insert_ne.
    intros ->. apply (Hx _ Hy). by left.
  - exists c. by rewrite lookup_insert_eq.
Qed.

Lemma seg_lookup h p l n x : seg h p l n → x ∈ l → is_Some (h !! x).
Proof.
  revert p; induction l as [|y l IH]; intros p; simpl; [set_solver|].
  intros [[d Hd] Hs] [->|Hx]%elem_of_cons; eauto.
Qed.

(** ** Rings: rotation, frame, lookup *)

Lemma ring_nil h : ring h [].
Proof. by intros d. Qed.

Lemma ring_seg h x l : ring h (x :: l) ↔ seg h (lst_of x l) (x :: l) x.
Proof. split; [intros H; apply (H x)|intros H d; apply H]. Qed.

Lemma ring_rotate h l1 l2 : ring h (l1 ++ l2) → ring h (l2 ++ l1).
Proof.
  intros H d. specialize (H d).
  destruct (decide (l1 = [])) as [->|H1]; [by rewrite app_nil_r|].
  destruct (decide (l2 = [])) as [->|H2]; [by rewrite app_nil_r in H|].
  rewrite lst_of_app, fst_of_app in *.
  apply seg_app in H as [Ha Hb]. apply seg_app.
  rewrite (lst_of_nonempty (lst_of d l1) d l2 H2) in *.
  rewrite (lst_of_nonempty (lst_of d l2) d l1 H1) in *.
  rewrite (fst_of_nonempty (fst_of d l2) d l1 H1) in *.
  rewrite (fst_of_nonempty (fst_of d l1) d l2 H2) in *.
  rewrite (fst_of_nonempty (fst_of d l2) d l1 H1), (lst_of_nonempty (lst_of d l1) d l2 H2). done.
Qed.

Lemma ring_frame h h' l : (∀ y, y ∈ l → h' !! y = h !! y) → ring h l → ring h' l.
Proof. intros Heq H d. eapply seg_frame; eauto. Qed.

Lemma ring_lookup h l x : ring h l → x ∈ l → is_Some (h !! x).
Proof. intros H. apply (seg_lookup h (lst_of x l) l (fst_of x l)), H. Qed.

(** The neighbours of a node, seen from the rotation that puts it first. *)
Lemma ring_node h x l :
  ring h (x :: l) → ∃ d, h !! x = Some (Node (Some (lst_of x l)) (Some (fst_of x l)) d).
Proof. intros H%ring_seg. apply H. Qed.

Lemma ring_node_mid h l1 x l2 :
  ring h (l1 ++ x :: l2) →
  ∃ d, h !! x = Some (Node (Some (lst_of x (l2 ++ l1))) (Some (fst_of x (l2 ++ l1))) d).
Proof. intros H%ring_rotate. by apply ring_node in H. Qed.

(** Closing the gap around the first node of a ring. *)
Lemma ring_drop h x r p q ep eq h1 h2 :
  ring h (x :: r) → NoDup r → r ≠ [] →
  p = lst_of x r → q = fst_of x r →
  h !! p = Some ep → h1 = <[p := with_next (Some q) ep]> h →
  h1 !! q = Some eq → h2 = <[q := with_prev (Some p) eq]> h1 →
  ring h2 r.
Proof.
  intros Hr Hnd Hne -> -> Hp Hh1 Hq Hh2.
  apply ring_seg in Hr as [_ Hs].
  pose proof (seg_set_last _ _ _ _ _ (fst_of x r) x _ Hs Hnd Hne Hp Hh1) as H1.
  destruct r as [|y r]; [done|]. apply NoDup_cons in Hnd as [Hy _].
  intros d. eapply seg_set_first; eauto.
Qed.

(** ** Steps that touch a few nodes only *)

Lemma touches_refl ls h : touches ls h h.
Proof. by split. Qed.

Lemma touches_trans ls h1 h2 h3 : touches ls h1 h2 → touches ls h2 h3 → touches ls h1 h3.
Proof.
  intros [A1 B1] [A2 B2]. split; intros y.
  - intros Hy. by rewrite A2, A1.
  - by rewrite B2, B1.
Qed.

Lemma touches_weaken ls ls' h h' : ls ⊆ ls' → touches ls h h' → touches ls' h h'.
Proof. intros Hs [A B]. split; [|done]. intros y Hy. apply A. set_solver. Qed.

Lemma touches_insert ls h x n n' :
  x ∈ ls → h !! x = Some n → data n' = data n → touches ls h (<[x := n']> h).
Proof.
  intros Hx Hn Hd. split; intros y.
  - intros Hy. apply lookup_insert_ne. set_solver.
  - destruct (decide (y = x)) as [->|Hne].
    + rewrite lookup_insert_eq, Hn. simpl. by rewrite Hd.
    + by rewrite lookup_insert_ne.
Qed.

Lemma touches_is_Some ls h h' y : touches ls h h' → is_Some (h !! y) ↔ is_Some (h' !! y).
Proof.
  intros [_ B]. specialize (B y). rewrite <-!(fmap_is_Some data), B. done.
Qed.

Lemma touches_data ls h h' y n : touches ls h h' → h !! y = Some n →
  ∃ n', h' !! y = Some n' ∧ data n' = data n.
Proof.
  intros [_ B] Hn. specialize (B y). rewrite Hn in B.
  destruct (h' !! y) as [n'|]; simplify_eq/=. eauto.
Qed.

Lemma ring_touches ls h h' l : touches ls h h' → (∀ x, x ∈ l → x ∉ ls) → ring h l → ring h' l.
Proof. intros [A _] Hd. apply ring_frame. auto. Qed.

(** ** Symbolic execution of loads and stores *)

Lemma load_Some h x n : h !! x = Some n → load h (Some x) = Ok n.
Proof. intros H. unfold load. simpl. by rewrite H. Qed.

Lemma store_Some h x n f : h !! x = Some n → store h (Some x) f = Ok (<[x := f n]> h).
Proof. intros H. unfold store. simpl. by rewrite H. Qed.

Lemma set_prev_Some h x n v : h !! x = Some n → set_prev h (Some x) v = Ok (<[x := with_prev v n]> h).
Proof. apply store_Some. Qed.

Lemma set_next_Some h x n v : h !! x = Some n → set_next h (Some x) v = Ok (<[x := with_next v n]> h).
Proof. apply store_Some. Qed.

Lemma load_None h : load h None = Err NullDeref.
Proof. done. Qed.

(** Runs the next load or store of the goal, its cell found by [H]. *)
Ltac heap_step H :=
  first
    [ rewrite (load_Some _ _ _ H)
    | unfold set_prev, set_next, set_data; rewrite (store_Some _ _ _ _ H) ]; simpl.

(** ** list_prepend_node *)

Lemma list_prepend_node_spec h hd l x :
  dll h hd l → x ∉ l → is_Some (h !! x) →
  ∃ h', list_prepend_node h hd (Some x) = Ok (h', Some x)
        ∧ dll h' (Some x) (x :: l) ∧ touches (x :: l) h h'.
Proof.
  intros (-> & Hnd & Hr) Hx [nx Hnx]. unfold list_prepend_node. simpl.
  destruct l as [|y l]; simpl.
  - heap_step Hnx. heap_step (lookup_insert_eq h x (with_prev (Some x) nx)).
    rewrite insert_insert_eq. eexists; split; [done|]. split.
    + split; [done|]. split; [apply NoDup_singleton|].
      apply ring_seg. simpl. rewrite lookup_insert_eq. by split; [exists (data nx)|].
    + by eapply touches_insert; [left|..].
  - assert (x ≠ y) as Hxy by set_solver.
    pose proof (proj1 (ring_seg _ _ _) Hr) as Hs.
    destruct (ring_node _ _ _ Hr) as [dy Hy].
    set (z := lst_of y l) in *.
    heap_step Hy. heap_step Hnx.
    heap_step (lookup_insert_eq h x (with_prev (Some z) nx)).
    rewrite insert_insert_eq. unfold with_next; simpl.
    set (nx2 := Node (Some z) (Some y) (data nx)). set (h2 := <[x := nx2]> h).
    assert (h2 !! y = Some (Node (Some z) (Some (fst_of y l)) dy)) as Hy2
      by (subst h2; by rewrite lookup_insert_ne).
    heap_step Hy2. unfold with_prev at 1; simpl.
    set (h3 := <[y := _]> h2).
    assert (h3 !! x = Some nx2) as Hx3.
    { subst h3 h2. rewrite lookup_insert_ne by done. apply lookup_insert_eq. }
    heap_step Hx3.
    assert (seg h2 z (y :: l) y) as Hs2.
    { eapply seg_frame, Hs. intros w Hw. apply lookup_insert_ne. by intros ->. }
    assert (seg h3 x (y :: l) y) as Hs3.
    { eapply seg_set_first; [exact Hs2| |exact Hy2|done].
      by apply NoDup_cons in Hnd as [? _]. }
    destruct (seg_lookup _ _ _ _ z Hs3) as [nz Hz]; [by apply (lst_of_in y (y :: l))|].
    heap_step Hz. eexists; split; [by rewrite decide_True|]. split.
    + split; [done|]. split; [by constructor|].
      apply ring_seg. simpl. split.
      * assert (x ≠ z) by (intros ->; apply Hx, (lst_of_in y (y :: l)); done).
        exists (data nx). rewrite lookup_insert_ne by done. exact Hx3.
      * eapply (seg_set_last h3 _ x (y :: l) y x y nz); done.
    + assert (touches (x :: y :: l) h h2) by (eapply touches_insert; [left|done|done]).
      assert (touches (x :: y :: l) h2 h3)
        by (eapply touches_insert; [right; left|done|done]).
      assert (touches (x :: y :: l) h3 (<[z:=with_next (Some x) nz]> h3)).
      { eapply touches_insert; [|done|done]. right. by apply (lst_of_in y (y :: l)). }
      eauto using touches_trans.
Qed.

(** ** list_append_node *)

Lemma list_append_node_spec h hd l x :
  dll h hd l → x ∉ l → is_Some (h !! x) →
  ∃ h', list_append_node h hd (Some x) = Ok (h', head (l ++ [x]))
        ∧ dll h' (head (l ++ [x])) (l ++ [x]) ∧ touches (x :: l) h h'.
Proof.
  intros Hl Hx Hsome. unfold list_append_node. simpl.
  destruct (list_prepend_node_spec h hd l x Hl Hx Hsome) as (h' & -> & (_ & Hnd & Hr) & Ht).
  simpl. destruct (ring_node _ _ _ Hr) as [d Hd]. heap_step Hd.
  exists h'. split; [by destruct l|]. split; [|done].
  split; [done|]. split.
  - by rewrite (Permutation_app_comm l [x]).
  - by apply (ring_rotate h' [x] l).
Qed.

(** ** list_get_last_node, list_get_next_node, list_get_prev_node *)

Lemma last_cons_lst_of y (l : list loc) : last (y :: l) = Some (lst_of y l).
Proof. revert y. induction l as [|z l IH]; intros y; [done|]. simpl. by rewrite <-IH. Qed.

Lemma list_get_last_node_spec h hd l :
  dll h hd l → list_get_last_node h hd = Ok (last l).
Proof.
  intros (-> & _ & Hr). destruct l as [|y l]; [done|].
  unfold list_get_last_node. simpl. destruct (ring_node _ _ _ Hr) as [d Hd].
  heap_step Hd. by rewrite <-last_cons_lst_of.
Qed.

Lemma list_get_next_node_spec h hd l1 x l2 :
  dll h hd (l1 ++ x :: l2) → list_get_next_node h hd (Some x) = Ok (head l2).
Proof.
  intros (-> & Hnd & Hr). unfold list_get_next_node.
  destruct (ring_node_mid _ _ _ _ Hr) as [d Hd]. heap_step Hd.
  destruct l2 as [|y l2]; simpl.
  - rewrite decide_True; [done|]. by destruct l1.
  - rewrite decide_False; [done|]. intros Heq.
    apply NoDup_app in Hnd as (_ & H1 & H2).
    destruct l1 as [|z l1]; simplify_eq/=.
    + apply NoDup_cons in H2 as [H2 _]. apply H2. by left.
    + apply (H1 z); [by left|]. right. by left.
Qed.

Lemma list_get_prev_node_spec h hd l1 x l2 :
  dll h hd (l1 ++ x :: l2) → list_get_prev_node h hd (Some x) = Ok (last l1).
Proof.
  intros (-> & Hnd & Hr). unfold list_get_prev_node.
  destruct l1 as [|y l1]; simpl; [by rewrite decide_True|].
  rewrite decide_False; last first.
  { intros [= ->]. apply NoDup_cons in Hnd as [Hnd _]. apply Hnd. set_solver. }
  destruct (ring_node_mid _ _ _ _ Hr) as [d Hd]. heap_step Hd.
  by rewrite lst_of_app, last_cons_lst_of.
Qed.

(** ** list_unlink *)

Lemma list_unlink_spec h hd l1 x l2 :
  dll h hd (l1 ++ x :: l2) →
  ∃ h', list_unlink h hd (Some x) = Ok (h', head (l1 ++ l2))
        ∧ dll h' (head (l1 ++ l2)) (l1 ++ l2)
        ∧ touches (l1 ++ x :: l2) h h' ∧ is_Some (h' !! x).
Proof.
  intros (-> & Hnd & Hr). unfold list_unlink. simpl.
  destruct (ring_node_mid _ _ _ _ Hr) as [d Hd].
  apply ring_rotate in Hr. simpl in Hr.
  assert (NoDup (x :: l2 ++ l1)) as [Hx Hnd2]%NoDup_cons.
  { eapply NoDup_Permutation_proper, Hnd. solve_Permutation. }
  assert (x ∈ l1 ++ x :: l2) as Hin by set_solver.
  assert (∀ y, y ∈ l2 ++ l1 → y ∈ l1 ++ x :: l2) as Hsub by set_solver.
  heap_step Hd. destruct (decide (l2 ++ l1 = [])) as [Hnil|Hne].
  - apply app_eq_nil in Hnil as [-> ->]. simpl. rewrite decide_True by done. simpl.
    heap_step Hd. heap_step (lookup_insert_eq h x (Node (Some x) None d)).
    rewrite insert_insert_eq. eexists; split; [done|]. split; [|split].
    + split; [done|]. split; [constructor|apply ring_nil].
    + by eapply touches_insert; [left|..].
    + rewrite lookup_insert_eq. eauto.
  - set (r := l2 ++ l1) in *. set (p := lst_of x r) in *. set (q := fst_of x r) in *.
    assert (p ∈ r) as Hp by (by apply lst_of_in).
    assert (q ∈ r) as Hq by (by apply fst_of_in).
    assert (x ≠ p) as Hxp by (intros E; apply Hx; by rewrite E).
    assert (x ≠ q) as Hxq by (intros E; apply Hx; by rewrite E).
    rewrite decide_False by (intros [=]; congruence).
    destruct (ring_lookup _ _ p Hr) as [ep Hep]; [by right|].
    unfold set_next_if, set_prev_if. heap_step Hep. set (h1 := <[p:=_]> h).
    assert (h1 !! x = Some (Node (Some p) (Some q) d)) as Hx1
      by (subst h1; by rewrite lookup_insert_ne).
    heap_step Hx1.
    assert (is_Some (h1 !! q)) as [eq Heq].
    { subst h1. apply lookup_insert_is_Some'. right. eapply ring_lookup; [exact Hr|by right]. }
    heap_step Heq. set (h2 := <[q:=_]> h1).
    assert (h2 !! x = Some (Node (Some p) (Some q) d)) as Hx2
      by (subst h2; by rewrite lookup_insert_ne).
    heap_step Hx2. heap_step Hx2.
    heap_step (lookup_insert_eq h2 x (Node (Some p) None d)). rewrite insert_insert_eq.
    assert (ring h2 r) as Hr2 by (eapply (ring_drop h x r p q); done).
    eexists; split; [|split; [|split]].
    + f_equal. f_equal. destruct l1 as [|y l1]; simpl.
      * rewrite decide_True by done. subst q r. rewrite app_nil_r in *. by destruct l2.
      * rewrite decide_False; [done|]. intros [= ->]. apply Hx, elem_of_app. right; left.
    + split; [done|]. split; [eapply NoDup_Permutation_proper, Hnd2; solve_Permutation|].
      eapply ring_rotate, ring_frame, Hr2. intros y Hy. apply lookup_insert_ne.
      by intros ->.
    + assert (touches (l1 ++ x :: l2) h h1) by (by eapply touches_insert; [apply Hsub|..]).
      assert (touches (l1 ++ x :: l2) h1 h2) by (by eapply touches_insert; [apply Hsub|..]).
      eapply touches_trans; [eapply touches_trans; eassumption|].
      by eapply touches_insert.
    + rewrite lookup_insert_eq. eauto.
Qed.

(** ** list_pop_first_node *)

Lemma list_pop_first_node_nil h : list_pop_first_node h None = Ok (h, None, None).
Proof. done. Qed.

Lemma list_pop_first_node_spec h hd x l :
  dll h hd (x :: l) →
  ∃ h', list_pop_first_node h hd = Ok (h', head l, Some x)
        ∧ dll h' (head l) l ∧ touches (x :: l) h h' ∧ is_Some (h' !! x).
Proof.
  intros Hl. pose proof Hl as (-> & _ & _). unfold list_pop_first_node. simpl.
  destruct (list_unlink_spec h _ [] x l Hl) as (h' & E & ? & ? & ?).
  unfold list_get_first_node. simpl in E. rewrite E. eauto 6.
Qed.

(** ** list_search

    The comparison is a total function of the two [data] values here: [cmp]
    answers on every [data] of the list.  The search is then [find_first], which
    walks the list once. *)

Section search.
Context (h : heap) (key : vptr) (cmp : vptr → vptr → res Z) (eqv : loc → bool).

(** [cmp] on the [data] of node [x] answers 0 exactly when [eqv x]. *)
Definition cmp_ok (x : loc) : Prop :=
  ∃ n c, h !! x = Some n ∧ cmp (data n) key = Ok c ∧ (c =? 0) = eqv x.

Fixpoint find_first (l : list loc) : option loc :=
  match l with
  | [] => None
  | x :: l => if eqv x then Some x else find_first l
  end.

Lemma list_search_from_spec hd l1 l2 fuel :
  dll h hd (l1 ++ l2) → (∀ x, x ∈ l2 → cmp_ok x) → (length l2 ≤ fuel)%nat →
  list_search_from fuel h hd key cmp (head l2) = Ok (find_first l2).
Proof.
  revert l1 fuel. induction l2 as [|x l2 IH]; intros l1 fuel Hl Hcmp Hfuel; [by destruct fuel|].
  destruct fuel as [|fuel]; simpl in Hfuel; [lia|]. simpl.
  destruct (Hcmp x) as (n & c & Hn & Hc & He); [by left|].
  heap_step Hn. rewrite Hc. simpl. rewrite He. destruct (eqv x); [done|].
  rewrite (list_get_next_node_spec h hd l1 x l2 Hl). simpl.
  apply (IH (l1 ++ [x])).
  - by rewrite <-app_assoc.
  - intros y Hy. apply Hcmp. by right.
  - lia.
Qed.

Lemma find_first_Some l x :
  find_first l = Some x → ∃ l1 l2, l = l1 ++ x :: l2 ∧ eqv x = true
                                  ∧ Forall (λ y, eqv y = false) l1.
Proof.
  induction l as [|y l IH]; [done|]. simpl. destruct (eqv y) eqn:Hy.
  - intros [= ->]. by exists [], l.
  - intros (l1 & l2 & -> & Hx & Hf)%IH. exists (y :: l1), l2. auto.
Qed.

Lemma find_first_None l : find_first l = None ↔ Forall (λ y, eqv y = false) l.
Proof.
  induction l as [|y l IH]; simpl; [by split|].
  rewrite Forall_cons, <-IH. destruct (eqv y); naive_solver.
Qed.
End search.

(** A ring has no more nodes than the heap: the fuel of [list_search] is enough. *)
Lemma ring_length_size (h : heap) (l : list loc) :
  NoDup l → (∀ x, x ∈ l → is_Some (h !! x)) → (length l ≤ size h)%nat.
Proof.
  intros Hnd Hin. rewrite <-size_dom, <-(size_list_to_set (C := gset loc)) by done.
  apply subseteq_size. intros x Hx%elem_of_list_to_set. by apply elem_of_dom, Hin.
Qed.

Lemma list_search_spec h hd l n cmp eqv :
  dll h hd l → (∀ x, x ∈ l → cmp_ok h (data n) cmp eqv x) →
  list_search h hd n cmp = Ok (find_first eqv l).
Proof.
  intros Hl Hcmp. pose proof Hl as (-> & Hnd & Hr). unfold list_search.
  apply (list_search_from_spec _ _ _ eqv _ [] l); [done|done|].
  assert (length l ≤ size h)%nat; [|lia].
  apply ring_length_size; [done|]. intros x. by apply ring_lookup.
Qed.

(** ** Writing a [data] field leaves every ring alone *)

Lemma seg_set_data h x n v p l m :
  h !! x = Some n → seg h p l m → seg (<[x := with_data v n]> h) p l m.
Proof.
  intros Hn. revert p. induction l as [|y l IH]; intros p; simpl; [done|].
  intros [[d Hd] Hs]. split; [|by apply IH].
  destruct (decide (x = y)) as [->|Hne].
  - exists v. rewrite lookup_insert_eq. simplify_eq. done.
  - exists d. by rewrite lookup_insert_ne.
Qed.

Lemma ring_set_data h x n v l :
  h !! x = Some n → ring h l → ring (<[x := with_data v n]> h) l.
Proof. intros Hn Hr d. by apply seg_set_data. Qed.
