(* ===== verification/Rings.v ===== *)
(** * The lists of the flow monitor, all in one heap

    The program keeps every [node_l] in one address space, chained into many
    circular lists: the free and used lists of the two pools, the active list,
    the two expired lists and one list per slot of the flow table.  This file
    states that the lists are rings that share no node ([rings_ok]), and lifts
    the specifications of list.c to that setting: an operation on one list
    leaves the others as they were. *)

From S2P Require Import Prelude NodeList.

(** The global list heads of list.c, pool.c, dp.c and export.c. *)
Inductive rname :=
  | NodelFree   (** [nodel_pool_free] *)
  | NodelUsed   (** [nodel_pool_used] *)
  | SessFree    (** [ip_session_pool_free] *)
  | SessUsed    (** [ip_session_pool_used] *)
  | Active      (** [active_flow_list] *)
  | Expired     (** [expired_flow_list] *)
  | Flags       (** [flags_expired_flow_list] *)
  | Bucket (i : Z).  (** [flow_table[i]] *)

#[global] Instance rname_eq_dec : EqDecision rname.
Proof. solve_decision. Defined.

Abbreviation rings := (rname → list loc).

Definition rings_ok (h : heap) (σ : rings) : Prop :=
  (∀ r, NoDup (σ r)) ∧ (∀ r, ring h (σ r)) ∧
  (∀ r r' x, x ∈ σ r → x ∈ σ r' → r = r').

(** [x] is chained in no list. *)
Definition unchained (σ : rings) (x : loc) : Prop := ∀ r, x ∉ σ r.

(** The [data] field of a node, and steps that keep all of them. *)
Definition data_of (h : heap) (x : loc) : option vptr := data <$> (h !! x).

Definition same_data (h h' : heap) : Prop := ∀ y, data_of h' y = data_of h y.

Lemma same_data_refl h : same_data h h.
Proof. done. Qed.

Lemma same_data_trans h1 h2 h3 : same_data h1 h2 → same_data h2 h3 → same_data h1 h3.
Proof. intros A B y. by rewrite B, A. Qed.

#[global] Instance same_data_preorder : PreOrder same_data.
Proof. split; [exact same_data_refl|exact same_data_trans]. Qed.

Lemma touches_same_data ls h h' : touches ls h h' → same_data h h'.
Proof. by intros [_ B]. Qed.

Lemma data_of_is_Some h x v : data_of h x = Some v → is_Some (h !! x).
Proof. unfold data_of. intros H%fmap_Some. naive_solver. Qed.

Lemma same_data_is_Some h h' x : same_data h h' → is_Some (h !! x) → is_Some (h' !! x).
Proof.
  intros Hs [n Hn]. specialize (Hs x). unfold data_of in Hs. rewrite Hn in Hs.
  destruct (h' !! x); [eauto|done].
Qed.

Lemma data_of_load h x v : data_of h x = Some v → ∃ n, h !! x = Some n ∧ data n = v.
Proof. unfold data_of. intros (n & Hn & ->)%fmap_Some. eauto. Qed.

Create HintDb rings.
#[export] Hint Resolve same_data_refl same_data_trans same_data_is_Some data_of_is_Some
  touches_same_data : rings.

Lemma rings_ok_dll h σ r : rings_ok h σ → dll h (head (σ r)) (σ r).
Proof. intros (A & B & _). by repeat split. Qed.

(** The general step: the list [r] becomes [l], all other lists are out of reach. *)
Lemma rings_ok_update h h' σ r l ls :
  rings_ok h σ → touches ls h h' → NoDup l → ring h' l →
  (∀ x, x ∈ ls → x ∈ σ r ∨ unchained σ x) →
  (∀ x, x ∈ l → x ∈ σ r ∨ unchained σ x) →
  rings_ok h' (<[r := l]> σ).
Proof.
  intros (A & B & C) Ht Hnd Hr Hls Hl.
  assert (∀ r', r' ≠ r → ∀ x, x ∈ σ r' → ∀ L : list loc,
    (∀ y, y ∈ L → y ∈ σ r ∨ unchained σ y) → x ∉ L) as Hout.
  { intros r' Hne x Hx L HL HxL. destruct (HL x HxL) as [Hxr|Hu].
    - apply Hne. by eapply C.
    - by apply (Hu r'). }
  split; [|split].
  - intros r'. destruct (decide (r' = r)) as [->|Hne].
    + by rewrite fn_lookup_insert.
    + by rewrite fn_lookup_insert_ne.
  - intros r'. destruct (decide (r' = r)) as [->|Hne].
    + by rewrite fn_lookup_insert.
    + rewrite fn_lookup_insert_ne by done. eapply ring_touches; [done| |done]. eauto.
  - intros r1 r2 x.
    destruct (decide (r1 = r)) as [->|H1], (decide (r2 = r)) as [->|H2];
      rewrite ?fn_lookup_insert, ?fn_lookup_insert_ne by done; intros Hx1 Hx2; eauto.
    + exfalso. by eapply (Hout r2).
    + exfalso. by eapply (Hout r1).
Qed.

Lemma rings_ok_set_data h σ x n v :
  rings_ok h σ → h !! x = Some n → rings_ok (<[x := with_data v n]> h) σ.
Proof. intros (A & B & C) Hn. repeat split; auto using ring_set_data. Qed.

Lemma data_of_set_data h x n v y :
  data_of (<[x := with_data v n]> h) y = if decide (y = x) then Some v else data_of h y.
Proof.
  unfold data_of. case_decide as Hd; [subst; by rewrite lookup_insert_eq|].
  by rewrite lookup_insert_ne.
Qed.

(** Only the named list changed. *)
Lemma unchained_update σ r l x : unchained (<[r := l]> σ) x ↔ x ∉ l ∧ ∀ r', r' ≠ r → x ∉ σ r'.
Proof.
  split.
  - intros H. split; [specialize (H r); by rewrite fn_lookup_insert in H|].
    intros r' Hne. specialize (H r'). by rewrite fn_lookup_insert_ne in H.
  - intros [H1 H2] r'. destruct (decide (r' = r)) as [->|Hne].
    + by rewrite fn_lookup_insert.
    + rewrite fn_lookup_insert_ne by done. auto.
Qed.

Lemma fn_update_self (σ : rings) r r' : (<[r := σ r]> σ : rings) r' = σ r'.
Proof.
  destruct (decide (r' = r)) as [->|Hne];
    [by rewrite fn_lookup_insert|by rewrite fn_lookup_insert_ne].
Qed.

(** ** The list functions on one of the lists *)

Section ops.
Context (h : heap) (σ : rings) (r : rname).
Hypothesis Hok : rings_ok h σ.

Lemma ring_prepend x :
  unchained σ x → is_Some (h !! x) →
  ∃ h', list_prepend_node h (head (σ r)) (Some x) = Ok (h', Some x)
        ∧ rings_ok h' (<[r := x :: σ r]> σ) ∧ same_data h h'.
Proof.
  intros Hx Hsome.
  destruct (list_prepend_node_spec h _ (σ r) x (rings_ok_dll _ _ _ Hok)) as
    (h' & E & (_ & Hnd & Hr) & Ht); [apply Hx|done|].
  exists h'. split; [done|]. split; [|eauto with rings].
  eapply rings_ok_update; [done|exact Ht|done|done| |]; set_solver.
Qed.

Lemma ring_append x :
  unchained σ x → is_Some (h !! x) →
  ∃ h', list_append_node h (head (σ r)) (Some x) = Ok (h', head (σ r ++ [x]))
        ∧ rings_ok h' (<[r := σ r ++ [x]]> σ) ∧ same_data h h'.
Proof.
  intros Hx Hsome.
  destruct (list_append_node_spec h _ (σ r) x (rings_ok_dll _ _ _ Hok)) as
    (h' & E & (_ & Hnd & Hr) & Ht); [apply Hx|done|].
  exists h'. split; [done|]. split; [|eauto with rings].
  eapply rings_ok_update; [done|exact Ht|done|done| |]; set_solver.
Qed.

Lemma ring_unlink l1 x l2 :
  σ r = l1 ++ x :: l2 →
  ∃ h', list_unlink h (head (σ r)) (Some x) = Ok (h', head (l1 ++ l2))
        ∧ rings_ok h' (<[r := l1 ++ l2]> σ) ∧ same_data h h'
        ∧ unchained (<[r := l1 ++ l2]> σ) x.
Proof.
  intros Hr. pose proof (rings_ok_dll _ _ r Hok) as Hl. rewrite Hr in *.
  destruct (list_unlink_spec h _ l1 x l2 Hl) as (h' & E & (_ & Hnd & Hr') & Ht & Hs).
  exists h'. split; [done|]. split; [|split; [eauto with rings|]].
  - eapply rings_ok_update; [done|exact Ht|done|done| |]; rewrite Hr; set_solver.
  - destruct Hok as (A & _ & C). specialize (A r). rewrite Hr in A.
    apply unchained_update. split.
    + apply NoDup_app in A as (_ & A1 & A2). apply NoDup_cons in A2 as [A2 _].
      rewrite elem_of_app. intros [Hx|Hx]; [|done]. apply (A1 _ Hx). left.
    + intros r' Hne Hx. apply Hne. eapply C; [done|]. rewrite Hr. set_solver.
Qed.

Lemma ring_pop x l :
  σ r = x :: l →
  ∃ h', list_pop_first_node h (head (σ r)) = Ok (h', head l, Some x)
        ∧ rings_ok h' (<[r := l]> σ) ∧ same_data h h' ∧ unchained (<[r := l]> σ) x.
Proof.
  intros Hr. destruct (ring_unlink [] x l Hr) as (h' & E & H).
  exists h'. split; [|done]. rewrite Hr in *. unfold list_pop_first_node, list_get_first_node.
  simpl in *. by rewrite E.
Qed.
End ops.

(** Rings that are equal list by list. *)
Lemma rings_ok_ext h σ σ' : (∀ r, σ' r = σ r) → rings_ok h σ → rings_ok h σ'.
Proof.
  intros E (A & B & C). split; [|split].
  - intros r. by rewrite E.
  - intros r. by rewrite E.
  - intros r r' x. rewrite !E. apply C.
Qed.

(** [σ'] is [σ] except for the lists of [rs]. *)
Definition changes_only (rs : list rname) (σ σ' : rings) : Prop :=
  ∀ r, r ∉ rs → σ' r = σ r.

Lemma changes_only_refl rs σ : changes_only rs σ σ.
Proof. done. Qed.

Lemma changes_only_trans rs σ1 σ2 σ3 :
  changes_only rs σ1 σ2 → changes_only rs σ2 σ3 → changes_only rs σ1 σ3.
Proof. intros A B r Hr. by rewrite B, A. Qed.

Lemma changes_only_weaken rs rs' σ σ' :
  rs ⊆ rs' → changes_only rs σ σ' → changes_only rs' σ σ'.
Proof. intros Hs A r Hr. apply A. set_solver. Qed.

Lemma changes_only_insert rs r l σ : r ∈ rs → changes_only rs σ (<[r := l]> σ).
Proof. intros Hr r' Hr'. apply fn_lookup_insert_ne. by intros ->. Qed.

#[export] Hint Resolve changes_only_refl changes_only_trans changes_only_insert : rings.
