(* ===== verification/FlowData.v ===== *)
(** * IPflow.h, and the pure functions on flows

    The structures [IPFlow] and [IPSession], the constants of IPflow.h and dp.h
    the code uses, the tuple comparison [compareTupleFlow] and the hash
    [getIndex].  Fields keep their C widths: every write through an operation is
    reduced modulo the width, and [ipflow_ok] states the ranges. *)

From S2P Require Import Prelude NodeList.

(** ** Constants *)

Definition EXPIRATION_FLOW_TIME : Z := 90000000.
Definition MAX_JUMBO_SIZE : Z := 9200.
Definition ETH_HLEN : Z := 14.
Definition ETH_ALEN : Z := 6.
Definition IP_SIP : Z := 12.
Definition IP_DIP : Z := 16.
Definition IP_LEN : Z := 2.
Definition IP_PROTO : Z := 9.
Definition IP_HL_V : Z := 0.
Definition IP_HL_MASK : Z := 0x0F.
Definition IP_ALEN : Z := 4.
Definition IP_HLEN : Z := 20.
Definition IP_MIN_HLEN : Z := 20.
Definition IP_MAX_HLEN : Z := 60.
Definition ICMP_PROTO : Z := 1.
Definition TCP_PROTO : Z := 6.
Definition UDP_PROTO : Z := 17.
Definition UDP_HLEN : Z := 8.
Definition ICMP_HLEN : Z := 8.
Definition TCP_MIN_HLEN : Z := 20.
Definition TCP_MAX_HLEN : Z := 60.
Definition TCP_HLEN_OFFSET : Z := 12.
Definition ICMP_TYPE_OFF : Z := 0.
Definition ICMP_CODE_OFF : Z := 1.
Definition QINQ_ETYPE : Z := 0x8100.
Definition IP_ETYPE : Z := 0x0800.
Definition UDP_16B : Z := 0x0011.
Definition TCP_16B : Z := 0x0006.
Definition ICMP_16B : Z := 0x0001.
Definition MAX_FLOW_TABLE_SIZE : Z := 60000.
Definition MAX_POOL_NODE : nat := N.to_nat 5000.
Definition MS_IN_SEC : Z := 1000.
Definition US_IN_SEC : Z := 1000000.

(** ** Structures *)

Record IPFlow := MkIPFlow {
  source_ip : Z;            (** uint32_t *)
  destination_ip : Z;       (** uint32_t *)
  source_mac : Z;           (** uint64_t *)
  destination_mac : Z;      (** uint64_t *)
  source_port : Z;          (** uint16_t *)
  destination_port : Z;     (** uint16_t *)
  vlanTag : Z;              (** uint16_t *)
  transport_protocol : Z;   (** uint8_t *)
  npack : Z;                (** uint32_t *)
  nbytes : Z                (** uint64_t *)
}.

(** [current_flow] points into a session, so it is the location of that session. *)
Record IPSession := MkIPSession {
  current_flow : option loc;
  exportation_timestamp : Z;   (** uint64_t *)
  lastpacket_timestamp : Z;    (** uint64_t *)
  firstpacket_timestamp : Z;   (** uint64_t *)
  active_node : option loc;
  incoming : IPFlow
}.

#[global] Instance IPFlow_eq_dec : EqDecision IPFlow.
Proof. solve_decision. Defined.
#[global] Instance IPSession_eq_dec : EqDecision IPSession.
Proof. solve_decision. Defined.

Abbreviation sheap := (gmap loc IPSession).

(** What [memset(&s->incoming, 0, sizeof(IPFlow))] leaves, and [calloc]. *)
Definition zero_flow : IPFlow := MkIPFlow 0 0 0 0 0 0 0 0 0 0.
Definition zero_session : IPSession := MkIPSession None 0 0 0 None zero_flow.

Record ipflow_ok (f : IPFlow) : Prop := {
  source_ip_u32 : 0 ≤ source_ip f < 2 ^ 32;
  destination_ip_u32 : 0 ≤ destination_ip f < 2 ^ 32;
  source_mac_u64 : 0 ≤ source_mac f < 2 ^ 64;
  destination_mac_u64 : 0 ≤ destination_mac f < 2 ^ 64;
  source_port_u16 : 0 ≤ source_port f < 2 ^ 16;
  destination_port_u16 : 0 ≤ destination_port f < 2 ^ 16;
  vlanTag_u16 : 0 ≤ vlanTag f < 2 ^ 16;
  transport_protocol_u8 : 0 ≤ transport_protocol f < 2 ^ 8;
  npack_u32 : 0 ≤ npack f < 2 ^ 32;
  nbytes_u64 : 0 ≤ nbytes f < 2 ^ 64
}.

(** ** Session accesses *)

Definition sload (ss : sheap) (p : option loc) : res IPSession :=
  x ← or_fault p NullDeref;
  or_fault (ss !! x) NullDeref.

Definition sstore (ss : sheap) (p : option loc) (f : IPSession → IPSession) : res sheap :=
  x ← or_fault p NullDeref;
  s ← or_fault (ss !! x) NullDeref;
  Ok (<[x := f s]> ss).

Definition with_incoming (f : IPFlow) (s : IPSession) : IPSession :=
  MkIPSession (current_flow s) (exportation_timestamp s) (lastpacket_timestamp s)
    (firstpacket_timestamp s) (active_node s) f.
Definition with_timestamps (last first : Z) (s : IPSession) : IPSession :=
  MkIPSession (current_flow s) (exportation_timestamp s) last first (active_node s) (incoming s).
Definition with_lastpacket (last : Z) (s : IPSession) : IPSession :=
  MkIPSession (current_flow s) (exportation_timestamp s) last
    (firstpacket_timestamp s) (active_node s) (incoming s).
Definition with_exportation (t : Z) (s : IPSession) : IPSession :=
  MkIPSession (current_flow s) t (lastpacket_timestamp s)
    (firstpacket_timestamp s) (active_node s) (incoming s).
Definition with_current_flow (p : option loc) (s : IPSession) : IPSession :=
  MkIPSession p (exportation_timestamp s) (lastpacket_timestamp s)
    (firstpacket_timestamp s) (active_node s) (incoming s).
Definition with_active_node (n : option loc) (s : IPSession) : IPSession :=
  MkIPSession (current_flow s) (exportation_timestamp s) (lastpacket_timestamp s)
    (firstpacket_timestamp s) n (incoming s).

(** The counters of a flow. *)
Definition with_counters (np nb : Z) (f : IPFlow) : IPFlow :=
  MkIPFlow (source_ip f) (destination_ip f) (source_mac f) (destination_mac f)
    (source_port f) (destination_port f) (vlanTag f) (transport_protocol f) np nb.

Lemma sload_Some ss x s : ss !! x = Some s → sload ss (Some x) = Ok s.
Proof. intros H. unfold sload. simpl. by rewrite H. Qed.

Lemma sstore_Some ss x s f : ss !! x = Some s → sstore ss (Some x) f = Ok (<[x := f s]> ss).
Proof. intros H. unfold sstore. simpl. by rewrite H. Qed.

(** ** Tuples *)

(** The 5-tuple and VLAN id that identify a flow. *)
Definition flow_tuple (f : IPFlow) : Z * Z * Z * Z * Z * Z :=
  (source_ip f, destination_ip f, source_port f, destination_port f,
   transport_protocol f, vlanTag f).

(** [(IPSession * )p]: the cast of a [void *] argument. *)
Definition as_session (v : vptr) : res (option loc) :=
  match v with
  | VNull => Ok None
  | VSession s => Ok (Some s)
  | VNode _ => Err BadCast
  end.

Definition as_node (v : vptr) : res (option loc) :=
  match v with
  | VNull => Ok None
  | VNode n => Ok (Some n)
  | VSession _ => Err BadCast
  end.

(** [compareTupleFlow]: 0 for the same flow, 1 otherwise. *)
Definition compareTupleFlow (ss : sheap) (a b : vptr) : res Z :=
  pa ← as_session a; sa ← sload ss pa;
  pb ← as_session b; sb ← sload ss pb;
  let fa := incoming sa in
  let fb := incoming sb in
  Ok (if (source_ip fa =? source_ip fb) &&
         (destination_ip fa =? destination_ip fb) &&
         (source_port fa =? source_port fb) &&
         (destination_port fa =? destination_port fb) &&
         (transport_protocol fa =? transport_protocol fb) &&
         (vlanTag fa =? vlanTag fb)
      then 0 else 1).

(** [getIndex]: the additions are done in [uint32_t]. *)
Definition getIndex (flow : IPFlow) : Z :=
  u32 (source_ip flow + destination_ip flow + source_port flow + destination_port flow
       + transport_protocol flow) mod MAX_FLOW_TABLE_SIZE.

Definition same_tuple (f g : IPFlow) : bool := bool_decide (flow_tuple f = flow_tuple g).

Lemma compareTupleFlow_spec ss a b sa sb :
  ss !! a = Some sa → ss !! b = Some sb →
  compareTupleFlow ss (VSession a) (VSession b) =
    Ok (if same_tuple (incoming sa) (incoming sb) then 0 else 1).
Proof.
  intros Ha Hb. unfold compareTupleFlow. simpl.
  rewrite (sload_Some _ _ _ Ha), (sload_Some _ _ _ Hb). simpl. f_equal.
  unfold same_tuple, flow_tuple.
  case_bool_decide as Hd.
  - injection Hd as -> -> -> -> -> ->. by rewrite !Z.eqb_refl.
  - destruct (_ && _) eqn:E; [|done].
    exfalso. apply Hd. rewrite !andb_true_iff, !Z.eqb_eq in E. intuition congruence.
Qed.

Lemma getIndex_range f : 0 ≤ getIndex f < MAX_FLOW_TABLE_SIZE.
Proof. apply Z.mod_pos_bound. done. Qed.

(** Flows of the same tuple hash to the same slot. *)
Lemma getIndex_tuple f g : flow_tuple f = flow_tuple g → getIndex f = getIndex g.
Proof. unfold flow_tuple, getIndex. intros [= -> -> -> -> -> _]. done. Qed.

Lemma same_tuple_refl f : same_tuple f f = true.
Proof. by apply bool_decide_eq_true. Qed.

Lemma same_tuple_index f g : same_tuple f g = true → getIndex f = getIndex g.
Proof. intros H%bool_decide_eq_true. by apply getIndex_tuple. Qed.

Lemma with_counters_tuple np nb f : flow_tuple (with_counters np nb f) = flow_tuple f.
Proof. done. Qed.

Lemma with_counters_index np nb f : getIndex (with_counters np nb f) = getIndex f.
Proof. done. Qed.
