(* ===== verification/Pools.v ===== *)
(** * The two pools: list.c's node pool and pool.c's session pool

    Both pools keep preallocated objects in the [data] fields of container
    nodes, chained in a free list and a used list.  Taking an object moves the
    first container from the free list to the end of the used list; giving one
    back moves the first used container, relabelled, to the end of the free
    list.  [FifoPool] is what a pool promises to its clients: a first-in
    first-out stock of free objects of which the last one is never handed out. *)

From S2P Require Import Prelude Log NodeList Rings FlowData.

(** ** What a pool promises *)

(** The containers [cs] hold the objects [items], one each. *)
Definition stocks (h : heap) (tag : loc → vptr) (cs items : list loc) : Prop :=
  Forall2 (λ c x, data_of h c = Some (tag x)) cs items.

Class FifoPool {St : Type} (free used : rname) (tag : loc → vptr)
    (take : heap → St → res (option (option loc) * heap * St))
    (put : heap → St → option loc → res (heap * St))
    (pool_inv : heap → St → rings → list loc → Prop) : Prop := {
  pool_stocks h st σ av : pool_inv h st σ av → stocks h tag (σ free) av;
  pool_frame h h' st σ σ' av :
    pool_inv h st σ av → (∀ c, c ∈ σ free → data_of h' c = data_of h c) →
    σ' free = σ free → σ' used = σ used → pool_inv h' st σ' av;
  pool_take h st σ x y av :
    rings_ok h σ → pool_inv h st σ (x :: y :: av) →
    ∃ h' st' σ', take h st = Ok (Some (Some x), h', st') ∧ rings_ok h' σ' ∧
      pool_inv h' st' σ' (y :: av) ∧ same_data h h' ∧ changes_only [free; used] σ σ' ∧
      length (σ' used) = S (length (σ used)) ∧
      (∀ z, z ∈ σ' free ∨ z ∈ σ' used ↔ z ∈ σ free ∨ z ∈ σ used);
  pool_take_last h st σ x :
    rings_ok h σ → pool_inv h st σ [x] →
    ∃ h' st', take h st = Ok (None, h', st') ∧ rings_ok h' σ ∧
      pool_inv h' st' σ [x] ∧ same_data h h';
  pool_put h st σ av x :
    rings_ok h σ → pool_inv h st σ av → σ used ≠ [] →
    ∃ h' st' σ', put h st (Some x) = Ok (h', st') ∧ rings_ok h' σ' ∧
      pool_inv h' st' σ' (av ++ [x]) ∧
      (∀ y, y ∉ σ used → data_of h' y = data_of h y) ∧
      (∀ y, is_Some (h !! y) → is_Some (h' !! y)) ∧ changes_only [free; used] σ σ' ∧
      S (length (σ' used)) = length (σ used) ∧
      (∀ z, z ∈ σ' free ∨ z ∈ σ' used ↔ z ∈ σ free ∨ z ∈ σ used)
}.

(** ** Moving containers, shared by the two pools *)

Section containers.
Context (h : heap) (σ : rings) (free used : rname).
Hypothesis Hok : rings_ok h σ.
Hypothesis Hne : free ≠ used.

Lemma containers_take c cs :
  σ free = c :: cs →
  ∃ h1 h2, list_pop_first_node h (head (σ free)) = Ok (h1, head cs, Some c) ∧
    list_append_node h1 (head (σ used)) (Some c) = Ok (h2, head (σ used ++ [c])) ∧
    rings_ok h2 (<[used := σ used ++ [c]]> (<[free := cs]> σ)) ∧ same_data h h2.
Proof.
  intros Hf. destruct (ring_pop h σ free Hok c cs Hf) as (h1 & E1 & Hok1 & Hd1 & Hu1).
  assert (is_Some (h1 !! c)) as Hc.
  { apply (same_data_is_Some _ _ _ Hd1). destruct Hok as (_ & B & _).
    eapply ring_lookup; [apply (B free)|]. rewrite Hf. left. }
  destruct (ring_append h1 _ used Hok1 c Hu1 Hc) as (h2 & E2 & Hok2 & Hd2).
  rewrite fn_lookup_insert_ne in E2, Hok2 by done. exists h1, h2. eauto with rings.
Qed.

Lemma containers_rotate c :
  σ free = [c] →
  ∃ h1 h2, list_pop_first_node h (head (σ free)) = Ok (h1, None, Some c) ∧
    list_append_node h1 None (Some c) = Ok (h2, Some c) ∧ rings_ok h2 σ ∧ same_data h h2.
Proof.
  intros Hf. destruct (ring_pop h σ free Hok c [] Hf) as (h1 & E1 & Hok1 & Hd1 & Hu1).
  assert (is_Some (h1 !! c)) as Hc.
  { apply (same_data_is_Some _ _ _ Hd1). destruct Hok as (_ & B & _).
    eapply ring_lookup; [apply (B free)|]. rewrite Hf. left. }
  destruct (ring_append h1 _ free Hok1 c Hu1 Hc) as (h2 & E2 & Hok2 & Hd2).
  rewrite fn_lookup_insert in E2, Hok2. exists h1, h2.
  split_and!; [done|done| |eauto with rings].
  eapply rings_ok_ext, Hok2. intros r.
  destruct (decide (r = free)) as [->|Hr]; [by rewrite fn_lookup_insert|].
  by rewrite !fn_lookup_insert_ne by done.
Qed.

Lemma containers_put c cs v :
  σ used = c :: cs →
  ∃ h1 h2 h3, list_pop_first_node h (head (σ used)) = Ok (h1, head cs, Some c) ∧
    set_data h1 (Some c) v = Ok h2 ∧
    list_append_node h2 (head (σ free)) (Some c) = Ok (h3, head (σ free ++ [c])) ∧
    rings_ok h3 (<[free := σ free ++ [c]]> (<[used := cs]> σ)) ∧
    (∀ y, data_of h3 y = if decide (y = c) then Some v else data_of h y).
Proof.
  intros Hf. destruct (ring_pop h σ used Hok c cs Hf) as (h1 & E1 & Hok1 & Hd1 & Hu1).
  assert (is_Some (h1 !! c)) as [n Hn].
  { apply (same_data_is_Some _ _ _ Hd1). destruct Hok as (_ & B & _).
    eapply ring_lookup; [apply (B used)|]. rewrite Hf. left. }
  pose proof (rings_ok_set_data _ _ _ _ v Hok1 Hn) as Hok2.
  destruct (ring_append _ _ free Hok2 c Hu1) as (h3 & E3 & Hok3 & Hd3).
  { rewrite lookup_insert_eq. eauto. }
  rewrite fn_lookup_insert_ne in E3, Hok3 by done. exists h1, (<[c := with_data v n]> h1), h3.
  split_and!; [done| |done|done|].
  - unfold set_data. by rewrite (store_Some _ _ _ _ Hn).
  - intros y. rewrite Hd3, data_of_set_data. by rewrite Hd1.
Qed.
End containers.

Lemma stocks_cons_inv h tag cs x items :
  stocks h tag cs (x :: items) →
  ∃ c cs', cs = c :: cs' ∧ data_of h c = Some (tag x) ∧ stocks h tag cs' items.
Proof. intros (c & cs' & ? & ? & ->)%Forall2_cons_inv_r. eauto. Qed.

Lemma stocks_same_data h h' tag cs items :
  (∀ c, c ∈ cs → data_of h' c = data_of h c) → stocks h tag cs items → stocks h' tag cs items.
Proof.
  unfold stocks. rewrite !Forall2_lookup. intros Hd H i. specialize (H i).
  destruct (cs !! i) as [c|] eqn:Hc; inversion H as [? x Hx E1 E2|]; constructor.
  rewrite Hd; [done|]. by eapply list_elem_of_lookup_2.
Qed.

Lemma stocks_snoc h tag cs items c x :
  stocks h tag cs items → data_of h c = Some (tag x) → stocks h tag (cs ++ [c]) (items ++ [x]).
Proof. intros H Hc. apply Forall2_app; [done|]. by constructor. Qed.
