(* ===== verification/NodePool.v ===== *)
(** * The node pool of list.c

    [allocNodelPool], [getNodel], [releaseNodel] and [freeNodelPool] of
    flujos/src/list.c, and the proof that they implement the pool interface of
    Pools.v.  The array [nl] of preallocated nodes is a block of consecutive
    locations of the heap; [malloc] hands out locations above every one in use,
    as many times as the budget [mem] allows. *)

From S2P Require Import Prelude Log NodeList Rings FlowData Pools.

(** ** malloc and free *)

(** [base + i] on an array of nodes. *)
Definition ptr_add (base : loc) (i : nat) : loc := Z.to_pos (Zpos base + Z.of_nat i).

Definition array_locs (base : loc) (n : nat) : list loc := ptr_add base <$> seq 0 n.

(** The first location above every allocated one. *)
Definition first_free {A} (h : gmap loc A) : loc :=
  map_fold (λ k _ m, Pos.max (Pos.succ k) m) 1%positive h.

Definition zero_node : node_l := Node None None VNull.

(** A fresh array, all of its cells [v]. *)
Definition put_cells {A} (v : A) (h : gmap loc A) (ls : list loc) : gmap loc A :=
  foldr (λ x h, <[x := v]> h) h ls.

Abbreviation put_nodes := (put_cells zero_node).

(** [malloc] of an array of [n] nodes: NULL when the budget is used up. *)
Definition malloc_nodes (h : heap) (mem n : nat) : option loc * heap * nat :=
  match mem with
  | O => (None, h, O)
  | S mem => let b := first_free h in (Some b, put_nodes h (array_locs b n), mem)
  end.

(** [list_alloc_node]. *)
Definition list_alloc_node (h : heap) (mem : nat) (d : vptr) : res (option loc * heap * nat) :=
  let '(n, h, mem) := malloc_nodes h mem 1 in
  match n with
  | None => Ok (None, h, mem)
  | Some _ => h ← set_data h n d; Ok (n, h, mem)
  end.

(** [free(n)]: NULL is ignored, a dangling pointer is a fault. *)
Definition free_node (h : heap) (n : option loc) : res heap :=
  match n with
  | None => Ok h
  | Some x => _ ← or_fault (h !! x) NullDeref; Ok (delete x h)
  end.

(** [free] of a whole array. *)
Fixpoint free_array (h : heap) (ls : list loc) : res heap :=
  match ls with
  | [] => Ok h
  | x :: ls => h ← free_node h (Some x); free_array h ls
  end.

(** ** State and operations *)

Record npool := NPool {
  nodel_pool_free : option loc;
  nodel_pool_used : option loc;
  free_nodes : Z;               (** uint64_t *)
  total_nodes : Z;              (** uint64_t *)
  nodel_aux : option loc;
  nl : option loc
}.

Definition init_npool : npool := NPool None None 0 0 None None.

(** The loop of [allocNodelPool] over the elements [nl+i]. *)
Fixpoint alloc_containers (h : heap) (mem : nat) (free : option loc) (elems : list vptr) :
    res (heap * nat * option loc) :=
  match elems with
  | [] => Ok (h, mem, free)
  | e :: elems =>
      '(n, h, mem) ← list_alloc_node h mem e;
      '(h, free) ← list_prepend_node h free n;
      alloc_containers h mem free elems
  end.

(** [allocNodelPool], for a pool of [size] nodes (the code's is [MAX_POOL_NODE]). *)
Definition allocNodelPool (size : nat) (h : heap) (mem : nat) (p : npool) :
    res (heap * nat * npool) :=
  let '(arr, h, mem) := malloc_nodes h mem size in
  base ← or_fault arr NullDeref;                   (* bzero(nl, ...) *)
  _ ← c_assert (bool_decide (arr ≠ None));
  '(h, mem, free) ← alloc_containers h mem (nodel_pool_free p) (VNode <$> array_locs base size);
  let n := u64 (Z.of_nat size) in
  Ok (h, mem, NPool free (nodel_pool_used p) n n (nodel_aux p) arr).

(** [getNodel]: 0 and the node in [nodel_aux], or -1 on the last node; the message it then
    writes to the log is [pool_empty] of FlowTable.v, behind each of its calls. *)
Definition getNodel (h : heap) (p : npool) : res (Z * heap * npool) :=
  '(h, free, n) ← list_pop_first_node h (nodel_pool_free p);
  if decide (free = None) then
    '(h, free) ← list_append_node h free n;
    Ok (-1, h, NPool free (nodel_pool_used p) (free_nodes p) (total_nodes p) (nodel_aux p) (nl p))
  else
    '(h, used) ← list_append_node h (nodel_pool_used p) n;
    _ ← c_assert (bool_decide (n ≠ None));
    nd ← load h n;
    aux ← as_node (data nd);
    Ok (0, h, NPool free used (u64 (free_nodes p - 1)) (total_nodes p) aux (nl p)).

(** [if(getNodel()==-1) ... else x=nodel_aux;], as the flow table calls it. *)
Definition take_nodel (h : heap) (p : npool) : res (option (option loc) * heap * npool) :=
  '(r, h, p) ← getNodel h p;
  Ok (if r =? -1 then None else Some (nodel_aux p), h, p).

(** [releaseNodel]. *)
Definition releaseNodel (h : heap) (p : npool) (f : option loc) : res (heap * npool) :=
  _ ← c_assert (bool_decide (f ≠ None));
  '(h, used, n) ← list_pop_first_node h (nodel_pool_used p);
  h ← set_data h n (match f with Some x => VNode x | None => VNull end);
  '(h, free) ← list_append_node h (nodel_pool_free p) n;
  Ok (h, NPool free used (u64 (free_nodes p + 1)) (total_nodes p) (nodel_aux p) (nl p)).

(** The loops of [freeNodelPool]: pop a container, free it. *)
Fixpoint free_list (fuel : nat) (h : heap) (list : option loc) : res heap :=
  match list, fuel with
  | None, _ => Ok h
  | Some _, O => Err OutOfFuel
  | Some _, S fuel =>
      '(h, list, n) ← list_pop_first_node h list;
      h ← free_node h n;
      free_list fuel h list
  end.

Definition freeNodelPool (size : nat) (h : heap) (p : npool) : res (heap * npool) :=
  h ← free_list (S (base.size h)) h (nodel_pool_free p);
  h ← free_list (S (base.size h)) h (nodel_pool_used p);
  base ← or_fault (nl p) NullDeref;
  h ← free_array h (array_locs base size);
  Ok (h, NPool None None (free_nodes p) (total_nodes p) (nodel_aux p) (nl p)).

(** ** The pool invariant *)

(** The nodes of the array are none of the containers. *)
Definition array_apart (p : npool) (free used : list loc) : Prop :=
  ∀ b, nl p = Some b → ∀ x, x ∈ array_locs b (Z.to_nat (total_nodes p)) → x ∉ free ∧ x ∉ used.

Definition npool_inv (h : heap) (p : npool) (σ : rings) (av : list loc) : Prop :=
  nodel_pool_free p = head (σ NodelFree) ∧
  nodel_pool_used p = head (σ NodelUsed) ∧
  free_nodes p = u64 (Z.of_nat (length av)) ∧
  stocks h VNode (σ NodelFree) av ∧
  array_apart p (σ NodelFree) (σ NodelUsed).

Definition same_array (p p' : npool) : Prop := nl p' = nl p ∧ total_nodes p' = total_nodes p.

Lemma take_nodel_array h p r h' p' : take_nodel h p = Ok (r, h', p') → same_array p p'.
Proof. unfold take_nodel, getNodel. intros H. by res_inv. Qed.

Lemma releaseNodel_array h p f h' p' : releaseNodel h p f = Ok (h', p') → same_array p p'.
Proof. unfold releaseNodel. intros H. by res_inv. Qed.

(** It does not matter in which of the two lists a container is. *)
Lemma array_apart_same p p' (f u f' u' : list loc) :
  array_apart p f u → same_array p p' →
  (∀ z, z ∈ f' ∨ z ∈ u' ↔ z ∈ f ∨ z ∈ u) → array_apart p' f' u'.
Proof.
  intros Ha [En Et] Hz b Hb x Hx. rewrite En in Hb. rewrite Et in Hx. specialize (Ha b Hb x Hx).
  split; intros Hin; destruct (proj1 (Hz x)) as [?|?]; tauto.
Qed.

(** A container moves from one list to the end of the other. *)
Lemma chains_take (σ : rings) f u c cs z :
  f ≠ u → σ f = c :: cs →
  let σ' := <[u := σ u ++ [c]]> (<[f := cs]> σ) in
  z ∈ σ' f ∨ z ∈ σ' u ↔ z ∈ σ f ∨ z ∈ σ u.
Proof.
  intros Hne Hf σ'. subst σ'. rewrite fn_lookup_insert, fn_lookup_insert_ne, fn_lookup_insert by done.
  rewrite Hf. set_solver.
Qed.

Lemma u64_pred x : u64 (u64 (Z.of_nat (S x)) - 1) = u64 (Z.of_nat x).
Proof. unfold u64. rewrite Zminus_mod_idemp_l. f_equal. lia. Qed.

Lemma u64_succ x y : u64 (u64 (Z.of_nat x) + y) = u64 (Z.of_nat x + y).
Proof. unfold u64. by rewrite Zplus_mod_idemp_l. Qed.

Lemma app_nonempty_head {A} (l : list A) x : head (l ++ [x]) ≠ None.
Proof. by destruct l. Qed.

(** Taking containers [c :: cs] with [cs] non-empty. *)
Lemma getNodel_spec h p σ x y av :
  rings_ok h σ → npool_inv h p σ (x :: y :: av) →
  ∃ h' p' c cs, σ NodelFree = c :: cs ∧ getNodel h p = Ok (0, h', p') ∧ nodel_aux p' = Some x ∧
    total_nodes p' = total_nodes p ∧ nl p' = nl p ∧
    let σ' := <[NodelUsed := σ NodelUsed ++ [c]]> (<[NodelFree := cs]> σ) in
    rings_ok h' σ' ∧ npool_inv h' p' σ' (y :: av) ∧ same_data h h'.
Proof.
  intros Hok (Ef & Eu & En & Hst & Ha). apply stocks_cons_inv in Hst as (c & cs & Hf & Hc & Hst).
  destruct (containers_take h σ NodelFree NodelUsed Hok ltac:(done) c cs Hf)
    as (h1 & h2 & E1 & E2 & Hok2 & Hd2).
  pose proof (stocks_cons_inv _ _ _ _ _ Hst) as (c2 & cs2 & -> & _ & _).
  assert (data_of h2 c = Some (VNode x)) as Hc2 by (by rewrite Hd2).
  apply data_of_load in Hc2 as (nd & Hnd & Hdat).
  unfold getNodel. rewrite Ef, E1. simpl. rewrite Eu, E2. simpl.
  rewrite (load_Some _ _ _ Hnd). simpl. rewrite Hdat. simpl.
  eexists _, _, _, _. split_and!; [done|done|done|done|done|done| |done].
  split_and!; cbn [nodel_pool_free nodel_pool_used free_nodes].
  - by rewrite fn_lookup_insert_ne, fn_lookup_insert by done.
  - by rewrite fn_lookup_insert.
  - rewrite En. apply (u64_pred (S (length av))).
  - rewrite fn_lookup_insert_ne, fn_lookup_insert by done.
    eapply stocks_same_data, Hst. intros z _. apply Hd2.
  - eapply array_apart_same; [exact Ha|done|]. intros z. by apply chains_take.
Qed.

(** The last free node stays in the pool. *)
Lemma getNodel_last h p σ x :
  rings_ok h σ → npool_inv h p σ [x] →
  ∃ h' p', getNodel h p = Ok (-1, h', p') ∧ rings_ok h' σ ∧ npool_inv h' p' σ [x] ∧
    same_data h h' ∧ p' = p.
Proof.
  intros Hok (Ef & Eu & En & Hst & Ha). pose proof Hst as Hst'.
  apply stocks_cons_inv in Hst as (c & cs & Hf & Hc & Hst).
  apply Forall2_nil_inv_r in Hst as ->.
  destruct (containers_rotate h σ NodelFree Hok c Hf) as (h1 & h2 & E1 & E2 & Hok2 & Hd2).
  unfold getNodel. rewrite Ef, E1. simpl. rewrite E2. simpl.
  eexists _, _. split_and!; [done|done| |done|].
  - split_and!; cbn [nodel_pool_free nodel_pool_used free_nodes]; [by rewrite Hf|done|done| |done].
    eapply stocks_same_data, Hst'. intros z _. apply Hd2.
  - destruct p; simpl in *. by rewrite Ef, Hf.
Qed.

Lemma releaseNodel_spec h p σ av x :
  rings_ok h σ → npool_inv h p σ av → σ NodelUsed ≠ [] →
  ∃ h' p' c cs, σ NodelUsed = c :: cs ∧ releaseNodel h p (Some x) = Ok (h', p') ∧
    total_nodes p' = total_nodes p ∧ nodel_aux p' = nodel_aux p ∧ nl p' = nl p ∧
    let σ' := <[NodelFree := σ NodelFree ++ [c]]> (<[NodelUsed := cs]> σ) in
    rings_ok h' σ' ∧ npool_inv h' p' σ' (av ++ [x]) ∧
    (∀ y, data_of h' y = if decide (y = c) then Some (VNode x) else data_of h y).
Proof.
  intros Hok (Ef & Eu & En & Hst & Ha) Hne. destruct (σ NodelUsed) as [|c cs] eqn:Hu; [done|].
  destruct (containers_put h σ NodelFree NodelUsed Hok ltac:(done) c cs (VNode x) Hu)
    as (h1 & h2 & h3 & E1 & E2 & E3 & Hok3 & Hd3).
  assert (c ∉ σ NodelFree) as Hcf.
  { intros Hcf. destruct Hok as (_ & _ & C).
    specialize (C NodelFree NodelUsed c Hcf). rewrite Hu in C. by specialize (C ltac:(left)). }
  unfold releaseNodel. rewrite Eu, <-Hu, E1. simpl. rewrite E2. simpl. rewrite Ef, E3. simpl.
  eexists _, _, c, cs. split_and!; [done|done|done|done|done|done| |done].
  split_and!; cbn [nodel_pool_free nodel_pool_used free_nodes].
  - by rewrite fn_lookup_insert.
  - by rewrite fn_lookup_insert_ne, fn_lookup_insert by done.
  - rewrite En, length_app. simpl. rewrite u64_succ. f_equal. lia.
  - rewrite fn_lookup_insert. apply stocks_snoc.
    + eapply stocks_same_data, Hst. intros z Hz. rewrite Hd3, decide_False; [done|].
      by intros ->.
    + by rewrite Hd3, decide_True.
  - eapply array_apart_same; [exact Ha|done|]. intros z.
    pose proof (chains_take σ NodelUsed NodelFree c cs z ltac:(done) Hu) as Hz. cbn in Hz. rewrite Hu in Hz. tauto.
Qed.

(** [NodePool] is a [FifoPool]. *)
#[export] Instance nodel_pool : FifoPool NodelFree NodelUsed VNode take_nodel releaseNodel npool_inv.
Proof.
  split.
  - by intros h p σ av (_ & _ & _ & ? & _).
  - intros h h' p σ σ' av (Ef & Eu & En & Hst & Ha) Hd E1 E2. unfold npool_inv. rewrite E1, E2.
    split_and!; [done..| |done]. by eapply stocks_same_data, Hst.
  - intros h p σ x y av Hok Hinv.
    destruct (getNodel_spec h p σ x y av Hok Hinv) as
      (h' & p' & c & cs & Hf & E & Haux & _ & _ & Hok' & Hinv' & Hd).
    exists h', p'. eexists. split_and!; [|exact Hok'|exact Hinv'|exact Hd| | |].
    + unfold take_nodel. rewrite E. simpl. by rewrite Haux.
    + intros r Hr. rewrite !fn_lookup_insert_ne by set_solver. done.
    + rewrite fn_lookup_insert, length_app. simpl. lia.
    + intros z. by apply chains_take.
  - intros h p σ x Hok Hinv.
    destruct (getNodel_last h p σ x Hok Hinv) as (h' & p' & E & Hok' & Hinv' & Hd & _).
    exists h', p'. split_and!; [|done..]. unfold take_nodel. by rewrite E.
  - intros h p σ av x Hok Hinv Hne.
    destruct (releaseNodel_spec h p σ av x Hok Hinv Hne) as
      (h' & p' & c & cs & Hu & E & _ & _ & _ & Hok' & Hinv' & Hd).
    exists h', p'. eexists. split_and!; [exact E|exact Hok'|exact Hinv'| | | | |].
    + intros y Hy. rewrite Hd, decide_False; [done|]. intros ->. apply Hy. rewrite Hu. left.
    + intros y [n Hn]. apply (fmap_is_Some data). fold (data_of h' y). rewrite Hd.
      unfold data_of. rewrite Hn. case_decide; eauto.
    + intros r Hr. rewrite !fn_lookup_insert_ne by set_solver. done.
    + rewrite fn_lookup_insert_ne, fn_lookup_insert by done. by rewrite Hu.
    + intros z. pose proof (chains_take σ NodelUsed NodelFree c cs z ltac:(done) Hu) as H.
      simpl in H. tauto.
Qed.

(** ** Allocation *)

Lemma first_free_above {A} (h : gmap loc A) x : is_Some (h !! x) → (x < first_free h)%positive.
Proof.
  unfold first_free. revert x.
  apply (map_fold_weak_ind (λ m (h : gmap loc A), ∀ x, is_Some (h !! x) → (x < m)%positive)).
  - intros x. rewrite lookup_empty. by intros [].
  - intros i n m r _ IH x. destruct (decide (x = i)) as [->|Hne]; [lia|].
    rewrite lookup_insert_ne by done. intros H%IH. lia.
Qed.

Lemma elem_of_array_locs b n x :
  x ∈ array_locs b n ↔ (b ≤ x < ptr_add b n)%positive.
Proof.
  unfold array_locs, ptr_add. rewrite list_elem_of_fmap. split.
  - intros (i & -> & Hi%elem_of_seq). lia.
  - intros Hx. exists (Z.to_nat (Zpos x - Zpos b)). rewrite elem_of_seq. lia.
Qed.

Lemma NoDup_array_locs b n : NoDup (array_locs b n).
Proof. apply NoDup_fmap; [|apply NoDup_seq]. intros i j. unfold ptr_add. lia. Qed.

Lemma length_array_locs b n : length (array_locs b n) = n.
Proof. unfold array_locs. by rewrite length_fmap, length_seq. Qed.

Lemma lookup_put_cells {A} (v : A) (h : gmap loc A) ls x :
  put_cells v h ls !! x = if decide (x ∈ ls) then Some v else h !! x.
Proof.
  induction ls as [|y ls IH]; simpl; [done|].
  destruct (decide (x = y)) as [->|Hne].
  - rewrite lookup_insert_eq, decide_True by left. done.
  - rewrite lookup_insert_ne, IH by done. repeat case_decide; set_solver.
Qed.

(** [malloc] within the budget: fresh zeroed nodes, the rest unchanged. *)
Lemma malloc_nodes_spec h mem n :
  let ls := array_locs (first_free h) n in
  malloc_nodes h (S mem) n = (Some (first_free h), put_nodes h ls, mem) ∧
  (∀ x, x ∈ ls → h !! x = None ∧ put_nodes h ls !! x = Some zero_node) ∧
  (∀ x, is_Some (h !! x) → x ∉ ls) ∧
  (∀ x, x ∉ ls → put_nodes h ls !! x = h !! x).
Proof.
  assert (∀ x, is_Some (h !! x) → x ∉ array_locs (first_free h) n) as Hfresh.
  { intros x H%first_free_above. rewrite elem_of_array_locs. lia. }
  split_and!; [done| |done|].
  - intros x Hx. split; [|by rewrite lookup_put_cells, decide_True].
    destruct (h !! x) eqn:E; [|done]. exfalso. by eapply Hfresh; [rewrite E|].
  - intros x Hx. by rewrite lookup_put_cells, decide_False.
Qed.

(** Adding nodes leaves the rings as they are. *)
Lemma rings_ok_extend h h' σ :
  rings_ok h σ → (∀ x, is_Some (h !! x) → h' !! x = h !! x) → rings_ok h' σ.
Proof.
  intros (A & B & C) He. split_and!; [done| |done].
  intros r. eapply ring_frame, B. intros y Hy. by eapply He, ring_lookup.
Qed.

Lemma fresh_unchained h σ x : rings_ok h σ → h !! x = None → unchained σ x.
Proof.
  intros (_ & B & _) Hx r Hr. destruct (ring_lookup h (σ r) x (B r) Hr) as [n Hn]. congruence.
Qed.

Lemma alloc_containers_spec (r : rname) (tag : loc → vptr) items h mem σ av :
  rings_ok h σ → stocks h tag (σ r) av → (length items ≤ mem)%nat →
  ∃ h' σ',
    alloc_containers h mem (head (σ r)) (tag <$> items)
      = Ok (h', (mem - length items)%nat, head (σ' r)) ∧
    rings_ok h' σ' ∧ changes_only [r] σ σ' ∧ stocks h' tag (σ' r) (rev items ++ av) ∧
    (∀ x, is_Some (h !! x) → data_of h' x = data_of h x) ∧
    (∀ x, x ∈ σ' r → x ∈ σ r ∨ h !! x = None).
Proof.
  revert h mem σ av. induction items as [|e items IH]; intros h mem σ av Hok Hst Hmem.
  { exists h, σ. simpl. rewrite Nat.sub_0_r. split_and!; eauto with rings. }
  simpl in Hmem. destruct mem as [|mem]; [lia|].
  destruct (malloc_nodes_spec h mem 1) as (Em & Hnew & Hfr & Hold).
  set (n := first_free h) in *. set (h0 := put_nodes h (array_locs n 1)) in *.
  assert (n ∈ array_locs n 1) as Hn by (apply elem_of_array_locs; unfold ptr_add; lia).
  destruct (Hnew n Hn) as [HnN Hn0].
  assert (rings_ok h0 σ) as Hok0 by (eapply rings_ok_extend; eauto).
  set (h1 := <[n := with_data (tag e) zero_node]> h0).
  assert (rings_ok h1 σ) as Hok1 by (by apply rings_ok_set_data).
  pose proof (fresh_unchained _ _ _ Hok HnN) as Hun.
  destruct (ring_prepend h1 σ r Hok1 n Hun) as (h2 & E2 & Hok2 & Hd2).
  { subst h1. rewrite lookup_insert_eq. eauto. }
  assert (∀ x, is_Some (h !! x) → data_of h2 x = data_of h x) as Hkeep.
  { intros x Hx. rewrite Hd2. subst h1. rewrite data_of_set_data, decide_False.
    - unfold data_of. rewrite Hold by auto. done.
    - intros ->. rewrite HnN in Hx. by destruct Hx. }
  set (σ1 := <[r := n :: σ r]> σ) in *.
  assert (σ1 r = n :: σ r) as Hσ1 by (subst σ1; by rewrite fn_lookup_insert).
  destruct (IH h2 mem σ1 (e :: av)) as (h' & σ' & E & Hok' & Hch & Hst' & Hd' & Hfresh');
    [done| |lia|].
  { rewrite Hσ1. constructor.
    - rewrite Hd2. subst h1. by rewrite data_of_set_data, decide_True.
    - eapply stocks_same_data, Hst. intros c Hc. apply Hkeep.
      eapply ring_lookup; [|done]. apply Hok. }
  exists h', σ'. split_and!; [|done| | | |].
  - simpl. unfold list_alloc_node. rewrite Em. unfold set_data.
    rewrite (store_Some _ _ _ _ Hn0). simpl. fold h1. rewrite E2. simpl.
    rewrite <-E, Hσ1. simpl. done.
  - eapply changes_only_trans; [|done]. apply changes_only_insert. left.
  - simpl. by rewrite <-app_assoc.
  - intros x Hx. rewrite Hd'; [by apply Hkeep|]. apply (fmap_is_Some data).
    fold (data_of h2 x). rewrite Hkeep by done. by apply fmap_is_Some.
  - intros x Hx. destruct (Hfresh' x Hx) as [Hx1|Hx1].
    + rewrite Hσ1 in Hx1. apply elem_of_cons in Hx1 as [->|Hx1]; auto.
    + right. destruct (h !! x) eqn:Ex; [|done]. exfalso.
      assert (is_Some (data_of h2 x)) as H; [|unfold data_of in H; rewrite Hx1 in H; by destruct H].
      rewrite Hkeep by (rewrite Ex; eauto). unfold data_of. rewrite Ex. eauto.
Qed.

(** The empty rings of a program that has not started. *)
Definition no_rings : rings := λ _, [].

(** [allocNodelPool] puts every node of the array in the free stock. *)
Lemma allocNodelPool_spec size h mem p σ :
  rings_ok h σ → σ NodelFree = [] → σ NodelUsed = [] →
  nodel_pool_free p = None → nodel_pool_used p = None → (size < mem)%nat →
  ∃ h' p' σ' , allocNodelPool size h mem p = Ok (h', (mem - S size)%nat, p') ∧
    rings_ok h' σ' ∧ changes_only [NodelFree] σ σ' ∧
    nl p' = Some (first_free h) ∧ total_nodes p' = u64 (Z.of_nat size) ∧
    let av := rev (array_locs (first_free h) size) in
    npool_inv h' p' σ' av ∧ length (σ' NodelFree) = size ∧
    (∀ x, is_Some (h !! x) → data_of h' x = data_of h x) ∧
    (∀ x, x ∈ av → h !! x = None ∧ is_Some (h' !! x) ∧ unchained σ' x).
Proof.
  intros Hok Hf Hu Ef Eu Hmem. destruct mem as [|mem]; [lia|].
  destruct (malloc_nodes_spec h mem size) as (Em & Hnew & Hfr & Hold).
  set (b := first_free h) in *. set (ls := array_locs b size) in *.
  set (h0 := put_nodes h ls) in *.
  assert (rings_ok h0 σ) as Hok0 by (eapply rings_ok_extend; eauto).
  destruct (alloc_containers_spec NodelFree VNode ls h0 mem σ []) as
    (h' & σ' & E & Hok' & Hch & Hst & Hd & Hfresh); [done|rewrite Hf; constructor| |].
  { subst ls. rewrite length_array_locs. lia. }
  rewrite app_nil_r in Hst.
  assert (length ls = size) as Hlen by apply length_array_locs.
  exists h', (NPool (head (σ' NodelFree)) (nodel_pool_used p) (u64 (Z.of_nat size))
    (u64 (Z.of_nat size)) (nodel_aux p) (Some b)), σ'.
  split; [|split; [exact Hok'|split; [exact Hch|split; [done|split; [done|]]]]].
  - unfold allocNodelPool. rewrite Em. simpl. rewrite Ef. rewrite Hf in E. simpl in E.
    fold ls. rewrite E. simpl. do 3 f_equal. lia.
  - intros av. split; [|split; [|split]].
    + split_and!; cbn [nodel_pool_free nodel_pool_used free_nodes]; [done| | |done|].
      * rewrite Eu, (Hch NodelUsed), Hu by set_solver. done.
      * subst av. by rewrite length_rev, Hlen.
      * intros b' [= <-] x Hx. cbn in Hx. rewrite (Hch NodelUsed), Hu by set_solver. split; [|set_solver].
        assert (x ∈ ls) as Hin.
        { subst ls. revert Hx. rewrite !elem_of_array_locs. unfold ptr_add.
          assert (u64 (Z.of_nat size) ≤ Z.of_nat size) by (apply Z.mod_le; lia). lia. }
        intros Hxf. destruct (Hnew x Hin) as [_ H0]. destruct (Hfresh x Hxf) as [Hx2|Hx2]; [|congruence].
        rewrite Hf in Hx2. set_solver.
    + erewrite Forall2_length by exact Hst. by rewrite length_rev, Hlen.
    + intros x Hx. rewrite Hd; [|by rewrite Hold by auto]. unfold data_of. by rewrite Hold by auto.
    + intros x Hx. apply list_elem_of_In, in_rev, list_elem_of_In in Hx. destruct (Hnew x Hx) as [HN H0]. split_and!; [done| |].
      * apply (fmap_is_Some data). fold (data_of h' x). rewrite Hd by (rewrite H0; eauto).
        unfold data_of. rewrite H0. simpl. eauto.
      * intros r Hr. destruct (decide (r = NodelFree)) as [->|Hne].
        -- destruct (Hfresh x Hr) as [Hx2|Hx2]; [|congruence]. rewrite Hf in Hx2. set_solver.
        -- rewrite (Hch r) in Hr by set_solver. by apply (fresh_unchained h σ x Hok HN r).
Qed.

(** ** Release of the whole pool *)

Lemma free_list_spec fuel h hd l :
  dll h hd l → (length l ≤ fuel)%nat →
  ∃ h', free_list fuel h hd = Ok h' ∧
    (∀ y, y ∈ l → h' !! y = None) ∧ (∀ y, y ∉ l → h' !! y = h !! y).
Proof.
  revert h hd fuel. induction l as [|x l IH]; intros h hd fuel Hl Hfuel.
  { destruct Hl as (-> & _ & _). exists h. split_and!; [by destruct fuel| |done]. set_solver. }
  destruct fuel as [|fuel]; simpl in Hfuel; [lia|].
  destruct (list_pop_first_node_spec h hd x l Hl) as (h1 & E1 & Hl1 & Ht & [n Hn]).
  pose proof Hl as (-> & Hnd & _). apply NoDup_cons in Hnd as [Hx Hnd].
  simpl in E1. simpl. rewrite E1. simpl. rewrite Hn. simpl.
  destruct (IH (delete x h1) (head l) fuel) as (h' & E & Hin & Hout); [|lia|].
  { destruct Hl1 as (_ & Hnd1 & Hr1). split_and!; [done|done|].
    eapply ring_frame, Hr1. intros y Hy. apply lookup_delete_ne. by intros ->. }
  exists h'. split_and!; [done| |].
  - intros y [->|Hy]%elem_of_cons; [|by apply Hin].
    rewrite Hout by done. apply lookup_delete_eq.
  - intros y Hy. rewrite Hout by set_solver. rewrite lookup_delete_ne by set_solver.
    by apply Ht.
Qed.

#[local] Arguments free_list : simpl never.

Lemma free_array_spec h ls :
  NoDup ls → (∀ x, x ∈ ls → is_Some (h !! x)) →
  ∃ h', free_array h ls = Ok h' ∧
    (∀ y, y ∈ ls → h' !! y = None) ∧ (∀ y, y ∉ ls → h' !! y = h !! y).
Proof.
  revert h. induction ls as [|x ls IH]; intros h Hnd Hsome.
  { exists h. split_and!; [done| |done]. set_solver. }
  apply NoDup_cons in Hnd as [Hx Hnd]. destruct (Hsome x ltac:(left)) as [n Hn].
  simpl. rewrite Hn. simpl. destruct (IH (delete x h) Hnd) as (h' & E & Hin & Hout).
  { intros y Hy. rewrite lookup_delete_ne by (by intros ->). apply Hsome. by right. }
  exists h'. split_and!; [done| |].
  - intros y [->|Hy]%elem_of_cons; [|by apply Hin].
    rewrite Hout by done. apply lookup_delete_eq.
  - intros y Hy. rewrite Hout by set_solver. by rewrite lookup_delete_ne by set_solver.
Qed.

(** [freeNodelPool] runs to the end without a double free: what it frees is the
    containers of both lists and the array. *)
Lemma freeNodelPool_spec size h p σ av b :
  rings_ok h σ → npool_inv h p σ av → nl p = Some b →
  (∀ x, x ∈ array_locs b size → is_Some (h !! x) ∧ x ∉ σ NodelFree ∧ x ∉ σ NodelUsed) →
  ∃ h' p', freeNodelPool size h p = Ok (h', p') ∧
    nodel_pool_free p' = None ∧ nodel_pool_used p' = None ∧
    (∀ y, h' !! y = if decide (y ∈ σ NodelFree ++ σ NodelUsed ++ array_locs b size)
                    then None else h !! y).
Proof.
  intros Hok (Ef & Eu & _) Hnl Harr. unfold freeNodelPool.
  pose proof (rings_ok_dll _ _ NodelFree Hok) as Hlf.
  pose proof (rings_ok_dll _ _ NodelUsed Hok) as Hlu.
  destruct Hok as (A & B & C).
  assert (∀ r, (length (σ r) ≤ base.size h)%nat) as Hsz.
  { intros r. apply ring_length_size; [done|]. intros x. by apply ring_lookup. }
  rewrite Ef. destruct (free_list_spec (S (base.size h)) h _ _ Hlf) as (h1 & E1 & Hin1 & Hout1);
    [specialize (Hsz NodelFree); lia|].
  rewrite E1. simpl.
  assert (dll h1 (head (σ NodelUsed)) (σ NodelUsed)) as Hlu1.
  { split_and!; [done|apply A|]. eapply ring_frame, B. intros y Hy. apply Hout1.
    intros Hy2. by specialize (C _ _ _ Hy Hy2). }
  rewrite Eu. destruct (free_list_spec (S (base.size h1)) h1 _ _ Hlu1) as (h2 & E2 & Hin2 & Hout2).
  { assert (length (σ NodelUsed) ≤ base.size h1)%nat; [|lia].
    apply ring_length_size; [done|]. intros x. apply ring_lookup. apply Hlu1. }
  rewrite E2. simpl. rewrite Hnl. simpl.
  destruct (free_array_spec h2 (array_locs b size)) as (h3 & E3 & Hin3 & Hout3).
  { apply NoDup_array_locs. }
  { intros x Hx. destruct (Harr x Hx) as (? & ? & ?). by rewrite Hout2, Hout1. }
  rewrite E3. simpl. eexists _, _. split_and!; [done|done|done|].
  intros y. case_decide as Hd; rewrite !elem_of_app in Hd.
  - destruct (decide (y ∈ array_locs b size)); [by apply Hin3|]. rewrite Hout3 by done.
    destruct (decide (y ∈ σ NodelUsed)); [by apply Hin2|]. rewrite Hout2 by done.
    apply Hin1. tauto.
  - by rewrite Hout3, Hout2, Hout1 by tauto.
Qed.
