(* ===== verification/SessionPool.v ===== *)
(** * pool.c: the pool of [IPSession] structures

    [allocIPSessionPool], [getIPSession], [releaseIPSession] and
    [freeIPSessionPool] of flujos/src/pool.c, as a second implementation of the
    pool interface of Pools.v.  The containers live in the node heap, the
    sessions in their own heap. *)

From S2P Require Import Prelude Log NodeList Rings FlowData Pools NodePool.

Record spool := SPool {
  ip_session_pool_free : option loc;
  ip_session_pool_used : option loc;
  used_session : Z;             (** uint64_t *)
  free_session : Z;             (** uint64_t *)
  ips : option loc
}.

Definition init_spool : spool := SPool None None 0 0 None.

(** [allocIPSessionPool], for a pool of [size] sessions (the code's is
    [MAX_POOL_NODE/2]); the argument [nNetworks] is not used. *)
Definition allocIPSessionPool (size : nat) (h : heap) (ss : sheap) (mem : nat) (p : spool) :
    res (heap * sheap * nat * spool) :=
  match mem with
  | O => Err AssertFail                                (* assert(ips!=NULL) *)
  | S mem =>
      let base := first_free ss in
      let ls := array_locs base size in
      let ss := put_cells zero_session ss ls in
      '(h, mem, free) ← alloc_containers h mem (ip_session_pool_free p) (VSession <$> ls);
      Ok (h, ss, mem, SPool free (ip_session_pool_used p) 0 (u64 (Z.of_nat size)) (Some base))
  end.

(** The part of [getIPSession] under the lock: [None] when only one session is
    left, [exit(-1)] when there is none. *)
Definition take_session (h : heap) (p : spool) : res (option (option loc) * heap * spool) :=
  '(h, free, n) ← list_pop_first_node h (ip_session_pool_free p);
  if decide (free = None) then
    match n with
    | None => Err (ExitProgram (-1))
    | Some _ =>
        '(h, free) ← list_append_node h free n;
        Ok (None, h, SPool free (ip_session_pool_used p) (used_session p) (free_session p) (ips p))
    end
  else
    '(h, used) ← list_append_node h (ip_session_pool_used p) n;
    nd ← load h n;
    s ← as_session (data nd);
    Ok (Some s, h, SPool free used (u64 (used_session p + 1)) (u64 (free_session p - 1)) (ips p)).

(** [getIPSession]: NULL and a throttled log message when the pool is empty. *)
Definition getIPSession (h : heap) (p : spool) (lg : logst) :
    res (option loc * heap * spool * logst) :=
  '(r, h, p) ← take_session h p;
  match r with
  | None =>
      lg ← logErrorCount lg "Pool de flujos vacío" MEMORY_ERROR;
      Ok (None, h, p, lg)
  | Some s => Ok (s, h, p, lg)
  end.

(** The container handling of [releaseIPSession]. *)
Definition put_session (h : heap) (p : spool) (f : option loc) : res (heap * spool) :=
  '(h, used, n) ← list_pop_first_node h (ip_session_pool_used p);
  h ← set_data h n (match f with Some x => VSession x | None => VNull end);
  '(h, free) ← list_append_node h (ip_session_pool_free p) n;
  Ok (h, SPool free used (u64 (used_session p - 1)) (u64 (free_session p + 1)) (ips p)).

(** [releaseIPSession]: clears the flow and gives the session back. *)
Definition releaseIPSession (h : heap) (ss : sheap) (p : spool) (f : option loc) :
    res (heap * sheap * spool) :=
  ss ← sstore ss f (with_incoming zero_flow);
  '(h, p) ← put_session h p f;
  Ok (h, ss, p).

Fixpoint free_sessions (ss : sheap) (ls : list loc) : res sheap :=
  match ls with
  | [] => Ok ss
  | x :: ls => _ ← or_fault (ss !! x) NullDeref; free_sessions (delete x ss) ls
  end.

Definition freeIPSessionPool (size : nat) (h : heap) (ss : sheap) (p : spool) :
    res (heap * sheap * spool) :=
  h ← free_list (S (base.size h)) h (ip_session_pool_free p);
  h ← free_list (S (base.size h)) h (ip_session_pool_used p);
  base ← or_fault (ips p) NullDeref;
  ss ← free_sessions ss (array_locs base size);
  Ok (h, ss, SPool None None (used_session p) (free_session p) (ips p)).

(** ** The pool invariant *)

Definition spool_inv (h : heap) (p : spool) (σ : rings) (av : list loc) : Prop :=
  ip_session_pool_free p = head (σ SessFree) ∧
  ip_session_pool_used p = head (σ SessUsed) ∧
  free_session p = u64 (Z.of_nat (length av)) ∧
  used_session p = u64 (Z.of_nat (length (σ SessUsed))) ∧
  stocks h VSession (σ SessFree) av.

Ltac spool_proj :=
  cbn [ip_session_pool_free ip_session_pool_used free_session used_session].

Lemma take_session_spec h p σ x y av :
  rings_ok h σ → spool_inv h p σ (x :: y :: av) →
  ∃ h' p' c cs, σ SessFree = c :: cs ∧ take_session h p = Ok (Some (Some x), h', p') ∧
    ips p' = ips p ∧
    let σ' := <[SessUsed := σ SessUsed ++ [c]]> (<[SessFree := cs]> σ) in
    rings_ok h' σ' ∧ spool_inv h' p' σ' (y :: av) ∧ same_data h h'.
Proof.
  intros Hok (Ef & Eu & En & Em & Hst). apply stocks_cons_inv in Hst as (c & cs & Hf & Hc & Hst).
  destruct (containers_take h σ SessFree SessUsed Hok ltac:(done) c cs Hf)
    as (h1 & h2 & E1 & E2 & Hok2 & Hd2).
  pose proof (stocks_cons_inv _ _ _ _ _ Hst) as (c2 & cs2 & -> & _ & _).
  assert (data_of h2 c = Some (VSession x)) as Hc2 by (by rewrite Hd2).
  apply data_of_load in Hc2 as (nd & Hnd & Hdat).
  unfold take_session. rewrite Ef, E1. simpl. rewrite Eu, E2. simpl.
  rewrite (load_Some _ _ _ Hnd). simpl. rewrite Hdat. simpl.
  eexists _, _, _, _. split_and!; [done|done|done|done| |done].
  split_and!; spool_proj.
  - by rewrite fn_lookup_insert_ne, fn_lookup_insert by done.
  - by rewrite fn_lookup_insert.
  - rewrite En. apply (u64_pred (S (length av))).
  - rewrite fn_lookup_insert, Em, length_app. simpl. rewrite u64_succ. f_equal. lia.
  - rewrite fn_lookup_insert_ne, fn_lookup_insert by done.
    eapply stocks_same_data, Hst. intros z _. apply Hd2.
Qed.

Lemma take_session_last h p σ x :
  rings_ok h σ → spool_inv h p σ [x] →
  ∃ h' p', take_session h p = Ok (None, h', p') ∧ rings_ok h' σ ∧ spool_inv h' p' σ [x] ∧
    same_data h h' ∧ p' = p.
Proof.
  intros Hok (Ef & Eu & En & Em & Hst). pose proof Hst as Hst'.
  apply stocks_cons_inv in Hst as (c & cs & Hf & Hc & Hst).
  apply Forall2_nil_inv_r in Hst as ->.
  destruct (containers_rotate h σ SessFree Hok c Hf) as (h1 & h2 & E1 & E2 & Hok2 & Hd2).
  unfold take_session. rewrite Ef, E1. simpl. rewrite E2. simpl.
  eexists _, _. split_and!; [done|done| |done|].
  - split_and!; spool_proj; [by rewrite Hf|done|done|done|].
    eapply stocks_same_data, Hst'. intros z _. apply Hd2.
  - destruct p; simpl in *. by rewrite Ef, Hf.
Qed.

(** An empty pool stops the program. *)
Lemma take_session_empty h p σ :
  spool_inv h p σ [] → take_session h p = Err (ExitProgram (-1)).
Proof.
  intros (Ef & _ & _ & _ & Hst). apply Forall2_nil_inv_r in Hst.
  unfold take_session. rewrite Ef, Hst. done.
Qed.

Lemma put_session_spec h p σ av x :
  rings_ok h σ → spool_inv h p σ av → σ SessUsed ≠ [] →
  ∃ h' p' c cs, σ SessUsed = c :: cs ∧ put_session h p (Some x) = Ok (h', p') ∧
    ips p' = ips p ∧
    let σ' := <[SessFree := σ SessFree ++ [c]]> (<[SessUsed := cs]> σ) in
    rings_ok h' σ' ∧ spool_inv h' p' σ' (av ++ [x]) ∧
    (∀ y, data_of h' y = if decide (y = c) then Some (VSession x) else data_of h y).
Proof.
  intros Hok (Ef & Eu & En & Em & Hst) Hne. destruct (σ SessUsed) as [|c cs] eqn:Hu; [done|].
  destruct (containers_put h σ SessFree SessUsed Hok ltac:(done) c cs (VSession x) Hu)
    as (h1 & h2 & h3 & E1 & E2 & E3 & Hok3 & Hd3).
  assert (c ∉ σ SessFree) as Hcf.
  { intros Hcf. destruct Hok as (_ & _ & C).
    specialize (C SessFree SessUsed c Hcf). rewrite Hu in C. by specialize (C ltac:(left)). }
  unfold put_session. rewrite Eu, <-Hu, E1. simpl. rewrite E2. simpl. rewrite Ef, E3. simpl.
  eexists _, _, c, cs. split_and!; [done|done|done|done| |done].
  split_and!; spool_proj.
  - by rewrite fn_lookup_insert.
  - by rewrite fn_lookup_insert_ne, fn_lookup_insert by done.
  - rewrite En, length_app. simpl. rewrite u64_succ. f_equal. lia.
  - rewrite fn_lookup_insert_ne, fn_lookup_insert by done. rewrite Em. apply u64_pred.
  - rewrite fn_lookup_insert. apply stocks_snoc.
    + eapply stocks_same_data, Hst. intros z Hz. rewrite Hd3, decide_False; [done|].
      by intros ->.
    + by rewrite Hd3, decide_True.
Qed.

(** [SessionPool] is a [FifoPool]. *)
#[export] Instance session_pool : FifoPool SessFree SessUsed VSession take_session put_session spool_inv.
Proof.
  split.
  - by intros h p σ av (_ & _ & _ & _ & ?).
  - intros h h' p σ σ' av (Ef & Eu & En & Em & Hst) Hd E1 E2. unfold spool_inv. rewrite E1, E2.
    split_and!; [done..|]. by eapply stocks_same_data, Hst.
  - intros h p σ x y av Hok Hinv.
    destruct (take_session_spec h p σ x y av Hok Hinv) as
      (h' & p' & c & cs & Hf & E & _ & Hok' & Hinv' & Hd).
    exists h', p'. eexists. split_and!; [exact E|exact Hok'|exact Hinv'|exact Hd| | |].
    + intros r Hr. rewrite !fn_lookup_insert_ne by set_solver. done.
    + rewrite fn_lookup_insert, length_app. simpl. lia.
    + intros z. by apply chains_take.
  - intros h p σ x Hok Hinv.
    destruct (take_session_last h p σ x Hok Hinv) as (h' & p' & E & Hok' & Hinv' & Hd & _).
    by exists h', p'.
  - intros h p σ av x Hok Hinv Hne.
    destruct (put_session_spec h p σ av x Hok Hinv Hne) as
      (h' & p' & c & cs & Hu & E & _ & Hok' & Hinv' & Hd).
    exists h', p'. eexists. split_and!; [exact E|exact Hok'|exact Hinv'| | | | |].
    + intros y Hy. rewrite Hd, decide_False; [done|]. intros ->. apply Hy. rewrite Hu. left.
    + intros y [n Hn]. apply (fmap_is_Some data). fold (data_of h' y). rewrite Hd.
      unfold data_of. rewrite Hn. case_decide; eauto.
    + intros r Hr. rewrite !fn_lookup_insert_ne by set_solver. done.
    + rewrite fn_lookup_insert_ne, fn_lookup_insert by done. by rewrite Hu.
    + intros z. pose proof (chains_take σ SessUsed SessFree c cs z ltac:(done) Hu) as H.
      simpl in H. tauto.
Qed.

(** [allocIPSessionPool] puts every session of the array, zeroed, in the free stock. *)
Lemma allocIPSessionPool_spec size h ss mem p σ :
  rings_ok h σ → σ SessFree = [] → σ SessUsed = [] →
  ip_session_pool_free p = None → ip_session_pool_used p = None → (size < mem)%nat →
  ∃ h' p' σ',
    allocIPSessionPool size h ss mem p
      = Ok (h', put_cells zero_session ss (array_locs (first_free ss) size), (mem - S size)%nat, p') ∧
    rings_ok h' σ' ∧ changes_only [SessFree] σ σ' ∧ ips p' = Some (first_free ss) ∧
    spool_inv h' p' σ' (rev (array_locs (first_free ss) size)).
Proof.
  intros Hok Hf Hu Ef Eu Hmem. destruct mem as [|mem]; [lia|].
  set (ls := array_locs (first_free ss) size).
  assert (length ls = size) as Hlen by apply length_array_locs.
  destruct (alloc_containers_spec SessFree VSession ls h mem σ []) as
    (h' & σ' & E & Hok' & Hch & Hst & _); [done|rewrite Hf; constructor|lia|].
  rewrite app_nil_r in Hst.
  exists h', (SPool (head (σ' SessFree)) (ip_session_pool_used p) 0 (u64 (Z.of_nat size))
    (Some (first_free ss))), σ'.
  split; [|split; [done|split; [done|split; [done|]]]]; [|split_and!; spool_proj; [done| | | |done]].
  - unfold allocIPSessionPool. fold ls. rewrite Ef. rewrite Hf in E. simpl in E. rewrite E. simpl.
    by rewrite Hlen.
  - rewrite Eu, (Hch SessUsed), Hu by set_solver. done.
  - by rewrite length_rev, Hlen.
  - rewrite (Hch SessUsed), Hu by set_solver. done.
Qed.

(** ** Release of the whole pool *)

#[local] Arguments free_list : simpl never.

Lemma free_sessions_spec ss ls :
  NoDup ls → (∀ x, x ∈ ls → is_Some (ss !! x)) →
  ∃ ss', free_sessions ss ls = Ok ss' ∧ ∀ y, ss' !! y = if decide (y ∈ ls) then None else ss !! y.
Proof.
  revert ss. induction ls as [|x ls IH]; intros ss Hnd Hsome; [by exists ss|].
  apply NoDup_cons in Hnd as [Hx Hnd]. destruct (Hsome x ltac:(left)) as [n Hn].
  simpl. rewrite Hn. simpl. destruct (IH (delete x ss) Hnd) as (ss' & E & Hy).
  { intros y Hy. rewrite lookup_delete_ne by (by intros ->). apply Hsome. by right. }
  exists ss'. split; [done|]. intros y. rewrite Hy.
  destruct (decide (y = x)) as [->|Hne].
  - rewrite lookup_delete_eq, decide_False, decide_True by (done || left). done.
  - rewrite lookup_delete_ne by done. repeat case_decide; set_solver.
Qed.

(** [freeIPSessionPool] runs to the end without a double free. *)
Lemma freeIPSessionPool_spec size h ss p σ av b :
  rings_ok h σ → spool_inv h p σ av → ips p = Some b →
  (∀ x, x ∈ array_locs b size → is_Some (ss !! x)) →
  ∃ h' ss' p', freeIPSessionPool size h ss p = Ok (h', ss', p') ∧
    (∀ y, h' !! y = if decide (y ∈ σ SessFree ++ σ SessUsed) then None else h !! y) ∧
    (∀ y, ss' !! y = if decide (y ∈ array_locs b size) then None else ss !! y).
Proof.
  intros Hok (Ef & Eu & _) Hips Harr. unfold freeIPSessionPool.
  pose proof (rings_ok_dll _ _ SessFree Hok) as Hlf.
  pose proof (rings_ok_dll _ _ SessUsed Hok) as Hlu.
  destruct Hok as (A & B & C).
  rewrite Ef. destruct (free_list_spec (S (base.size h)) h _ _ Hlf) as (h1 & E1 & Hin1 & Hout1).
  { assert (length (σ SessFree) ≤ base.size h)%nat; [|lia].
    apply ring_length_size; [done|]. intros x. by apply ring_lookup. }
  rewrite E1. simpl.
  assert (dll h1 (head (σ SessUsed)) (σ SessUsed)) as Hlu1.
  { split_and!; [done|apply A|]. eapply ring_frame, B. intros y Hy. apply Hout1.
    intros Hy2. by specialize (C _ _ _ Hy Hy2). }
  rewrite Eu. destruct (free_list_spec (S (base.size h1)) h1 _ _ Hlu1) as (h2 & E2 & Hin2 & Hout2).
  { assert (length (σ SessUsed) ≤ base.size h1)%nat; [|lia].
    apply ring_length_size; [done|]. intros x. apply ring_lookup. apply Hlu1. }
  rewrite E2. simpl. rewrite Hips. simpl.
  destruct (free_sessions_spec ss (array_locs b size)) as (ss' & E3 & Hss);
    [apply NoDup_array_locs|done|].
  rewrite E3. simpl. eexists _, _, _. split_and!; [done| |done].
  intros y. case_decide as Hd; rewrite elem_of_app in Hd.
  - destruct (decide (y ∈ σ SessUsed)); [by apply Hin2|]. rewrite Hout2 by done.
    apply Hin1. tauto.
  - by rewrite Hout2, Hout1 by tauto.
Qed.
