(* ===== verification/FlowTable.v ===== *)
(** * IPflow.c: the flow table

    The global state of the flow monitor that IPflow.c works on, and its
    operations: [insertFlowTable], [updateFlowTable], [insertFlow] and
    [cleanup_flows], with the writes in the order of the code.  The table
    [flow_table] is a map from slots to list heads; a slot without an entry is
    NULL. *)

From S2P Require Import Prelude Log NodeList Rings FlowData Pools NodePool SessionPool.

(** ** State *)

Record fstate := FState {
  nodes : heap;
  sessions : sheap;
  nodel : npool;
  ip_session : spool;
  log : logst;
  static_node : node_l;
  flow_table : gmap Z loc;
  active_flow_list : option loc;
  expired_flow_list : option loc;
  flags_expired_flow_list : option loc;
  aux_session : option loc;
  last_packet_timestamp : Z;        (** uint64_t, microseconds *)
  unprocessed_flows : Z;            (** uint64_t *)
  unprocessed_packets : Z;          (** uint64_t *)
  count_pckts_malformed : Z         (** uint64_t *)
}.

Definition with_nodes (h : heap) (s : fstate) : fstate :=
  FState h (sessions s) (nodel s) (ip_session s) (log s) (static_node s) (flow_table s)
    (active_flow_list s) (expired_flow_list s) (flags_expired_flow_list s) (aux_session s)
    (last_packet_timestamp s) (unprocessed_flows s) (unprocessed_packets s)
    (count_pckts_malformed s).
Definition with_sessions (ss : sheap) (s : fstate) : fstate :=
  FState (nodes s) ss (nodel s) (ip_session s) (log s) (static_node s) (flow_table s)
    (active_flow_list s) (expired_flow_list s) (flags_expired_flow_list s) (aux_session s)
    (last_packet_timestamp s) (unprocessed_flows s) (unprocessed_packets s)
    (count_pckts_malformed s).
Definition with_nodel (h : heap) (p : npool) (s : fstate) : fstate :=
  FState h (sessions s) p (ip_session s) (log s) (static_node s) (flow_table s)
    (active_flow_list s) (expired_flow_list s) (flags_expired_flow_list s) (aux_session s)
    (last_packet_timestamp s) (unprocessed_flows s) (unprocessed_packets s)
    (count_pckts_malformed s).
Definition with_pool (h : heap) (ss : sheap) (p : spool) (lg : logst) (s : fstate) : fstate :=
  FState h ss (nodel s) p lg (static_node s) (flow_table s)
    (active_flow_list s) (expired_flow_list s) (flags_expired_flow_list s) (aux_session s)
    (last_packet_timestamp s) (unprocessed_flows s) (unprocessed_packets s)
    (count_pckts_malformed s).
Definition with_static (n : node_l) (s : fstate) : fstate :=
  FState (nodes s) (sessions s) (nodel s) (ip_session s) (log s) n (flow_table s)
    (active_flow_list s) (expired_flow_list s) (flags_expired_flow_list s) (aux_session s)
    (last_packet_timestamp s) (unprocessed_flows s) (unprocessed_packets s)
    (count_pckts_malformed s).
Definition with_table (t : gmap Z loc) (s : fstate) : fstate :=
  FState (nodes s) (sessions s) (nodel s) (ip_session s) (log s) (static_node s) t
    (active_flow_list s) (expired_flow_list s) (flags_expired_flow_list s) (aux_session s)
    (last_packet_timestamp s) (unprocessed_flows s) (unprocessed_packets s)
    (count_pckts_malformed s).
(** The three list heads. *)
Definition with_heads (a e f : option loc) (s : fstate) : fstate :=
  FState (nodes s) (sessions s) (nodel s) (ip_session s) (log s) (static_node s) (flow_table s)
    a e f (aux_session s)
    (last_packet_timestamp s) (unprocessed_flows s) (unprocessed_packets s)
    (count_pckts_malformed s).
Definition with_aux (a : option loc) (s : fstate) : fstate :=
  FState (nodes s) (sessions s) (nodel s) (ip_session s) (log s) (static_node s) (flow_table s)
    (active_flow_list s) (expired_flow_list s) (flags_expired_flow_list s) a
    (last_packet_timestamp s) (unprocessed_flows s) (unprocessed_packets s)
    (count_pckts_malformed s).
Definition with_time (t : Z) (s : fstate) : fstate :=
  FState (nodes s) (sessions s) (nodel s) (ip_session s) (log s) (static_node s) (flow_table s)
    (active_flow_list s) (expired_flow_list s) (flags_expired_flow_list s) (aux_session s)
    t (unprocessed_flows s) (unprocessed_packets s) (count_pckts_malformed s).
(** [unprocessed_flows], [unprocessed_packets] and [count_pckts_malformed]. *)
Definition with_drops (uf up mf : Z) (s : fstate) : fstate :=
  FState (nodes s) (sessions s) (nodel s) (ip_session s) (log s) (static_node s) (flow_table s)
    (active_flow_list s) (expired_flow_list s) (flags_expired_flow_list s) (aux_session s)
    (last_packet_timestamp s) uf up mf.

Definition with_log (lg : logst) (s : fstate) : fstate :=
  with_pool (nodes s) (sessions s) (ip_session s) lg s.

(** The message of [getNodel] on the last node. *)
Definition pool_empty (s : fstate) : res fstate :=
  lg ← logError (log s) "Pool de nodos vacío"; Ok (with_log lg s).

Definition drop_flow (s : fstate) : fstate :=
  with_drops (u64 (unprocessed_flows s + 1)) (unprocessed_packets s) (count_pckts_malformed s) s.
Definition drop_packet (s : fstate) : fstate :=
  with_drops (unprocessed_flows s) (u64 (unprocessed_packets s + 1)) (count_pckts_malformed s) s.
Definition drop_malformed (s : fstate) : fstate :=
  with_drops (unprocessed_flows s) (unprocessed_packets s) (u64 (count_pckts_malformed s + 1)) s.

(** [flow_table[index]], an array of [MAX_FLOW_TABLE_SIZE] pointers. *)
Definition table_get (t : gmap Z loc) (index : Z) : res (option loc) :=
  if (0 <=? index) && (index <? MAX_FLOW_TABLE_SIZE) then Ok (t !! index) else Err OutOfBounds.

Definition table_set (t : gmap Z loc) (index : Z) (v : option loc) : res (gmap Z loc) :=
  if (0 <=? index) && (index <? MAX_FLOW_TABLE_SIZE)
  then Ok (match v with Some x => <[index := x]> t | None => delete index t end)
  else Err OutOfBounds.

(** A pointer stored in a [void *] field. *)
Definition session_ptr (p : option loc) : vptr :=
  match p with Some x => VSession x | None => VNull end.
Definition node_ptr (p : option loc) : vptr :=
  match p with Some x => VNode x | None => VNull end.

(** ** insertFlowTable *)

Definition insertFlowTable (s : fstate) (aux : option loc) (index : Z) :
    res (option loc * fstate) :=
  list ← table_get (flow_table s) index;
  let now := last_packet_timestamp s in
  ss ← sstore (sessions s) aux (with_timestamps now now);
  ss ← sstore ss aux (with_current_flow aux);
  let s := with_sessions ss s in
  '(r, h, p) ← take_nodel (nodes s) (nodel s);
  let s := with_nodel h p s in
  match r with
  | None => s ← pool_empty s; Ok (aux, drop_flow s)
  | Some naux =>
      h ← set_data (nodes s) naux (session_ptr aux);
      let s := with_nodes h s in
      '(r, h, p) ← take_nodel (nodes s) (nodel s);
      let s := with_nodel h p s in
      match r with
      | None =>
          s ← pool_empty s;
          '(h, p) ← releaseNodel (nodes s) (nodel s) naux;
          Ok (aux, drop_flow (with_nodel h p s))
      | Some new_active_node =>
          h ← set_data (nodes s) new_active_node (node_ptr naux);
          '(h, list) ← list_prepend_node h list naux;
          t ← table_set (flow_table s) index list;
          let s := with_table t s in
          '(h, active) ← list_prepend_node h (active_flow_list s) new_active_node;
          ss ← sstore (sessions s) aux (with_active_node new_active_node);
          Ok (None, with_heads active (expired_flow_list s) (flags_expired_flow_list s)
                      (with_sessions ss (with_nodes h s)))
      end
  end.

(** ** updateFlowTable *)

(** [f->nbytes += nb; f->npack++] through a pointer to the flow of a session. *)
Definition add_bytes (nb : Z) (s : IPSession) : IPSession :=
  with_incoming (with_counters (npack (incoming s)) (u64 (nbytes (incoming s) + nb)) (incoming s)) s.
Definition add_packet (s : IPSession) : IPSession :=
  with_incoming (with_counters (u32 (npack (incoming s) + 1)) (nbytes (incoming s)) (incoming s)) s.

Definition updateFlowTable (s : fstate) (current_session : option loc) (new_flow : IPFlow) :
    res fstate :=
  cs ← sload (sessions s) current_session;
  ss ← sstore (sessions s) (current_flow cs) (add_bytes (nbytes new_flow));
  ss ← sstore ss current_session (with_lastpacket (last_packet_timestamp s));
  cs ← sload ss current_session;
  ss ← sstore ss (current_flow cs) add_packet;
  cs ← sload ss current_session;
  '(h, active) ← list_unlink (nodes s) (active_flow_list s) (active_node cs);
  '(h, active) ← list_prepend_node h active (active_node cs);
  Ok (with_heads active (expired_flow_list s) (flags_expired_flow_list s)
        (with_sessions ss (with_nodes h s))).

(** ** insertFlow *)

Definition insertFlow (s : fstate) (aux : option loc) : res (option loc * fstate) :=
  a ← sload (sessions s) aux;
  let new_flow := incoming a in
  let index := getIndex new_flow in
  list ← table_get (flow_table s) index;
  let s := with_static (with_data (session_ptr aux) (static_node s)) s in
  current_node ← list_search (nodes s) list (static_node s) (compareTupleFlow (sessions s));
  match current_node with
  | None => insertFlowTable s aux index
  | Some _ =>
      cn ← load (nodes s) current_node;
      current_session ← as_session (data cn);
      cs ← sload (sessions s) current_session;
      if EXPIRATION_FLOW_TIME <? u64 (last_packet_timestamp s - lastpacket_timestamp cs) then
        insertFlowTable s aux index
      else
        s ← updateFlowTable s current_session new_flow;
        Ok (aux, s)
  end.

(** ** cleanup_flows *)

(** The body both loops share: take the session's node out of the hash table, let
    the list node [n] point to the session itself and release the table node. *)
Definition leave_table (s : fstate) (n : option loc) : res fstate :=
  nn ← load (nodes s) n;
  current_node_session_table ← as_node (data nn);
  cn ← load (nodes s) current_node_session_table;
  current_session ← as_session (data cn);
  cs ← sload (sessions s) current_session;
  let index := getIndex (incoming cs) in
  slot ← table_get (flow_table s) index;
  '(h, slot) ← list_unlink (nodes s) slot current_node_session_table;
  t ← table_set (flow_table s) index slot;
  cn ← load h current_node_session_table;
  h ← set_data h n (data cn);
  '(h, p) ← releaseNodel h (nodel s) current_node_session_table;
  Ok (with_table t (with_nodel h p s)).

(** The first loop: from the last active flow backwards, until one has not expired. *)
Fixpoint expire_active (fuel : nat) (s : fstate) (n : option loc) : res fstate :=
  match n, fuel with
  | None, _ => Ok s
  | Some _, O => Err OutOfFuel
  | Some _, S fuel =>
      nn ← load (nodes s) n;
      tbl ← as_node (data nn);
      cn ← load (nodes s) tbl;
      current_session ← as_session (data cn);
      cs ← sload (sessions s) current_session;
      let aux := u64 (last_packet_timestamp s - lastpacket_timestamp cs) in
      if EXPIRATION_FLOW_TIME <? aux then
        s ← leave_table s n;
        let naux := n in
        n ← list_get_prev_node (nodes s) (active_flow_list s) n;
        '(h, active) ← list_unlink (nodes s) (active_flow_list s) naux;
        '(h, flags) ← list_append_node h (flags_expired_flow_list s) naux;
        expire_active fuel (with_heads active (expired_flow_list s) flags (with_nodes h s)) n
      else Ok s
  end.

(** The second loop: the flows that were in the flags list when the call began. *)
Fixpoint expire_flags (fuel : nat) (s : fstate) (n : option loc) : res fstate :=
  match n, fuel with
  | None, _ => Ok s
  | Some _, O => Err OutOfFuel
  | Some _, S fuel =>
      s ← leave_table s n;
      n ← list_get_prev_node (nodes s) (flags_expired_flow_list s) n;
      expire_flags fuel s n
  end.

(** The splice of the flags list behind the expired list. *)
Definition splice_expired (h : heap) (expired flags : option loc) : res (heap * option loc) :=
  let first_expired := list_get_first_node expired in
  last_expired ← list_get_last_node h expired;
  last_expired_flags ← list_get_last_node h flags;
  let first_expired_flags := list_get_first_node flags in
  match first_expired with
  | Some _ =>
      h ← set_prev h first_expired last_expired_flags;
      h ← set_next h last_expired first_expired_flags;
      h ← set_prev h first_expired_flags last_expired;
      h ← set_next h last_expired_flags first_expired;
      Ok (h, expired)
  | None => Ok (h, first_expired_flags)
  end.

Definition cleanup_flows (s : fstate) : res fstate :=
  n_flags ← list_get_last_node (nodes s) (flags_expired_flow_list s);
  n ← list_get_last_node (nodes s) (active_flow_list s);
  s ← expire_active (S (size (nodes s))) s n;
  s ← expire_flags (S (size (nodes s))) s n_flags;
  s ← match flags_expired_flow_list s with
      | Some _ =>
          '(h, expired) ← splice_expired (nodes s) (expired_flow_list s) (flags_expired_flow_list s);
          Ok (with_heads (active_flow_list s) expired (flags_expired_flow_list s) (with_nodes h s))
      | None => Ok s
      end;
  Ok (with_heads (active_flow_list s) (expired_flow_list s) None s).
