(* ===== verification/FlowCore.v ===== *)
(** * The shared node heap of the flow table

    Every operation of IPflow.c moves nodes between the node pool, the lists of
    the program and the hands of the running function.  [core] says that the
    heap is in order: all lists are rings, both pools are well formed, and the
    nodes that are free ([av]) or held ([out]) are allocated, distinct and in no
    list.  One lemma per primitive operation transports it. *)

From S2P Require Import Prelude Log NodeList Rings FlowData Pools NodePool SessionPool.

(** The rings that hold the containers of the pools. *)
Definition pool_rings : list rname := [NodelFree; NodelUsed; SessFree; SessUsed].

Record core (h : heap) (p : npool) (q : spool) (σ : rings) (av avs out : list loc) : Prop := {
  core_rings : rings_ok h σ;
  core_npool : npool_inv h p σ av;
  core_spool : spool_inv h q σ avs;
  core_nodup : NoDup (out ++ av);
  core_loose : ∀ x, x ∈ out ++ av → unchained σ x ∧ is_Some (h !! x);
  core_apart : array_apart p (σ SessFree) (σ SessUsed)
}.

#[local] Ltac ring_simpl :=
  repeat first [rewrite fn_lookup_insert | rewrite fn_lookup_insert_ne by (done || congruence)].

Lemma unchained_change σ σ' rs x :
  changes_only rs σ σ' → (∀ r, r ∈ rs → x ∉ σ' r) → unchained σ x → unchained σ' x.
Proof.
  intros Hc Hrs Hu r. destruct (decide (r ∈ rs)); [by apply Hrs|]. rewrite Hc by done. apply Hu.
Qed.

(** The pool rings exchange containers only between each other. *)
Lemma unchained_pool f u σ σ' x :
  changes_only [f; u] σ σ' → (∀ z, z ∈ σ' f ∨ z ∈ σ' u ↔ z ∈ σ f ∨ z ∈ σ u) →
  unchained σ x → unchained σ' x.
Proof.
  intros Hc Hz Hu. eapply unchained_change; [done| |done]. intros r Hr Hx.
  assert (x ∈ σ f ∨ x ∈ σ u) as [H|H].
  { apply Hz. apply elem_of_cons in Hr as [->|Hr]; [by left|].
    apply list_elem_of_singleton in Hr as ->. by right. }
  all: by eapply Hu.
Qed.

Lemma core_data_pool h p q σ av avs out r x :
  core h p q σ av avs out → x ∈ σ r → r ≠ NodelUsed → x ∉ σ NodelUsed.
Proof. intros [(_ & _ & C) _ _ _ _ _] Hx Hr Hx2. apply Hr. by eapply C. Qed.

(** ** The node pool *)

Lemma core_take h p q σ x y av avs out :
  core h p q σ (x :: y :: av) avs out →
  ∃ h' p' σ', take_nodel h p = Ok (Some (Some x), h', p') ∧
    core h' p' q σ' (y :: av) avs (x :: out) ∧ same_data h h' ∧
    changes_only [NodelFree; NodelUsed] σ σ' ∧
    length (σ' NodelUsed) = S (length (σ NodelUsed)).
Proof.
  intros [Hok Hn Hs Hnd Hl Ha].
  destruct (pool_take h p σ x y av Hok Hn) as (h' & p' & σ' & E & Hok' & Hn' & Hd & Hc & Hlen & Hz).
  exists h', p', σ'. split_and!; [done| |done|done|done]. split; [done|done| | | |].
  - eapply (pool_frame h h' q σ σ'); [exact Hs|auto| |]; apply Hc; set_solver.
  - eapply NoDup_Permutation_proper, Hnd. solve_Permutation.
  - intros z Hin. destruct (Hl z) as [Hu Hz1]; [set_solver|]. split; [|eauto with rings].
    by eapply unchained_pool.
  - rewrite (Hc SessFree), (Hc SessUsed) by set_solver.
    eapply array_apart_same; [exact Ha|by eapply take_nodel_array|done].
Qed.

Lemma core_take_last h p q σ x avs out :
  core h p q σ [x] avs out →
  ∃ h' p', take_nodel h p = Ok (None, h', p') ∧ core h' p' q σ [x] avs out ∧ same_data h h'.
Proof.
  intros [Hok Hn Hs Hnd Hl Ha].
  destruct (pool_take_last h p σ x Hok Hn) as (h' & p' & E & Hok' & Hn' & Hd).
  exists h', p'. split_and!; [done| |done]. split; [done|done| |done| |].
  - eapply (pool_frame h h' q σ σ); [exact Hs|auto|done|done].
  - intros z Hin. destruct (Hl z Hin). split; eauto with rings.
  - eapply array_apart_same; [exact Ha|by eapply take_nodel_array|done].
Qed.

Lemma core_release h p q σ av avs x out :
  core h p q σ av avs (x :: out) → σ NodelUsed ≠ [] →
  ∃ h' p' σ', releaseNodel h p (Some x) = Ok (h', p') ∧
    core h' p' q σ' (av ++ [x]) avs out ∧
    (∀ y, y ∉ σ NodelUsed → data_of h' y = data_of h y) ∧
    changes_only [NodelFree; NodelUsed] σ σ' ∧
    S (length (σ' NodelUsed)) = length (σ NodelUsed).
Proof.
  intros [Hok Hn Hs Hnd Hl Ha] Hne.
  destruct (pool_put h p σ av x Hok Hn Hne) as
    (h' & p' & σ' & E & Hok' & Hn' & Hd & His & Hc & Hlen & Hz).
  exists h', p', σ'. split_and!; [done| |done|done|done]. split; [done|done| | | |].
  - eapply (pool_frame h h' q σ σ'); [exact Hs| | |]; [|apply Hc; set_solver..].
    intros c Hcs. apply Hd. intros Hcu. destruct Hok as (_ & _ & C).
    by specialize (C _ _ _ Hcs Hcu).
  - eapply NoDup_Permutation_proper, Hnd. solve_Permutation.
  - intros z Hin. destruct (Hl z) as [Hu Hz1]; [set_solver|]. split; [|by apply His].
    by eapply unchained_pool.
  - rewrite (Hc SessFree), (Hc SessUsed) by set_solver.
    eapply array_apart_same; [exact Ha|by eapply releaseNodel_array|done].
Qed.

(** ** The session pool *)

Lemma core_take_session h p q σ x y av avs out :
  core h p q σ av (x :: y :: avs) out →
  ∃ h' q' σ', take_session h q = Ok (Some (Some x), h', q') ∧
    core h' p q' σ' av (y :: avs) out ∧ same_data h h' ∧
    changes_only [SessFree; SessUsed] σ σ' ∧
    length (σ' SessUsed) = S (length (σ SessUsed)).
Proof.
  intros [Hok Hn Hs Hnd Hl Ha].
  destruct (pool_take h q σ x y avs Hok Hs) as (h' & q' & σ' & E & Hok' & Hs' & Hd & Hc & Hlen & Hz).
  exists h', q', σ'. split_and!; [done| |done|done|done]. split; [done| |done|done| |].
  - eapply (pool_frame h h' p σ σ'); [exact Hn|auto| |]; apply Hc; set_solver.
  - intros z Hin. destruct (Hl z Hin) as [Hu Hz1]. split; [|eauto with rings].
    by eapply unchained_pool.
  - eapply array_apart_same; [exact Ha|done|exact Hz].
Qed.

Lemma core_take_session_last h p q σ x av out :
  core h p q σ av [x] out →
  ∃ h' q', take_session h q = Ok (None, h', q') ∧ core h' p q' σ av [x] out ∧ same_data h h'.
Proof.
  intros [Hok Hn Hs Hnd Hl Ha].
  destruct (pool_take_last h q σ x Hok Hs) as (h' & q' & E & Hok' & Hs' & Hd).
  exists h', q'. split_and!; [done| |done]. split; [done| |done|done| |done].
  - eapply (pool_frame h h' p σ σ); [exact Hn|auto|done|done].
  - intros z Hin. destruct (Hl z Hin). split; eauto with rings.
Qed.

Lemma core_put_session h p q σ av avs x out :
  core h p q σ av avs out → σ SessUsed ≠ [] →
  ∃ h' q' σ', put_session h q (Some x) = Ok (h', q') ∧
    core h' p q' σ' av (avs ++ [x]) out ∧
    (∀ y, y ∉ σ SessUsed → data_of h' y = data_of h y) ∧
    changes_only [SessFree; SessUsed] σ σ' ∧
    S (length (σ' SessUsed)) = length (σ SessUsed).
Proof.
  intros [Hok Hn Hs Hnd Hl Ha] Hne.
  destruct (pool_put h q σ avs x Hok Hs Hne) as
    (h' & q' & σ' & E & Hok' & Hs' & Hd & His & Hc & Hlen & Hz).
  exists h', q', σ'. split_and!; [done| |done|done|done]. split; [done| |done|done| |].
  - eapply (pool_frame h h' p σ σ'); [exact Hn| | |]; [|apply Hc; set_solver..].
    intros c Hcs. apply Hd. intros Hcu. destruct Hok as (_ & _ & C).
    by specialize (C _ _ _ Hcs Hcu).
  - intros z Hin. destruct (Hl z Hin) as [Hu Hz1]. split; [|by apply His].
    by eapply unchained_pool.
  - eapply array_apart_same; [exact Ha|done|exact Hz].
Qed.

(** ** The data field of a held node *)

Lemma core_set_data h p q σ av avs out x v :
  core h p q σ av avs out → (∀ r, r ∈ pool_rings → x ∉ σ r) → is_Some (h !! x) →
  ∃ h', set_data h (Some x) v = Ok h' ∧ core h' p q σ av avs out ∧
    (∀ y, data_of h' y = if decide (y = x) then Some v else data_of h y).
Proof.
  intros [Hok Hn Hs Hnd Hl Ha] Hout [n Hx]. exists (<[x := with_data v n]> h).
  assert (∀ y, data_of (<[x:=with_data v n]> h) y = if decide (y = x) then Some v else data_of h y)
    as Hd by (intros y; apply data_of_set_data).
  split_and!; [|split|done].
  - unfold set_data. by rewrite (store_Some _ _ _ _ Hx).
  - by apply rings_ok_set_data.
  - eapply (pool_frame h _ p σ σ); [exact Hn| |done|done].
    intros c Hc. rewrite Hd, decide_False; [done|]. intros ->. by apply (Hout NodelFree); [set_solver|].
  - eapply (pool_frame h _ q σ σ); [exact Hs| |done|done].
    intros c Hc. rewrite Hd, decide_False; [done|]. intros ->. by apply (Hout SessFree); [set_solver|].
  - done.
  - intros y Hy. destruct (Hl y Hy). split; [done|]. apply lookup_insert_is_Some'. by right.
  - done.
Qed.

(** ** The lists of the program *)

Lemma core_relist h h' p q σ av avs out out' r l :
  core h p q σ av avs out → r ∉ pool_rings → same_data h h' → rings_ok h' (<[r := l]> σ) →
  NoDup (out' ++ av) →
  (∀ x, x ∈ out' ++ av → x ∉ l ∧ (x ∈ out ++ av ∨ (x ∈ σ r ∧ ∀ r', r' ≠ r → x ∉ σ r'))) →
  core h' p q (<[r := l]> σ) av avs out'.
Proof.
  intros [Hok Hn Hs Hnd Hl Ha] Hr Hd Hok' Hnd' Hall.
  assert (∀ r', r' ∈ pool_rings → (<[r := l]> σ) r' = σ r') as Hp.
  { intros r' Hr'. apply fn_lookup_insert_ne. by intros ->. }
  split; [done| | |done| |].
  - eapply (pool_frame h _ p σ); [exact Hn|auto| |]; apply Hp; set_solver.
  - eapply (pool_frame h _ q σ); [exact Hs|auto| |]; apply Hp; set_solver.
  - intros x Hx. destruct (Hall x Hx) as [Hxl [Hin|[Hin Hne]]].
    + destruct (Hl x Hin) as [Hu Hi]. split; [|eauto with rings].
      apply unchained_update. split; [done|]. intros r' _. apply Hu.
    + split; [by apply unchained_update|]. eapply same_data_is_Some; [done|].
      destruct Hok as (_ & B & _). by eapply ring_lookup.
  - by rewrite !Hp by set_solver.
Qed.

Lemma core_prepend h p q σ av avs x out r :
  core h p q σ av avs (x :: out) → r ∉ pool_rings →
  ∃ h', list_prepend_node h (head (σ r)) (Some x) = Ok (h', Some x) ∧
    core h' p q (<[r := x :: σ r]> σ) av avs out ∧ same_data h h'.
Proof.
  intros Hc Hr. pose proof Hc as [Hok _ _ Hnd Hl _].
  destruct (Hl x) as [Hu Hi]; [set_solver|].
  destruct (ring_prepend h σ r Hok x Hu Hi) as (h' & E & Hok' & Hd).
  exists h'. split_and!; [done| |done]. apply NoDup_cons in Hnd as [Hx Hnd].
  eapply core_relist; [done|done|done|done|done|].
  intros y Hy. split; [|set_solver]. destruct (Hl y) as [Huy _]; [set_solver|].
  intros [->|Hyr]%elem_of_cons; [done|]. by apply (Huy r).
Qed.

Lemma core_append h p q σ av avs x out r :
  core h p q σ av avs (x :: out) → r ∉ pool_rings →
  ∃ h', list_append_node h (head (σ r)) (Some x) = Ok (h', head (σ r ++ [x])) ∧
    core h' p q (<[r := σ r ++ [x]]> σ) av avs out ∧ same_data h h'.
Proof.
  intros Hc Hr. pose proof Hc as [Hok _ _ Hnd Hl _].
  destruct (Hl x) as [Hu Hi]; [set_solver|].
  destruct (ring_append h σ r Hok x Hu Hi) as (h' & E & Hok' & Hd).
  exists h'. split_and!; [done| |done]. apply NoDup_cons in Hnd as [Hx Hnd].
  eapply core_relist; [done|done|done|done|done|].
  intros y Hy. split; [|set_solver]. destruct (Hl y) as [Huy _]; [set_solver|].
  intros [Hyr| ->%list_elem_of_singleton]%elem_of_app; [|done]. by apply (Huy r).
Qed.

Lemma core_unlink h p q σ av avs out r l1 x l2 :
  core h p q σ av avs out → r ∉ pool_rings → σ r = l1 ++ x :: l2 →
  ∃ h', list_unlink h (head (σ r)) (Some x) = Ok (h', head (l1 ++ l2)) ∧
    core h' p q (<[r := l1 ++ l2]> σ) av avs (x :: out) ∧ same_data h h'.
Proof.
  intros Hc Hr Hl0. pose proof Hc as [Hok _ _ Hnd Hl _].
  destruct (ring_unlink h σ r Hok l1 x l2 Hl0) as (h' & E & Hok' & Hd & Hu).
  exists h'. split_and!; [done| |done].
  assert (x ∈ σ r) as Hxr by (rewrite Hl0; set_solver).
  assert (x ∉ out ++ av) as Hxo by (intros Hin; by destruct (Hl x Hin) as [Hux _]; apply (Hux r)).
  apply unchained_update in Hu as [Hu1 Hu2].
  eapply core_relist; [done|done|done|done| |].
  - simpl. by constructor.
  - intros y [->|Hy]%elem_of_cons; [by split; [|right]|].
    split; [|by left]. destruct (Hl y Hy) as [Huy _]. specialize (Huy r). rewrite Hl0 in Huy.
    set_solver.
Qed.

Lemma core_last h p q σ av avs out r :
  core h p q σ av avs out → list_get_last_node h (head (σ r)) = Ok (last (σ r)).
Proof. intros [Hok _ _ _ _ _]. eapply list_get_last_node_spec. by apply rings_ok_dll. Qed.

Lemma core_prev h p q σ av avs out r l1 x l2 :
  core h p q σ av avs out → σ r = l1 ++ x :: l2 →
  list_get_prev_node h (head (σ r)) (Some x) = Ok (last l1).
Proof.
  intros [Hok _ _ _ _ _] Hr. eapply list_get_prev_node_spec. rewrite <-Hr. by apply rings_ok_dll.
Qed.

Lemma core_is_Some h p q σ av avs out r x :
  core h p q σ av avs out → x ∈ σ r → is_Some (h !! x).
Proof. intros [(_ & B & _) _ _ _ _ _] Hx. by eapply ring_lookup. Qed.

(** A ring has at most as many nodes as the heap. *)
Lemma core_length h p q σ av avs out r :
  core h p q σ av avs out → (length (σ r) ≤ size h)%nat.
Proof.
  intros [(A & B & _) _ _ _ _ _]. apply ring_length_size; [done|]. intros x. by apply ring_lookup.
Qed.

(** Rings that agree list by list. *)
Lemma core_ext h p q σ σ' av avs out :
  (∀ r, σ' r = σ r) → core h p q σ av avs out → core h p q σ' av avs out.
Proof.
  intros He [Hok Hn Hs Hnd Hl]. split; [by eapply rings_ok_ext| | |done| |].
  - eapply (pool_frame h h p σ σ'); [exact Hn|done|apply He..].
  - eapply (pool_frame h h q σ σ'); [exact Hs|done|apply He..].
  - intros x Hx. destruct (Hl x Hx) as [Hu Hi]. split; [|done]. intros r. rewrite He. apply Hu.
  - by rewrite !He.
Qed.
