(* ===== verification/FlowInv.v ===== *)
(** * What the flow table stands for

    The abstract flow cache the flow table implements (a list of live flows,
    most recently used first, searched linearly, and a queue of flows waiting
    to be exported), the invariant [flow_inv] that relates the concrete state to
    it, and the reading of the hash table's search. *)

From S2P Require Import Prelude Log NodeList Rings FlowData Pools NodePool SessionPool.
From S2P Require Import FlowCore FlowTable.

(** ** The abstract flow cache *)

Record aflow := AFlow { af_flow : IPFlow; af_first : Z; af_last : Z }.

#[global] Instance aflow_eq_dec : EqDecision aflow.
Proof. solve_decision. Defined.

Record cache := Cache { c_live : list aflow; c_dead : list aflow }.

(** [aged now last]: the test [last_packet_timestamp - lastpacket > EXPIRATION_FLOW_TIME]. *)
Definition aged (now last : Z) : bool := EXPIRATION_FLOW_TIME <? u64 (now - last).

(** The first element that satisfies [P], and the rest. *)
Fixpoint extract {A} (P : A → bool) (l : list A) : option (A * list A) :=
  match l with
  | [] => None
  | x :: l => if P x then Some (x, l) else (λ '(y, l'), (y, x :: l')) <$> extract P l
  end.

Definition touch (now nb : Z) (e : aflow) : aflow :=
  AFlow (with_counters (u32 (npack (af_flow e) + 1)) (u64 (nbytes (af_flow e) + nb)) (af_flow e))
    (af_first e) now.

(** A packet of flow [f] arrives at [now]: [true] when a new flow is started. *)
Definition cache_insert (now : Z) (f : IPFlow) (c : cache) : bool * cache :=
  match extract (λ e, same_tuple (af_flow e) f) (c_live c) with
  | Some (e, rest) =>
      if aged now (af_last e) then (true, Cache (AFlow f now now :: c_live c) (c_dead c))
      else (false, Cache (touch now (nbytes f) e :: rest) (c_dead c))
  | None => (true, Cache (AFlow f now now :: c_live c) (c_dead c))
  end.

(** The longest suffix of the live list whose flows have aged, and what is left. *)
Fixpoint split_aged (now : Z) (l : list aflow) : list aflow * list aflow :=
  match l with
  | [] => ([], [])
  | e :: l =>
      let '(keep, out) := split_aged now l in
      match keep with
      | [] => if aged now (af_last e) then ([], e :: out) else ([e], out)
      | _ => (e :: keep, out)
      end
  end.

(** [cleanup_flows]: the aged suffix joins the export queue, oldest first. *)
Definition cache_cleanup (now : Z) (c : cache) : cache :=
  let '(keep, out) := split_aged now (c_live c) in
  Cache keep (c_dead c ++ rev out).

(** ** The invariant *)

(** A live flow: its node in the active list, its node in the table, its session. *)
Record entry := Entry { en_active : loc; en_table : loc; en_session : loc }.

Definition en_pair (e : entry) : loc * loc := (en_table e, en_session e).

Record ghost := Ghost {
  g_rings : rings;
  g_nodes : list loc;              (** free nodes, in the order they are handed out *)
  g_sess : list loc;               (** free sessions *)
  g_live : list entry;
  g_buckets : Z → list (loc * loc);
  g_flags : list (loc * loc);      (** waiting in [flags_expired_flow_list] *)
  g_dead : list (loc * loc);       (** waiting in [expired_flow_list] *)
  g_heldn : list (loc * loc);      (** popped by the export thread, with their sessions *)
  g_helds : list loc               (** sessions held: [aux_session], the one being exported *)
}.

Definition session_at (ss : sheap) (x : loc) : IPSession := default zero_session (ss !! x).
Definition flow_at (ss : sheap) (x : loc) : IPFlow := incoming (session_at ss x).
Definition view (ss : sheap) (x : loc) : aflow :=
  let s := session_at ss x in
  AFlow (incoming s) (firstpacket_timestamp s) (lastpacket_timestamp s).

Abbreviation tuple := (Z * Z * Z * Z * Z * Z)%type.

(** The pairs of a list whose session carries the tuple [τ]. *)
Definition carrying (ss : sheap) (τ : tuple) : list (loc * loc) → list (loc * loc) :=
  filter (λ b, flow_tuple (flow_at ss b.2) = τ).

Definition entry_ok (h : heap) (ss : sheap) (e : entry) : Prop :=
  data_of h (en_active e) = Some (VNode (en_table e)) ∧
  data_of h (en_table e) = Some (VSession (en_session e)) ∧
  active_node (session_at ss (en_session e)) = Some (en_active e) ∧
  current_flow (session_at ss (en_session e)) = Some (en_session e).

Definition all_sessions (g : ghost) : list loc :=
  g_helds g ++ g_sess g ++ (en_session <$> g_live g) ++ (snd <$> g_flags g) ++ (snd <$> g_dead g).

Definition waiting_ok (h : heap) (l : list (loc * loc)) : Prop :=
  ∀ d, d ∈ l → data_of h d.1 = Some (VSession d.2).

(** The nodes in no list that are not free either. *)
Definition g_outn (g : ghost) : list loc := fst <$> g_heldn g.

Record flow_inv (s : fstate) (g : ghost) : Prop := {
  fi_core : core (nodes s) (nodel s) (ip_session s) (g_rings g) (g_nodes g) (g_sess g) (g_outn g);
  fi_head_active : active_flow_list s = head (g_rings g Active);
  fi_head_expired : expired_flow_list s = head (g_rings g Expired);
  fi_head_flags : flags_expired_flow_list s = head (g_rings g Flags);
  fi_slots : ∀ i, 0 ≤ i < MAX_FLOW_TABLE_SIZE → flow_table s !! i = head (g_rings g (Bucket i));
  fi_active : g_rings g Active = en_active <$> g_live g;
  fi_expired : g_rings g Expired = fst <$> g_dead g;
  fi_flags : g_rings g Flags = fst <$> g_flags g;
  fi_bucket : ∀ i, g_rings g (Bucket i) = fst <$> g_buckets g i;
  fi_live : ∀ e, e ∈ g_live g → entry_ok (nodes s) (sessions s) e;
  fi_waiting : waiting_ok (nodes s) (g_flags g ++ g_dead g);
  fi_held : waiting_ok (nodes s) (g_heldn g);
  fi_bucket_live : ∀ i b, b ∈ g_buckets g i →
    getIndex (flow_at (sessions s) b.2) = i ∧ b ∈ en_pair <$> g_live g;
  fi_order : ∀ f, carrying (sessions s) (flow_tuple f) (g_buckets g (getIndex f)) =
                  carrying (sessions s) (flow_tuple f) (en_pair <$> g_live g);
  fi_sessions : NoDup (all_sessions g);
  fi_alloc : ∀ x, x ∈ all_sessions g → is_Some (sessions s !! x);
  fi_used_nodes : length (g_rings g NodelUsed) =
    (2 * length (g_live g) + length (g_flags g) + length (g_dead g) + length (g_heldn g))%nat;
  fi_used_sessions : length (g_rings g SessUsed) =
    (length (g_live g) + length (g_flags g) + length (g_dead g) + length (g_helds g))%nat
}.

(** The abstract cache of a state. *)
Definition cache_of (s : fstate) (g : ghost) : cache :=
  Cache (view (sessions s) ∘ en_session <$> g_live g) (view (sessions s) ∘ snd <$> g_dead g).

(** ** Reading sessions *)

Lemma session_at_Some ss x s : ss !! x = Some s → session_at ss x = s.
Proof. intros H. unfold session_at. by rewrite H. Qed.

Lemma session_at_lookup ss x : is_Some (ss !! x) → ss !! x = Some (session_at ss x).
Proof. intros [s H]. by rewrite (session_at_Some _ _ _ H). Qed.

Lemma session_at_insert ss x s : session_at (<[x := s]> ss) x = s.
Proof. apply session_at_Some, lookup_insert_eq. Qed.

Lemma session_at_insert_ne ss x y s : x ≠ y → session_at (<[x := s]> ss) y = session_at ss y.
Proof. intros H. unfold session_at. by rewrite lookup_insert_ne. Qed.

(** Sessions whose tuples did not change carry the same tuples. *)
Lemma carrying_ext ss ss' τ l :
  (∀ b, b ∈ l → flow_tuple (flow_at ss' b.2) = flow_tuple (flow_at ss b.2)) →
  carrying ss' τ l = carrying ss τ l.
Proof.
  intros H. unfold carrying. induction l as [|b l IH]; [done|].
  rewrite !filter_cons, (H b) by left. rewrite IH; [done|]. intros c Hc. apply H. by right.
Qed.

Lemma carrying_cons ss τ b l :
  carrying ss τ (b :: l) =
    if decide (flow_tuple (flow_at ss b.2) = τ) then b :: carrying ss τ l else carrying ss τ l.
Proof. unfold carrying. by rewrite filter_cons. Qed.

Lemma carrying_app ss τ l1 l2 : carrying ss τ (l1 ++ l2) = carrying ss τ l1 ++ carrying ss τ l2.
Proof. apply filter_app. Qed.

Lemma carrying_nil ss τ l :
  carrying ss τ l = [] ↔ Forall (λ b, flow_tuple (flow_at ss b.2) ≠ τ) l.
Proof.
  unfold carrying. rewrite Forall_forall. split.
  - intros H b Hb Ht. assert (b ∈ filter (λ b, flow_tuple (flow_at ss b.2) = τ) l) as Hf
      by (by apply list_elem_of_filter). rewrite H in Hf. set_solver.
  - intros H. destruct (filter _ l) as [|b r] eqn:E; [done|].
    assert (b ∈ b :: r) as Hb by left. rewrite <-E in Hb.
    apply list_elem_of_filter in Hb as [Ht Hb]. by destruct (H b Hb).
Qed.

Lemma carrying_cons_inv ss τ l b r :
  carrying ss τ l = b :: r →
  ∃ l1 l2, l = l1 ++ b :: l2 ∧ flow_tuple (flow_at ss b.2) = τ ∧
    Forall (λ b, flow_tuple (flow_at ss b.2) ≠ τ) l1 ∧ r = carrying ss τ l2.
Proof.
  induction l as [|c l IH]; [done|]. unfold carrying in *. rewrite filter_cons.
  case_decide as Hc.
  - intros [= -> <-]. by exists [], l.
  - intros (l1 & l2 & -> & Ht & Hf & ->)%IH. exists (c :: l1), l2. by repeat constructor.
Qed.

(** ** [extract] *)

Lemma extract_None {A} (P : A → bool) l : extract P l = None ↔ Forall (λ x, P x = false) l.
Proof.
  induction l as [|x l IH]; simpl; [by split|]. rewrite Forall_cons, <-IH.
  destruct (P x); [naive_solver|]. destruct (extract P l) as [[??]|]; naive_solver.
Qed.

Lemma extract_app {A} (P : A → bool) l1 x l2 :
  Forall (λ x, P x = false) l1 → P x = true → extract P (l1 ++ x :: l2) = Some (x, l1 ++ l2).
Proof. intros Hf Hx. induction Hf as [|y l1 Hy _ IH]; simpl; [by rewrite Hx|]. by rewrite Hy, IH. Qed.

Lemma same_tuple_true f g : same_tuple f g = true ↔ flow_tuple f = flow_tuple g.
Proof. apply bool_decide_eq_true. Qed.

Lemma same_tuple_false f g : same_tuple f g = false ↔ flow_tuple f ≠ flow_tuple g.
Proof. apply bool_decide_eq_false. Qed.

(** ** The search of the hash table is a search of the live flows *)

Section lookup.
Context (s : fstate) (g : ghost).
Hypothesis Hinv : flow_inv s g.

Lemma live_session e : e ∈ g_live g → is_Some (sessions s !! en_session e).
Proof.
  intros He. apply (fi_alloc s g Hinv). unfold all_sessions. rewrite !elem_of_app.
  right; right; left. by apply list_elem_of_fmap_2.
Qed.

Lemma bucket_entry i b :
  b ∈ g_buckets g i → ∃ e, e ∈ g_live g ∧ b = en_pair e ∧
    data_of (nodes s) b.1 = Some (VSession b.2).
Proof.
  intros Hb. destruct (fi_bucket_live s g Hinv i b Hb) as [_ He].
  apply list_elem_of_fmap in He as (e & -> & He). exists e. split_and!; [done|done|].
  apply (fi_live s g Hinv e He).
Qed.

(** The node of the first pair of [l] that carries the tuple of [f]. *)
Lemma search_bucket hd aux f l :
  sessions s !! aux = Some f → dll (nodes s) hd (fst <$> l) →
  (∀ b, b ∈ l → data_of (nodes s) b.1 = Some (VSession b.2) ∧ is_Some (sessions s !! b.2)) →
  list_search (nodes s) hd (with_data (VSession aux) (static_node s)) (compareTupleFlow (sessions s))
  = Ok (head (fst <$> carrying (sessions s) (flow_tuple (incoming f)) l)).
Proof.
  intros Haux Hl Hb.
  set (eqv := λ t, match data_of (nodes s) t with
                   | Some (VSession x) => same_tuple (flow_at (sessions s) x) (incoming f)
                   | _ => false end).
  rewrite (list_search_spec _ hd _ _ _ eqv Hl).
  - f_equal. clear Hl. induction l as [|b l IH]; [done|].
    destruct (Hb b) as [Hd _]; [left|]. rewrite carrying_cons, fmap_cons. cbn [find_first].
    rewrite IH by (intros c Hc; apply Hb; by right). unfold eqv at 1. rewrite Hd.
    case_decide as Hdec; [apply same_tuple_true in Hdec|apply same_tuple_false in Hdec];
      by rewrite Hdec.
  - intros t (b & -> & Hin)%list_elem_of_fmap. destruct (Hb b Hin) as [Hd [se Hse]].
    pose proof Hd as (n & Hn & Hdat)%data_of_load. exists n. simpl. rewrite Hdat.
    rewrite (compareTupleFlow_spec _ _ _ se f Hse Haux). eexists. split_and!; [done|done|].
    unfold eqv. rewrite Hd. unfold flow_at. rewrite (session_at_Some _ _ _ Hse).
    by destruct (same_tuple (incoming se) (incoming f)).
Qed.

(** The search of [insertFlow] finds the table node of the first live flow with
    the tuple of the packet. *)
Lemma insertFlow_search aux se :
  sessions s !! aux = Some se →
  list_search (nodes s) (flow_table s !! getIndex (incoming se))
    (with_data (VSession aux) (static_node s)) (compareTupleFlow (sessions s))
  = Ok (head (fst <$> carrying (sessions s) (flow_tuple (incoming se)) (en_pair <$> g_live g))).
Proof.
  intros Haux. rewrite <-(fi_order s g Hinv (incoming se)).
  rewrite (fi_slots s g Hinv) by apply getIndex_range.
  apply search_bucket; [done| |].
  - rewrite <-(fi_bucket s g Hinv). by apply rings_ok_dll, (core_rings _ _ _ _ _ _ _ (fi_core s g Hinv)).
  - intros b Hb. destruct (bucket_entry _ b Hb) as (e & He & -> & Hd). split; [done|].
    by apply live_session.
Qed.

(** The two outcomes, in terms of the abstract cache. *)
Lemma search_none τ :
  carrying (sessions s) τ (en_pair <$> g_live g) = [] →
  ∀ e, e ∈ g_live g → flow_tuple (flow_at (sessions s) (en_session e)) ≠ τ.
Proof.
  intros H e He. apply carrying_nil in H. rewrite Forall_forall in H.
  apply (H (en_pair e)). by apply list_elem_of_fmap_2.
Qed.

Lemma search_some τ b r :
  carrying (sessions s) τ (en_pair <$> g_live g) = b :: r →
  ∃ l1 e l2, g_live g = l1 ++ e :: l2 ∧ b = en_pair e ∧
    flow_tuple (flow_at (sessions s) (en_session e)) = τ ∧
    Forall (λ e, flow_tuple (flow_at (sessions s) (en_session e)) ≠ τ) l1.
Proof.
  intros (k1 & k2 & Hk & Ht & Hf & _)%carrying_cons_inv.
  apply fmap_app_inv in Hk as (l1 & l2' & -> & H2 & ->).
  symmetry in H2. apply fmap_cons_inv in H2 as (e & l2 & -> & -> & ->).
  exists l1, e, l2. split_and!; [done|done|done|]. by rewrite Forall_fmap in Hf.
Qed.
End lookup.
