(* ===== verification/FlowInsert.v ===== *)
(** * insertFlow implements the abstract flow cache

    Every branch of [insertFlow]: a packet of a known, recent flow updates it
    and moves it to the front; any other packet starts a new flow at the front;
    without free nodes the flow is counted as unprocessed and nothing else
    changes. *)

From S2P Require Import Prelude Log NodeList Rings FlowData Pools NodePool SessionPool.
From S2P Require Import FlowCore FlowTable FlowInv.

(** ** Consequences of the invariant *)

Section facts.
Context (s : fstate) (g : ghost).
Hypothesis Hinv : flow_inv s g.

Lemma live_active e : e ∈ g_live g → en_active e ∈ g_rings g Active.
Proof. intros He. rewrite (fi_active s g Hinv). by apply list_elem_of_fmap_2. Qed.

Lemma live_bucket e :
  e ∈ g_live g → en_pair e ∈ g_buckets g (getIndex (flow_at (sessions s) (en_session e))).
Proof.
  intros He. set (f := flow_at (sessions s) (en_session e)).
  assert (en_pair e ∈ carrying (sessions s) (flow_tuple f) (g_buckets g (getIndex f))) as Hin.
  { rewrite (fi_order s g Hinv). apply list_elem_of_filter. split; [done|].
    by apply list_elem_of_fmap_2. }
  by apply list_elem_of_filter in Hin as [_ Hin].
Qed.

Lemma live_table e :
  e ∈ g_live g →
  en_table e ∈ g_rings g (Bucket (getIndex (flow_at (sessions s) (en_session e)))).
Proof.
  intros He. rewrite (fi_bucket s g Hinv).
  apply (list_elem_of_fmap_2 fst _ (en_pair e)). by apply live_bucket.
Qed.

Lemma waiting_ring d :
  d ∈ g_flags g ++ g_dead g → d.1 ∈ g_rings g Flags ∨ d.1 ∈ g_rings g Expired.
Proof.
  rewrite (fi_flags s g Hinv), (fi_expired s g Hinv). intros [Hd|Hd]%elem_of_app; [left|right];
    by apply list_elem_of_fmap_2.
Qed.

Lemma loose_unchained x : x ∈ g_outn g ++ g_nodes g → unchained (g_rings g) x.
Proof. intros Hx. by apply (core_loose _ _ _ _ _ _ _ (fi_core s g Hinv)). Qed.

Lemma held_not_live x e : x ∈ g_helds g → e ∈ g_live g → en_session e ≠ x.
Proof.
  intros Hx He Heq. pose proof (fi_sessions s g Hinv) as Hnd.
  unfold all_sessions in Hnd. apply NoDup_app in Hnd as (_ & Hn & _).
  apply (Hn x Hx). rewrite !elem_of_app. right; left. rewrite <-Heq.
  by apply list_elem_of_fmap_2.
Qed.

Lemma held_not_free x : x ∈ g_helds g → x ∉ g_sess g.
Proof.
  intros Hx Hin. pose proof (fi_sessions s g Hinv) as Hnd. unfold all_sessions in Hnd.
  apply NoDup_app in Hnd as (_ & Hn & _). apply (Hn x Hx). rewrite elem_of_app. by left.
Qed.

Lemma live_not_free e : e ∈ g_live g → en_session e ∉ g_sess g.
Proof.
  intros He Hin. pose proof (fi_sessions s g Hinv) as Hnd. unfold all_sessions in Hnd.
  apply NoDup_app in Hnd as (_ & _ & Hnd). apply NoDup_app in Hnd as (_ & Hn & _).
  apply (Hn _ Hin). rewrite elem_of_app. left. by apply list_elem_of_fmap_2.
Qed.

Lemma live_sessions_nodup : NoDup (en_session <$> g_live g).
Proof.
  pose proof (fi_sessions s g Hinv) as Hnd. unfold all_sessions in Hnd.
  apply NoDup_app in Hnd as (_ & _ & Hnd). apply NoDup_app in Hnd as (_ & _ & Hnd).
  by apply NoDup_app in Hnd as (Hnd & _ & _).
Qed.

Lemma flags_dead_not_live e : e ∈ g_live g → en_session e ∉ (snd <$> g_flags g) ++ (snd <$> g_dead g).
Proof.
  intros He. pose proof (fi_sessions s g Hinv) as Hnd. unfold all_sessions in Hnd.
  apply NoDup_app in Hnd as (_ & _ & Hnd). apply NoDup_app in Hnd as (_ & _ & Hnd).
  apply NoDup_app in Hnd as (_ & Hnd & _). apply Hnd. by apply list_elem_of_fmap_2.
Qed.

(** A node of a list of the flow table holds no container of the pools. *)
Lemma chained_not_used r x : x ∈ g_rings g r → r ≠ NodelUsed → x ∉ g_rings g NodelUsed.
Proof. apply core_data_pool with (1 := fi_core s g Hinv). Qed.
End facts.

Lemma entry_ok_ext h h' ss ss' e :
  data_of h' (en_active e) = data_of h (en_active e) →
  data_of h' (en_table e) = data_of h (en_table e) →
  session_at ss' (en_session e) = session_at ss (en_session e) →
  entry_ok h ss e → entry_ok h' ss' e.
Proof. unfold entry_ok. by intros -> -> ->. Qed.

(** ** The fields an operation of the flow table leaves alone *)

Definition same_rest (s s' : fstate) : Prop :=
  ip_session s' = ip_session s ∧ log s' = log s ∧ aux_session s' = aux_session s ∧
  last_packet_timestamp s' = last_packet_timestamp s ∧
  unprocessed_packets s' = unprocessed_packets s ∧
  count_pckts_malformed s' = count_pckts_malformed s.

(** The same but for the log, which has a message more when a node is missing. *)
Definition same_but_log (s s' : fstate) : Prop := same_rest (with_log (log s') s) s'.

Lemma same_rest_but_log s s' : same_rest s s' → same_but_log s s'.
Proof. intros (? & ? & ?). by split. Qed.

Lemma pool_empty_ok s : log_ok (log s) → ∃ lg, pool_empty s = Ok (with_log lg s).
Proof. intros ([st Hst] & _). unfold pool_empty, logError, log_print. rewrite Hst. by eexists. Qed.

(** ** insertFlowTable *)

Definition ghost_insert (g : ghost) (σ : rings) (av : list loc) (idx : Z) (a t x : loc)
    (hs : list loc) : ghost :=
  Ghost (<[Active := a :: g_rings g Active]> (<[Bucket idx := t :: g_rings g (Bucket idx)]> σ))
    av (g_sess g) (Entry a t x :: g_live g)
    (λ i, if decide (i = idx) then (t, x) :: g_buckets g i else g_buckets g i)
    (g_flags g) (g_dead g) (g_heldn g) hs.

(** The sessions after a new flow is entered under [x]. *)
Definition entered (now : Z) (a x : loc) (se : IPSession) : IPSession :=
  with_active_node (Some a) (with_current_flow (Some x) (with_timestamps now now se)).

Section enter.
Context (s : fstate) (g : ghost) (σ : rings) (h : heap) (p : npool).
Context (a t x : loc) (av hs : list loc) (se : IPSession) (tb : gmap Z loc).
Hypothesis Hinv : flow_inv s g.
Hypothesis Hheld : g_helds g = x :: hs.
Hypothesis Hnodes : t ∈ g_nodes g ∧ a ∈ g_nodes g ∧ t ≠ a.
Hypothesis Hse : sessions s !! x = Some se.
Let idx := getIndex (incoming se).
Let ss := <[x := entered (last_packet_timestamp s) a x se]> (sessions s).
Let g' := ghost_insert g σ av idx a t x hs.
Hypothesis Hσ : changes_only [NodelFree; NodelUsed] (g_rings g) σ.
Hypothesis Hlen : length (σ NodelUsed) = S (S (length (g_rings g NodelUsed))).
Hypothesis Hcore : core h p (ip_session s) (g_rings g') av (g_sess g) (g_outn g).
Hypothesis Hdata : ∀ y, data_of h y =
  if decide (y = a) then Some (VNode t) else if decide (y = t) then Some (VSession x)
  else data_of (nodes s) y.
Hypothesis Htable : ∀ i, tb !! i = if decide (i = idx) then Some t else flow_table s !! i.

Lemma enter_flow_at y : flow_at ss y = flow_at (sessions s) y.
Proof.
  unfold flow_at, ss. destruct (decide (x = y)) as [<-|Hne].
  - by rewrite session_at_insert, (session_at_Some _ _ _ Hse).
  - by rewrite session_at_insert_ne.
Qed.

Lemma enter_carrying τ l : carrying ss τ l = carrying (sessions s) τ l.
Proof. apply carrying_ext. intros b _. by rewrite enter_flow_at. Qed.

Lemma enter_data r y : y ∈ g_rings g r → data_of h y = data_of (nodes s) y.
Proof.
  intros Hy. rewrite Hdata, !decide_False; [done| |].
  - intros ->. eapply (loose_unchained s g Hinv t); [|done]. set_solver.
  - intros ->. eapply (loose_unchained s g Hinv a); [|done]. set_solver.
Qed.

Lemma enter_held y : y ∈ g_outn g → data_of h y = data_of (nodes s) y.
Proof.
  intros Hy. pose proof (core_nodup _ _ _ _ _ _ _ (fi_core s g Hinv)) as Hnd.
  apply NoDup_app in Hnd as (_ & Hnd & _). destruct Hnodes as (Ht & Ha & _).
  rewrite Hdata, !decide_False; [done| |]; intros ->; by eapply Hnd.
Qed.

Lemma enter_x_idx : getIndex (flow_at (sessions s) x) = idx.
Proof. unfold flow_at. by rewrite (session_at_Some _ _ _ Hse). Qed.

Lemma enter_sessions : all_sessions g' ≡ₚ all_sessions g.
Proof. unfold all_sessions. cbn. rewrite Hheld. solve_Permutation. Qed.

Lemma enter_inv s' :
  nodes s' = h → nodel s' = p → ip_session s' = ip_session s → sessions s' = ss →
  flow_table s' = tb → active_flow_list s' = Some a →
  expired_flow_list s' = expired_flow_list s →
  flags_expired_flow_list s' = flags_expired_flow_list s →
  flow_inv s' g'.
Proof.
  intros E1 E2 E3 E4 E5 E6 E7 E8.
  assert (∀ i, g_rings g' (Bucket i) = fst <$> g_buckets g' i) as Hb.
  { intros i. cbn. rewrite fn_lookup_insert_ne by done. case_decide as Hi; [subst i|].
    - rewrite fn_lookup_insert, fmap_cons. by rewrite (fi_bucket s g Hinv).
    - rewrite fn_lookup_insert_ne by congruence. rewrite (Hσ (Bucket i)) by set_solver.
      apply (fi_bucket s g Hinv). }
  assert (∀ r, r ∉ [NodelFree; NodelUsed; Active] → (∀ i, r ≠ Bucket i) → g_rings g' r = g_rings g r)
    as Hr.
  { intros r Hr1 Hr2. cbn. rewrite !fn_lookup_insert_ne by (congruence || set_solver).
    apply Hσ. set_solver. }
  split; rewrite ?E1, ?E2, ?E3, ?E4, ?E5, ?E6, ?E7, ?E8.
  - exact Hcore.
  - cbn. by rewrite fn_lookup_insert.
  - rewrite Hr by (set_solver || done). apply (fi_head_expired s g Hinv).
  - rewrite Hr by (set_solver || done). apply (fi_head_flags s g Hinv).
  - intros i Hi. rewrite Htable, Hb. cbn. case_decide; [done|].
    rewrite <-(fi_bucket s g Hinv). by apply (fi_slots s g Hinv).
  - cbn. rewrite fn_lookup_insert. by rewrite (fi_active s g Hinv).
  - rewrite Hr by (set_solver || done). apply (fi_expired s g Hinv).
  - rewrite Hr by (set_solver || done). apply (fi_flags s g Hinv).
  - exact Hb.
  - intros e [->|He]%elem_of_cons.
    + unfold entry_ok. cbn. unfold ss. rewrite session_at_insert, !Hdata.
      destruct Hnodes as (_ & _ & Hta).
      by rewrite decide_True, decide_False, decide_True by done.
    + eapply entry_ok_ext, (fi_live s g Hinv e He).
      * eapply enter_data. by apply (live_active s g Hinv).
      * eapply enter_data. by apply (live_table s g Hinv).
      * unfold ss. apply session_at_insert_ne.
        intros Heq. apply (held_not_live s g Hinv x e); [rewrite Hheld; left|done|done].
  - intros d Hd. cbn in Hd. rewrite <-(fi_waiting s g Hinv d Hd).
    destruct (waiting_ring s g Hinv d Hd); by eapply enter_data.
  - intros d Hd. cbn in Hd. rewrite <-(fi_held s g Hinv d Hd). apply enter_held.
    by apply list_elem_of_fmap_2.
  - intros i b Hb'. rewrite enter_flow_at. cbn in *.
    case_decide as Hi; [apply elem_of_cons in Hb' as [->|Hb']|].
    + split; [cbn [snd]; by rewrite enter_x_idx|left].
    + destruct (fi_bucket_live s g Hinv i b Hb'). split; [done|by right].
    + destruct (fi_bucket_live s g Hinv i b Hb'). split; [done|by right].
  - intros f. rewrite !enter_carrying. cbn [g_buckets g_live g' ghost_insert].
    rewrite fmap_cons, carrying_cons. cbn [snd en_pair en_table en_session].
    destruct (decide (getIndex f = idx)) as [Hi|Hi].
    + rewrite carrying_cons. cbn [snd]. by rewrite <-(fi_order s g Hinv).
    + rewrite decide_False; [by rewrite <-(fi_order s g Hinv)|].
      intros Ht. apply Hi. rewrite <-enter_x_idx. symmetry. by apply getIndex_tuple.
  - rewrite enter_sessions. apply (fi_sessions s g Hinv).
  - intros y Hy. unfold ss. apply lookup_insert_is_Some'. right. apply (fi_alloc s g Hinv).
    by rewrite <-enter_sessions.
  - cbn. rewrite !fn_lookup_insert_ne by done. rewrite Hlen, (fi_used_nodes s g Hinv). lia.
  - rewrite Hr by (set_solver || done). rewrite (fi_used_sessions s g Hinv). cbn.
    rewrite Hheld. cbn. lia.
Qed.
End enter.

(** ** Steps on the pools only *)

Definition with_pools (σ : rings) (av avs : list loc) (hn : list (loc * loc)) (hs : list loc) (g : ghost) : ghost :=
  Ghost σ av avs (g_live g) (g_buckets g) (g_flags g) (g_dead g) hn hs.

(** The table and the three lists are the same fields. *)
Definition same_lists (s s' : fstate) : Prop :=
  flow_table s' = flow_table s ∧ active_flow_list s' = active_flow_list s ∧
  expired_flow_list s' = expired_flow_list s ∧
  flags_expired_flow_list s' = flags_expired_flow_list s.

(** The sessions of the flows, live or waiting. *)
Definition flow_sessions (g : ghost) : list loc :=
  (en_session <$> g_live g) ++ (snd <$> g_flags g) ++ (snd <$> g_dead g).

Lemma flow_inv_pools s g s' σ av avs hn hs :
  flow_inv s g →
  core (nodes s') (nodel s') (ip_session s') σ av avs (fst <$> hn) →
  waiting_ok (nodes s') hn →
  changes_only pool_rings (g_rings g) σ →
  (∀ r y, y ∈ g_rings g r → r ∉ pool_rings → data_of (nodes s') y = data_of (nodes s) y) →
  (∀ x, x ∈ flow_sessions g → sessions s' !! x = sessions s !! x) →
  same_lists s s' →
  NoDup (hs ++ avs ++ flow_sessions g) →
  (∀ x, x ∈ hs ++ avs ++ flow_sessions g → is_Some (sessions s' !! x)) →
  (length (σ NodelUsed) + length (g_heldn g) = length (g_rings g NodelUsed) + length hn)%nat →
  (length (σ SessUsed) + length (g_helds g) = length (g_rings g SessUsed) + length hs)%nat →
  flow_inv s' (with_pools σ av avs hn hs g).
Proof.
  intros Hinv Hcore Hhn Hσ Hd Hss (E1 & E2 & E3 & E4) Hnd Hal Hln Hls.
  assert (∀ e, e ∈ g_live g → en_session e ∈ flow_sessions g) as Hin.
  { intros e He. unfold flow_sessions. rewrite elem_of_app. left. by apply list_elem_of_fmap_2. }
  assert (∀ b, b ∈ en_pair <$> g_live g → flow_at (sessions s') b.2 = flow_at (sessions s) b.2) as Hfl.
  { intros b (e & -> & He)%list_elem_of_fmap. unfold flow_at, session_at. cbn.
    by rewrite Hss by auto. }
  assert (∀ r, r ∉ pool_rings → σ r = g_rings g r) as Hr by exact Hσ.
  assert (∀ i, Bucket i ∉ pool_rings) by (unfold pool_rings; set_solver).
  assert (Active ∉ pool_rings ∧ Expired ∉ pool_rings ∧ Flags ∉ pool_rings) as (Ha & He & Hf)
    by (unfold pool_rings; set_solver).
  split; rewrite ?E1, ?E2, ?E3, ?E4; cbn; rewrite ?Hr by done.
  - done.
  - apply (fi_head_active s g Hinv).
  - apply (fi_head_expired s g Hinv).
  - apply (fi_head_flags s g Hinv).
  - intros i Hi. rewrite Hr by done. by apply (fi_slots s g Hinv).
  - apply (fi_active s g Hinv).
  - apply (fi_expired s g Hinv).
  - apply (fi_flags s g Hinv).
  - intros i. rewrite Hr by done. apply (fi_bucket s g Hinv).
  - intros e Hel. eapply entry_ok_ext, (fi_live s g Hinv e Hel).
    + eapply Hd, Ha. by apply (live_active s g Hinv).
    + eapply Hd; [by apply (live_table s g Hinv)|done].
    + unfold session_at. by rewrite Hss by auto.
  - intros d Hdd. rewrite <-(fi_waiting s g Hinv d Hdd).
    destruct (waiting_ring s g Hinv d Hdd); by eapply Hd.
  - done.
  - intros i b Hb. destruct (fi_bucket_live s g Hinv i b Hb) as [Hi Hbl].
    by rewrite Hfl.
  - intros f. rewrite !(carrying_ext (sessions s) (sessions s')).
    + apply (fi_order s g Hinv).
    + intros b Hb. by rewrite Hfl.
    + intros b Hb. rewrite Hfl; [done|]. by eapply (fi_bucket_live s g Hinv).
  - done.
  - done.
  - rewrite (fi_used_nodes s g Hinv) in Hln. lia.
  - rewrite (fi_used_sessions s g Hinv) in Hls. lia.
Qed.

Lemma cache_of_sessions s g s' g' :
  g_live g' = g_live g → g_dead g' = g_dead g →
  (∀ x, x ∈ flow_sessions g → sessions s' !! x = sessions s !! x) →
  cache_of s' g' = cache_of s g.
Proof.
  intros E1 E2 Hss. unfold cache_of. rewrite E1, E2. f_equal; apply list_fmap_ext.
  - intros i e He%list_elem_of_lookup_2. unfold view, session_at. cbn.
    rewrite Hss; [done|]. unfold flow_sessions. rewrite elem_of_app. left.
    by apply list_elem_of_fmap_2.
  - intros i d Hd%list_elem_of_lookup_2. unfold view, session_at. cbn.
    rewrite Hss; [done|]. unfold flow_sessions. rewrite !elem_of_app. right; right.
    by apply list_elem_of_fmap_2.
Qed.

Lemma held_not_flow s g x : flow_inv s g → x ∈ g_helds g → x ∉ flow_sessions g.
Proof.
  intros Hinv Hx Hin. pose proof (fi_sessions s g Hinv) as Hnd. unfold all_sessions in Hnd.
  apply NoDup_app in Hnd as (_ & Hn & _). apply (Hn x Hx).
  rewrite elem_of_app. by right.
Qed.

Lemma flow_inv_nodup s g : flow_inv s g → NoDup (g_helds g ++ g_sess g ++ flow_sessions g).
Proof. intros Hinv. apply (fi_sessions s g Hinv). Qed.

(** Data outside the pools survives a step that keeps the data of chained nodes. *)
Lemma flow_inv_static s g n : flow_inv s g → flow_inv (with_static n s) g.
Proof. intros []. by split. Qed.

(** ** insertFlowTable *)

Lemma table_get_ok t i : 0 ≤ i < MAX_FLOW_TABLE_SIZE → table_get t i = Ok (t !! i).
Proof. intros Hi. unfold table_get. by rewrite (proj2 (Z.leb_le _ _)), (proj2 (Z.ltb_lt _ _)) by lia. Qed.

Lemma table_set_ok t i v :
  0 ≤ i < MAX_FLOW_TABLE_SIZE →
  ∃ t', table_set t i v = Ok t' ∧ ∀ j, t' !! j = if decide (j = i) then v else t !! j.
Proof.
  intros Hi. unfold table_set. rewrite (proj2 (Z.leb_le _ _)), (proj2 (Z.ltb_lt _ _)) by lia.
  eexists. split; [done|]. intros j. destruct v, (decide (j = i)) as [->|Hne].
  - by rewrite lookup_insert_eq.
  - by rewrite lookup_insert_ne.
  - by rewrite lookup_delete_eq.
  - by rewrite lookup_delete_ne.
Qed.

#[local] Arguments take_nodel : simpl never.
#[local] Arguments releaseNodel : simpl never.
#[local] Arguments set_data : simpl never.
#[local] Arguments list_prepend_node : simpl never.
#[local] Arguments list_unlink : simpl never.
#[local] Arguments sload : simpl never.
#[local] Arguments sstore : simpl never.
#[local] Arguments table_get : simpl never.
#[local] Arguments table_set : simpl never.
#[local] Arguments load : simpl never.
#[local] Arguments getIndex : simpl never.
#[local] Arguments getIndex : simpl never.
#[local] Arguments head : simpl never.

(** A new flow, with two free nodes to spare. *)
Lemma insertFlowTable_spec s g x hs se n1 n2 n3 av :
  flow_inv s g → g_helds g = x :: hs → sessions s !! x = Some se →
  g_nodes g = n1 :: n2 :: n3 :: av →
  ∃ s' g', insertFlowTable s (Some x) (getIndex (incoming se)) = Ok (None, s') ∧
    flow_inv s' g' ∧
    (g_helds g' = hs ∧ g_nodes g' = n3 :: av ∧ g_heldn g' = g_heldn g ∧ g_sess g' = g_sess g ∧
     g_flags g' = g_flags g ∧ g_dead g' = g_dead g) ∧
    cache_of s' g' = Cache (AFlow (incoming se) (last_packet_timestamp s) (last_packet_timestamp s)
                            :: c_live (cache_of s g)) (c_dead (cache_of s g)) ∧
    same_rest s s' ∧ unprocessed_flows s' = unprocessed_flows s ∧
    (∀ y, y ≠ x → sessions s' !! y = sessions s !! y).
Proof.
  intros Hinv Hheld Hse Hav. pose proof (fi_core s g Hinv) as Hc. rewrite Hav in Hc.
  set (i := getIndex (incoming se)).
  assert (0 ≤ i < MAX_FLOW_TABLE_SIZE) as Hi by apply getIndex_range.
  assert (n1 ≠ n2) as Hn12.
  { apply core_nodup in Hc. apply NoDup_app in Hc as (_ & _ & Hc). apply NoDup_cons in Hc.
    set_solver. }
  unfold insertFlowTable. rewrite table_get_ok by done. simpl.
  rewrite (sstore_Some _ _ _ _ Hse). simpl.
  rewrite (sstore_Some _ _ _ _ (lookup_insert_eq _ _ _)), insert_insert_eq. simpl.
  (* the two nodes *)
  destruct (core_take _ _ _ _ _ _ _ _ _ Hc) as (h1 & p1 & σ1 & E1 & Hc1 & Hd1 & Hσ1 & Hl1).
  rewrite E1. simpl.
  destruct (core_set_data _ _ _ _ _ _ _ n1 (VSession x) Hc1) as (h2 & E2 & Hc2 & Hd2).
  { intros r _. apply (core_loose _ _ _ _ _ _ _ Hc1). set_solver. }
  { apply (core_loose _ _ _ _ _ _ _ Hc1). set_solver. }
  rewrite E2. simpl.
  destruct (core_take _ _ _ _ _ _ _ _ _ Hc2) as (h3 & p3 & σ3 & E3 & Hc3 & Hd3 & Hσ3 & Hl3).
  rewrite E3. simpl.
  destruct (core_set_data _ _ _ _ _ _ _ n2 (VNode n1) Hc3) as (h4 & E4 & Hc4 & Hd4).
  { intros r _. apply (core_loose _ _ _ _ _ _ _ Hc3). set_solver. }
  { apply (core_loose _ _ _ _ _ _ _ Hc3). set_solver. }
  rewrite E4. simpl.
  pose proof (changes_only_trans _ _ _ _ Hσ1 Hσ3) as Hσ.
  (* the two lists *)
  assert (core h4 p3 (ip_session s) σ3 (n3 :: av) (g_sess g) (n1 :: n2 :: g_outn g)) as Hc4'.
  { destruct Hc4 as [R1 R2 R3 R4 R5 R6]. split; [done..| | |done].
    - eapply NoDup_Permutation_proper, R4. solve_Permutation.
    - intros z Hz. apply R5. set_solver. }
  destruct (core_prepend _ _ _ _ _ _ _ _ (Bucket i) Hc4') as (h5 & E5 & Hc5 & Hd5);
    [unfold pool_rings; set_solver|].
  rewrite (Hσ (Bucket i)) in E5, Hc5 by set_solver.
  rewrite (fi_slots s g Hinv) by done. rewrite E5. simpl.
  destruct (table_set_ok (flow_table s) i (Some n1) Hi) as (tb & E6 & Htb). rewrite E6. simpl.
  destruct (core_prepend _ _ _ _ _ _ _ _ Active Hc5) as (h7 & E7 & Hc7 & Hd7);
    [unfold pool_rings; set_solver|].
  rewrite !fn_lookup_insert_ne, !(Hσ Active) in E7, Hc7 by (done || set_solver).
  rewrite (fi_head_active s g Hinv), E7. simpl.
  rewrite (sstore_Some _ _ _ _ (lookup_insert_eq _ _ _)), insert_insert_eq. simpl.
  eexists _, (ghost_insert g σ3 (n3 :: av) i n2 n1 x hs). split_and!; [reflexivity| |done..| |done|done|].
  - eapply (enter_inv s g σ3 h7 p3 n2 n1 x (n3 :: av) hs se tb); try done.
    + rewrite Hav. split_and!; [set_solver|set_solver|done].
    + by rewrite Hl3, Hl1.
    + intros y. rewrite Hd7, Hd5, Hd4. case_decide; [done|]. rewrite Hd3, Hd2.
      case_decide; [done|]. apply Hd1.
  - unfold cache_of. cbn. f_equal.
    + f_equal; [unfold view; by rewrite session_at_insert|].
      apply list_fmap_ext. intros k e He%list_elem_of_lookup_2. unfold view.
      cbn. rewrite session_at_insert_ne; [done|].
      intros Heq. apply (held_not_live s g Hinv x e); [rewrite Hheld; left|done|done].
    + apply list_fmap_ext. intros k d Hd%list_elem_of_lookup_2. unfold view. cbn.
      rewrite session_at_insert_ne; [done|]. intros ->.
      apply (held_not_flow s g d.2 Hinv); [rewrite Hheld; left|].
      unfold flow_sessions. rewrite !elem_of_app. right; right. by apply list_elem_of_fmap_2.
  - intros y Hy. cbn. by rewrite lookup_insert_ne by done.
Qed.

(** The session in hand, stamped but not entered. *)
Definition stamped (now : Z) (x : loc) (se : IPSession) : IPSession :=
  with_current_flow (Some x) (with_timestamps now now se).

(** What every failing branch keeps: only pool rings, the session in hand and the
    counter of unprocessed flows may change. *)
Lemma held_step s g s' σ av hs x se v :
  flow_inv s g → g_helds g = x :: hs → sessions s !! x = Some se →
  sessions s' = <[x := v]> (sessions s) →
  core (nodes s') (nodel s') (ip_session s') σ av (g_sess g) (g_outn g) →
  changes_only [NodelFree; NodelUsed] (g_rings g) σ →
  length (σ NodelUsed) = length (g_rings g NodelUsed) →
  (∀ r y, y ∈ g_rings g r → r ∉ pool_rings → data_of (nodes s') y = data_of (nodes s) y) →
  (∀ y, y ∈ g_outn g → data_of (nodes s') y = data_of (nodes s) y) →
  same_lists s s' →
  let g' := with_pools σ av (g_sess g) (g_heldn g) (g_helds g) g in
  flow_inv s' g' ∧ cache_of s' g' = cache_of s g.
Proof.
  intros Hinv Hheld Hse Hss Hc Hσ Hlen Hd Hdo Hl g'.
  assert (∀ y, y ∈ flow_sessions g → sessions s' !! y = sessions s !! y) as Hsame.
  { intros y Hy. rewrite Hss. apply lookup_insert_ne. intros ->.
    apply (held_not_flow s g y Hinv); [rewrite Hheld; left|done]. }
  split; [|by apply cache_of_sessions].
  eapply flow_inv_pools; try done.
  - intros d Hin. rewrite Hdo; [by apply (fi_held s g Hinv)|by apply list_elem_of_fmap_2].
  - eapply changes_only_weaken, Hσ. unfold pool_rings. set_solver.
  - by apply (flow_inv_nodup s g).
  - intros y Hy. rewrite Hss. apply lookup_insert_is_Some'. right.
    by apply (fi_alloc s g Hinv).
  - rewrite Hlen. lia.
  - rewrite (Hσ SessUsed) by set_solver. lia.
Qed.

Lemma insertFlowTable_full s g x hs se :
  log_ok (log s) → flow_inv s g → g_helds g = x :: hs → sessions s !! x = Some se →
  (length (g_nodes g) = 1 ∨ length (g_nodes g) = 2)%nat →
  ∃ s' g', insertFlowTable s (Some x) (getIndex (incoming se)) = Ok (Some x, s') ∧
    flow_inv s' g' ∧
    (g_helds g' = g_helds g ∧ g_nodes g' ≡ₚ g_nodes g ∧ g_heldn g' = g_heldn g ∧
     g_sess g' = g_sess g ∧ g_flags g' = g_flags g ∧ g_dead g' = g_dead g) ∧
    cache_of s' g' = cache_of s g ∧
    same_but_log s s' ∧ unprocessed_flows s' = u64 (unprocessed_flows s + 1) ∧
    (∀ y, y ≠ x → sessions s' !! y = sessions s !! y).
Proof.
  intros Hlog Hinv Hheld Hse Hav. pose proof (fi_core s g Hinv) as Hc.
  set (i := getIndex (incoming se)).
  assert (0 ≤ i < MAX_FLOW_TABLE_SIZE) as Hi by apply getIndex_range.
  assert (∀ z r, z ∈ g_nodes g → r ∉ pool_rings → z ∉ g_rings g r) as Hloose.
  { intros z r Hz _. apply (loose_unchained s g Hinv). set_solver. }
  unfold insertFlowTable. rewrite table_get_ok by done. simpl.
  rewrite (sstore_Some _ _ _ _ Hse). simpl.
  rewrite (sstore_Some _ _ _ _ (lookup_insert_eq _ _ _)), insert_insert_eq. simpl.
  destruct (g_nodes g) as [|n1 [|n2 [|]]] eqn:Hg; simpl in Hav; try lia.
  - destruct (core_take_last _ _ _ _ _ _ _ Hc) as (h1 & p1 & E1 & Hc1 & Hd1).
    rewrite E1. simpl.
    match goal with |- context [pool_empty ?t] => destruct (pool_empty_ok t Hlog) as [lg El] end.
    rewrite El. simpl.
    eexists _, (with_pools (g_rings g) [n1] (g_sess g) (g_heldn g) (g_helds g) g).
    split; [reflexivity|].
    match goal with |- flow_inv ?s' _ ∧ _ =>
      destruct (held_step s g s' (g_rings g) [n1] hs x se (stamped (last_packet_timestamp s) x se)
                  Hinv Hheld Hse) as [Hinv' Hcache] end; [done..| | |done|].
    { intros r y _ _. apply Hd1. }
    { intros y _. apply Hd1. }
    split_and!; [exact Hinv'|done|done|done|done|done|done|exact Hcache|done..|].
    intros y Hy. cbn. by rewrite lookup_insert_ne by done.
  - destruct (core_take _ _ _ _ _ _ _ _ _ Hc) as (h1 & p1 & σ1 & E1 & Hc1 & Hd1 & Hσ1 & Hl1).
    rewrite E1. simpl.
    destruct (core_set_data _ _ _ _ _ _ _ n1 (VSession x) Hc1) as (h2 & E2 & Hc2 & Hd2).
    { intros r _. apply (core_loose _ _ _ _ _ _ _ Hc1). set_solver. }
    { apply (core_loose _ _ _ _ _ _ _ Hc1). set_solver. }
    rewrite E2. simpl.
    destruct (core_take_last _ _ _ _ _ _ _ Hc2) as (h3 & p3 & E3 & Hc3 & Hd3). rewrite E3. simpl.
    match goal with |- context [pool_empty ?t] => destruct (pool_empty_ok t Hlog) as [lg El] end.
    rewrite El. simpl.
    destruct (core_release _ _ _ _ _ _ _ _ Hc3) as (h4 & p4 & σ4 & E4 & Hc4 & Hd4 & Hσ4 & Hl4).
    { by destruct (σ1 NodelUsed). }
    rewrite E4. simpl.
    eexists _, (with_pools σ4 ([n2] ++ [n1]) (g_sess g) (g_heldn g) (g_helds g) g).
    split; [reflexivity|].
    match goal with |- flow_inv ?s' _ ∧ _ =>
      destruct (held_step s g s' σ4 ([n2] ++ [n1]) hs x se (stamped (last_packet_timestamp s) x se)
                  Hinv Hheld Hse) as [Hinv' Hcache] end; [done|exact Hc4| | | | |done|].
    { eauto with rings. }
    { lia. }
    { intros r y Hy Hr. cbn. rewrite Hd4, Hd3, Hd2, decide_False; [apply Hd1| |].
      - intros ->. apply (Hloose n1 r); set_solver.
      - assert (r ∉ [NodelFree; NodelUsed]) as Hr2 by (unfold pool_rings in Hr; set_solver).
        eapply (core_data_pool _ _ _ _ _ _ _ r); [exact Hc3|by rewrite (Hσ1 r)|].
        intros ->. apply Hr2. set_solver. }
    { intros y Hy. assert (y ∈ g_outn g ++ g_nodes g) as Hy2 by (apply elem_of_app; by left).
      cbn. rewrite Hd4, Hd3, Hd2, decide_False; [apply Hd1| |].
      - intros ->. apply core_nodup in Hc1. by apply NoDup_cons in Hc1 as [Hc1 _]; set_solver.
      - apply (core_loose _ _ _ _ _ _ _ Hc3). set_solver. }
    split_and!; [exact Hinv'|done| |done|done|done|done|exact Hcache|done..|].
    + cbn. apply perm_swap.
    + intros y Hy. cbn. by rewrite lookup_insert_ne by done.
Qed.

(** ** updateFlowTable *)

(** The session of a flow after one more packet. *)
Definition updated (now nb : Z) (se : IPSession) : IPSession :=
  add_packet (with_lastpacket now (add_bytes nb se)).

Lemma updated_tuple now nb se : flow_tuple (incoming (updated now nb se)) = flow_tuple (incoming se).
Proof. done. Qed.

Lemma carrying_move ss l1 e l2 τ :
  Forall (λ d, flow_tuple (flow_at ss (en_session d)) ≠ flow_tuple (flow_at ss (en_session e))) l1 →
  carrying ss τ (en_pair <$> e :: l1 ++ l2) = carrying ss τ (en_pair <$> l1 ++ e :: l2).
Proof.
  intros Hf. rewrite fmap_cons, !fmap_app, fmap_cons, carrying_cons, !carrying_app, carrying_cons.
  cbn [en_pair snd]. case_decide as Hτ; [|done].
  assert (carrying ss τ (en_pair <$> l1) = []) as ->; [|done].
  apply carrying_nil, Forall_fmap. subst τ. exact Hf.
Qed.

Section update.
Context (s : fstate) (g : ghost) (l1 : list entry) (e : entry) (l2 : list entry) (σ : rings).
Hypothesis Hinv : flow_inv s g.
Hypothesis Hlive : g_live g = l1 ++ e :: l2.
Hypothesis Hfirst :
  Forall (λ d, flow_tuple (flow_at (sessions s) (en_session d))
               ≠ flow_tuple (flow_at (sessions s) (en_session e))) l1.
Hypothesis Hσ : σ Active = en_active <$> e :: l1 ++ l2.
Hypothesis Hσ' : changes_only [Active] (g_rings g) σ.
Let x := en_session e.
Definition ghost_update : ghost :=
  Ghost σ (g_nodes g) (g_sess g) (e :: l1 ++ l2) (g_buckets g) (g_flags g) (g_dead g)
    (g_heldn g) (g_helds g).

Lemma update_live_in d : d ∈ e :: l1 ++ l2 ↔ d ∈ g_live g.
Proof. rewrite Hlive. set_solver. Qed.

Lemma update_sessions : all_sessions ghost_update ≡ₚ all_sessions g.
Proof.
  unfold all_sessions. cbn. rewrite Hlive.
  rewrite !fmap_app, fmap_cons. solve_Permutation.
Qed.

Lemma update_inv s' se' :
  core (nodes s') (nodel s') (ip_session s') σ (g_nodes g) (g_sess g) (g_outn g) →
  same_data (nodes s) (nodes s') →
  sessions s' = <[x := se']> (sessions s) →
  flow_tuple (incoming se') = flow_tuple (flow_at (sessions s) x) →
  active_node se' = active_node (session_at (sessions s) x) →
  current_flow se' = current_flow (session_at (sessions s) x) →
  flow_table s' = flow_table s → active_flow_list s' = head (σ Active) →
  expired_flow_list s' = expired_flow_list s →
  flags_expired_flow_list s' = flags_expired_flow_list s →
  flow_inv s' ghost_update.
Proof.
  intros Hc Hd Hss Ht Ha Hcf E1 E2 E3 E4.
  assert (∀ y, flow_tuple (flow_at (sessions s') y) = flow_tuple (flow_at (sessions s) y)) as Hft.
  { intros y. unfold flow_at at 1. rewrite Hss. destruct (decide (x = y)) as [<-|Hne].
    - by rewrite session_at_insert.
    - by rewrite session_at_insert_ne. }
  assert (∀ r, r ≠ Active → σ r = g_rings g r) as Hr by (intros r Hr; apply Hσ'; set_solver).
  assert (length (g_live g) = S (length (l1 ++ l2))) as Hlen.
  { rewrite Hlive, !length_app. cbn. lia. }
  split; rewrite ?E1, ?E2, ?E3, ?E4; cbn [ghost_update g_rings g_nodes g_sess g_live g_buckets
    g_flags g_dead g_heldn g_helds]; rewrite ?Hr by done.
  - done.
  - done.
  - apply (fi_head_expired s g Hinv).
  - apply (fi_head_flags s g Hinv).
  - intros i Hi. rewrite Hr by done. by apply (fi_slots s g Hinv).
  - done.
  - apply (fi_expired s g Hinv).
  - apply (fi_flags s g Hinv).
  - intros i. rewrite Hr by done. apply (fi_bucket s g Hinv).
  - intros d Hdl%update_live_in. destruct (fi_live s g Hinv d Hdl) as (P1 & P2 & P3 & P4).
    unfold entry_ok. rewrite !Hd, Hss. destruct (decide (x = en_session d)) as [Heq|Hne].
    + rewrite <-Heq, session_at_insert, Ha, Hcf, Heq. done.
    + by rewrite session_at_insert_ne.
  - intros d Hdd. rewrite Hd. by apply (fi_waiting s g Hinv).
  - intros d Hdd. rewrite Hd. by apply (fi_held s g Hinv).
  - intros i b Hb. destruct (fi_bucket_live s g Hinv i b Hb) as [Hi Hbl]. split.
    + rewrite <-Hi. by apply getIndex_tuple.
    + revert Hbl. rewrite Hlive, fmap_cons, !fmap_app, fmap_cons. set_solver.
  - intros f. rewrite !(carrying_ext (sessions s) (sessions s')) by auto.
    rewrite carrying_move by done. rewrite <-Hlive. apply (fi_order s g Hinv).
  - rewrite update_sessions. apply (fi_sessions s g Hinv).
  - intros y Hy. rewrite Hss. apply lookup_insert_is_Some'. right. apply (fi_alloc s g Hinv).
    by rewrite <-update_sessions.
  - rewrite (fi_used_nodes s g Hinv), Hlen. cbn. lia.
  - rewrite (fi_used_sessions s g Hinv), Hlen. cbn. lia.
Qed.
End update.

Lemma core_current h p q σ av avs out r :
  core h p q σ av avs out → NoDup (σ r).
Proof. intros [(A & _) _ _ _ _]. apply A. Qed.

Lemma live_unique_session s g l1 e l2 :
  flow_inv s g → g_live g = l1 ++ e :: l2 → ∀ d, d ∈ l1 ++ l2 → en_session d ≠ en_session e.
Proof.
  intros Hinv Hl d Hd Heq. pose proof (live_sessions_nodup s g Hinv) as Hnd.
  rewrite Hl, fmap_app, fmap_cons in Hnd.
  apply NoDup_app in Hnd as (_ & H1 & H2). apply NoDup_cons in H2 as [H2 _].
  apply elem_of_app in Hd as [Hd|Hd]; apply (list_elem_of_fmap_2 en_session) in Hd.
  - apply (H1 _ Hd). rewrite Heq. left.
  - apply H2. by rewrite <-Heq.
Qed.

Lemma updateFlowTable_spec s g l1 e l2 f :
  flow_inv s g → g_live g = l1 ++ e :: l2 →
  Forall (λ d, flow_tuple (flow_at (sessions s) (en_session d))
               ≠ flow_tuple (flow_at (sessions s) (en_session e))) l1 →
  ∃ s' g', updateFlowTable s (Some (en_session e)) f = Ok s' ∧ flow_inv s' g' ∧
    (g_helds g' = g_helds g ∧ g_nodes g' = g_nodes g ∧ g_heldn g' = g_heldn g ∧
     g_sess g' = g_sess g ∧ g_flags g' = g_flags g ∧ g_dead g' = g_dead g) ∧
    cache_of s' g' =
      Cache (touch (last_packet_timestamp s) (nbytes f) (view (sessions s) (en_session e))
             :: (view (sessions s) ∘ en_session <$> l1 ++ l2)) (c_dead (cache_of s g)) ∧
    same_rest s s' ∧ unprocessed_flows s' = unprocessed_flows s ∧
    (∀ y, y ≠ en_session e → sessions s' !! y = sessions s !! y).
Proof.
  intros Hinv Hl Hfirst. pose proof (fi_core s g Hinv) as Hc.
  assert (e ∈ g_live g) as He by (rewrite Hl; set_solver).
  destruct (fi_live s g Hinv e He) as (P1 & P2 & P3 & P4).
  set (x := en_session e) in *.
  destruct (live_session s g Hinv e He) as [se Hse]. fold x in Hse.
  rewrite (session_at_Some _ _ _ Hse) in P3, P4.
  assert (session_at (sessions s) (en_session e) = se) as Hat by (by apply session_at_Some).
  unfold updateFlowTable. rewrite (sload_Some _ _ _ Hse). simpl. rewrite P4.
  rewrite (sstore_Some _ _ _ _ Hse). simpl.
  rewrite (sstore_Some _ _ _ _ (lookup_insert_eq _ _ _)), insert_insert_eq. simpl.
  rewrite (sload_Some _ _ _ (lookup_insert_eq _ _ _)). simpl. rewrite P4.
  rewrite (sstore_Some _ _ _ _ (lookup_insert_eq _ _ _)), insert_insert_eq. simpl.
  rewrite (sload_Some _ _ _ (lookup_insert_eq _ _ _)). simpl. rewrite P3.
  assert (g_rings g Active = (en_active <$> l1) ++ en_active e :: (en_active <$> l2)) as Hact.
  { by rewrite (fi_active s g Hinv), Hl, fmap_app, fmap_cons. }
  destruct (core_unlink _ _ _ _ _ _ _ Active _ _ _ Hc ltac:(unfold pool_rings; set_solver) Hact)
    as (h1 & E1 & Hc1 & Hd1).
  rewrite (fi_head_active s g Hinv), E1. simpl.
  destruct (core_prepend _ _ _ _ _ _ _ _ Active Hc1 ltac:(unfold pool_rings; set_solver))
    as (h2 & E2 & Hc2 & Hd2).
  rewrite !fn_lookup_insert in E2. rewrite E2. simpl.
  set (σ2 := (<[Active := _]> (<[Active := _]> (g_rings g)) : rings)) in Hc2.
  assert (σ2 Active = en_active <$> e :: l1 ++ l2) as Hσ2.
  { subst σ2. by rewrite !fn_lookup_insert, fmap_cons, fmap_app. }
  eexists _, (ghost_update g l1 e l2 σ2). split; [reflexivity|]. split_and!; try done.
  - eapply (update_inv s g l1 e l2 σ2 Hinv Hl Hfirst Hσ2); try done.
    + intros r Hr. subst σ2. by rewrite !fn_lookup_insert_ne by set_solver.
    + cbn. eauto with rings.
    + unfold flow_at. by rewrite Hat.
    + by rewrite Hat.
    + by rewrite Hat.
  - unfold cache_of. cbn. f_equal; [f_equal|]; [| |].
    + unfold view, x. by rewrite session_at_insert, Hat.
    + apply list_fmap_ext. intros k d Hd%list_elem_of_lookup_2. unfold view. cbn.
      rewrite session_at_insert_ne; [done|].
      apply not_eq_sym. by apply (live_unique_session s g l1 e l2).
    + apply list_fmap_ext. intros k d Hd%list_elem_of_lookup_2. unfold view. cbn.
      rewrite session_at_insert_ne; [done|]. intros Heq.
      apply (flags_dead_not_live s g Hinv e He). fold x. rewrite Heq, elem_of_app. right.
      by apply list_elem_of_fmap_2.
  - intros y Hy. cbn. by rewrite lookup_insert_ne by done.
Qed.

(** ** insertFlow *)

(** What [insertFlow] leaves of the pools and queues in every branch. *)
Definition same_queues (g g' : ghost) : Prop :=
  g_heldn g' = g_heldn g ∧ g_sess g' = g_sess g ∧ g_flags g' = g_flags g ∧ g_dead g' = g_dead g.

#[local] Arguments list_search : simpl never.
#[local] Arguments insertFlowTable : simpl never.
#[local] Arguments updateFlowTable : simpl never.

Lemma extract_live s g l1 e l2 f :
  g_live g = l1 ++ e :: l2 →
  flow_tuple (flow_at (sessions s) (en_session e)) = flow_tuple f →
  Forall (λ e, flow_tuple (flow_at (sessions s) (en_session e)) ≠ flow_tuple f) l1 →
  extract (λ e, same_tuple (af_flow e) f) (c_live (cache_of s g))
  = Some (view (sessions s) (en_session e), view (sessions s) ∘ en_session <$> l1 ++ l2).
Proof.
  intros Hl Ht Hf. unfold cache_of. cbn. rewrite Hl, !fmap_app, fmap_cons.
  apply extract_app; [|by apply same_tuple_true]. apply Forall_fmap.
  eapply Forall_impl; [exact Hf|]. intros d Hd. by apply same_tuple_false.
Qed.

Lemma extract_none s g f :
  (∀ e, e ∈ g_live g → flow_tuple (flow_at (sessions s) (en_session e)) ≠ flow_tuple f) →
  extract (λ e, same_tuple (af_flow e) f) (c_live (cache_of s g)) = None.
Proof.
  intros H. apply extract_None. unfold cache_of. cbn. apply Forall_fmap, Forall_forall.
  intros e He. by apply same_tuple_false, H.
Qed.

(** Every branch of [insertFlow], against [cache_insert]. *)
Lemma insertFlow_spec s g x hs se :
  log_ok (log s) → flow_inv s g → g_helds g = x :: hs → sessions s !! x = Some se → (1 ≤ length (g_nodes g))%nat →
  let '(fresh, c) := cache_insert (last_packet_timestamp s) (incoming se) (cache_of s g) in
  ∃ r s' g', insertFlow s (Some x) = Ok (r, s') ∧ flow_inv s' g' ∧ same_queues g g' ∧
    same_but_log s s' ∧ ((3 ≤ length (g_nodes g))%nat → log s' = log s) ∧ (∀ y, y ∈ hs ++ g_sess g → sessions s' !! y = sessions s !! y) ∧
    if fresh then
      if decide (3 ≤ length (g_nodes g))%nat then
        r = None ∧ cache_of s' g' = c ∧ g_helds g' = hs ∧
        (length (g_nodes g') + 2 = length (g_nodes g))%nat ∧
        unprocessed_flows s' = unprocessed_flows s
      else
        r = Some x ∧ cache_of s' g' = cache_of s g ∧ g_helds g' = g_helds g ∧
        length (g_nodes g') = length (g_nodes g) ∧
        unprocessed_flows s' = u64 (unprocessed_flows s + 1)
    else
      r = Some x ∧ cache_of s' g' = c ∧ g_helds g' = g_helds g ∧ g_nodes g' = g_nodes g ∧
      unprocessed_flows s' = unprocessed_flows s.
Proof.
  intros Hlog Hinv Hheld Hse Hav.
  assert (∀ y, y ∈ hs ++ g_sess g → y ≠ x) as Hfree.
  { intros y [Hy|Hy]%elem_of_app ->.
    - pose proof (flow_inv_nodup s g Hinv) as Hnd. rewrite Hheld in Hnd.
      apply NoDup_cons in Hnd as [Hnd _]. apply Hnd. apply elem_of_app. by left.
    - apply (held_not_free s g Hinv x); [rewrite Hheld; left|done]. }
  assert (∃ r s' g', insertFlowTable (with_static (with_data (VSession x) (static_node s)) s)
      (Some x) (getIndex (incoming se)) = Ok (r, s') ∧ flow_inv s' g' ∧ same_queues g g' ∧
    same_but_log s s' ∧ ((3 ≤ length (g_nodes g))%nat → log s' = log s) ∧ (∀ y, y ∈ hs ++ g_sess g → sessions s' !! y = sessions s !! y) ∧
    if decide (3 ≤ length (g_nodes g))%nat then
      r = None ∧ cache_of s' g' = Cache (AFlow (incoming se) (last_packet_timestamp s)
        (last_packet_timestamp s) :: c_live (cache_of s g)) (c_dead (cache_of s g)) ∧
      g_helds g' = hs ∧ (length (g_nodes g') + 2 = length (g_nodes g))%nat ∧
      unprocessed_flows s' = unprocessed_flows s
    else
      r = Some x ∧ cache_of s' g' = cache_of s g ∧ g_helds g' = g_helds g ∧
      length (g_nodes g') = length (g_nodes g) ∧
      unprocessed_flows s' = u64 (unprocessed_flows s + 1)) as Hins.
  { pose proof (flow_inv_static s g (with_data (VSession x) (static_node s)) Hinv) as Hinv'.
    case_decide as Hlen.
    - destruct (g_nodes g) as [|n1 [|n2 [|n3 av]]] eqn:Hg; simpl in Hlen; try lia.
      destruct (insertFlowTable_spec _ g x hs se n1 n2 n3 av Hinv' Hheld Hse Hg)
        as (s' & g' & E & Hi & (Q1 & Q2 & Q3 & Q4 & Q5 & Q6) & Hca & Hr & Hu & Hss).
      exists None, s', g'. split_and!; try done; [by apply same_rest_but_log|by destruct Hr as (_ & ? & _)|by auto|]. rewrite Q2. simpl. lia.
    - destruct (insertFlowTable_full (with_static (with_data (VSession x) (static_node s)) s) g x hs se Hlog Hinv' Hheld Hse ltac:(lia))
        as (s' & g' & E & Hi & (Q1 & Q2 & Q3 & Q4 & Q5 & Q6) & Hca & Hr & Hu & Hss).
      exists (Some x), s', g'. split_and!; try done; [by auto|]. by apply Permutation_length. }
  destruct (cache_insert _ _ _) as [fresh c] eqn:Ec.
  unfold insertFlow. rewrite (sload_Some _ _ _ Hse). simpl.
  rewrite table_get_ok by apply getIndex_range. simpl.
  rewrite (insertFlow_search s g Hinv x se Hse). simpl.
  unfold cache_insert in Ec.
  destruct (carrying (sessions s) (flow_tuple (incoming se)) (en_pair <$> g_live g))
    as [|b r] eqn:Hcar.
  - rewrite extract_none in Ec by (by apply search_none). simplify_eq.
    destruct Hins as (r & s' & g' & E & Hrest). rewrite fmap_nil. unfold head. rewrite E.
    exists r, s', g'. done.
  - apply search_some in Hcar as (l1 & e & l2 & Hl & -> & Ht & Hf).
    rewrite (extract_live s g l1 e l2 (incoming se) Hl Ht Hf) in Ec.
    rewrite <-Ht in Hf. clear Ht. rewrite fmap_cons. unfold head. cbn [fst en_pair].
    assert (e ∈ g_live g) as He by (rewrite Hl; set_solver).
    destruct (fi_live s g Hinv e He) as (_ & P2 & _ & _).
    apply data_of_load in P2 as (n & Hn & Hdat). rewrite (load_Some _ _ _ Hn). simpl.
    rewrite Hdat. simpl. destruct (live_session s g Hinv e He) as [te Hte].
    rewrite (sload_Some _ _ _ Hte). simpl.
    assert (af_last (view (sessions s) (en_session e)) = lastpacket_timestamp te) as Hlast.
    { unfold view. by rewrite (session_at_Some _ _ _ Hte). }
    rewrite Hlast in Ec. unfold aged in Ec. destruct (_ <? _).
    + simplify_eq. destruct Hins as (r' & s' & g' & E & Hrest). rewrite E.
      exists r', s', g'. done.
    + simplify_eq.
      pose proof (flow_inv_static s g (with_data (VSession x) (static_node s)) Hinv) as Hinv'.
      destruct (updateFlowTable_spec _ g l1 e l2 (incoming se) Hinv' Hl)
        as (s' & g' & E & Hi & (Q1 & Q2 & Q3 & Q4 & Q5 & Q6) & Hca & Hr & Hu & Hss).
      { exact Hf. }
      rewrite E. simpl. exists (Some x), s', g'. split_and!; try done; [by apply same_rest_but_log|by destruct Hr as (_ & ? & _)|].
      intros y Hy. apply Hss. intros ->. apply elem_of_app in Hy as [Hy|Hy].
      * apply (held_not_live s g Hinv (en_session e) e); [rewrite Hheld; by right|done|done].
      * by apply (live_not_free s g Hinv e).
Qed.
