(* ===== verification/FlowExpire.v ===== *)
(** * cleanup_flows implements the expiry of the abstract flow cache

    The first loop of [cleanup_flows] takes aged flows from the end of the
    active list, one after the other, until one is still young; each leaves the
    hash table, gives its table node back and joins the flags list.  The flags
    list is then spliced, in one step, behind the expired list.  The whole is
    [cache_cleanup]. *)

From S2P Require Import Prelude Log NodeList Rings FlowData Pools NodePool SessionPool.
From S2P Require Import FlowCore FlowTable FlowInv FlowInsert.

#[local] Arguments take_nodel : simpl never.
#[local] Arguments releaseNodel : simpl never.
#[local] Arguments set_data : simpl never.
#[local] Arguments list_append_node : simpl never.
#[local] Arguments list_unlink : simpl never.
#[local] Arguments sload : simpl never.
#[local] Arguments table_get : simpl never.
#[local] Arguments table_set : simpl never.
#[local] Arguments load : simpl never.
#[local] Arguments getIndex : simpl never.

(** ** One aged flow *)

Lemma snoc_split {A} (a b c : list A) p : a ++ p :: b = c ++ [p] → p ∉ b → b = [] ∧ a = c.
Proof.
  intros H Hp. destruct b as [|q b _] using rev_ind.
  - by apply app_inj_tail in H as [-> _].
  - rewrite app_comm_cons, app_assoc in H. apply app_inj_tail in H as [_ ->]. set_solver.
Qed.

(** The node and session of a flow that left the table. *)
Definition en_waiting (e : entry) : loc * loc := (en_active e, en_session e).

Definition ghost_expire (g : ghost) (σ : rings) (av : list loc) (l : list entry) (e : entry)
    (idx : Z) (k : list (loc * loc)) : ghost :=
  Ghost σ av (g_sess g) l (λ i, if decide (i = idx) then k else g_buckets g i)
    (g_flags g ++ [en_waiting e]) (g_dead g) (g_heldn g) (g_helds g).

Section expire.
Context (s : fstate) (g : ghost) (l : list entry) (e : entry) (k1 k2 : list (loc * loc)).
Context (σ : rings) (av : list loc).
Hypothesis Hinv : flow_inv s g.
Hypothesis Hlive : g_live g = l ++ [e].
Let idx := getIndex (flow_at (sessions s) (en_session e)).
Hypothesis Hbucket : g_buckets g idx = k1 ++ en_pair e :: k2.
Hypothesis Hσ : changes_only [NodelFree; NodelUsed; Active; Flags; Bucket idx] (g_rings g) σ.
Hypothesis Hσa : σ Active = en_active <$> l.
Hypothesis Hσf : σ Flags = fst <$> g_flags g ++ [en_waiting e].
Hypothesis Hσb : σ (Bucket idx) = fst <$> k1 ++ k2.
Hypothesis Hσu : S (length (σ NodelUsed)) = length (g_rings g NodelUsed).
Let g' := ghost_expire g σ av l e idx (k1 ++ k2).

Lemma expire_nodup_bucket i : NoDup (g_buckets g i).
Proof.
  apply (NoDup_fmap_1 fst). rewrite <-(fi_bucket s g Hinv).
  eapply core_current, (fi_core s g Hinv).
Qed.

Lemma expire_pair_out : en_pair e ∉ k1 ∧ en_pair e ∉ k2.
Proof.
  pose proof (expire_nodup_bucket idx) as Hnd. rewrite Hbucket in Hnd.
  apply NoDup_app in Hnd as (_ & H1 & H2). apply NoDup_cons in H2 as [H2 _].
  split; [|done]. intros Hin. apply (H1 _ Hin). left.
Qed.

Lemma expire_pair_live b : b ∈ en_pair <$> g_live g → b ≠ en_pair e → b ∈ en_pair <$> l.
Proof. rewrite Hlive, fmap_app. cbn. set_solver. Qed.

Lemma expire_live_in d : d ∈ l → d ∈ g_live g.
Proof. rewrite Hlive. set_solver. Qed.

Lemma expire_sessions : all_sessions g' ≡ₚ all_sessions g.
Proof.
  unfold all_sessions. cbn. rewrite Hlive, !fmap_app. cbn. solve_Permutation.
Qed.

Lemma expire_order f :
  carrying (sessions s) (flow_tuple f) (g_buckets g' (getIndex f)) =
  carrying (sessions s) (flow_tuple f) (en_pair <$> l).
Proof.
  pose proof (fi_order s g Hinv f) as Ho. rewrite Hlive, fmap_app, carrying_app in Ho.
  cbn [fmap list_fmap] in Ho. rewrite carrying_cons in Ho. cbn [snd en_pair] in Ho.
  cbn [g_buckets g' ghost_expire]. destruct (decide (getIndex f = idx)) as [Hi|Hi].
  - rewrite Hi, Hbucket, carrying_app, carrying_cons in Ho. cbn [snd en_pair] in Ho.
    rewrite carrying_app. case_decide as Ht; [|by rewrite Ho, app_nil_r].
    apply snoc_split in Ho as [H2 H1].
    + by rewrite H2, H1, app_nil_r.
    + intros Hin. apply list_elem_of_filter in Hin as [_ Hin]. by apply expire_pair_out.
  - rewrite decide_False in Ho; [by rewrite Ho, app_nil_r|].
    intros Ht. apply Hi. symmetry. by apply getIndex_tuple.
Qed.

Lemma expire_inv s' :
  core (nodes s') (nodel s') (ip_session s') σ av (g_sess g) (g_outn g) →
  waiting_ok (nodes s') (g_heldn g) →
  (∀ r y, y ∈ g_rings g r → r ∉ pool_rings → y ≠ en_active e → data_of (nodes s') y = data_of (nodes s) y) →
  data_of (nodes s') (en_active e) = Some (VSession (en_session e)) →
  sessions s' = sessions s →
  (∀ i, flow_table s' !! i = if decide (i = idx) then head (fst <$> k1 ++ k2) else flow_table s !! i) →
  active_flow_list s' = head (σ Active) → expired_flow_list s' = expired_flow_list s →
  flags_expired_flow_list s' = head (σ Flags) →
  flow_inv s' g'.
Proof.
  intros Hc Hwh Hd Hda Hss Htb E2 E3 E4.
  assert (∀ i, g_rings g' (Bucket i) = fst <$> g_buckets g' i) as Hb.
  { intros i. cbn. case_decide as Hi; [by subst i|]. rewrite Hσ by set_solver.
    apply (fi_bucket s g Hinv). }
  assert (σ Expired = g_rings g Expired ∧ σ SessUsed = g_rings g SessUsed) as [Hre Hrs]
    by (split; apply Hσ; set_solver).
  assert (length (g_live g) = S (length l)) as Hlen by (rewrite Hlive, length_app; cbn; lia).
  assert (Active ∉ pool_rings ∧ Expired ∉ pool_rings ∧ Flags ∉ pool_rings ∧ ∀ i, Bucket i ∉ pool_rings)
    as (Ha & He & Hf & Hbk) by (unfold pool_rings; set_solver).
  assert (∀ r y, y ∈ g_rings g r → r ≠ Active → y ≠ en_active e) as Hne.
  { intros r y Hy Hr ->. apply Hr. destruct (fi_core s g Hinv) as [(_ & _ & C) _ _ _ _].
    eapply C; [exact Hy|]. apply (live_active s g Hinv). rewrite Hlive. set_solver. }
  split; rewrite ?Hss, ?E2, ?E3, ?E4.
  - exact Hc.
  - done.
  - cbn. rewrite Hre. apply (fi_head_expired s g Hinv).
  - done.
  - intros i Hi. rewrite Htb, Hb. cbn. case_decide; [done|].
    rewrite <-(fi_bucket s g Hinv). by apply (fi_slots s g Hinv).
  - done.
  - cbn. rewrite Hre. apply (fi_expired s g Hinv).
  - done.
  - exact Hb.
  - intros d Hdl. pose proof (expire_live_in d Hdl) as Hdg.
    eapply entry_ok_ext, (fi_live s g Hinv d Hdg); [| |done].
    + eapply Hd; [by apply (live_active s g Hinv)|done|].
      intros Heq. pose proof (core_current _ _ _ _ _ _ _ Active (fi_core s g Hinv)) as Hnd.
      rewrite (fi_active s g Hinv), Hlive, fmap_app in Hnd.
      apply NoDup_app in Hnd as (_ & Hnd & _). apply (Hnd (en_active d)).
      * by apply list_elem_of_fmap_2.
      * rewrite Heq. left.
    + eapply Hd; [by apply (live_table s g Hinv)|done|].
      eapply Hne; [by apply (live_table s g Hinv)|done].
  - intros d. cbn. rewrite <-app_assoc, !elem_of_app. intros [Hdd|[Hdd|Hdd]].
    + rewrite <-(fi_waiting s g Hinv d); [|set_solver].
      destruct (waiting_ring s g Hinv d); [set_solver|..]; (eapply Hd; [done|done|by eapply Hne]).
    + apply list_elem_of_singleton in Hdd as ->. done.
    + rewrite <-(fi_waiting s g Hinv d); [|set_solver].
      destruct (waiting_ring s g Hinv d); [set_solver|..]; (eapply Hd; [done|done|by eapply Hne]).
  - done.
  - intros i b. cbn. case_decide as Hi.
    + intros Hin. destruct expire_pair_out as [Hp1 Hp2].
      destruct (fi_bucket_live s g Hinv idx b) as [Hgi Hbl].
      { rewrite Hbucket. apply elem_of_app in Hin as [Hin|Hin]; apply elem_of_app;
          [by left|by right; right]. }
      split; [by subst i|]. apply expire_pair_live; [done|].
      intros ->. by apply elem_of_app in Hin as [Hin|Hin].
    + intros Hin. destruct (fi_bucket_live s g Hinv i b Hin) as [Hgi Hbl]. split; [done|].
      apply expire_pair_live; [done|]. intros ->. by apply Hi.
  - apply expire_order.
  - rewrite expire_sessions. apply (fi_sessions s g Hinv).
  - intros y Hy. apply (fi_alloc s g Hinv). by rewrite <-expire_sessions.
  - cbn. rewrite length_app. cbn. rewrite (fi_used_nodes s g Hinv), Hlen in Hσu. lia.
  - cbn. rewrite length_app. cbn. rewrite Hrs, (fi_used_sessions s g Hinv), Hlen. lia.
Qed.
End expire.

(** ** The body of the first loop *)

(** The part of the loop body after the test, up to the next iteration. *)
Definition expire_step (s : fstate) (n : option loc) : res (option loc * fstate) :=
  s ← leave_table s n;
  n' ← list_get_prev_node (nodes s) (active_flow_list s) n;
  '(h, active) ← list_unlink (nodes s) (active_flow_list s) n;
  '(h, flags) ← list_append_node h (flags_expired_flow_list s) n;
  Ok (n', with_heads active (expired_flow_list s) flags (with_nodes h s)).

(** What the steps of [cleanup_flows] keep. *)
Definition same_stock (s s' : fstate) (g g' : ghost) : Prop :=
  sessions s' = sessions s ∧ same_rest s s' ∧ unprocessed_flows s' = unprocessed_flows s ∧
  g_helds g' = g_helds g ∧ g_heldn g' = g_heldn g ∧ g_sess g' = g_sess g.

Lemma same_stock_refl s g : same_stock s s g g.
Proof. done. Qed.

Lemma same_stock_trans s1 s2 s3 g1 g2 g3 :
  same_stock s1 s2 g1 g2 → same_stock s2 s3 g2 g3 → same_stock s1 s3 g1 g3.
Proof.
  intros (A1 & (A2 & A3 & A4 & A5 & A6 & A7) & A8 & A9 & A10 & A11)
         (B1 & (B2 & B3 & B4 & B5 & B6 & B7) & B8 & B9 & B10 & B11).
  repeat split; congruence.
Qed.

#[local] Hint Unfold pool_rings : core.

Lemma expire_step_spec s g l e :
  flow_inv s g → g_live g = l ++ [e] →
  ∃ s' g', expire_step s (Some (en_active e)) = Ok (last (g_rings g' Active), s') ∧
    flow_inv s' g' ∧ g_live g' = l ∧ g_flags g' = g_flags g ++ [en_waiting e] ∧
    g_dead g' = g_dead g ∧ g_nodes g' = g_nodes g ++ [en_table e] ∧ same_stock s s' g g'.
Proof.
  intros Hinv Hl. pose proof (fi_core s g Hinv) as Hc.
  assert (e ∈ g_live g) as He by (rewrite Hl; set_solver).
  destruct (fi_live s g Hinv e He) as (P1 & P2 & _ & _).
  destruct (live_session s g Hinv e He) as [se Hse].
  assert (flow_at (sessions s) (en_session e) = incoming se) as Hfl
    by (unfold flow_at; by rewrite (session_at_Some _ _ _ Hse)).
  set (idx := getIndex (flow_at (sessions s) (en_session e))).
  assert (0 ≤ idx < MAX_FLOW_TABLE_SIZE) as Hidx by apply getIndex_range.
  destruct (list_elem_of_split _ _ (live_bucket s g Hinv e He)) as (k1 & k2 & Hk).
  assert (g_rings g (Bucket idx) = (fst <$> k1) ++ en_table e :: (fst <$> k2)) as Hrb.
  { subst idx. by rewrite (fi_bucket s g Hinv), Hk, fmap_app, fmap_cons. }
  assert (Active ∉ pool_rings ∧ Flags ∉ pool_rings ∧ Bucket idx ∉ pool_rings) as (Ha & Hf & Hb)
    by (unfold pool_rings; set_solver).
  assert (en_active e ∈ g_rings g Active) as Hea by (by apply (live_active s g Hinv)).
  unfold expire_step, leave_table.
  pose proof P1 as (na & Hna & Hdna)%data_of_load. rewrite (load_Some _ _ _ Hna). simpl. rewrite Hdna. simpl.
  pose proof P2 as (nt & Hnt & Hdnt)%data_of_load. rewrite (load_Some _ _ _ Hnt). simpl. rewrite Hdnt. simpl.
  rewrite (sload_Some _ _ _ Hse). simpl. rewrite <-Hfl. fold idx.
  rewrite table_get_ok by done. simpl.
  (* out of the table *)
  destruct (core_unlink _ _ _ _ _ _ _ (Bucket idx) _ _ _ Hc Hb Hrb) as (h1 & E1 & Hc1 & Hd1).
  rewrite (fi_slots s g Hinv) by done. rewrite E1. simpl.
  destruct (table_set_ok (flow_table s) idx (head ((fst <$> k1) ++ (fst <$> k2))) Hidx) as (tb & E2 & Htb).
  rewrite E2. simpl.
  assert (data_of h1 (en_table e) = Some (VSession (en_session e))) as (nt1 & Hnt1 & Hdnt1)%data_of_load
    by (by rewrite Hd1).
  rewrite (load_Some _ _ _ Hnt1). simpl. rewrite Hdnt1.
  destruct (core_set_data _ _ _ _ _ _ _ (en_active e) (VSession (en_session e)) Hc1) as (h2 & E3 & Hc2 & Hd2).
  { intros r Hr Hin. rewrite fn_lookup_insert_ne in Hin by (intros <-; done).
    destruct Hc as [(_ & _ & C) _ _ _ _]. specialize (C _ _ _ Hin Hea). subst r. done. }
  { eapply same_data_is_Some; [exact Hd1|]. eauto with rings. }
  rewrite E3. simpl.
  (* the table node goes back to the pool *)
  destruct (core_release _ _ _ _ _ _ _ _ Hc2) as (h4 & p4 & σ4 & E4 & Hc4 & Hd4 & Hσ4 & Hl4).
  { rewrite fn_lookup_insert_ne by done. intros Hnil. pose proof (fi_used_nodes s g Hinv) as Hu.
    rewrite Hnil, Hl, length_app in Hu. cbn in Hu. lia. }
  rewrite E4. simpl.
  assert (σ4 Active = (en_active <$> l) ++ en_active e :: []) as Hact4.
  { rewrite Hσ4 by set_solver. rewrite fn_lookup_insert_ne by done.
    by rewrite (fi_active s g Hinv), Hl, fmap_app. }
  assert (active_flow_list s = head (σ4 Active)) as Hha.
  { rewrite (fi_head_active s g Hinv), (fi_active s g Hinv), Hact4, Hl, fmap_app. done. }
  rewrite Hha, (core_prev _ _ _ _ _ _ _ Active _ _ _ Hc4 Hact4). simpl.
  destruct (core_unlink _ _ _ _ _ _ _ Active _ _ _ Hc4 Ha Hact4) as (h5 & E5 & Hc5 & Hd5).
  rewrite E5. simpl. rewrite app_nil_r in *.
  destruct (core_append _ _ _ _ _ _ _ _ Flags Hc5 Hf) as (h6 & E6 & Hc6 & Hd6).
  assert ((<[Active := en_active <$> l]> σ4) Flags = fst <$> g_flags g) as Hfl5.
  { rewrite fn_lookup_insert_ne by done. rewrite Hσ4 by set_solver.
    rewrite fn_lookup_insert_ne by done. apply (fi_flags s g Hinv). }
  rewrite Hfl5 in E6, Hc6. rewrite (fi_head_flags s g Hinv), (fi_flags s g Hinv), E6. simpl.
  set (σ6 := (<[Flags := (fst <$> g_flags g) ++ [en_active e]]> (<[Active := en_active <$> l]> σ4) : rings)) in *.
  assert (σ6 Active = en_active <$> l) as H6a
    by (subst σ6; by rewrite fn_lookup_insert_ne, fn_lookup_insert by done).
  eexists _, (ghost_expire g σ6 (g_nodes g ++ [en_table e]) l e idx (k1 ++ k2)).
  split; [cbn [ghost_expire g_rings]; rewrite H6a; reflexivity|]. split; [|by repeat split].
  assert (σ6 Flags = fst <$> g_flags g ++ [en_waiting e]) as H6f
    by (subst σ6; by rewrite fn_lookup_insert, fmap_app).
  assert (∀ r y, y ∈ g_rings g r → r ≠ NodelUsed →
            y ∉ (<[Bucket idx := (fst <$> k1) ++ (fst <$> k2)]> (g_rings g) : rings) NodelUsed) as Hu0.
  { intros r y Hy Hr. rewrite fn_lookup_insert_ne by done. by eapply (chained_not_used s g Hinv). }
  eapply (expire_inv s g l e k1 k2 σ6); try done.
  - intros r Hr. subst σ6. rewrite !fn_lookup_insert_ne by set_solver.
    rewrite Hσ4 by set_solver. by rewrite fn_lookup_insert_ne by set_solver.
  - subst σ6. rewrite !fn_lookup_insert_ne by done. rewrite Hσ4 by set_solver.
    fold idx. by rewrite fn_lookup_insert, fmap_app.
  - intros d Hdd. assert (d.1 ∈ g_outn g ++ g_nodes g) as Ho.
    { apply elem_of_app. left. by apply list_elem_of_fmap_2. }
    pose proof (loose_unchained s g Hinv _ Ho) as Hu. cbn. rewrite Hd6, Hd5, Hd4, Hd2.
    + rewrite decide_False; [rewrite Hd1; by apply (fi_held s g Hinv)|].
      intros Heq. apply (Hu Active). by rewrite Heq.
    + rewrite fn_lookup_insert_ne by done. apply Hu.
  - intros r y Hy Hr Hya. cbn. rewrite Hd6, Hd5, Hd4 by (apply (Hu0 r y Hy); intros ->; set_solver).
    rewrite Hd2, decide_False by done. apply Hd1.
  - cbn. rewrite Hd6, Hd5, Hd4 by (by apply (Hu0 Active)). by rewrite Hd2, decide_True.
  - intros i. cbn. rewrite Htb, fmap_app. done.
Qed.

(** ** The first loop *)

Lemma expire_active_step fuel s a :
  expire_active (S fuel) s (Some a) =
    (nn ← load (nodes s) (Some a);
     tbl ← as_node (data nn);
     cn ← load (nodes s) tbl;
     x ← as_session (data cn);
     cs ← sload (sessions s) x;
     if aged (last_packet_timestamp s) (lastpacket_timestamp cs)
     then '(n, s) ← expire_step s (Some a); expire_active fuel s n
     else Ok s).
Proof.
  simpl. unfold expire_step, aged.
  repeat match goal with
  | |- mbind _ ?m = mbind _ ?m => destruct m; simpl; [|done]
  | |- (if ?b then _ else _) = _ => destruct b; [|done]
  | |- mbind _ (leave_table _ _) = _ => destruct (leave_table _ _) as [s1|]; simpl; [|done]
  | |- mbind _ (list_get_prev_node _ _ _) = _ => destruct (list_get_prev_node _ _ _); simpl; [|done]
  | |- mbind _ (list_unlink _ _ _) = _ => destruct (list_unlink _ _ _) as [[]|]; simpl; [|done]
  | |- mbind _ (list_append_node _ _ _) = _ => destruct (list_append_node _ _ _) as [[]|]; simpl; [|done]
  end; done.
Qed.

(** The flows that the loop takes out: aged ones, and the next is young. *)
Definition aged_tail (s : fstate) (keep out : list entry) : Prop :=
  Forall (λ e, aged (last_packet_timestamp s) (af_last (view (sessions s) (en_session e))) = true) out ∧
  ∀ e, last keep = Some e →
    aged (last_packet_timestamp s) (af_last (view (sessions s) (en_session e))) = false.

Lemma expire_active_nil fuel s g :
  flow_inv s g → g_live g = [] →
  ∃ s' g' out, expire_active fuel s (last (g_rings g Active)) = Ok s' ∧ flow_inv s' g' ∧
    [] = g_live g' ++ out ∧ aged_tail s (g_live g') out ∧
    g_flags g' = g_flags g ++ rev (en_waiting <$> out) ∧ g_dead g' = g_dead g ∧
    length (g_nodes g') = (length (g_nodes g) + length out)%nat ∧ same_stock s s' g g'.
Proof.
  intros Hinv Hl. exists s, g, []. rewrite (fi_active s g Hinv), Hl, app_nil_r, Nat.add_0_r.
  split_and!; try done; [by destruct fuel|]. by rewrite app_nil_r.
Qed.

Lemma expire_active_spec fuel s g :
  flow_inv s g → (length (g_live g) ≤ fuel)%nat →
  ∃ s' g' out, expire_active fuel s (last (g_rings g Active)) = Ok s' ∧ flow_inv s' g' ∧
    g_live g = g_live g' ++ out ∧ aged_tail s (g_live g') out ∧
    g_flags g' = g_flags g ++ rev (en_waiting <$> out) ∧ g_dead g' = g_dead g ∧
    length (g_nodes g') = (length (g_nodes g) + length out)%nat ∧ same_stock s s' g g'.
Proof.
  revert s g. induction fuel as [|fuel IH]; intros s g Hinv Hfuel;
    destruct (g_live g) as [|e l _] eqn:Hl using rev_ind; try by apply expire_active_nil.
  { rewrite length_app in Hfuel. cbn in Hfuel. lia. }
  assert (e ∈ g_live g) as He by (rewrite Hl; set_solver).
  destruct (fi_live s g Hinv e He) as (P1 & P2 & _ & _).
  destruct (live_session s g Hinv e He) as [se Hse].
  rewrite (fi_active s g Hinv), Hl, fmap_app, last_app. cbn [last fmap list_fmap].
  rewrite expire_active_step.
  apply data_of_load in P1 as (na & Hna & Hdna). rewrite (load_Some _ _ _ Hna). simpl. rewrite Hdna. simpl.
  apply data_of_load in P2 as (nt & Hnt & Hdnt). rewrite (load_Some _ _ _ Hnt). simpl. rewrite Hdnt. simpl.
  rewrite (sload_Some _ _ _ Hse). simpl.
  assert (af_last (view (sessions s) (en_session e)) = lastpacket_timestamp se) as Hlast
    by (unfold view; by rewrite (session_at_Some _ _ _ Hse)).
  destruct (aged _ _) eqn:Hag.
  - destruct (expire_step_spec s g l e Hinv Hl) as (s1 & g1 & E1 & Hinv1 & Hl1 & Hf1 & Hd1 & Hn1 & Hs1).
    rewrite E1. simpl.
    destruct (IH s1 g1 Hinv1) as (s2 & g2 & out & E2 & Hinv2 & Hl2 & [Ht2 Ht2'] & Hf2 & Hd2 & Hn2 & Hs2).
    { rewrite Hl1. rewrite length_app in Hfuel. cbn in Hfuel. lia. }
    pose proof Hs1 as (Hss & (_ & _ & _ & Htm & _) & _). rewrite Hss, Htm in *.
    exists s2, g2, (out ++ [e]). split_and!; [done|done| | | |by rewrite Hd2| |].
    + by rewrite <-Hl1, Hl2, app_assoc.
    + split; [|done]. apply Forall_app. split; [done|]. constructor; [|done]. by rewrite Hlast.
    + rewrite Hf2, Hf1, fmap_app, rev_app_distr, <-app_assoc. done.
    + rewrite Hn2, Hn1, !length_app. cbn. lia.
    + by eapply same_stock_trans.
  - exists s, g, []. rewrite !app_nil_r, Hl, Nat.add_0_r. split_and!; try done; [].
    split; [done|]. intros d. rewrite last_snoc. intros [= <-]. by rewrite Hlast.
Qed.

Lemma split_aged_app now keep out :
  Forall (λ e, aged now (af_last e) = true) out →
  (∀ e, last keep = Some e → aged now (af_last e) = false) →
  split_aged now (keep ++ out) = (keep, out).
Proof.
  intros Hout Hkeep. induction keep as [|k keep IH]; cbn.
  - clear Hkeep. induction Hout as [|e out He _ IH]; [done|]. cbn. by rewrite IH, He.
  - rewrite IH.
    + destruct keep; [|done]. by rewrite (Hkeep k).
    + intros e He. apply Hkeep. by destruct keep.
Qed.

(** ** The splice *)

Lemma ring_app_intro h D F :
  D ≠ [] → F ≠ [] → (∀ d, seg h (lst_of d F) D (fst_of d F)) →
  (∀ d, seg h (lst_of d D) F (fst_of d D)) → ring h (D ++ F).
Proof.
  intros HD HF H1 H2 d. rewrite lst_of_app, fst_of_app, seg_app.
  rewrite (lst_of_nonempty (lst_of d D) d F HF), (lst_of_nonempty (lst_of d F) d D HD).
  rewrite (fst_of_nonempty (fst_of d F) d D HD), (fst_of_nonempty (fst_of d D) d F HF).
  split; [apply H1|apply H2].
Qed.

Lemma splice_expired_spec h D F :
  dll h (head D) D → dll h (head F) F → F ≠ [] → NoDup (D ++ F) →
  ∃ h', splice_expired h (head D) (head F) = Ok (h', head (D ++ F)) ∧
    ring h' (D ++ F) ∧ touches (D ++ F) h h'.
Proof.
  intros HD HF Hne Hnd. unfold splice_expired.
  rewrite (list_get_last_node_spec _ _ _ HD), (list_get_last_node_spec _ _ _ HF). simpl.
  destruct D as [|y D]; [exists h; split_and!; [by destruct F|apply HF|apply touches_refl]|].
  destruct F as [|z F]; [done|]. unfold list_get_first_node. cbn [head].
  rewrite !last_cons_lst_of. set (p := lst_of y D). set (q := lst_of z F).
  destruct HD as (_ & HndD & HrD), HF as (_ & HndF & HrF).
  apply ring_seg in HrD, HrF. cbn [lst_of] in HrD, HrF. fold p in HrD. fold q in HrF.
  assert (∀ u, u ∈ y :: D → u ∉ z :: F) as HnF by (by apply NoDup_app in Hnd as (_ & Hd & _)).
  assert (∀ u, u ∈ z :: F → u ∉ y :: D) as HnD by (intros u Hu Hu2; by apply (HnF u)).
  assert (p ∈ y :: D) as Hp by (by apply (lst_of_in y (y :: D))).
  assert (q ∈ z :: F) as Hq by (by apply (lst_of_in z (z :: F))).
  pose proof (proj1 (NoDup_cons _ _) HndD) as [HyD _].
  pose proof (proj1 (NoDup_cons _ _) HndF) as [HzF _].
  assert (∀ (h : heap) a n l u v, a ∉ l → seg h u l v → seg (<[a := n]> h) u l v) as Hframe.
  { intros h0 a n l u v Ha. apply seg_frame. intros w Hw. apply lookup_insert_ne. by intros ->. }
  (* first_expired->prev = last_expired_flags *)
  destruct (seg_lookup _ _ _ _ y HrD ltac:(left)) as [n1 Hn1].
  rewrite (set_prev_Some _ _ _ _ Hn1). simpl. set (h1 := <[y := _]> h).
  pose proof (seg_set_first h h1 p q y D y n1 HrD HyD Hn1 eq_refl) as D1.
  assert (seg h1 q (z :: F) z) as F1 by (by apply Hframe; [apply HnF; left|]).
  (* last_expired->next = first_expired_flags *)
  destruct (seg_lookup _ _ _ _ p D1 Hp) as [n2 Hn2].
  rewrite (set_next_Some _ _ _ _ Hn2). simpl. set (h2 := <[p := _]> h1).
  pose proof (seg_set_last h1 h2 q (y :: D) y z y n2 D1 HndD ltac:(done) Hn2 eq_refl) as D2.
  assert (seg h2 q (z :: F) z) as F2 by (by apply Hframe; [apply HnF|]).
  (* first_expired_flags->prev = last_expired *)
  destruct (seg_lookup _ _ _ _ z F2 ltac:(left)) as [n3 Hn3].
  rewrite (set_prev_Some _ _ _ _ Hn3). simpl. set (h3 := <[z := _]> h2).
  pose proof (seg_set_first h2 h3 q p z F z n3 F2 HzF Hn3 eq_refl) as F3.
  assert (seg h3 q (y :: D) z) as D3 by (by apply Hframe; [apply HnD; left|]).
  (* last_expired_flags->next = first_expired *)
  destruct (seg_lookup _ _ _ _ q F3 Hq) as [n4 Hn4].
  rewrite (set_next_Some _ _ _ _ Hn4). simpl. set (h4 := <[q := _]> h3).
  pose proof (seg_set_last h3 h4 p (z :: F) z y z n4 F3 HndF ltac:(done) Hn4 eq_refl) as F4.
  assert (seg h4 q (y :: D) z) as D4 by (by apply Hframe; [apply HnD|]).
  exists h4. split; [done|]. split; [by apply (ring_app_intro h4 (y :: D) (z :: F))|].
  assert (∀ u, u ∈ y :: D → u ∈ (y :: D) ++ z :: F) as InD by (intros; apply elem_of_app; by left).
  assert (∀ u, u ∈ z :: F → u ∈ (y :: D) ++ z :: F) as InF by (intros; apply elem_of_app; by right).
  eapply (touches_trans _ h h1); [by eapply touches_insert; [apply InD; left|..]|].
  eapply (touches_trans _ h1 h2); [by eapply touches_insert; [apply InD|..]|].
  eapply (touches_trans _ h2 h3); [by eapply touches_insert; [apply InF; left|..]|].
  by eapply touches_insert; [apply InF|..].
Qed.

Lemma core_splice h p q σ av avs out :
  core h p q σ av avs out → σ Flags ≠ [] →
  ∃ h', splice_expired h (head (σ Expired)) (head (σ Flags)) = Ok (h', head (σ Expired ++ σ Flags)) ∧
    core h' p q (<[Expired := σ Expired ++ σ Flags]> (<[Flags := []]> σ)) av avs out ∧
    same_data h h'.
Proof.
  intros Hc Hne. pose proof Hc as [Hok _ _ Hnd Hl]. pose proof Hok as (A & B & C).
  assert (∀ x, x ∈ σ Flags → ∀ r, r ≠ Flags → x ∉ σ r) as Hfl.
  { intros x Hx r Hr Hxr. apply Hr. by eapply C. }
  assert (∀ x r, x ∈ out ++ av → x ∉ σ r) as Hloose by (intros x r Hx; by apply (Hl x Hx)).
  destruct (splice_expired_spec h (σ Expired) (σ Flags)) as (h' & E & Hr & Ht); [| |done| |].
  { by apply rings_ok_dll. } { by apply rings_ok_dll. }
  { apply NoDup_app. split_and!; [apply A| |apply A]. intros x Hx Hx2. by apply (Hfl x Hx2 Expired). }
  exists h'. split; [done|]. split; [|eauto with rings].
  assert (core h p q (<[Flags := []]> σ) av avs (σ Flags ++ out)) as Hc1.
  { apply (core_relist h h p q σ av avs out (σ Flags ++ out) Flags [] Hc); [|done| | |].
    - unfold pool_rings. set_solver.
    - eapply (rings_ok_update h h σ Flags [] []); [done|apply touches_refl|constructor|
        apply ring_nil| |]; set_solver.
    - rewrite <-app_assoc. apply NoDup_app. split_and!; [apply A| |done].
      intros x Hx Hx2. by apply (Hloose x Flags).
    - intros x Hx. split; [set_solver|]. rewrite <-app_assoc in Hx.
      apply elem_of_app in Hx as [Hx|Hx]; [right|by left]. split; [done|]. by apply Hfl. }
  assert (∀ x, x ∈ σ Expired ++ σ Flags → x ∈ σ Expired ∨ unchained (<[Flags := []]> σ) x) as Hx1.
  { intros x Hx. apply elem_of_app in Hx as [Hx|Hx]; [by left|right].
    apply unchained_update. split; [set_solver|]. by apply Hfl. }
  eapply (core_relist h h' p q _ av avs (σ Flags ++ out) out Expired); [done| | | |done|].
  - unfold pool_rings. set_solver.
  - eauto with rings.
  - eapply (rings_ok_update h h' _ Expired _ (σ Expired ++ σ Flags)); [apply Hc1|done| |done| |];
      [|by rewrite fn_lookup_insert_ne..].
    apply NoDup_app. split_and!; [apply A| |apply A]. intros x Hx Hx2. by apply (Hfl x Hx2 Expired).
  - intros x Hx. split; [|left; rewrite <-app_assoc; apply elem_of_app; by right].
    intros [Hin|Hin]%elem_of_app; by eapply Hloose.
Qed.

(** ** cleanup_flows *)

Definition ghost_splice (g : ghost) (σ : rings) : ghost :=
  Ghost σ (g_nodes g) (g_sess g) (g_live g) (g_buckets g) [] (g_dead g ++ g_flags g)
    (g_heldn g) (g_helds g).

Lemma splice_inv s g h :
  flow_inv s g →
  let σ := (<[Expired := g_rings g Expired ++ g_rings g Flags]> (<[Flags := []]> (g_rings g)) : rings) in
  core h (nodel s) (ip_session s) σ (g_nodes g) (g_sess g) (g_outn g) →
  same_data (nodes s) h →
  flow_inv (with_heads (active_flow_list s) (head (g_rings g Expired ++ g_rings g Flags)) None
             (with_nodes h s)) (ghost_splice g σ).
Proof.
  intros Hinv σ Hc Hd.
  assert (∀ r, r ≠ Expired → r ≠ Flags → σ r = g_rings g r) as Hr.
  { intros r H1 H2. subst σ. by rewrite !fn_lookup_insert_ne by done. }
  assert (σ Expired = g_rings g Expired ++ g_rings g Flags) as He by (apply fn_lookup_insert).
  assert (σ Flags = []) as Hf.
  { subst σ. rewrite fn_lookup_insert_ne by done. apply fn_lookup_insert. }
  assert (all_sessions (ghost_splice g σ) ≡ₚ all_sessions g) as Hp.
  { unfold all_sessions. cbn. rewrite !fmap_app. solve_Permutation. }
  split; cbn [nodes nodel ip_session with_heads with_nodes active_flow_list expired_flow_list
    flags_expired_flow_list flow_table sessions ghost_splice g_rings g_nodes g_sess g_live g_buckets
    g_flags g_dead g_heldn g_helds]; rewrite ?He, ?Hf, ?Hr by done; try done.
  - apply (fi_head_active s g Hinv).
  - intros i Hi. rewrite Hr by done. by apply (fi_slots s g Hinv).
  - apply (fi_active s g Hinv).
  - by rewrite (fi_expired s g Hinv), (fi_flags s g Hinv), fmap_app.
  - intros i. rewrite Hr by done. apply (fi_bucket s g Hinv).
  - intros e Hel. eapply entry_ok_ext, (fi_live s g Hinv e Hel); [apply Hd|apply Hd|done].
  - intros d Hdd. rewrite Hd. apply (fi_waiting s g Hinv). cbn in Hdd. set_solver.
  - intros d Hdd. rewrite Hd. by apply (fi_held s g Hinv).
  - apply (fi_bucket_live s g Hinv).
  - apply (fi_order s g Hinv).
  - rewrite Hp. apply (fi_sessions s g Hinv).
  - intros x Hx. apply (fi_alloc s g Hinv). by rewrite <-Hp.
  - rewrite (fi_used_nodes s g Hinv), length_app. cbn. lia.
  - rewrite (fi_used_sessions s g Hinv), length_app. cbn. lia.
Qed.

Lemma flow_inv_heads s g h :
  flow_inv s g → core h (nodel s) (ip_session s) (g_rings g) (g_nodes g) (g_sess g) (g_outn g) →
  same_data (nodes s) h → flow_inv (with_nodes h s) g.
Proof.
  intros [] Hc Hd. split; try done.
  - intros e He. eapply entry_ok_ext; [apply Hd|apply Hd|done|auto].
  - intros d Hdd. cbn. rewrite Hd. auto.
  - intros d Hdd. cbn. rewrite Hd. auto.
Qed.

#[local] Arguments expire_active : simpl never.
#[local] Arguments splice_expired : simpl never.

Lemma cleanup_flows_spec s g :
  flow_inv s g → g_flags g = [] →
  ∃ s' g' out, cleanup_flows s = Ok s' ∧ flow_inv s' g' ∧ g_flags g' = [] ∧
    g_live g = g_live g' ++ out ∧ aged_tail s (g_live g') out ∧
    g_dead g' = g_dead g ++ rev (en_waiting <$> out) ∧
    length (g_nodes g') = (length (g_nodes g) + length out)%nat ∧ same_stock s s' g g'.
Proof.
  intros Hinv Hf. pose proof (fi_core s g Hinv) as Hc. unfold cleanup_flows.
  rewrite (fi_head_flags s g Hinv), (core_last _ _ _ _ _ _ _ Flags Hc). simpl.
  rewrite (fi_head_active s g Hinv), (core_last _ _ _ _ _ _ _ Active Hc). simpl.
  destruct (expire_active_spec (S (size (nodes s))) s g Hinv) as
    (s1 & g1 & out & E1 & Hinv1 & Hl1 & Ht1 & Hf1 & Hd1 & Hn1 & Hs1).
  { pose proof (core_length _ _ _ _ _ _ _ Active Hc) as Hlen.
    rewrite (fi_active s g Hinv), length_fmap in Hlen. lia. }
  rewrite E1. simpl. rewrite (fi_flags s g Hinv), Hf in *. simpl.
  pose proof (fi_head_flags s1 g1 Hinv1) as Hhf.
  pose proof (fi_flags s1 g1 Hinv1) as Hrf.
  destruct (flags_expired_flow_list s1) as [x|] eqn:Hfl; simpl.
  - assert (g_rings g1 Flags ≠ []) as Hne by (intros Hnil; by rewrite Hnil in Hhf).
    destruct (core_splice _ _ _ _ _ _ _ (fi_core s1 g1 Hinv1) Hne) as (h2 & E2 & Hc2 & Hd2).
    rewrite (fi_head_expired s1 g1 Hinv1), Hhf, E2. simpl.
    eexists _, _, out. split; [reflexivity|]. split; [exact (splice_inv s1 g1 h2 Hinv1 Hc2 Hd2)|].
    cbn. split_and!; try done; by rewrite Hf1, Hd1.
  - assert (out = []) as ->.
    { destruct (g_rings g1 Flags) as [|] eqn:Hnil; [|done]. rewrite Hf1 in Hrf.
      symmetry in Hrf. apply fmap_nil_inv in Hrf. cbn in Hrf.
      apply (f_equal (@rev _)) in Hrf. rewrite rev_involutive in Hrf. by apply fmap_nil_inv in Hrf. }
    rewrite !app_nil_r in Hl1. exists s1, g1, []. cbn. rewrite !app_nil_r. split_and!; try done.
    destruct s1; simpl in *. by subst.
Qed.

Lemma cleanup_cache s g s' g' out :
  g_live g = g_live g' ++ out → aged_tail s (g_live g') out →
  g_dead g' = g_dead g ++ rev (en_waiting <$> out) → sessions s' = sessions s →
  cache_of s' g' = cache_cleanup (last_packet_timestamp s) (cache_of s g).
Proof.
  intros Hl [Ho Hk] Hd Hss. unfold cache_cleanup, cache_of. cbn. rewrite Hl, fmap_app.
  rewrite split_aged_app.
  - rewrite Hd, Hss, fmap_app. do 2 f_equal. rewrite !fmap_rev, <-!list_fmap_compose. done.
  - by apply Forall_fmap.
  - intros a Ha. rewrite fmap_last in Ha. apply fmap_Some in Ha as (e & He & ->). by apply Hk.
Qed.
