(* ===== verification/Packet.v ===== *)
(** * Parsing of packets: parsePacket of dp.c, processL4Flow of IPflow.c

    A packet is the bytes that can be read from its start; a read past them
    faults.  The host is little-endian, so [*(uint16_t * )p] is [load16] and
    [ntohs] swaps.  The flow under construction is the [incoming] field of
    [aux_session], written field by field as the code does. *)

From S2P Require Import Prelude Log NodeList Rings FlowData Pools NodePool SessionPool FlowTable.

(** ** Bytes *)

Abbreviation buffer := (list Z).

(** struct pcap_pkthdr *)
Record pkthdr := PktHdr { ts_sec : Z; ts_usec : Z; caplen : Z; len : Z }.

Definition byte_at (buf : buffer) (i : Z) : res Z :=
  if i <? 0 then Err OutOfBounds else or_fault (buf !! Z.to_nat i) OutOfBounds.

Definition load16 (buf : buffer) (i : Z) : res Z :=
  b0 ← byte_at buf i; b1 ← byte_at buf (i + 1);
  Ok (Z.lor b0 (Z.shiftl b1 8)).

Definition load32 (buf : buffer) (i : Z) : res Z :=
  l ← load16 buf i; h ← load16 buf (i + 2);
  Ok (Z.lor l (Z.shiftl h 16)).

Definition ntohs (x : Z) : Z := Z.lor (Z.shiftl (Z.land x 0xFF) 8) (Z.land (Z.shiftr x 8) 0xFF).

Definition ntohl (x : Z) : Z :=
  Z.lor (Z.shiftl (ntohs (Z.land x 0xFFFF)) 16) (ntohs (Z.land (Z.shiftr x 16) 0xFFFF)).

(** [memcpy(&field, bp+i, ETH_ALEN)] into a [uint64_t]: the two high bytes stay. *)
Definition memcpy_mac (buf : buffer) (i : Z) (field : Z) : res Z :=
  l ← load32 buf i; h ← load16 buf (i + 4);
  Ok (Z.lor (Z.lor l (Z.shiftl h 32)) (Z.shiftl (Z.shiftr field 48) 48)).

(** ** Writes to [aux_session->incoming] *)

Definition with_macs (dst src : Z) (f : IPFlow) : IPFlow :=
  MkIPFlow (source_ip f) (destination_ip f) src dst (source_port f) (destination_port f)
    (vlanTag f) (transport_protocol f) (npack f) (nbytes f).
Definition with_vlan (v : Z) (f : IPFlow) : IPFlow :=
  MkIPFlow (source_ip f) (destination_ip f) (source_mac f) (destination_mac f) (source_port f)
    (destination_port f) v (transport_protocol f) (npack f) (nbytes f).
Definition with_ips (src dst : Z) (f : IPFlow) : IPFlow :=
  MkIPFlow src dst (source_mac f) (destination_mac f) (source_port f)
    (destination_port f) (vlanTag f) (transport_protocol f) (npack f) (nbytes f).
Definition with_ports (src dst : Z) (f : IPFlow) : IPFlow :=
  MkIPFlow (source_ip f) (destination_ip f) (source_mac f) (destination_mac f) src dst
    (vlanTag f) (transport_protocol f) (npack f) (nbytes f).
Definition with_proto (p : Z) (f : IPFlow) : IPFlow :=
  MkIPFlow (source_ip f) (destination_ip f) (source_mac f) (destination_mac f) (source_port f)
    (destination_port f) (vlanTag f) p (npack f) (nbytes f).

(** A write through [aux_session]. *)
Definition set_session (f : IPSession → IPSession) (s : fstate) : res fstate :=
  ss ← sstore (sessions s) (aux_session s) f;
  Ok (with_sessions ss s).

(** A write through [aux = &aux_session->incoming]. *)
Definition set_aux (f : IPFlow → IPFlow) (s : fstate) : res fstate :=
  set_session (λ se, with_incoming (f (incoming se)) se) s.

(** [aux_session = insertFlow(aux_session)] *)
Definition insert_aux (s : fstate) : res fstate :=
  '(r, s) ← insertFlow s (aux_session s);
  Ok (with_aux r s).

(** ** processL4Flow *)

(** The length arguments are [uint16_t] promoted to [int]; [dataLen] is computed
    in [uint16_t] and not used further. *)
Definition dataLen_of (ipLen ipHLen l4HLen : Z) : Z := u16 (ipLen - ipHLen - l4HLen).

Definition processL4Flow (buf : buffer) (bp ipLen ipHLen : Z) (s : fstate) : res fstate :=
  a ← sload (sessions s) (aux_session s);
  let proto := transport_protocol (incoming a) in
  if proto =? TCP_PROTO then
    sp ← load16 buf bp;
    dp ← load16 buf (bp + 2);
    s ← set_aux (with_ports (ntohs sp) (ntohs dp)) s;
    b ← byte_at buf (bp + TCP_HLEN_OFFSET);
    let tcpHLen := Z.land (Z.shiftr b 4) 0x0F * 4 in
    if (ipLen - ipHLen <? tcpHLen) || (tcpHLen <? TCP_MIN_HLEN) || (TCP_MAX_HLEN <? tcpHLen)
    then Ok (drop_malformed s)
    else insert_aux s
  else if proto =? UDP_PROTO then
    sp ← load16 buf bp;
    dp ← load16 buf (bp + 2);
    s ← set_aux (with_ports (ntohs sp) (ntohs dp)) s;
    if ipLen - ipHLen <? UDP_HLEN
    then Ok (drop_malformed s)
    else insert_aux s
  else if proto =? ICMP_PROTO then
    ty ← byte_at buf (bp + ICMP_TYPE_OFF);
    co ← byte_at buf (bp + ICMP_CODE_OFF);
    s ← set_aux (with_ports ty co) s;
    insert_aux s
  else Ok s.

(** ** parsePacket *)

(** The common part of the three protocol cases of the switch. *)
Definition begin_l4 (h : pkthdr) (proto : Z) (s : fstate) : res fstate :=
  s ← set_aux (with_counters 1 (len h)) s;
  s ← set_session (with_timestamps (last_packet_timestamp s) (last_packet_timestamp s)) s;
  set_aux (with_proto proto) s.

(** The [while(!stopParsing)] loop: [bp] is the offset from [bpStart]. *)
Fixpoint parse_loop (fuel : nat) (buf : buffer) (h : pkthdr) (bp aux16 ipLen ipHLen : Z)
    (s : fstate) : res fstate :=
  match fuel with
  | O => Err OutOfFuel
  | S fuel =>
      if caplen h <=? bp then Ok s
      else if aux16 =? QINQ_ETYPE then
        let bp := bp + 2 in
        v ← load16 buf bp;
        s ← set_aux (with_vlan (ntohs v)) s;
        s ← set_aux (λ f, with_vlan (Z.land (vlanTag f) 0x0FFF) f) s;
        let bp := bp + 2 in
        e ← load16 buf bp;
        parse_loop fuel buf h bp (ntohs e) ipLen ipHLen s
      else if aux16 =? IP_ETYPE then
        let bp := bp + 2 in
        if caplen h <=? bp + IP_HLEN then Ok s
        else
          sip ← load32 buf (bp + IP_SIP);
          dip ← load32 buf (bp + IP_DIP);
          s ← set_aux (with_ips (ntohl sip) (ntohl dip)) s;
          proto ← byte_at buf (bp + IP_PROTO);
          hl ← byte_at buf (bp + IP_HL_V);
          let ipHLen := Z.land hl IP_HL_MASK * IP_ALEN in
          il ← load16 buf (bp + IP_LEN);
          let ipLen := ntohs il in
          if (ipHLen <? IP_MIN_HLEN) || (IP_MAX_HLEN <? ipHLen) || (ipLen <? ipHLen)
          then Ok (drop_malformed s)
          else parse_loop fuel buf h (bp + ipHLen) proto ipLen ipHLen s
      else if aux16 =? UDP_16B then
        s ← begin_l4 h UDP_PROTO s; processL4Flow buf bp ipLen ipHLen s
      else if aux16 =? TCP_16B then
        s ← begin_l4 h TCP_PROTO s; processL4Flow buf bp ipLen ipHLen s
      else if aux16 =? ICMP_16B then
        s ← begin_l4 h ICMP_PROTO s; processL4Flow buf bp ipLen ipHLen s
      else Ok s
  end.

(** The head of [parsePacket]: [aux_session] is a session with a cleared flow, or
    still NULL when the pool has none ([false]). *)
Definition obtain_session (s : fstate) : res (bool * fstate) :=
  match aux_session s with
  | None =>
      '(r, h, p, lg) ← getIPSession (nodes s) (ip_session s) (log s);
      let s := with_aux r (with_pool h (sessions s) p lg s) in
      Ok (bool_decide (r ≠ None), s)
  | Some _ =>
      s ← set_aux (λ _, zero_flow) s;
      Ok (true, s)
  end.

(** The Ethernet header: VLAN id -1, both MAC addresses, and the ethertype. *)
Definition parse_ethernet (buf : buffer) (s : fstate) : res (Z * fstate) :=
  s ← set_aux (with_vlan (u16 (-1))) s;
  a ← sload (sessions s) (aux_session s);
  dst ← memcpy_mac buf 0 (destination_mac (incoming a));
  src ← memcpy_mac buf ETH_ALEN (source_mac (incoming a));
  s ← set_aux (with_macs dst src) s;
  e ← load16 buf (2 * ETH_ALEN);
  Ok (ntohs e, s).

Definition parsePacket (buf : buffer) (h : pkthdr) (s : fstate) : res fstate :=
  '(found, s) ← obtain_session s;
  if negb found then Ok (drop_packet s)
  else
    '(e, s) ← parse_ethernet buf s;
    parse_loop (S (Z.to_nat (caplen h))) buf h (2 * ETH_ALEN) e 0 0 s.
