(* ===== verification/Monitor.v ===== *)
(** * dp.c: the process thread's handler and the shutdown

    [process_packet] with [initData] and [perSecOps], and [reset_flow_table],
    over the clock variables of dp.c. *)

From S2P Require Import Prelude Log NodeList Rings FlowData Pools NodePool SessionPool FlowTable Packet.
From stdpp Require Import pretty.
#[local] Open Scope Z_scope.

Record dpstate := DpState {
  flows : fstate;
  previous : Z;           (** uint64_t, seconds *)
  previous2 : Z;          (** uint64_t, seconds *)
  current : Z;            (** uint64_t, seconds *)
  currentMs : Z;          (** uint64_t *)
  previousMs : Z;         (** uint64_t *)
  previous_update : Z;    (** uint64_t *)
  node_sec_counter : Z    (** uint8_t *)
}.

Definition with_flows (f : fstate) (d : dpstate) : dpstate :=
  DpState f (previous d) (previous2 d) (current d) (currentMs d) (previousMs d)
    (previous_update d) (node_sec_counter d).
Definition with_clock (p p2 : Z) (d : dpstate) : dpstate :=
  DpState (flows d) p p2 (current d) (currentMs d) (previousMs d)
    (previous_update d) (node_sec_counter d).
Definition with_current (c ms : Z) (d : dpstate) : dpstate :=
  DpState (flows d) (previous d) (previous2 d) c ms (previousMs d)
    (previous_update d) (node_sec_counter d).
Definition with_counter (n : Z) (d : dpstate) : dpstate :=
  DpState (flows d) (previous d) (previous2 d) (current d) (currentMs d) (previousMs d)
    (previous_update d) n.

(** The message of the node counter line of [perSecOps]. *)
Definition flow_counter_text (s : fstate) : string :=
  "FLOW COUNTER - FREE: " +:+ pretty (free_session (ip_session s)) +:+
  " USED: " +:+ pretty (used_session (ip_session s)) +:+
  " NODE COUNTER - FREE: " +:+ pretty (free_nodes (nodel s)) +:+
  " USED: " +:+ pretty (u64 (total_nodes (nodel s) - free_nodes (nodel s))) +:+
  " UNPROCESSED PACKETS: " +:+ pretty (unprocessed_packets s) +:+
  " UNPROCESSED FLOWS: " +:+ pretty (unprocessed_flows s).

Definition perSecOps (d : dpstate) : res dpstate :=
  let d := with_counter (u8 (node_sec_counter d + 1)) d in
  d ← (if 10 <=? node_sec_counter d then
         lg ← logInfoVar (log (flows d)) (flow_counter_text (flows d));
         Ok (with_counter 0 (with_flows (with_log lg (flows d)) d))
       else Ok d);
  s ← cleanup_flows (flows d);
  let d := with_flows s d in
  let d := with_clock (previous d) (previous d) d in
  Ok (with_clock (current d) (previous2 d) d).

(** The first packet: empty lists, an empty table, no session in hand. *)
Definition initData (d : dpstate) : dpstate :=
  let d := with_clock (previous d) (previous d) d in
  let d := with_clock (current d) (previous2 d) d in
  let s := with_aux None (with_table ∅ (with_heads None None None (flows d))) in
  DpState s (previous d) (previous2 d) (current d) (currentMs d) (currentMs d)
    (current d) (node_sec_counter d).

Definition packet_time (h : pkthdr) : Z := u64 (u64 (ts_sec h) * US_IN_SEC + ts_usec h).

(** The clock: a second has passed, the same second, or the clock went back. *)
Definition clock_step (d : dpstate) : res dpstate :=
  if previous d <? current d then perSecOps d
  else if previous d =? current d then Ok (with_clock (current d) (previous2 d) d)
  else if previous2 d <? current d then Ok (with_clock (previous2 d) (previous2 d) d)
  else Ok d.

Definition process_packet (buf : buffer) (h : pkthdr) (d : dpstate) : res dpstate :=
  let now := packet_time h in
  let d := with_flows (with_time now (flows d)) d in
  let d := with_current (now / US_IN_SEC) (now / MS_IN_SEC) d in
  let d := if previous d =? 0 then initData d else d in
  d ← clock_step d;
  if ETH_HLEN <=? caplen h then
    s ← parsePacket buf h (flows d);
    Ok (with_flows s d)
  else Ok d.

(** [reset_flow_table]: [infinity] is the value the conversion of the
    floating-point INFINITY to [uint64_t] gives, which C leaves undefined. *)
Definition reset_flow_table (infinity : Z) (s : fstate) : res fstate :=
  cleanup_flows (with_time (u64 infinity) s).
