(* ===== verification/ProcessInv.v ===== *)
(** * The invariant of the process thread

    [proc_inv M s g hs]: the flow table is in order, pools of [2*M] nodes and
    [M] sessions are all accounted for, [aux_session] is the session in hand and
    [hs] are those the export thread holds.  Every operation of the process
    thread keeps it; with it, [insertFlow] never runs out of nodes. *)

From S2P Require Import Prelude Log NodeList Rings FlowData Pools NodePool SessionPool.
From S2P Require Import FlowCore FlowTable FlowInv FlowInsert FlowExpire Packet.

Record proc_inv (M : nat) (s : fstate) (g : ghost) (hs : list loc) : Prop := {
  pi_inv : flow_inv s g;
  pi_flags : g_flags g = [];
  pi_held : g_helds g = option_list (aux_session s) ++ hs;
  pi_heldn : (length (g_heldn g) ≤ 1)%nat;
  pi_nodes : (length (g_nodes g) + 2 * length (g_live g) + length (g_dead g)
              + length (g_heldn g) = 2 * M)%nat;
  pi_sess : (length (g_sess g) + length (g_live g) + length (g_dead g)
             + length (g_helds g) = M)%nat;
  pi_left : g_sess g ≠ [];
  pi_clean : ∀ x, x ∈ g_sess g → flow_at (sessions s) x = zero_flow;
  pi_log : log_ok (log s)
}.

(** With a session in hand three nodes are free, so a flow can always be entered. *)
Lemma proc_inv_room M s g hs x :
  proc_inv M s g hs → aux_session s = Some x → (3 ≤ length (g_nodes g))%nat.
Proof.
  intros [_ _ Hh Hn H1 H2 Hl _ _] Hx. rewrite Hx in Hh. rewrite Hh in H2.
  rewrite length_app in H2. cbn in H2.
  assert (0 < length (g_sess g))%nat by (destruct (g_sess g); [done|cbn; lia]). lia.
Qed.

Lemma proc_inv_aux M s g hs x :
  proc_inv M s g hs → aux_session s = Some x → is_Some (sessions s !! x) ∧ x ∈ g_helds g.
Proof.
  intros H Hx. assert (x ∈ g_helds g) as Hin.
  { rewrite (pi_held _ _ _ _ H), Hx. left. }
  split; [|done]. apply (fi_alloc _ _ (pi_inv _ _ _ _ H)). unfold all_sessions.
  rewrite elem_of_app. by left.
Qed.

(** ** Lengths of the abstract cache *)

Lemma extract_perm {A} (P : A → bool) l x r : extract P l = Some (x, r) → l ≡ₚ x :: r.
Proof.
  revert r. induction l as [|y l IH]; intros r; [done|]. simpl. destruct (P y); [by intros [= -> ->]|].
  destruct (extract P l) as [[z r']|]; [|done]. intros [= -> <-].
  rewrite (IH r' eq_refl). apply perm_swap.
Qed.

Lemma cache_insert_length now f c :
  let '(fresh, c') := cache_insert now f c in
  length (c_live c') = ((if fresh : bool then 1 else 0) + length (c_live c))%nat ∧ c_dead c' = c_dead c.
Proof.
  unfold cache_insert. destruct (extract _ _) as [[e r]|] eqn:He; [|done].
  destruct (aged _ _); [done|]. apply extract_perm, Permutation_length in He. by rewrite He.
Qed.

Lemma cache_of_live s g : length (c_live (cache_of s g)) = length (g_live g).
Proof. apply length_fmap. Qed.
Lemma cache_of_dead s g : length (c_dead (cache_of s g)) = length (g_dead g).
Proof. apply length_fmap. Qed.

Lemma cache_of_no_dead s g : g_dead g = [] → c_dead (cache_of s g) = [].
Proof. intros H. unfold cache_of. cbn. by rewrite H. Qed.
Lemma cache_of_no_live s g : c_live (cache_of s g) = [] → g_live g = [].
Proof. unfold cache_of. cbn. apply fmap_nil_inv. Qed.

(** ** Writes to the session in hand *)

Lemma proc_inv_write_held M s g hs x v :
  proc_inv M s g hs → x ∈ g_helds g →
  let s' := with_sessions (<[x := v]> (sessions s)) s in
  proc_inv M s' g hs ∧ cache_of s' g = cache_of s g.
Proof.
  intros H Hin s'. pose proof (pi_inv _ _ _ _ H) as Hinv.
  assert (∀ y, y ∈ flow_sessions g → sessions s' !! y = sessions s !! y) as Hss.
  { intros y Hy. cbn. apply lookup_insert_ne. intros ->. by apply (held_not_flow s g y Hinv). }
  split; [|by apply cache_of_sessions].
  assert (flow_inv s' g) as Hinv'.
  { replace g with (with_pools (g_rings g) (g_nodes g) (g_sess g) (g_heldn g) (g_helds g) g)
      by (by destruct g).
    eapply (flow_inv_pools s g s'); try done.
    - apply (fi_core s g Hinv).
    - apply (fi_held s g Hinv).
    - by apply (flow_inv_nodup s g).
    - intros y Hy. cbn. apply lookup_insert_is_Some'. right. by apply (fi_alloc s g Hinv). }
  destruct H. split; try done. intros y Hy. unfold flow_at.
  cbn. rewrite session_at_insert_ne; [by apply pi_clean0|].
  intros ->. by apply (held_not_free s g Hinv y).
Qed.

Lemma proc_inv_write M s g hs x v :
  proc_inv M s g hs → aux_session s = Some x →
  let s' := with_sessions (<[x := v]> (sessions s)) s in
  proc_inv M s' g hs ∧ cache_of s' g = cache_of s g.
Proof. intros H Hx. by apply proc_inv_write_held, (proc_inv_aux M s g hs x H Hx). Qed.

Lemma set_session_ok s x se f :
  aux_session s = Some x → sessions s !! x = Some se →
  set_session f s = Ok (with_sessions (<[x := f se]> (sessions s)) s).
Proof. intros Hx Hse. unfold set_session. rewrite Hx. by rewrite (sstore_Some _ _ _ _ Hse). Qed.

(** The sessions of the export thread are not the one in hand. *)
Lemma proc_inv_other M s g hs x v :
  proc_inv M s g hs → aux_session s = Some x →
  ∀ y, y ∈ hs → <[x := v]> (sessions s) !! y = sessions s !! y.
Proof.
  intros H Hx y Hy. apply lookup_insert_ne. intros ->.
  pose proof (flow_inv_nodup s g (pi_inv _ _ _ _ H)) as Hnd.
  rewrite (pi_held _ _ _ _ H), Hx in Hnd. apply NoDup_cons in Hnd as [Hnd _].
  apply Hnd, elem_of_app. by left.
Qed.

(** A change of the fields the invariant does not look at. *)
Lemma proc_inv_fields M s g hs t uf up mf :
  proc_inv M s g hs →
  proc_inv M (with_time t (with_drops uf up mf s)) g hs ∧
  cache_of (with_time t (with_drops uf up mf s)) g = cache_of s g.
Proof. intros [[] ? ? ? ? ? ? ? ?]. split; [|done]. by split. Qed.

(** ** insertFlow in the running monitor *)

Lemma insert_aux_spec M s g hs x se :
  proc_inv M s g hs → aux_session s = Some x → sessions s !! x = Some se →
  let '(fresh, c) := cache_insert (last_packet_timestamp s) (incoming se) (cache_of s g) in
  ∃ s' g', insert_aux s = Ok s' ∧ proc_inv M s' g' hs ∧ cache_of s' g' = c ∧
    aux_session s' = (if fresh then None else Some x) ∧
    unprocessed_flows s' = unprocessed_flows s ∧
    unprocessed_packets s' = unprocessed_packets s ∧
    count_pckts_malformed s' = count_pckts_malformed s ∧
    last_packet_timestamp s' = last_packet_timestamp s ∧ g_heldn g' = g_heldn g ∧
    (∀ y, y ∈ hs → sessions s' !! y = sessions s !! y).
Proof.
  intros H Hx Hse. pose proof (proc_inv_room M s g hs x H Hx) as Hroom.
  pose proof (pi_held _ _ _ _ H) as Hh. rewrite Hx in Hh.
  pose proof (insertFlow_spec s g x hs se (pi_log _ _ _ _ H) (pi_inv _ _ _ _ H) Hh Hse ltac:(lia)) as Hspec.
  pose proof (cache_insert_length (last_packet_timestamp s) (incoming se) (cache_of s g)) as Hlen.
  destruct (cache_insert _ _ _) as [fresh c].
  destruct Hspec as (r & s' & g' & E & Hinv & (Q1 & Q2 & Q3 & Q4) & (R1 & _ & R3 & R4 & R5 & R6) & R2 & Hss & Hb).
  rewrite decide_True in Hb by done. specialize (R2 ltac:(done)).
  unfold insert_aux. rewrite Hx, E. simpl. exists (with_aux r s'), g'.
  assert (cache_of s' g' = c ∧ unprocessed_flows s' = unprocessed_flows s ∧
          r = (if fresh then None else Some x) ∧ g_helds g' = option_list r ++ hs ∧
          (length (g_nodes g') + (if fresh then 2 else 0) = length (g_nodes g))%nat) as (C1 & C2 & C3 & C4 & C5).
  { destruct fresh; destruct Hb as (-> & B2 & B3 & B4 & B5); split_and!; try done; [by rewrite B3|].
    rewrite B4. lia. }
  rewrite cache_of_live in Hlen. destruct Hlen as [L1 L2].
  assert (length (c_live c) = length (g_live g')) as L3 by (rewrite <-C1; apply cache_of_live).
  split; [done|]. split_and!; try done; [|intros y Hy; apply Hss, elem_of_app; by left].
  destruct H. split; cbn.
  - destruct Hinv. by split.
  - by rewrite Q3.
  - done.
  - by rewrite Q1.
  - rewrite Q4, Q1. destruct fresh; lia.
  - rewrite Q2, Q4, C4. rewrite Hh in pi_sess0. subst r.
    rewrite !length_app in *. destruct fresh; cbn in *; lia.
  - by rewrite Q2.
  - intros y. rewrite Q2. intros Hy. unfold flow_at, session_at. rewrite Hss by (apply elem_of_app; by right). by apply pi_clean0.
  - by rewrite R2.
Qed.

(** ** cleanup_flows in the running monitor *)

Lemma proc_cleanup M s g hs :
  proc_inv M s g hs →
  ∃ s' g', cleanup_flows s = Ok s' ∧ proc_inv M s' g' hs ∧
    cache_of s' g' = cache_cleanup (last_packet_timestamp s) (cache_of s g) ∧
    aux_session s' = aux_session s ∧
    unprocessed_flows s' = unprocessed_flows s ∧
    unprocessed_packets s' = unprocessed_packets s ∧
    count_pckts_malformed s' = count_pckts_malformed s ∧
    last_packet_timestamp s' = last_packet_timestamp s ∧ g_heldn g' = g_heldn g ∧
    sessions s' = sessions s.
Proof.
  intros H. destruct (cleanup_flows_spec s g (pi_inv _ _ _ _ H) (pi_flags _ _ _ _ H)) as
    (s' & g' & out & E & Hinv & Hf & Hl & Ht & Hd & Hn & Hs).
  pose proof Hs as (S1 & (S2 & S3 & S4 & S5 & S6 & S7) & S8 & S9 & S10 & S11).
  exists s', g'. split_and!; try done; [|by eapply cleanup_cache].
  assert (length (g_live g) = (length (g_live g') + length out)%nat) as L1 by (by rewrite Hl, length_app).
  assert (length (g_dead g') = (length (g_dead g) + length out)%nat) as L2.
  { by rewrite Hd, length_app, length_rev, length_fmap. }
  destruct H. split; try done.
  - by rewrite S9, S4.
  - by rewrite S10.
  - rewrite S10. lia.
  - rewrite S11, S9. lia.
  - by rewrite S11.
  - intros x. rewrite S11, S1. apply pi_clean0.
  - by rewrite S3.
Qed.

(** ** A session from the pool *)

#[local] Arguments take_session : simpl never.

Lemma take_session_inv s g x y avs :
  flow_inv s g → g_sess g = x :: y :: avs →
  ∃ h' q' g', take_session (nodes s) (ip_session s) = Ok (Some (Some x), h', q') ∧
    flow_inv (with_aux (Some x) (with_pool h' (sessions s) q' (log s) s)) g' ∧
    g_helds g' = x :: g_helds g ∧ g_sess g' = y :: avs ∧ g_nodes g' = g_nodes g ∧
    g_heldn g' = g_heldn g ∧ g_flags g' = g_flags g ∧ g_live g' = g_live g ∧ g_dead g' = g_dead g.
Proof.
  intros Hinv Hg. pose proof (fi_core s g Hinv) as Hc. rewrite Hg in Hc.
  pose proof (flow_inv_nodup s g Hinv) as Hnd. pose proof (fi_alloc s g Hinv) as Hal.
  unfold all_sessions in Hal. fold (flow_sessions g) in Hal. rewrite Hg in Hnd, Hal.
  destruct (core_take_session _ _ _ _ _ _ _ _ _ Hc) as (h' & q' & σ' & E & Hc' & Hd & Hσ & Hlen).
  exists h', q', (with_pools σ' (g_nodes g) (y :: avs) (g_heldn g) (x :: g_helds g) g).
  split; [done|]. split; [|done].
  eapply (flow_inv_pools s g); try done.
  - intros d Hdd. cbn. rewrite Hd. by apply (fi_held s g Hinv).
  - eapply changes_only_weaken, Hσ. unfold pool_rings. set_solver.
  - eapply NoDup_Permutation_proper, Hnd. solve_Permutation.
  - intros z Hz. apply Hal. set_solver.
  - rewrite (Hσ NodelUsed) by set_solver. done.
  - rewrite Hlen. cbn. lia.
Qed.

(** ** The head of parsePacket *)

Lemma obtain_session_spec M s g hs :
  proc_inv M s g hs →
  ∃ found s' g', obtain_session s = Ok (found, s') ∧ proc_inv M s' g' hs ∧
    cache_of s' g' = cache_of s g ∧ g_heldn g' = g_heldn g ∧
    (∀ y, y ∈ hs → sessions s' !! y = sessions s !! y) ∧
    last_packet_timestamp s' = last_packet_timestamp s ∧
    unprocessed_flows s' = unprocessed_flows s ∧ unprocessed_packets s' = unprocessed_packets s ∧
    count_pckts_malformed s' = count_pckts_malformed s ∧
    if found : bool
    then ∃ x se, aux_session s' = Some x ∧ sessions s' !! x = Some se ∧ incoming se = zero_flow
    else aux_session s' = None ∧ length (g_sess g) = 1%nat.
Proof.
  intros H. pose proof (pi_inv _ _ _ _ H) as Hinv. unfold obtain_session.
  destruct (aux_session s) as [x|] eqn:Hx.
  - destruct (proc_inv_aux M s g hs x H Hx) as [[se Hse] _].
    unfold set_aux. rewrite (set_session_ok s x se _ Hx Hse). simpl.
    destruct (proc_inv_write M s g hs x (with_incoming zero_flow se) H Hx) as [H' Hc].
    eexists true, _, g. split_and!; try done; [by apply (proc_inv_other M s g hs x)|]. exists x, (with_incoming zero_flow se).
    split_and!; [done|apply lookup_insert_eq|done].
  - pose proof (pi_held _ _ _ _ H) as Hh. rewrite Hx in Hh. simpl in Hh.
    pose proof (fi_core s g Hinv) as Hc. pose proof (pi_left _ _ _ _ H) as Hl.
    pose proof (pi_sess _ _ _ _ H) as Hsz. pose proof (pi_clean _ _ _ _ H) as Hcl.
    pose proof (flow_inv_nodup s g Hinv) as Hnd. pose proof (fi_alloc s g Hinv) as Hal.
    unfold all_sessions in Hal. fold (flow_sessions g) in Hal.
    unfold getIPSession. destruct (g_sess g) as [|x [|y avs]] eqn:Hg; [done| |].
    + destruct (core_take_session_last _ _ _ _ _ _ _ Hc) as (h' & q' & E & Hc' & Hd). rewrite E. simpl.
      destruct (logErrorCount_ok (log s) "Pool de flujos vacío" MEMORY_ERROR (pi_log _ _ _ _ H))
        as (lg' & El & Hok & _ & _); [by vm_compute|]. rewrite El. simpl.
      set (g' := with_pools (g_rings g) (g_nodes g) [x] (g_heldn g) (g_helds g) g).
      eexists false, _, g'. split; [reflexivity|].
      assert (flow_inv (with_aux None (with_pool h' (sessions s) q' lg' s)) g') as Hinv'.
      { eapply (flow_inv_pools s g); try done; [].
        intros d Hdd. cbn. rewrite Hd. by apply (fi_held s g Hinv). }
      split_and!; try done; []. destruct H. split; try done; cbn; rewrite ?Hh; try done.
    + destruct (take_session_inv s g x y avs Hinv Hg) as
        (h' & q' & g' & E & Hinv' & A1 & A2 & A3 & A4 & A5 & A6 & A7).
      rewrite E. simpl. eexists true, _, g'. split; [reflexivity|].
      destruct (Hal x) as [se Hse]; [rewrite Hh; set_solver|].
      split_and!; try done.
      * destruct H. split; try done; cbn; rewrite ?A1, ?A2, ?A3, ?A4, ?A5, ?A6, ?A7, ?Hh; try done.
        -- rewrite Hh in Hsz. cbn in Hsz. cbn. lia.
        -- intros z Hz. apply Hcl. by right.
      * unfold cache_of. by rewrite A6, A7.
      * exists x, se. split_and!; [done|done|]. rewrite <-(Hcl x) by left.
        unfold flow_at. by rewrite (session_at_Some _ _ _ Hse).
Qed.
