(* ===== verification/CacheLaws.v ===== *)
(** * Laws of the abstract flow cache

    With a clock that does not go back, the live list stays sorted by last use,
    so the expiry takes exactly the aged flows; and no two young flows ever
    carry the same tuple. *)

From S2P Require Import Prelude Log NodeList Rings FlowData Pools NodePool SessionPool.
From S2P Require Import FlowCore FlowTable FlowInv ProcessInv.
From Stdlib Require Import Sorting.Sorted.
From stdpp Require Import sorting.
#[local] Open Scope Z_scope.

(** The flows of a cache. *)
Definition cache_flows (c : cache) : list aflow := c_dead c ++ c_live c.

(** Most recently used first, nothing from the future. *)
Definition recent (now : Z) (l : list aflow) : Prop :=
  StronglySorted (λ a b, af_last b ≤ af_last a) l ∧
  Forall (λ e, 0 ≤ af_last e ≤ now) l ∧ now < 2 ^ 64.

(** The youngest flow of a tuple is the only young one. *)
Definition unique_young (now : Z) (l : list aflow) : Prop :=
  ∀ l1 e l2 d, l = l1 ++ e :: l2 → d ∈ l2 → flow_tuple (af_flow d) = flow_tuple (af_flow e) →
    aged now (af_last d) = true.

Lemma aged_recent now last : 0 ≤ last ≤ now → now < 2 ^ 64 →
  aged now last = (EXPIRATION_FLOW_TIME <? now - last).
Proof. intros H Hn. unfold aged. by rewrite u64_small by lia. Qed.

Lemma aged_mono now last last' :
  0 ≤ last' ≤ last → last ≤ now → now < 2 ^ 64 → aged now last = true → aged now last' = true.
Proof. intros H1 H2 Hn. rewrite !aged_recent by lia. rewrite !Z.ltb_lt. lia. Qed.

Lemma aged_later now now' last :
  0 ≤ last ≤ now → now ≤ now' → now' < 2 ^ 64 → aged now last = true → aged now' last = true.
Proof. intros H1 H2 Hn. rewrite !aged_recent by lia. rewrite !Z.ltb_lt. lia. Qed.

Lemma recent_later now now' l : recent now l → now ≤ now' → now' < 2 ^ 64 → recent now' l.
Proof.
  intros (S & F & _) Hle Hn. split_and!; [done| |done].
  eapply Forall_impl; [exact F|]. intros e He. cbn in *. lia.
Qed.

Lemma recent_cons now e l :
  recent now (e :: l) ↔ (∀ d, d ∈ l → af_last d ≤ af_last e) ∧ 0 ≤ af_last e ≤ now ∧ recent now l.
Proof.
  unfold recent. rewrite StronglySorted_cons, Forall_cons, Forall_forall. tauto.
Qed.

(** ** Expiry *)

Lemma split_aged_recent now l :
  recent now l →
  split_aged now l = (filter (λ e, aged now (af_last e) = false) l,
                      filter (λ e, aged now (af_last e) = true) l).
Proof.
  induction l as [|e l IH]; [done|]. intros (H1 & H2 & Hr)%recent_cons. cbn [split_aged].
  rewrite (IH Hr), !filter_cons. pose proof Hr as (_ & Hf & Hn). rewrite Forall_forall in Hf.
  destruct (aged now (af_last e)) eqn:He.
  - assert (filter (λ e, aged now (af_last e) = false) l = []) as ->.
    { destruct (filter _ l) as [|d r] eqn:Hd; [done|].
      assert (d ∈ d :: r) as Hin by left. rewrite <-Hd in Hin.
      apply list_elem_of_filter in Hin as [Hag Hin].
      rewrite (aged_mono now (af_last e)) in Hag; [done| |lia|done|done].
      specialize (H1 d Hin). specialize (Hf d Hin). cbn in Hf. lia. }
    by rewrite decide_False, decide_True by done.
  - rewrite decide_True, decide_False by done. by destruct (filter _ l).
Qed.

Lemma cleanup_recent now c :
  recent now (c_live c) →
  cache_cleanup now c =
    Cache (filter (λ e, aged now (af_last e) = false) (c_live c))
      (c_dead c ++ rev (filter (λ e, aged now (af_last e) = true) (c_live c))).
Proof. intros H. unfold cache_cleanup. by rewrite split_aged_recent. Qed.

Lemma Forall_sub {A} (P : A → Prop) l l' : l' `sublist_of` l → Forall P l → Forall P l'.
Proof.
  intros Hs. rewrite !Forall_forall. intros H x Hx. apply H. by eapply sublist_subseteq.
Qed.

Lemma recent_sublist now l l' : l' `sublist_of` l → recent now l → recent now l'.
Proof.
  intros Hs (S & F & Hn). split_and!; [|by eapply Forall_sub|done].
  clear F Hn. revert S. induction Hs as [|x l1 l2 Hs IH|x l1 l2 Hs IH]; [done| |]; intros S.
  - apply StronglySorted_cons in S as [Hx S]. apply StronglySorted_cons. split; [|auto].
    by eapply Forall_sub.
  - apply StronglySorted_cons in S as [_ S]. auto.
Qed.

(** ** Insertion *)

Lemma extract_split {A} (P : A → bool) l x r :
  extract P l = Some (x, r) →
  ∃ l1 l2, l = l1 ++ x :: l2 ∧ r = l1 ++ l2 ∧ P x = true ∧ Forall (λ y, P y = false) l1.
Proof.
  revert r. induction l as [|y l IH]; intros r; [done|]. simpl. destruct (P y) eqn:Hy.
  - intros [= -> ->]. by exists [], r.
  - destruct (extract P l) as [[z r']|]; [|done]. intros [= -> <-].
    destruct (IH r' eq_refl) as (l1 & l2 & -> & -> & Hx & Hf). exists (y :: l1), l2.
    split_and!; [done|done|done|by constructor].
Qed.

Lemma insert_recent t now f c :
  recent t (c_live c) → 0 ≤ t → t ≤ now → now < 2 ^ 64 →
  recent now (c_live (snd (cache_insert now f c))).
Proof.
  intros H H0 Hle Hn. assert (recent now (c_live c)) as Hr by (by eapply recent_later).
  assert (∀ e l, af_last e = now → recent now l → recent now (e :: l)) as Hfront.
  { intros e l He Hl. apply recent_cons. split_and!; [|lia|lia|done].
    intros d Hd. destruct Hl as (_ & F & _). rewrite Forall_forall in F.
    specialize (F d Hd). cbn in F. lia. }
  unfold cache_insert. destruct (extract _ _) as [[e r]|] eqn:He.
  - destruct (aged _ _); cbn; apply Hfront; try done.
    apply extract_split in He as (l1 & l2 & Hl & -> & _). eapply recent_sublist, Hr. rewrite Hl.
    apply sublist_app; [done|]. by apply sublist_cons.
  - cbn. by apply Hfront.
Qed.

Lemma unique_young_later now now' l :
  recent now l → now ≤ now' → now' < 2 ^ 64 → unique_young now l → unique_young now' l.
Proof.
  intros (_ & F & _) Hle Hn Hu l1 e l2 d Hl Hd Ht. rewrite Forall_forall in F.
  eapply (aged_later now); [|done|done|by eapply Hu].
  specialize (F d). cbn in F. apply F. rewrite Hl. set_solver.
Qed.

Lemma unique_young_cons now e l :
  unique_young now l →
  (∀ d, d ∈ l → flow_tuple (af_flow d) = flow_tuple (af_flow e) → aged now (af_last d) = true) →
  unique_young now (e :: l).
Proof.
  intros Hu He l1 a l2 d Hl Hd Ht. destruct l1 as [|b l1]; cbn in Hl; injection Hl as -> ->;
    [by eapply He|by eapply Hu].
Qed.

Lemma unique_young_remove now l1 e l2 : unique_young now (l1 ++ e :: l2) → unique_young now (l1 ++ l2).
Proof.
  intros Hu k1 a k2 d Hk Hd Ht.
  apply app_eq_inv in Hk as [(k & -> & Hk)|(k & -> & Hk)].
  - destruct k as [|b k]; cbn in Hk.
    + subst l2. rewrite app_nil_r in Hu. apply (Hu (k1 ++ [e]) a k2 d); [by rewrite <-app_assoc|done|done].
    + injection Hk as -> ->. apply (Hu k1 b (k ++ e :: l2) d); [by rewrite <-app_assoc|set_solver|done].
  - apply (Hu (l1 ++ e :: k) a k2 d); [|done|done]. by rewrite Hk, <-app_assoc.
Qed.

Lemma insert_unique t now f c :
  recent t (c_live c) → unique_young t (c_live c) → 0 ≤ t → t ≤ now → now < 2 ^ 64 →
  unique_young now (c_live (snd (cache_insert now f c))).
Proof.
  intros H Hu H0 Hle Hn. assert (recent now (c_live c)) as Hr by (by eapply recent_later).
  assert (unique_young now (c_live c)) as Hu' by (by apply (unique_young_later t now)).
  unfold cache_insert. destruct (extract _ _) as [[e r]|] eqn:He.
  - apply extract_split in He as (l1 & l2 & Hl & -> & Hx & Hf). apply same_tuple_true in Hx.
    assert (∀ d, d ∈ l2 → flow_tuple (af_flow d) = flow_tuple (af_flow e) → aged now (af_last d) = true)
      as Hl2 by (intros d Hd Ht; by eapply Hu').
    assert (∀ d, d ∈ l1 → flow_tuple (af_flow d) ≠ flow_tuple f) as Hl1.
    { intros d Hd. rewrite Forall_forall in Hf. by apply same_tuple_false, Hf. }
    destruct (aged now (af_last e)) eqn:Ha; cbn; apply unique_young_cons.
    + done.
    + cbn. intros d Hd Ht. rewrite Hl in Hd. apply elem_of_app in Hd as [Hd|Hd].
      { by destruct (Hl1 d Hd). }
      apply elem_of_cons in Hd as [->|Hd]; [done|]. apply Hl2; [done|]. by rewrite Ht, Hx.
    + apply (unique_young_remove now l1 e l2). by rewrite <-Hl.
    + cbn. intros d Hd Ht. rewrite with_counters_tuple in Ht.
      apply elem_of_app in Hd as [Hd|Hd]; [|by apply Hl2].
      destruct (Hl1 d Hd). by rewrite Ht, Hx.
  - cbn. apply unique_young_cons; [done|]. cbn. intros d Hd Ht.
    apply extract_None in He. rewrite Forall_forall in He.
    specialize (He d Hd). apply same_tuple_false in He. done.
Qed.

(** ** Both together *)

Lemma split_aged_perm now l : let '(keep, out) := split_aged now l in l = keep ++ out.
Proof.
  induction l as [|e l IH]; [done|]. cbn. destruct (split_aged now l) as [keep out].
  subst l. destruct keep; [by destruct (aged _ _)|done].
Qed.

Definition orderly (now : Z) (l : list aflow) : Prop := recent now l ∧ unique_young now l.

Lemma orderly_nil now : now < 2 ^ 64 → orderly now [].
Proof.
  intros Hn. split; [by repeat constructor|]. intros l1 e l2 d Hl. by apply app_cons_not_nil in Hl.
Qed.

Lemma orderly_later now now' l :
  orderly now l → now ≤ now' → now' < 2 ^ 64 → orderly now' l.
Proof. intros [H U] Hle Hn. split; [by eapply recent_later|by eapply unique_young_later]. Qed.

Lemma orderly_cleanup now c : orderly now (c_live c) → orderly now (c_live (cache_cleanup now c)).
Proof.
  intros [H U]. unfold cache_cleanup. pose proof (split_aged_perm now (c_live c)) as Hs.
  destruct (split_aged _ _) as [keep out]. cbn in *. split.
  - eapply recent_sublist, H. rewrite Hs. by apply sublist_inserts_r.
  - intros l1 e l2 d Hl Hd Ht. apply (U l1 e (l2 ++ out) d); [|set_solver|done].
    by rewrite Hs, Hl, <-app_assoc.
Qed.

Lemma orderly_insert t now f c :
  orderly t (c_live c) → 0 ≤ t → t ≤ now → now < 2 ^ 64 →
  orderly now (c_live (snd (cache_insert now f c))).
Proof. intros [H U] H0 Hle Hn. split; [by eapply insert_recent|by eapply insert_unique]. Qed.

(** A time after which every live flow has aged empties the live list. *)
Lemma cleanup_all now c :
  Forall (λ e, aged now (af_last e) = true) (c_live c) →
  cache_cleanup now c = Cache [] (c_dead c ++ rev (c_live c)).
Proof.
  intros H. unfold cache_cleanup. assert (split_aged now (c_live c) = ([], c_live c)) as ->; [|done].
  induction H as [|e l He _ IH]; [done|]. cbn. by rewrite IH, He.
Qed.

Lemma orderly_all_aged now inf l :
  orderly now l → 0 ≤ now → now + EXPIRATION_FLOW_TIME < inf → inf < 2 ^ 64 →
  Forall (λ e, aged inf (af_last e) = true) l.
Proof.
  intros [(_ & F & _) _] H0 Hlt Hinf. eapply Forall_impl; [exact F|]. intros e He. cbn in He.
  unfold EXPIRATION_FLOW_TIME in *. rewrite aged_recent by lia. apply Z.ltb_lt.
  unfold EXPIRATION_FLOW_TIME. lia.
Qed.

Lemma cache_cleanup_live now c :
  (length (c_live (cache_cleanup now c)) ≤ length (c_live c))%nat.
Proof.
  unfold cache_cleanup. pose proof (split_aged_perm now (c_live c)) as H.
  destruct (split_aged _ _). cbn. rewrite H, length_app. lia.
Qed.

Lemma list_filter_iff' {A} (P Q : A → Prop) `{!∀ x, Decision (P x), !∀ x, Decision (Q x)} l :
  Forall (λ x, P x ↔ Q x) l → filter P l = filter Q l.
Proof.
  induction 1 as [|x l Hx _ IH]; [done|]. rewrite !filter_cons. rewrite IH.
  by destruct (decide (P x)), (decide (Q x)); naive_solver.
Qed.

Lemma StronglySorted_filter {A} (R : A → A → Prop) (P : A → Prop) `{!∀ x, Decision (P x)} l :
  StronglySorted R l → StronglySorted R (filter P l).
Proof.
  induction 1 as [|x l Hs IH Hx]; [constructor|]. rewrite filter_cons. case_decide; [|done].
  constructor; [done|]. eapply Forall_sub, Hx. apply sublist_filter.
Qed.

Lemma StronglySorted_rev {A} (R : A → A → Prop) l :
  StronglySorted (flip R) l → StronglySorted R (rev l).
Proof.
  induction 1 as [|x l Hs IH Hx]; [constructor|]. cbn. apply StronglySorted_app_2; [|done|by repeat constructor].
  intros a b Ha ->%list_elem_of_singleton. rewrite Forall_forall in Hx. apply Hx.
  by rewrite <-Permutation_rev in Ha.
Qed.

Lemma unique_young_lookup now l :
  unique_young now l →
  ∀ i j a b, l !! i = Some a → l !! j = Some b → flow_tuple (af_flow a) = flow_tuple (af_flow b) →
    aged now (af_last a) = false → aged now (af_last b) = false → i = j.
Proof.
  intros Hu. assert (∀ i j a b, (i < j)%nat → l !! i = Some a → l !! j = Some b →
    flow_tuple (af_flow a) = flow_tuple (af_flow b) → aged now (af_last b) = true) as Hlt.
  { intros i j a b Hij Hi Hj Ht. eapply (Hu (take i l) a (drop (S i) l) b); [by rewrite take_drop_middle| |done].
    apply list_elem_of_lookup. exists (j - S i)%nat. rewrite lookup_drop. rewrite <-Hj. f_equal. lia. }
  intros i j a b Hi Hj Ht Ha Hb. destruct (Nat.lt_total i j) as [H|[H|H]]; [|done|].
  - pose proof (Hlt i j a b H Hi Hj Ht). congruence.
  - pose proof (Hlt j i b a H Hj Hi (eq_sym Ht)). congruence.
Qed.
