(* ===== verification/PacketSpec.v ===== *)
(** * What parsing a packet does, for every buffer

    With at least twelve readable bytes behind the captured length, parsing a
    packet never faults: it ends by ignoring the packet, by counting it as
    malformed or by handing one flow of one packet to [insertFlow]. *)

From S2P Require Import Prelude Log NodeList Rings FlowData Pools NodePool SessionPool.
From S2P Require Import FlowCore FlowTable FlowInv FlowInsert FlowExpire Packet ProcessInv.

(** ** The session in hand, written as a whole *)

Definition hold (x : loc) (se : IPSession) (s : fstate) : fstate :=
  with_sessions (<[x := se]> (sessions s)) s.

Lemma hold_session x se s : sessions (hold x se s) !! x = Some se.
Proof. apply lookup_insert_eq. Qed.

Lemma hold_hold x se se' s : hold x se' (hold x se s) = hold x se' s.
Proof. unfold hold. cbn. by rewrite insert_insert_eq. Qed.

Lemma hold_self x se s : sessions s !! x = Some se → hold x se s = s.
Proof. intros H. unfold hold. rewrite insert_id by done. by destruct s. Qed.

Lemma set_session_hold x se s f :
  aux_session s = Some x → set_session f (hold x se s) = Ok (hold x (f se) s).
Proof.
  intros Hx. rewrite (set_session_ok _ x se); [|done|apply hold_session].
  f_equal. apply (hold_hold x se (f se) s).
Qed.

Lemma set_aux_hold x se s f :
  aux_session s = Some x →
  set_aux f (hold x se s) = Ok (hold x (with_incoming (f (incoming se)) se) s).
Proof. intros Hx. unfold set_aux. by rewrite set_session_hold. Qed.

Lemma hold_aux x se s : aux_session (hold x se s) = aux_session s.
Proof. done. Qed.

Lemma sload_hold x se s : aux_session s = Some x → sload (sessions (hold x se s)) (aux_session s) = Ok se.
Proof. intros ->. apply sload_Some, hold_session. Qed.

(** ** Reads inside the buffer *)

Lemma byte_at_ok buf i : 0 ≤ i < Z.of_nat (length buf) → ∃ b, byte_at buf i = Ok b.
Proof.
  intros Hi. unfold byte_at. rewrite (proj2 (Z.ltb_ge i 0)) by lia.
  destruct (lookup_lt_is_Some_2 buf (Z.to_nat i)) as [b ->]; [lia|]. by exists b.
Qed.

Lemma load16_ok buf i : 0 ≤ i → i + 2 ≤ Z.of_nat (length buf) → ∃ v, load16 buf i = Ok v.
Proof.
  intros H1 H2. unfold load16. destruct (byte_at_ok buf i) as [b ->]; [lia|].
  destruct (byte_at_ok buf (i + 1)) as [b' ->]; [lia|]. by eexists.
Qed.

Lemma load32_ok buf i : 0 ≤ i → i + 4 ≤ Z.of_nat (length buf) → ∃ v, load32 buf i = Ok v.
Proof.
  intros H1 H2. unfold load32. destruct (load16_ok buf i) as [b ->]; [lia..|].
  destruct (load16_ok buf (i + 2)) as [b' ->]; [lia..|]. by eexists.
Qed.

Lemma memcpy_mac_ok buf i f : 0 ≤ i → i + 6 ≤ Z.of_nat (length buf) → ∃ v, memcpy_mac buf i f = Ok v.
Proof.
  intros H1 H2. unfold memcpy_mac. destruct (load32_ok buf i) as [b ->]; [lia..|].
  destruct (load16_ok buf (i + 4)) as [b' ->]; [lia..|]. by eexists.
Qed.

(** ** The outcomes of the parser *)

(** A flow of one packet of the length of the frame. *)
Definition one_packet (h : pkthdr) (f : IPFlow) : Prop := npack f = 1 ∧ nbytes f = len h.

(** Numbers of a packet in network order, 0 where there are none. *)
Definition octet (buf : buffer) (i : Z) : Z := match byte_at buf i with Ok b => b | Err _ => 0 end.
Definition word (buf : buffer) (i : Z) : Z := match load16 buf i with Ok v => ntohs v | Err _ => 0 end.

(** The header of a flow's protocol is one that counts, in [room] bytes of IP. *)
Definition layer4_ok (proto : Z) (buf : buffer) (bp room : Z) : bool :=
  if proto =? UDP_PROTO then UDP_HLEN <=? room
  else if proto =? TCP_PROTO then
    let hl := Z.land (Z.shiftr (octet buf (bp + 12)) 4) 15 * 4 in (hl <=? room) && (TCP_MIN_HLEN <=? hl) && (hl <=? TCP_MAX_HLEN)
  else proto =? ICMP_PROTO.

(** Whether the parser gets from the type [e] at [bp] to a flow. *)
Fixpoint passes (fuel : nat) (buf : buffer) (cap bp e room : Z) : bool :=
  match fuel with
  | O => false
  | S fuel =>
      if cap <=? bp then false
      else if e =? QINQ_ETYPE then passes fuel buf cap (bp + 2 + 2) (word buf (bp + 2 + 2)) room
      else if e =? IP_ETYPE then
        let hl := Z.land (octet buf (bp + 2 + 0)) 15 * 4 in
        (bp + 2 + 20 <? cap) && (20 <=? hl) && (hl <=? 60) && (hl <=? word buf (bp + 2 + 2)) &&
        passes fuel buf cap (bp + 2 + hl) (octet buf (bp + 2 + 9)) (word buf (bp + 2 + 2) - hl)
      else layer4_ok e buf bp room
  end.

(** From the state [s] with session [x] in hand: insert, or ignore or count as malformed. *)
Definition parse_outcome (h : pkthdr) (x : loc) (s : fstate) (ok : bool) (r : res fstate) : Prop :=
  ∃ se, if ok then one_packet h (incoming se) ∧ r = insert_aux (hold x se s)
        else r = Ok (hold x se s) ∨ r = Ok (drop_malformed (hold x se s)).

Ltac read_step :=
  match goal with
  | |- context [byte_at ?b ?i] => let H := fresh "H" in
      destruct (byte_at_ok b i) as [? H]; [lia|]; rewrite H; clear H; simpl
  | |- context [load16 ?b ?i] => let H := fresh "H" in
      destruct (load16_ok b i) as [? H]; [lia..|]; rewrite H; clear H; simpl
  | |- context [load32 ?b ?i] => let H := fresh "H" in
      destruct (load32_ok b i) as [? H]; [lia..|]; rewrite H; clear H; simpl
  end.

#[local] Arguments byte_at : simpl never.
#[local] Arguments load16 : simpl never.
#[local] Arguments load32 : simpl never.
#[local] Arguments set_aux : simpl never.
#[local] Arguments set_session : simpl never.
#[local] Arguments insert_aux : simpl never.
#[local] Arguments hold : simpl never.
#[local] Arguments Z.add : simpl never.
#[local] Arguments Z.mul : simpl never.
#[local] Arguments sload : simpl never.

Lemma processL4Flow_outcome buf h bp il hl x se s :
  aux_session s = Some x → 0 ≤ bp → bp + 13 ≤ Z.of_nat (length buf) →
  one_packet h (incoming se) →
  parse_outcome h x s (layer4_ok (transport_protocol (incoming se)) buf bp (il - hl)) (processL4Flow buf bp il hl (hold x se s)).
Proof.
  intros Hx H0 Hbp Hone. unfold processL4Flow, layer4_ok, octet, TCP_HLEN_OFFSET, ICMP_TYPE_OFF, ICMP_CODE_OFF.
  change (aux_session (hold x se s)) with (aux_session s). rewrite sload_hold by done. simpl.
  set (p := transport_protocol _). destruct (Z.eqb_spec p TCP_PROTO) as [->|].
  { cbn [Z.eqb Pos.eqb UDP_PROTO TCP_PROTO]. repeat read_step; rewrite set_aux_hold by done; simpl; repeat read_step.
    match goal with |- context [il - hl <? ?v] => set (n := v) end.
    assert ((n <=? il - hl) && (TCP_MIN_HLEN <=? n) && (n <=? TCP_MAX_HLEN) =
      negb ((il - hl <? n) || (n <? TCP_MIN_HLEN) || (TCP_MAX_HLEN <? n))) as -> by (rewrite !Z.leb_antisym; by rewrite !negb_orb).
    eexists. destruct (_ || _); cbn [negb]; [by right|]. split; [|reflexivity]. done. }
  destruct (p =? UDP_PROTO).
  { repeat read_step; rewrite set_aux_hold by done; simpl; repeat read_step. rewrite Z.leb_antisym.
    eexists. destruct (_ <? _); cbn [negb]; [by right|]. split; [|reflexivity]. done. }
  destruct (p =? ICMP_PROTO).
  { repeat read_step; rewrite set_aux_hold by done; simpl; repeat read_step. eexists. split; [|reflexivity]. done. }
  eexists. by left.
Qed.

Lemma begin_l4_hold h p x se s :
  aux_session s = Some x →
  ∃ se', begin_l4 h p (hold x se s) = Ok (hold x se' s) ∧ one_packet h (incoming se') ∧
    transport_protocol (incoming se') = p.
Proof.
  intros Hx. unfold begin_l4. rewrite set_aux_hold by done. simpl.
  rewrite set_session_hold by done. simpl. rewrite set_aux_hold by done. by eexists.
Qed.

(** The loop ends within its fuel, every step moving at least four bytes on. *)
Lemma parse_loop_outcome fuel buf h bp e il hl x se s :
  aux_session s = Some x → 0 ≤ bp → caplen h + 12 ≤ Z.of_nat (length buf) →
  (Z.to_nat (caplen h - bp) < fuel)%nat →
  parse_outcome h x s (passes fuel buf (caplen h) bp e (il - hl)) (parse_loop fuel buf h bp e il hl (hold x se s)).
Proof.
  intros Hx. revert bp e il hl se. induction fuel as [|fuel IH]; intros bp e il hl se H0 Hbuf Hfuel; [lia|].
  cbn [parse_loop passes]. unfold IP_HLEN, IP_SIP, IP_DIP, IP_PROTO, IP_HL_V, IP_LEN, octet, word.
  destruct (Z.leb_spec (caplen h) bp) as [|Hcap]; [exists se; by left|].
  destruct (e =? QINQ_ETYPE).
  { repeat read_step. rewrite set_aux_hold by done. simpl. rewrite set_aux_hold by done. simpl.
    repeat read_step. apply IH; lia. }
  destruct (e =? IP_ETYPE).
  { rewrite (Z.ltb_antisym (caplen h)). destruct (Z.leb_spec (caplen h) (bp + 2 + 20)) as [|Hcap2]; [exists se; by left|].
    repeat read_step. rewrite set_aux_hold by done. simpl. repeat read_step.
    match goal with |- context [(?n <? IP_MIN_HLEN) || _ || (?t <? _)] => change n with (Z.land x0 15 * 4); set (tot := t) end. set (ihl := Z.land x0 15 * 4).
    assert ((20 <=? ihl) && (ihl <=? 60) && (ihl <=? tot) =
      negb ((ihl <? IP_MIN_HLEN) || (IP_MAX_HLEN <? ihl) || (tot <? ihl))) as ->
      by (rewrite (Z.leb_antisym ihl 20), (Z.leb_antisym 60 ihl), (Z.leb_antisym tot ihl); by rewrite !negb_orb).
    destruct (_ || _) eqn:Hm; cbn [negb andb]; [eexists; by right|].
    apply orb_false_iff in Hm as [Hm _]. apply orb_false_iff in Hm as [Hm _].
    apply Z.ltb_ge in Hm. unfold IP_MIN_HLEN in Hm. apply IH; lia. }
  destruct (Z.eqb_spec e UDP_16B) as [->|]; [|destruct (Z.eqb_spec e TCP_16B) as [->|]; [|destruct (Z.eqb_spec e ICMP_16B) as [->|]]].
  4: { exists se. assert (layer4_ok e buf bp (il - hl) = false) as ->; [|by left]. unfold layer4_ok.
       by rewrite !(proj2 (Z.eqb_neq e _)). }
  1: destruct (begin_l4_hold h UDP_PROTO x se s Hx) as (se' & E & Hone & Hp).
  2: destruct (begin_l4_hold h TCP_PROTO x se s Hx) as (se' & E & Hone & Hp).
  3: destruct (begin_l4_hold h ICMP_PROTO x se s Hx) as (se' & E & Hone & Hp).
  all: rewrite E; simpl; match goal with |- context [layer4_ok ?p] => change p with (transport_protocol (incoming se')) || replace p with (transport_protocol (incoming se')) by exact Hp end;
    apply processL4Flow_outcome; [done|lia|lia|done].
Qed.

#[local] Arguments parse_loop : simpl never.

Lemma parse_ethernet_hold buf x se s :
  aux_session s = Some x → 14 ≤ Z.of_nat (length buf) →
  ∃ se', parse_ethernet buf (hold x se s) = Ok (word buf (2 * ETH_ALEN), hold x se' s).
Proof.
  intros Hx Hlen. unfold parse_ethernet, ETH_ALEN. rewrite set_aux_hold by done. simpl.
  rewrite Hx, (sload_Some _ _ _ (lookup_insert_eq _ _ _)). simpl.
  destruct (memcpy_mac_ok buf 0 (destination_mac (incoming se))) as [d ->]; [lia..|]. simpl.
  destruct (memcpy_mac_ok buf 6 (source_mac (incoming se))) as [r ->]; [lia..|]. simpl.
  rewrite set_aux_hold by done. simpl. unfold word. repeat read_step. by eexists.
Qed.

(** Whether the parser gets to a flow at all. *)
Definition parsed (buf : buffer) (h : pkthdr) : bool :=
  passes (S (Z.to_nat (caplen h))) buf (caplen h) (2 * ETH_ALEN) (word buf (2 * ETH_ALEN)) 0.

(** Every packet, from a state of the running monitor; only without a free session is it
    left unprocessed. *)
Lemma parsePacket_spec M buf h s g hs :
  proc_inv M s g hs → ETH_HLEN ≤ caplen h → caplen h + 12 ≤ Z.of_nat (length buf) →
  ∃ s' g', parsePacket buf h s = Ok s' ∧ proc_inv M s' g' hs ∧ g_heldn g' = g_heldn g ∧
    (∀ y, y ∈ hs → sessions s' !! y = sessions s !! y) ∧
    last_packet_timestamp s' = last_packet_timestamp s ∧
    unprocessed_flows s' = unprocessed_flows s ∧
    ((parsed buf h = false ∧ cache_of s' g' = cache_of s g ∧ unprocessed_packets s' = unprocessed_packets s ∧
      (count_pckts_malformed s' = count_pckts_malformed s ∨
       count_pckts_malformed s' = u64 (count_pckts_malformed s + 1))) ∨
     (cache_of s' g' = cache_of s g ∧ unprocessed_packets s' = u64 (unprocessed_packets s + 1) ∧
      count_pckts_malformed s' = count_pckts_malformed s ∧ (M ≤ S (length (g_live g) + length (g_dead g) + length hs))%nat) ∨
     ∃ f, parsed buf h = true ∧ one_packet h f ∧
       cache_of s' g' = snd (cache_insert (last_packet_timestamp s) f (cache_of s g)) ∧
       unprocessed_packets s' = unprocessed_packets s ∧
       count_pckts_malformed s' = count_pckts_malformed s).
Proof.
  intros H Hcap Hbuf. unfold ETH_HLEN in Hcap. unfold parsePacket.
  destruct (obtain_session_spec M s g hs H) as
    (found & s1 & g1 & E1 & H1 & C1 & N1 & S1 & T1 & U1 & P1 & M1 & Hf).
  rewrite E1. simpl. destruct found; simpl; last first.
  { destruct (proc_inv_fields M s1 g1 hs (last_packet_timestamp s1) (unprocessed_flows s1)
                (u64 (unprocessed_packets s1 + 1)) (count_pckts_malformed s1) H1) as [H2 C2].
    exists (drop_packet s1), g1. split_and!; try done; [].
    right; left. split_and!; [by rewrite <-C1|by rewrite <-P1|done|].
    destruct Hf as [_ Hs]. pose proof (pi_sess _ _ _ _ H) as Hp. rewrite (pi_held _ _ _ _ H), length_app, Hs in Hp.
    assert (aux_session s = None) as Ha; [|rewrite Ha in Hp; cbn in Hp; lia].
    unfold obtain_session in E1. destruct (aux_session s); [|done]. by destruct (set_aux _ s). }
  destruct Hf as (x & se & Hx & Hse & _). rewrite <-(hold_self x se s1 Hse).
  destruct (parse_ethernet_hold buf x se s1 Hx ltac:(lia)) as (se1 & ->). simpl.
  destruct (parse_loop_outcome (S (Z.to_nat (caplen h))) buf h (2 * ETH_ALEN) (word buf (2 * ETH_ALEN)) 0 0 x se1 s1 Hx)
    as [se2 Hout]; [unfold ETH_ALEN; lia|done|unfold ETH_ALEN; lia|].
  destruct (proc_inv_write M s1 g1 hs x se2 H1 Hx) as [H2 C2]. fold (hold x se2 s1) in H2, C2.
  assert (∀ y, y ∈ hs → sessions (hold x se2 s1) !! y = sessions s !! y) as S2.
  { intros y Hy. rewrite <-S1 by done. by apply (proc_inv_other M s1 g1 hs x). }
  change (0 - 0) with 0 in Hout. fold (parsed buf h) in Hout. destruct (parsed buf h).
  2: destruct Hout as [-> | ->].
  2: exists (hold x se2 s1), g1; split_and!; try done; []; left; split_and!; [done|congruence|done|by left].
  2: { destruct (proc_inv_fields M (hold x se2 s1) g1 hs (last_packet_timestamp s1) (unprocessed_flows s1)
                (unprocessed_packets s1) (u64 (count_pckts_malformed s1 + 1)) H2) as [H3 C3].
    exists (drop_malformed (hold x se2 s1)), g1. split_and!; try done; []. left.
    split_and!; [done|by rewrite <-C1, <-C2|done|right; by rewrite <-M1]. }
  destruct Hout as [Hone ->].
  pose proof (insert_aux_spec M (hold x se2 s1) g1 hs x se2 H2 Hx (hold_session x se2 s1)) as Hi.
  change (last_packet_timestamp (hold x se2 s1)) with (last_packet_timestamp s1) in Hi.
  rewrite C2, T1, C1 in Hi. destruct (cache_insert _ _ _) as [fresh c] eqn:Ec.
  destruct Hi as (s' & g' & E' & H' & C' & A' & U' & P' & M' & T' & N' & S').
  exists s', g'. split_and!; [done|done|congruence|intros y Hy; rewrite S' by done; by apply S2|by rewrite T', <-T1|by rewrite U', <-U1|].
  right; right. exists (incoming se2). rewrite Ec. split_and!; [done|done|done| |].
  - by rewrite P', <-P1.
  - by rewrite M', <-M1.
Qed.

(** ** Which packets are flows *)

(** The offset of the type behind the tags of a frame. *)
Fixpoint behind_tags (fuel : nat) (buf : buffer) (cap bp : Z) : Z :=
  match fuel with
  | O => bp
  | S fuel => if (bp <? cap) && (word buf bp =? QINQ_ETYPE) then behind_tags fuel buf cap (bp + 4) else bp
  end.

(** A frame with tags, an IP header that is there as a whole, and behind it, within the
    capture, the header of a flow's protocol with a length that fits the length of
    IP.  (A frame of type 1 is taken for ICMP.) *)
Definition accepts (buf : buffer) (cap : Z) : bool :=
  let at_ := behind_tags (Z.to_nat cap) buf cap 12 in
  let ip := at_ + 2 in
  let hl := Z.land (octet buf ip) 15 * 4 in
  let total := word buf (ip + 2) in
  (at_ <? cap) &&
  if word buf at_ =? IP_ETYPE then
    (ip + 20 <? cap) && (20 <=? hl) && (hl <=? 60) && (hl <=? total) && (ip + hl <? cap) &&
    layer4_ok (octet buf (ip + 9)) buf (ip + hl) (total - hl)
  else word buf at_ =? 1.

Lemma octet_range buf i : Forall (λ b, 0 ≤ b < 256) buf → 0 ≤ octet buf i < 256.
Proof.
  intros Hb. unfold octet, byte_at. destruct (i <? 0); [lia|]. destruct (buf !! Z.to_nat i) as [b|] eqn:E; [|cbn; lia].
  cbn. by eapply Forall_lookup_1 in Hb.
Qed.

(** At a type that is not the one of a tag. *)
Lemma passes_accepts fuel buf cap bp :
  Forall (λ b, 0 ≤ b < 256) buf → (Z.to_nat (cap - bp) < fuel)%nat → 0 ≤ bp →
  passes fuel buf cap bp (word buf bp) 0 =
    (let at_ := behind_tags fuel buf cap bp in
     let ip := at_ + 2 in let hl := Z.land (octet buf ip) 15 * 4 in let total := word buf (ip + 2) in
     (at_ <? cap) &&
     if word buf at_ =? IP_ETYPE then
       (ip + 20 <? cap) && (20 <=? hl) && (hl <=? 60) && (hl <=? total) && (ip + hl <? cap) &&
       layer4_ok (octet buf (ip + 9)) buf (ip + hl) (total - hl)
     else word buf at_ =? 1).
Proof.
  intros Hb. revert bp. induction fuel as [|fuel IH]; intros bp Hf Hbp; [lia|]. cbn [passes behind_tags].
  destruct (Z.leb_spec cap bp) as [Hcap|Hcap].
  { rewrite (proj2 (Z.ltb_ge bp cap)) by done. cbn [andb]. by rewrite (proj2 (Z.ltb_ge bp cap)). }
  rewrite (proj2 (Z.ltb_lt bp cap)) by done. cbn [andb]. destruct (word buf bp =? QINQ_ETYPE).
  { rewrite <-Z.add_assoc. change (2 + 2) with 4. apply IH; lia. }
  rewrite (proj2 (Z.ltb_lt bp cap)) by done. cbn [andb]. destruct (word buf bp =? IP_ETYPE).
  2: { unfold layer4_ok. destruct (Z.eqb_spec (word buf bp) UDP_PROTO) as [->|]; [done|].
       destruct (Z.eqb_spec (word buf bp) TCP_PROTO) as [->|]; [|done].
       set (hl := _ * 4). by destruct (Z.leb_spec hl 0), (Z.leb_spec TCP_MIN_HLEN hl); unfold TCP_MIN_HLEN in *; [lia|..]. }
  rewrite Z.add_0_r. set (hl := _ * 4). destruct (bp + 2 + 20 <? cap); [|done]. destruct (Z.leb_spec 20 hl); [|done].
  destruct (hl <=? 60); [|done]. destruct (hl <=? _); [|done]. cbn [andb].
  destruct fuel as [|fuel]; [lia|]. cbn [passes]. rewrite Z.leb_antisym.
  destruct (Z.ltb_spec (bp + 2 + hl) cap); cbn [negb andb]; [|done].
  pose proof (octet_range buf (bp + 2 + 9) Hb). set (p := octet buf (bp + 2 + 9)) in *.
  rewrite (proj2 (Z.eqb_neq p QINQ_ETYPE)), (proj2 (Z.eqb_neq p IP_ETYPE)) by (unfold QINQ_ETYPE, IP_ETYPE; lia). done.
Qed.

Lemma behind_tags_fuel f f' buf cap bp :
  (Z.to_nat (cap - bp) ≤ f)%nat → (Z.to_nat (cap - bp) ≤ f')%nat → behind_tags f buf cap bp = behind_tags f' buf cap bp.
Proof.
  revert f' bp. induction f as [|f IH]; intros f' bp H1 H2.
  - destruct f' as [|f']; [done|]. cbn. by rewrite (proj2 (Z.ltb_ge bp cap)) by lia.
  - destruct f' as [|f']; cbn [behind_tags]; [by rewrite (proj2 (Z.ltb_ge bp cap)) by lia|].
    destruct (Z.ltb_spec bp cap); [|done]. cbn [andb]. destruct (_ =? _); [|done]. apply IH; lia.
Qed.

Lemma parsed_accepts buf h : Forall (λ b, 0 ≤ b < 256) buf → parsed buf h = accepts buf (caplen h).
Proof.
  intros Hb. unfold parsed. change (2 * ETH_ALEN) with 12. rewrite passes_accepts; [|done|lia|lia].
  rewrite (behind_tags_fuel _ (Z.to_nat (caplen h))) by lia. done.
Qed.
