(* ===== verification/Frame.v ===== *)
(** * Frames on the wire, and what the parser reads from them

    An encoder for Ethernet frames with any number of 802.1Q tags, an IPv4
    header with options and a TCP, UDP or ICMP header, and the proof that
    [parsePacket] reads back exactly the fields that were encoded. *)

From S2P Require Import Prelude Log NodeList Rings FlowData Pools NodePool SessionPool.
From S2P Require Import FlowCore FlowTable FlowInv FlowInsert FlowExpire Packet ProcessInv.
From S2P Require Import CacheLaws PacketSpec.

(** ** Encoding *)

Definition be16 (v : Z) : list Z := [v / 256; v mod 256].
Definition be32 (v : Z) : list Z := be16 (v / 65536) ++ be16 (v mod 65536).

(** Six octets as the [uint64_t] a [memcpy] into its first bytes gives. *)
Definition mac_value (m : list Z) : Z := foldr (λ b v, b + 256 * v) 0 m.

Inductive l4_header :=
  | Tcp (sport dport : Z) (seqack : list Z) (doff low : Z) (tail : list Z)
  | Udp (sport dport : Z) (tail : list Z)
  | Icmp (type code : Z) (tail : list Z).

Record frame := Frame {
  fr_dst : list Z; fr_src : list Z;
  fr_tags : list Z;                 (** tag control information of each 802.1Q tag *)
  fr_tos : Z; fr_total : Z;         (** IP type of service and total length *)
  fr_mid : list Z;                  (** id, fragment and TTL: 5 octets *)
  fr_cksum : list Z;                (** 2 octets *)
  fr_sip : Z; fr_dip : Z;
  fr_options : list Z;
  fr_l4 : l4_header
}.

Definition l4_bytes (l : l4_header) : list Z :=
  match l with
  | Tcp sp dp seqack doff low tail => be16 sp ++ be16 dp ++ seqack ++ [doff * 16 + low] ++ tail
  | Udp sp dp tail => be16 sp ++ be16 dp ++ tail
  | Icmp ty co tail => [ty; co] ++ tail
  end.

Definition l4_proto (l : l4_header) : Z :=
  match l with Tcp _ _ _ _ _ _ => TCP_PROTO | Udp _ _ _ => UDP_PROTO | Icmp _ _ _ => ICMP_PROTO end.
Definition l4_ports (l : l4_header) : Z * Z :=
  match l with Tcp sp dp _ _ _ _ => (sp, dp) | Udp sp dp _ => (sp, dp) | Icmp ty co _ => (ty, co) end.

(** Words of 4 octets in the IP header. *)
Definition fr_ihl (f : frame) : Z := 5 + Z.of_nat (length (fr_options f)) / 4.

Definition ip_bytes (f : frame) : list Z :=
  [64 + fr_ihl f; fr_tos f] ++ be16 (fr_total f) ++ fr_mid f ++ [l4_proto (fr_l4 f)] ++ fr_cksum f
  ++ be32 (fr_sip f) ++ be32 (fr_dip f) ++ fr_options f ++ l4_bytes (fr_l4 f).

Fixpoint tagged (tags : list Z) (ip : list Z) : list Z :=
  match tags with
  | [] => [8; 0] ++ ip
  | t :: tags => [129; 0] ++ be16 t ++ tagged tags ip
  end.

Definition encode (f : frame) : list Z := fr_dst f ++ fr_src f ++ tagged (fr_tags f) (ip_bytes f).

(** The header fields fit their widths and agree with each other. *)
Definition l4_ok (room : Z) (l : l4_header) : Prop :=
  match l with
  | Tcp sp dp seqack doff low _ =>
      0 ≤ sp < 2 ^ 16 ∧ 0 ≤ dp < 2 ^ 16 ∧ length seqack = 8%nat ∧ 5 ≤ doff ≤ 15 ∧ 0 ≤ low < 16 ∧
      doff * 4 ≤ room
  | Udp sp dp _ => 0 ≤ sp < 2 ^ 16 ∧ 0 ≤ dp < 2 ^ 16 ∧ UDP_HLEN ≤ room
  | Icmp _ _ _ => 0 ≤ room
  end.

Definition octets (n : nat) (l : list Z) : Prop := length l = n ∧ Forall (λ b, 0 ≤ b < 256) l.

Definition frame_ok (f : frame) : Prop :=
  octets 6 (fr_dst f) ∧ octets 6 (fr_src f) ∧ Forall (λ t, 0 ≤ t < 2 ^ 16) (fr_tags f) ∧
  0 ≤ fr_total f < 2 ^ 16 ∧ length (fr_mid f) = 5%nat ∧ length (fr_cksum f) = 2%nat ∧
  0 ≤ fr_sip f < 2 ^ 32 ∧ 0 ≤ fr_dip f < 2 ^ 32 ∧
  Z.of_nat (length (fr_options f)) = 4 * (fr_ihl f - 5) ∧ fr_ihl f ≤ 15 ∧
  l4_ok (fr_total f - fr_ihl f * 4) (fr_l4 f).

(** The VLAN id of the innermost tag. *)
Definition vlan_of (tags : list Z) : Z :=
  match last tags with Some t => Z.land t 0x0FFF | None => u16 (-1) end.

(** The flow a frame of [n] bytes belongs to, with its first packet counted. *)
Definition flow_of (f : frame) (n : Z) : IPFlow :=
  MkIPFlow (fr_sip f) (fr_dip f) (mac_value (fr_src f)) (mac_value (fr_dst f))
    (fst (l4_ports (fr_l4 f))) (snd (l4_ports (fr_l4 f))) (vlan_of (fr_tags f))
    (l4_proto (fr_l4 f)) 1 n.

(** ** Reading at an offset *)

Lemma byte_at_drop buf n l i :
  drop n buf = l → byte_at buf (Z.of_nat n + Z.of_nat i) = or_fault (l !! i) OutOfBounds.
Proof.
  intros <-. unfold byte_at. rewrite (proj2 (Z.ltb_ge _ 0)) by lia.
  rewrite lookup_drop. do 2 f_equal. lia.
Qed.

Lemma load16_drop buf n l i a b :
  drop n buf = l → l !! i = Some a → l !! S i = Some b →
  load16 buf (Z.of_nat n + Z.of_nat i) = Ok (Z.lor a (Z.shiftl b 8)).
Proof.
  intros Hd Ha Hb. unfold load16. rewrite (byte_at_drop _ _ _ _ Hd), Ha. simpl.
  replace (Z.of_nat n + Z.of_nat i + 1) with (Z.of_nat n + Z.of_nat (S i)) by lia.
  rewrite (byte_at_drop _ _ _ _ Hd), Hb. done.
Qed.

Lemma land_255 x : Z.land x 0xFF = x mod 256.
Proof. by apply (Z.land_ones x 8). Qed.

Lemma land_65535 x : Z.land x 0xFFFF = x mod 65536.
Proof. by apply (Z.land_ones x 16). Qed.

Lemma ntohs_swap a b : 0 ≤ a < 256 → 0 ≤ b < 256 → ntohs (Z.lor a (Z.shiftl b 8)) = a * 256 + b.
Proof.
  intros Ha Hb. rewrite lor_shiftl_add by lia. unfold ntohs. rewrite !land_255, Z.shiftr_div_pow2 by lia.
  rewrite shiftl_lor_add by (try lia; apply Z.mod_pos_bound; lia). change (2 ^ 8) with 256. dlia.
Qed.

Lemma load_be16 buf n l i v :
  drop n buf = l → l !! i = Some (v / 256) → l !! S i = Some (v mod 256) → 0 ≤ v < 2 ^ 16 →
  ∃ w, load16 buf (Z.of_nat n + Z.of_nat i) = Ok w ∧ ntohs w = v.
Proof.
  intros Hd Ha Hb Hv. eexists. split; [by apply (load16_drop buf n l)|].
  rewrite ntohs_swap by dlia. dlia.
Qed.

Lemma load_be32 buf n l i v :
  drop n buf = l → l !! i = Some (v / 65536 / 256) → l !! S i = Some ((v / 65536) mod 256) →
  l !! S (S i) = Some (v mod 65536 / 256) → l !! S (S (S i)) = Some ((v mod 65536) mod 256) →
  0 ≤ v < 2 ^ 32 →
  ∃ w, load32 buf (Z.of_nat n + Z.of_nat i) = Ok w ∧ ntohl w = v.
Proof.
  intros Hd H0 H1 H2 H3 Hv. unfold load32. rewrite (load16_drop buf n l i _ _ Hd H0 H1). simpl.
  replace (Z.of_nat n + Z.of_nat i + 2) with (Z.of_nat n + Z.of_nat (S (S i))) by lia.
  rewrite (load16_drop buf n l _ _ _ Hd H2 H3). simpl. eexists. split; [done|].
  assert (∀ a b, 0 ≤ a < 256 → 0 ≤ b < 256 → 0 ≤ Z.lor a (Z.shiftl b 8) < 65536) as Hr.
  { intros a b Ha Hb. rewrite lor_shiftl_add by lia. lia. }
  set (lo := Z.lor (v / 65536 / 256) _). set (hi := Z.lor (v mod 65536 / 256) _).
  assert (0 ≤ lo < 65536) as Hlo by (apply Hr; dlia).
  assert (0 ≤ hi < 65536) as Hhi by (apply Hr; dlia).
  unfold ntohl. rewrite !land_65535, Z.shiftr_div_pow2 by lia.
  rewrite lor_shiftl_add by lia. change (2 ^ 16) with 65536.
  replace ((lo + hi * 65536) mod 65536) with lo by dlia.
  replace (((lo + hi * 65536) / 65536) mod 65536) with hi by dlia.
  unfold lo, hi. rewrite !ntohs_swap by dlia. rewrite shiftl_lor_add by dlia. dlia.
Qed.

Lemma memcpy_mac_drop buf n l m i :
  drop n buf = l → octets 6 m → (∀ k, (k < 6)%nat → l !! (i + k)%nat = m !! k) →
  memcpy_mac buf (Z.of_nat n + Z.of_nat i) 0 = Ok (mac_value m).
Proof.
  intros Hd [Hlen Hm] Hl. do 7 (destruct m as [|? m]; try done).
  assert (∀ k v, (k < 6)%nat → [z; z0; z1; z2; z3; z4] !! k = Some v → l !! (i + k)%nat = Some v) as Hk.
  { intros k v Hk Hv. by rewrite Hl. }
  unfold memcpy_mac, load32.
  rewrite (load16_drop buf n l i z z0 Hd);
    [|rewrite <-(Nat.add_0_r i); apply Hk; [lia|done]|rewrite <-(Nat.add_1_r i); apply Hk; [lia|done]].
  simpl. replace (Z.of_nat n + Z.of_nat i + 2) with (Z.of_nat n + Z.of_nat (i + 2)) by lia.
  rewrite (load16_drop buf n l (i + 2) z1 z2 Hd);
    [|apply Hk; [lia|done]|rewrite <-Nat.add_succ_r; apply Hk; [lia|done]].
  simpl. replace (Z.of_nat n + Z.of_nat i + 4) with (Z.of_nat n + Z.of_nat (i + 4)) by lia.
  rewrite (load16_drop buf n l (i + 4) z3 z4 Hd);
    [|apply Hk; [lia|done]|rewrite <-Nat.add_succ_r; apply Hk; [lia|done]].
  simpl. rewrite !Forall_cons in Hm. destruct Hm as (? & ? & ? & ? & ? & ? & _).
  cbn [mac_value foldr]. rewrite Z.lor_0_r. f_equal.
  rewrite !(lor_shiftl_add _ _ 8) by lia. rewrite (lor_shiftl_add _ _ 16) by lia.
  rewrite (lor_shiftl_add _ _ 32) by lia. lia.
Qed.

(** ** The parser on an encoded frame *)

#[local] Arguments byte_at : simpl never.
#[local] Arguments load16 : simpl never.
#[local] Arguments load32 : simpl never.
#[local] Arguments set_aux : simpl never.
#[local] Arguments set_session : simpl never.
#[local] Arguments insert_aux : simpl never.
#[local] Arguments hold : simpl never.
#[local] Arguments Z.add : simpl never.
#[local] Arguments Z.mul : simpl never.
#[local] Arguments Z.of_nat : simpl never.
#[local] Arguments Z.div : simpl never.
#[local] Arguments Z.modulo : simpl never.

Section parse.
Context (buf : buffer) (h : pkthdr) (x : loc) (s : fstate).
Hypothesis Hx : aux_session s = Some x.

(** A write of one field of the flow in hand. *)
Definition upd (f : IPFlow → IPFlow) (se : IPSession) : IPSession := with_incoming (f (incoming se)) se.

Definition ethertype (tags : list Z) : Z := match tags with [] => IP_ETYPE | _ => QINQ_ETYPE end.

Lemma load_ethertype n tags ip :
  drop n buf = tagged tags ip →
  ∃ w, load16 buf (Z.of_nat n + Z.of_nat 0) = Ok w ∧ ntohs w = ethertype tags.
Proof. intros Hd. destruct tags; by apply (load_be16 buf n _ 0 _ Hd). Qed.

(** The loop over the 802.1Q tags. *)
Lemma parse_tags tags ip fuel n v se :
  Forall (λ t, 0 ≤ t < 2 ^ 16) tags → drop n buf = tagged tags ip →
  vlanTag (incoming se) = v → Z.of_nat (n + 4 * length tags) < caplen h →
  parse_loop (length tags + fuel) buf h (Z.of_nat n) (ethertype tags) 0 0 (hold x se s) =
  parse_loop fuel buf h (Z.of_nat (n + 4 * length tags)) IP_ETYPE 0 0
    (hold x (upd (with_vlan (match last tags with Some t => Z.land t 0x0FFF | None => v end)) se) s).
Proof.
  intros Htags. revert n v se. induction Htags as [|t tags Ht Htags IH]; intros n v se Hd Hv Hcap.
  - cbn [length last ethertype]. rewrite Nat.mul_0_r, Nat.add_0_r, Nat.add_0_l. do 2 f_equal.
    unfold upd. subst v. by destruct se as [? ? ? ? ? []].
  - cbn [length Nat.add parse_loop ethertype] in *.
    rewrite (proj2 (Z.leb_gt _ _)) by lia. simpl.
    destruct (load_be16 buf n _ 2 t Hd eq_refl eq_refl Ht) as (w & E & Hw).
    change (Z.of_nat 2) with 2 in E. rewrite E. simpl.
    rewrite set_aux_hold by done. simpl. rewrite set_aux_hold by done. simpl. rewrite Hw.
    assert (drop (n + 4) buf = tagged tags ip) as Hd'.
    { rewrite <-(drop_drop buf), Hd. done. }
    destruct (load_ethertype (n + 4) tags ip Hd') as (w' & E' & Hw').
    replace (Z.of_nat n + 2 + 2) with (Z.of_nat (n + 4) + Z.of_nat 0) by lia.
    rewrite E'. simpl. rewrite Hw'. rewrite Z.add_0_r.
    rewrite (IH (n + 4)%nat (Z.land t 0x0FFF)); [|done|done|lia].
    do 2 f_equal; [lia|]. unfold upd. destruct tags as [|t' tags]; [done|].
    rewrite last_cons_cons. by destruct (last (t' :: tags)) eqn:El; [|apply last_None in El].
Qed.

Lemma fr_ihl_ge f : 5 ≤ fr_ihl f.
Proof. unfold fr_ihl. dlia. Qed.

(** The octets of the IP header by position. *)
Lemma ip_bytes_shape f :
  frame_ok f → ∃ m0 m1 m2 m3 m4 c0 c1,
    ip_bytes f = [64 + fr_ihl f; fr_tos f; fr_total f / 256; fr_total f mod 256; m0; m1; m2; m3; m4;
                  l4_proto (fr_l4 f); c0; c1] ++ be32 (fr_sip f) ++ be32 (fr_dip f)
                 ++ fr_options f ++ l4_bytes (fr_l4 f).
Proof.
  intros (_ & _ & _ & _ & Hmid & Hck & _). unfold ip_bytes.
  destruct (fr_mid f) as [|m0 [|m1 [|m2 [|m3 [|m4 [|]]]]]]; try done.
  destruct (fr_cksum f) as [|c0 [|c1 [|]]]; try done. by exists m0, m1, m2, m3, m4, c0, c1.
Qed.

Lemma ip_bytes_l4 f :
  frame_ok f → drop (Z.to_nat (fr_ihl f * 4)) (ip_bytes f) = l4_bytes (fr_l4 f).
Proof.
  intros Hf. destruct (ip_bytes_shape f Hf) as (m0 & m1 & m2 & m3 & m4 & c0 & c1 & ->).
  destruct Hf as (_ & _ & _ & _ & _ & _ & _ & _ & Hopt & _).
  replace (Z.to_nat (fr_ihl f * 4)) with (20 + length (fr_options f))%nat by lia.
  cbn. apply drop_app_length.
Qed.

(** The IP header. *)
Lemma parse_ip f fuel n se :
  frame_ok f → drop n buf = [8; 0] ++ ip_bytes f → Z.of_nat n + 22 < caplen h →
  parse_loop (S fuel) buf h (Z.of_nat n) IP_ETYPE 0 0 (hold x se s) =
  parse_loop fuel buf h (Z.of_nat (n + 2 + Z.to_nat (fr_ihl f * 4))) (l4_proto (fr_l4 f))
    (fr_ihl f * 4 + (fr_total f - fr_ihl f * 4)) (fr_ihl f * 4)
    (hold x (upd (with_ips (fr_sip f) (fr_dip f)) se) s).
Proof.
  intros Hf Hd Hcap. pose proof (fr_ihl_ge f) as Hge.
  destruct (ip_bytes_shape f Hf) as (m0 & m1 & m2 & m3 & m4 & c0 & c1 & Hb).
  destruct Hf as (_ & _ & _ & Htot & _ & _ & Hsip & Hdip & _ & Hihl & Hl4).
  assert (drop (n + 2) buf = ip_bytes f) as Hd2 by (by rewrite <-(drop_drop buf), Hd).
  rewrite Hb in Hd2. replace (Z.of_nat n) with (Z.of_nat (n + 2) - 2) by lia.
  cbn [parse_loop]. rewrite (proj2 (Z.leb_gt _ _)) by lia.
  change (IP_ETYPE =? QINQ_ETYPE) with false. change (IP_ETYPE =? IP_ETYPE) with true. cbv beta iota zeta.
  rewrite Z.sub_add. unfold IP_HLEN. rewrite (proj2 (Z.leb_gt _ _)) by lia.
  destruct (load_be32 buf _ _ 12 (fr_sip f) Hd2 eq_refl eq_refl eq_refl eq_refl Hsip) as (sip & E1 & W1).
  destruct (load_be32 buf _ _ 16 (fr_dip f) Hd2 eq_refl eq_refl eq_refl eq_refl Hdip) as (dip & E2 & W2).
  destruct (load_be16 buf _ _ 2 (fr_total f) Hd2 eq_refl eq_refl Htot) as (tot & E3 & W3).
  pose proof (byte_at_drop buf _ _ 9 Hd2) as E4. pose proof (byte_at_drop buf _ _ 0 Hd2) as E5.
  cbn [lookup list_lookup app or_fault] in E4, E5.
  change (Z.of_nat 12) with IP_SIP in E1. change (Z.of_nat 16) with IP_DIP in E2.
  change (Z.of_nat 2) with IP_LEN in E3. change (Z.of_nat 9) with IP_PROTO in E4.
  change (Z.of_nat 0) with IP_HL_V in E5.
  rewrite E1. simpl. rewrite E2. simpl. rewrite set_aux_hold by done. simpl.
  rewrite E4. simpl. rewrite E5. simpl. rewrite E3. simpl. rewrite W1, W2, W3.
  assert (Z.land (64 + fr_ihl f) IP_HL_MASK * IP_ALEN = fr_ihl f * 4) as ->.
  { change IP_HL_MASK with (Z.ones 4). rewrite Z.land_ones by lia. unfold IP_ALEN.
    change (2 ^ 4) with 16. dlia. }
  assert (fr_ihl f * 4 ≤ fr_total f) as Hroom.
  { destruct (fr_l4 f); cbn in Hl4; unfold UDP_HLEN in *; lia. }
  unfold IP_MIN_HLEN, IP_MAX_HLEN.
  rewrite !(proj2 (Z.ltb_ge _ _)) by lia. cbn [orb].
  do 2 f_equal; lia.
Qed.

(** The layer-4 header, for each protocol. *)
Lemma parse_l4 l fuel n ipHLen room se :
  l4_ok room l → drop n buf = l4_bytes l → Z.of_nat n < caplen h →
  ∃ se', parse_loop (S fuel) buf h (Z.of_nat n) (l4_proto l) (ipHLen + room) ipHLen (hold x se s)
         = insert_aux (hold x se' s) ∧
    incoming se' = with_ports (fst (l4_ports l)) (snd (l4_ports l))
                     (with_proto (l4_proto l) (with_counters 1 (len h) (incoming se))).
Proof.
  intros Hl Hd Hcap. cbn [parse_loop]. rewrite (proj2 (Z.leb_gt _ _)) by lia.
  pose proof (byte_at_drop buf _ _ 0 Hd) as B0. pose proof (byte_at_drop buf _ _ 1 Hd) as B1.
  pose proof (byte_at_drop buf _ _ 12 Hd) as B12.
  destruct l as [sp dp seqack doff low tail|sp dp tail|ty co tail]; cbn [l4_ok l4_proto l4_ports fst snd] in *.
  - destruct Hl as (Hsp & Hdp & Hsa & Hdo & Hlow & Hroom).
    do 9 (destruct seqack as [|? seqack]; try done). clear Hsa.
    destruct (load_be16 buf n _ 0 sp Hd eq_refl eq_refl Hsp) as (w1 & E1 & W1).
    destruct (load_be16 buf n _ 2 dp Hd eq_refl eq_refl Hdp) as (w2 & E2 & W2).
    rewrite Z.add_0_r in E1. change (Z.of_nat 2) with 2 in E2. change (Z.of_nat 12) with 12 in B12.
    cbn in B12. simpl. unfold begin_l4. rewrite set_aux_hold by done. simpl.
    rewrite set_session_hold by done. simpl. rewrite set_aux_hold by done. simpl.
    unfold processL4Flow. rewrite hold_aux, Hx, (sload_Some _ _ _ (hold_session _ _ _)). simpl.
    rewrite E1. simpl. rewrite E2. simpl. rewrite set_aux_hold by done. simpl.
    unfold TCP_HLEN_OFFSET. rewrite B12. simpl. rewrite W1, W2.
    assert (Z.land (Z.shiftr (doff * 16 + low) 4) 0x0F * 4 = doff * 4) as ->.
    { rewrite Z.shiftr_div_pow2 by lia. change 0x0F with (Z.ones 4). rewrite Z.land_ones by lia.
      change (2 ^ 4) with 16. dlia. }
    unfold TCP_MIN_HLEN, TCP_MAX_HLEN. rewrite !(proj2 (Z.ltb_ge _ _)) by lia. cbn [orb].
    eexists. split; [reflexivity|done].
  - destruct Hl as (Hsp & Hdp & Hroom).
    destruct (load_be16 buf n _ 0 sp Hd eq_refl eq_refl Hsp) as (w1 & E1 & W1).
    destruct (load_be16 buf n _ 2 dp Hd eq_refl eq_refl Hdp) as (w2 & E2 & W2).
    rewrite Z.add_0_r in E1. change (Z.of_nat 2) with 2 in E2.
    simpl. unfold begin_l4. rewrite set_aux_hold by done. simpl.
    rewrite set_session_hold by done. simpl. rewrite set_aux_hold by done. simpl.
    unfold processL4Flow. rewrite hold_aux, Hx, (sload_Some _ _ _ (hold_session _ _ _)). simpl.
    rewrite E1. simpl. rewrite E2. simpl. rewrite set_aux_hold by done. simpl. rewrite W1, W2.
    rewrite (proj2 (Z.ltb_ge _ _)) by lia. eexists. split; [reflexivity|done].
  - change (Z.of_nat 0) with ICMP_TYPE_OFF in B0. change (Z.of_nat 1) with ICMP_CODE_OFF in B1.
    cbn in B0, B1. simpl. unfold begin_l4. rewrite set_aux_hold by done. simpl.
    rewrite set_session_hold by done. simpl. rewrite set_aux_hold by done. simpl.
    unfold processL4Flow. rewrite hold_aux, Hx, (sload_Some _ _ _ (hold_session _ _ _)). simpl.
    unfold ICMP_TYPE_OFF, ICMP_CODE_OFF in *. rewrite B0. simpl. rewrite B1. simpl.
    rewrite set_aux_hold by done. simpl. eexists. split; [reflexivity|done].
Qed.
End parse.

(** ** The whole frame *)

#[local] Arguments parse_loop : simpl never.

Lemma octets_length n l : octets n l → length l = n.
Proof. by intros []. Qed.

Lemma length_tagged tags ip : length (tagged tags ip) = (4 * length tags + 2 + length ip)%nat.
Proof. induction tags as [|t tags IH]; [done|]. cbn [tagged]. rewrite !length_app, IH. cbn. lia. Qed.

Lemma drop_tagged tags ip : drop (4 * length tags) (tagged tags ip) = [8; 0] ++ ip.
Proof.
  induction tags as [|t tags IH]; [done|]. cbn [length].
  replace (4 * S (length tags))%nat with (4 + 4 * length tags)%nat by lia. done.
Qed.

Lemma l4_bytes_pos room l : l4_ok room l → (2 ≤ length (l4_bytes l))%nat.
Proof. destruct l; cbn; intros; lia. Qed.

Lemma length_ip_bytes f :
  frame_ok f → length (ip_bytes f) = (Z.to_nat (fr_ihl f * 4) + length (l4_bytes (fr_l4 f)))%nat.
Proof.
  intros Hf. rewrite <-(ip_bytes_l4 f Hf), length_drop.
  destruct (ip_bytes_shape f Hf) as (m0 & m1 & m2 & m3 & m4 & c0 & c1 & ->).
  destruct Hf as (_ & _ & _ & _ & _ & _ & _ & _ & Hopt & _).
  rewrite !length_app. cbn. lia.
Qed.

Lemma parse_ethernet_frame buf f x se s :
  frame_ok f → aux_session s = Some x → incoming se = zero_flow → buf = encode f →
  parse_ethernet buf (hold x se s) =
  Ok (ethertype (fr_tags f),
      hold x (with_incoming (with_macs (mac_value (fr_dst f)) (mac_value (fr_src f))
                               (with_vlan (u16 (-1)) zero_flow)) se) s).
Proof.
  intros (Hdst & Hsrc & _) Hx Hz ->. unfold parse_ethernet.
  pose proof (octets_length _ _ Hdst) as L1. pose proof (octets_length _ _ Hsrc) as L2.
  assert (drop 0 (encode f) = encode f) as D0 by done.
  rewrite set_aux_hold by done. simpl. rewrite Hx, (sload_Some _ _ _ (lookup_insert_eq _ _ _)). simpl.
  rewrite Hz. change (destination_mac zero_flow) with 0. change (source_mac zero_flow) with 0.
  replace 0 with (Z.of_nat 0 + Z.of_nat 0) at 1 by lia.
  rewrite (memcpy_mac_drop _ _ _ (fr_dst f) 0 D0 Hdst); last first.
  { intros k Hk. unfold encode. rewrite lookup_app_l by lia. done. }
  simpl. unfold ETH_ALEN. change 6 with (Z.of_nat 0 + Z.of_nat 6).
  rewrite (memcpy_mac_drop _ _ _ (fr_src f) 6 D0 Hsrc); last first.
  { intros k Hk. unfold encode. rewrite lookup_app_r by lia.
    rewrite lookup_app_l by lia. f_equal. lia. }
  simpl. rewrite set_aux_hold by done. simpl.
  assert (drop 12 (encode f) = tagged (fr_tags f) (ip_bytes f)) as D12.
  { unfold encode. rewrite app_assoc. apply drop_app_length'. rewrite length_app. lia. }
  destruct (load_ethertype (encode f) 12 _ _ D12) as (w & E & Hw).
  change (2 * (Z.of_nat 0 + Z.of_nat 6)) with (Z.of_nat 12 + Z.of_nat 0). rewrite E. simpl. by rewrite Hw.
Qed.

(** Where the layer-4 header starts. *)
Definition l4_offset (f : frame) : Z :=
  14 + 4 * Z.of_nat (length (fr_tags f)) + fr_ihl f * 4.

(** From a session whose flow is cleared, the parser hands the frame's own flow
    to [insertFlow], as soon as the capture reaches into the layer-4 header. *)
Lemma parse_body f h x se s :
  frame_ok f → aux_session s = Some x → incoming se = zero_flow → l4_offset f < caplen h →
  ∃ se', ('(e, s) ← parse_ethernet (encode f) (hold x se s);
          parse_loop (S (Z.to_nat (caplen h))) (encode f) h (2 * ETH_ALEN) e 0 0 s)
         = insert_aux (hold x se' s) ∧ incoming se' = flow_of f (len h).
Proof.
  intros Hf Hx Hse Hcap. unfold l4_offset in Hcap.
  rewrite (parse_ethernet_frame _ f) by done. simpl.
  pose proof Hf as (Hdst & Hsrc & Htags & _ & _ & _ & _ & _ & _ & _ & Hl4).
  pose proof (octets_length _ _ Hdst) as L1. pose proof (octets_length _ _ Hsrc) as L2.
  pose proof (fr_ihl_ge f) as Hge.
  assert (drop 12 (encode f) = tagged (fr_tags f) (ip_bytes f)) as D12.
  { unfold encode. rewrite app_assoc. apply drop_app_length'. rewrite length_app. lia. }
  assert (drop (12 + 4 * length (fr_tags f)) (encode f) = [8; 0] ++ ip_bytes f) as D14.
  { rewrite <-drop_drop, D12. apply drop_tagged. }
  set (F := (Z.to_nat (caplen h) - length (fr_tags f) - 2)%nat).
  replace (S (Z.to_nat (caplen h))) with (length (fr_tags f) + S (S (S F)))%nat by lia.
  change (2 * ETH_ALEN) with (Z.of_nat 12).
  rewrite (parse_tags _ h x s Hx (fr_tags f) (ip_bytes f) (S (S (S F))) 12 (u16 (-1))) by (done || lia).
  rewrite (parse_ip _ h x s Hx f _ (12 + 4 * length (fr_tags f))) by (done || lia).
  edestruct (parse_l4 (encode f) h x s Hx (fr_l4 f) (S F)) as (se' & E & Hi); [exact Hl4| |..|].
  3: { rewrite E. exists se'. split; [done|]. rewrite Hi. unfold flow_of, vlan_of, upd. cbn.
       by destruct (last (fr_tags f)). }
  - rewrite <-(ip_bytes_l4 f Hf). rewrite <-drop_drop, <-drop_drop, D14. done.
  - lia.
Qed.

(** The same for the whole of [parsePacket], with a session in hand. *)
Lemma parse_frame f h x se s :
  frame_ok f → aux_session s = Some x → sessions s !! x = Some se → l4_offset f < caplen h →
  ∃ se', parsePacket (encode f) h s = insert_aux (hold x se' s) ∧
         incoming se' = flow_of f (len h).
Proof.
  intros Hf Hx Hse Hcap. unfold parsePacket, obtain_session. rewrite Hx.
  unfold set_aux at 1. rewrite (set_session_ok s x se _ Hx Hse). simpl.
  fold (hold x (with_incoming zero_flow se) s). by apply parse_body.
Qed.

(** Bytes behind the frame are bytes behind its layer-4 header. *)
Definition pad (rest : list Z) (f : frame) : frame :=
  Frame (fr_dst f) (fr_src f) (fr_tags f) (fr_tos f) (fr_total f) (fr_mid f) (fr_cksum f)
    (fr_sip f) (fr_dip f) (fr_options f)
    match fr_l4 f with
    | Tcp sp dp sa d l tail => Tcp sp dp sa d l (tail ++ rest)
    | Udp sp dp tail => Udp sp dp (tail ++ rest)
    | Icmp ty co tail => Icmp ty co (tail ++ rest)
    end.

Lemma tagged_app tags ip rest : tagged tags (ip ++ rest) = tagged tags ip ++ rest.
Proof. induction tags as [|t tags IH]; [done|]. cbn. by rewrite IH. Qed.

Lemma encode_pad rest f : encode (pad rest f) = encode f ++ rest.
Proof.
  unfold encode, pad, ip_bytes. cbn [fr_dst fr_src fr_tags fr_tos fr_total fr_mid fr_cksum fr_sip
    fr_dip fr_options fr_l4]. rewrite <-!app_assoc, <-tagged_app. do 3 f_equal. unfold fr_ihl. cbn [fr_options].
  rewrite <-!app_assoc. destruct (fr_l4 f); cbn [l4_proto l4_bytes]; by rewrite <-?app_assoc.
Qed.

Lemma frame_ok_pad rest f : frame_ok f → frame_ok (pad rest f).
Proof.
  unfold frame_ok, fr_ihl, pad. cbn. intros (H1 & H2 & H3 & H4 & H5 & H6 & H7 & H8 & H9 & H10 & H11).
  do 10 (split; [done|]). destruct (fr_l4 f); exact H11.
Qed.

Lemma flow_of_pad rest f n : flow_of (pad rest f) n = flow_of f n.
Proof. unfold flow_of, pad. cbn. by destruct (fr_l4 f). Qed.

Lemma obtain_session_none s s' : obtain_session s = Ok (false, s') → aux_session s = None.
Proof. unfold obtain_session. destruct (aux_session s); [|done]. by destruct (set_aux _ s). Qed.

(** [parsePacket] on a frame in a larger buffer, from the monitor's invariant and
    with a session to be had: the frame's flow is entered. *)
Lemma parsePacket_frame M f rest h s g hs :
  proc_inv M s g hs → frame_ok f → l4_offset f < caplen h →
  (length (cache_flows (cache_of s g)) + length hs + 2 ≤ M)%nat →
  ∃ s' g', parsePacket (encode f ++ rest) h s = Ok s' ∧ proc_inv M s' g' hs ∧
    cache_of s' g' = snd (cache_insert (last_packet_timestamp s) (flow_of f (len h)) (cache_of s g)) ∧
    g_heldn g' = g_heldn g ∧ (∀ y, y ∈ hs → sessions s' !! y = sessions s !! y) ∧
    unprocessed_flows s' = unprocessed_flows s ∧
    unprocessed_packets s' = unprocessed_packets s ∧
    count_pckts_malformed s' = count_pckts_malformed s.
Proof.
  intros H Hf Hcap Hroom. unfold parsePacket.
  destruct (obtain_session_spec M s g hs H) as
    (found & s1 & g1 & E1 & H1 & C1 & N1 & S1 & T1 & U1 & P1 & M1 & Hfound).
  rewrite E1. simpl. destruct found; last first.
  { destruct Hfound as [Ha Hs]. pose proof (obtain_session_none s s1 E1) as Hnone.
    pose proof (pi_sess _ _ _ _ H) as Hp. pose proof (pi_held _ _ _ _ H) as Hh.
    rewrite Hnone in Hh. cbn in Hh. rewrite Hh in Hp. unfold cache_flows in Hroom.
    rewrite length_app, cache_of_live, cache_of_dead in Hroom. lia. }
  destruct Hfound as (x & se & Hx & Hse & Hz). simpl.
  destruct (parse_body (pad rest f) h x se s1) as (se' & E & Hi); [by apply frame_ok_pad|done|done|done|].
  rewrite encode_pad, (hold_self x se s1 Hse) in E. rewrite E, flow_of_pad in *.
  destruct (proc_inv_write M s1 g1 hs x se' H1 Hx) as [H2 C2]. fold (hold x se' s1) in H2, C2.
  pose proof (insert_aux_spec M _ g1 hs x se' H2 Hx (hold_session x se' s1)) as Hins.
  rewrite Hi, C2, C1 in Hins. change (last_packet_timestamp (hold x se' s1)) with
    (last_packet_timestamp s1) in Hins. rewrite T1 in Hins.
  destruct (cache_insert _ _ _) as [fresh c].
  destruct Hins as (s' & g' & E' & H' & C' & _ & U' & P' & M' & _ & N' & S').
  exists s', g'. rewrite E'. split_and!; [done|done|done|congruence| |by rewrite U', <-U1|by rewrite P', <-P1|by rewrite M', <-M1].
  intros y Hy. rewrite S', <-S1 by done. by apply (proc_inv_other M s1 g1 hs x).
Qed.
