(* ===== verification/Export.v ===== *)
(** * export.c: the export thread

    The line printed for a flow, the export of one flow, the rotation of the
    output file, and the thread as a program counter that moves one mutex
    section at a time, so that it can be interleaved with the process thread. *)

From S2P Require Import Prelude Log NodeList Rings FlowData Pools NodePool SessionPool FlowTable.
From stdpp Require Import pretty.
#[local] Open Scope Z_scope.

(** ** printf conversions *)

Definition hex_digit (d : Z) : string :=
  default "?" (["0"; "1"; "2"; "3"; "4"; "5"; "6"; "7"; "8"; "9"; "A"; "B"; "C"; "D"; "E"; "F"]
               !! Z.to_nat d).

(** [%02X] of a byte. *)
Definition hex2 (b : Z) : string := hex_digit (b / 16) +:+ hex_digit (b mod 16).

(** [%06lu] *)
Definition pad6 (z : Z) : string :=
  (if z <? 10 then "00000" else if z <? 100 then "0000" else if z <? 1000 then "000"
   else if z <? 10000 then "00" else if z <? 100000 then "0" else "") +:+ pretty z.

(** [((uint8_t * )&field)[i]] on a little-endian host. *)
Definition octet (i : Z) (field : Z) : Z := Z.land (Z.shiftr field (8 * i)) 0xFF.

Definition dotted (ip : Z) : string :=
  pretty (octet 3 ip) +:+ "." +:+ pretty (octet 2 ip) +:+ "." +:+
  pretty (octet 1 ip) +:+ "." +:+ pretty (octet 0 ip).

Definition mac_text (m : Z) : string :=
  hex2 (octet 0 m) +:+ ":" +:+ hex2 (octet 1 m) +:+ ":" +:+ hex2 (octet 2 m) +:+ ":" +:+
  hex2 (octet 3 m) +:+ ":" +:+ hex2 (octet 4 m) +:+ ":" +:+ hex2 (octet 5 m).

Definition time_text (us : Z) : string :=
  pretty (us / US_IN_SEC) +:+ "." +:+ pad6 (us mod US_IN_SEC).

Definition duration_of (se : IPSession) : Z :=
  u64 (lastpacket_timestamp se / US_IN_SEC - firstpacket_timestamp se / US_IN_SEC + 1).

(** The line [printTupleFileText] writes, up to its newline. *)
Definition flow_line (se : IPSession) : string :=
  let f := incoming se in
  dotted (source_ip f) +:+ " " +:+ dotted (destination_ip f) +:+ " " +:+
  mac_text (source_mac f) +:+ " " +:+ mac_text (destination_mac f) +:+ " " +:+
  "p" +:+ pretty (transport_protocol f) +:+ " " +:+
  pretty (source_port f) +:+ " " +:+ pretty (destination_port f) +:+ " " +:+
  pretty (npack f) +:+ " " +:+ pretty (nbytes f) +:+ " " +:+
  time_text (firstpacket_timestamp se) +:+ " " +:+ time_text (lastpacket_timestamp se) +:+ " " +:+
  pretty (duration_of se) +:+ " ".

(** ** The state of the thread *)

(** Where the thread stands between two mutex sections. *)
Inductive xpc :=
  | XLoop                       (** at the head of [while(!stop_et)] *)
  | XExport (n : loc)           (** a node in hand, to be exported *)
  | XRelease (n x : loc)        (** printed; its session is to be released *)
  | XReleaseNode (n : loc)      (** its node is to be released *)
  | XRotate                     (** at the file rotation that ends the iteration *)
  | XDone.

#[global] Instance xpc_eq_dec : EqDecision xpc.
Proof. solve_decision. Defined.

Record xstate := XState {
  x_pc : xpc;
  flow_file_txt : string;                 (** the open file *)
  x_written : list (string * IPSession);  (** file and session of each line, newest first *)
  prev_second : Z;                        (** int32_t *)
  current_second : Z;                     (** uint64_t *)
  flows_total : Z;                        (** uint64_t *)
  flag_vacia : Z                          (** uint8_t *)
}.

Definition with_pc (pc : xpc) (x : xstate) : xstate :=
  XState pc (flow_file_txt x) (x_written x) (prev_second x) (current_second x) (flows_total x)
    (flag_vacia x).
Definition with_flag (v : Z) (x : xstate) : xstate :=
  XState (x_pc x) (flow_file_txt x) (x_written x) (prev_second x) (current_second x) (flows_total x) v.
Definition with_written (w : list (string * IPSession)) (x : xstate) : xstate :=
  XState (x_pc x) (flow_file_txt x) w (prev_second x) (current_second x) (flows_total x) (flag_vacia x).
Definition with_total (n : Z) (x : xstate) : xstate :=
  XState (x_pc x) (flow_file_txt x) (x_written x) (prev_second x) (current_second x) n (flag_vacia x).
Definition with_seconds (file : string) (p c : Z) (x : xstate) : xstate :=
  XState (x_pc x) file (x_written x) p c (flows_total x) (flag_vacia x).

(** ** The export of one flow *)

(** [list_pop_first_node(&expired_flow_list)] *)
Definition pop_expired (s : fstate) : res (option loc * fstate) :=
  '(h, e, n) ← list_pop_first_node (nodes s) (expired_flow_list s);
  Ok (n, with_heads (active_flow_list s) e (flags_expired_flow_list s) (with_nodes h s)).

(** The session of node [n] is stamped and printed. *)
Definition export_data (s : fstate) (x : xstate) (n : loc) : res (fstate * xstate * option loc) :=
  nd ← load (nodes s) (Some n);
  current_session ← as_session (data nd);
  ss ← sstore (sessions s) current_session (with_exportation (last_packet_timestamp s));
  let s := with_sessions ss s in
  se ← sload (sessions s) current_session;
  Ok (s, with_written ((flow_file_txt x, se) :: x_written x) x, current_session).

Definition release_session (s : fstate) (y : option loc) : res fstate :=
  '(h, ss, p) ← releaseIPSession (nodes s) (sessions s) (ip_session s) y;
  Ok (with_pool h ss p (log s) s).

Definition release_node (s : fstate) (x : xstate) (n : loc) : res (fstate * xstate) :=
  '(h, p) ← releaseNodel (nodes s) (nodel s) (Some n);
  Ok (with_nodel h p s, with_total (u64 (flows_total x + 1)) x).

(** ** File rotation *)

Definition FLOW_FILE_DUR : Z := 1800.

(** [sprintf(filename, "%s/flows%.10s_%lu.txt", FLOWS_DIR, BONDING_NAME, ...)] *)
Definition flow_file_name (second offset_tz : Z) : string :=
  "./output//flowstest_" +:+
  pretty (u64 (second / FLOW_FILE_DUR * FLOW_FILE_DUR - offset_tz)) +:+ ".txt".

Section thread.
(** The time zone of the host, and whether a file can be opened. *)
Context (offset_tz : Z) (fopen_ok : string → bool).

(** The end of the iteration: the file changes with the half hour. *)
Definition rotate (s : fstate) (x : xstate) : res (fstate * xstate) :=
  let now := last_packet_timestamp s in
  let cs := u64 (now / US_IN_SEC + offset_tz) in
  let ps := prev_second x in
  if negb (now =? 0) && (u64 ps <? cs) then
    if u64 (Z.quot ps FLOW_FILE_DUR) <? cs / FLOW_FILE_DUR then
      let name := flow_file_name cs offset_tz in
      lg ← logInfoVar (log s) ("Abriendo fichero de flujos:" +:+ name);
      if fopen_ok name
      then Ok (with_pool (nodes s) (sessions s) (ip_session s) lg s, with_seconds name (s32 cs) cs x)
      else Err (ExitProgram (-1))
    else Ok (s, with_seconds (flow_file_txt x) (s32 cs) cs x)
  else Ok (s, with_seconds (flow_file_txt x) ps cs x).

(** ** The loop after [stop_et]: the whole expired list, under the mutex *)

Fixpoint drain (fuel : nat) (s : fstate) (x : xstate) : res (fstate * xstate) :=
  match expired_flow_list s, fuel with
  | None, _ => Ok (s, x)
  | Some _, O => Err OutOfFuel
  | Some _, S fuel =>
      let x := if flag_vacia x =? 1 then with_flag 0 x else x in
      '(n, s) ← pop_expired s;
      n ← or_fault n NullDeref;
      '(s, x, y) ← export_data s x n;
      s ← release_session s y;
      '(s, x) ← release_node s x n;
      drain fuel s x
  end.

(** ** One step of the thread *)

Definition export_step (stop_et : bool) (s : fstate) (x : xstate) : res (fstate * xstate) :=
  match x_pc x with
  | XLoop =>
      if stop_et then
        '(s, x) ← drain (S (size (nodes s))) s x;
        lg ← logInfo (log s) "Export thread finished";
        Ok (with_pool (nodes s) (sessions s) (ip_session s) lg s, with_pc XDone x)
      else
        match expired_flow_list s with
        | Some _ =>
            let x := if flag_vacia x =? 1 then with_flag 0 x else x in
            '(n, s) ← pop_expired s;
            n ← or_fault n NullDeref;
            Ok (s, with_pc (XExport n) x)
        | None => Ok (s, with_pc XRotate (with_flag 1 x))
        end
  | XExport n =>
      '(s, x, y) ← export_data s x n;
      y ← or_fault y NullDeref;
      Ok (s, with_pc (XRelease n y) x)
  | XRelease n y =>
      s ← release_session s (Some y);
      Ok (s, with_pc (XReleaseNode n) x)
  | XReleaseNode n =>
      '(s, x) ← release_node s x n;
      Ok (s, with_pc XRotate x)
  | XRotate =>
      '(s, x) ← rotate s x;
      Ok (s, with_pc XLoop x)
  | XDone => Ok (s, x)
  end.

(** The start of the thread: the first output file. *)
Definition export_start (s : fstate) (tv_sec : Z) : res (fstate * xstate) :=
  let name := "./output//flowstest_" +:+
    pretty (u64 (Z.quot (s32 (s32 tv_sec + offset_tz)) FLOW_FILE_DUR * FLOW_FILE_DUR - offset_tz))
    +:+ ".txt" in
  lg ← logInfoVar (log s) ("Abriendo fichero de flujos:" +:+ name);
  if fopen_ok name then
    Ok (with_pool (nodes s) (sessions s) (ip_session s) lg s,
        XState XLoop name [] 0 (last_packet_timestamp s / US_IN_SEC) 0 0)
  else
    lg ← logError lg "Apertura fichero de flujos";
    Err (ExitProgram (-1)).
End thread.
