(* ===== verification/Blocks.v ===== *)
(** * The blocks of the pools stay allocated

    Between the start and the shutdown no function of the flow monitor calls
    malloc or free: whatever they do, the same nodes and sessions are allocated
    and the pools keep the addresses of their arrays.  One lemma per function, by
    following its returns. *)

From S2P Require Import Prelude Log NodeList Rings FlowData Pools NodePool SessionPool.
From S2P Require Import FlowTable Packet Monitor Export.

(** ** The node heap *)

Definition same_dom (h h' : heap) : Prop := dom h' = dom h.

Lemma store_dom h p f h' : store h p f = Ok h' → same_dom h h'.
Proof.
  unfold store. intros H. res_inv. unfold same_dom. apply dom_insert_lookup_L.
  unfold or_fault in *. repeat case_match; simplify_eq; eauto.
Qed.

Lemma set_if_dom h p v h' :
  (set_next_if h p v = Ok h' → same_dom h h') ∧ (set_prev_if h p v = Ok h' → same_dom h h').
Proof.
  unfold set_next_if, set_prev_if. split; (destruct p; [apply store_dom|by intros [= ->]]).
Qed.

(** What is known of the heaps that the calls in the context left. *)
Ltac heap_facts :=
  repeat match goal with
  | H : store _ _ _ = Ok _ |- _ => apply store_dom in H
  | H : set_prev _ _ _ = Ok _ |- _ => apply store_dom in H
  | H : set_next _ _ _ = Ok _ |- _ => apply store_dom in H
  | H : set_data _ _ _ = Ok _ |- _ => apply store_dom in H
  | H : set_next_if _ _ _ = Ok _ |- _ => apply set_if_dom in H
  | H : set_prev_if _ _ _ = Ok _ |- _ => apply set_if_dom in H
  end.
Ltac by_heap := res_inv; heap_facts; unfold same_dom in *; congruence.

Lemma prepend_dom h l n h' l' : list_prepend_node h l n = Ok (h', l') → same_dom h h'.
Proof. unfold list_prepend_node. intros H. by_heap. Qed.

Lemma append_dom h l n h' l' : list_append_node h l n = Ok (h', l') → same_dom h h'.
Proof. unfold list_append_node. intros H. res_inv. by eapply prepend_dom. Qed.

Lemma unlink_dom h l n h' l' : list_unlink h l n = Ok (h', l') → same_dom h h'.
Proof. unfold list_unlink. intros H. by_heap. Qed.

Lemma pop_dom h l h' l' n : list_pop_first_node h l = Ok (h', l', n) → same_dom h h'.
Proof. unfold list_pop_first_node. intros H. res_inv; [by eapply unlink_dom|done]. Qed.

Ltac list_facts :=
  heap_facts;
  repeat match goal with
  | H : list_prepend_node _ _ _ = Ok _ |- _ => apply prepend_dom in H
  | H : list_append_node _ _ _ = Ok _ |- _ => apply append_dom in H
  | H : list_unlink _ _ _ = Ok _ |- _ => apply unlink_dom in H
  | H : list_pop_first_node _ _ = Ok _ |- _ => apply pop_dom in H
  end.

(** ** The pools *)

Lemma take_nodel_same h p r h' p' : take_nodel h p = Ok (r, h', p') → same_dom h h' ∧ same_array p p'.
Proof. unfold take_nodel, getNodel. intros H. res_inv; list_facts; unfold same_dom in *; split; (done || congruence). Qed.

Lemma releaseNodel_same h p f h' p' : releaseNodel h p f = Ok (h', p') → same_dom h h' ∧ same_array p p'.
Proof. unfold releaseNodel. intros H. res_inv; list_facts; unfold same_dom in *; split; (done || congruence). Qed.

Lemma take_session_same h p r h' p' : take_session h p = Ok (r, h', p') → same_dom h h' ∧ ips p' = ips p.
Proof. unfold take_session. intros H. res_inv; list_facts; unfold same_dom in *; split; (done || congruence). Qed.

Lemma getIPSession_same h p lg r h' p' lg' :
  getIPSession h p lg = Ok (r, h', p', lg') → same_dom h h' ∧ ips p' = ips p.
Proof. unfold getIPSession. intros H. res_inv; by eapply take_session_same. Qed.

Lemma sstore_dom ss p f ss' : sstore ss p f = Ok ss' → dom ss' = dom ss.
Proof.
  unfold sstore. intros H. res_inv. apply dom_insert_lookup_L.
  unfold or_fault in *. repeat case_match; simplify_eq; eauto.
Qed.

Lemma releaseIPSession_same h ss p f h' ss' p' :
  releaseIPSession h ss p f = Ok (h', ss', p') → same_dom h h' ∧ dom ss' = dom ss ∧ ips p' = ips p.
Proof.
  unfold releaseIPSession, put_session. intros H.
  res_inv; list_facts; unfold same_dom in *; split_and!; first [by eapply sstore_dom|done|congruence].
Qed.

(** ** The state of the monitor *)

(** What is allocated, and the arrays of the pools. *)
Definition blocks (s : fstate) : gset loc * gset loc * option loc * Z * option loc :=
  (dom (nodes s), dom (sessions s), nl (nodel s), total_nodes (nodel s), ips (ip_session s)).

Ltac block_facts :=
  list_facts;
  repeat match goal with
  | H : take_nodel _ _ = Ok _ |- _ => apply take_nodel_same in H as [? []]
  | H : releaseNodel _ _ _ = Ok _ |- _ => apply releaseNodel_same in H as [? []]
  | H : getIPSession _ _ _ = Ok _ |- _ => apply getIPSession_same in H as [? ?]
  | H : releaseIPSession _ _ _ _ = Ok _ |- _ => apply releaseIPSession_same in H as (? & ? & ?)
  | H : sstore _ _ _ = Ok _ |- _ => apply sstore_dom in H
  end.
(** The fields are the same or were shown to be. *)
Ltac by_blocks := res_inv; block_facts; unfold same_dom, blocks in *; cbn in *; congruence.

Lemma insertFlowTable_blocks s aux i r s' : insertFlowTable s aux i = Ok (r, s') → blocks s' = blocks s.
Proof. unfold insertFlowTable, pool_empty. intros H. by_blocks. Qed.

Lemma updateFlowTable_blocks s cs f s' : updateFlowTable s cs f = Ok s' → blocks s' = blocks s.
Proof. unfold updateFlowTable. intros H. by_blocks. Qed.

Lemma insertFlow_blocks s aux r s' : insertFlow s aux = Ok (r, s') → blocks s' = blocks s.
Proof.
  unfold insertFlow. intros H. res_inv;
    repeat match goal with
    | H : insertFlowTable _ _ _ = Ok _ |- _ => by apply insertFlowTable_blocks in H
    | H : updateFlowTable _ _ _ = Ok _ |- _ => by apply updateFlowTable_blocks in H
    end.
Qed.

Lemma leave_table_blocks s n s' : leave_table s n = Ok s' → blocks s' = blocks s.
Proof. unfold leave_table. intros H. by_blocks. Qed.

Lemma expire_active_blocks fuel s n s' : expire_active fuel s n = Ok s' → blocks s' = blocks s.
Proof.
  revert s n. induction fuel as [|fuel IH]; intros s n H; cbn [expire_active] in H; res_inv; try done.
  apply IH in H. rewrite H.
  match goal with H : leave_table _ _ = Ok _ |- _ => apply leave_table_blocks in H as <- end. by_blocks.
Qed.

Lemma expire_flags_blocks fuel s n s' : expire_flags fuel s n = Ok s' → blocks s' = blocks s.
Proof.
  revert s n. induction fuel as [|fuel IH]; intros s n H; cbn [expire_flags] in H; res_inv; try done.
  apply IH in H. rewrite H. by match goal with H : leave_table _ _ = Ok _ |- _ => apply leave_table_blocks in H end.
Qed.

Lemma cleanup_flows_blocks s s' : cleanup_flows s = Ok s' → blocks s' = blocks s.
Proof.
  unfold cleanup_flows, splice_expired. intros H. res_inv;
  match goal with H1 : expire_active _ _ _ = Ok _, H2 : expire_flags _ _ _ = Ok _ |- _ =>
    apply expire_active_blocks in H1; rewrite <-H1; apply expire_flags_blocks in H2; rewrite <-H2 end; by_blocks.
Qed.

(** ** The parser, the clock and the export thread *)

Lemma set_session_blocks f s s' : set_session f s = Ok s' → blocks s' = blocks s.
Proof. unfold set_session. intros H. by_blocks. Qed.

Lemma set_aux_blocks f s s' : set_aux f s = Ok s' → blocks s' = blocks s.
Proof. apply set_session_blocks. Qed.

Lemma insert_aux_blocks s s' : insert_aux s = Ok s' → blocks s' = blocks s.
Proof. unfold insert_aux. intros H. res_inv. by match goal with E : insertFlow _ _ = Ok _ |- _ => apply insertFlow_blocks in E end. Qed.

Ltac aux_facts :=
  repeat match goal with
  | H : set_session _ _ = Ok _ |- _ => apply set_session_blocks in H
  | H : set_aux _ _ = Ok _ |- _ => apply set_aux_blocks in H
  | H : insert_aux _ = Ok _ |- _ => apply insert_aux_blocks in H
  end.
Ltac by_aux := res_inv; aux_facts; unfold blocks in *; cbn in *; congruence.

Lemma processL4Flow_blocks buf bp il hl s s' : processL4Flow buf bp il hl s = Ok s' → blocks s' = blocks s.
Proof. unfold processL4Flow. intros H. by_aux. Qed.

Lemma begin_l4_blocks h p s s' : begin_l4 h p s = Ok s' → blocks s' = blocks s.
Proof. unfold begin_l4. intros H. by_aux. Qed.

Lemma parse_loop_blocks fuel buf h bp e il hl s s' :
  parse_loop fuel buf h bp e il hl s = Ok s' → blocks s' = blocks s.
Proof.
  revert bp e il hl s. induction fuel as [|fuel IH]; intros bp e il hl s H; cbn [parse_loop] in H; [done|].
  res_inv; try done;
    repeat match goal with
    | H : parse_loop _ _ _ _ _ _ _ _ = Ok _ |- _ => apply IH in H
    | H : processL4Flow _ _ _ _ _ = Ok _ |- _ => apply processL4Flow_blocks in H
    | H : begin_l4 _ _ _ = Ok _ |- _ => apply begin_l4_blocks in H
    end; by_aux.
Qed.

Lemma parsePacket_blocks buf h s s' : parsePacket buf h s = Ok s' → blocks s' = blocks s.
Proof.
  unfold parsePacket, obtain_session, parse_ethernet. intros H.
  res_inv; block_facts; try (apply parse_loop_blocks in H); aux_facts; unfold same_dom, blocks in *; cbn in *; congruence.
Qed.

Lemma process_packet_blocks buf h d d' : process_packet buf h d = Ok d' → blocks (flows d') = blocks (flows d).
Proof.
  unfold process_packet, clock_step, perSecOps. intros H.
  res_inv; repeat match goal with
  | H : parsePacket _ _ _ = Ok _ |- _ => apply parsePacket_blocks in H
  | H : cleanup_flows _ = Ok _ |- _ => apply cleanup_flows_blocks in H
  end; unfold initData, blocks in *; cbn in *; repeat case_match; cbn in *; congruence.
Qed.

Lemma export_data_blocks s x n s' x' y : export_data s x n = Ok (s', x', y) → blocks s' = blocks s.
Proof. unfold export_data. intros H. by_blocks. Qed.

Lemma release_session_blocks s y s' : release_session s y = Ok s' → blocks s' = blocks s.
Proof. unfold release_session. intros H. by_blocks. Qed.

Lemma release_node_blocks s x n s' x' : release_node s x n = Ok (s', x') → blocks s' = blocks s.
Proof. unfold release_node. intros H. by_blocks. Qed.

Lemma pop_expired_blocks s n s' : pop_expired s = Ok (n, s') → blocks s' = blocks s.
Proof. unfold pop_expired. intros H. by_blocks. Qed.

Ltac export_facts :=
  repeat match goal with
  | H : export_data _ _ _ = Ok _ |- _ => apply export_data_blocks in H
  | H : release_session _ _ = Ok _ |- _ => apply release_session_blocks in H
  | H : release_node _ _ _ = Ok _ |- _ => apply release_node_blocks in H
  | H : pop_expired _ = Ok _ |- _ => apply pop_expired_blocks in H
  end.

Lemma drain_blocks fuel s x s' x' : drain fuel s x = Ok (s', x') → blocks s' = blocks s.
Proof.
  revert s x. induction fuel as [|fuel IH]; intros s x H; cbn [drain] in H; res_inv; try done;
    apply IH in H; export_facts; congruence.
Qed.

Lemma export_step_blocks off fo stop s x s' x' :
  export_step off fo stop s x = Ok (s', x') → blocks s' = blocks s.
Proof.
  unfold export_step, rotate. intros H. res_inv; export_facts;
    try match goal with H : drain _ _ _ = Ok _ |- _ => apply drain_blocks in H end;
    unfold blocks in *; cbn in *; congruence.
Qed.

(** The arrays of [N] nodes and [M] sessions are allocated. *)
Definition blocks_ok (N M : nat) (s : fstate) : Prop :=
  ∃ b bs, nl (nodel s) = Some b ∧ ips (ip_session s) = Some bs ∧ total_nodes (nodel s) = u64 (Z.of_nat N) ∧
    (∀ x, x ∈ array_locs b N → is_Some (nodes s !! x)) ∧
    (∀ x, x ∈ array_locs bs M → is_Some (sessions s !! x)).

Lemma blocks_ok_same N M s s' : blocks s' = blocks s → blocks_ok N M s → blocks_ok N M s'.
Proof.
  unfold blocks. intros H (b & bs & Hb & Hbs & Ht & Hn & Hs). injection H as Hdn Hds Enl Et Eip.
  exists b, bs. split_and!; [congruence..| |]; intros x Hx; apply elem_of_dom; rewrite ?Hdn, ?Hds; apply elem_of_dom;
    eauto.
Qed.
