(* ===== verification/System.v ===== *)
(** * The two threads together

    The process thread and the export thread as one transition system: a step
    is a whole packet of the process thread or one mutex section of the export
    thread, in any order.  The invariant [sys_inv] holds the two together; no
    step faults from a state that satisfies it. *)

From S2P Require Import Prelude Log NodeList Rings FlowData Pools NodePool SessionPool.
From S2P Require Import FlowCore FlowTable FlowInv FlowInsert FlowExpire Packet Monitor ProcessInv.
From S2P Require Import PacketSpec Export.

(** ** What the export thread holds *)

Definition pc_held (pc : xpc) (heldn : list (loc * loc)) (hs : list loc) : Prop :=
  match pc with
  | XExport n => ∃ y, heldn = [(n, y)] ∧ hs = [y]
  | XRelease n y => heldn = [(n, y)] ∧ hs = [y]
  | XReleaseNode n => ∃ y, heldn = [(n, y)] ∧ hs = []
  | _ => heldn = [] ∧ hs = []
  end.

(** The flow that was popped and is not printed yet. *)
Definition in_flight (s : fstate) (pc : xpc) (hs : list loc) : list aflow :=
  match pc with XExport _ => view (sessions s) <$> hs | _ => [] end.

Definition aflow_of (se : IPSession) : aflow :=
  AFlow (incoming se) (firstpacket_timestamp se) (lastpacket_timestamp se).

(** The flows printed so far, oldest first. *)
Definition printed (x : xstate) : list aflow := rev ((λ w, aflow_of w.2) <$> x_written x).

(** All flows that left the active list, in order: printed, in flight, waiting. *)
Definition departed (s : fstate) (g : ghost) (x : xstate) (hs : list loc) : list aflow :=
  printed x ++ in_flight s (x_pc x) hs ++ c_dead (cache_of s g).

(** ** The steps of the export thread *)

Lemma core_pop h p q σ av avs out r x l :
  core h p q σ av avs out → r ∉ pool_rings → σ r = x :: l →
  ∃ h', list_pop_first_node h (head (σ r)) = Ok (h', head l, Some x) ∧
    core h' p q (<[r := l]> σ) av avs (x :: out) ∧ same_data h h'.
Proof.
  intros Hc Hr Hl. destruct (core_unlink h p q σ av avs out r [] x l Hc Hr Hl) as (h' & E & Hc' & Hd).
  exists h'. split; [|done]. rewrite Hl in *. unfold list_pop_first_node, list_get_first_node.
  simpl in *. by rewrite E.
Qed.

Definition ghost_pop (g : ghost) (d : loc * loc) (dead : list (loc * loc)) (hs : list loc) : ghost :=
  Ghost (<[Expired := fst <$> dead]> (g_rings g)) (g_nodes g) (g_sess g) (g_live g) (g_buckets g)
    (g_flags g) dead (d :: g_heldn g) hs.

Lemma pop_inv s g d dead hs h :
  flow_inv s g → g_dead g = d :: dead → hs ≡ₚ d.2 :: g_helds g →
  let g' := ghost_pop g d dead hs in
  core h (nodel s) (ip_session s) (g_rings g') (g_nodes g) (g_sess g) (g_outn g') →
  same_data (nodes s) h →
  flow_inv (with_heads (active_flow_list s) (head (fst <$> dead)) (flags_expired_flow_list s)
              (with_nodes h s)) g'.
Proof.
  intros Hinv Hdead Hhs g' Hc Hd.
  assert (∀ r, r ≠ Expired → g_rings g' r = g_rings g r) as Hr.
  { intros r Hr. cbn. by rewrite fn_lookup_insert_ne. }
  assert (g_rings g' Expired = fst <$> dead) as He by (apply fn_lookup_insert).
  assert (all_sessions g' ≡ₚ all_sessions g) as Hp.
  { unfold all_sessions. cbn. rewrite Hhs, Hdead, fmap_cons. solve_Permutation. }
  assert (length (g_dead g) = S (length dead)) as Hlen by (by rewrite Hdead).
  split; cbn [nodes nodel ip_session with_heads with_nodes active_flow_list expired_flow_list
    flags_expired_flow_list flow_table sessions]; rewrite ?He, ?Hr by done; try done.
  - apply (fi_head_active s g Hinv).
  - apply (fi_head_flags s g Hinv).
  - intros i Hi. rewrite Hr by done. by apply (fi_slots s g Hinv).
  - apply (fi_active s g Hinv).
  - apply (fi_flags s g Hinv).
  - intros i. rewrite Hr by done. apply (fi_bucket s g Hinv).
  - intros e Hel. eapply entry_ok_ext, (fi_live s g Hinv e Hel); [apply Hd|apply Hd|done].
  - intros z Hz. rewrite Hd. apply (fi_waiting s g Hinv). cbn in Hz. rewrite Hdead. set_solver.
  - intros z. cbn. intros [->|Hz]%elem_of_cons; rewrite Hd.
    + apply (fi_waiting s g Hinv). rewrite Hdead. set_solver.
    + by apply (fi_held s g Hinv).
  - apply (fi_bucket_live s g Hinv).
  - apply (fi_order s g Hinv).
  - rewrite Hp. apply (fi_sessions s g Hinv).
  - intros z Hz. apply (fi_alloc s g Hinv). by rewrite <-Hp.
  - rewrite (fi_used_nodes s g Hinv). cbn. rewrite Hlen. lia.
  - rewrite (fi_used_sessions s g Hinv). cbn. rewrite Hlen, (Permutation_length Hhs). cbn. lia.
Qed.

#[local] Arguments list_pop_first_node : simpl never.

Lemma pop_expired_spec M s g d dead :
  proc_inv M s g [] → g_heldn g = [] → g_dead g = d :: dead →
  ∃ s' g', pop_expired s = Ok (Some d.1, s') ∧ proc_inv M s' g' [d.2] ∧ g_heldn g' = [d] ∧
    c_live (cache_of s' g') = c_live (cache_of s g) ∧
    c_dead (cache_of s g) = view (sessions s') d.2 :: c_dead (cache_of s' g') ∧
    same_rest s s' ∧ unprocessed_flows s' = unprocessed_flows s ∧ expired_flow_list s ≠ None.
Proof.
  intros H Hn Hdead. pose proof (pi_inv _ _ _ _ H) as Hinv. pose proof (fi_core s g Hinv) as Hc.
  assert (g_rings g Expired = d.1 :: (fst <$> dead)) as Hre by (by rewrite (fi_expired s g Hinv), Hdead).
  destruct (core_pop _ _ _ _ _ _ _ Expired _ _ Hc ltac:(unfold pool_rings; set_solver) Hre)
    as (h & E & Hc' & Hd).
  unfold pop_expired. rewrite (fi_head_expired s g Hinv), E. simpl.
  eexists _, (ghost_pop g d dead (option_list (aux_session s) ++ [d.2])).
  split; [reflexivity|].
  assert (option_list (aux_session s) ++ [d.2] ≡ₚ d.2 :: g_helds g) as Hhs.
  { rewrite (pi_held _ _ _ _ H), app_nil_r. solve_Permutation. }
  assert (all : flow_inv (with_heads (active_flow_list s) (head (fst <$> dead))
            (flags_expired_flow_list s) (with_nodes h s))
            (ghost_pop g d dead (option_list (aux_session s) ++ [d.2]))).
  { by eapply pop_inv. }
  split_and!; try done.
  - destruct H. split; try done; cbn.
    + rewrite Hn. cbn. lia.
    + rewrite Hdead in pi_nodes. rewrite Hn in *. cbn in *. lia.
    + rewrite Hdead in pi_sess. rewrite (Permutation_length Hhs). cbn in *. lia.
  - cbn. by rewrite Hn.
  - unfold cache_of. cbn. by rewrite Hdead.
  - rewrite Hre. done.
Qed.

#[local] Arguments load : simpl never.

Lemma export_data_spec M s g hs x n y :
  proc_inv M s g hs → (n, y) ∈ g_heldn g → y ∈ g_helds g →
  ∃ s' se, export_data s x n = Ok (s', with_written ((flow_file_txt x, se) :: x_written x) x, Some y) ∧
    proc_inv M s' g hs ∧ cache_of s' g = cache_of s g ∧ aflow_of se = view (sessions s) y ∧
    same_rest s s' ∧ unprocessed_flows s' = unprocessed_flows s ∧
    exportation_timestamp se = last_packet_timestamp s.
Proof.
  intros H Hn Hy. pose proof (pi_inv _ _ _ _ H) as Hinv.
  pose proof (fi_held s g Hinv (n, y) Hn) as (nd & Hnd & Hdat)%data_of_load.
  simpl in Hnd, Hdat. unfold export_data. rewrite (load_Some _ _ _ Hnd). simpl. rewrite Hdat. simpl.
  assert (is_Some (sessions s !! y)) as [se Hse].
  { apply (fi_alloc s g Hinv). unfold all_sessions. rewrite elem_of_app. by left. }
  rewrite (sstore_Some _ _ _ _ Hse). simpl.
  rewrite (sload_Some _ _ _ (lookup_insert_eq _ _ _)). simpl.
  destruct (proc_inv_write_held M s g hs y (with_exportation (last_packet_timestamp s) se) H Hy) as [H' Hca].
  eexists _, _. split; [reflexivity|]. split_and!; try done.
  unfold view. by rewrite (session_at_Some _ _ _ Hse).
Qed.

Lemma release_session_spec M s g y :
  proc_inv M s g [y] →
  ∃ s' g', release_session s (Some y) = Ok s' ∧ proc_inv M s' g' [] ∧ g_heldn g' = g_heldn g ∧
    cache_of s' g' = cache_of s g ∧ aux_session s' = aux_session s ∧ log s' = log s ∧
    last_packet_timestamp s' = last_packet_timestamp s ∧
    unprocessed_flows s' = unprocessed_flows s ∧ unprocessed_packets s' = unprocessed_packets s ∧
    count_pckts_malformed s' = count_pckts_malformed s.
Proof.
  intros H. pose proof (pi_inv _ _ _ _ H) as Hinv. pose proof (pi_held _ _ _ _ H) as Hh.
  pose proof (fi_core s g Hinv) as Hc. pose proof (flow_inv_nodup s g Hinv) as Hnd.
  pose proof (fi_alloc s g Hinv) as Hal. unfold all_sessions in Hal. fold (flow_sessions g) in Hal.
  assert (y ∈ g_helds g) as Hy by (rewrite Hh; set_solver).
  destruct (Hal y) as [se Hse]; [set_solver|].
  unfold release_session, releaseIPSession. rewrite (sstore_Some _ _ _ _ Hse). simpl.
  destruct (core_put_session _ _ _ _ _ _ y _ Hc) as (h' & q' & σ' & E & Hc' & Hd & Hσ & Hlen).
  { intros Hnil. pose proof (fi_used_sessions s g Hinv) as Hu. rewrite Hnil, Hh, length_app in Hu.
    cbn in Hu. lia. }
  rewrite E. simpl. set (ss := <[y := with_incoming zero_flow se]> (sessions s)).
  set (g' := with_pools σ' (g_nodes g) (g_sess g ++ [y]) (g_heldn g) (option_list (aux_session s)) g).
  eexists _, g'. split; [reflexivity|].
  assert (∀ z, z ∈ flow_sessions g → ss !! z = sessions s !! z) as Hss.
  { intros z Hz. apply lookup_insert_ne. intros ->. by apply (held_not_flow s g z Hinv). }
  assert (option_list (aux_session s) ++ (g_sess g ++ [y]) ++ flow_sessions g
          ≡ₚ g_helds g ++ g_sess g ++ flow_sessions g) as Hperm.
  { rewrite Hh. solve_Permutation. }
  assert (∀ r z, z ∈ g_rings g r → r ≠ SessUsed → z ∉ g_rings g SessUsed) as Hout.
  { intros r z Hz Hr Hz2. destruct (core_rings _ _ _ _ _ _ _ Hc) as (_ & _ & C).
    apply Hr. by eapply C. }
  assert (flow_inv (with_pool h' ss q' (log s) s) g') as Hinv'.
  { eapply (flow_inv_pools s g); try done.
    - intros d Hdd. cbn. rewrite Hd; [by apply (fi_held s g Hinv)|].
      apply (loose_unchained s g Hinv). apply elem_of_app. left. by apply list_elem_of_fmap_2.
    - eapply changes_only_weaken, Hσ. unfold pool_rings. set_solver.
    - intros r z Hz Hr. cbn. apply Hd. eapply Hout; [done|]. intros ->. apply Hr.
      unfold pool_rings. set_solver.
    - by rewrite Hperm.
    - intros z Hz. cbn. apply lookup_insert_is_Some'. right. apply Hal. by rewrite <-Hperm.
    - rewrite (Hσ NodelUsed) by set_solver. done.
    - rewrite Hh, length_app. cbn. lia. }
  split_and!; try done; [|by apply cache_of_sessions].
  destruct H. split; try done; cbn.
  - by rewrite app_nil_r.
  - rewrite Hh, length_app in pi_sess. rewrite length_app. cbn in *. lia.
  - by destruct (g_sess g).
  - intros z [Hz| ->%list_elem_of_singleton]%elem_of_app.
    + unfold flow_at. cbn. unfold ss. rewrite session_at_insert_ne; [by apply pi_clean|].
      intros ->. by apply (held_not_free s g Hinv z).
    + unfold flow_at. cbn. unfold ss. by rewrite session_at_insert.
Qed.

Lemma release_node_spec M s g x d :
  proc_inv M s g [] → g_heldn g = [d] →
  ∃ s' g', release_node s x d.1 = Ok (s', with_total (u64 (flows_total x + 1)) x) ∧
    proc_inv M s' g' [] ∧ g_heldn g' = [] ∧ cache_of s' g' = cache_of s g ∧
    aux_session s' = aux_session s ∧ log s' = log s ∧
    last_packet_timestamp s' = last_packet_timestamp s ∧
    unprocessed_flows s' = unprocessed_flows s ∧ unprocessed_packets s' = unprocessed_packets s ∧
    count_pckts_malformed s' = count_pckts_malformed s.
Proof.
  intros H Hn. pose proof (pi_inv _ _ _ _ H) as Hinv. pose proof (fi_core s g Hinv) as Hc.
  assert (g_outn g = [d.1]) as Ho by (unfold g_outn; by rewrite Hn). rewrite Ho in Hc.
  unfold release_node. destruct (core_release _ _ _ _ _ _ _ _ Hc) as (h' & p' & σ' & E & Hc' & Hd & Hσ & Hlen).
  { intros Hnil. pose proof (fi_used_nodes s g Hinv) as Hu. rewrite Hnil, Hn in Hu. cbn in Hu. lia. }
  rewrite E. simpl.
  eexists _, (with_pools σ' (g_nodes g ++ [d.1]) (g_sess g) [] (g_helds g) g). split; [reflexivity|].
  assert (flow_inv (with_nodel h' p' s)
            (with_pools σ' (g_nodes g ++ [d.1]) (g_sess g) [] (g_helds g) g)) as Hinv'.
  { eapply (flow_inv_pools s g); try done.
    - by intros z Hz%elem_of_nil.
    - eapply changes_only_weaken, Hσ. unfold pool_rings. set_solver.
    - intros r z Hz Hr. cbn. apply Hd. eapply (chained_not_used s g Hinv); [done|].
      intros ->. apply Hr. unfold pool_rings. set_solver.
    - by apply (flow_inv_nodup s g).
    - by apply (fi_alloc s g Hinv).
    - rewrite Hn. cbn. lia.
    - rewrite (Hσ SessUsed) by set_solver. done. }
  split_and!; try done. destruct H. split; try done; cbn.
  - lia.
  - rewrite Hn in pi_nodes. rewrite length_app. cbn in *. lia.
Qed.

(** ** One step of the export thread *)

(** The counters the export thread leaves alone. *)
Definition same_counters (s s' : fstate) : Prop :=
  aux_session s' = aux_session s ∧ last_packet_timestamp s' = last_packet_timestamp s ∧
  unprocessed_flows s' = unprocessed_flows s ∧ unprocessed_packets s' = unprocessed_packets s ∧
  count_pckts_malformed s' = count_pckts_malformed s.

Lemma logInfo_ok lg m : log_ok lg → ∃ lg', logInfo lg m = Ok lg' ∧ log_ok lg'.
Proof.
  intros ([st Hst] & Hl & Hf). unfold logInfo, log_print. rewrite Hst. eexists. split; [done|].
  split_and!; [by exists st|done|done].
Qed.

Lemma logInfoVar_ok lg m : log_ok lg → ∃ lg', logInfoVar lg m = Ok lg' ∧ log_ok lg'.
Proof. apply logInfo_ok. Qed.

Lemma proc_inv_log M s g hs lg :
  proc_inv M s g hs → log_ok lg →
  proc_inv M (with_pool (nodes s) (sessions s) (ip_session s) lg s) g hs.
Proof. intros [[] ? ? ? ? ? ? ? ?] Hlg. by split. Qed.

Lemma rotate_spec M off fo s g hs x :
  proc_inv M s g hs → (∀ n, fo n = true) →
  ∃ s' x', rotate off fo s x = Ok (s', x') ∧ proc_inv M s' g hs ∧ cache_of s' g = cache_of s g ∧
    same_counters s s' ∧ x_written x' = x_written x ∧ x_pc x' = x_pc x.
Proof.
  intros H Hfo. unfold rotate. destruct (_ && _); [|eexists _, _; split; [reflexivity|done]].
  destruct (_ <? _); [|eexists _, _; split; [reflexivity|done]].
  destruct (logInfoVar_ok (log s) ("Abriendo fichero de flujos:" +:+
    flow_file_name (u64 (last_packet_timestamp s / US_IN_SEC + off)) off) (pi_log _ _ _ _ H))
    as (lg & E & Hlg).
  rewrite E. simpl. rewrite Hfo. eexists _, _. split; [reflexivity|].
  split_and!; try done. by apply proc_inv_log.
Qed.

#[local] Opaque cache_of.

(** With the output files always openable, a step of the running export thread
    never faults, keeps the invariant, and only moves flows along the queue. *)
Lemma export_step_spec M off fo s g hs x :
  proc_inv M s g hs → pc_held (x_pc x) (g_heldn g) hs → (∀ n, fo n = true) →
  ∃ s' x' g' hs', export_step off fo false s x = Ok (s', x') ∧ proc_inv M s' g' hs' ∧
    pc_held (x_pc x') (g_heldn g') hs' ∧ c_live (cache_of s' g') = c_live (cache_of s g) ∧
    departed s' g' x' hs' = departed s g x hs ∧ same_counters s s' ∧
    (length (c_dead (cache_of s' g')) ≤ length (c_dead (cache_of s g)))%nat ∧
    (length (c_dead (cache_of s' g')) + length hs' ≤ length (c_dead (cache_of s g)) + length hs)%nat.
Proof.
  intros H Hpc Hfo. unfold export_step, departed. destruct x as [pc file w ps cs tot fl]. cbn [x_pc] in *.
  destruct pc as [|n|n y|n| |]; cbn [pc_held] in Hpc.
  - (* the head of the loop *)
    destruct Hpc as [Hn ->]. destruct (g_dead g) as [|d dead] eqn:Hdead.
    + assert (expired_flow_list s = None) as ->.
      { by rewrite (fi_head_expired _ _ (pi_inv _ _ _ _ H)), (fi_expired _ _ (pi_inv _ _ _ _ H)), Hdead. }
      eexists _, _, g, []. split; [reflexivity|]. done.
    + destruct (pop_expired_spec M s g d dead H Hn Hdead) as
        (s' & g' & E & H' & Hn' & Hl & Hd & (R1 & R2 & R3 & R4 & R5 & R6) & Hu & He).
      destruct (expired_flow_list s) as [e|]; [|done]. cbn. rewrite E. simpl.
      eexists _, _, g', [d.2]. split; [reflexivity|]. split_and!; try done.
      * exists d.2. by rewrite Hn', <-surjective_pairing.
      * rewrite Hd. by destruct (fl =? 1).
      * rewrite Hd. cbn. lia.
      * rewrite Hd. cbn. lia.
  - (* a flow in hand *)
    destruct Hpc as (y & Hn & ->).
    destruct (export_data_spec M s g [y] (XState (XExport n) file w ps cs tot fl) n y H) as
      (s' & se & E & H' & Hca & Hse & (R1 & R2 & R3 & R4 & R5 & R6) & Hu & _).
    { rewrite Hn. left. }
    { rewrite (pi_held _ _ _ _ H). set_solver. }
    rewrite E. simpl. eexists _, _, g, [y]. split; [reflexivity|].
    split_and!; try done; [by rewrite Hca| |by rewrite Hca..].
    rewrite Hca. unfold printed. cbn. rewrite Hse, <-app_assoc. done.
  - (* its session goes back *)
    destruct Hpc as (Hn & ->).
    destruct (release_session_spec M s g y H) as (s' & g' & E & H' & Hn' & Hca & R).
    rewrite E. simpl. eexists _, _, g', []. split; [reflexivity|].
    destruct R as (R1 & _ & R2 & R3 & R4 & R5).
    split_and!; try done; try (by rewrite Hca); [|rewrite Hca; cbn; lia].
    exists y. by rewrite Hn', Hn.
  - (* its node goes back *)
    destruct Hpc as (y & Hn & ->).
    destruct (release_node_spec M s g (XState (XReleaseNode n) file w ps cs tot fl) (n, y) H Hn) as
      (s' & g' & E & H' & Hn' & Hca & R).
    cbn [fst] in E. rewrite E. simpl. eexists _, _, g', []. split; [reflexivity|].
    destruct R as (R1 & _ & R2 & R3 & R4 & R5).
    split_and!; try done; by rewrite Hca.
  - (* rotation *)
    destruct (rotate_spec M off fo s g hs (XState XRotate file w ps cs tot fl) H Hfo) as
      (s' & x' & E & H' & Hca & R & Hw & _).
    rewrite E. simpl. eexists _, _, g, hs. split; [reflexivity|].
    split_and!; try done; [by rewrite Hca| |by rewrite Hca..].
    rewrite Hca. unfold printed. cbn. by rewrite Hw.
  - eexists _, _, g, hs. split; [reflexivity|]. done.
Qed.

(** ** The loop after [stop_et] *)

#[local] Arguments pop_expired : simpl never.
#[local] Arguments export_data : simpl never.
#[local] Arguments release_session : simpl never.
#[local] Arguments release_node : simpl never.

(** The loop ends, prints every waiting flow in order, and returns all it took. *)
Lemma drain_spec M fuel s g x :
  proc_inv M s g [] → g_heldn g = [] → (length (g_dead g) ≤ fuel)%nat →
  ∃ s' x' g', drain fuel s x = Ok (s', x') ∧ proc_inv M s' g' [] ∧ g_heldn g' = [] ∧
    g_dead g' = [] ∧ c_live (cache_of s' g') = c_live (cache_of s g) ∧
    printed x' = printed x ++ c_dead (cache_of s g).
Proof.
  revert s g x. induction fuel as [|fuel IH]; intros s g x H Hn Hfuel.
  all: destruct (g_dead g) as [|d dead] eqn:Hdead; cbn in Hfuel; try lia.
  1, 2: assert (expired_flow_list s = None) as He by
      (by rewrite (fi_head_expired _ _ (pi_inv _ _ _ _ H)), (fi_expired _ _ (pi_inv _ _ _ _ H)), Hdead);
    exists s, x, g; cbn [drain]; rewrite He, cache_of_no_dead, app_nil_r by done;
    by split_and!.
  destruct (pop_expired_spec M s g d dead H Hn Hdead) as
    (s1 & g1 & E1 & H1 & N1 & L1 & D1 & R1 & _ & He).
  cbn [drain]. destruct (expired_flow_list s); [|done].
  rewrite E1. simpl. set (x1 := if flag_vacia x =? 1 then with_flag 0 x else x).
  destruct d as [n y]. cbn [fst snd] in *.
  destruct (export_data_spec M s1 g1 [y] x1 n y H1) as (s2 & se & E2 & H2 & C2 & V2 & R2 & _ & _).
  { rewrite N1. left. }
  { rewrite (pi_held _ _ _ _ H1). set_solver. }
  rewrite E2. simpl. destruct (release_session_spec M s2 g1 y H2) as (s3 & g3 & E3 & H3 & N3 & C3 & _).
  rewrite E3. simpl.
  destruct (release_node_spec M s3 g3 (with_written ((flow_file_txt x1, se) :: x_written x1) x1) (n, y))
    as (s4 & g4 & E4 & H4 & N4 & C4 & _); [done|by rewrite N3|].
  cbn [fst] in E4. rewrite E4. simpl.
  set (x4 := with_total _ _).
  destruct (IH s4 g4 x4 H4 N4) as (s' & x' & g' & E & H' & N' & D' & L' & P').
  { pose proof (f_equal length D1) as Hlen. cbn [length] in Hlen.
    rewrite <-C2, <-C3, <-C4, !cache_of_dead, Hdead in Hlen. cbn in Hlen. lia. }
  exists s', x', g'. rewrite E. split_and!; try done.
  - by rewrite L', C4, C3, C2.
  - rewrite P', D1, C4, C3, C2. unfold printed. cbn. rewrite V2, <-app_assoc. cbn. f_equal.
    unfold x1. by destruct (_ =? _).
Qed.
