(* ===== verification/Run.v ===== *)
(** * Runs of the monitor: start-up, packets and export in any order

    The start-up of dp.c's [main], the handler [process_packet], and sequences
    of packets and export steps, with the end-to-end statements: nothing faults,
    every accepted packet is counted in exactly one flow, and flows are printed
    once each in the order they left the active list. *)

From S2P Require Import Prelude Log NodeList Rings FlowData Pools NodePool SessionPool.
From S2P Require Import FlowCore FlowTable FlowInv FlowInsert FlowExpire Packet Monitor ProcessInv.
From S2P Require Import CacheLaws PacketSpec Export Blocks System.

(** ** Start-up *)

Definition logInfos (lg : logst) (ms : list string) : res logst :=
  foldl (λ r m, lg ← r; logInfo lg m) (Ok lg) ms.

(** [main] up to the creation of the threads, for pools of [N] nodes and [M] sessions
    (the code's [MAX_POOL_NODE] and [MAX_POOL_NODE/2]). *)
Definition reserve (N M mem : nat) (lg : logst) : res dpstate :=
  lg ← logInfos lg ["Configuracion alarmas leida"; "Reservando tabla de flujos";
                    "Reservando pool de memoria..."];
  '(h, ss, mem, q) ← allocIPSessionPool M ∅ ∅ mem init_spool;
  '(h, mem, p) ← allocNodelPool N h mem init_npool;
  lg ← logInfo lg "Pool de memoria reservado";
  Ok (DpState (FState h ss p q lg zero_node ∅ None None None None 0 0 0 0) 0 0 0 0 0 0 0).
Definition start_monitor (N M mem : nat) : res dpstate :=
  '(_, lg) ← startLog true "stderr" init_log; reserve N M mem lg.

Definition ghost_start (σ : rings) (av avs : list loc) : ghost :=
  Ghost σ av avs [] (λ _, []) [] [] [] [].

(** What the start leaves: an empty flow table and two full pools. *)
Definition started (N M : nat) (d : dpstate) (g : ghost) : Prop :=
  flow_inv (flows d) g ∧ length (g_nodes g) = N ∧ length (g_sess g) = M ∧
  (∀ x, x ∈ g_sess g → flow_at (sessions (flows d)) x = zero_flow) ∧
  log_ok (log (flows d)) ∧ previous d = 0 ∧ aux_session (flows d) = None ∧
  g_live g = [] ∧ g_flags g = [] ∧ g_dead g = [] ∧ g_heldn g = [] ∧ g_helds g = [] ∧
  blocks_ok N M (flows d).

Lemma start_monitor_started N M mem :
  (N + M + 3 ≤ mem)%nat →
  ∃ d g, start_monitor N M mem = Ok d ∧ started N M d g.
Proof.
  intros Hmem. unfold start_monitor, reserve. simpl.
  assert (rings_ok ∅ no_rings) as Hok0.
  { split_and!; [constructor|intros r; apply ring_nil|]. by intros r r' x Hx%elem_of_nil. }
  destruct (allocIPSessionPool_spec M ∅ ∅ mem init_spool no_rings) as
    (h1 & q & σ1 & E1 & Hok1 & Hch1 & Hips & Hs1); [done|done|done|done|done|lia|].
  rewrite E1. simpl. set (ss := put_cells zero_session ∅ (array_locs (first_free (∅ : sheap)) M)).
  set (avs := rev (array_locs (first_free (∅ : sheap)) M)) in *.
  destruct (allocNodelPool_spec N h1 (mem - S M) init_npool σ1) as
    (h2 & p & σ2 & E2 & Hok2 & Hch2 & Hnl & Htot & Hn2 & Hlen2 & Hd2 & Hav);
    [done|by rewrite Hch1 by set_solver|by rewrite Hch1 by set_solver|done|done|lia|].
  rewrite E2. simpl. set (av := rev (array_locs (first_free h1) N)) in *.
  assert (∀ r, r ∉ [NodelFree; SessFree] → σ2 r = []) as Hnil.
  { intros r Hr. rewrite Hch2, Hch1 by set_solver. done. }
  assert (NoDup av) as Hnd1.
  { subst av. rewrite <-Permutation_rev. apply NoDup_array_locs. }
  assert (NoDup avs) as Hnd2.
  { subst avs. rewrite <-Permutation_rev. apply NoDup_array_locs. }
  assert (∀ x, x ∈ avs → ss !! x = Some zero_session) as Hss.
  { intros x Hx. unfold ss. rewrite lookup_put_cells, decide_True; [done|].
    subst avs. by rewrite <-Permutation_rev in Hx. }
  assert (length avs = M) as Hl1 by (subst avs; by rewrite length_rev, length_array_locs).
  assert (length av = N) as Hl2 by (subst av; by rewrite length_rev, length_array_locs).
  eexists _, (ghost_start σ2 av avs). split; [reflexivity|].
  assert (core h2 p q σ2 av avs []) as Hcore.
  { split; [done|done| |done| |].
    - eapply (pool_frame h1 h2 q σ1 σ2); [exact Hs1| |apply Hch2; set_solver..].
      intros c Hc. apply Hd2. destruct Hok1 as (_ & B & _). by eapply ring_lookup.
    - intros x Hx. destruct (Hav x Hx) as (_ & H1 & H2). done.
    - intros b Hb x Hx. rewrite Hnl in Hb. injection Hb as <-. rewrite Htot in Hx.
      assert (x ∈ av) as Hin; [|destruct (Hav x Hin) as (_ & _ & H2); split; apply H2].
      subst av. rewrite <-Permutation_rev. revert Hx. rewrite !elem_of_array_locs. unfold ptr_add.
      assert (u64 (Z.of_nat N) ≤ Z.of_nat N) by (apply Z.mod_le; lia). lia. }
  unfold started. cbn. split_and!; try done.
  - split; cbn; try done; try (rewrite Hnil by set_solver; done).
    + intros i _. by rewrite Hnil by set_solver.
    + intros i. by rewrite Hnil by set_solver.
    + by intros e He%elem_of_nil.
    + by intros e He%elem_of_nil.
    + by intros e He%elem_of_nil.
    + by intros i b Hb%elem_of_nil.
    + unfold all_sessions. cbn. by rewrite app_nil_r.
    + intros x. unfold all_sessions. cbn. rewrite app_nil_r. intros Hx. rewrite Hss by done. eauto.
  - intros x Hx. unfold flow_at. by rewrite (session_at_Some _ _ _ (Hss x Hx)).
  - split_and!; [by eexists|done|]. vm_compute. repeat constructor; discriminate.
  - exists (first_free h1), (first_free (∅ : sheap)). cbn. split_and!; [done..| |]; intros x Hx.
    + apply (Hav x). subst av. by rewrite <-Permutation_rev.
    + rewrite Hss; [eauto|]. subst avs. by rewrite <-Permutation_rev.
Qed.

Lemma start_monitor_spec M mem :
  (2 ≤ M)%nat → (3 * M + 3 ≤ mem)%nat →
  ∃ d g, start_monitor (2 * M) M mem = Ok d ∧ proc_inv M (flows d) g [] ∧ previous d = 0 ∧
    g_live g = [] ∧ g_dead g = [] ∧ g_heldn g = [] ∧ aux_session (flows d) = None.
Proof.
  intros HM Hmem. destruct (start_monitor_started (2 * M) M mem ltac:(lia)) as
    (d & g & E & Hinv & Hn & Hs & Hcl & Hlog & Hp & Ha & Hl & Hf & Hd & Hhn & Hhs & _).
  exists d, g. split_and!; try done. split; try done.
  - by rewrite Hhs, Ha.
  - rewrite Hhn. cbn. lia.
  - rewrite Hn, Hl, Hd, Hhn. cbn. lia.
  - rewrite Hs, Hl, Hd, Hhs. cbn. lia.
  - intros Hnil. rewrite Hnil in Hs. cbn in Hs. lia.
Qed.

(** ** One packet *)

(** Until the first packet nothing is in the lists. *)
Definition idle_until_first (d : dpstate) (g : ghost) : Prop :=
  previous d = 0 → g_live g = [] ∧ g_dead g = [] ∧ aux_session (flows d) = None.

(** A packet whose buffer has room and whose second is neither 0 nor before [prev]. *)
Definition admissible (prev : Z) (buf : buffer) (h : pkthdr) : Prop :=
  caplen h + 12 ≤ Z.of_nat (length buf) ∧ prev ≤ packet_time h / US_IN_SEC ∧
  1 ≤ packet_time h / US_IN_SEC.

(** [initData] on an idle monitor changes nothing but the clock. *)
Lemma initData_spec M d g hs :
  proc_inv M (flows d) g hs → g_live g = [] → g_dead g = [] → aux_session (flows d) = None →
  proc_inv M (flows (initData d)) g hs ∧
  cache_of (flows (initData d)) g = cache_of (flows d) g.
Proof.
  intros H Hl Hd Ha. split; [|done]. pose proof (pi_inv _ _ _ _ H) as Hinv.
  destruct H. split; try done; cbn; [|by rewrite Ha in pi_held].
  destruct Hinv. split; try done; cbn.
  - by rewrite fi_active, Hl.
  - by rewrite fi_expired, Hd.
  - rewrite fi_flags, pi_flags. done.
  - intros i Hi. rewrite lookup_empty, fi_bucket.
    destruct (g_buckets g i) as [|b r] eqn:Hb; [done|].
    destruct (fi_bucket_live i b) as [_ Hin]; [rewrite Hb; left|].
    rewrite Hl in Hin. by apply elem_of_nil in Hin.
Qed.

(** The abstract cache once the clock has been dealt with. *)
Definition cache_tick (prev now : Z) (c : cache) : cache :=
  if negb (prev =? 0) && (prev <? now / US_IN_SEC) then cache_cleanup now c else c.

#[local] Arguments cleanup_flows : simpl never.
#[local] Arguments parsePacket : simpl never.

Lemma perSecOps_spec M d g hs :
  proc_inv M (flows d) g hs →
  ∃ d' g', perSecOps d = Ok d' ∧ proc_inv M (flows d') g' hs ∧
    cache_of (flows d') g' = cache_cleanup (last_packet_timestamp (flows d)) (cache_of (flows d) g) ∧
    previous d' = current d ∧ previous2 d' = previous d ∧ current d' = current d ∧
    same_counters (flows d) (flows d') ∧
    g_heldn g' = g_heldn g ∧ sessions (flows d') = sessions (flows d).
Proof.
  intros H. unfold perSecOps.
  set (d1 := with_counter (u8 (node_sec_counter d + 1)) d).
  assert (∃ d2, (if 10 <=? node_sec_counter d1 then
         lg ← logInfoVar (log (flows d1)) (flow_counter_text (flows d1));
         Ok (with_counter 0 (with_flows (with_log lg (flows d1)) d1))
       else Ok d1) = Ok d2 ∧ proc_inv M (flows d2) g hs ∧
       cache_of (flows d2) g = cache_of (flows d) g ∧ same_counters (flows d) (flows d2) ∧
       previous d2 = previous d ∧ current d2 = current d ∧
       sessions (flows d2) = sessions (flows d)) as
    (d2 & E & H2 & C2 & R2 & P2 & K2 & S2).
  { destruct (_ <=? _); [|exists d1; done].
    destruct (logInfoVar_ok (log (flows d)) (flow_counter_text (flows d)) (pi_log _ _ _ _ H)) as (lg & E & Hlg).
    cbn [flows d1 with_counter]. rewrite E. eexists. split; [reflexivity|]. split_and!; try done.
    by apply proc_inv_log. }
  rewrite E. simpl. destruct (proc_cleanup M (flows d2) g hs H2) as
    (s' & g' & E' & H' & C' & A1 & A2 & A3 & A4 & A5 & A6 & A7).
  rewrite E'. simpl. eexists _, g'. split; [reflexivity|]. cbn.
  destruct R2 as (R1 & R2 & R3 & R4 & R5).
  split_and!; try congruence. repeat split; congruence.
Qed.

(** A packet from whose headers the parser gets to a flow. *)
Definition taken (p : buffer * pkthdr) : bool := (ETH_HLEN <=? caplen p.2) && parsed p.1 p.2.

(** The effect of one packet on the abstract cache and the counters; [used] sessions of
    [M] are in use. *)
Inductive packet_effect (M used : nat) (now : Z) (buf : buffer) (h : pkthdr) (s s' : fstate) (c : cache) : cache → Prop :=
  | effect_ignored :
      taken (buf, h) = false → unprocessed_packets s' = unprocessed_packets s →
      count_pckts_malformed s' = count_pckts_malformed s ∨
      count_pckts_malformed s' = u64 (count_pckts_malformed s + 1) →
      packet_effect M used now buf h s s' c c
  | effect_unprocessed :
      (M ≤ S used)%nat →
      unprocessed_packets s' = u64 (unprocessed_packets s + 1) →
      count_pckts_malformed s' = count_pckts_malformed s →
      packet_effect M used now buf h s s' c c
  | effect_counted f :
      taken (buf, h) = true → one_packet h f → unprocessed_packets s' = unprocessed_packets s →
      count_pckts_malformed s' = count_pckts_malformed s →
      packet_effect M used now buf h s s' c (snd (cache_insert now f c)).

(** The state in which the packet's clock has been read. *)
Definition arrived (h : pkthdr) (d : dpstate) : dpstate :=
  let now := packet_time h in
  with_current (now / US_IN_SEC) (now / MS_IN_SEC) (with_flows (with_time now (flows d)) d).

(** The head of the handler, up to the parsing of the packet. *)
Lemma process_clock_spec M h d g hs :
  proc_inv M (flows d) g hs → idle_until_first d g →
  previous d ≤ packet_time h / US_IN_SEC → 1 ≤ packet_time h / US_IN_SEC →
  let now := packet_time h in
  let d1 := arrived h d in
  ∃ d2 g2, clock_step (if previous d1 =? 0 then initData d1 else d1) = Ok d2 ∧
    proc_inv M (flows d2) g2 hs ∧ previous d2 = now / US_IN_SEC ∧ g_heldn g2 = g_heldn g ∧
    sessions (flows d2) = sessions (flows d) ∧
    unprocessed_flows (flows d2) = unprocessed_flows (flows d) ∧
    unprocessed_packets (flows d2) = unprocessed_packets (flows d) ∧
    count_pckts_malformed (flows d2) = count_pckts_malformed (flows d) ∧
    last_packet_timestamp (flows d2) = now ∧
    cache_of (flows d2) g2 = cache_tick (previous d) now (cache_of (flows d) g).
Proof.
  intros H Hidle Hmono Hpos now d1.
  assert (proc_inv M (flows d1) g hs ∧ cache_of (flows d1) g = cache_of (flows d) g) as [H1 C1].
  { apply (proc_inv_fields M (flows d) g hs now (unprocessed_flows (flows d))
      (unprocessed_packets (flows d)) (count_pckts_malformed (flows d))) in H as [H C].
    split; [|done]. revert H. unfold d1, arrived. by destruct (flows d). }
  change (previous d1) with (previous d). fold now in Hmono, Hpos.
  unfold cache_tick. destruct (Z.eqb_spec (previous d) 0) as [H0|H0]; cbn [negb andb].
  - destruct (Hidle H0) as (Hl & Hd & Ha).
    destruct (initData_spec M d1 g hs H1 Hl Hd Ha) as [H2 C2].
    unfold clock_step. cbn [initData previous current].
    change (current (with_clock _ _ _)) with (now / US_IN_SEC).
    rewrite Z.ltb_irrefl, Z.eqb_refl. eexists _, g. split; [reflexivity|]. split_and!; try done.
  - unfold clock_step. change (current d1) with (now / US_IN_SEC).
    change (previous d1) with (previous d).
    destruct (Z.ltb_spec (previous d) (now / US_IN_SEC)) as [Hlt|Hge].
    + destruct (perSecOps_spec M d1 g hs H1) as
        (d2 & g2 & E & H2 & C2 & P2 & _ & _ & (R1 & R2 & R3 & R4 & R5) & N2 & S2).
      exists d2, g2. by split_and!.
    + rewrite (proj2 (Z.eqb_eq (previous d) (now / US_IN_SEC))) by lia.
      eexists _, g. split; [reflexivity|]. split_and!; try done.
Qed.

Lemma cache_cleanup_flows now c : cache_flows (cache_cleanup now c) ≡ₚ cache_flows c.
Proof.
  unfold cache_cleanup, cache_flows. pose proof (split_aged_perm now (c_live c)) as H.
  destruct (split_aged _ _) as [keep out]. cbn. rewrite H, <-Permutation_rev. solve_Permutation.
Qed.

Lemma cache_tick_flows prev now c : cache_flows (cache_tick prev now c) ≡ₚ cache_flows c.
Proof. unfold cache_tick. destruct (_ && _); [apply cache_cleanup_flows|done]. Qed.

Lemma process_packet_spec M buf h d g hs :
  proc_inv M (flows d) g hs → idle_until_first d g → admissible (previous d) buf h →
  ∃ d' g', process_packet buf h d = Ok d' ∧ proc_inv M (flows d') g' hs ∧
    previous d' = packet_time h / US_IN_SEC ∧
    g_heldn g' = g_heldn g ∧
    (∀ y, y ∈ hs → sessions (flows d') !! y = sessions (flows d) !! y) ∧
    unprocessed_flows (flows d') = unprocessed_flows (flows d) ∧
    packet_effect M (length (cache_flows (cache_of (flows d) g)) + length hs) (packet_time h) buf h (flows d) (flows d')
      (cache_tick (previous d) (packet_time h) (cache_of (flows d) g)) (cache_of (flows d') g').
Proof.
  intros H Hidle (Hbuf & Hmono & Hpos). unfold process_packet.
  set (now := packet_time h) in *.
  destruct (process_clock_spec M h d g hs H Hidle Hmono Hpos) as
    (d2 & g2 & E2 & H2 & P2 & N2 & S2 & U2 & UP2 & M2 & T2 & C2).
  fold now in P2, T2, C2. unfold arrived in E2. cbv zeta in E2. fold now in E2.
  rewrite E2. simpl. destruct (Z.leb_spec ETH_HLEN (caplen h)) as [Hcap|Hcap].
  - destruct (parsePacket_spec M buf h (flows d2) g2 hs H2 Hcap Hbuf) as
      (s' & g' & E & H' & N' & S' & T' & U' & Heff).
    rewrite E. simpl. eexists _, g'. split; [reflexivity|].
    assert (length (cache_flows (cache_of (flows d) g)) + length hs = length (g_live g2) + length (g_dead g2) + length hs)%nat as Hroom.
    { rewrite <-(cache_tick_flows (previous d) now (cache_of (flows d) g)), <-C2.
      unfold cache_flows. rewrite length_app, cache_of_live, cache_of_dead. lia. }
    rewrite Hroom. cbn. split_and!; try done; try congruence.
    + intros y Hy. rewrite S' by done. by rewrite S2.
    + rewrite <-C2. rewrite T2 in Heff.
      assert (taken (buf, h) = parsed buf h) as Ht by (unfold taken; cbn; by rewrite (proj2 (Z.leb_le _ _))).
      destruct Heff as [(Hp & -> & A1 & A2)|[(-> & A1 & A2 & A3)|(f & Hp & Hf & -> & A1 & A2)]].
      * apply effect_ignored; rewrite ?Ht, <-?UP2, <-?M2; done.
      * apply effect_unprocessed; rewrite <-?UP2, <-?M2; done.
      * apply effect_counted; rewrite ?Ht, <-?UP2, <-?M2; done.
  - eexists _, g2. split; [reflexivity|]. split_and!; try done.
    + intros y Hy. by rewrite S2.
    + rewrite C2. apply effect_ignored; [|done|by left]. unfold taken. cbn. by rewrite (proj2 (Z.leb_gt _ _)).
Qed.

(** ** Packets and export steps in any order *)

Inductive event :=
  | EvPacket (buf : buffer) (h : pkthdr)   (** the process thread handles a packet *)
  | EvExport.                              (** the export thread moves one step *)

Record sys := Sys { s_dp : dpstate; s_x : xstate }.

Section events.
Context (offset_tz : Z) (fopen_ok : string → bool).

Definition sys_exec (e : event) (σ : sys) : res sys :=
  match e with
  | EvPacket buf h => d ← process_packet buf h (s_dp σ); Ok (Sys d (s_x σ))
  | EvExport =>
      '(s, x) ← export_step offset_tz fopen_ok false (flows (s_dp σ)) (s_x σ);
      Ok (Sys (with_flows s (s_dp σ)) x)
  end.

Fixpoint run_events (es : list event) (σ : sys) : res sys :=
  match es with
  | [] => Ok σ
  | e :: es => σ ← sys_exec e σ; run_events es σ
  end.
End events.

(** Packets with room in their buffers, whose seconds never go back. *)
Fixpoint admissible_events (prev : Z) (es : list event) : Prop :=
  match es with
  | [] => True
  | EvPacket buf h :: es => admissible prev buf h ∧ admissible_events (packet_time h / US_IN_SEC) es
  | EvExport :: es => admissible_events prev es
  end.

(** The second of the last packet. *)
Definition last_second (prev : Z) (es : list event) : Z :=
  foldl (λ p e, match e with EvPacket _ h => packet_time h / US_IN_SEC | EvExport => p end) prev es.

Lemma admissible_events_app prev es1 es2 :
  admissible_events prev (es1 ++ es2) ↔
  admissible_events prev es1 ∧ admissible_events (last_second prev es1) es2.
Proof.
  revert prev. induction es1 as [|[buf h|] es1 IH]; intros prev; cbn; [tauto| |]; rewrite IH; tauto.
Qed.

Record sys_inv (M : nat) (σ : sys) (g : ghost) (hs : list loc) : Prop := {
  si_proc : proc_inv M (flows (s_dp σ)) g hs;
  si_held : pc_held (x_pc (s_x σ)) (g_heldn g) hs;
  si_idle : idle_until_first (s_dp σ) g
}.

(** ** Counting packets and bytes *)

Definition packets_in (l : list aflow) : Z := foldr (λ e n, npack (af_flow e) + n) 0 l.
Definition bytes_in (l : list aflow) : Z := foldr (λ e n, nbytes (af_flow e) + n) 0 l.

Lemma packets_in_app l1 l2 : packets_in (l1 ++ l2) = packets_in l1 + packets_in l2.
Proof. induction l1 as [|e l1 IH]; [done|]. cbn. fold (packets_in (l1 ++ l2)). unfold packets_in in *. lia. Qed.
Lemma bytes_in_app l1 l2 : bytes_in (l1 ++ l2) = bytes_in l1 + bytes_in l2.
Proof. induction l1 as [|e l1 IH]; [done|]. cbn. unfold bytes_in in *. lia. Qed.

#[export] Instance packets_in_perm : Proper ((≡ₚ) ==> (=)) packets_in.
Proof. induction 1; unfold packets_in in *; cbn in *; lia. Qed.
#[export] Instance bytes_in_perm : Proper ((≡ₚ) ==> (=)) bytes_in.
Proof. induction 1; unfold bytes_in in *; cbn in *; lia. Qed.

(** A counted packet adds one packet and its bytes, modulo the counters' widths. *)
Lemma cache_insert_count now h f c :
  one_packet h f →
  let c' := snd (cache_insert now f c) in
  u32 (packets_in (cache_flows c')) = u32 (packets_in (cache_flows c) + 1) ∧
  u64 (bytes_in (cache_flows c')) = u64 (bytes_in (cache_flows c) + len h).
Proof.
  intros [Hp Hb]. unfold cache_insert, cache_flows.
  destruct (extract _ _) as [[e r]|] eqn:He; [destruct (aged _ _)|]; cbn;
    rewrite !packets_in_app, !bytes_in_app; cbn; rewrite ?Hp, ?Hb.
  1, 3: fold packets_in bytes_in; split; f_equal; unfold packets_in, bytes_in; lia.
  apply extract_perm in He. rewrite He. cbn. unfold packets_in, bytes_in, u32, u64.
  split; [rewrite !Z.add_assoc, !(Z.add_comm (foldr _ _ _ + _)) |]; dlia.
Qed.

Lemma cache_insert_size now f c :
  (length (cache_flows (snd (cache_insert now f c))) ≤ S (length (cache_flows c)))%nat.
Proof.
  pose proof (cache_insert_length now f c) as H. destruct (cache_insert now f c) as [fresh c'].
  destruct H as [H1 H2]. unfold cache_flows. cbn. rewrite !length_app, H1, H2. destruct fresh; lia.
Qed.

(** Every flow of the system: printed, in the export thread's hands, waiting, live. *)
Definition all_flows (σ : sys) (g : ghost) (hs : list loc) : list aflow :=
  departed (flows (s_dp σ)) g (s_x σ) hs ++ c_live (cache_of (flows (s_dp σ)) g).

(** The packets of a sequence of events, and those of them that count. *)
Fixpoint packets (es : list event) : list (buffer * pkthdr) :=
  match es with
  | [] => []
  | EvPacket buf h :: es => (buf, h) :: packets es
  | EvExport :: es => packets es
  end.
Definition counted (l : list (buffer * pkthdr)) : list (buffer * pkthdr) := filter (λ p, taken p = true) l.

Definition total_len (l : list (buffer * pkthdr)) : Z := foldr (λ p n, len p.2 + n) 0 l.

Lemma counted_app l1 l2 : counted (l1 ++ l2) = counted l1 ++ counted l2.
Proof. apply filter_app. Qed.
Lemma total_len_app l1 l2 : total_len (l1 ++ l2) = total_len l1 + total_len l2.
Proof. unfold total_len. induction l1 as [|h l1 IH]; [done|]. cbn in *. lia. Qed.

Lemma packets_app es1 es2 : packets (es1 ++ es2) = packets es1 ++ packets es2.
Proof. induction es1 as [|[buf h|] es1 IH]; [done|..]; cbn; by rewrite IH. Qed.

(** The sessions that flows take. *)
Definition room (σ : sys) (g : ghost) (hs : list loc) : nat :=
  (length (cache_flows (cache_of (flows (s_dp σ)) g)) + length hs)%nat.

Lemma all_flows_cache σ g hs :
  all_flows σ g hs = printed (s_x σ) ++ in_flight (flows (s_dp σ)) (x_pc (s_x σ)) hs
                     ++ cache_flows (cache_of (flows (s_dp σ)) g).
Proof. unfold all_flows, departed, cache_flows. by rewrite <-!app_assoc. Qed.

(** The time after an event, when it was [t] before. *)
Definition event_time (t : Z) (e : event) : Z :=
  match e with EvPacket _ h => packet_time h | EvExport => t end.

(** Packet times that never go back, from [t] on. *)
Fixpoint monotone (t : Z) (es : list event) : Prop :=
  match es with [] => True | e :: es => t ≤ event_time t e ∧ monotone (event_time t e) es end.

Definition end_time (t : Z) (es : list event) : Z := foldl event_time t es.

Definition live_flows (σ : sys) (g : ghost) : list aflow := c_live (cache_of (flows (s_dp σ)) g).

(** What [es] does to the counters: every packet is seen, but for those that are counted
    as unprocessed, and they are only without a session that is free. *)
Definition tallied (M : nat) (es : list event) (σ σ' : sys) (g g' : ghost) (hs hs' : list loc) : Prop :=
  ∃ seen, seen `sublist_of` packets es ∧
    u64 (unprocessed_packets (flows (s_dp σ')))
      = u64 (unprocessed_packets (flows (s_dp σ)) + Z.of_nat (length (packets es) - length seen)) ∧
    u32 (packets_in (all_flows σ' g' hs')) = u32 (packets_in (all_flows σ g hs) + Z.of_nat (length (counted seen))) ∧
    u64 (bytes_in (all_flows σ' g' hs')) = u64 (bytes_in (all_flows σ g hs) + total_len (counted seen)) ∧
    (room σ' g' hs' ≤ room σ g hs + length (counted seen))%nat ∧
    ((S (room σ g hs + length (counted (packets es))) < M)%nat → seen = packets es).

Lemma tallied_app M es1 es2 σ0 σ1 σ2 g0 g1 g2 hs0 hs1 hs2 :
  tallied M es1 σ0 σ1 g0 g1 hs0 hs1 → tallied M es2 σ1 σ2 g1 g2 hs1 hs2 →
  tallied M (es1 ++ es2) σ0 σ2 g0 g2 hs0 hs2.
Proof.
  intros (s1 & L1 & U1 & P1 & B1 & R1 & A1) (s2 & L2 & U2 & P2 & B2 & R2 & A2). exists (s1 ++ s2).
  rewrite packets_app, !counted_app, !length_app, total_len_app. split; [by apply sublist_app|].
  pose proof (sublist_length _ _ L1). pose proof (sublist_length _ _ L2). unfold u32, u64 in *. split_and!.
  - rewrite U2, <-Zplus_mod_idemp_l, U1, Zplus_mod_idemp_l. f_equal. lia.
  - rewrite P2, <-Zplus_mod_idemp_l, P1, Zplus_mod_idemp_l. f_equal. lia.
  - rewrite B2, <-Zplus_mod_idemp_l, B1, Zplus_mod_idemp_l. f_equal. lia.
  - lia.
  - intros Hm. rewrite A1 by lia. rewrite A1 in R1 by lia. by rewrite A2 by lia.
Qed.

(** What one event does to the whole. *)
Definition event_effect (M : nat) (e : event) (σ σ' : sys) (g g' : ghost) (hs hs' : list loc) : Prop :=
  unprocessed_flows (flows (s_dp σ')) = unprocessed_flows (flows (s_dp σ)) ∧
  departed (flows (s_dp σ)) g (s_x σ) hs `prefix_of` departed (flows (s_dp σ')) g' (s_x σ') hs' ∧
  (∀ t, 0 ≤ t → t ≤ event_time t e → orderly t (live_flows σ g) →
     orderly (event_time t e) (live_flows σ' g')) ∧
  tallied M [e] σ σ' g g' hs hs'.

Lemma in_flight_sessions s s' pc hs :
  (∀ y, y ∈ hs → sessions s' !! y = sessions s !! y) → in_flight s' pc hs = in_flight s pc hs.
Proof.
  intros H. destruct pc; try done. cbn. apply list_fmap_ext.
  intros i y Hy%list_elem_of_lookup_2. unfold view, session_at. by rewrite H.
Qed.

Lemma cache_insert_dead now f c : c_dead (snd (cache_insert now f c)) = c_dead c.
Proof. unfold cache_insert. destruct (extract _ _) as [[??]|]; [by destruct (aged _ _)|done]. Qed.

Lemma cache_tick_dead prev now c : c_dead c `prefix_of` c_dead (cache_tick prev now c).
Proof.
  unfold cache_tick, cache_cleanup. destruct (_ && _); [|done].
  destruct (split_aged _ _). cbn. by apply prefix_app_r.
Qed.

Lemma packet_time_range h : 0 ≤ packet_time h < 2 ^ 64.
Proof. unfold packet_time, u64. apply Z.mod_pos_bound. lia. Qed.

#[local] Opaque cache_of.

Lemma packet_event M off fo buf h σ g hs :
  sys_inv M σ g hs → admissible (previous (s_dp σ)) buf h →
  ∃ σ' g', sys_exec off fo (EvPacket buf h) σ = Ok σ' ∧ sys_inv M σ' g' hs ∧
    previous (s_dp σ') = packet_time h / US_IN_SEC ∧ event_effect M (EvPacket buf h) σ σ' g g' hs hs.
Proof.
  intros [H Hheld Hidle] Hadm. pose proof Hadm as (_ & _ & Hpos).
  destruct (process_packet_spec M buf h (s_dp σ) g hs H Hidle Hadm) as
    (d' & g' & E & H' & P' & N' & S' & U' & Heff).
  unfold sys_exec. rewrite E. simpl. exists (Sys d' (s_x σ)), g'. split; [done|].
  split; [|split; [done|]].
  { split; cbn; [done|by rewrite N'|]. intros H0. rewrite P' in H0. lia. }
  assert (in_flight (flows d') (x_pc (s_x σ)) hs = in_flight (flows (s_dp σ)) (x_pc (s_x σ)) hs) as Hfl
    by (by apply in_flight_sessions).
  split; [done|]. unfold departed. cbn. rewrite Hfl. split; [|split].
  - do 2 apply prefix_app. etrans; [apply (cache_tick_dead (previous (s_dp σ)) (packet_time h))|].
    inversion Heff; rewrite ?cache_insert_dead; done.
  - intros t Ht0 Ht Ho. unfold live_flows in *. cbn in *.
    pose proof (packet_time_range h) as Hr.
    assert (orderly (packet_time h) (c_live (cache_tick (previous (s_dp σ)) (packet_time h)
              (cache_of (flows (s_dp σ)) g)))) as Ho'.
    { apply (orderly_later t (packet_time h)) in Ho; [|lia..].
      unfold cache_tick. destruct (_ && _); [by apply orderly_cleanup|done]. }
    inversion Heff as [_ _ _ He|_ _ _ He|f _ Hf _ _ He]; [done..|].
    apply (orderly_insert (packet_time h)); [done|lia..].
  - pose proof (cache_tick_flows (previous (s_dp σ)) (packet_time h) (cache_of (flows (s_dp σ)) g)) as Hp.
    unfold tallied, room. cbn [packets s_dp flows].
    inversion Heff as [Ht Hu _ He|Hroom Hu _ He|f Ht Hf Hu _ He].
    + exists [(buf, h)]. rewrite !all_flows_cache. cbn [s_dp s_x flows]. rewrite Hfl, <-?He. unfold counted. rewrite filter_cons_False, filter_nil by by rewrite Ht.
      rewrite !packets_in_app, !bytes_in_app, Hp, Hu. cbn. rewrite !Z.add_0_r. split_and!; try done; lia.
    + exists []. rewrite !all_flows_cache. cbn [s_dp s_x flows]. rewrite Hfl, <-?He, !packets_in_app, !bytes_in_app, Hp, Hu. cbn. rewrite !Z.add_0_r. unfold u64.
      split_and!; [by apply sublist_nil_l|by rewrite Z.mod_mod|done..| |]; lia.
    + exists [(buf, h)]. rewrite !all_flows_cache. cbn [s_dp s_x flows]. rewrite Hfl, <-?He. unfold counted. rewrite filter_cons_True, filter_nil by done.
      destruct (cache_insert_count (packet_time h) h f
        (cache_tick (previous (s_dp σ)) (packet_time h) (cache_of (flows (s_dp σ)) g)) Hf) as [C1 C2].
      pose proof (cache_insert_size (packet_time h) f (cache_tick (previous (s_dp σ)) (packet_time h) (cache_of (flows (s_dp σ)) g))) as Hsz.
      rewrite Hp in Hsz. rewrite Hp in C1, C2. cbn. rewrite !packets_in_app, !bytes_in_app, Hu, !Z.add_0_r.
      split; [done|]. split; [done|]. clear -C1 C2 Hsz. unfold u32, u64 in *. split_and!; [| |lia|done].
      * rewrite !Z.add_assoc, <-(Z.add_assoc _ _ 1).
        rewrite (Zplus_mod _ (packets_in (cache_flows (snd _)))), C1, <-Zplus_mod. f_equal; lia.
      * rewrite !Z.add_assoc, <-(Z.add_assoc _ _ (len h)).
        rewrite (Zplus_mod _ (bytes_in (cache_flows (snd _)))), C2, <-Zplus_mod. f_equal; lia.
Qed.

Lemma export_event M off fo σ g hs :
  sys_inv M σ g hs → (∀ n, fo n = true) →
  ∃ σ' g' hs', sys_exec off fo EvExport σ = Ok σ' ∧ sys_inv M σ' g' hs' ∧
    previous (s_dp σ') = previous (s_dp σ) ∧ event_effect M EvExport σ σ' g g' hs hs'.
Proof.
  intros [H Hheld Hidle] Hfo.
  destruct (export_step_spec M off fo _ g hs (s_x σ) H Hheld Hfo) as
    (s' & x' & g' & hs' & E & H' & Hheld' & Hl & Hd & (R1 & R2 & R3 & R4 & R5) & Hlen & Hlen2).
  unfold sys_exec. rewrite E. simpl.
  exists (Sys (with_flows s' (s_dp σ)) x'), g', hs'. split; [done|]. split; [|split; [done|]].
  - split; cbn; [done|done|]. intros H0. destruct (Hidle H0) as (L & D & A).
    assert (length (g_live g') = 0 ∧ length (g_dead g') = 0)%nat as [L' D'].
    { rewrite <-(cache_of_live s' g'), Hl, cache_of_live, L.
      rewrite !cache_of_dead, D in Hlen. cbn in *. lia. }
    split_and!; [by apply nil_length_inv|by apply nil_length_inv|cbn; congruence].
  - split; [done|]. cbn. rewrite Hd. split; [done|].
    split; [intros t _ _ Ho; unfold live_flows in *; cbn; by rewrite Hl|].
    exists []. unfold all_flows, room, cache_flows. cbn. rewrite Hd, Hl, !length_app, !Z.add_0_r.
    rewrite R4. split_and!; [done..|lia|done].
Qed.

(** Any sequence of admissible events, with the output files openable. *)
Lemma run_spec M off fo es σ g hs :
  sys_inv M σ g hs → admissible_events (previous (s_dp σ)) es → (∀ n, fo n = true) →
  ∃ σ' g' hs', run_events off fo es σ = Ok σ' ∧ sys_inv M σ' g' hs' ∧
    previous (s_dp σ') = last_second (previous (s_dp σ)) es ∧
    unprocessed_flows (flows (s_dp σ')) = unprocessed_flows (flows (s_dp σ)) ∧
    departed (flows (s_dp σ)) g (s_x σ) hs `prefix_of` departed (flows (s_dp σ')) g' (s_x σ') hs' ∧
    (∀ t, 0 ≤ t → monotone t es → orderly t (live_flows σ g) →
       orderly (end_time t es) (live_flows σ' g')) ∧
    tallied M es σ σ' g g' hs hs'.
Proof.
  intros H Hadm Hfo. revert σ g hs H Hadm. induction es as [|e es IH]; intros σ g hs H Hadm.
  { exists σ, g, hs. split_and!; try done. exists []. cbn. rewrite !Z.add_0_r. split_and!; try done. lia. }
  assert (∃ σ1 g1 hs1, sys_exec off fo e σ = Ok σ1 ∧ sys_inv M σ1 g1 hs1 ∧
            admissible_events (previous (s_dp σ1)) es ∧
            previous (s_dp σ1) = last_second (previous (s_dp σ)) [e] ∧ event_effect M e σ σ1 g g1 hs hs1) as
    (σ1 & g1 & hs1 & E1 & H1 & A1 & P1 & U1 & D1 & O1 & C1).
  { destruct e as [buf h|]; cbn in Hadm.
    - destruct Hadm as [Ha Hadm].
      destruct (packet_event M off fo buf h σ g hs H Ha) as (σ1 & g1 & E & H1 & P1 & Heff).
      exists σ1, g1, hs. by rewrite P1.
    - destruct (export_event M off fo σ g hs H Hfo) as (σ1 & g1 & hs1 & E & H1 & P1 & Heff).
      exists σ1, g1, hs1. by rewrite P1. }
  destruct (IH σ1 g1 hs1 H1 A1) as (σ2 & g2 & hs2 & E2 & H2 & P2 & U2 & D2 & O2 & C2).
  exists σ2, g2, hs2. cbn [run_events]. rewrite E1. simpl.
  split_and!; [done|done|by rewrite P2, P1|congruence|by etrans| |].
  { intros t Ht0 [Ht Hm] Ho. apply O2; [|done|by apply O1]. lia. }
  exact (tallied_app M [e] es _ _ _ _ _ _ _ _ _ C1 C2).
Qed.

(** ** From the start of the program *)

(** [main], once the log is open: the pools, and the export thread's first file. *)
Definition start_threads (N M mem : nat) (off : Z) (fo : string → bool) (tv_sec : Z) (lg : logst) : res sys :=
  d ← reserve N M mem lg;
  '(s, x) ← export_start off fo (flows d) tv_sec;
  Ok (Sys (with_flows s d) x).
Definition start_system (N M mem : nat) (off : Z) (fo : string → bool) (tv_sec : Z) : res sys :=
  '(_, lg) ← startLog true "stderr" init_log; start_threads N M mem off fo tv_sec lg.

Lemma start_system_monitor N M mem off fo tv_sec :
  start_system N M mem off fo tv_sec =
    (d ← start_monitor N M mem; '(s, x) ← export_start off fo (flows d) tv_sec; Ok (Sys (with_flows s d) x)).
Proof. unfold start_system, start_monitor, start_threads. by destruct (startLog _ _ _) as [[??]|]. Qed.

Lemma start_monitor_drops N M mem d :
  start_monitor N M mem = Ok d → unprocessed_flows (flows d) = 0 ∧ unprocessed_packets (flows d) = 0.
Proof.
  unfold start_monitor, reserve. destruct (startLog _ _ _) as [[? lg]|]; [|done]. cbn [mbind res_bind].
  destruct (logInfos lg _) as [lg1|]; [|done]. cbn [mbind res_bind].
  destruct (allocIPSessionPool _ _ _ _ _) as [[[[??]?]?]|]; [|done]. cbn [mbind res_bind].
  destruct (allocNodelPool _ _ _ _) as [[[??]?]|]; [|done]. cbn [mbind res_bind].
  destruct (logInfo _ _); [|done]. cbn. by intros [= <-].
Qed.

Lemma start_system_spec M mem off fo tv :
  (2 ≤ M)%nat → (3 * M + 3 ≤ mem)%nat → (∀ n, fo n = true) →
  ∃ σ g, start_system (2 * M) M mem off fo tv = Ok σ ∧ sys_inv M σ g [] ∧
    previous (s_dp σ) = 0 ∧ all_flows σ g [] = [] ∧ departed (flows (s_dp σ)) g (s_x σ) [] = [] ∧
    unprocessed_flows (flows (s_dp σ)) = 0 ∧ unprocessed_packets (flows (s_dp σ)) = 0 ∧
    x_pc (s_x σ) = XLoop ∧ printed (s_x σ) = [].
Proof.
  intros HM Hmem Hfo. destruct (start_monitor_spec M mem HM Hmem) as
    (d & g & E & H & Hp & Hl & Hd & Hn & Ha). rewrite start_system_monitor, E. cbn [mbind res_bind].
  unfold export_start. rewrite Hfo.
  match goal with |- context [logInfoVar (log (flows d)) ?m] =>
    destruct (logInfoVar_ok (log (flows d)) m (pi_log _ _ _ _ H)) as (lg & El & Hlg) end.
  rewrite El. simpl. eexists _, g. split; [reflexivity|]. cbn.
  destruct (start_monitor_drops _ _ _ _ E) as [Hu Hup].
  split_and!; try done.
  - split; cbn; [by apply proc_inv_log|by rewrite Hn|]. intros _. done.
  - unfold all_flows, departed. cbn. rewrite cache_of_no_dead by done. cbn.
    apply nil_length_inv. by rewrite cache_of_live, Hl.
  - unfold departed. cbn. by rewrite cache_of_no_dead.
Qed.

(** ** The end: the SIGINT branch of [capturaSenial]

    The process thread has been joined; the table is reset, the export thread is
    told to stop and joined.  It may stand anywhere in its iteration, and take [n] more
    steps before it is told. *)

Section shutdown.
Context (off : Z) (fo : string → bool).

Fixpoint export_join (fuel : nat) (s : fstate) (x : xstate) : res (fstate * xstate) :=
  match x_pc x, fuel with
  | XDone, _ => Ok (s, x)
  | _, O => Err OutOfFuel
  | _, S fuel => '(s, x) ← export_step off fo true s x; export_join fuel s x
  end.

Fixpoint export_runs (n : nat) (s : fstate) (x : xstate) : res (fstate * xstate) :=
  match n with
  | O => Ok (s, x)
  | S n => '(s, x) ← export_step off fo false s x; export_runs n s x
  end.

Definition capturaSenial_flush (infinity : Z) (n : nat) (σ : sys) : res sys :=
  s ← reset_flow_table infinity (flows (s_dp σ));
  '(s, x) ← export_runs n s (s_x σ);
  '(s, x) ← export_join 5 s x;
  Ok (Sys (with_flows s (s_dp σ)) x).
End shutdown.

(** Steps the export thread needs to get back to the head of its loop. *)
Definition steps_left (pc : xpc) : nat :=
  match pc with
  | XLoop | XDone => 0 | XRotate => 1 | XReleaseNode _ => 2 | XRelease _ _ => 3 | XExport _ => 4
  end.

#[local] Opaque cache_of.
#[local] Arguments drain : simpl never.
#[local] Arguments rotate : simpl never.
#[local] Arguments export_data : simpl never.
#[local] Arguments release_session : simpl never.
#[local] Arguments release_node : simpl never.

Lemma export_step_left off fo s x s' x' :
  x_pc x ≠ XLoop → x_pc x ≠ XDone → export_step off fo true s x = Ok (s', x') →
  export_step off fo false s x = Ok (s', x') ∧ steps_left (x_pc x) = S (steps_left (x_pc x')) ∧
  x_pc x' ≠ XDone.
Proof.
  intros H1 H2 E. unfold export_step in *. destruct (x_pc x) eqn:Hpc; try done; (split; [done|]).
  - destruct (export_data s x n) as [[[??][y|]]|]; simpl in E; try done. by injection E as <- <-.
  - destruct (release_session s (Some x0)); simpl in E; try done. by injection E as <- <-.
  - destruct (release_node s x n) as [[??]|]; simpl in E; try done. by injection E as <- <-.
  - destruct (rotate off fo s x) as [[??]|]; simpl in E; try done. by injection E as <- <-.
Qed.

Lemma export_stop_step M off fo s g x :
  proc_inv M s g [] → g_heldn g = [] → x_pc x = XLoop →
  ∃ s' x' g', export_step off fo true s x = Ok (s', x') ∧ x_pc x' = XDone ∧
    proc_inv M s' g' [] ∧ c_live (cache_of s' g') = c_live (cache_of s g) ∧ g_dead g' = [] ∧
    printed x' = printed x ++ c_dead (cache_of s g).
Proof.
  intros H Hn Hpc. unfold export_step. rewrite Hpc.
  destruct (drain_spec M (S (size (nodes s))) s g x H Hn) as
    (s' & x' & g' & E & H' & N' & D' & L' & P').
  { pose proof (pi_inv _ _ _ _ H) as Hinv.
    pose proof (core_length _ _ _ _ _ _ _ Expired (fi_core s g Hinv)) as Hlen.
    rewrite (fi_expired s g Hinv), length_fmap in Hlen. lia. }
  rewrite E. simpl. destruct (logInfo_ok (log s') "Export thread finished" (pi_log _ _ _ _ H')) as
    (lg & El & Hlg).
  rewrite El. simpl. eexists _, _, g'. split; [reflexivity|]. split_and!; try done.
  by apply proc_inv_log.
Qed.

(** A thread told to stop finishes its iteration, then prints all that waits. *)
Lemma export_join_spec M off fo fuel s g hs x :
  proc_inv M s g hs → pc_held (x_pc x) (g_heldn g) hs → (∀ n, fo n = true) →
  x_pc x ≠ XDone → (steps_left (x_pc x) < fuel)%nat →
  ∃ s' x' g', export_join off fo fuel s x = Ok (s', x') ∧ x_pc x' = XDone ∧ proc_inv M s' g' [] ∧
    c_live (cache_of s' g') = c_live (cache_of s g) ∧ g_dead g' = [] ∧
    printed x' = departed s g x hs.
Proof.
  revert s g hs x. induction fuel as [|fuel IH]; intros s g hs x H Hheld Hfo Hpc Hfuel; [lia|].
  destruct (decide (x_pc x = XLoop)) as [Hl|Hl].
  - pose proof Hheld as Hh. rewrite Hl in Hh. destruct Hh as [Hn ->].
    destruct (export_stop_step M off fo s g x H Hn Hl) as (s' & x' & g' & E & P & H' & L & D & W).
    exists s', x', g'. cbn [export_join]. rewrite Hl, E. simpl.
    assert (export_join off fo fuel s' x' = Ok (s', x')) as -> by (destruct fuel; cbn; by rewrite P).
    split_and!; try done. rewrite W. unfold departed. rewrite Hl. done.
  - destruct (export_step_spec M off fo s g hs x H Hheld Hfo) as
      (s1 & x1 & g1 & hs1 & E & H1 & Hheld1 & L1 & D1 & _).
    assert (export_step off fo true s x = Ok (s1, x1)) as Et.
    { rewrite <-E. unfold export_step. by destruct (x_pc x). }
    destruct (export_step_left off fo s x s1 x1 Hl Hpc Et) as (_ & Hs & Hd).
    destruct (IH s1 g1 hs1 x1 H1 Hheld1 Hfo Hd) as (s' & x' & g' & E' & P & H' & L & D & W); [lia|].
    exists s', x', g'. cbn [export_join]. rewrite Et. simpl. rewrite E'.
    split_and!; [by destruct (x_pc x)|done|done|congruence|done|congruence].
Qed.

(** Steps before the thread is told to stop. *)
Lemma export_running off fo s x s' x' :
  x_pc x ≠ XDone → export_step off fo false s x = Ok (s', x') → x_pc x' ≠ XDone.
Proof.
  intros Hn E. destruct (decide (x_pc x = XLoop)) as [Hl|Hl].
  - unfold export_step in E. rewrite Hl in E. destruct (expired_flow_list _); [|by injection E as <- <-].
    destruct (pop_expired _) as [[[n|] ?]|]; simpl in E; try done. by injection E as <- <-.
  - assert (export_step off fo true s x = Ok (s', x')) as Et.
    { rewrite <-E. unfold export_step. by destruct (x_pc x). }
    by apply (export_step_left off fo s x s' x' Hl Hn Et).
Qed.

Lemma export_runs_spec M off fo n s g hs x :
  proc_inv M s g hs → pc_held (x_pc x) (g_heldn g) hs → (∀ n, fo n = true) → x_pc x ≠ XDone →
  ∃ s' x' g' hs', export_runs off fo n s x = Ok (s', x') ∧ x_pc x' ≠ XDone ∧ proc_inv M s' g' hs' ∧
    pc_held (x_pc x') (g_heldn g') hs' ∧ c_live (cache_of s' g') = c_live (cache_of s g) ∧
    departed s' g' x' hs' = departed s g x hs.
Proof.
  revert s g hs x. induction n as [|n IH]; intros s g hs x H Hheld Hfo Hpc.
  { exists s, x, g, hs. done. }
  destruct (export_step_spec M off fo s g hs x H Hheld Hfo) as (s1 & x1 & g1 & hs1 & E & H1 & Hheld1 & L1 & D1 & _).
  destruct (IH s1 g1 hs1 x1 H1 Hheld1 Hfo (export_running _ _ _ _ _ _ Hpc E)) as (s' & x' & g' & hs' & E' & P & H' & Hh' & L & D).
  exists s', x', g', hs'. cbn [export_runs]. rewrite E. cbn [mbind res_bind]. split_and!; [done..|congruence|congruence].
Qed.

#[local] Arguments export_join : simpl never.
#[local] Arguments export_runs : simpl never.

(** The whole shutdown, at an [infinity] by which every live flow has aged. *)
Lemma capturaSenial_spec M off fo inf n σ g hs :
  sys_inv M σ g hs → (∀ n, fo n = true) → x_pc (s_x σ) ≠ XDone →
  Forall (λ e, aged (u64 inf) (af_last e) = true) (live_flows σ g) →
  ∃ σ' g', capturaSenial_flush off fo inf n σ = Ok σ' ∧ proc_inv M (flows (s_dp σ')) g' [] ∧
    x_pc (s_x σ') = XDone ∧ g_live g' = [] ∧ g_dead g' = [] ∧
    printed (s_x σ') = departed (flows (s_dp σ)) g (s_x σ) hs ++ rev (live_flows σ g).
Proof.
  intros [H Hheld _] Hfo Hpc Haged. unfold capturaSenial_flush, reset_flow_table, live_flows in *.
  destruct (proc_inv_fields M _ g hs (u64 inf) (unprocessed_flows (flows (s_dp σ)))
    (unprocessed_packets (flows (s_dp σ))) (count_pckts_malformed (flows (s_dp σ))) H) as [H1 C1].
  assert (proc_inv M (with_time (u64 inf) (flows (s_dp σ))) g hs ∧
    cache_of (with_time (u64 inf) (flows (s_dp σ))) g = cache_of (flows (s_dp σ)) g) as [H2 C2].
  { revert H1 C1. by destruct (flows (s_dp σ)). }
  destruct (proc_cleanup M _ g hs H2) as (s' & g' & E & H' & C' & _ & _ & _ & _ & _ & N' & S').
  rewrite E. simpl. cbn [last_packet_timestamp with_time] in C'. rewrite C2, cleanup_all in C' by done.
  destruct (export_runs_spec M off fo n s' g' hs (s_x σ) H') as
    (s1 & x1 & g1 & hs1 & E1 & P1 & H1' & Hh1 & L1 & D1); [by rewrite N'|done|done|].
  destruct (export_join_spec M off fo 5 s1 g1 hs1 x1 H1' Hh1 Hfo P1) as
    (s2 & x2 & g2 & E2 & P2 & H2' & L2 & D2 & W2).
  { destruct (x_pc x1); cbn; lia. }
  rewrite E1. cbn [mbind res_bind]. rewrite E2. simpl. eexists _, g2. split; [reflexivity|]. split_and!; try done.
  - apply (cache_of_no_live s2). by rewrite L2, L1, C'.
  - cbn. rewrite W2, D1. unfold departed. rewrite C'. cbn.
    rewrite (in_flight_sessions (flows (s_dp σ)) s') by (intros y _; by rewrite S').
    by rewrite <-!app_assoc.
Qed.

(** The thread does not end while the program runs. *)
Lemma run_not_done off fo es σ σ' :
  run_events off fo es σ = Ok σ' → x_pc (s_x σ) ≠ XDone → x_pc (s_x σ') ≠ XDone.
Proof.
  revert σ. induction es as [|e es IH]; intros σ; cbn; [by intros [= <-]|].
  destruct (sys_exec off fo e σ) as [σ1|] eqn:E; [|done]. simpl. intros Hr Hn.
  apply (IH σ1 Hr). revert E. destruct e as [buf h|]; cbn.
  - destruct (process_packet _ _ _); [|done]. by intros [= <-].
  - destruct (export_step _ _ _ _ _) as [[s' x']|] eqn:E; [|done]. simpl. intros [= <-]. cbn.
    by eapply export_running.
Qed.

Lemma end_time_ge t es : 0 ≤ t → 0 ≤ end_time t es.
Proof.
  unfold end_time. revert t. induction es as [|e es IH]; intros t Ht; [done|]. apply IH.
  destruct e as [buf h|]; [apply (packet_time_range h)|done].
Qed.

(** ** Runs in two parts *)

(** Lines are only added. *)
Lemma export_step_written off fo b s x s' x' :
  b = false ∨ x_pc x ≠ XLoop → export_step off fo b s x = Ok (s', x') →
  x_written x `suffix_of` x_written x'.
Proof.
  unfold export_step. destruct (x_pc x) eqn:Hpc; intros Hb E.
  - destruct Hb as [->|]; [|done].
    destruct (expired_flow_list s); [|by injection E as <- <-].
    destruct (pop_expired s) as [[[n|] ?]|]; simpl in E; try done. injection E as <- <-. cbn.
    by destruct (_ =? _).
  - unfold export_data in E. destruct (load _ _); simpl in E; [|done].
    destruct (as_session _); simpl in E; [|done]. destruct (sstore _ _ _); simpl in E; [|done].
    destruct (sload _ _) as [se|]; simpl in E; [|done].
    destruct (or_fault _ _); simpl in E; [|done]. injection E as <- <-. cbn. by eexists [_].
  - destruct (release_session _ _); simpl in E; [|done]. by injection E as <- <-.
  - unfold release_node in E. destruct (releaseNodel _ _ _) as [[??]|]; simpl in E; [|done].
    by injection E as <- <-.
  - unfold rotate in E. destruct (_ && _); [destruct (_ <? _)|]; simpl in E;
      [|by injection E as <- <-..].
    destruct (logInfoVar _ _); simpl in E; [|done]. destruct (fo _); [|done]. by injection E as <- <-.
  - by injection E as <- <-.
Qed.

Lemma run_printed off fo es σ σ' :
  run_events off fo es σ = Ok σ' → printed (s_x σ) `prefix_of` printed (s_x σ').
Proof.
  revert σ. induction es as [|e es IH]; intros σ; cbn [run_events]; [by intros [= <-]|].
  destruct (sys_exec off fo e σ) as [σ1|] eqn:E; [|done]. cbn. intros Hr. etrans; [|by apply IH].
  revert E. destruct e as [buf h|]; unfold sys_exec.
  - destruct (process_packet _ _ _); [|done]. by intros [= <-].
  - destruct (export_step _ _ _ _ _) as [[s' x']|] eqn:E; [|done]. intros [= <-]. cbn.
    destruct (export_step_written off fo false _ _ _ _ (or_introl eq_refl) E) as [k Hk].
    unfold printed. rewrite Hk, fmap_app, rev_app_distr. by apply prefix_app_r.
Qed.

