(* ===== verification/Shutdown.v ===== *)
(** * The end of the flow monitor: capturaSenial of dp.c

    The whole SIGINT handler: the flush of the table and the end of the export
    thread, of Run.v, and then the release of both pools and of the table.  The
    pools' arrays are still allocated and no container is a node of the array
    ([blocks_ok], [array_apart]), so nothing is freed twice. *)

From S2P Require Import Prelude Log NodeList Rings FlowData Pools NodePool SessionPool.
From S2P Require Import FlowCore FlowTable FlowInv Packet Monitor ProcessInv CacheLaws Export Blocks System Run.
From stdpp Require Import pretty.
#[local] Open Scope Z_scope.

Definition SIGINT : Z := 2.

(** The calls [logInfo] at the end, and [stopLog]. *)
Definition close_log (lg : logst) : res logst :=
  lg ← logInfos lg ["Recursos liberados"; "Saliendo..."];
  '(_, lg) ← stopLog lg;
  Ok lg.

(** From [last_packet_timestamp=0] on: the pools of [N] nodes and [M] sessions and
    the table are freed. *)
Definition release_all (N M : nat) (s : fstate) : res fstate :=
  let s := with_time 0 s in
  '(h, ss, q) ← freeIPSessionPool M (nodes s) (sessions s) (ip_session s);
  lg ← logInfo (log s) "Pool sesiones liberado";
  let s := with_pool h ss q lg s in
  '(h, p) ← freeNodelPool N (nodes s) (nodel s);
  let s := with_table ∅ (with_nodel h p s) in
  lg ← close_log (log s);
  Ok (with_log lg s).

(** [capturaSenial]: [stop_pt] is not read by anyone, [sleep] only waits, and the
    process thread has ended when its join returns, which is the state [σ]; the export thread
    takes [n] steps from the flush until it is told to stop. *)
Definition capturaSenial (off : Z) (fo : string → bool) (infinity nSenial : Z) (n N M : nat) (σ : sys) :
  res sys :=
  lg ← logInfoVar (log (flows (s_dp σ))) ("En captura señal " +:+ pretty nSenial);
  let σ := Sys (with_flows (with_log lg (flows (s_dp σ))) (s_dp σ)) (s_x σ) in
  if nSenial =? SIGINT then
    σ ← capturaSenial_flush off fo infinity n σ;
    s ← release_all N M (flows (s_dp σ));
    Ok (Sys (with_flows s (s_dp σ)) (s_x σ))
  else Ok σ.

(** ** The blocks through a run and its end *)

Lemma run_events_blocks off fo es : ∀ σ σ',
  run_events off fo es σ = Ok σ' → blocks (flows (s_dp σ')) = blocks (flows (s_dp σ)).
Proof.
  induction es as [|e es IH]; intros σ σ' H; cbn [run_events] in H; [by injection H as <-|].
  apply res_bind_Ok in H as (σ1 & E & H). rewrite (IH _ _ H). unfold sys_exec in E. res_inv.
  - by eapply process_packet_blocks.
  - by eapply export_step_blocks.
Qed.

Lemma flush_blocks off fo inf n σ σ' :
  capturaSenial_flush off fo inf n σ = Ok σ' → blocks (flows (s_dp σ')) = blocks (flows (s_dp σ)).
Proof.
  assert (∀ fuel s x s' x', export_join off fo fuel s x = Ok (s', x') → blocks s' = blocks s) as Hj.
  { induction fuel as [|fuel IH]; intros s x s' x' H; cbn [export_join] in H; res_inv; try done;
      apply IH in H; rewrite H; by eapply export_step_blocks. }
  assert (∀ n s x s' x', export_runs off fo n s x = Ok (s', x') → blocks s' = blocks s) as Hk.
  { clear n. induction n as [|n IH]; intros s x s' x' H; cbn [export_runs] in H; res_inv; try done.
    apply IH in H. rewrite H. by eapply export_step_blocks. }
  unfold capturaSenial_flush, reset_flow_table. intros H. res_inv. cbn.
  repeat match goal with
  | H : export_runs _ _ _ _ _ = Ok _ |- _ => apply Hk in H; rewrite H
  | H : export_join _ _ _ _ _ = Ok _ |- _ => apply Hj in H; rewrite H
  | H : cleanup_flows _ = Ok _ |- _ => by apply cleanup_flows_blocks in H
  end.
Qed.

Lemma start_system_blocks N M mem off fo tv σ :
  (N + M + 3 ≤ mem)%nat → start_system N M mem off fo tv = Ok σ → blocks_ok N M (flows (s_dp σ)).
Proof.
  intros Hmem H. destruct (start_monitor_started N M mem Hmem) as (d & g & E & Hst).
  rewrite start_system_monitor, E in H. unfold export_start in H. cbn [mbind res_bind] in H.
  res_inv. cbn. unfold started in Hst. by apply Hst.
Qed.

(** ** The pools are freed once *)

(** Rings stay rings when the nodes of two others are freed. *)
Lemma rings_ok_freed h h' σ r1 r2 :
  rings_ok h σ → r1 ≠ r2 →
  (∀ y, h' !! y = if decide (y ∈ σ r1 ++ σ r2) then None else h !! y) →
  rings_ok h' (<[r1 := []]> (<[r2 := []]> σ)).
Proof.
  intros (A & B & C) Hne Hf. set (σ' := <[r1 := []]> _).
  assert (∀ r, (r = r1 ∨ r = r2) ∧ σ' r = [] ∨ (r ≠ r1 ∧ r ≠ r2) ∧ σ' r = σ r) as Hσ.
  { intros r. unfold σ'. destruct (decide (r = r1)) as [->|H1]; [left; rewrite fn_lookup_insert; auto|].
    destruct (decide (r = r2)) as [->|H2].
    - left. rewrite fn_lookup_insert_ne, fn_lookup_insert by done. auto.
    - right. by rewrite !fn_lookup_insert_ne by done. }
  split_and!.
  - intros r. destruct (Hσ r) as [[_ ->]|[_ ->]]; [constructor|apply A].
  - intros r. destruct (Hσ r) as [[_ ->]|[[H1 H2] ->]]; [apply ring_nil|].
    eapply ring_frame, B. intros y Hy. rewrite Hf, decide_False; [done|].
    intros [Hy1|Hy1]%elem_of_app; [by apply H1, (C _ _ y)|by apply H2, (C _ _ y)].
  - intros r r' x. destruct (Hσ r) as [[_ ->]|[_ ->]]; [by intros ?%elem_of_nil|].
    destruct (Hσ r') as [[_ ->]|[_ ->]]; [by intros _ ?%elem_of_nil|]. apply C.
Qed.

Lemma close_log_ok lg : log_ok lg → ∃ lg', close_log lg = Ok lg'.
Proof.
  intros [[s Hs] _]. destruct lg as [d c es]. cbn in Hs. subst d. unfold close_log. destruct s; by eexists.
Qed.

Lemma release_all_spec M0 N M s g hs :
  proc_inv M0 s g hs → blocks_ok N M s → Z.of_nat N < 2 ^ 64 →
  ∃ s', release_all N M s = Ok s' ∧
    (∀ b bs, nl (nodel s) = Some b → ips (ip_session s) = Some bs →
       (∀ x, x ∈ array_locs b N → nodes s' !! x = None) ∧
       (∀ x, x ∈ array_locs bs M → sessions s' !! x = None)) ∧
    (∀ r x, r ∈ pool_rings → x ∈ g_rings g r → nodes s' !! x = None).
Proof.
  intros H (b & bs & Hb & Hbs & Htot & Hn & Hs) HN. pose proof (pi_inv _ _ _ _ H) as Hinv.
  destruct (fi_core s g Hinv) as [Hok Hnp Hsp _ _ Hap].
  assert (Z.to_nat (total_nodes (nodel s)) = N) as Et by (rewrite Htot, u64_small by lia; lia).
  destruct (freeIPSessionPool_spec M (nodes s) (sessions s) (ip_session s) (g_rings g) (g_sess g) bs Hok Hsp Hbs Hs)
    as (h2 & ss2 & q2 & E2 & Hh2 & Hss2).
  pose proof (rings_ok_freed _ _ _ SessFree SessUsed Hok ltac:(done) Hh2) as Hok2.
  set (σ2 := <[SessFree := []]> _) in Hok2.
  assert (∀ r, r ≠ SessFree → r ≠ SessUsed → σ2 r = g_rings g r) as Hσ2.
  { intros r H1 H2. unfold σ2. by rewrite !fn_lookup_insert_ne. }
  assert (npool_inv h2 (nodel s) σ2 (g_nodes g)) as Hnp2.
  { eapply (pool_frame (nodes s) h2 (nodel s) (g_rings g) σ2); [done| |by apply Hσ2..].
    intros c Hc. unfold data_of. rewrite Hh2, decide_False; [done|].
    destruct Hok as (_ & _ & C). intros [Hy|Hy]%elem_of_app; by specialize (C _ _ c Hc Hy). }
  destruct (freeNodelPool_spec N h2 (nodel s) σ2 (g_nodes g) b Hok2 Hnp2 Hb) as (h3 & p3 & E3 & _ & _ & Hh3).
  { intros x Hx. specialize (Hap b Hb x). rewrite Et in Hap. destruct (Hap Hx) as [H1 H2].
    pose proof Hnp as (_ & _ & _ & _ & Hap'). specialize (Hap' b Hb x). rewrite Et in Hap'.
    rewrite !Hσ2 by done. split; [|by apply Hap']. rewrite Hh2, decide_False; [by apply Hn|].
    by intros [?|?]%elem_of_app. }
  destruct (logInfo_ok (log s) "Pool sesiones liberado" (pi_log _ _ _ _ H)) as (lg1 & El1 & Hlg1).
  destruct (close_log_ok lg1 Hlg1) as (lg2 & El2).
  unfold release_all. cbn [nodes sessions ip_session with_time]. rewrite E2. cbn [mbind res_bind].
  cbn [log with_time]. rewrite El1. cbn [mbind res_bind]. cbn [nodes nodel with_pool with_time].
  rewrite E3. cbn [mbind res_bind]. cbn [log with_table with_nodel with_pool with_time]. rewrite El2.
  eexists. split; [reflexivity|]. cbn. split.
  - intros b' bs' Hb' Hbs'. rewrite Hb in Hb'. rewrite Hbs in Hbs'. injection Hb' as <-. injection Hbs' as <-.
    split; intros x Hx; [rewrite Hh3|rewrite Hss2]; rewrite decide_True; set_solver.
  - intros r x Hr Hx. rewrite Hh3. destruct (decide _) as [|Hno]; [done|]. rewrite Hh2, decide_True; [done|].
    rewrite !Hσ2 in Hno by done. unfold pool_rings in Hr. set_solver.
Qed.

(** ** The handler *)

Lemma capturaSenial_frees M off fo inf n σ g hs :
  sys_inv M σ g hs → (∀ n, fo n = true) → x_pc (s_x σ) ≠ XDone →
  Forall (λ e, aged (u64 inf) (af_last e) = true) (live_flows σ g) →
  blocks_ok (2 * M) M (flows (s_dp σ)) → Z.of_nat (2 * M) < 2 ^ 64 →
  ∃ σ', capturaSenial off fo inf SIGINT n (2 * M) M σ = Ok σ' ∧
    printed (s_x σ') = departed (flows (s_dp σ)) g (s_x σ) hs ++ rev (live_flows σ g).
Proof.
  intros Hs Hfo Hpc Haged Hb HM. pose proof (pi_log _ _ _ _ (si_proc _ _ _ _ Hs)) as Hlog.
  destruct (logInfoVar_ok (log (flows (s_dp σ))) ("En captura señal " +:+ pretty SIGINT) Hlog) as (lg & El & Hlg).
  set (σl := Sys (with_flows (with_log lg (flows (s_dp σ))) (s_dp σ)) (s_x σ)).
  assert (sys_inv M σl g hs) as Hsl.
  { destruct Hs as [H1 H2 H3]. split; [by apply proc_inv_log|done|exact H3]. }
  destruct (capturaSenial_spec M off fo inf n σl g hs Hsl Hfo Hpc Haged) as (σ1 & g1 & E1 & H1 & _ & _ & _ & Hpr).
  assert (blocks_ok (2 * M) M (flows (s_dp σ1))) as Hb1.
  { eapply blocks_ok_same; [by eapply flush_blocks|]. exact Hb. }
  destruct (release_all_spec M (2 * M) M _ g1 [] H1 Hb1 HM) as (s2 & E2 & _).
  unfold capturaSenial. rewrite El. cbn [mbind res_bind]. fold σl. change (SIGINT =? SIGINT) with true. cbn iota.
  rewrite E1. cbn [mbind res_bind]. rewrite E2. cbn [mbind res_bind]. by eexists.
Qed.

(** From the start to the end of the handler, for any packets whose times do not
    go back: nothing faults, and the lines are those of the flush. *)
Lemma whole_run M mem off fo tv es inf n :
  (2 ≤ M)%nat → (3 * M + 3 ≤ mem)%nat → Z.of_nat (2 * M) < 2 ^ 64 → (∀ n, fo n = true) →
  admissible_events 0 es → monotone 0 es → end_time 0 es + EXPIRATION_FLOW_TIME < u64 inf →
  ∃ σ0 σ σ1 σ2, start_system (2 * M) M mem off fo tv = Ok σ0 ∧ run_events off fo es σ0 = Ok σ ∧
    capturaSenial_flush off fo inf n σ = Ok σ1 ∧ capturaSenial off fo inf SIGINT n (2 * M) M σ = Ok σ2 ∧
    printed (s_x σ2) = printed (s_x σ1).
Proof.
  intros HM Hmem HN Hfo Hes Hmono Hinf. destruct (start_system_spec M mem off fo tv HM Hmem Hfo) as
    (σ0 & g & E & H & Hp & Hall & Hdep & _ & _ & Hpc & _). rewrite <-Hp in Hes.
  destruct (run_spec M off fo es σ0 g [] H Hes Hfo) as (σ & g' & hs & Er & H' & _ & _ & _ & Ho & _).
  assert (orderly 0 (live_flows σ0 g)) as Ho0.
  { unfold all_flows in Hall. rewrite Hdep in Hall. unfold live_flows. cbn [app] in Hall.
    rewrite Hall. by apply orderly_nil. }
  specialize (Ho 0 ltac:(lia) Hmono Ho0).
  assert (x_pc (s_x σ) ≠ XDone) as Hpc' by (eapply run_not_done; [done|]; by rewrite Hpc).
  assert (Forall (λ e, aged (u64 inf) (af_last e) = true) (live_flows σ g')) as Haged.
  { eapply (orderly_all_aged (end_time 0 es)); [done| |done|apply Z.mod_pos_bound; lia]. by apply end_time_ge. }
  destruct (capturaSenial_spec M off fo inf n σ g' hs H' Hfo Hpc' Haged) as (σ1 & g1 & E1 & _ & _ & _ & _ & Hpr1).
  assert (blocks_ok (2 * M) M (flows (s_dp σ))) as Hb.
  { eapply blocks_ok_same; [by eapply run_events_blocks|]. eapply start_system_blocks; [|done]. lia. }
  destruct (capturaSenial_frees M off fo inf n σ g' hs H' Hfo Hpc' Haged Hb HN) as (σ2 & E2 & Hpr2).
  exists σ0, σ, σ1, σ2. split_and!; try done. by rewrite Hpr1, Hpr2.
Qed.
