(* ===== verification/WireRun.v ===== *)
(** * The monitor computes the flows of the wire

    A reference NetFlow computation, sequential and without pools, threads or
    pointers, over well-formed frames; and the proof that the two threads
    together, however their steps interleave, print exactly its flows as long as
    the session pool is not exhausted. *)

From S2P Require Import Prelude Log NodeList Rings FlowData Pools NodePool SessionPool.
From S2P Require Import FlowCore FlowTable FlowInv FlowInsert FlowExpire Packet Monitor ProcessInv.
From S2P Require Import CacheLaws PacketSpec Frame Export System Run.

(** A frame, the bytes behind it in the buffer, and the capture header. *)
Record wire := Wire { w_frame : frame; w_rest : list Z; w_header : pkthdr }.

Definition wire_ok (w : wire) : Prop :=
  frame_ok (w_frame w) ∧ l4_offset (w_frame w) < caplen (w_header w).

Definition wire_event (o : option wire) : event :=
  match o with
  | Some w => EvPacket (encode (w_frame w) ++ w_rest w) (w_header w)
  | None => EvExport
  end.

(** ** The reference *)

(** The second of the last packet, the live flows, and the flows that ended. *)
Record netflow := NetFlow { nf_second : Z; nf_cache : cache }.

Definition netflow_packet (n : netflow) (w : wire) : netflow :=
  let now := packet_time (w_header w) in
  let f := flow_of (w_frame w) (len (w_header w)) in
  NetFlow (now / US_IN_SEC) (snd (cache_insert now f (cache_tick (nf_second n) now (nf_cache n)))).

Definition netflow_run (ws : list wire) : netflow := foldl netflow_packet (NetFlow 0 (Cache [] [])) ws.

(** All its flows, in the order in which they end; the last are cut by the shutdown. *)
Definition netflow_flows (n : netflow) : list aflow := c_dead (nf_cache n) ++ rev (c_live (nf_cache n)).

(** The frames of a sequence of steps. *)
Definition frames (es : list (option wire)) : list wire := omap id es.

(** Frames that are well formed, in seconds that start at 1 and do not go back. *)
Fixpoint wires_ok (prev : Z) (es : list (option wire)) : Prop :=
  match es with
  | [] => True
  | Some w :: es =>
      wire_ok w ∧ prev ≤ packet_time (w_header w) / US_IN_SEC ∧
      1 ≤ packet_time (w_header w) / US_IN_SEC ∧ wires_ok (packet_time (w_header w) / US_IN_SEC) es
  | None :: es => wires_ok prev es
  end.

(** ** The export queue may be split in front *)

Definition behind (pre : list aflow) (c : cache) : cache := Cache (c_live c) (pre ++ c_dead c).

Lemma cache_insert_behind now f pre c :
  snd (cache_insert now f (behind pre c)) = behind pre (snd (cache_insert now f c)).
Proof. unfold cache_insert. cbn. destruct (extract _ _) as [[??]|]; [by destruct (aged _ _)|done]. Qed.

Lemma cache_tick_behind prev now pre c :
  cache_tick prev now (behind pre c) = behind pre (cache_tick prev now c).
Proof.
  unfold cache_tick, cache_cleanup. destruct (_ && _); [|done]. cbn.
  destruct (split_aged _ _). unfold behind. cbn. by rewrite <-app_assoc.
Qed.

(** ** The simulation *)

(** [k] bounds the sessions in use by the flows of the table and of the queue. *)
Record tracks (M k : nat) (σ : sys) (g : ghost) (hs : list loc) (n : netflow) : Prop := {
  tr_sys : sys_inv M σ g hs;
  tr_pc : x_pc (s_x σ) ≠ XDone;
  tr_second : previous (s_dp σ) = nf_second n;
  tr_live : live_flows σ g = c_live (nf_cache n);
  tr_dead : departed (flows (s_dp σ)) g (s_x σ) hs = c_dead (nf_cache n);
  tr_room : (length (cache_flows (cache_of (flows (s_dp σ)) g)) + length hs ≤ k)%nat;
  tr_drops : unprocessed_packets (flows (s_dp σ)) = 0 ∧ unprocessed_flows (flows (s_dp σ)) = 0
}.

#[local] Opaque cache_of.
#[local] Arguments parsePacket : simpl never.

Lemma tracks_packet M k off fo w σ g hs n :
  tracks M k σ g hs n → (k + 2 ≤ M)%nat → wire_ok w →
  previous (s_dp σ) ≤ packet_time (w_header w) / US_IN_SEC →
  1 ≤ packet_time (w_header w) / US_IN_SEC →
  ∃ σ' g', sys_exec off fo (wire_event (Some w)) σ = Ok σ' ∧
    previous (s_dp σ') = packet_time (w_header w) / US_IN_SEC ∧
    tracks M (S k) σ' g' hs (netflow_packet n w).
Proof.
  intros [[H Hheld Hidle] Hpc Hsec Hlive Hdead Hroom [Dp Df]] Hk [Hf Hcap] Hmono Hpos.
  set (h := w_header w) in *. set (now := packet_time h) in *. set (d := s_dp σ) in *.
  destruct (process_clock_spec M h d g hs H Hidle Hmono Hpos) as
    (d2 & g2 & E2 & H2 & P2 & N2 & S2 & U2 & UP2 & M2 & T2 & C2). fold now in P2, T2, C2.
  assert (length (cache_flows (cache_of (flows d2) g2)) + length hs ≤ k)%nat as Hroom2.
  { rewrite C2. by rewrite cache_tick_flows. }
  destruct (parsePacket_frame M (w_frame w) (w_rest w) h (flows d2) g2 hs H2 Hf Hcap) as
    (s' & g' & E & H' & C' & N' & S' & U' & UP' & _); [lia|].
  rewrite T2, C2 in C'. set (f := flow_of (w_frame w) (len h)) in *.
  exists (Sys (with_flows s' d2) (s_x σ)), g'. split; [|split; [done|]].
  { cbn. unfold process_packet. unfold arrived in E2. cbv zeta in E2. fold h d. fold now in E2 |- *.
    rewrite E2. simpl. assert (ETH_HLEN ≤ caplen h) as Hc.
    { unfold l4_offset in Hcap. pose proof (fr_ihl_ge (w_frame w)). unfold ETH_HLEN. lia. }
    rewrite (proj2 (Z.leb_le _ _) Hc), E. done. }
  assert (cache_of s' g' = snd (cache_insert now f (cache_tick (previous d) now (cache_of (flows d) g))))
    as Hc by done.
  set (pre := printed (s_x σ) ++ in_flight (flows d) (x_pc (s_x σ)) hs).
  assert (nf_cache n = behind pre (cache_of (flows d) g)) as Hn.
  { unfold behind, pre. rewrite <-app_assoc. unfold departed in Hdead. rewrite Hdead.
    unfold live_flows in Hlive. fold d in Hlive. rewrite Hlive. by destruct (nf_cache n). }
  assert (nf_cache (netflow_packet n w) = behind pre (cache_of s' g')) as Hn'.
  { cbn. fold h now f. by rewrite <-Hsec, Hn, cache_tick_behind, cache_insert_behind, <-Hc. }
  split.
  - split; cbn; [done|by rewrite N', N2|]. intros H0. assert (previous d2 = 0) by exact H0. lia.
  - done.
  - done.
  - by rewrite Hn'.
  - rewrite Hn'. unfold departed, behind, pre. cbn. rewrite <-app_assoc. do 2 f_equal.
    apply in_flight_sessions. intros y Hy. rewrite S' by done. by rewrite S2.
  - change (flows (s_dp {| s_dp := with_flows s' d2; s_x := s_x σ |})) with s'. rewrite Hc.
    pose proof (cache_insert_size now f (cache_tick (previous d) now (cache_of (flows d) g))) as Hs.
    rewrite cache_tick_flows in Hs. lia.
  - cbn. by rewrite U', U2, UP', UP2.
Qed.

Lemma tracks_export M k off fo σ g hs n :
  tracks M k σ g hs n → (∀ m, fo m = true) →
  ∃ σ' g' hs', sys_exec off fo EvExport σ = Ok σ' ∧ previous (s_dp σ') = previous (s_dp σ) ∧
    tracks M k σ' g' hs' n.
Proof.
  intros [[H Hheld Hidle] Hpc Hsec Hlive Hdead Hroom [Dp Df]] Hfo.
  destruct (export_event M off fo σ g hs (Build_sys_inv M σ g hs H Hheld Hidle) Hfo) as
    (σ' & g' & hs' & E & H' & P' & _).
  destruct (export_step_spec M off fo _ g hs (s_x σ) H Hheld Hfo) as
    (s2 & x2 & g2 & hs2 & E2 & H2 & Hheld2 & L2 & D2 & (R1 & R2 & R3 & R4 & R5) & Hlen & Hlen2).
  assert (run_events off fo [EvExport] σ = Ok σ') as Er
    by (cbn [run_events]; by rewrite E).
  pose proof (run_not_done off fo _ σ σ' Er Hpc) as Hpc'.
  unfold sys_exec in E |- *. rewrite E2 in E |- *. simpl in *. injection E as <-.
  eexists _, g2, hs2. split; [done|]. split; [done|]. split; try done; cbn in *.
  - split; cbn; [done|done|]. intros H0. destruct (Hidle H0) as (L & D & A).
    assert (length (g_live g2) = 0 ∧ length (g_dead g2) = 0)%nat as [L' D'].
    { rewrite <-(cache_of_live s2 g2), L2, cache_of_live, L.
      rewrite !cache_of_dead, D in Hlen. cbn in *. lia. }
    split_and!; [by apply nil_length_inv|by apply nil_length_inv|cbn; congruence].
  - unfold live_flows in *. cbn. by rewrite L2.
  - by rewrite D2.
  - unfold cache_flows in *. rewrite length_app in *. rewrite L2. lia.
  - split; congruence.
Qed.

(** Any interleaving of frames and export steps follows the reference. *)
Lemma tracks_run M off fo es k σ g hs n :
  tracks M k σ g hs n → (∀ m, fo m = true) → wires_ok (previous (s_dp σ)) es →
  (k + length (frames es) < M)%nat →
  ∃ σ' g' hs', run_events off fo (wire_event <$> es) σ = Ok σ' ∧
    tracks M (k + length (frames es)) σ' g' hs' (foldl netflow_packet n (frames es)).
Proof.
  intros H Hfo Hes Hk. revert k σ g hs n H Hes Hk.
  induction es as [|[w|] es IH]; intros k σ g hs n H Hes Hk.
  - exists σ, g, hs. cbn. by rewrite Nat.add_0_r.
  - cbn in Hes, Hk. destruct Hes as (Hw & Hm & Hp & Hes).
    destruct (tracks_packet M k off fo w σ g hs n H ltac:(lia) Hw Hm Hp) as (σ1 & g1 & E & P & H1).
    rewrite fmap_cons. cbn [run_events]. rewrite E. simpl.
    destruct (IH (S k) σ1 g1 hs _ H1) as (σ' & g' & hs' & E' & H'); [by rewrite P|unfold frames; lia|].
    exists σ', g', hs'. rewrite E'. split; [done|]. cbn. rewrite Nat.add_succ_r. done.
  - cbn in Hes, Hk. destruct (tracks_export M k off fo σ g hs n H Hfo) as (σ1 & g1 & hs1 & E & P & H1).
    rewrite fmap_cons. cbn [run_events wire_event]. rewrite E. simpl.
    destruct (IH k σ1 g1 hs1 n H1) as (σ' & g' & hs' & E' & H'); [by rewrite P|done|].
    exists σ', g', hs'. by rewrite E'.
Qed.

(** ** The start and the end *)

Lemma tracks_start M mem off fo tv :
  (2 ≤ M)%nat → (3 * M + 3 ≤ mem)%nat → (∀ m, fo m = true) →
  ∃ σ g, start_system (2 * M) M mem off fo tv = Ok σ ∧ previous (s_dp σ) = 0 ∧
    tracks M 0 σ g [] (NetFlow 0 (Cache [] [])).
Proof.
  intros HM Hmem Hfo. destruct (start_system_spec M mem off fo tv HM Hmem Hfo) as
    (σ & g & E & H & Hp & Hall & Hdep & Hu & Hup & Hpc & Hpr).
  exists σ, g. split; [done|]. split; [done|].
  unfold all_flows in Hall. rewrite Hdep in Hall. cbn [app] in Hall.
  split; try done; [by rewrite Hpc|]. unfold cache_flows. rewrite Hall, app_nil_r.
  unfold departed in Hdep. apply app_eq_nil in Hdep as [_ Hdep].
  apply app_eq_nil in Hdep as [_ Hdep]. by rewrite Hdep.
Qed.

Lemma netflow_orderly t es n :
  0 ≤ t < 2 ^ 64 → monotone t (wire_event <$> es) → orderly t (c_live (nf_cache n)) →
  0 ≤ end_time t (wire_event <$> es) ∧
  orderly (end_time t (wire_event <$> es)) (c_live (nf_cache (foldl netflow_packet n (frames es)))).
Proof.
  revert t n. induction es as [|[w|] es IH]; intros t n Ht Hm Ho; [by split; [cbn; lia|]| |].
  - destruct Hm as [Hle Hm]. pose proof (packet_time_range (w_header w)) as Hr. cbn in Hle, Hm.
    apply (IH (packet_time (w_header w))); [lia|done|]. cbn.
    apply (orderly_insert (packet_time (w_header w))); [|lia..].
    apply (orderly_later t (packet_time (w_header w))) in Ho; [|lia..].
    unfold cache_tick. destruct (_ && _); [by apply orderly_cleanup|done].
  - destruct Hm as [_ Hm]. by apply IH.
Qed.

(** From the start of the program to its end. *)
Lemma wire_run_spec M mem off fo tv es inf n :
  (2 ≤ M)%nat → (3 * M + 3 ≤ mem)%nat → (∀ m, fo m = true) → wires_ok 0 es →
  (length (frames es) < M)%nat → monotone 0 (wire_event <$> es) →
  end_time 0 (wire_event <$> es) + EXPIRATION_FLOW_TIME < u64 inf →
  ∃ σ0 σ σ', start_system (2 * M) M mem off fo tv = Ok σ0 ∧
    run_events off fo (wire_event <$> es) σ0 = Ok σ ∧ capturaSenial_flush off fo inf n σ = Ok σ' ∧
    unprocessed_packets (flows (s_dp σ)) = 0 ∧ unprocessed_flows (flows (s_dp σ)) = 0 ∧
    printed (s_x σ') = netflow_flows (netflow_run (frames es)).
Proof.
  intros HM Hmem Hfo Hes Hk Hmono Hinf.
  destruct (tracks_start M mem off fo tv HM Hmem Hfo) as (σ0 & g & E & Hp & H).
  destruct (tracks_run M off fo es 0 σ0 g [] _ H Hfo) as (σ & g' & hs & Er & [H' Hpc _ Hl Hd _ [D1 D2]]);
    [by rewrite Hp|done|].
  destruct (netflow_orderly 0 es (NetFlow 0 (Cache [] [])) ltac:(lia) Hmono) as [Ht Ho];
    [by apply orderly_nil|].
  fold (netflow_run (frames es)) in Hl, Hd, Ho.
  destruct (capturaSenial_spec M off fo inf n σ g' hs H' Hfo Hpc) as (σ' & g2 & E2 & _ & _ & _ & _ & Hpr).
  { rewrite Hl. eapply orderly_all_aged; [done..|]. apply Z.mod_pos_bound. lia. }
  exists σ0, σ, σ'. split_and!; try done. by rewrite Hpr, Hd, Hl.
Qed.
