(* ===== verification/MonitorProps.v ===== *)
(** * Theorems about the flow monitor

    The claims about the flow monitor of flujos/src, each with a witness at a
    concrete input: the whole program from start to shutdown first, then the
    components. *)

From S2P Require Import Prelude Log NodeList Rings FlowData Pools NodePool SessionPool.
From S2P Require Import FlowCore FlowTable FlowInv FlowInsert FlowExpire Packet Monitor ProcessInv.
From S2P Require Import CacheLaws PacketSpec Frame Export System Run WireRun.
From Stdlib Require Import Sorting.Sorted.
#[local] Open Scope Z_scope.

(** ** Concrete inputs for the witnesses *)

(** A UDP datagram under one 802.1Q tag. *)
Definition sample_frame : frame :=
  Frame [2; 0; 0; 0; 0; 1] [2; 0; 0; 0; 0; 2] [0x2005] 0 36 [0; 1; 0; 0; 64] [0; 0]
    0x0A0B0001 0x0A0B0002 [] (Udp 4000 53 [0; 16; 0; 0; 1; 2; 3; 4; 5; 6; 7; 8]).

(** Its header when it arrives in second [sec]. *)
Definition sample_header (sec : Z) : pkthdr :=
  PktHdr sec 250 (Z.of_nat (length (encode sample_frame))) 60.

(** The buffer libpcap and the UMEM frames give has room behind the packet. *)
Definition sample_buffer : list Z := encode sample_frame ++ replicate 12 0.

Definition sample_events : list event :=
  [EvPacket sample_buffer (sample_header 10); EvExport; EvPacket sample_buffer (sample_header 11);
   EvExport; EvPacket sample_buffer (sample_header 200); EvExport; EvExport].

Definition files_open (_ : string) : bool := true.

Definition sample_wire (sec : Z) : option wire :=
  Some (Wire sample_frame (replicate 12 0) (sample_header sec)).

Definition sample_wires : list (option wire) :=
  [sample_wire 10; None; sample_wire 11; None; sample_wire 200; None; None].

Lemma sample_frame_ok : frame_ok sample_frame.
Proof. unfold frame_ok, octets. cbn. repeat (split || constructor); done. Qed.

Lemma sample_wire_ok sec : wire_ok (Wire sample_frame (replicate 12 0) (sample_header sec)).
Proof. split; [apply sample_frame_ok|by vm_compute]. Qed.

Lemma sample_wires_ok : wires_ok 0 sample_wires.
Proof.
  cbn [wires_ok sample_wires sample_wire].
  repeat (split; [apply sample_wire_ok|]; split; [by vm_compute|]; split; [by vm_compute|]). done.
Qed.

(** The datagram's flow in hand, at time [t]. *)
Lemma sample_in_hand t :
  ∃ s g x se, proc_inv 4 s g [] ∧ aux_session s = Some x ∧ sessions s !! x = Some se ∧
    incoming se = flow_of sample_frame 60 ∧ last_packet_timestamp s = t ∧
    cache_of s g = Cache [] [] ∧ g_heldn g = [].
Proof.
  destruct (start_monitor_spec 4 100 ltac:(lia) ltac:(lia)) as (d & g & _ & H & _ & Hl & Hd & Hn & Ha).
  destruct (proc_inv_fields 4 (flows d) g [] t 0 0 0 H) as [H1 C1]. revert H1 C1.
  set (s1 := with_time _ _). intros H1 C1.
  destruct (obtain_session_spec 4 s1 g [] H1) as
    (found & s2 & g2 & _ & H2 & C2 & N2 & _ & T2 & _ & _ & _ & Hf).
  assert (cache_of s2 g2 = Cache [] []) as C3.
  { rewrite C2, C1. unfold cache_of. by rewrite Hl, Hd. }
  destruct found; last first.
  { destruct Hf as [_ Hs]. pose proof (pi_sess _ _ _ _ H) as Hp.
    rewrite (pi_held _ _ _ _ H), Ha, Hl, Hd in Hp. cbn in Hp. lia. }
  destruct Hf as (x & se & Hx & Hse & _).
  destruct (proc_inv_write 4 s2 g2 [] x (with_incoming (flow_of sample_frame 60) se) H2 Hx) as [H3 C4].
  eexists _, g2, x, _. split_and!; [exact H3|done|apply lookup_insert_eq|done|done|by rewrite C4|by rewrite N2].
Qed.

(** And entered in the table. *)
Lemma sample_entered t :
  ∃ s g, proc_inv 4 s g [] ∧ last_packet_timestamp s = t ∧ g_heldn g = [] ∧
    cache_of s g = Cache [AFlow (flow_of sample_frame 60) t t] [].
Proof.
  destruct (sample_in_hand t) as (s & g & x & se & H & Hx & Hse & Hi & Ht & Hc & Hn).
  pose proof (insert_aux_spec 4 s g [] x se H Hx Hse) as Hins. rewrite Hc, Hi, Ht in Hins.
  destruct Hins as (s' & g' & _ & H' & C' & _ & _ & _ & _ & T' & N' & _).
  exists s', g'. split_and!; [done|congruence|congruence|done].
Qed.

(** And a second packet of it in hand, at time [t']. *)
Lemma sample_second t t' :
  ∃ s g x se, proc_inv 4 s g [] ∧ aux_session s = Some x ∧ sessions s !! x = Some se ∧
    incoming se = flow_of sample_frame 60 ∧ last_packet_timestamp s = t' ∧
    cache_of s g = Cache [AFlow (flow_of sample_frame 60) t t] [].
Proof.
  destruct (sample_entered t) as (s & g & H & Ht & Hn & Hc).
  destruct (proc_inv_fields 4 s g [] t' 0 0 0 H) as [H1 C1]. revert H1 C1.
  set (s1 := with_time _ _). intros H1 C1.
  destruct (obtain_session_spec 4 s1 g [] H1) as
    (found & s2 & g2 & _ & H2 & C2 & _ & _ & T2 & _ & _ & _ & Hf).
  rewrite C1, Hc in C2. destruct found; last first.
  { destruct Hf as [Ha Hs]. pose proof (pi_sess _ _ _ _ H2) as Hp.
    pose proof (cache_of_live s2 g2) as L1. pose proof (cache_of_dead s2 g2) as L2.
    rewrite C2 in L1, L2. cbn in L1, L2.
    pose proof (pi_sess _ _ _ _ H1) as Hp1. rewrite Hs in Hp1.
    pose proof (cache_of_live s1 g) as L3. pose proof (cache_of_dead s1 g) as L4.
    rewrite C1, Hc in L3, L4. cbn in L3, L4.
    rewrite (pi_held _ _ _ _ H1) in Hp1. destruct (aux_session s1); cbn in Hp1; lia. }
  destruct Hf as (x & se & Hx & Hse & _).
  destruct (proc_inv_write 4 s2 g2 [] x (with_incoming (flow_of sample_frame 60) se) H2 Hx) as [H3 C4].
  eexists _, g2, x, _. split_and!; [exact H3|done|apply lookup_insert_eq|done|done|by rewrite C4].
Qed.

(** ** The whole monitor *)

(** C1: Functional correctness of the monitor.  For every interleaving of the export
    thread's steps with the handling of well-formed frames whose times do not go
    back, fewer frames than sessions, the lines written from start to shutdown
    are exactly the flows of the reference NetFlow computation, in its order:
    same tuples, MAC addresses, VLAN, counters and first and last times; and no
    packet or flow is counted as unprocessed. *)
Theorem monitor_computes_netflow M mem off fo tv es inf n :
  (2 ≤ M)%nat → (3 * M + 3 ≤ mem)%nat → (∀ m, fo m = true) → wires_ok 0 es →
  (length (frames es) < M)%nat → monotone 0 (wire_event <$> es) →
  end_time 0 (wire_event <$> es) + EXPIRATION_FLOW_TIME < u64 inf →
  ∃ σ0 σ σ', start_system (2 * M) M mem off fo tv = Ok σ0 ∧
    run_events off fo (wire_event <$> es) σ0 = Ok σ ∧ capturaSenial_flush off fo inf n σ = Ok σ' ∧
    unprocessed_packets (flows (s_dp σ)) = 0 ∧ unprocessed_flows (flows (s_dp σ)) = 0 ∧
    printed (s_x σ') = netflow_flows (netflow_run (frames es)).
Proof. apply wire_run_spec. Qed.

Lemma monitor_computes_netflow_witness :
  ∃ σ0 σ σ', start_system 8 4 100 3600 files_open 5 = Ok σ0 ∧
    run_events 3600 files_open (wire_event <$> sample_wires) σ0 = Ok σ ∧
    capturaSenial_flush 3600 files_open (-1) 3 σ = Ok σ' ∧
    unprocessed_packets (flows (s_dp σ)) = 0 ∧ unprocessed_flows (flows (s_dp σ)) = 0 ∧
    printed (s_x σ') = [AFlow (with_counters 2 120 (flow_of sample_frame 60)) 10000250 11000250;
                        AFlow (flow_of sample_frame 60) 200000250 200000250].
Proof.
  apply (monitor_computes_netflow 4 100 3600 files_open 5 sample_wires (-1) 3);
    [lia|lia|done|apply sample_wires_ok|cbn; lia|vm_compute; repeat split; discriminate|done].
Defined.

(** C2: Started with [M] sessions and [2 * M] nodes, the monitor never faults: whatever
    packets arrive (with twelve readable bytes behind each, in seconds that do
    not go back) and however the export thread's mutex sections interleave with
    them, no NULL or dangling pointer is followed, nothing is read out of
    bounds, no loop runs on, no [exit] is reached, and no flow is dropped. *)
Theorem monitor_never_faults M mem off fo tv es :
  (2 ≤ M)%nat → (3 * M + 3 ≤ mem)%nat → (∀ n, fo n = true) → admissible_events 0 es →
  ∃ σ0 σ g hs, start_system (2 * M) M mem off fo tv = Ok σ0 ∧ run_events off fo es σ0 = Ok σ ∧
    sys_inv M σ g hs ∧ unprocessed_flows (flows (s_dp σ)) = 0.
Proof.
  intros HM Hmem Hfo Hes. destruct (start_system_spec M mem off fo tv HM Hmem Hfo) as
    (σ0 & g & E & H & Hp & _ & _ & Hu & _). rewrite <-Hp in Hes.
  destruct (run_spec M off fo es σ0 g [] H Hes Hfo) as (σ & g' & hs & Er & H' & _ & U & _).
  exists σ0, σ, g', hs. split_and!; [done..|congruence].
Qed.

Lemma sample_events_admissible : admissible_events 0 sample_events.
Proof. cbn. unfold admissible. vm_compute. repeat split; discriminate. Qed.

Lemma monitor_never_faults_witness :
  ∃ σ0 σ g hs, start_system 8 4 100 3600 files_open 5 = Ok σ0 ∧
    run_events 3600 files_open sample_events σ0 = Ok σ ∧
    sys_inv 4 σ g hs ∧ unprocessed_flows (flows (s_dp σ)) = 0.
Proof.
  apply (monitor_never_faults 4 100 3600 files_open 5 sample_events);
    [lia|lia|done|apply sample_events_admissible].
Defined.

(** What the parser accepts, on the bytes alone. *)
Definition accepted (p : buffer * pkthdr) : bool := (ETH_HLEN <=? caplen p.2) && accepts p.1 (caplen p.2).

Lemma counted_accepted l :
  Forall (λ p, Forall (λ b, 0 ≤ b < 256) p.1) l → counted l = filter (λ p, accepted p = true) l.
Proof.
  intros H. unfold counted. apply list_filter_iff'. eapply Forall_impl; [exact H|].
  intros [buf h] Hb. cbn in Hb. unfold taken, accepted. cbn [fst snd]. by rewrite parsed_accepts.
Qed.

Lemma live_start σ g : all_flows σ g [] = [] → orderly 0 (live_flows σ g).
Proof. unfold all_flows, live_flows. intros H. apply app_nil in H as [_ ->]. by apply orderly_nil. Qed.

(** C5: From start to shutdown every packet is accounted for.  The parser sees all the
    packets but some that find no free session, and those are counted, modulo
    2^64, as unprocessed; it sees all of them when fewer are accepted than there
    are sessions.  Of the packets it sees exactly the ones that [accepts] takes
    (a condition on the bytes of the frame) are printed, in one line each: the
    lines' packet counts add up to their number modulo 2^32, the byte counts to
    their lengths modulo 2^64.  This for packets of bytes with twelve readable
    ones behind them, in times that do not go back, when every file opens and at
    the end every flow is aged, however the threads interleave. *)
Theorem monitor_accounts_every_packet M mem off fo tv es inf n :
  (2 ≤ M)%nat → (3 * M + 3 ≤ mem)%nat → (∀ n, fo n = true) →
  admissible_events 0 es → monotone 0 es →
  end_time 0 es + EXPIRATION_FLOW_TIME < u64 inf →
  Forall (λ p, Forall (λ b, 0 ≤ b < 256) p.1) (packets es) →
  ∃ σ0 σ σ', start_system (2 * M) M mem off fo tv = Ok σ0 ∧ run_events off fo es σ0 = Ok σ ∧
    capturaSenial_flush off fo inf n σ = Ok σ' ∧
    ∃ seen, seen `sublist_of` packets es ∧
      let acc := filter (λ p, accepted p = true) seen in
      ((S (length (filter (λ p, accepted p = true) (packets es))) < M)%nat → seen = packets es) ∧
      u64 (unprocessed_packets (flows (s_dp σ))) = u64 (Z.of_nat (length (packets es) - length seen)) ∧
      u32 (packets_in (printed (s_x σ'))) = u32 (Z.of_nat (length acc)) ∧
      u64 (bytes_in (printed (s_x σ'))) = u64 (total_len acc).
Proof.
  intros HM Hmem Hfo Hes Hmono Hinf Hbytes. destruct (start_system_spec M mem off fo tv HM Hmem Hfo) as
    (σ0 & g & E & H & Hp & Hall & Hdep & _ & Hup & Hpc & _). rewrite <-Hp in Hes.
  destruct (run_spec M off fo es σ0 g [] H Hes Hfo) as
    (σ & g' & hs & Er & H' & _ & _ & _ & Ho & seen & Hsub & Hunp & Hpk & Hby & _ & Hseen).
  specialize (Ho 0 ltac:(lia) Hmono (live_start σ0 g Hall)).
  destruct (capturaSenial_spec M off fo inf n σ g' hs H' Hfo) as
    (σ' & g2 & E2 & _ & _ & _ & _ & Hpr).
  { eapply run_not_done; [done|]. by rewrite Hpc. }
  { eapply (orderly_all_aged (end_time 0 es)); [done| |done|apply Z.mod_pos_bound; lia]. by apply end_time_ge. }
  exists σ0, σ, σ'. split_and!; try done. exists seen. split; [done|]. cbv zeta.
  pose proof (counted_accepted seen ltac:(by eapply Forall_sub)) as Cs. rewrite Cs in Hpk, Hby.
  rewrite counted_accepted in Hseen by done.
  rewrite Hup in Hunp. rewrite Hall in Hpk, Hby.
  assert (room σ0 g [] = 0)%nat as Hroom.
  { unfold room, cache_flows. unfold all_flows, departed in Hall. rewrite <-!app_assoc in Hall.
    apply app_nil in Hall as [_ [_ Hall]%app_nil]. by rewrite Hall. }
  rewrite Hroom in Hseen. rewrite Hpr, packets_in_app, bytes_in_app, <-Permutation_rev.
  unfold all_flows, live_flows in *. rewrite packets_in_app in Hpk. rewrite bytes_in_app in Hby.
  split_and!; [exact Hseen|exact Hunp|by rewrite Hpk|by rewrite Hby].
Qed.

Lemma sample_events_monotone : monotone 0 sample_events.
Proof. vm_compute. repeat split; discriminate. Qed.

Lemma sample_events_bytes : Forall (λ p, Forall (λ b, 0 ≤ b < 256) p.1) (packets sample_events).
Proof. apply (bool_decide_unpack _). vm_compute. exact I. Qed.

Lemma monitor_accounts_every_packet_witness :
  ∃ σ0 σ σ', start_system 8 4 100 3600 files_open 5 = Ok σ0 ∧
    run_events 3600 files_open sample_events σ0 = Ok σ ∧
    capturaSenial_flush 3600 files_open (-1) 2 σ = Ok σ' ∧
    ∃ seen, seen `sublist_of` packets sample_events ∧
      let acc := filter (λ p, accepted p = true) seen in
      ((S (length (filter (λ p, accepted p = true) (packets sample_events))) < 4)%nat →
        seen = packets sample_events) ∧
      u64 (unprocessed_packets (flows (s_dp σ)))
        = u64 (Z.of_nat (length (packets sample_events) - length seen)) ∧
      u32 (packets_in (printed (s_x σ'))) = u32 (Z.of_nat (length acc)) ∧
      u64 (bytes_in (printed (s_x σ'))) = u64 (total_len acc).
Proof.
  apply (monitor_accounts_every_packet 4 100 3600 files_open 5 sample_events);
    [lia|lia|done|apply sample_events_admissible|apply sample_events_monotone|done|apply sample_events_bytes].
Defined.

(** The samples are accepted. *)
Example sample_accepted : filter (λ p, accepted p = true) (packets sample_events) = packets sample_events.
Proof. vm_compute. reflexivity. Qed.

(** Flow lines come out in the order in which flows leave the active list, and
    nothing that was printed, is being printed or waits is lost or reordered by
    further packets and export steps: what departed stays a prefix of what
    departs, and what is printed of what is printed. *)
Lemma monitor_exports_in_order M mem off fo tv es1 es2 :
  (2 ≤ M)%nat → (3 * M + 3 ≤ mem)%nat → (∀ n, fo n = true) →
  admissible_events 0 (es1 ++ es2) →
  ∃ σ0 σ1 σ2 g1 g2 hs1 hs2, start_system (2 * M) M mem off fo tv = Ok σ0 ∧
    run_events off fo es1 σ0 = Ok σ1 ∧ run_events off fo es2 σ1 = Ok σ2 ∧
    sys_inv M σ1 g1 hs1 ∧ sys_inv M σ2 g2 hs2 ∧
    printed (s_x σ1) `prefix_of` printed (s_x σ2) ∧
    departed (flows (s_dp σ1)) g1 (s_x σ1) hs1 `prefix_of`
      departed (flows (s_dp σ2)) g2 (s_x σ2) hs2 ∧
    printed (s_x σ2) `prefix_of` departed (flows (s_dp σ2)) g2 (s_x σ2) hs2.
Proof.
  intros HM Hmem Hfo He. destruct (start_system_spec M mem off fo tv HM Hmem Hfo) as
    (σ0 & g & E & H & Hp & _). rewrite <-Hp in He.
  apply admissible_events_app in He as [He1 He2].
  destruct (run_spec M off fo es1 σ0 g [] H He1 Hfo) as (σ1 & g1 & hs1 & E1 & H1 & P1 & _).
  destruct (run_spec M off fo es2 σ1 g1 hs1 H1) as (σ2 & g2 & hs2 & E2 & H2 & _ & _ & D2 & _);
    [by rewrite P1|done|].
  exists σ0, σ1, σ2, g1, g2, hs1, hs2. split_and!; try done.
  - by eapply run_printed.
  - unfold departed. by apply prefix_app_r.
Qed.

Lemma monitor_exports_in_order_witness :
  ∃ σ0 σ1 σ2 g1 g2 hs1 hs2, start_system 8 4 100 3600 files_open 5 = Ok σ0 ∧
    run_events 3600 files_open (take 5 sample_events) σ0 = Ok σ1 ∧
    run_events 3600 files_open (drop 5 sample_events) σ1 = Ok σ2 ∧
    sys_inv 4 σ1 g1 hs1 ∧ sys_inv 4 σ2 g2 hs2 ∧
    printed (s_x σ1) `prefix_of` printed (s_x σ2) ∧
    departed (flows (s_dp σ1)) g1 (s_x σ1) hs1 `prefix_of`
      departed (flows (s_dp σ2)) g2 (s_x σ2) hs2 ∧
    printed (s_x σ2) `prefix_of` departed (flows (s_dp σ2)) g2 (s_x σ2) hs2.
Proof.
  apply (monitor_exports_in_order 4 100 3600 files_open 5 (take 5 sample_events) (drop 5 sample_events));
    [lia|lia|done|apply sample_events_admissible].
Defined.



(** ** The flow table *)

(** C6: insertFlow refines the abstract cache in the running monitor: an unknown tuple
    and a tuple whose flow has aged start a flow at the front, any other packet
    is added to the most recent flow of its tuple, which moves to the front; the
    session in hand is kept exactly when no flow was started, and no flow is
    dropped because nodes ran out. *)
Theorem insertFlow_refines_the_cache M s g hs x se :
  proc_inv M s g hs → aux_session s = Some x → sessions s !! x = Some se →
  let '(fresh, c) := cache_insert (last_packet_timestamp s) (incoming se) (cache_of s g) in
  ∃ s' g', insert_aux s = Ok s' ∧ proc_inv M s' g' hs ∧ cache_of s' g' = c ∧
    aux_session s' = (if fresh then None else Some x) ∧
    unprocessed_flows s' = unprocessed_flows s.
Proof.
  intros H Hx Hse. pose proof (insert_aux_spec M s g hs x se H Hx Hse) as Hi.
  destruct (cache_insert _ _ _). destruct Hi as (s' & g' & E & H' & C & A & U & _).
  exists s', g'. by split_and!.
Qed.

Lemma insertFlow_refines_the_cache_witness :
  ∃ s g x se, aux_session s = Some x ∧ sessions s !! x = Some se ∧
    incoming se = flow_of sample_frame 60 ∧
    let '(fresh, c) := cache_insert (last_packet_timestamp s) (incoming se) (cache_of s g) in
    ∃ s' g', insert_aux s = Ok s' ∧ proc_inv 4 s' g' [] ∧ cache_of s' g' = c ∧
      aux_session s' = (if fresh then None else Some x) ∧
      unprocessed_flows s' = unprocessed_flows s.
Proof.
  destruct (sample_in_hand 77) as (s & g & x & se & H & Hx & Hse & Hi & _).
  exists s, g, x, se. split; [done|]. split; [done|]. split; [done|].
  by apply (insertFlow_refines_the_cache 4 s g [] x se).
Defined.

(** With one or two free nodes left a packet that starts a flow is refused: the
    session comes back to the caller, the table and the queue stay as they were,
    nothing leaks from the node pool and the flow is counted as unprocessed. *)
Lemma insertFlow_without_nodes s g x hs se :
  log_ok (log s) → flow_inv s g → g_helds g = x :: hs → sessions s !! x = Some se →
  (1 ≤ length (g_nodes g) < 3)%nat →
  fst (cache_insert (last_packet_timestamp s) (incoming se) (cache_of s g)) = true →
  ∃ s' g', insertFlow s (Some x) = Ok (Some x, s') ∧ flow_inv s' g' ∧
    cache_of s' g' = cache_of s g ∧ g_helds g' = g_helds g ∧
    length (g_nodes g') = length (g_nodes g) ∧
    unprocessed_flows s' = u64 (unprocessed_flows s + 1).
Proof.
  intros Hlog Hinv Hh Hse [H1 H2] Hf.
  pose proof (insertFlow_spec s g x hs se Hlog Hinv Hh Hse H1) as Hspec.
  destruct (cache_insert _ _ _) as [fresh c]. cbn in Hf. subst fresh.
  destruct Hspec as (r & s' & g' & E & Hinv' & _ & _ & _ & _ & Hb).
  rewrite decide_False in Hb by lia. destruct Hb as (-> & B1 & B2 & B3 & B4). exists s', g'. by split_and!.
Qed.

Lemma insertFlow_without_nodes_witness :
  ∃ s g x, length (g_nodes g) = 2%nat ∧
  ∃ s' g', insertFlow s (Some x) = Ok (Some x, s') ∧ flow_inv s' g' ∧
    cache_of s' g' = cache_of s g ∧ g_helds g' = g_helds g ∧
    length (g_nodes g') = length (g_nodes g) ∧
    unprocessed_flows s' = u64 (unprocessed_flows s + 1).
Proof.
  destruct (start_monitor_started 2 2 10 ltac:(lia)) as
    (d & g & _ & Hinv & Hn & Hs & _ & Hlog & _ & _ & Hl & _ & Hd & _ & Hhs & _).
  destruct (g_sess g) as [|x [|y avs]] eqn:Hg; try done.
  destruct (take_session_inv (flows d) g x y avs Hinv Hg) as
    (h & q & g' & _ & Hinv' & Hh' & _ & Hn' & _ & _ & Hl' & _).
  eexists _, g', x. split; [by rewrite Hn'|].
  eapply (insertFlow_without_nodes (with_aux (Some x) (with_pool h (sessions (flows d)) q (log (flows d)) (flows d))) g' x (g_helds g) (session_at (sessions (flows d)) x));
    [exact Hlog|exact Hinv'|done| |rewrite Hn', Hn; lia|].
  - cbn. apply session_at_lookup. apply (fi_alloc _ _ Hinv'). unfold all_sessions. rewrite Hh'. left.
  - unfold cache_insert, cache_of. by rewrite Hl', Hl.
Defined.

(** C11: cleanup_flows refines the abstract expiry: starting at the least recently used
    flow it moves aged flows to the export queue, oldest first, and stops at the
    first one that has not aged; their table nodes go back to the pool. *)
Theorem cleanup_flows_refines_the_cache M s g hs :
  proc_inv M s g hs →
  ∃ s' g', cleanup_flows s = Ok s' ∧ proc_inv M s' g' hs ∧
    cache_of s' g' = cache_cleanup (last_packet_timestamp s) (cache_of s g) ∧
    (length (g_nodes g') = length (g_nodes g) + (length (g_live g) - length (g_live g')))%nat.
Proof.
  intros H. destruct (proc_cleanup M s g hs H) as (s' & g' & E & H' & C & _ & _ & _ & _ & _ & N & _).
  exists s', g'. split_and!; [done..|]. pose proof (cache_cleanup_flows (last_packet_timestamp s) (cache_of s g)) as Hp.
  rewrite <-C in Hp. apply Permutation_length in Hp. unfold cache_flows in Hp.
  rewrite !length_app, !cache_of_live, !cache_of_dead in Hp.
  pose proof (pi_nodes _ _ _ _ H) as P1. pose proof (pi_nodes _ _ _ _ H') as P2. rewrite N in P2.
  pose proof (cache_cleanup_live (last_packet_timestamp s) (cache_of s g)) as Hl.
  rewrite <-C, !cache_of_live in Hl. lia.
Qed.

Lemma cleanup_flows_refines_the_cache_witness :
  ∃ s g, cache_of s g = Cache [AFlow (flow_of sample_frame 60) 10 10] [] ∧
  ∃ s' g', cleanup_flows s = Ok s' ∧ proc_inv 4 s' g' [] ∧
    cache_of s' g' = cache_cleanup (last_packet_timestamp s) (cache_of s g) ∧
    (length (g_nodes g') = length (g_nodes g) + (length (g_live g) - length (g_live g')))%nat.
Proof.
  destruct (sample_entered 10) as (s & g & H & _ & _ & Hc). exists s, g. split; [done|].
  by apply (cleanup_flows_refines_the_cache 4 s g []).
Defined.

(** While time does not go back, expiry is exact although it only looks at the end
    of the list: cleanup_flows exports every flow that has been idle for more
    than 90 seconds and no other, in the order of their last packets. *)
Lemma cleanup_flows_takes_exactly_the_aged M s g hs :
  proc_inv M s g hs → recent (last_packet_timestamp s) (c_live (cache_of s g)) →
  ∃ s' g' out, cleanup_flows s = Ok s' ∧ proc_inv M s' g' hs ∧
    c_live (cache_of s' g') =
      filter (λ e, last_packet_timestamp s - af_last e ≤ 90 * 1000000) (c_live (cache_of s g)) ∧
    c_dead (cache_of s' g') = c_dead (cache_of s g) ++ out ∧
    out ≡ₚ filter (λ e, 90 * 1000000 < last_packet_timestamp s - af_last e) (c_live (cache_of s g)) ∧
    StronglySorted (λ a b, af_last a ≤ af_last b) out.
Proof.
  intros H Hr. destruct (proc_cleanup M s g hs H) as (s' & g' & E & H' & C & _).
  rewrite (cleanup_recent _ _ Hr) in C. eexists s', g', _. split; [done|]. split; [done|].
  rewrite C. cbn [c_live c_dead]. pose proof Hr as (Hs & Hf & Hn).
  assert (∀ e, e ∈ c_live (cache_of s g) →
    aged (last_packet_timestamp s) (af_last e)
      = (90 * 1000000 <? last_packet_timestamp s - af_last e)) as Hag.
  { intros e He. rewrite Forall_forall in Hf. by apply aged_recent; [apply Hf|]. }
  split; [|split; [reflexivity|split]].
  - apply list_filter_iff'. apply Forall_forall. intros e He. rewrite Hag by done.
    rewrite Z.ltb_ge. lia.
  - rewrite <-Permutation_rev. match goal with |- ?a ≡ₚ ?b => assert (a = b) as ->; [|done] end.
    apply list_filter_iff'. apply Forall_forall. intros e He. rewrite Hag by done. by rewrite Z.ltb_lt.
  - apply StronglySorted_rev. by apply StronglySorted_filter.
Qed.

Lemma cleanup_flows_takes_exactly_the_aged_witness :
  ∃ s g, cache_of s g = Cache [AFlow (flow_of sample_frame 60) 10 10] [] ∧
  ∃ s' g' out, cleanup_flows s = Ok s' ∧ proc_inv 4 s' g' [] ∧
    c_live (cache_of s' g') =
      filter (λ e, last_packet_timestamp s - af_last e ≤ 90 * 1000000) (c_live (cache_of s g)) ∧
    c_dead (cache_of s' g') = c_dead (cache_of s g) ++ out ∧
    out ≡ₚ filter (λ e, 90 * 1000000 < last_packet_timestamp s - af_last e) (c_live (cache_of s g)) ∧
    StronglySorted (λ a b, af_last a ≤ af_last b) out.
Proof.
  destruct (sample_entered 10) as (s & g & H & Ht & _ & Hc). exists s, g. split; [done|].
  apply (cleanup_flows_takes_exactly_the_aged 4 s g []); [done|]. rewrite Hc, Ht.
  split_and!; [by repeat constructor| |done]. by repeat constructor.
Defined.

(** While time does not go back, insertFlow never leaves two unexpired flows with
    the same tuple in the table, and keeps the table ordered by last packet. *)
Lemma insertFlow_keeps_flows_unique M s g hs x se t :
  proc_inv M s g hs → aux_session s = Some x → sessions s !! x = Some se →
  orderly t (c_live (cache_of s g)) → 0 ≤ t ≤ last_packet_timestamp s →
  last_packet_timestamp s < 2 ^ 64 →
  ∃ s' g', insert_aux s = Ok s' ∧ proc_inv M s' g' hs ∧
    orderly (last_packet_timestamp s) (c_live (cache_of s' g')) ∧
    ∀ i j a b, c_live (cache_of s' g') !! i = Some a → c_live (cache_of s' g') !! j = Some b →
      flow_tuple (af_flow a) = flow_tuple (af_flow b) →
      aged (last_packet_timestamp s) (af_last a) = false →
      aged (last_packet_timestamp s) (af_last b) = false → i = j.
Proof.
  intros H Hx Hse Ho Ht Hb. pose proof (insert_aux_spec M s g hs x se H Hx Hse) as Hi.
  pose proof (orderly_insert t (last_packet_timestamp s) (incoming se) (cache_of s g) Ho
    ltac:(lia) ltac:(lia) Hb) as Ho'.
  destruct (cache_insert _ _ _) as [fresh c]. destruct Hi as (s' & g' & E & H' & C & _).
  exists s', g'. rewrite C. split_and!; [done..|]. by apply unique_young_lookup, Ho'.
Qed.

Lemma insertFlow_keeps_flows_unique_witness :
  ∃ s x se, aux_session s = Some x ∧ sessions s !! x = Some se ∧
  ∃ s' g', insert_aux s = Ok s' ∧ proc_inv 4 s' g' [] ∧
    orderly (last_packet_timestamp s) (c_live (cache_of s' g')) ∧
    ∀ i j a b, c_live (cache_of s' g') !! i = Some a → c_live (cache_of s' g') !! j = Some b →
      flow_tuple (af_flow a) = flow_tuple (af_flow b) →
      aged (last_packet_timestamp s) (af_last a) = false →
      aged (last_packet_timestamp s) (af_last b) = false → i = j.
Proof.
  destruct (sample_in_hand 77) as (s & g & x & se & H & Hx & Hse & _ & Ht & Hc & _).
  exists s, x, se. split; [done|]. split; [done|].
  apply (insertFlow_keeps_flows_unique 4 s g [] x se 5); [done|done|done| |rewrite Ht; lia|by rewrite Ht].
  rewrite Hc. by apply orderly_nil.
Defined.

(** ** The parser *)

(** C7: Round trip of the wire format: from a running monitor with a session to be had,
    parsing an encoded Ethernet frame with any number of 802.1Q tags, IP options
    and a TCP, UDP or ICMP header, whatever bytes follow, enters exactly the
    frame's addresses, ports, protocol, MAC addresses and innermost VLAN id as
    one packet of the captured length. *)
Theorem parsePacket_reads_the_frame M f rest h s g hs :
  proc_inv M s g hs → frame_ok f → l4_offset f < caplen h →
  (length (cache_flows (cache_of s g)) + length hs + 2 ≤ M)%nat →
  ∃ s' g', parsePacket (encode f ++ rest) h s = Ok s' ∧ proc_inv M s' g' hs ∧
    cache_of s' g' = snd (cache_insert (last_packet_timestamp s) (flow_of f (len h)) (cache_of s g)) ∧
    unprocessed_packets s' = unprocessed_packets s ∧
    count_pckts_malformed s' = count_pckts_malformed s.
Proof.
  intros H Hf Hcap Hroom. destruct (parsePacket_frame M f rest h s g hs H Hf Hcap Hroom) as
    (s' & g' & E & H' & C & _ & _ & _ & U & D).
  exists s', g'. by split_and!.
Qed.

Lemma parsePacket_reads_the_frame_witness :
  ∃ s g, cache_of s g = Cache [AFlow (flow_of sample_frame 60) 10 10] [] ∧
    last_packet_timestamp s = 10 ∧
  ∃ s' g', parsePacket (encode sample_frame ++ [1; 2; 3]) (sample_header 10) s = Ok s' ∧
    proc_inv 4 s' g' [] ∧
    cache_of s' g' = Cache [AFlow (with_counters 2 120 (flow_of sample_frame 60)) 10 10] [] ∧
    unprocessed_packets s' = unprocessed_packets s ∧
    count_pckts_malformed s' = count_pckts_malformed s.
Proof.
  destruct (sample_entered 10) as (s & g & H & Ht & Hn & Hc). exists s, g. split; [done|]. split; [done|].
  destruct (parsePacket_reads_the_frame 4 sample_frame [1; 2; 3] (sample_header 10) s g [] H
    sample_frame_ok ltac:(by vm_compute)) as (s' & g' & E & H' & C & U & D).
  - rewrite Hc. cbn. lia.
  - rewrite Hc, Ht in C. exists s', g'. by split_and!.
Defined.

(** Whatever the bytes of a packet are, with twelve readable bytes behind the
    captured length parsePacket ends without a fault in one of four ways: it
    ignores the packet, counts it as malformed, counts it as unprocessed when no
    session is left, or enters one flow of one packet of the frame's length. *)
Lemma parsePacket_is_total M buf h s g hs :
  proc_inv M s g hs → ETH_HLEN ≤ caplen h → caplen h + 12 ≤ Z.of_nat (length buf) →
  ∃ s' g', parsePacket buf h s = Ok s' ∧ proc_inv M s' g' hs ∧
    unprocessed_flows s' = unprocessed_flows s ∧
    ((cache_of s' g' = cache_of s g ∧ unprocessed_packets s' = unprocessed_packets s ∧
      (count_pckts_malformed s' = count_pckts_malformed s ∨
       count_pckts_malformed s' = u64 (count_pckts_malformed s + 1))) ∨
     (cache_of s' g' = cache_of s g ∧ unprocessed_packets s' = u64 (unprocessed_packets s + 1) ∧
      count_pckts_malformed s' = count_pckts_malformed s) ∨
     ∃ f, npack f = 1 ∧ nbytes f = len h ∧
       cache_of s' g' = snd (cache_insert (last_packet_timestamp s) f (cache_of s g)) ∧
       unprocessed_packets s' = unprocessed_packets s ∧
       count_pckts_malformed s' = count_pckts_malformed s).
Proof.
  intros H Hcap Hbuf. destruct (parsePacket_spec M buf h s g hs H Hcap Hbuf) as
    (s' & g' & E & H' & _ & _ & _ & U & Hout).
  exists s', g'. split_and!; [done..|]. destruct Hout as [(_ & Ho)|[(? & ? & ? & ?)|(f & _ & [Hp Hb] & Ho)]]; [by left|by right; left|].
  right; right. by exists f.
Qed.

Lemma parsePacket_is_total_witness :
  ∃ s g, cache_of s g = Cache [AFlow (flow_of sample_frame 60) 10 10] [] ∧
  ∃ s' g', parsePacket (replicate 80 255) (PktHdr 10 0 60 60) s = Ok s' ∧ proc_inv 4 s' g' [] ∧
    unprocessed_flows s' = unprocessed_flows s ∧
    ((cache_of s' g' = cache_of s g ∧ unprocessed_packets s' = unprocessed_packets s ∧
      (count_pckts_malformed s' = count_pckts_malformed s ∨
       count_pckts_malformed s' = u64 (count_pckts_malformed s + 1))) ∨
     (cache_of s' g' = cache_of s g ∧ unprocessed_packets s' = u64 (unprocessed_packets s + 1) ∧
      count_pckts_malformed s' = count_pckts_malformed s) ∨
     ∃ f, npack f = 1 ∧ nbytes f = 60 ∧
       cache_of s' g' = snd (cache_insert (last_packet_timestamp s) f (cache_of s g)) ∧
       unprocessed_packets s' = unprocessed_packets s ∧
       count_pckts_malformed s' = count_pckts_malformed s).
Proof.
  destruct (sample_entered 10) as (s & g & H & _ & _ & Hc). exists s, g. split; [done|].
  apply (parsePacket_is_total 4 (replicate 80 255) (PktHdr 10 0 60 60) s g []); [done|by vm_compute|by vm_compute].
Defined.

(** An Ethernet header, an IP header of 20 bytes. *)
Definition short_eth : list Z := replicate 12 2.
Definition short_ip (proto : Z) : list Z :=
  [8; 0; 0x45; 0; 0; 60; 0; 0; 0; 0; 64; proto; 0; 0; 10; 0; 0; 1; 10; 0; 0; 2].

(** A tag, a UDP and a TCP header that are cut off. *)
Definition short_packets : list (list Z) :=
  [short_eth ++ [0x81; 0]; short_eth ++ short_ip 17 ++ [0]; short_eth ++ short_ip 6 ++ [0; 1; 0; 2; 0; 0]].

(** The bounds checks of parsePacket do not cover what it reads: on a monitor that
    has just started, a 14-byte packet that claims an 802.1Q tag, a 35-byte one
    whose UDP header is cut off and a 40-byte one whose TCP header is cut off
    are read past their captured bytes. *)
Lemma parsePacket_reads_past_the_capture :
  ∃ d, start_monitor 8 4 100 = Ok d ∧
    Forall (λ buf, process_packet buf (PktHdr 10 0 (Z.of_nat (length buf)) 100) d = Err OutOfBounds)
      short_packets.
Proof.
  destruct (checked (start_monitor 8 4 100) (λ d, forallb (λ buf,
    faults_with OutOfBounds (process_packet buf (PktHdr 10 0 (Z.of_nat (length buf)) 100) d)) short_packets))
    as (d & E & H); [by vm_compute|].
  exists d. split; [done|]. apply Is_true_true, forallb_True in H. eapply Forall_impl; [exact H|].
  intros buf Hb. by apply faults_with_true, Is_true_true.
Qed.

(** ** The clock *)




(** Packets one after the other. *)
Fixpoint process_packets (l : list (buffer * pkthdr)) (d : dpstate) : res dpstate :=
  match l with
  | [] => Ok d
  | (buf, h) :: l => d ← process_packet buf h d; process_packets l d
  end.

Definition second (h : pkthdr) : Z := packet_time h / US_IN_SEC.

(** The state with nothing in the table and nothing waiting, its pools as they are. *)
Definition no_flows (s : fstate) : fstate := with_aux None (with_table ∅ (with_heads None None None s)).

(** A packet of a clock that is at second [t] since the first packet. *)
Lemma first_second_step buf h d d' t :
  0 < t → second h = t → previous2 d = 0 → (previous d = 0 ∨ previous d = t) → process_packet buf h d = Ok d' →
  previous d' = t ∧ previous2 d' = 0.
Proof.
  intros Ht Hs H2 Hp E. unfold process_packet in E. fold (second h) in E. rewrite Hs in E. cbn [previous with_current with_flows] in E.
  assert (∀ d1, previous d1 = t → previous2 d1 = 0 → current d1 = t → clock_step d1 = Ok (with_clock t 0 d1)) as Hclock.
  { intros d1 Hp1 Hp2 Hc. unfold clock_step. by rewrite Hp1, Hp2, Hc, Z.ltb_irrefl, Z.eqb_refl. }
  assert (∃ d1, previous d1 = t ∧ previous2 d1 = 0 ∧ (if ETH_HLEN <=? caplen h then s ← parsePacket buf h (flows d1); Ok (with_flows s d1)
    else Ok d1) = Ok d') as (d1 & H1 & H2' & E').
  { destruct Hp as [Hp|Hp].
    - rewrite Hp in E. cbn [Z.eqb] in E. rewrite Hclock in E; [|done|exact Hp|done]. eexists. split; [|split; [|exact E]]; done. 
    - rewrite Hp in E. rewrite (proj2 (Z.eqb_neq t 0)) in E by lia. rewrite Hclock in E; [|exact Hp|exact H2|done]. eexists. split; [|split; [|exact E]]; done. }
  destruct (_ <=? _) in E'; [|by injection E' as <-]. destruct (parsePacket _ _ _); [|done]. by injection E' as <-.
Qed.

Lemma first_second l d d' t :
  0 < t → Forall (λ p, second p.2 = t) l → previous2 d = 0 → (previous d = 0 ∨ previous d = t) → process_packets l d = Ok d' →
  previous2 d' = 0 ∧ (previous d' = t ∨ l = []).
Proof.
  intros Ht Hl. revert d. induction Hl as [|[buf h] l Hh _ IH]; intros d H2 Hp; cbn [process_packets].
  { intros [= <-]. split; [done|by right]. }
  destruct (process_packet buf h d) as [d1|] eqn:E; [|done]. cbn [mbind res_bind]. intros E2.
  destruct (first_second_step _ _ _ _ _ Ht Hh H2 Hp E) as [Hp1 H21]. destruct (IH d1 H21 (or_intror Hp1) E2) as [H2' Hp'].
  split; [done|]. left. destruct Hp' as [|Hnil]; [done|]. rewrite Hnil in E2. by injection E2 as <-.
Qed.

Lemma start_monitor_clock N M mem d : start_monitor N M mem = Ok d → previous d = 0 ∧ previous2 d = 0.
Proof.
  unfold start_monitor, reserve. destruct (startLog _ _ _) as [[? lg]|]; [|done]. cbn [mbind res_bind].
  destruct (logInfos _ _); [|done]. cbn [mbind res_bind].
  destruct (allocIPSessionPool _ _ _ _ _) as [[[[??]?]?]|]; [|done]. cbn [mbind res_bind].
  destruct (allocNodelPool _ _ _ _) as [[[??]?]|]; [|done]. cbn [mbind res_bind].
  destruct (logInfo _ _); [|done]. cbn [mbind res_bind]. by intros [= <-].
Qed.

(** C12: A clock that goes back while the first second of the traffic lasts: after any
    packets of second [t] and one of an earlier second, whatever packet comes next is
    handled as if no flow had ever been seen.  The table and every list are
    empty for it, while the pools of sessions and nodes are as the packets before
    left them: no list leads to those flows any more. *)
Theorem clock_rollback_loses_flows N M mem t l d buf h d1 buf' h' :
  0 < t → l ≠ [] → Forall (λ p, second p.2 = t) l → 0 < second h < t →
  (d0 ← start_monitor N M mem; process_packets l d0) = Ok d → process_packet buf h d = Ok d1 →
  let s := with_time (packet_time h') (no_flows (flows d1)) in
  ∃ dc, previous dc = second h' ∧
    process_packet buf' h' d1 = (s' ← (if ETH_HLEN <=? caplen h' then parsePacket buf' h' s else Ok s); Ok (with_flows s' dc)).
Proof.
  intros Ht Hne Hl Hh E E1 s. destruct (start_monitor N M mem) as [d0|] eqn:E0; [|done]. cbn [mbind res_bind] in E.
  destruct (start_monitor_clock _ _ _ _ E0) as [Hp0 H20].
  destruct (first_second l d0 d t Ht Hl H20 (or_introl Hp0) E) as [H2 [Hp|]]; [|done].
  assert (previous d1 = 0) as Hp1.
  { unfold process_packet in E1. fold (second h) in E1. cbn [previous with_current with_flows] in E1.
    rewrite Hp, (proj2 (Z.eqb_neq t 0)) in E1 by lia. unfold clock_step in E1. cbn [previous previous2 current with_current with_flows] in E1.
    rewrite Hp, H2, (proj2 (Z.ltb_ge t _)), (proj2 (Z.eqb_neq t _)), (proj2 (Z.ltb_lt 0 _)) in E1 by lia.
    cbn [mbind res_bind] in E1. destruct (_ <=? _) in E1; [|by injection E1 as <-].
    destruct (parsePacket _ _ _) in E1; [|done]. by injection E1 as <-. }
  unfold process_packet. fold (second h'). cbn [previous with_current with_flows]. rewrite Hp1. cbn [Z.eqb].
  match goal with |- context [clock_step ?d] => set (di := d) end.
  assert (clock_step di = Ok (with_clock (second h') (previous2 di) di)) as ->.
  { unfold clock_step. change (previous di) with (current di). by rewrite Z.ltb_irrefl, Z.eqb_refl. }
  exists (with_clock (second h') (previous2 di) di). split; [done|]. cbn [mbind res_bind].
  change (flows (with_clock (second h') (previous2 di) di)) with s. by destruct (_ <=? _).
Qed.

(** The second packet is one second before the first. *)
Lemma clock_rollback_loses_flows_witness :
  ∃ d d1 dc, (d0 ← start_monitor 8 4 100; process_packets [(sample_buffer, sample_header 10)] d0) = Ok d ∧
    process_packet sample_buffer (sample_header 9) d = Ok d1 ∧ used_session (ip_session (flows d1)) = 2 ∧
    process_packet sample_buffer (sample_header 10) d1 =
      (s' ← parsePacket sample_buffer (sample_header 10) (with_time 10000250 (no_flows (flows d1))); Ok (with_flows s' dc)).
Proof.
  destruct (checked (d ← (d0 ← start_monitor 8 4 100; process_packets [(sample_buffer, sample_header 10)] d0);
    process_packet sample_buffer (sample_header 9) d) (λ d1, used_session (ip_session (flows d1)) =? 2)) as (d1 & E1 & Hu); [by vm_compute|].
  apply res_bind_Ok in E1 as (d & E & E1). cbv beta in E1.
  assert (second (sample_header 10) = 10) as H10 by by vm_compute.
  assert (0 < second (sample_header 9) < 10) as H9 by (split; by vm_compute).
  assert (Forall (λ p, second p.2 = 10) [(sample_buffer, sample_header 10)]) as Hl by (constructor; [exact H10|constructor]).
  pose proof (clock_rollback_loses_flows 8 4 100 10 [(sample_buffer, sample_header 10)] d sample_buffer (sample_header 9) d1 sample_buffer (sample_header 10)
    eq_refl ltac:(discriminate) Hl H9 E E1) as (dc & _ & E2).
  exists d, d1, dc. split; [exact E|]. split; [exact E1|]. split; [by apply Z.eqb_eq|].
  replace (packet_time (sample_header 10)) with 10000250 in E2 by by vm_compute.
  replace (ETH_HLEN <=? caplen (sample_header 10)) with true in E2 by by vm_compute. exact E2.
Defined.

(** The age of a flow is a difference of unsigned times: a packet that is even one
    microsecond older than the last one of its flow (and less than 2^64 - 90 s)
    finds the flow expired, and starts a second one with the same tuple. *)
Lemma older_packet_splits_its_flow M s g hs x se e rest :
  proc_inv M s g hs → aux_session s = Some x → sessions s !! x = Some se →
  extract (λ e, same_tuple (af_flow e) (incoming se)) (c_live (cache_of s g)) = Some (e, rest) →
  last_packet_timestamp s < af_last e < last_packet_timestamp s + 2 ^ 64 - 90 * 1000000 →
  ∃ s' g', insert_aux s = Ok s' ∧ proc_inv M s' g' hs ∧ aux_session s' = None ∧
    c_live (cache_of s' g') =
      AFlow (incoming se) (last_packet_timestamp s) (last_packet_timestamp s)
      :: c_live (cache_of s g).
Proof.
  intros H Hx Hse He Ht. pose proof (insert_aux_spec M s g hs x se H Hx Hse) as Hi.
  unfold cache_insert in Hi. rewrite He in Hi.
  assert (aged (last_packet_timestamp s) (af_last e) = true) as Ha.
  { unfold aged, u64, EXPIRATION_FLOW_TIME. apply Z.ltb_lt.
    replace (last_packet_timestamp s - af_last e) with
      (last_packet_timestamp s - af_last e + 2 ^ 64 + (-1) * 2 ^ 64) by lia.
    rewrite Z.mod_add by lia. rewrite Z.mod_small by lia. lia. }
  rewrite Ha in Hi. destruct Hi as (s' & g' & E & H' & C & A & _).
  exists s', g'. by rewrite C.
Qed.

Lemma older_packet_splits_its_flow_witness :
  ∃ s g, cache_of s g = Cache [AFlow (flow_of sample_frame 60) 10 10] [] ∧
    last_packet_timestamp s = 9 ∧
  ∃ s' g', insert_aux s = Ok s' ∧ proc_inv 4 s' g' [] ∧ aux_session s' = None ∧
    c_live (cache_of s' g') =
      [AFlow (flow_of sample_frame 60) 9 9; AFlow (flow_of sample_frame 60) 10 10].
Proof.
  destruct (sample_second 10 9) as (s & g & x & se & H & Hx & Hse & Hi & Ht & Hc).
  exists s, g. split; [done|]. split; [done|].
  destruct (older_packet_splits_its_flow 4 s g [] x se (AFlow (flow_of sample_frame 60) 10 10) []
    H Hx Hse) as (s' & g' & E & H' & A & C).
  - by rewrite Hc, Hi.
  - rewrite Ht. cbn. lia.
  - exists s', g'. rewrite C, Hc, Hi, Ht. done.
Defined.

(** ** The session in hand *)

(** The head of parsePacket always has its session: in the running monitor it never
    reaches the exit of getIPSession, it leaves the table alone, and it gives
    the parser a session whose flow is all zero; only when a single session is
    left in the pool does it give none, and takes none. *)
Lemma getIPSession_never_exits M s g hs :
  proc_inv M s g hs →
  ∃ found s' g', obtain_session s = Ok (found, s') ∧ proc_inv M s' g' hs ∧
    cache_of s' g' = cache_of s g ∧
    if found : bool
    then ∃ x se, aux_session s' = Some x ∧ sessions s' !! x = Some se ∧ incoming se = zero_flow
    else aux_session s' = None ∧ length (g_sess g) = 1%nat.
Proof.
  intros H. destruct (obtain_session_spec M s g hs H) as
    (found & s' & g' & E & H' & C & _ & _ & _ & _ & _ & _ & Hf).
  exists found, s', g'. by split_and!.
Qed.

Lemma getIPSession_never_exits_witness :
  ∃ s g, cache_of s g = Cache [AFlow (flow_of sample_frame 60) 10 10] [] ∧
  ∃ found s' g', obtain_session s = Ok (found, s') ∧ proc_inv 4 s' g' [] ∧
    cache_of s' g' = cache_of s g ∧
    if found : bool
    then ∃ x se, aux_session s' = Some x ∧ sessions s' !! x = Some se ∧ incoming se = zero_flow
    else aux_session s' = None ∧ length (g_sess g) = 1%nat.
Proof.
  destruct (sample_entered 10) as (s & g & H & _ & _ & Hc). exists s, g. split; [done|].
  by apply (getIPSession_never_exits 4 s g []).
Defined.
