(* ===== verification/ListPoolProps.v ===== *)
(** * Programs over the lists and the pools

    Any program of list operations computes on a Rocq list, and any program of
    takes and puts on a pool computes on a queue, proved from the interface
    [FifoPool] for both pools at once. *)

From S2P Require Import Prelude Log NodeList Rings FlowData Pools NodePool SessionPool.

(** ** Programs of list operations *)

Inductive list_op := LPrepend (x : loc) | LAppend (x : loc) | LUnlink (x : loc) | LPop.

Definition list_op_exec (st : heap * option loc) (o : list_op) : res (heap * option loc) :=
  let '(h, hd) := st in
  match o with
  | LPrepend x => list_prepend_node h hd (Some x)
  | LAppend x => list_append_node h hd (Some x)
  | LUnlink x => list_unlink h hd (Some x)
  | LPop => '(h, hd, _) ← list_pop_first_node h hd; Ok (h, hd)
  end.

Definition list_exec (os : list list_op) (st : res (heap * option loc)) : res (heap * option loc) :=
  foldl (λ st o, st ← st; list_op_exec st o) st os.

(** On sequences: a node is entered once, and only a member is unlinked. *)
Definition list_op_seq (l : option (list loc)) (o : list_op) : option (list loc) :=
  l ← l;
  match o with
  | LPrepend x => if decide (x ∈ l) then None else Some (x :: l)
  | LAppend x => if decide (x ∈ l) then None else Some (l ++ [x])
  | LUnlink x => if decide (x ∈ l) then Some (filter (.≠ x) l) else None
  | LPop => Some (tail l)
  end.

Definition list_seq (os : list list_op) (l : list loc) : option (list loc) :=
  foldl list_op_seq (Some l) os.

Definition op_nodes (o : list_op) : list loc :=
  match o with LPrepend x | LAppend x | LUnlink x => [x] | LPop => [] end.

Lemma filter_ne_id (x : loc) (l : list loc) : x ∉ l → filter (.≠ x) l = l.
Proof.
  induction l as [|y l IH]; [done|]. intros [H1 H2]%not_elem_of_cons.
  rewrite filter_cons, decide_True by done. by rewrite IH.
Qed.

Lemma filter_ne_split (x : loc) (l1 l2 : list loc) : NoDup (l1 ++ x :: l2) → filter (.≠ x) (l1 ++ x :: l2) = l1 ++ l2.
Proof.
  intros (_ & Hd & Hx)%NoDup_app. apply NoDup_cons in Hx as [Hx _].
  rewrite filter_app, filter_cons, decide_False by tauto.
  rewrite !filter_ne_id; [done|done|]. intros Hin. by apply (Hd x Hin); left.
Qed.

Lemma dll_alloc h hd l x : dll h hd l → x ∈ l → is_Some (h !! x).
Proof. intros (_ & _ & Hr) Hx. by eapply ring_lookup. Qed.

Lemma list_op_spec h hd l o l' :
  dll h hd l → Forall (λ x, is_Some (h !! x)) (op_nodes o) → list_op_seq (Some l) o = Some l' →
  ∃ h', list_op_exec (h, hd) o = Ok (h', head l') ∧ dll h' (head l') l' ∧
    touches (op_nodes o ++ l) h h'.
Proof.
  intros Hl Hn Hs. pose proof Hl as (-> & Hnd & _).
  destruct o as [x|x|x|]; cbn [op_nodes list_op_seq list_op_exec mbind option_bind] in *.
  - rewrite Forall_singleton in Hn. case_decide as Hx; [done|]. injection Hs as <-.
    by apply list_prepend_node_spec.
  - rewrite Forall_singleton in Hn. case_decide as Hx; [done|]. injection Hs as <-.
    by apply list_append_node_spec.
  - rewrite Forall_singleton in Hn. case_decide as Hx; [|done]. injection Hs as <-. apply list_elem_of_split in Hx as (l1 & l2 & ->).
    rewrite filter_ne_split by done.
    destruct (list_unlink_spec h _ l1 x l2 Hl) as (h' & E & Hd & Ht & _).
    exists h'. split_and!; [done|done|]. eapply touches_weaken, Ht. set_solver.
  - injection Hs as <-. destruct l as [|x l].
    + exists h. split_and!; [done|done|apply touches_refl].
    + destruct (list_pop_first_node_spec h _ x l Hl) as (h' & E & Hd & Ht & _).
      rewrite E. by exists h'.
Qed.

Lemma list_exec_spec os h hd l l' :
  dll h hd l → (∀ x, x ∈ os ≫= op_nodes → is_Some (h !! x)) → list_seq os l = Some l' →
  ∃ h', list_exec os (Ok (h, hd)) = Ok (h', head l') ∧ dll h' (head l') l' ∧
    touches ((os ≫= op_nodes) ++ l) h h'.
Proof.
  revert h hd l. induction os as [|o os IH]; intros h hd l Hl Hn Hs.
  - injection Hs as <-. exists h. pose proof Hl as (-> & _ & _). split_and!; [done|done|apply touches_refl].
  - unfold list_seq in Hs. cbn in Hs.
    destruct (list_op_seq (Some l) o) as [l1|] eqn:H1; cbn in H1; rewrite H1 in Hs; last first.
    { exfalso. clear -Hs. induction os as [|o os IH]; [done|by apply IH]. }
    destruct (list_op_spec h hd l o l1 Hl) as (h1 & E & Hl1 & Ht1); [|done|].
    { rewrite Forall_forall. intros x Hx. apply Hn. cbn. set_solver. }
    destruct (IH h1 (head l1) l1 Hl1) as (h' & E' & Hl' & Ht'); [|done|].
    { intros x Hx. rewrite <-(touches_is_Some _ h h1 x Ht1). apply Hn. cbn. set_solver. }
    assert (l1 ⊆ op_nodes o ++ l) as Hsub.
    { revert H1. destruct o as [x|x|x|]; cbn; try case_decide; intros [= <-]; try set_solver.
      - intros y [_ Hy]%list_elem_of_filter. set_solver.
      - destruct l; set_solver. }
    exists h'. split_and!; [|done|].
    + unfold list_exec in *. cbn [foldl mbind res_bind]. by rewrite E.
    + eapply touches_trans; [eapply touches_weaken, Ht1; cbn; set_solver|].
      eapply touches_weaken, Ht'. cbn. set_solver.
Qed.

(** C8: Any program of list_prepend_node, list_append_node, list_unlink and
    list_pop_first_node that enters no node twice and unlinks only members runs
    without a fault from a circular list and leaves the circular list of the same
    program on sequences; it keeps every [data] field and writes to no node
    outside the list and the program. *)
Theorem list_programs_compute_sequences os h hd l l' :
  dll h hd l → (∀ x, x ∈ os ≫= op_nodes → is_Some (h !! x)) → list_seq os l = Some l' →
  ∃ h', list_exec os (Ok (h, hd)) = Ok (h', head l') ∧ dll h' (head l') l' ∧
    (∀ y, y ∉ (os ≫= op_nodes) ++ l → h' !! y = h !! y) ∧ same_data h h'.
Proof.
  intros Hl Hn Hs. destruct (list_exec_spec os h hd l l' Hl Hn Hs) as (h' & E & Hl' & Ht).
  exists h'. split_and!; [done|done|apply Ht|by eapply touches_same_data].
Qed.

Definition three_nodes : heap :=
  <[1%positive := Node None None VNull]> (<[2%positive := Node None None (VSession 7)]>
    (<[3%positive := Node None None (VNode 9)]> ∅)).

Lemma list_programs_compute_sequences_witness :
  ∃ h', list_exec [LPrepend 1; LAppend 2; LPrepend 3; LUnlink 1; LPop; LAppend 1]%positive
    (Ok (three_nodes, None)) = Ok (h', Some 2%positive) ∧ dll h' (Some 2%positive) [2; 1]%positive ∧
    (∀ y, y ∉ [1; 2; 3; 1; 1]%positive → h' !! y = three_nodes !! y) ∧ same_data three_nodes h'.
Proof.
  apply (list_programs_compute_sequences
    [LPrepend 1; LAppend 2; LPrepend 3; LUnlink 1; LPop; LAppend 1]%positive three_nodes None [] [2; 1]%positive).
  - split_and!; [done|constructor|apply ring_nil].
  - intros x Hx. cbn in Hx. repeat (apply elem_of_cons in Hx as [->|Hx]; [by eexists|]).
    by apply elem_of_nil in Hx.
  - done.
Defined.

(** ** Programs on a pool *)

Inductive pool_op := PTake | PPut (x : loc).

(** A pool as a queue: the free objects, and how many are out. *)
Record queue := Queue { q_free : list loc; q_out : nat }.

(** The last free object is never handed out; a put needs something to be out. *)
Definition queue_op (q : queue) (o : pool_op) : option (option loc * queue) :=
  match o, q with
  | PTake, Queue (x :: y :: av) n => Some (Some x, Queue (y :: av) (S n))
  | PTake, Queue [x] n => Some (None, q)
  | PTake, Queue [] _ => None
  | PPut x, Queue av (S n) => Some (None, Queue (av ++ [x]) n)
  | PPut _, Queue _ O => None
  end.

Fixpoint queue_run (os : list pool_op) (q : queue) : option (list (option loc) * queue) :=
  match os with
  | [] => Some ([], q)
  | o :: os => '(r, q) ← queue_op q o; '(rs, q) ← queue_run os q; Some (r :: rs, q)
  end.

Section pool.
Context {St : Type} (free used : rname) (tag : loc → vptr).
Context (take : heap → St → res (option (option loc) * heap * St)).
Context (put : heap → St → option loc → res (heap * St)).
Context (pool_inv : heap → St → rings → list loc → Prop).
Context `{Hpool : !FifoPool free used tag take put pool_inv}.

Definition pool_op_exec (h : heap) (st : St) (o : pool_op) : res (option loc * heap * St) :=
  match o with
  | PTake => '(r, h, st) ← take h st; Ok (match r with Some p => p | None => None end, h, st)
  | PPut x => '(h, st) ← put h st (Some x); Ok (None, h, st)
  end.

Fixpoint pool_run (os : list pool_op) (h : heap) (st : St) : res (list (option loc) * heap * St) :=
  match os with
  | [] => Ok ([], h, st)
  | o :: os => '(r, h, st) ← pool_op_exec h st o; '(rs, h, st) ← pool_run os h st; Ok (r :: rs, h, st)
  end.

Lemma pool_op_spec o h st σ q r q' :
  rings_ok h σ → pool_inv h st σ (q_free q) → length (σ used) = q_out q →
  queue_op q o = Some (r, q') →
  ∃ h' st' σ', pool_op_exec h st o = Ok (r, h', st') ∧ rings_ok h' σ' ∧
    pool_inv h' st' σ' (q_free q') ∧ length (σ' used) = q_out q' ∧
    (∀ r, r ≠ free → r ≠ used → σ' r = σ r).
Proof.
  intros Hok Hinv Hlen Hq. destruct q as [av n]. cbn [q_free q_out] in *.
  assert (∀ σ', changes_only [free; used] σ σ' → ∀ r, r ≠ free → r ≠ used → σ' r = σ r) as Hch.
  { intros σ' Hc r0 H1 H2. apply Hc. set_solver. }
  destruct o as [|x]; cbn in Hq.
  - destruct av as [|x [|y av]]; [done| |]; injection Hq as <- <-; cbn [q_free q_out].
    + destruct (pool_take_last h st σ x Hok Hinv) as (h' & st' & E & Hok' & Hinv' & _).
      exists h', st', σ. cbn. rewrite E. by split_and!.
    + destruct (pool_take h st σ x y av Hok Hinv) as (h' & st' & σ' & E & Hok' & Hinv' & _ & Hc & Hl & _).
      exists h', st', σ'. cbn. rewrite E. split_and!; [done|done|done|lia|by apply Hch].
  - destruct n as [|n]; [done|]. injection Hq as <- <-. cbn [q_free q_out].
    destruct (pool_put h st σ av x Hok Hinv) as (h' & st' & σ' & E & Hok' & Hinv' & _ & _ & Hc & Hl & _).
    { by intros Hnil; rewrite Hnil in Hlen. }
    exists h', st', σ'. cbn. rewrite E. split_and!; [done|done|done|lia|by apply Hch].
Qed.

Lemma pool_run_spec os h st σ q rs q' :
  rings_ok h σ → pool_inv h st σ (q_free q) → length (σ used) = q_out q →
  queue_run os q = Some (rs, q') →
  ∃ h' st' σ', pool_run os h st = Ok (rs, h', st') ∧ rings_ok h' σ' ∧
    pool_inv h' st' σ' (q_free q') ∧ length (σ' used) = q_out q' ∧
    (∀ r, r ≠ free → r ≠ used → σ' r = σ r).
Proof.
  revert h st σ q rs. induction os as [|o os IH]; intros h st σ q rs Hok Hinv Hlen Hq; cbn in Hq.
  - injection Hq as <- <-. by exists h, st, σ.
  - destruct (queue_op q o) as [[r q1]|] eqn:H1; [|done]. cbn in Hq.
    destruct (queue_run os q1) as [[rs1 q2]|] eqn:H2; [|done]. injection Hq as <- <-.
    destruct (pool_op_spec o h st σ q r q1 Hok Hinv Hlen H1) as (h1 & st1 & σ1 & E1 & Hok1 & I1 & L1 & C1).
    destruct (IH h1 st1 σ1 q1 rs1 Hok1 I1 L1 H2) as (h' & st' & σ' & E' & Hok' & I' & L' & C').
    exists h', st', σ'. cbn. rewrite E1. cbn. rewrite E'.
    split_and!; [done|done|done|done|]. intros r0 Hr1 Hr2. by rewrite C', C1.
Qed.
End pool.

(** C9: After allocNodelPool of [size] nodes, any program of getNodel and releaseNodel
    that releases no more than it took hands the nodes out first-in first-out,
    refuses exactly when one node is left, and never faults; the other lists of
    the program keep their nodes. *)
Theorem node_pool_is_a_queue size mem os rs q' :
  (1 ≤ size)%nat → (size < mem)%nat →
  queue_run os (Queue (rev (array_locs 1%positive size)) 0) = Some (rs, q') →
  ∃ h p h' p' σ', allocNodelPool size ∅ mem init_npool = Ok (h, (mem - S size)%nat, p) ∧
    pool_run take_nodel releaseNodel os h p = Ok (rs, h', p') ∧ rings_ok h' σ' ∧
    npool_inv h' p' σ' (q_free q') ∧ free_nodes p' = u64 (Z.of_nat (length (q_free q'))).
Proof.
  intros Hsize Hmem Hq. destruct (allocNodelPool_spec size ∅ mem init_npool no_rings) as
    (h & p & σ & E & Hok & Hch & _ & _ & Hinv & _); [|done..|].
  { split_and!; [constructor|intros r; apply ring_nil|]. by intros r r' x Hx%elem_of_nil. }
  destruct (pool_run_spec NodelFree NodelUsed VNode take_nodel releaseNodel npool_inv os h p σ
    (Queue (rev (array_locs 1%positive size)) 0) rs q' Hok) as (h' & p' & σ' & E' & Hok' & Hinv' & _);
    [exact Hinv|by rewrite Hch by set_solver|done|].
  exists h, p, h', p', σ'. split_and!; [done|done|done|done|]. apply Hinv'.
Qed.

Lemma node_pool_is_a_queue_witness :
  ∃ h p h' p' σ', allocNodelPool 3 ∅ 10 init_npool = Ok (h, 6%nat, p) ∧
    pool_run take_nodel releaseNodel [PTake; PTake; PTake; PPut 3; PTake]%positive h p
      = Ok ([Some 3; Some 2; None; None; Some 1]%positive, h', p') ∧ rings_ok h' σ' ∧
    npool_inv h' p' σ' [3]%positive ∧ free_nodes p' = 1.
Proof.
  apply (node_pool_is_a_queue 3 10 [PTake; PTake; PTake; PPut 3; PTake]%positive
    [Some 3; Some 2; None; None; Some 1]%positive (Queue [3]%positive 2)); [lia|lia|by vm_compute].
Defined.
