(* ===== verification/XskRing.v ===== *)
(** * libbpf's xsk.h: the rings shared with the kernel

    The producer and consumer rings of AF_XDP with their cached indices, every
    index a 32-bit counter that wraps, and what they promise: a producer ring
    and a consumer ring each carry a sequence of entries, of which the user
    side appends at one end or takes from the other. *)

From S2P Require Import Prelude.

(** ** Data and operations *)

(** [struct xsk_ring_prod] and [struct xsk_ring_cons] with what their pointers
    point to: the indices and the entries in the memory shared with the kernel. *)
Record xsk_ring (A : Type) := XskRing {
  cached_prod : Z;      (** __u32 *)
  cached_cons : Z;      (** __u32 *)
  mask : Z;             (** __u32 *)
  size : Z;             (** __u32 *)
  producer : Z;         (** *producer, __u32 *)
  consumer : Z;         (** *consumer, __u32 *)
  ring : gmap Z A;      (** the entries by slot *)
  flags : Z             (** *flags, __u32 *)
}.
Arguments XskRing {A}.
Arguments cached_prod {A}.
Arguments cached_cons {A}.
Arguments mask {A}.
Arguments size {A}.
Arguments producer {A}.
Arguments consumer {A}.
Arguments ring {A}.
Arguments flags {A}.

(** struct xdp_desc *)
Record xdp_desc := XdpDesc { addr : Z; dlen : Z; options : Z }.

Section ops.
Context {A : Type}.
Implicit Types (r : xsk_ring A) (idx nb : Z).

Definition with_cached_prod (v : Z) r : xsk_ring A :=
  XskRing v (cached_cons r) (mask r) (size r) (producer r) (consumer r) (ring r) (flags r).
Definition with_cached_cons (v : Z) r : xsk_ring A :=
  XskRing (cached_prod r) v (mask r) (size r) (producer r) (consumer r) (ring r) (flags r).
Definition with_producer (v : Z) r : xsk_ring A :=
  XskRing (cached_prod r) (cached_cons r) (mask r) (size r) v (consumer r) (ring r) (flags r).
Definition with_consumer (v : Z) r : xsk_ring A :=
  XskRing (cached_prod r) (cached_cons r) (mask r) (size r) (producer r) v (ring r) (flags r).
Definition with_ring (m : gmap Z A) r : xsk_ring A :=
  XskRing (cached_prod r) (cached_cons r) (mask r) (size r) (producer r) (consumer r) m (flags r).

(** [&ring[idx & mask]], read and written. *)
Definition slot r idx : Z := Z.land idx (mask r).
Definition ring_read r idx : res A := or_fault (ring r !! slot r idx) OutOfBounds.
Definition ring_write r idx (v : A) : xsk_ring A := with_ring (<[slot r idx := v]> (ring r)) r.

Definition XDP_RING_NEED_WAKEUP : Z := 1.
Definition xsk_ring_prod__needs_wakeup r : Z := Z.land (flags r) XDP_RING_NEED_WAKEUP.

Definition xsk_prod_nb_free r nb : Z * xsk_ring A :=
  let free_entries := u32 (cached_cons r - cached_prod r) in
  if nb <=? free_entries then (free_entries, r)
  else
    let r := with_cached_cons (u32 (consumer r + size r)) r in
    (u32 (cached_cons r - cached_prod r), r).

Definition xsk_cons_nb_avail r nb : Z * xsk_ring A :=
  let entries := u32 (cached_prod r - cached_cons r) in
  let '(entries, r) :=
    if entries =? 0 then
      let r := with_cached_prod (producer r) r in (u32 (cached_prod r - cached_cons r), r)
    else (entries, r) in
  (if nb <? entries then nb else entries, r).

(** The result, the index that is written when it is not 0, and the ring. *)
Definition xsk_ring_prod__reserve r nb : Z * option Z * xsk_ring A :=
  let '(free, r) := xsk_prod_nb_free r nb in
  if free <? nb then (0, None, r)
  else (nb, Some (cached_prod r), with_cached_prod (u32 (cached_prod r + nb)) r).

Definition xsk_ring_prod__submit r nb : xsk_ring A := with_producer (u32 (producer r + nb)) r.

Definition xsk_ring_cons__peek r nb : Z * option Z * xsk_ring A :=
  let '(entries, r) := xsk_cons_nb_avail r nb in
  if 0 <? entries
  then (entries, Some (cached_cons r), with_cached_cons (u32 (cached_cons r + entries)) r)
  else (entries, None, r).

Definition xsk_ring_cons__release r nb : xsk_ring A := with_consumer (u32 (consumer r + nb)) r.

(** [xsk_ring_prod__free] of af_xdp_user.c and lxdpFlow.c *)
Definition xsk_ring_prod__free r : Z * xsk_ring A :=
  let r := with_cached_cons (u32 (consumer r + size r)) r in
  (u32 (cached_cons r - cached_prod r), r).
End ops.

(** The four accessors. *)
Definition xsk_ring_prod__fill_addr (fill : xsk_ring Z) (idx v : Z) : xsk_ring Z := ring_write fill idx v.
Definition xsk_ring_cons__comp_addr (comp : xsk_ring Z) (idx : Z) : res Z := ring_read comp idx.
Definition xsk_ring_prod__tx_desc (tx : xsk_ring xdp_desc) (idx : Z) (d : xdp_desc) : xsk_ring xdp_desc :=
  ring_write tx idx d.
Definition xsk_ring_cons__rx_desc (rx : xsk_ring xdp_desc) (idx : Z) : res xdp_desc := ring_read rx idx.

(** Addresses of unaligned chunks. *)
Definition XSK_UNALIGNED_BUF_OFFSET_SHIFT : Z := 48.
Definition XSK_UNALIGNED_BUF_ADDR_MASK : Z := Z.shiftl 1 XSK_UNALIGNED_BUF_OFFSET_SHIFT - 1.
Definition xsk_umem__extract_addr (a : Z) : Z := Z.land a XSK_UNALIGNED_BUF_ADDR_MASK.
Definition xsk_umem__extract_offset (a : Z) : Z := Z.shiftr a XSK_UNALIGNED_BUF_OFFSET_SHIFT.
Definition xsk_umem__add_offset_to_addr (a : Z) : Z :=
  u64 (xsk_umem__extract_addr a + xsk_umem__extract_offset a).

(** ** What a ring carries *)

(** [2^k] slots. *)
Definition ring_shape {A} (r : xsk_ring A) : Prop :=
  ∃ k, 0 ≤ k ≤ 31 ∧ size r = 2 ^ k ∧ mask r = size r - 1.

(** The entries from index [c] on. *)
Definition carries {A} (r : xsk_ring A) (c : Z) (l : list A) : Prop :=
  ∀ i v, l !! i = Some v → ring r !! slot r (u32 (c + Z.of_nat i)) = Some v.

(** A producer ring: [l] is submitted and not yet consumed, [n] more slots are
    reserved, and the first of these hold [vs]. *)
Record prod_ok {A} (r : xsk_ring A) (n : Z) (vs l : list A) : Prop := {
  po_shape : ring_shape r;
  po_prod : 0 ≤ producer r < 2 ^ 32;
  po_cons : 0 ≤ consumer r < 2 ^ 32;
  po_cached : cached_prod r = u32 (producer r + n);
  po_used : u32 (producer r - consumer r) = Z.of_nat (length l);
  po_written : Z.of_nat (length vs) ≤ n;
  po_room : u32 (cached_cons r - cached_prod r) + n + Z.of_nat (length l) ≤ size r;
  po_carries : carries r (consumer r) (l ++ vs)
}.

(** A consumer ring: [l] is produced and not yet released, and its first [n]
    entries are being read. *)
Record cons_ok {A} (r : xsk_ring A) (n : Z) (l : list A) : Prop := {
  co_shape : ring_shape r;
  co_prod : 0 ≤ producer r < 2 ^ 32;
  co_cons : 0 ≤ consumer r < 2 ^ 32;
  co_cached : cached_cons r = u32 (consumer r + n);
  co_used : u32 (producer r - consumer r) = Z.of_nat (length l);
  co_size : Z.of_nat (length l) ≤ size r;
  co_read : 0 ≤ n;
  co_seen : u32 (cached_prod r - cached_cons r) + n ≤ Z.of_nat (length l);
  co_carries : carries r (consumer r) l
}.

(** ** Arithmetic of wrapping indices *)

Lemma u32_add_l x y : u32 (u32 x + y) = u32 (x + y).
Proof. unfold u32. by rewrite Zplus_mod_idemp_l. Qed.
Lemma u32_sub_l x y : u32 (u32 x - y) = u32 (x - y).
Proof. unfold u32. by rewrite Zminus_mod_idemp_l. Qed.
Lemma u32_sub_r x y : u32 (x - u32 y) = u32 (x - y).
Proof. unfold u32. by rewrite Zminus_mod_idemp_r. Qed.

(** The distance of two indices moves with them. *)
Lemma u32_sub_shift a b n : 0 ≤ u32 (a - b) + n < 2 ^ 32 → u32 (a + n - b) = u32 (a - b) + n.
Proof. intros H. unfold u32 in *. replace (a + n - b) with (a - b + n) by lia. dlia. Qed.

(** The producer is as far ahead of the consumer as there are entries. *)
Lemma u32_ahead p c n : 0 ≤ p < 2 ^ 32 → u32 (p - c) = n → u32 (c + n) = p.
Proof.
  intros Hp <-. rewrite Z.add_comm, u32_add_l. replace (p - c + c) with p by lia. by apply u32_small.
Qed.

Lemma slot_mod {A} (r : xsk_ring A) x : ring_shape r → slot r (u32 x) = x mod size r.
Proof.
  intros (k & Hk & Hs & Hm). unfold slot. rewrite Hm, Hs.
  replace (2 ^ k - 1) with (Z.ones k) by (rewrite Z.ones_equiv; lia). rewrite Z.land_ones by lia.
  unfold u32. apply Z.mod_mod_divide.
  exists (2 ^ (32 - k)). rewrite <-Z.pow_add_r by lia. f_equal. lia.
Qed.

Lemma ring_size_pos {A} (r : xsk_ring A) : ring_shape r → 1 ≤ size r ≤ 2 ^ 31.
Proof.
  intros (k & Hk & Hs & _). rewrite Hs. split.
  - pose proof (Z.pow_pos_nonneg 2 k). lia.
  - apply Z.pow_le_mono_r; lia.
Qed.

(** Distinct positions less than a ring apart are in distinct slots. *)
Lemma slot_inj {A} (r : xsk_ring A) x y :
  ring_shape r → slot r (u32 x) = slot r (u32 y) → x - y < size r → y - x < size r → x = y.
Proof.
  intros Hs. rewrite !slot_mod by done. pose proof (ring_size_pos r Hs) as Hp. intros H H1 H2.
  pose proof (Z.div_mod x (size r) ltac:(lia)) as D1. pose proof (Z.div_mod y (size r) ltac:(lia)) as D2.
  assert (x / size r = y / size r) by nia. nia.
Qed.

Lemma carries_app {A} (r : xsk_ring A) c l1 l2 :
  carries r c (l1 ++ l2) ↔ carries r c l1 ∧ carries r (c + Z.of_nat (length l1)) l2.
Proof.
  unfold carries. split.
  - intros H. split.
    + intros i v Hi. apply H. by apply lookup_app_l_Some.
    + intros i v Hi. replace (c + Z.of_nat (length l1) + Z.of_nat i) with
        (c + Z.of_nat (length l1 + i)) by lia. apply H. rewrite lookup_app_r by lia. by rewrite Nat.add_comm, Nat.add_sub.
  - intros [H1 H2] i v Hi. apply lookup_app_Some in Hi as [Hi|[Hle Hi]]; [by apply H1|].
    apply H2 in Hi. replace (c + Z.of_nat (length l1) + Z.of_nat (i - length l1)) with
      (c + Z.of_nat i) in Hi by lia. done.
Qed.

Lemma carries_u32 {A} (r : xsk_ring A) c l : carries r (u32 c) l ↔ carries r c l.
Proof. unfold carries. setoid_rewrite u32_add_l. done. Qed.

Lemma carries_ext {A} (r r' : xsk_ring A) c l :
  mask r' = mask r → ring r' = ring r → carries r c l → carries r' c l.
Proof. intros Hm Hr H i v Hi. unfold slot. rewrite Hm, Hr. by apply H. Qed.

(** Writing one entry behind those carried. *)
Lemma carries_write {A} (r : xsk_ring A) c l v :
  ring_shape r → Z.of_nat (length l) < size r → carries r c l →
  carries (ring_write r (u32 (c + Z.of_nat (length l))) v) c (l ++ [v]).
Proof.
  intros Hs Hlen Hc. apply carries_app. split.
  - intros i w Hi. cbn. unfold slot at 1. cbn. fold (slot r (u32 (c + Z.of_nat i))).
    pose proof (lookup_lt_Some _ _ _ Hi) as Hlt.
    rewrite lookup_insert_ne; [by apply Hc|]. intros Heq. apply slot_inj in Heq; [lia|done|lia|lia].
  - intros i w Hi. apply list_lookup_singleton_Some in Hi as [-> <-]. rewrite Z.add_0_r. cbn.
    unfold slot at 1. cbn. apply lookup_insert_eq.
Qed.

(** ** Producing *)

(** What [xsk_prod_nb_free] answers: at least what was asked for, or all there is. *)
Lemma xsk_prod_nb_free_spec {A} (r : xsk_ring A) l nb :
  prod_ok r 0 [] l →
  ∃ n r', xsk_prod_nb_free r nb = (n, r') ∧ prod_ok r' 0 [] l ∧
    0 ≤ n ≤ size r - Z.of_nat (length l) ∧ (nb ≤ n ∨ n = size r - Z.of_nat (length l)) ∧
    n ≤ u32 (cached_cons r' - cached_prod r') ∧ size r' = size r.
Proof.
  intros H. unfold xsk_prod_nb_free. pose proof (u32_range (cached_cons r - cached_prod r)) as Hr.
  pose proof (po_room r 0 [] l H) as Hroom.
  destruct (Z.leb_spec nb (u32 (cached_cons r - cached_prod r))) as [Hle|Hlt].
  - eexists _, r. split_and!; [reflexivity|done|lia..|by left|lia|done].
  - pose proof (ring_size_pos r (po_shape r 0 [] l H)) as Hp.
    assert (u32 (u32 (consumer r + size r) - cached_prod r) = size r - Z.of_nat (length l)) as Hn.
    { rewrite u32_sub_l, (po_cached r 0 [] l H), u32_sub_r, Z.add_0_r, <-(po_used r 0 [] l H).
      replace (consumer r + size r - producer r) with (size r - (producer r - consumer r)) by lia.
      rewrite <-u32_sub_r. apply u32_small. rewrite (po_used r 0 [] l H). lia. }
    eexists _, _. split; [reflexivity|]. cbn [cached_cons with_cached_cons cached_prod].
    rewrite Hn. split_and!; try done; try lia.
    destruct H. split; try done. cbn. rewrite Hn. lia.
Qed.

(** The slots that [xsk_prod_nb_free] saw can be reserved. *)
Lemma xsk_ring_prod__reserve_spec {A} (r : xsk_ring A) l nb :
  prod_ok r 0 [] l → 0 ≤ nb ≤ u32 (cached_cons r - cached_prod r) →
  ∃ r', xsk_ring_prod__reserve r nb = (nb, Some (producer r), r') ∧ prod_ok r' nb [] l ∧
    producer r' = producer r ∧ size r' = size r.
Proof.
  intros H Hnb. unfold xsk_ring_prod__reserve, xsk_prod_nb_free.
  rewrite (proj2 (Z.leb_le _ _)) by lia. rewrite (proj2 (Z.ltb_ge _ _)) by lia.
  pose proof (po_cached r 0 [] l H) as Hc. rewrite Z.add_0_r, u32_small in Hc by apply H.
  rewrite Hc in *. eexists. split; [reflexivity|]. split; [|done].
  pose proof (u32_range (cached_cons r - producer r)).
  destruct H. split; cbn in *; try done; try lia.
  rewrite u32_sub_r. replace (cached_cons r - (producer r + nb)) with (cached_cons r + - nb - producer r) by lia.
  rewrite u32_sub_shift by lia. rewrite Hc in po_room0. lia.
Qed.

(** A reserved slot is written. *)
Lemma ring_write_spec {A} (r : xsk_ring A) n vs l v :
  prod_ok r n vs l → Z.of_nat (length vs) < n →
  prod_ok (ring_write r (u32 (producer r + Z.of_nat (length vs))) v) n (vs ++ [v]) l.
Proof.
  intros H Hlt. pose proof (carries_write r (consumer r) (l ++ vs) v (po_shape _ _ _ _ H)) as Hw.
  assert (u32 (consumer r + Z.of_nat (length (l ++ vs))) = u32 (producer r + Z.of_nat (length vs))) as Hidx.
  { rewrite length_app, Nat2Z.inj_add, Z.add_assoc, <-u32_add_l.
    by rewrite (u32_ahead _ _ _ (po_prod _ _ _ _ H) (po_used _ _ _ _ H)). }
  rewrite Hidx, <-(assoc_L (++)) in Hw. pose proof (u32_range (cached_cons r - cached_prod r)).
  destruct H. split; try done; cbn in *.
  - rewrite length_app. cbn. lia.
  - apply Hw; [|done]. rewrite length_app. lia.
Qed.

(** All that was reserved is submitted. *)
Lemma xsk_ring_prod__submit_spec {A} (r : xsk_ring A) n vs l :
  prod_ok r n vs l → Z.of_nat (length vs) = n → prod_ok (xsk_ring_prod__submit r n) 0 [] (l ++ vs).
Proof.
  intros H Hn. pose proof (u32_range (cached_cons r - cached_prod r)).
  pose proof (ring_size_pos r (po_shape _ _ _ _ H)) as Hp.
  destruct H. split; cbn in *; try done.
  - apply u32_range.
  - rewrite u32_add_l, po_cached0. by rewrite Z.add_0_r.
  - rewrite u32_sub_l, u32_sub_shift; rewrite po_used0; [rewrite length_app; lia|]. lia.
  - rewrite length_app. lia.
  - by rewrite app_nil_r.
Qed.

(** The other side takes the oldest entry. *)
Lemma prod_consumed {A} (r : xsk_ring A) n vs a l :
  prod_ok r n vs (a :: l) →
  ring r !! slot r (consumer r) = Some a ∧
  prod_ok (with_consumer (u32 (consumer r + 1)) r) n vs l.
Proof.
  intros []. pose proof (ring_size_pos r po_shape0). pose proof (u32_range (cached_cons r - cached_prod r)).
  cbn in *. split.
  - pose proof (po_carries0 0%nat a eq_refl) as H1. by rewrite Z.add_0_r, u32_small in H1.
  - split; cbn; try done.
    + apply u32_range.
    + rewrite u32_sub_r. replace (producer r - (consumer r + 1)) with (producer r + - 1 - consumer r) by lia.
      rewrite u32_sub_shift; rewrite po_used0; lia.
    + lia.
    + apply carries_u32. change (a :: l ++ vs) with ([a] ++ (l ++ vs)) in po_carries0.
      apply carries_app in po_carries0 as [_ Hc]. by eapply carries_ext, Hc.
Qed.

(** ** Consuming *)

Lemma xsk_cons_nb_avail_spec {A} (r : xsk_ring A) l nb :
  cons_ok r 0 l → 0 < nb →
  ∃ n r', xsk_cons_nb_avail r nb = (n, r') ∧ 0 ≤ n ≤ nb ∧ (n = 0 → l = []) ∧
    n ≤ u32 (cached_prod r' - cached_cons r') ∧ cons_ok r' 0 l ∧
    consumer r' = consumer r ∧ size r' = size r.
Proof.
  intros H Hnb. unfold xsk_cons_nb_avail. pose proof (u32_range (cached_prod r - cached_cons r)) as Hr.
  destruct (Z.eqb_spec (u32 (cached_prod r - cached_cons r)) 0) as [H0|H0].
  - assert (u32 (producer r - cached_cons r) = Z.of_nat (length l)) as Hu.
    { rewrite (co_cached r 0 l H), Z.add_0_r, (u32_small (consumer r)) by apply H. apply H. }
    cbn [cached_prod with_cached_prod cached_cons]. rewrite Hu.
    eexists _, _. split; [reflexivity|]. cbn. rewrite Hu. split_and!; try done; try (destruct (_ <? _) eqn:E; lia).
    + intros Hz. apply nil_length_inv. destruct (Z.ltb_spec nb (Z.of_nat (length l))); lia.
    + destruct H. split; cbn; try done. lia.
  - eexists _, r. split; [reflexivity|]. split_and!; try done; try (destruct (Z.ltb_spec nb (u32 (cached_prod r - cached_cons r))); lia).
Qed.

Lemma xsk_ring_cons__peek_spec {A} (r : xsk_ring A) l nb :
  cons_ok r 0 l → 0 < nb →
  ∃ n idx r', xsk_ring_cons__peek r nb = (n, idx, r') ∧ 0 ≤ n ≤ nb ∧ (n = 0 → l = []) ∧
    (0 < n → idx = Some (consumer r)) ∧ cons_ok r' n l ∧ consumer r' = consumer r ∧ size r' = size r.
Proof.
  intros H Hnb. unfold xsk_ring_cons__peek.
  destruct (xsk_cons_nb_avail_spec r l nb H Hnb) as (n & r1 & -> & Hn & Hz & Hle & H1 & Hc & Hs).
  destruct (Z.ltb_spec 0 n) as [Hpos|Hzero].
  - eexists n, _, _. split; [reflexivity|]. pose proof (u32_range (cached_prod r1 - cached_cons r1)).
    split_and!; try done; try lia.
    + intros _. rewrite (co_cached r1 0 l H1), Z.add_0_r, u32_small by apply H1. by rewrite Hc.
    + destruct H1. split; cbn; try done; try lia.
      * rewrite co_cached0, u32_add_l. f_equal. lia.
      * rewrite u32_sub_r.
        replace (cached_prod r1 - (cached_cons r1 + n)) with (cached_prod r1 + - n - cached_cons r1) by lia.
        rewrite u32_sub_shift; lia.
  - eexists n, None, r1. replace n with 0 in * by lia. split_and!; try done; lia.
Qed.

(** An entry that was peeked is read. *)
Lemma ring_read_spec {A} (r : xsk_ring A) n l i v :
  cons_ok r n l → l !! i = Some v → ring_read r (u32 (consumer r + Z.of_nat i)) = Ok v.
Proof. intros H Hi. unfold ring_read. by rewrite (co_carries r n l H i v Hi). Qed.

(** All that was peeked is released. *)
Lemma xsk_ring_cons__release_spec {A} (r : xsk_ring A) n l :
  cons_ok r n l → cons_ok (xsk_ring_cons__release r n) 0 (drop (Z.to_nat n) l).
Proof.
  intros H. pose proof (u32_range (cached_prod r - cached_cons r)).
  pose proof (ring_size_pos r (co_shape _ _ _ H)) as Hp. destruct H. split; cbn; try done.
  - apply u32_range.
  - rewrite u32_add_l, co_cached0. f_equal. lia.
  - rewrite u32_sub_r, length_drop.
    replace (producer r - (consumer r + n)) with (producer r + - n - consumer r) by lia.
    rewrite u32_sub_shift; rewrite co_used0; lia.
  - rewrite length_drop. lia.
  - rewrite length_drop. lia.
  - apply carries_u32. rewrite <-(take_drop (Z.to_nat n) l) in co_carries0.
    apply carries_app in co_carries0 as [_ Hc].
    rewrite length_take, Nat.min_l, Z2Nat.id in Hc by lia. by eapply carries_ext, Hc.
Qed.

(** The other side adds an entry. *)
Lemma cons_produced {A} (r : xsk_ring A) n l d :
  cons_ok r n l → Z.of_nat (length l) < size r →
  cons_ok (with_producer (u32 (producer r + 1)) (ring_write r (producer r) d)) n (l ++ [d]).
Proof.
  intros H Hlt. pose proof (ring_size_pos r (co_shape _ _ _ H)) as Hp.
  pose proof (carries_write r (consumer r) l d (co_shape _ _ _ H) Hlt (co_carries _ _ _ H)) as Hw.
  rewrite (u32_ahead _ _ _ (co_prod _ _ _ H) (co_used _ _ _ H)) in Hw.
  destruct H. split; cbn; try done; rewrite ?length_app; cbn; try lia.
  - apply u32_range.
  - rewrite u32_sub_l, u32_sub_shift; rewrite co_used0; lia.
Qed.
