(* ===== verification/Xsk.v ===== *)
(** * The AF_XDP capture of the flow monitor: lxdpFlow.c

    The socket with its four rings, the stack of free frames of the umem, the
    reception of a batch and the capture loop.  The memory of the rings and of
    the umem is shared with the kernel, and [stop_capture] with the thread of
    the signal handler: [turn] lets both act, before every access of the code
    to what they may change. *)

From S2P Require Import Prelude Packet XskRing.

(** ** Data *)

Definition NUM_FRAMES : Z := 4096.
Definition XSK_UMEM__DEFAULT_FRAME_SHIFT : Z := 12.
Definition XSK_UMEM__DEFAULT_FRAME_SIZE : Z := Z.shiftl 1 XSK_UMEM__DEFAULT_FRAME_SHIFT.
Definition FRAME_SIZE : Z := XSK_UMEM__DEFAULT_FRAME_SIZE.
Definition RX_BATCH_SIZE : Z := 64.
Definition INVALID_UMEM_FRAME : Z := 2 ^ 64 - 1.
Definition XSK_RING_CONS__DEFAULT_NUM_DESCS : Z := 2048.
Definition XSK_RING_PROD__DEFAULT_NUM_DESCS : Z := 2048.
Definition EXIT_FAIL : Z := 1.

(** struct xsk_umem_info; the handle of libbpf is not used by this code, and the
    buffer is the [mem] of [world]. *)
Record xsk_umem_info := UmemInfo { fq : xsk_ring Z; cq : xsk_ring Z }.

(** struct xsk_socket_info *)
Record xsk_socket_info := SocketInfo {
  rx : xsk_ring xdp_desc;
  tx : xsk_ring xdp_desc;
  umem : xsk_umem_info;
  umem_frame_addr : list Z;   (** uint64_t [NUM_FRAMES] *)
  umem_frame_free : Z;        (** uint32_t *)
  outstanding_tx : Z          (** uint32_t *)
}.

Definition with_rx (r : xsk_ring xdp_desc) (s : xsk_socket_info) : xsk_socket_info :=
  SocketInfo r (tx s) (umem s) (umem_frame_addr s) (umem_frame_free s) (outstanding_tx s).
Definition with_tx (r : xsk_ring xdp_desc) (s : xsk_socket_info) : xsk_socket_info :=
  SocketInfo (rx s) r (umem s) (umem_frame_addr s) (umem_frame_free s) (outstanding_tx s).
Definition with_fq (r : xsk_ring Z) (s : xsk_socket_info) : xsk_socket_info :=
  SocketInfo (rx s) (tx s) (UmemInfo r (cq (umem s))) (umem_frame_addr s) (umem_frame_free s)
    (outstanding_tx s).
Definition with_cq (r : xsk_ring Z) (s : xsk_socket_info) : xsk_socket_info :=
  SocketInfo (rx s) (tx s) (UmemInfo (fq (umem s)) r) (umem_frame_addr s) (umem_frame_free s)
    (outstanding_tx s).
Definition with_frames (fr : list Z) (n : Z) (s : xsk_socket_info) : xsk_socket_info :=
  SocketInfo (rx s) (tx s) (umem s) fr n (outstanding_tx s).
Definition with_outstanding (n : Z) (s : xsk_socket_info) : xsk_socket_info :=
  SocketInfo (rx s) (tx s) (umem s) (umem_frame_addr s) (umem_frame_free s) n.

(** [a[i]] and [a[i] = v] of an array of a struct. *)
Definition array_get (a : list Z) (i : Z) : res Z :=
  if i <? 0 then Err OutOfBounds else or_fault (a !! Z.to_nat i) OutOfBounds.
Definition array_set (a : list Z) (i v : Z) : res (list Z) :=
  if (0 <=? i) && (i <? Z.of_nat (length a)) then Ok (<[Z.to_nat i := v]> a) else Err OutOfBounds.

(** ** The free frames *)

Definition xsk_alloc_umem_frame (xsk : xsk_socket_info) : res (Z * xsk_socket_info) :=
  if umem_frame_free xsk =? 0 then Ok (INVALID_UMEM_FRAME, xsk)
  else
    let i := u32 (umem_frame_free xsk - 1) in
    frame ← array_get (umem_frame_addr xsk) i;
    fr ← array_set (umem_frame_addr xsk) i INVALID_UMEM_FRAME;
    Ok (frame, with_frames fr i xsk).

Definition xsk_free_umem_frame (xsk : xsk_socket_info) (frame : Z) : res xsk_socket_info :=
  _ ← c_assert (umem_frame_free xsk <? NUM_FRAMES);
  fr ← array_set (umem_frame_addr xsk) (umem_frame_free xsk) frame;
  Ok (with_frames fr (u32 (umem_frame_free xsk + 1)) xsk).

Definition xsk_umem_free_frames (xsk : xsk_socket_info) : Z := umem_frame_free xsk.

(** The loop of [xsk_configure_socket] that fills the stack: [i * FRAME_SIZE] is
    an [int] product, and below 2^31. *)
Fixpoint init_frames (n : nat) (i : Z) : list Z :=
  match n with O => [] | S n => u64 (s32 (i * FRAME_SIZE)) :: init_frames n (i + 1) end.

(** The loop of [xsk_configure_socket] that stuffs the fill ring. *)
Fixpoint stuff_fill (n : nat) (idx : Z) (xsk : xsk_socket_info) : res xsk_socket_info :=
  match n with
  | O => Ok xsk
  | S n =>
    '(frame, xsk) ← xsk_alloc_umem_frame xsk;
    stuff_fill n (u32 (idx + 1)) (with_fq (xsk_ring_prod__fill_addr (fq (umem xsk)) idx frame) xsk)
  end.

(** struct xsk_socket_config *)
Record xsk_socket_config := XskCfg {
  rx_size : Z; tx_size : Z; libbpf_flags : Z; cfg_xdp_flags : Z; bind_flags : Z
}.

(** The part of [struct config] this code reads. *)
Record config := Config {
  xdp_flags : Z; ifindex : Z; ifname : string; xsk_bind_flags : Z; xsk_if_queue : Z
}.

Section configure.
(** [calloc] succeeds; [xsk_socket__create] of libbpf returns an error code and
    the two rings; [bpf_get_link_xdp_id] an error code. *)
Variable calloc_ok : bool.
Variable xsk_socket__create :
  string → Z → xsk_umem_info → xsk_socket_config → Z * xsk_ring xdp_desc * xsk_ring xdp_desc.
Variable bpf_get_link_xdp_id : Z → Z → Z.

(** The socket, or [None] for NULL with the value given to [errno]. *)
Definition xsk_configure_socket (cfg : config) (um : xsk_umem_info) :
  res (option xsk_socket_info * Z) :=
  if negb calloc_ok then Ok (None, 0)
  else
    let xsk_cfg := XskCfg XSK_RING_CONS__DEFAULT_NUM_DESCS XSK_RING_PROD__DEFAULT_NUM_DESCS 0
                     (xdp_flags cfg) (xsk_bind_flags cfg) in
    let '(ret, r, t) := xsk_socket__create (ifname cfg) (xsk_if_queue cfg) um xsk_cfg in
    if negb (ret =? 0) then Ok (None, - ret)
    else
      let ret := bpf_get_link_xdp_id (ifindex cfg) (xdp_flags cfg) in
      if negb (ret =? 0) then Ok (None, - ret)
      else
        let xsk_info := SocketInfo r t um (init_frames (Z.to_nat NUM_FRAMES) 0) NUM_FRAMES 0 in
        let '(ret, idx, f) := xsk_ring_prod__reserve (fq um) XSK_RING_PROD__DEFAULT_NUM_DESCS in
        let xsk_info := with_fq f xsk_info in
        if negb (ret =? XSK_RING_PROD__DEFAULT_NUM_DESCS) then Ok (None, - ret)
        else
          xsk_info ← stuff_fill (Z.to_nat XSK_RING_PROD__DEFAULT_NUM_DESCS) (default 0 idx) xsk_info;
          Ok (Some (with_fq (xsk_ring_prod__submit (fq (umem xsk_info))
                               XSK_RING_PROD__DEFAULT_NUM_DESCS) xsk_info), 0).
End configure.

(** ** Receiving *)

(** The state of the capture: the socket, the kernel, the umem buffer, and
    [stop_capture]. *)
Record world (K : Type) := World {
  sock : xsk_socket_info;
  kern : K;
  mem : list Z;
  stop_capture : Z   (** uint8_t *)
}.
Arguments World {K}.
Arguments sock {K}.
Arguments kern {K}.
Arguments mem {K}.
Arguments stop_capture {K}.

Section receive.
Context {K X : Type}.
(** What the kernel and the signal handler do between two accesses. *)
Variable turn : world K → world K.
(** [clock_gettime(CLOCK_REALTIME)]: seconds and nanoseconds, or an error. *)
Variable clock_gettime : K → option (Z * Z).
Implicit Types (w : world K) (x : X).

Definition on_sock (f : xsk_socket_info → xsk_socket_info) w : world K :=
  World (f (sock w)) (kern w) (mem w) (stop_capture w).

Definition gettime2 w : res (Z * Z) := or_fault (clock_gettime (kern w)) (ExitProgram EXIT_FAIL).

(** [xsk_umem__get_data]: what can be read from [addr] on. *)
Definition xsk_umem__get_data (buffer : list Z) (addr : Z) : list Z := drop (Z.to_nat addr) buffer.

(** [while (ret != stock_frames) ret = xsk_ring_prod__reserve(.., rcvd, &idx_fq)] *)
Fixpoint reserve_again (fuel : nat) (ret idx_fq stock_frames rcvd : Z) w : res (Z * world K) :=
  if ret =? stock_frames then Ok (idx_fq, w)
  else
    match fuel with
    | O => Err OutOfFuel
    | S fuel =>
      let w := turn w in
      let '(ret, i, f) := xsk_ring_prod__reserve (fq (umem (sock w))) rcvd in
      reserve_again fuel ret (default idx_fq i) stock_frames rcvd (on_sock (with_fq f) w)
    end.

Fixpoint fill_frames (n : nat) (idx_fq : Z) w : res (world K) :=
  match n with
  | O => Ok w
  | S n =>
    let w := turn w in
    '(frame, xsk) ← xsk_alloc_umem_frame (sock w);
    fill_frames n (u32 (idx_fq + 1))
      (on_sock (λ _, with_fq (xsk_ring_prod__fill_addr (fq (umem xsk)) idx_fq frame) xsk) w)
  end.

(** "Stuff the ring with as much frames as possible"; the rounds of the loop that
    "should not happen" are bounded by [fuel]. *)
Definition stuff_ring (fuel : nat) (rcvd : Z) w : res (world K) :=
  let w := turn w in
  let '(stock_frames, f) := xsk_prod_nb_free (fq (umem (sock w))) (xsk_umem_free_frames (sock w)) in
  let w := on_sock (with_fq f) w in
  if 0 <? stock_frames then
    let w := turn w in
    let '(ret, i, f) := xsk_ring_prod__reserve (fq (umem (sock w))) stock_frames in
    '(idx_fq, w) ← reserve_again fuel ret (default 0 i) stock_frames rcvd (on_sock (with_fq f) w);
    w ← fill_frames (Z.to_nat stock_frames) idx_fq w;
    let w := turn w in
    Ok (on_sock (with_fq (xsk_ring_prod__submit (fq (umem (sock w))) stock_frames)) w)
  else Ok w.

(** The packets of a batch, each by [body]. *)
Fixpoint process_received (body : Z → Z → X → world K → res (X * world K))
    (n : nat) (idx_rx : Z) x w : res (X * world K) :=
  match n with
  | O => Ok (x, w)
  | S n =>
    let w := turn w in
    d ← xsk_ring_cons__rx_desc (rx (sock w)) idx_rx;
    '(x, w) ← body (addr d) (dlen d) x w;
    process_received body n (u32 (idx_rx + 1)) x w
  end.

(** One packet: the callback, then its frame is free. *)
Definition deliver_packet (fn : list Z → pkthdr → X → res X) (addr len : Z) x w : res (X * world K) :=
  let pkt := xsk_umem__get_data (mem w) addr in
  '(tv_sec, tv_nsec) ← gettime2 w;
  x ← fn pkt (PktHdr tv_sec (tv_nsec / 1000) len len) x;
  xsk ← xsk_free_umem_frame (sock w) addr;
  Ok (x, on_sock (λ _, xsk) w).

(** The common frame of the two [handle_receive_packets]. *)
Definition receive_batch (fuel : nat) (body : Z → Z → X → world K → res (X * world K)) x w :
  res (Z * X * world K) :=
  let w := turn w in
  let '(rcvd, i, r) := xsk_ring_cons__peek (rx (sock w)) RX_BATCH_SIZE in
  let w := on_sock (with_rx r) w in
  if rcvd =? 0 then Ok (0, x, w)
  else
    w ← stuff_ring fuel rcvd w;
    '(x, w) ← process_received body (Z.to_nat rcvd) (default 0 i) x w;
    let w := turn w in
    Ok (rcvd, x, on_sock (with_rx (xsk_ring_cons__release (rx (sock w)) rcvd)) w).

Definition handle_receive_packets (fuel : nat) (fn : list Z → pkthdr → X → res X) x w :
  res (Z * X * world K) :=
  '(rcvd, x, w) ← receive_batch fuel (deliver_packet fn) x w;
  Ok (if rcvd =? 0 then 0 else 1, x, w).

(** [poll(fds, nfds, timeout)] after a wait in which the others may act. *)
Variable poll : K → Z → Z.

(** The rounds of [while ((i<ntimeouts)&&(stop_capture==1))]; [None] when [rounds]
    are not enough. *)
Fixpoint rx_loop (rounds fuel : nat) (poll_mode : bool) (ntimeouts timeout : Z)
    (fn : list Z → pkthdr → X → res X) (i : Z) x w : res (option (X * world K)) :=
  let w := turn w in
  if (i <? ntimeouts) && (stop_capture w =? 1) then
    match rounds with
    | O => Ok None
    | S rounds =>
      let w := turn w in
      let ret := poll (kern w) timeout in
      if poll_mode && ((ret <=? 0) || (1 <? ret)) then
        rx_loop rounds fuel poll_mode ntimeouts timeout fn (i + 1) x w
      else
        let i := if poll_mode then 0 else i in
        '(_, x, w) ← handle_receive_packets fuel fn x w;
        rx_loop rounds fuel poll_mode ntimeouts timeout fn i x w
    end
  else Ok (Some (x, w)).

Definition with_stop (b : Z) w : world K := World (sock w) (kern w) (mem w) b.

Definition stop_rx_and_process w : world K := with_stop 0 w.

Definition rx_and_process (rounds fuel : nat) (poll_mode : bool) (ntimeouts timeout : Z)
    (fn : list Z → pkthdr → X → res X) x w : res (option (X * world K)) :=
  rx_loop rounds fuel poll_mode ntimeouts timeout fn 0 x (with_stop 1 w).
End receive.
