(* ===== verification/XskInv.v ===== *)
(** * Where the frames of the umem are

    The contract of the kernel side of AF_XDP as a step relation, and the
    invariant of the capture: every frame is in exactly one of the stack of free
    frames, the fill ring, the kernel and the receive ring, and the packets
    waiting in the receive ring are as they were delivered. *)

From S2P Require Import Prelude Packet XskRing Xsk.

(** The frame an address lies in. *)
Definition chunk (a : Z) : Z := a / FRAME_SIZE.

Definition valid_addr (a : Z) : Prop := 0 ≤ a < NUM_FRAMES * FRAME_SIZE.
#[global] Instance valid_addr_dec a : Decision (valid_addr a).
Proof. apply _. Defined.

(** A packet lies in one frame, with [slack] bytes behind it. *)
Definition in_frame (slack : Z) (d : xdp_desc) : Prop :=
  valid_addr (addr d) ∧ 0 ≤ dlen d ∧ 0 ≤ slack ∧
  addr d + dlen d + slack ≤ (chunk (addr d) + 1) * FRAME_SIZE.

(** The bytes of a descriptor. *)
Definition packet_bytes (m : list Z) (d : xdp_desc) : list Z :=
  take (Z.to_nat (dlen d)) (xsk_umem__get_data m (addr d)).

Abbreviation packet := (xdp_desc * list Z)%type.

(** ** The kernel *)

Section contract.
Context {K : Type}.
(** The room behind a packet, the frames the kernel holds, and the packets it has delivered so far. *)
Variable slack : Z.
Variable holds : K → list Z.
Variable delivered : K → list packet.

Abbreviation wfq w := (fq (umem (sock w))).
Abbreviation wrx w := (rx (sock w)).

(** What the kernel or the signal handler may do in one step: take an address
    from the fill ring (one that is not in the umem is dropped), write to a frame
    it holds, deliver a packet in a frame it holds, or anything of their own. *)
Inductive kstep : world K → world K → Prop :=
  | KTake w a k :
      u32 (producer (wfq w) - consumer (wfq w)) ≠ 0 →
      ring (wfq w) !! slot (wfq w) (consumer (wfq w)) = Some a →
      holds k = holds (kern w) ++ filter valid_addr [a] →
      delivered k = delivered (kern w) →
      kstep w (World (with_fq (with_consumer (u32 (consumer (wfq w) + 1)) (wfq w)) (sock w)) k
                 (mem w) (stop_capture w))
  | KWrite w a k m :
      a ∈ holds (kern w) →
      holds k = holds (kern w) → delivered k = delivered (kern w) →
      length m = length (mem w) →
      (∀ i, Z.of_nat i / FRAME_SIZE ≠ chunk a → m !! i = mem w !! i) →
      kstep w (World (sock w) k m (stop_capture w))
  | KDeliver w a l1 l2 d k :
      holds (kern w) = l1 ++ a :: l2 → holds k = l1 ++ l2 →
      chunk (addr d) = chunk a → in_frame slack d →
      u32 (producer (wrx w) - consumer (wrx w)) < size (wrx w) →
      delivered k = delivered (kern w) ++ [(d, packet_bytes (mem w) d)] →
      kstep w (World (with_rx (with_producer (u32 (producer (wrx w) + 1))
                 (ring_write (wrx w) (producer (wrx w)) d)) (sock w)) k (mem w) (stop_capture w))
  | KOther w k b :
      holds k = holds (kern w) → delivered k = delivered (kern w) →
      b = stop_capture w ∨ b = 0 →
      kstep w (World (sock w) k (mem w) b).

(** ** The invariant *)

(** [n] slots of the fill ring are reserved and [vs] written to them, [fl] is
    in the ring; [rl] is in the receive ring, of which the first [m] are peeked
    and the first [i] processed; [dn] are the packets processed so far. *)
Record winv (w : world K) (n : Z) (vs fl : list Z) (m : Z) (i : nat) (rl : list xdp_desc)
    (dn : list packet) : Prop := {
  wi_fq : prod_ok (wfq w) n vs fl;
  wi_rx : cons_ok (wrx w) m rl;
  wi_fsize : size (wfq w) = XSK_RING_PROD__DEFAULT_NUM_DESCS;
  wi_rsize : size (wrx w) = XSK_RING_CONS__DEFAULT_NUM_DESCS;
  wi_mem : Z.of_nat (length (mem w)) = NUM_FRAMES * FRAME_SIZE;
  wi_stack : Z.of_nat (length (umem_frame_addr (sock w))) = NUM_FRAMES;
  wi_free : 0 ≤ umem_frame_free (sock w) ≤ NUM_FRAMES;
  wi_frames : chunk <$> (take (Z.to_nat (umem_frame_free (sock w))) (umem_frame_addr (sock w)) ++
                filter valid_addr (fl ++ vs) ++ holds (kern w) ++ (addr <$> drop i rl))
              ≡ₚ seqZ 0 NUM_FRAMES;
  wi_packets : ∃ pend, delivered (kern w) = dn ++ pend ∧ pend.*1 = drop i rl ∧
                Forall (λ p : packet, in_frame slack p.1 ∧ packet_bytes (mem w) p.1 = p.2) pend;
  wi_batch : Z.of_nat i ≤ m;
  wi_out : outstanding_tx (sock w) = 0
}.

(** The fields of the socket that only the code writes. *)
Definition same_user (w w' : world K) : Prop :=
  umem_frame_addr (sock w') = umem_frame_addr (sock w) ∧
  umem_frame_free (sock w') = umem_frame_free (sock w) ∧
  producer (wfq w') = producer (wfq w) ∧
  cached_cons (wfq w') = cached_cons (wfq w) ∧ cached_prod (wfq w') = cached_prod (wfq w) ∧
  consumer (wrx w') = consumer (wrx w) ∧ outstanding_tx (sock w') = outstanding_tx (sock w).

Lemma same_user_refl w : same_user w w.
Proof. done. Qed.

Lemma same_user_trans w1 w2 w3 : same_user w1 w2 → same_user w2 w3 → same_user w1 w3.
Proof. unfold same_user. intros (?&?&?&?&?&?&?) (?&?&?&?&?&?&?). split_and!; congruence. Qed.

(** Bytes of another frame stay. *)
Lemma packet_bytes_other m m' a d :
  length m' = length m → (∀ i, Z.of_nat i / FRAME_SIZE ≠ chunk a → m' !! i = m !! i) →
  in_frame slack d → chunk (addr d) ≠ chunk a → packet_bytes m' d = packet_bytes m d.
Proof.
  intros Hlen Hm ((Ha1 & _) & Hl & Hsl & Hd) Hne. unfold packet_bytes, xsk_umem__get_data. apply list_eq. intros j.
  destruct (decide (j < Z.to_nat (dlen d))%nat) as [Hj|Hj].
  - rewrite !lookup_take_lt, !lookup_drop by done. apply Hm. intros Heq. apply Hne. rewrite <-Heq.
    unfold chunk in *. rewrite Nat2Z.inj_add, Z2Nat.id by done.
    assert (0 < FRAME_SIZE) by done.
    apply (Z.div_unique_pos _ _ _ (addr d + Z.of_nat j - addr d / FRAME_SIZE * FRAME_SIZE)); [|lia].
    pose proof (Z.mod_pos_bound (addr d) FRAME_SIZE). pose proof (Z.div_mod (addr d) FRAME_SIZE). lia.
  - by rewrite !lookup_take_ge by lia.
Qed.

(** A frame in the kernel is no frame of a waiting packet. *)
Lemma held_not_waiting w n vs fl m i rl dn a d :
  winv w n vs fl m i rl dn → a ∈ holds (kern w) → d ∈ drop i rl → chunk (addr d) ≠ chunk a.
Proof.
  intros H Ha Hd Heq. pose proof (NoDup_seqZ 0 NUM_FRAMES) as Hnd.
  rewrite <-(wi_frames _ _ _ _ _ _ _ _ H) in Hnd. rewrite !fmap_app in Hnd.
  apply NoDup_app in Hnd as (_ & _ & Hnd). apply NoDup_app in Hnd as (_ & _ & Hnd).
  apply NoDup_app in Hnd as (_ & Hnd & _). apply (Hnd (chunk a)).
  - by apply list_elem_of_fmap_2.
  - rewrite <-Heq. apply list_elem_of_fmap_2. by apply list_elem_of_fmap_2.
Qed.

Lemma kstep_inv w w' n vs fl m i rl dn :
  kstep w w' → winv w n vs fl m i rl dn →
  ∃ fl' ds, winv w' n vs fl' m i (rl ++ ds) dn ∧ same_user w w' ∧ fl' `suffix_of` fl.
Proof.
  intros Hk H. pose proof H as [Hfq Hrx Hfs Hrs Hmem Hst Hfr Hframes (pend & Hdel & Hpend & Hbytes) Hb Hout].
  destruct Hk as [w a k Hne Ha Hh Hd|w a k m' Ha Hh Hd Hlen Hm'|w a l1 l2 d k Hh Hh' Hch Hin Hroom Hd
                 |w k b Hh Hd Hb'].
  - destruct fl as [|a' fl].
    { exfalso. apply Hne. by rewrite (po_used _ _ _ _ Hfq). }
    destruct (prod_consumed _ _ _ _ _ Hfq) as [Ha' Hfq']. rewrite Ha in Ha'. injection Ha' as <-.
    exists fl, []. rewrite app_nil_r. split; [|by split; [|exists [a]]].
    split; cbn; try done; [|by rewrite Hd; eauto].
    rewrite <-Hframes, Hh. apply fmap_Permutation. apply Permutation_app_head.
    change ((a :: fl) ++ vs) with ([a] ++ (fl ++ vs)). rewrite (filter_app _ [a]). solve_Permutation.
  - exists fl, []. rewrite app_nil_r. split; [|done]. split; cbn; try done; [by rewrite Hlen|by rewrite Hh|].
    exists pend. rewrite Hd. split_and!; try done.
    apply Forall_forall. intros p Hp. rewrite Forall_forall in Hbytes. destruct (Hbytes p Hp) as [Hif Hby].
    split; [done|]. rewrite (packet_bytes_other (mem w) m' a); [done..|].
    eapply (held_not_waiting w); [exact H|done|]. rewrite <-Hpend. by apply list_elem_of_fmap_2.
  - assert (Z.of_nat (length rl) < size (wrx w)) as Hlt by (by rewrite <-(co_used _ _ _ Hrx)).
    pose proof (co_seen _ _ _ Hrx) as Hseen. pose proof (u32_range (cached_prod (wrx w) - cached_cons (wrx w))).
    assert (i ≤ length rl)%nat as Hi by lia.
    exists fl, [d]. split; [|done]. split; cbn; try done.
    + by apply cons_produced.
    + rewrite <-Hframes, Hh, Hh', drop_app_le, fmap_app by done. cbn.
      rewrite !fmap_app. cbn. rewrite Hch. solve_Permutation.
    + exists (pend ++ [(d, packet_bytes (mem w) d)]). rewrite Hd, Hdel, fmap_app, Hpend, drop_app_le by done.
      split_and!; [by rewrite (assoc_L (++))|done|]. apply Forall_app. split; [done|]. by constructor.
  - exists fl, []. rewrite app_nil_r. split; [|done].
    split; cbn; try done; [by rewrite Hh|]. rewrite Hd. eauto.
Qed.

(** A turn is any number of steps. *)
Variable turn : world K → world K.
Hypothesis turn_ok : ∀ w, rtc kstep w (turn w).

Lemma turn_inv w n vs fl m i rl dn :
  winv w n vs fl m i rl dn →
  ∃ fl' ds, winv (turn w) n vs fl' m i (rl ++ ds) dn ∧ same_user w (turn w) ∧ fl' `suffix_of` fl.
Proof.
  pose proof (turn_ok w) as Ht. revert fl rl. induction Ht as [w|w w1 w2 Hs _ IH]; intros fl rl H.
  - exists fl, []. by rewrite app_nil_r.
  - destruct (kstep_inv _ _ _ _ _ _ _ _ _ Hs H) as (fl1 & ds1 & H1 & U1 & S1).
    destruct (IH _ _ H1) as (fl2 & ds2 & H2 & U2 & S2).
    exists fl2, (ds1 ++ ds2). rewrite (assoc_L (++)).
    split; [done|]. split; [by eapply same_user_trans|by etrans].
Qed.
End contract.
