(* ===== verification/XskSpec.v ===== *)
(** * What the reception of a batch does

    One lemma per phase of [handle_receive_packets]: the frames stay accounted
    for, no assertion fails, the loop that "should not happen" does not, and the
    callback sees each packet once, in order, with the bytes that were
    delivered. *)

From S2P Require Import Prelude Packet XskRing Xsk XskInv.

(** ** The stack of free frames *)

Lemma array_get_Some a i v : 0 ≤ i → a !! Z.to_nat i = Some v → array_get a i = Ok v.
Proof. intros Hi Hv. unfold array_get. rewrite (proj2 (Z.ltb_ge _ _)) by done. by rewrite Hv. Qed.

Lemma array_set_Ok a i v :
  0 ≤ i < Z.of_nat (length a) → array_set a i v = Ok (<[Z.to_nat i := v]> a).
Proof.
  intros Hi. unfold array_set. rewrite (proj2 (Z.leb_le _ _)), (proj2 (Z.ltb_lt _ _)) by lia. done.
Qed.

Definition stack_ok (s : xsk_socket_info) : Prop :=
  Z.of_nat (length (umem_frame_addr s)) = NUM_FRAMES ∧ 0 ≤ umem_frame_free s ≤ NUM_FRAMES.
Definition free_stack (s : xsk_socket_info) : list Z :=
  take (Z.to_nat (umem_frame_free s)) (umem_frame_addr s).

Lemma free_stack_length s : stack_ok s → Z.of_nat (length (free_stack s)) = umem_frame_free s.
Proof. intros [Hl Hf]. unfold free_stack. rewrite length_take. lia. Qed.

(** An allocation pops the stack; from an empty one it answers the invalid frame. *)
Lemma xsk_alloc_umem_frame_spec s :
  stack_ok s →
  ∃ frame s', xsk_alloc_umem_frame s = Ok (frame, s') ∧ stack_ok s' ∧
    ((free_stack s = [] ∧ frame = INVALID_UMEM_FRAME ∧ s' = s) ∨
     (free_stack s = free_stack s' ++ [frame] ∧
      s' = with_frames (umem_frame_addr s') (umem_frame_free s') s)).
Proof.
  intros [Hl Hf]. unfold xsk_alloc_umem_frame, NUM_FRAMES in *.
  destruct (Z.eqb_spec (umem_frame_free s) 0) as [H0|H0].
  - eexists _, s. split; [done|]. split; [done|]. left. unfold free_stack. by rewrite H0.
  - set (i := Z.to_nat (umem_frame_free s - 1)).
    destruct (lookup_lt_is_Some_2 (umem_frame_addr s) i) as [fr Hfr]; [lia|].
    rewrite u32_small by lia. rewrite (array_get_Some _ _ fr) by (done || lia).
    rewrite array_set_Ok by lia. cbn. eexists _, _. split; [done|]. fold i.
    split; [unfold stack_ok, NUM_FRAMES; cbn; rewrite length_insert; lia|]. right. split; [|done].
    unfold free_stack. cbn. fold i. replace (Z.to_nat (umem_frame_free s)) with (S i) by lia.
    rewrite (take_S_r _ _ fr) by done. by rewrite take_insert_ge by lia.
Qed.

(** A frame that is freed is pushed, if the stack is not full. *)
Lemma xsk_free_umem_frame_spec s frame :
  stack_ok s → umem_frame_free s < NUM_FRAMES →
  ∃ s', xsk_free_umem_frame s frame = Ok s' ∧ stack_ok s' ∧
    free_stack s' = free_stack s ++ [frame] ∧
    s' = with_frames (umem_frame_addr s') (umem_frame_free s') s.
Proof.
  intros [Hl Hf] Hlt. unfold xsk_free_umem_frame, NUM_FRAMES in *.
  rewrite (proj2 (Z.ltb_lt _ _)) by done. cbn. rewrite array_set_Ok by lia. cbn.
  rewrite u32_small by lia. eexists. split; [done|].
  split; [unfold stack_ok, NUM_FRAMES; cbn; rewrite length_insert; lia|]. split; [|done].
  unfold free_stack. cbn. replace (Z.to_nat (umem_frame_free s + 1)) with (S (Z.to_nat (umem_frame_free s))) by lia.
  rewrite (take_S_r _ _ frame) by (apply list_lookup_insert_eq; lia). by rewrite take_insert_ge by lia.
Qed.

Lemma valid_of_chunk a : chunk a ∈ seqZ 0 NUM_FRAMES → valid_addr a.
Proof.
  rewrite elem_of_seqZ. unfold chunk, valid_addr. change FRAME_SIZE with 4096. unfold NUM_FRAMES.
  intros H. dlia.
Qed.

Lemma invalid_frame_not_valid : ¬ valid_addr INVALID_UMEM_FRAME.
Proof. intros [_ H]. by vm_compute in H. Qed.

Lemma Forall_suffix {A} (P : A → Prop) l1 l2 : l1 `suffix_of` l2 → Forall P l2 → Forall P l1.
Proof. intros [k ->]. by intros [_ H]%Forall_app. Qed.

Lemma filter_all {A} (P : A → Prop) `{∀ x, Decision (P x)} l : Forall P l → filter P l = l.
Proof. induction 1 as [|x l Hx _ IH]; [done|]. rewrite filter_cons_True by done. by rewrite IH. Qed.

Section receive.
Context {K X : Type}.
Variable slack : Z.
Variable holds : K → list Z.
Variable delivered : K → list packet.
Variable turn : world K → world K.
Hypothesis turn_ok : ∀ w, rtc (kstep slack holds delivered) w (turn w).
Implicit Types w : world K.

Abbreviation wfq w := (fq (umem (sock w))).
Abbreviation wrx w := (rx (sock w)).
Abbreviation inv := (winv slack holds delivered).

(** What the state of the callback says of the packets processed so far. *)
Variable P : K → list packet → X → Prop.
Hypothesis P_turn : ∀ w dn x, P (kern w) dn x → P (kern (turn w)) dn x.

(** No more frames are held or waiting to be read than one ring has slots. *)
Definition bounded (w : world K) : Prop :=
  Z.of_nat (length (holds (kern w))) + u32 (producer (wrx w) - consumer (wrx w))
    ≤ XSK_RING_PROD__DEFAULT_NUM_DESCS.

(** The kernel keeps to that. *)
Definition modest : Prop := ∀ w, bounded w → bounded (turn w).

(** The others had turns, and the receive ring was not given back. *)
Definition later (w w' : world K) : Prop :=
  consumer (wrx w') = consumer (wrx w) ∧ (∀ dn x, P (kern w) dn x → P (kern w') dn x) ∧
  (modest → bounded w → bounded w').

Lemma later_trans w1 w2 w3 : later w1 w2 → later w2 w3 → later w1 w3.
Proof. intros (C1 & P1 & B1) (C2 & P2 & B2). split_and!; [congruence|auto..]. Qed.

Lemma later_turn w : same_user w (turn w) → later w (turn w).
Proof.
  intros (_ & _ & _ & _ & _ & Hc & _). split_and!; [done|intros dn x; apply P_turn|by intros Hm; apply Hm].
Qed.

(** A change of the socket that keeps the receive ring. *)
Lemma later_on_sock w s : rx s = wrx w → later w (on_sock (λ _, s) w).
Proof. intros Hr. unfold later, bounded. cbn. by rewrite Hr. Qed.

(** With the kernel modest, the fill ring holds only addresses of the umem. *)
Definition stays_tidy (w : world K) (fl : list Z) (w' : world K) (fl' : list Z) : Prop :=
  modest → bounded w → Forall valid_addr fl → bounded w' ∧ Forall valid_addr fl'.

Lemma stays_tidy_trans w1 fl1 w2 fl2 w3 fl3 :
  stays_tidy w1 fl1 w2 fl2 → stays_tidy w2 fl2 w3 fl3 → stays_tidy w1 fl1 w3 fl3.
Proof. intros H1 H2 Hm Hb Hv. destruct (H1 Hm Hb Hv). by apply H2. Qed.

Lemma stays_tidy_later w fl w' fl' : later w w' → fl' `suffix_of` fl → stays_tidy w fl w' fl'.
Proof. intros (_ & _ & Hb) Hs Hm Hbd Hv. split; [by apply Hb|by eapply Forall_suffix]. Qed.

Lemma inv_stack w n vs fl m i rl dn : inv w n vs fl m i rl dn → stack_ok (sock w).
Proof. intros H. split; apply H. Qed.

(** Everything that is in the stack, held or waiting is an address of the umem. *)
Lemma inv_valid w n vs fl m i rl dn a :
  inv w n vs fl m i rl dn →
  a ∈ free_stack (sock w) ++ holds (kern w) ++ (addr <$> drop i rl) → valid_addr a.
Proof.
  intros H Ha. apply valid_of_chunk. rewrite <-(wi_frames _ _ _ _ _ _ _ _ _ _ _ H).
  apply list_elem_of_fmap_2. unfold free_stack in Ha. set_solver.
Qed.

Lemma inv_count w n vs fl m i rl dn :
  inv w n vs fl m i rl dn →
  umem_frame_free (sock w) + Z.of_nat (length (filter valid_addr (fl ++ vs))) +
    Z.of_nat (length (holds (kern w))) + Z.of_nat (length rl - i) = NUM_FRAMES.
Proof.
  intros H. pose proof (Permutation_length (wi_frames _ _ _ _ _ _ _ _ _ _ _ H)) as Hp.
  rewrite length_fmap, !length_app, length_fmap, length_drop in Hp.
  pose proof (free_stack_length _ (inv_stack _ _ _ _ _ _ _ _ H)) as Hf. unfold free_stack in Hf.
  assert (length (seqZ 0 NUM_FRAMES) = Z.to_nat NUM_FRAMES) as Hn by apply length_seqZ.
  unfold NUM_FRAMES in *. lia.
Qed.

(** A new stack and a new fill ring of the socket. *)
Lemma inv_user w n vs fl m i rl dn s n' vs' :
  inv w n vs fl m i rl dn → stack_ok s → rx s = wrx w → outstanding_tx s = 0 →
  prod_ok (fq (umem s)) n' vs' fl → size (fq (umem s)) = size (wfq w) →
  free_stack (sock w) ++ filter valid_addr vs ≡ₚ free_stack s ++ filter valid_addr vs' →
  inv (on_sock (λ _, s) w) n' vs' fl m i rl dn.
Proof.
  intros H [Hs1 Hs2] Hr Ho Hp Hz Hperm. destruct H. unfold free_stack in *. split; cbn; rewrite ?Hr, ?Hz; try done.
  rewrite <-wi_frames. apply fmap_Permutation. rewrite !filter_app.
  transitivity ((take (Z.to_nat (umem_frame_free s)) (umem_frame_addr s) ++ filter valid_addr vs') ++
    filter valid_addr fl ++ holds (kern w) ++ (addr <$> drop i rl)); [solve_Permutation|].
  rewrite <-Hperm. solve_Permutation.
Qed.

(** A new fill ring with nothing written to the reserved slots. *)
Lemma inv_fq w n fl m i rl dn f n' :
  inv w n [] fl m i rl dn → prod_ok f n' [] fl → size f = size (wfq w) →
  inv (on_sock (with_fq f) w) n' [] fl m i rl dn.
Proof. intros H Hf Hs. eapply (inv_user w _ _ _ _ _ _ _ (with_fq f (sock w))); try done; [by eapply inv_stack|apply H]. Qed.

(** ** Stuffing the fill ring *)

Lemma fill_frames_spec n N w vs fl m i rl dn :
  inv w N vs fl m i rl dn → Z.of_nat (length vs) + Z.of_nat n ≤ N →
  ∃ w' vs' fl' ds, fill_frames turn n (u32 (producer (wfq w) + Z.of_nat (length vs))) w = Ok w' ∧
    inv w' N (vs ++ vs') fl' m i (rl ++ ds) dn ∧ length vs' = n ∧ fl' `suffix_of` fl ∧ later w w' ∧
    (Z.of_nat n ≤ umem_frame_free (sock w) → Forall valid_addr vs').
Proof.
  revert w vs fl rl. induction n as [|n IH]; intros w vs fl rl H Hle.
  { exists w, [], fl, []. by rewrite !app_nil_r. }
  cbn [fill_frames]. destruct (turn_inv _ _ _ turn turn_ok _ _ _ _ _ _ _ _ H) as (fl1 & ds1 & H1 & U1 & S1).
  pose proof (later_turn w U1) as L1.
  destruct U1 as (Ua & Uf & Up & Uc & Ud & Ur & Uo). set (w1 := turn w) in *.
  destruct (xsk_alloc_umem_frame_spec (sock w1) (inv_stack _ _ _ _ _ _ _ _ H1)) as (fr & s & E & Hs & Hcase).
  rewrite E. cbn [mbind res_bind].
  assert (umem s = umem (sock w1) ∧ rx s = wrx w1 ∧ outstanding_tx s = outstanding_tx (sock w1)) as (Hum & Hrx & Hout).
  { by destruct Hcase as [(_ & _ & ->)|[_ ->]]. }
  rewrite <-Up. rewrite Hum.
  set (w2 := on_sock _ w1).
  assert (inv w2 N (vs ++ [fr]) fl1 m i (rl ++ ds1) dn) as H2.
  { unfold w2, on_sock. eapply (inv_user w1); [exact H1|done|done|cbn; rewrite Hout; apply H1| | |].
    - cbn. apply ring_write_spec; [apply H1|lia].
    - done.
    - rewrite filter_app. destruct Hcase as [(Hn & -> & ->)|[Hpop _]].
      + rewrite (filter_cons_False _ INVALID_UMEM_FRAME) by apply invalid_frame_not_valid.
        by rewrite app_nil_r.
      + assert (valid_addr fr) as Hv.
        { eapply inv_valid; [exact H1|]. rewrite Hpop. set_solver. }
        rewrite (filter_cons_True _ fr) by done. rewrite Hpop.
        change (free_stack (with_fq _ s)) with (free_stack s). solve_Permutation. }
  destruct (IH w2 (vs ++ [fr]) fl1 (rl ++ ds1) H2) as (w' & vs' & fl' & ds & E' & H' & Hlen & S' & L' & Hval).
  { rewrite length_app. cbn. lia. }
  exists w', (fr :: vs'), fl', (ds1 ++ ds). split_and!.
  - rewrite <-E'. f_equal. rewrite u32_add_l, length_app. cbn. f_equal. lia.
  - by rewrite (assoc_L (++) rl), (cons_middle fr), (assoc_L (++) vs).
  - cbn. by rewrite Hlen.
  - by etrans.
  - eapply later_trans, later_trans, L'; [exact L1|]. by apply (later_on_sock w1).
  - intros Hn. rewrite <-Uf in Hn. pose proof (free_stack_length _ (inv_stack _ _ _ _ _ _ _ _ H1)) as Hfl.
    destruct Hcase as [(Hnil & _)|[Hpop Hs']]; [rewrite Hnil in Hfl; cbn in Hfl; lia|].
    rewrite Hpop, length_app in Hfl. cbn in Hfl. constructor.
    + eapply inv_valid; [exact H1|]. rewrite Hpop. set_solver.
    + apply Hval. pose proof (free_stack_length s Hs).
      change (umem_frame_free (sock w2)) with (umem_frame_free s). lia.
Qed.

(** Slots are filled and submitted. *)
Lemma fill_submit_spec n w fl m i rl dn :
  inv w (Z.of_nat n) [] fl m i rl dn →
  ∃ w1 vs fl' ds, fill_frames turn n (producer (wfq w)) w = Ok w1 ∧
    let w2 := turn w1 in
    inv (on_sock (with_fq (xsk_ring_prod__submit (wfq w2) (Z.of_nat n))) w2) 0 [] (fl' ++ vs) m i (rl ++ ds) dn ∧
    fl' `suffix_of` fl ∧ length vs = n ∧ later w w2 ∧ (Z.of_nat n ≤ umem_frame_free (sock w) → Forall valid_addr vs).
Proof.
  intros H. destruct (fill_frames_spec n (Z.of_nat n) w [] fl m i rl dn H) as
    (w1 & vs & fl1 & ds1 & E & H1 & Hlen & S1 & L1 & V1); [cbn; lia|]. cbn in E.
  rewrite Z.add_0_r, u32_small in E by apply H. rewrite E.
  destruct (turn_inv _ _ _ turn turn_ok _ _ _ _ _ _ _ _ H1) as (fl2 & ds2 & H2 & U2 & S2).
  eexists w1, vs, fl2, (ds1 ++ ds2). rewrite (assoc_L (++)). split; [done|].
  split; [|split_and!; [by etrans|done|by eapply later_trans, later_turn|done]].
  assert (stack_ok (sock (turn w1))) as Hs by (by eapply inv_stack).
  pose proof (xsk_ring_prod__submit_spec _ _ _ _ (wi_fq _ _ _ _ _ _ _ _ _ _ _ H2)) as Hp. cbn in Hp.
  destruct H2. split; cbn; try done; [apply Hp; by rewrite Hlen|by rewrite app_nil_r].
Qed.

(** The ring is stuffed; the loop that "should not happen" is not entered. *)
Lemma stuff_ring_spec fuel rcvd w fl m rl dn :
  inv w 0 [] fl m 0 rl dn →
  ∃ w' fl' ds, stuff_ring turn fuel rcvd w = Ok w' ∧ inv w' 0 [] fl' m 0 (rl ++ ds) dn ∧
    later w w' ∧ stays_tidy w fl w' fl'.
Proof.
  intros H. unfold stuff_ring.
  destruct (turn_inv _ _ _ turn turn_ok _ _ _ _ _ _ _ _ H) as (fl1 & ds1 & H1 & U1 & S1).
  pose proof (later_turn w U1) as L1. pose proof L1 as (_ & _ & B1). set (w1 := turn w) in *. clearbody w1.
  destruct (xsk_prod_nb_free_spec (wfq w1) fl1 (xsk_umem_free_frames (sock w1)) (wi_fq _ _ _ _ _ _ _ _ _ _ _ H1))
    as (n & f & E & Hf & Hn & _ & Hc & Hs). rewrite E.
  pose proof (inv_fq w1 0 fl1 m 0 (rl ++ ds1) dn f 0 H1 Hf Hs) as H2.
  assert (bounded w1 → Forall valid_addr fl1 → n ≤ umem_frame_free (sock w1)) as Hfree.
  { intros Hroom Hv. pose proof (inv_count _ _ _ _ _ _ _ _ H1) as Hcount. unfold bounded in Hroom.
    rewrite app_nil_r, Nat.sub_0_r, filter_all in Hcount by done.
    rewrite (co_used _ _ _ (wi_rx _ _ _ _ _ _ _ _ _ _ _ H1)) in Hroom.
    rewrite (wi_fsize _ _ _ _ _ _ _ _ _ _ _ H1) in Hn.
    unfold NUM_FRAMES, XSK_RING_PROD__DEFAULT_NUM_DESCS in *. lia. }
  destruct (Z.ltb_spec 0 n) as [Hpos|Hzero].
  2: { eexists _, fl1, ds1. split; [reflexivity|]. split; [exact H2|].
    split; [exact L1|]. by apply (stays_tidy_later w fl w1). }
  destruct (turn_inv _ _ _ turn turn_ok _ _ _ _ _ _ _ _ H2) as (fl2 & ds2 & H3 & U3 & S3).
  pose proof (later_turn _ U3) as L3. set (w3 := turn _) in *. destruct U3 as (_ & Uf & _ & Uc & Ud & _).
  destruct (xsk_ring_prod__reserve_spec (wfq w3) fl2 n (wi_fq _ _ _ _ _ _ _ _ _ _ _ H3)) as (f' & E' & Hf' & Hp' & Hs').
  { rewrite Uc, Ud. cbn. lia. }
  rewrite E'. pose proof (inv_fq w3 0 fl2 m 0 _ dn f' n H3 Hf' Hs') as H4.
  set (w4 := on_sock (with_fq f') w3) in *.
  assert (reserve_again turn fuel n (default 0 (Some (producer (wfq w3)))) n rcvd w4 =
          Ok (producer (wfq w4), w4)) as ->.
  { cbn [default]. rewrite <-Hp'. destruct fuel; cbn [reserve_again]; by rewrite Z.eqb_refl. }
  cbn [mbind res_bind]. rewrite <-(Z2Nat.id n) in H4 by lia.
  destruct (fill_submit_spec (Z.to_nat n) w4 fl2 m 0 _ dn H4) as (w5 & vs & fl' & ds & E5 & H5 & S5 & _ & L5 & V5).
  rewrite E5. cbn [mbind res_bind]. rewrite Z2Nat.id in H5, V5 by lia.
  eexists _, (fl' ++ vs), (ds1 ++ ds2 ++ ds). split; [reflexivity|].
  rewrite !(assoc_L (++)). split; [exact H5|].
  split; [exact (later_trans _ _ _ L1 (later_trans _ _ _ L3 L5))|].
  intros Hm Hbd Hv. pose proof (Forall_suffix _ _ _ S1 Hv) as Hv1.
  split; [by apply (later_trans _ _ _ L1 (later_trans _ _ _ L3 L5))|].
  apply Forall_app. split; [eapply Forall_suffix, Forall_suffix; eauto|]. apply V5.
  transitivity (umem_frame_free (sock w1)); [by apply Hfree; [apply B1|]|]. cbn. rewrite Uf. done.
Qed.

(** ** The packets of a batch *)

(** [body] processes the packet at the head of the waiting ones and frees its frame. *)
Definition body_ok (body : Z → Z → X → world K → res (X * world K)) : Prop :=
  ∀ w fl m i rl dn d b pend x,
    inv w 0 [] fl m i rl dn → P (kern w) dn x →
    delivered (kern w) = dn ++ (d, b) :: pend → in_frame slack d → packet_bytes (mem w) d = b →
    umem_frame_free (sock w) < NUM_FRAMES →
    ∃ x' s, body (addr d) (dlen d) x w = Ok (x', on_sock (λ _, s) w) ∧ P (kern w) (dn ++ [(d, b)]) x' ∧
      xsk_free_umem_frame (sock w) (addr d) = Ok s.

(** The next packet of the batch. *)
Lemma inv_next w fl m i rl dn :
  inv w 0 [] fl m i rl dn → Z.of_nat i < m →
  ∃ d b pend, rl !! i = Some d ∧ drop i rl = d :: drop (S i) rl ∧
    delivered (kern w) = dn ++ (d, b) :: pend ∧ pend.*1 = drop (S i) rl ∧ in_frame slack d ∧
    packet_bytes (mem w) d = b ∧
    Forall (λ p : packet, in_frame slack p.1 ∧ packet_bytes (mem w) p.1 = p.2) pend ∧
    umem_frame_free (sock w) < NUM_FRAMES.
Proof.
  intros H Hi. pose proof (co_seen _ _ _ (wi_rx _ _ _ _ _ _ _ _ _ _ _ H)) as Hseen.
  pose proof (u32_range (cached_prod (wrx w) - cached_cons (wrx w))).
  destruct (lookup_lt_is_Some_2 rl i) as [d Hd]; [lia|].
  pose proof (drop_S _ _ _ Hd) as Hdrop.
  destruct (wi_packets _ _ _ _ _ _ _ _ _ _ _ H) as ([|[d' b] pend] & Hdel & Hp & Hf); rewrite Hdrop in Hp; [done|].
  cbn in Hp. injection Hp as -> Hp. apply Forall_cons in Hf as [[Hf1 Hf2] Hf].
  exists d, b, pend. split_and!; try done.
  pose proof (inv_count _ _ _ _ _ _ _ _ H). lia.
Qed.

Lemma process_received_spec body n w fl i rl dn x :
  body_ok body → inv w 0 [] fl (Z.of_nat (i + n)) i rl dn → P (kern w) dn x →
  ∃ x' w' fl' ds dn', process_received turn body n (u32 (consumer (wrx w) + Z.of_nat i)) x w = Ok (x', w') ∧
    inv w' 0 [] fl' (Z.of_nat (i + n)) (i + n) (rl ++ ds) (dn ++ dn') ∧ length dn' = n ∧
    P (kern w') (dn ++ dn') x' ∧ fl' `suffix_of` fl ∧ later w w'.
Proof.
  intros Hb. revert w fl i rl dn x. induction n as [|n IH]; intros w fl i rl dn x H HP.
  { exists x, w, fl, [], []. rewrite !app_nil_r, Nat.add_0_r in *. done. }
  cbn [process_received]. destruct (turn_inv _ _ _ turn turn_ok _ _ _ _ _ _ _ _ H) as (fl1 & ds1 & H1 & U1 & S1).
  pose proof (later_turn w U1) as L1. destruct U1 as (_ & _ & _ & _ & _ & Ur & _).
  destruct (inv_next _ _ _ _ _ _ H1) as (d & b & pend & Hd & Hdrop & Hdel & Hp & Hin & Hby & Hpend & Hfree); [lia|].
  unfold xsk_ring_cons__rx_desc. rewrite <-Ur.
  rewrite (ring_read_spec _ _ _ i d (wi_rx _ _ _ _ _ _ _ _ _ _ _ H1) Hd). cbn [mbind res_bind].
  apply P_turn in HP. set (w1 := turn w) in *. clearbody w1.
  destruct (Hb w1 fl1 _ i _ dn d b pend x H1 HP Hdel Hin Hby Hfree) as (x2 & s & E & HP2 & Es).
  rewrite E. cbn [mbind res_bind].
  destruct (xsk_free_umem_frame_spec (sock w1) (addr d)) as (s' & Es' & Hs & Hstack & Hs'); [by eapply inv_stack|done|].
  rewrite Es in Es'. injection Es' as <-.
  set (w2 := on_sock (λ _, s) w1).
  assert (inv w2 0 [] fl1 (Z.of_nat (S i + n)) (S i) (rl ++ ds1) (dn ++ [(d, b)])) as H2.
  { destruct H1, Hs as [Hs1 Hs2]. unfold w2. rewrite Hs'. unfold free_stack in Hstack.
    rewrite Nat.add_succ_r in *. split; cbn; try done.
    - rewrite <-wi_frames, Hdrop, Hstack. apply fmap_Permutation. cbn. solve_Permutation.
    - exists pend. rewrite Hdel, <-(assoc_L (++)). done.
    - lia. }
  replace (u32 (u32 (consumer (wrx w1) + Z.of_nat i) + 1)) with (u32 (consumer (wrx w2) + Z.of_nat (S i))).
  2: { rewrite u32_add_l. unfold w2. rewrite Hs'. cbn. f_equal. lia. }
  destruct (IH w2 fl1 (S i) _ _ x2 H2 HP2) as (x' & w' & fl' & ds & dn' & E' & H' & Hlen & HP' & S' & L').
  exists x', w', fl', (ds1 ++ ds), ((d, b) :: dn'). rewrite Nat.add_succ_r, (assoc_L (++) rl), (cons_middle (d, b)), (assoc_L (++) dn).
  split_and!; try done; [by cbn; rewrite Hlen|by etrans|].
  eapply later_trans, later_trans, L'; [exact L1|]. apply (later_on_sock w1). by rewrite Hs'.
Qed.

(** A whole call: the batch is processed, the ring given back. *)
Lemma receive_batch_spec fuel body w fl rl dn x :
  body_ok body → inv w 0 [] fl 0 0 rl dn → P (kern w) dn x →
  ∃ rcvd x' w' fl' rl' dn', receive_batch turn fuel body x w = Ok (rcvd, x', w') ∧
    inv w' 0 [] fl' 0 0 rl' (dn ++ dn') ∧ P (kern w') (dn ++ dn') x' ∧
    Z.of_nat (length dn') = rcvd ∧ 0 ≤ rcvd ≤ RX_BATCH_SIZE ∧
    stays_tidy w fl w' fl'.
Proof.
  intros Hb H HP. unfold receive_batch.
  destruct (turn_inv _ _ _ turn turn_ok _ _ _ _ _ _ _ _ H) as (fl1 & ds1 & H1 & U1 & S1).
  pose proof (stays_tidy_later w fl _ fl1 (later_turn w U1) S1) as T1.
  apply P_turn in HP. set (w1 := turn w) in *. clearbody w1.
  destruct (xsk_ring_cons__peek_spec _ _ RX_BATCH_SIZE (wi_rx _ _ _ _ _ _ _ _ _ _ _ H1)) as
    (n & idx & r & E & Hn & Hz & Hidx & Hr & Hc & Hs); [done|].
  rewrite E. set (w2 := on_sock (with_rx r) w1).
  assert (inv w2 0 [] fl1 n 0 (rl ++ ds1) dn) as H2.
  { destruct H1. split; cbn; try done; [by rewrite Hs|lia]. }
  assert (stays_tidy w fl w2 fl1) as T2.
  { eapply stays_tidy_trans; [exact T1|]. intros _ Hbd Hv. split; [|done]. unfold bounded in *. cbn.
    rewrite (co_used _ _ _ Hr). by rewrite (co_used _ _ _ (wi_rx _ _ _ _ _ _ _ _ _ _ _ H1)) in Hbd. }
  destruct (Z.eqb_spec n 0) as [->|Hne].
  { exists 0, x, w2, fl1, (rl ++ ds1), []. rewrite app_nil_r. by split_and!. }
  destruct (stuff_ring_spec fuel n w2 fl1 n _ dn H2) as (w3 & fl3 & ds3 & E3 & H3 & (C3 & L3 & _) & T3).
  rewrite E3. cbn [mbind res_bind]. rewrite Hidx by lia. cbn [default from_option id].
  assert (n = Z.of_nat (0 + Z.to_nat n)) as Hnn by lia. rewrite Hnn in H3.
  destruct (process_received_spec body (Z.to_nat n) w3 fl3 0 _ dn x Hb H3 (L3 dn x HP)) as
    (x4 & w4 & fl4 & ds4 & dn' & E4 & H4 & Hlen & HP4 & S4 & L4).
  rewrite Z.add_0_r, C3, u32_small in E4 by (cbn; rewrite Hc; apply H1). cbn in E4. rewrite Hc in E4.
  rewrite E4. cbn [mbind res_bind].
  destruct (turn_inv _ _ _ turn turn_ok _ _ _ _ _ _ _ _ H4) as (fl5 & ds5 & H5 & U5 & S5).
  pose proof (stays_tidy_later _ _ _ fl4 L4 S4) as T4.
  pose proof (stays_tidy_later _ _ _ fl5 (later_turn w4 U5) S5) as T5.
  apply P_turn in HP4. set (w5 := turn w4) in *. rewrite <-Hnn in H5.
  pose proof (xsk_ring_cons__release_spec _ _ _ (wi_rx _ _ _ _ _ _ _ _ _ _ _ H5)) as Hrel.
  exists n, x4, (on_sock (with_rx (xsk_ring_cons__release (wrx w5) n)) w5), fl5, (drop (Z.to_nat n) ((((rl ++ ds1) ++ ds3) ++ ds4) ++ ds5)), dn'.
  split_and!; try done; try lia.
  - destruct H5. split; cbn; try done; try lia.
  - do 4 (eapply stays_tidy_trans; [eassumption|]). intros _ Hbd Hv. split; [|done].
    unfold bounded in *. rewrite (co_used _ _ _ (wi_rx _ _ _ _ _ _ _ _ _ _ _ H5)) in Hbd. cbn.
    pose proof (co_used _ _ _ Hrel) as Hu. cbn in Hu. rewrite Hu, length_drop. lia.
Qed.

(** ** The two callbacks, and the capture loop *)

Variable clock_gettime : K → option (Z * Z).

(** The callback takes a packet, with what can be read behind it. *)
Definition fn_ok (fn : list Z → pkthdr → X → res X) : Prop :=
  ∀ k dn x d b pkt sec nsec,
    P k dn x → clock_gettime k = Some (sec, nsec) → 0 ≤ dlen d →
    take (Z.to_nat (dlen d)) pkt = b → dlen d + slack ≤ Z.of_nat (length pkt) →
    ∃ x', fn pkt (PktHdr sec (nsec / 1000) (dlen d) (dlen d)) x = Ok x' ∧ P k (dn ++ [(d, b)]) x'.

Lemma chunk_end a : valid_addr a → (chunk a + 1) * FRAME_SIZE ≤ NUM_FRAMES * FRAME_SIZE.
Proof.
  unfold valid_addr, chunk. change FRAME_SIZE with 4096. unfold NUM_FRAMES. intros H. dlia.
Qed.

Lemma deliver_packet_ok fn :
  fn_ok fn → (∀ k, is_Some (clock_gettime k)) → body_ok (deliver_packet clock_gettime fn).
Proof.
  intros Hfn Hclock w fl m i rl dn d b pend x H HP Hdel (Hva & Hl & Hsl & Hend) Hby Hfree.
  unfold deliver_packet, gettime2. destruct (Hclock (kern w)) as [[sec nsec] Hc]. rewrite Hc.
  cbn [or_fault mbind res_bind].
  destruct (Hfn (kern w) dn x d b (xsk_umem__get_data (mem w) (addr d)) sec nsec HP Hc Hl Hby) as (x' & E & HP').
  { unfold xsk_umem__get_data. rewrite length_drop.
    pose proof (wi_mem _ _ _ _ _ _ _ _ _ _ _ H) as Hm. pose proof (chunk_end _ Hva). destruct Hva. lia. }
  rewrite E. cbn [mbind res_bind].
  destruct (xsk_free_umem_frame_spec (sock w) (addr d)) as (s & Es & _); [by eapply inv_stack|done|].
  rewrite Es. cbn [mbind res_bind]. by exists x', s.
Qed.

Lemma handle_receive_packets_spec fuel fn w fl rl dn x :
  fn_ok fn → (∀ k, is_Some (clock_gettime k)) → inv w 0 [] fl 0 0 rl dn → P (kern w) dn x →
  ∃ ret x' w' fl' rl' dn', handle_receive_packets turn clock_gettime fuel fn x w = Ok (ret, x', w') ∧
    inv w' 0 [] fl' 0 0 rl' (dn ++ dn') ∧ P (kern w') (dn ++ dn') x' ∧
    Z.of_nat (length dn') ≤ RX_BATCH_SIZE ∧ (ret = 0 ↔ dn' = []) ∧
    stays_tidy w fl w' fl'.
Proof.
  intros Hfn Hc H HP. unfold handle_receive_packets.
  destruct (receive_batch_spec fuel _ w fl rl dn x (deliver_packet_ok fn Hfn Hc) H HP) as
    (n & x' & w' & fl' & rl' & dn' & E & H' & HP' & Hlen & Hn & V).
  rewrite E. cbn [mbind res_bind]. exists (if n =? 0 then 0 else 1), x', w', fl', rl', dn'.
  split_and!; try done; [lia|]. split.
  - destruct (Z.eqb_spec n 0) as [->|Hne]; intros Hr; [by apply nil_length_inv; lia|done].
  - intros ->. cbn in Hlen. by rewrite <-Hlen.
Qed.

Variable poll : K → Z → Z.

(** However long the loop runs, it never faults, and it loses nothing. *)
Lemma rx_loop_spec rounds fuel pm nt to fn i w fl rl dn x :
  fn_ok fn → (∀ k, is_Some (clock_gettime k)) → inv w 0 [] fl 0 0 rl dn → P (kern w) dn x →
  ∃ o, rx_loop turn clock_gettime poll rounds fuel pm nt to fn i x w = Ok o ∧
    ∀ x' w', o = Some (x', w') →
      ∃ fl' rl' dn', inv w' 0 [] fl' 0 0 rl' (dn ++ dn') ∧ P (kern w') (dn ++ dn') x' ∧
        stays_tidy w fl w' fl'.
Proof.
  intros Hfn Hc. revert i w fl rl dn x. induction rounds as [|rounds IH]; intros i w fl rl dn x H HP.
  all: cbn [rx_loop]; destruct (turn_inv _ _ _ turn turn_ok _ _ _ _ _ _ _ _ H) as (fl1 & ds1 & H1 & U1 & S1);
    pose proof (stays_tidy_later w fl _ fl1 (later_turn w U1) S1) as T1;
    apply P_turn in HP; set (w1 := turn w) in *; clearbody w1; destruct (_ && _).
  2, 4: exists (Some (x, w1)); (split; [done|]); intros x' w' [= <- <-]; exists fl1, (rl ++ ds1), [];
    rewrite app_nil_r; by split_and!.
  - by exists None.
  - destruct (turn_inv _ _ _ turn turn_ok _ _ _ _ _ _ _ _ H1) as (fl2 & ds2 & H2 & U2 & S2).
    pose proof (stays_tidy_later w1 fl1 _ fl2 (later_turn w1 U2) S2) as T2.
    apply P_turn in HP. set (w2 := turn w1) in *. clearbody w2. destruct (_ && _).
    + destruct (IH (i + 1) w2 _ _ dn x H2 HP) as (o & E & Ho). exists o. split; [done|].
      intros x' w' Hxw. destruct (Ho x' w' Hxw) as (fl' & rl' & dn' & H' & HP' & T).
      exists fl', rl', dn'. split_and!; try done. by do 2 (eapply stays_tidy_trans; [eassumption|]).
    + destruct (handle_receive_packets_spec fuel fn w2 _ _ dn x Hfn Hc H2 HP) as
        (ret & x3 & w3 & fl3 & rl3 & dn3 & E3 & H3 & HP3 & _ & _ & T3).
      rewrite E3. cbn [mbind res_bind].
      destruct (IH (if pm then 0 else i) w3 _ _ _ x3 H3 HP3) as (o & E & Ho). exists o. split; [done|].
      intros x' w' Hxw. destruct (Ho x' w' Hxw) as (fl' & rl' & dn' & H' & HP' & T).
      exists fl', rl', (dn3 ++ dn'). rewrite (assoc_L (++)). split_and!; try done.
      by do 3 (eapply stays_tidy_trans; [eassumption|]).
Qed.
End receive.

(** ** The configuration of the socket *)

Lemma init_frames_lookup n i j : (j < n)%nat → 0 ≤ i → i + Z.of_nat n ≤ NUM_FRAMES →
  init_frames n i !! j = Some ((i + Z.of_nat j) * FRAME_SIZE).
Proof.
  revert i j. induction n as [|n IH]; intros i j Hj Hi Hn; [lia|]. cbn [init_frames]. destruct j as [|j].
  - cbn. rewrite Z.add_0_r. f_equal. change FRAME_SIZE with 4096. unfold NUM_FRAMES in *.
    unfold s32. rewrite u32_small by lia. rewrite (proj2 (Z.ltb_lt _ _)) by lia. apply u64_small. lia.
  - cbn. rewrite IH by lia. f_equal. lia.
Qed.

Lemma init_frames_length n i : length (init_frames n i) = n.
Proof. revert i. induction n as [|n IH]; intros i; [done|]. cbn. by rewrite IH. Qed.

Lemma init_frames_chunks n i :
  0 ≤ i → i + Z.of_nat n ≤ NUM_FRAMES → chunk <$> init_frames n i = seqZ i (Z.of_nat n).
Proof.
  intros Hi Hn. apply list_eq. intros j. rewrite list_lookup_fmap.
  destruct (decide (j < n)%nat) as [Hj|Hj].
  - rewrite init_frames_lookup by lia. cbn. rewrite lookup_seqZ_lt by lia. f_equal.
    unfold chunk. by rewrite Z.div_mul.
  - rewrite !lookup_ge_None_2; [done|rewrite length_seqZ; lia|rewrite init_frames_length; lia].
Qed.

(** Stuffing the ring at the start is filling it with nobody else acting. *)
Lemma stuff_fill_frames {K} n idx (w : world K) :
  fill_frames (λ w, w) n idx w = (s ← stuff_fill n idx (sock w); Ok (on_sock (λ _, s) w)).
Proof.
  revert idx w. induction n as [|n IH]; intros idx w; [by destruct w|]. cbn [fill_frames stuff_fill].
  destruct (xsk_alloc_umem_frame (sock w)) as [[frame s]|e]; [|done]. cbn [mbind res_bind].
  by rewrite IH.
Qed.

(** What libbpf leaves in new rings. *)
Definition new_prod (f : xsk_ring Z) : Prop :=
  prod_ok f 0 [] [] ∧ size f = XSK_RING_PROD__DEFAULT_NUM_DESCS.
Definition new_cons (r : xsk_ring xdp_desc) : Prop :=
  cons_ok r 0 [] ∧ size r = XSK_RING_CONS__DEFAULT_NUM_DESCS.

Lemma xsk_configure_socket_spec {K} create link_id cfg um (slack : Z) (holds : K → list Z)
    (delivered : K → list packet) k m b :
  (∀ c, (create (ifname cfg) (xsk_if_queue cfg) um c).1.1 = 0 ∧
        new_cons (create (ifname cfg) (xsk_if_queue cfg) um c).1.2) →
  link_id (ifindex cfg) (xdp_flags cfg) = 0 → new_prod (fq um) →
  holds k = [] → delivered k = [] → Z.of_nat (length m) = NUM_FRAMES * FRAME_SIZE →
  ∃ xsk fl, xsk_configure_socket true create link_id cfg um = Ok (Some xsk, 0) ∧
    winv slack holds delivered (World xsk k m b) 0 [] fl 0 0 [] [] ∧ Forall valid_addr fl ∧
    Z.of_nat (length fl) = XSK_RING_PROD__DEFAULT_NUM_DESCS ∧
    umem_frame_free xsk = NUM_FRAMES - XSK_RING_PROD__DEFAULT_NUM_DESCS.
Proof.
  intros Hcreate Hlink [Hfq Hfs] Hh Hd Hm. unfold xsk_configure_socket.
  set (c := XskCfg _ _ _ _ _). destruct (Hcreate c) as [H0 [Hrx Hrs]].
  destruct (create _ _ um c) as [[ret r] t]. cbn in H0, Hrx, Hrs. subst ret. cbn [negb Z.eqb].
  rewrite Hlink. cbn [negb Z.eqb].
  (* the slots are there *)
  destruct (xsk_prod_nb_free_spec (fq um) [] XSK_RING_PROD__DEFAULT_NUM_DESCS Hfq) as
    (n & f & En & Hf & Hn & Hor & Hc & Hs).
  rewrite Hfs in Hn, Hor. cbn in Hn, Hor. assert (n = 2048) as -> by (unfold XSK_RING_PROD__DEFAULT_NUM_DESCS in *; lia).
  assert (∃ f', xsk_ring_prod__reserve (fq um) XSK_RING_PROD__DEFAULT_NUM_DESCS =
     (XSK_RING_PROD__DEFAULT_NUM_DESCS, Some (producer f'), f') ∧
     prod_ok f' XSK_RING_PROD__DEFAULT_NUM_DESCS [] [] ∧ size f' = XSK_RING_PROD__DEFAULT_NUM_DESCS) as
    (f' & Er & Hf' & Hfs').
  { destruct (xsk_ring_prod__reserve_spec f [] XSK_RING_PROD__DEFAULT_NUM_DESCS Hf) as (f' & E & Hf' & Hp & Hs').
    { unfold XSK_RING_PROD__DEFAULT_NUM_DESCS. lia. }
    exists f'. rewrite Hp, Hs', Hs, Hfs. split; [|done]. rewrite <-E. unfold xsk_ring_prod__reserve. rewrite En.
    assert (xsk_prod_nb_free f XSK_RING_PROD__DEFAULT_NUM_DESCS = (u32 (cached_cons f - cached_prod f), f)) as ->.
    { unfold xsk_prod_nb_free. rewrite (proj2 (Z.leb_le _ _)); [done|].
      unfold XSK_RING_PROD__DEFAULT_NUM_DESCS. lia. }
    rewrite (proj2 (Z.ltb_ge (u32 _) _)) by (unfold XSK_RING_PROD__DEFAULT_NUM_DESCS; lia). done. }
  rewrite Er. cbn [default from_option id]. rewrite Z.eqb_refl. cbn [negb].
  set (s0 := with_fq f' _). set (w0 := World s0 k m b).
  assert (winv slack holds delivered w0 (Z.of_nat (Z.to_nat XSK_RING_PROD__DEFAULT_NUM_DESCS)) [] [] 0 0 [] []) as H.
  { split; cbn [sock w0 s0 with_fq umem fq rx]; try done.
    - cbn [kern w0]. rewrite Hh. cbn [drop fmap list_fmap app filter list_filter s0 with_fq umem_frame_addr umem_frame_free].
      rewrite !app_nil_r, firstn_all2 by (by rewrite init_frames_length).
      by rewrite (init_frames_chunks (Z.to_nat NUM_FRAMES) 0).
    - by exists []. }
  destruct (fill_submit_spec slack holds delivered (λ w, w) (λ w, rtc_refl _ w) (λ _ _ (_ : unit), True)
    (λ _ _ _ _, I) _ w0 [] 0 0 [] [] H) as (w1 & vs & fl & ds & E & H1 & Hfl & Hlen & _ & V).
  change (producer (fq (umem (sock w0)))) with (producer f') in E.
  rewrite stuff_fill_frames in E. cbn [sock w0] in E. fold w0 in E.
  destruct (stuff_fill (Z.to_nat XSK_RING_PROD__DEFAULT_NUM_DESCS) (producer f') s0) as [s1|]; [|done].
  cbn [mbind res_bind] in E. injection E as <-. cbn [mbind res_bind].
  eexists _, vs. split; [reflexivity|].
  assert (fl = []) as -> by (destruct Hfl as [l Hl]; by destruct l, fl). cbn [app] in H1.
  assert (ds = []) as ->.
  { destruct (wi_packets _ _ _ _ _ _ _ _ _ _ _ H1) as (pend & Hdel & Hp & _). cbn in Hdel, Hp.
    rewrite Hd in Hdel. by subst pend. }
  rewrite Z2Nat.id in H1 by done. assert (Forall valid_addr vs) as Hv by (apply V; done).
  split; [exact H1|]. split; [done|]. split; [by rewrite Hlen|].
  pose proof (inv_count _ _ _ _ _ _ _ _ _ _ _ H1) as Hcount. cbn in Hcount.
  rewrite Hh, app_nil_r, filter_all, Hlen in Hcount by done. cbn in *. lia.
Qed.
