(* ===== verification/XskKernel.v ===== *)
(** * A kernel for the examples

    An executable kernel that keeps the contract of [kstep]: at every turn it
    takes addresses from the fill ring, up to a limit of the frames it keeps, and
    delivers packets of a fixed length from the frames it holds. *)

From S2P Require Import Prelude Packet XskRing Xsk XskInv XskSpec.

Record kstate := KState { k_held : list Z; k_delivered : list packet; k_time : Z }.

Section kernel.
Variables (slack plen limit : Z).
Implicit Types w : world kstate.

#[global] Instance in_frame_dec d : Decision (in_frame slack d).
Proof. unfold in_frame. apply _. Defined.

Abbreviation kst := (kstep slack k_held k_delivered).

(** The frames held or waiting in the receive ring. *)
Definition kept_frames w : Z :=
  Z.of_nat (length (k_held (kern w))) + u32 (producer (rx (sock w)) - consumer (rx (sock w))).

(** One address of the fill ring, if there is one and it may be kept. *)
Definition take_one w : option (world kstate) :=
  let f := fq (umem (sock w)) in
  if (u32 (producer f - consumer f) =? 0) || (limit <=? kept_frames w) then None
  else
    match ring f !! slot f (consumer f) with
    | Some a =>
      let held := if decide (valid_addr a) then k_held (kern w) ++ [a] else k_held (kern w) in
      Some (World (with_fq (with_consumer (u32 (consumer f + 1)) f) (sock w))
              (KState held (k_delivered (kern w)) (k_time (kern w))) (mem w) (stop_capture w))
    | None => None
    end.

(** One packet in the oldest frame, if there is room. *)
Definition deliver_one w : option (world kstate) :=
  let r := rx (sock w) in
  match k_held (kern w) with
  | [] => None
  | a :: held =>
    let d := XdpDesc a plen 0 in
    if decide (in_frame slack d ∧ u32 (producer r - consumer r) < size r) then
      Some (World (with_rx (with_producer (u32 (producer r + 1)) (ring_write r (producer r) d)) (sock w))
              (KState held (k_delivered (kern w) ++ [(d, packet_bytes (mem w) d)]) (k_time (kern w)))
              (mem w) (stop_capture w))
    else None
  end.

Fixpoint repeated (f : world kstate → option (world kstate)) (n : nat) w : world kstate :=
  match n with
  | O => w
  | S n => match f w with Some w' => repeated f n w' | None => w end
  end.

Definition tick w : world kstate :=
  World (sock w) (KState (k_held (kern w)) (k_delivered (kern w)) (k_time (kern w) + 1)) (mem w) (stop_capture w).

(** At most [n] addresses, then [p] packets if the receive ring is empty. *)
Definition kernel_turn (n p : nat) w : world kstate :=
  let w := repeated take_one n w in
  let w := if u32 (producer (rx (sock w)) - consumer (rx (sock w))) =? 0
           then repeated deliver_one p w else w in
  tick w.

Lemma take_one_ok w w' : take_one w = Some w' → kst w w'.
Proof.
  unfold take_one. destruct (Z.eqb_spec (u32 (producer (fq (umem (sock w))) - consumer (fq (umem (sock w))))) 0)
    as [?|Hne]; [done|]. destruct (_ <=? _); [done|]. cbn [orb].
  destruct (ring _ !! _) as [a|] eqn:Ha; [|done]. intros [= <-].
  apply (KTake slack k_held k_delivered w a); [done|done| |done]. cbn.
  destruct (decide (valid_addr a)); [done|by rewrite app_nil_r].
Qed.

Lemma deliver_one_ok w w' : deliver_one w = Some w' → kst w w'.
Proof.
  unfold deliver_one. destruct (k_held (kern w)) as [|a held] eqn:Hh; [done|].
  destruct (decide _) as [[Hin Hroom]|]; [|done]. intros [= <-].
  by apply (KDeliver slack k_held k_delivered w a [] held).
Qed.

Lemma repeated_ok f n w : (∀ w w', f w = Some w' → kst w w') → rtc kst w (repeated f n w).
Proof.
  intros Hf. revert w. induction n as [|n IH]; intros w; [done|]. cbn.
  destruct (f w) as [w'|] eqn:E; [|done]. eapply rtc_l, IH. by apply Hf.
Qed.

Lemma kernel_turn_ok n p w : rtc kst w (kernel_turn n p w).
Proof.
  unfold kernel_turn. etrans; [apply (repeated_ok take_one), take_one_ok|].
  set (w1 := repeated take_one n w). destruct (_ =? 0).
  - etrans; [apply (repeated_ok deliver_one), deliver_one_ok|]. apply rtc_once. apply (KOther slack k_held k_delivered); auto.
  - apply rtc_once. apply (KOther slack k_held k_delivered); auto.
Qed.

(** A turn takes one unit of time. *)
Lemma repeated_time f n w :
  (∀ w w', f w = Some w' → k_time (kern w') = k_time (kern w)) →
  k_time (kern (repeated f n w)) = k_time (kern w).
Proof.
  intros Hf. revert w. induction n as [|n IH]; intros w; [done|]. cbn.
  destruct (f w) as [w'|] eqn:E; [|done]. by rewrite IH, (Hf w w').
Qed.

Lemma kernel_turn_time n p w : k_time (kern (kernel_turn n p w)) = k_time (kern w) + 1.
Proof.
  unfold kernel_turn. cbn. f_equal. destruct (_ =? 0); rewrite ?repeated_time; try done.
  all: intros w1 w2; unfold take_one, deliver_one; repeat case_match; try done; by intros [= <-].
Qed.

(** With the limit of one ring it is modest. *)
Lemma repeated_bounded f n w :
  (∀ w w', f w = Some w' → bounded k_held w → bounded k_held w') →
  bounded k_held w → bounded k_held (repeated f n w).
Proof.
  intros Hf. revert w. induction n as [|n IH]; intros w H; [done|]. cbn.
  destruct (f w) as [w'|] eqn:E; [|done]. by eapply IH, Hf.
Qed.

Lemma kernel_turn_modest n p : limit = XSK_RING_PROD__DEFAULT_NUM_DESCS → modest k_held (kernel_turn n p).
Proof.
  intros Hlim w H. unfold kernel_turn.
  assert (bounded k_held (repeated take_one n w)) as H1.
  { apply repeated_bounded; [|done]. clear w H. intros w w'. unfold take_one.
    destruct (_ =? 0); [done|]. cbn [orb]. destruct (Z.leb_spec limit (kept_frames w)) as [|Hk]; [done|].
    destruct (ring _ !! _) as [a|]; [|done]. intros [= <-] H. unfold bounded, kept_frames in *. cbn in *.
    destruct (decide _); rewrite ?length_app; cbn; lia. }
  destruct (_ =? 0); [|exact H1]. apply (repeated_bounded deliver_one p) in H1; [exact H1|].
  clear. intros w w'. unfold deliver_one. destruct (k_held (kern w)) as [|a held] eqn:Hh; [done|].
  destruct (decide _); [|done]. intros [= <-] H. unfold bounded in *. rewrite Hh in H. cbn in *.
  pose proof (u32_range (producer (rx (sock w)) - consumer (rx (sock w)))).
  unfold XSK_RING_PROD__DEFAULT_NUM_DESCS in *. rewrite u32_sub_l, u32_sub_shift by lia. lia.
Qed.
End kernel.

(** New rings as libbpf makes them. *)
Definition empty_prod : xsk_ring Z := XskRing 0 2048 2047 2048 0 0 ∅ 0.
Definition empty_cons : xsk_ring xdp_desc := XskRing 0 0 2047 2048 0 0 ∅ 0.
Definition empty_tx : xsk_ring xdp_desc := XskRing 0 2048 2047 2048 0 0 ∅ 0.
Definition empty_comp : xsk_ring Z := XskRing 0 0 2047 2048 0 0 ∅ 0.
Definition new_umem : xsk_umem_info := UmemInfo empty_prod empty_comp.
Definition create_ok (_ : string) (_ : Z) (_ : xsk_umem_info) (_ : xsk_socket_config) :
  Z * xsk_ring xdp_desc * xsk_ring xdp_desc := (0, empty_cons, empty_tx).
Definition link_ok (_ _ : Z) : Z := 0.
Definition eth0 : config := Config 0 2 "eth0" 0 0.

Lemma empty_prod_new : new_prod empty_prod.
Proof. split; [|done]. split; try done. exists 11. by split. Qed.

Lemma empty_cons_new : new_cons empty_cons.
Proof. split; [|done]. split; try done. exists 11. by split. Qed.
