(* ===== verification/XskProps.v ===== *)
(** * Theorems about the AF_XDP capture

    The claims about lxdpFlow.c: no frame is lost and no packet is missed,
    whatever the kernel does within its contract; when the fill ring can get an
    invalid frame; when the capture loop ends. *)

From S2P Require Import Prelude Packet XskRing Xsk XskInv XskSpec XskKernel.

(** The frames and packets of a socket between two calls: [dn] are the packets
    that were processed. *)
Definition accounted {K} slack (holds : K → list Z) (delivered : K → list packet)
    (w : world K) (dn : list packet) : Prop :=
  ∃ fl rl pend,
    prod_ok (fq (umem (sock w))) 0 [] fl ∧ cons_ok (rx (sock w)) 0 rl ∧
    chunk <$> (free_stack (sock w) ++ filter valid_addr fl ++ holds (kern w) ++ (addr <$> rl))
      ≡ₚ seqZ 0 NUM_FRAMES ∧
    delivered (kern w) = dn ++ pend ∧ pend.*1 = rl ∧
    Forall (λ p : packet, in_frame slack p.1 ∧ packet_bytes (mem w) p.1 = p.2) pend.

Lemma winv_accounted {K} slack holds delivered (w : world K) fl rl dn :
  winv slack holds delivered w 0 [] fl 0 0 rl dn → accounted slack holds delivered w dn.
Proof.
  intros H. destruct (wi_packets _ _ _ _ _ _ _ _ _ _ _ H) as (pend & Hd & Hp & Hf).
  exists fl, rl, pend. pose proof (wi_frames _ _ _ _ _ _ _ _ _ _ _ H) as Hfr. rewrite app_nil_r in Hfr.
  split_and!; try done; apply H.
Qed.

(** A callback that keeps the bytes of the packets, and its promise. *)
Definition keep_bytes (pkt : list Z) (h : pkthdr) (x : list (list Z)) : res (list (list Z)) :=
  Ok (x ++ [take (Z.to_nat (caplen h)) pkt]).
Definition kept (k : kstate) (dn : list packet) (x : list (list Z)) : Prop := x = dn.*2.

Lemma keep_bytes_ok slack clock : fn_ok slack kept clock keep_bytes.
Proof.
  intros k dn x d b pkt sec nsec -> _ _ Hb _. eexists. split; [reflexivity|]. cbn. unfold kept.
  by rewrite fmap_app, Hb.
Qed.

Definition tick_clock (k : kstate) : option (Z * Z) := Some (k_time k, 250000).
Definition umem_bytes : list Z := replicate (Z.to_nat (NUM_FRAMES * FRAME_SIZE)) 0.
Lemma umem_bytes_length : Z.of_nat (length umem_bytes) = NUM_FRAMES * FRAME_SIZE.
Proof. unfold umem_bytes. rewrite length_replicate. by apply Z2Nat.id. Qed.
#[local] Opaque umem_bytes.

Definition poll_ready (k : kstate) (_ : Z) : Z := if k_time k <? 5 then 1 else 0.

(** ** A capture from its configuration on *)

Section capture.
Context {K X : Type}.
(** The kernel and the signal handler, within the contract. *)
Variables (slack : Z) (holds : K → list Z) (delivered : K → list packet) (turn : world K → world K).
Hypothesis turn_ok : ∀ w, rtc (kstep slack holds delivered) w (turn w).
(** The callback, and what it establishes about the packets it has seen. *)
Variables (P : K → list packet → X → Prop) (clock : K → option (Z * Z)) (fn : list Z → pkthdr → X → res X).
Hypothesis P_turn : ∀ w dn x, P (kern w) dn x → P (kern (turn w)) dn x.
Hypothesis callback_ok : fn_ok slack P clock fn.
Hypothesis clock_ok : ∀ k, is_Some (clock k).
(** libbpf makes new rings of the sizes asked for. *)
Variables (create : string → Z → xsk_umem_info → xsk_socket_config → Z * xsk_ring xdp_desc * xsk_ring xdp_desc)
  (link_id : Z → Z → Z) (cfg : config) (um : xsk_umem_info).
Hypothesis create_new : ∀ c, (create (ifname cfg) (xsk_if_queue cfg) um c).1.1 = 0 ∧
  new_cons (create (ifname cfg) (xsk_if_queue cfg) um c).1.2.
Hypothesis link_found : link_id (ifindex cfg) (xdp_flags cfg) = 0.
Hypothesis umem_new : new_prod (fq um).
(** At the start the kernel has nothing. *)
Variables (k : K) (m : list Z) (x : X).
Hypothesis nothing_held : holds k = [].
Hypothesis nothing_delivered : delivered k = [].
Hypothesis mem_length : Z.of_nat (length m) = NUM_FRAMES * FRAME_SIZE.
Hypothesis P_start : P k [] x.

Lemma capture_run poll b rounds pm nt to :
  ∃ xsk o fl, xsk_configure_socket true create link_id cfg um = Ok (Some xsk, 0) ∧
    rx_and_process turn clock poll rounds 0 pm nt to fn x (World xsk k m b) = Ok o ∧
    prod_ok (fq (umem xsk)) 0 [] fl ∧ Forall valid_addr fl ∧
    Z.of_nat (length fl) = XSK_RING_PROD__DEFAULT_NUM_DESCS ∧
    ∀ x' w', o = Some (x', w') →
      ∃ fl' rl' dn, winv slack holds delivered w' 0 [] fl' 0 0 rl' dn ∧ P (kern w') dn x' ∧
        (modest holds turn → Forall valid_addr fl').
Proof.
  destruct (xsk_configure_socket_spec create link_id cfg um slack holds delivered k m 1
    create_new link_found umem_new nothing_held nothing_delivered mem_length) as (xsk & fl & E & H & V & Hlen & _).
  destruct (rx_loop_spec slack holds delivered turn turn_ok P P_turn clock poll rounds 0 pm nt to fn 0
    (World xsk k m 1) fl [] [] x callback_ok clock_ok H P_start) as (o & Eo & Ho).
  exists xsk, o, fl. split_and!; try done; [apply H|]. intros x' w' Hxw.
  destruct (Ho x' w' Hxw) as (fl' & rl' & dn' & H' & HP' & T). exists fl', rl', dn'. split_and!; [done..|].
  intros Hmod. apply T; [done| |done]. unfold bounded. cbn [kern sock]. rewrite nothing_held.
  pose proof (co_used _ _ _ (wi_rx _ _ _ _ _ _ _ _ _ _ _ H)) as Hu. cbn in Hu. by rewrite Hu.
Qed.

(** What the capture leaves, for the theorem below and for its clients. *)
Lemma capture_outcome poll b rounds pm nt to :
  ∃ xsk o, xsk_configure_socket true create link_id cfg um = Ok (Some xsk, 0) ∧
    rx_and_process turn clock poll rounds 0 pm nt to fn x (World xsk k m b) = Ok o ∧
    ∀ x' w', o = Some (x', w') →
      ∃ dn, accounted slack holds delivered w' dn ∧ P (kern w') dn x'.
Proof.
  destruct (capture_run poll b rounds pm nt to) as (xsk & o & fl & E & Eo & _ & _ & _ & Ho).
  exists xsk, o. split_and!; [done|done|]. intros x' w' Hxw.
  destruct (Ho x' w' Hxw) as (fl' & rl' & dn & H' & HP' & _).
  exists dn. split; [by eapply winv_accounted|done].
Qed.

(** C13: The capture processes exactly the packets the kernel delivers, in their order,
    each once and with the bytes it was delivered with, and accounts for every
    frame of the umem.  The kernel and the signal handler may act, within the
    documented contract of AF_XDP, before every access of the code to shared
    memory.  From the configuration of the socket on, for any number of rounds,
    no assertion fails, the loop that "should not happen" does not, and no entry
    of a ring is read that was not written; [P] is what the callback establishes
    about the packets it has seen. *)
Theorem capture_processes_what_was_delivered poll b rounds pm nt to :
  ∃ xsk o, xsk_configure_socket true create link_id cfg um = Ok (Some xsk, 0) ∧
    rx_and_process turn clock poll rounds 0 pm nt to fn x (World xsk k m b) = Ok o ∧
    ∀ x' w', o = Some (x', w') →
      ∃ dn, accounted slack holds delivered w' dn ∧ P (kern w') dn x'.
Proof. apply capture_outcome. Qed.

(** C14: While the kernel keeps no more frames than one ring has slots (held or waiting
    in the receive ring), the capture puts only addresses of the umem in the fill
    ring, the 2048 of the configuration included. *)
Theorem fill_ring_gets_only_umem_frames poll b rounds pm nt to :
  modest holds turn →
  ∃ xsk o, xsk_configure_socket true create link_id cfg um = Ok (Some xsk, 0) ∧
    (∃ fl, prod_ok (fq (umem xsk)) 0 [] fl ∧ Forall valid_addr fl ∧
           Z.of_nat (length fl) = XSK_RING_PROD__DEFAULT_NUM_DESCS) ∧
    rx_and_process turn clock poll rounds 0 pm nt to fn x (World xsk k m b) = Ok o ∧
    ∀ x' w', o = Some (x', w') → ∃ fl, prod_ok (fq (umem (sock w'))) 0 [] fl ∧ Forall valid_addr fl.
Proof.
  intros Hmod. destruct (capture_run poll b rounds pm nt to) as (xsk & o & fl & E & Eo & Hf & V & Hl & Ho).
  exists xsk, o. split_and!; [done|by exists fl|done|]. intros x' w' Hxw.
  destruct (Ho x' w' Hxw) as (fl' & rl' & dn & H' & _ & V').
  exists fl'. split; [apply H'|by apply V'].
Qed.

(** One call of [handle_receive_packets] on an accounted socket takes at most 64
    packets, the next ones in the order of their delivery, leaves the socket
    accounted, and answers 0 exactly when it found none. *)
Lemma handle_receive_packets_takes_a_batch fuel w fl rl dn y :
  winv slack holds delivered w 0 [] fl 0 0 rl dn → P (kern w) dn y →
  ∃ ret y' w' fl' rl' batch, handle_receive_packets turn clock fuel fn y w = Ok (ret, y', w') ∧
    winv slack holds delivered w' 0 [] fl' 0 0 rl' (dn ++ batch) ∧ P (kern w') (dn ++ batch) y' ∧
    Z.of_nat (length batch) ≤ RX_BATCH_SIZE ∧ (ret = 0 ↔ batch = []).
Proof.
  intros H HP. destruct (handle_receive_packets_spec slack holds delivered turn turn_ok P P_turn clock fuel fn
    w fl rl dn y callback_ok clock_ok H HP) as (ret & y' & w' & fl' & rl' & dn' & E & H' & HP' & Hl & Hr & _).
  by exists ret, y', w', fl', rl', dn'.
Qed.
End capture.

Ltac concrete_capture :=
  first [apply kernel_turn_ok | apply keep_bytes_ok | apply empty_prod_new | apply umem_bytes_length
        | by apply kernel_turn_modest | by intros ? ? ? | intros ?; by eexists
        | intros ?; split; [done|apply empty_cons_new] | done].

Lemma capture_processes_what_was_delivered_witness :
  ∃ xsk o, xsk_configure_socket true create_ok link_ok eth0 new_umem = Ok (Some xsk, 0) ∧
    rx_and_process (kernel_turn 12 60 2048 100 3) tick_clock poll_ready 20 0 true 5 1000 keep_bytes []
      (World xsk (KState [] [] 0) umem_bytes 0) = Ok o ∧
    ∀ x' w', o = Some (x', w') →
      ∃ dn, accounted 12 k_held k_delivered w' dn ∧ kept (kern w') dn x'.
Proof.
  apply (capture_processes_what_was_delivered 12 k_held k_delivered (kernel_turn 12 60 2048 100 3));
    concrete_capture.
Defined.

Lemma fill_ring_gets_only_umem_frames_witness :
  ∃ xsk o, xsk_configure_socket true create_ok link_ok eth0 new_umem = Ok (Some xsk, 0) ∧
    (∃ fl, prod_ok (fq (umem xsk)) 0 [] fl ∧ Forall valid_addr fl ∧
           Z.of_nat (length fl) = XSK_RING_PROD__DEFAULT_NUM_DESCS) ∧
    rx_and_process (kernel_turn 12 60 2048 100 3) tick_clock poll_ready 20 0 true 5 1000 keep_bytes []
      (World xsk (KState [] [] 0) umem_bytes 0) = Ok o ∧
    ∀ x' w', o = Some (x', w') → ∃ fl, prod_ok (fq (umem (sock w'))) 0 [] fl ∧ Forall valid_addr fl.
Proof.
  apply (fill_ring_gets_only_umem_frames 12 k_held k_delivered (kernel_turn 12 60 2048 100 3) (λ w, kernel_turn_ok 12 60 2048 100 3 w)
    kept tick_clock keep_bytes); concrete_capture.
Defined.

Lemma handle_receive_packets_takes_a_batch_witness :
  ∃ xsk fl, xsk_configure_socket true create_ok link_ok eth0 new_umem = Ok (Some xsk, 0) ∧
    ∃ ret y' w' fl' rl' batch,
      handle_receive_packets (kernel_turn 12 60 2048 100 3) tick_clock 0 keep_bytes []
        (World xsk (KState [] [] 0) umem_bytes 1) = Ok (ret, y', w') ∧
      winv 12 k_held k_delivered w' 0 [] fl' 0 0 rl' ([] ++ batch) ∧ kept (kern w') ([] ++ batch) y' ∧
      Z.of_nat (length batch) ≤ RX_BATCH_SIZE ∧ (ret = 0 ↔ batch = []) ∧ Forall valid_addr fl.
Proof.
  destruct (xsk_configure_socket_spec create_ok link_ok eth0 new_umem 12 k_held k_delivered (KState [] [] 0)
    umem_bytes 1) as (xsk & fl & E & H & V & _); [concrete_capture..|].
  exists xsk, fl. split; [done|].
  destruct (handle_receive_packets_takes_a_batch 12 k_held k_delivered (kernel_turn 12 60 2048 100 3)
    (λ w, kernel_turn_ok 12 60 2048 100 3 w) kept tick_clock keep_bytes (λ _ _ _ H, H) (keep_bytes_ok 12 tick_clock)
    (λ k, ex_intro _ (k_time k, 250000) eq_refl) 0 _ fl [] [] [] H eq_refl) as
    (ret & y' & w' & fl' & rl' & batch & E' & H' & HP & Hl & Hr).
  exists ret, y', w', fl', rl', batch. split_and!; assumption || apply Hr.
Defined.

(** ** A kernel with larger queues *)

(** The entries of a ring that are not consumed. *)
Fixpoint ring_entries {A} (r : xsk_ring A) (idx : Z) (n : nat) : list A :=
  match n with
  | O => []
  | S n => option_list (ring r !! slot r idx) ++ ring_entries r (u32 (idx + 1)) n
  end.
Definition waiting {A} (r : xsk_ring A) : list A :=
  ring_entries r (consumer r) (Z.to_nat (u32 (producer r - consumer r))).

(** It keeps up to 4096 frames, takes all it can, and delivers one packet at a time. *)
Definition greedy : world kstate → world kstate := kernel_turn 0 60 NUM_FRAMES 2048 1.

(** Two calls of [handle_receive_packets] after the configuration. *)
Definition two_batches : res (world kstate) :=
  '(s, _) ← xsk_configure_socket true create_ok link_ok eth0 new_umem;
  xsk ← or_fault s NullDeref;
  '(_, x, w) ← handle_receive_packets greedy tick_clock 0 keep_bytes []
                 (World xsk (KState [] [] 0) [] 1);
  '(_, x, w) ← handle_receive_packets greedy tick_clock 0 keep_bytes x w;
  Ok w.

(** The answer of [xsk_prod_nb_free] can exceed the number it is asked for, and
    [handle_receive_packets] fills all those slots: a kernel that holds more
    than 2048 frames (within the contract) gets 2047 invalid addresses in the
    fill ring with the second batch. *)
Lemma fill_ring_can_get_invalid_frames :
  (∀ w, rtc (kstep 0 k_held k_delivered) w (greedy w)) ∧
  ∃ w, two_batches = Ok w ∧
    length (filter (.= INVALID_UMEM_FRAME) (waiting (fq (umem (sock w))))) = 2047%nat.
Proof.
  split; [intros w; apply kernel_turn_ok|].
  destruct (checked two_batches (λ w,
    (length (filter (λ a, a = INVALID_UMEM_FRAME) (waiting (fq (umem (sock w))))) =? 2047)%nat)) as (w & E & H).
  { vm_compute. reflexivity. }
  exists w. split; [exact E|]. by apply Nat.eqb_eq in H.
Qed.

(** ** When the capture loop ends *)

Section ending.
Context {K X : Type}.
Variables (turn : world K → world K) (clock : K → option (Z * Z)) (poll : K → Z → Z).
Variables (fn : list Z → pkthdr → X → res X) (to : Z).

(** [poll] times out, or fails. *)
Definition times_out (k : K) : Prop := poll k to ≤ 0 ∨ 1 < poll k to.

Lemma rx_loop_timeouts n rounds fuel nt i x w :
  (∀ j, (j ≤ 2 * n)%nat → stop_capture (Nat.iter (S j) turn w) = 1) →
  (∀ j, (j < n)%nat → times_out (kern (Nat.iter (2 * S j) turn w))) →
  nt = i + Z.of_nat n →
  rx_loop turn clock poll rounds fuel true nt to fn i x w =
    Ok (if (n <=? rounds)%nat then Some (x, Nat.iter (S (2 * n)) turn w) else None).
Proof.
  revert rounds i w. induction n as [|n IH]; intros rounds i w Hs Hp Hn.
  - rewrite (proj2 (Nat.leb_le 0 rounds)) by lia. destruct rounds; cbn [rx_loop];
      rewrite (proj2 (Z.ltb_ge _ _)) by lia; done.
  - destruct rounds as [|rounds]; cbn [rx_loop]; rewrite (proj2 (Z.ltb_lt _ _)) by lia;
      pose proof (Hs 0%nat ltac:(lia)) as Hs0; cbn in Hs0; rewrite Hs0; cbn [andb Z.eqb Pos.eqb].
    + done.
    + pose proof (Hp 0%nat ltac:(lia)) as Hp0. cbn in Hp0.
      rewrite (proj2 (orb_true_iff _ _)) by (destruct Hp0; [left; by apply Z.leb_le|right; by apply Z.ltb_lt]).
      rewrite IH.
      * cbn [Nat.leb]. rewrite <-!Nat.iter_succ_r. by replace (S (2 * S n)) with (S (S (S (2 * n)))) by lia.
      * intros j Hj. rewrite <-!Nat.iter_succ_r. apply (Hs (S (S j))). lia.
      * intros j Hj. rewrite <-!Nat.iter_succ_r. replace (S (S (2 * S j))) with (2 * S (S j))%nat by lia.
        apply Hp. lia.
      * lia.
Qed.


(** [stop_rx_and_process] ends the capture: a round that finds [stop_capture] 0
    returns at once, whatever the mode and the count. *)
Lemma stop_rx_and_process_stops rounds fuel pm nt i x w :
  stop_capture (turn (stop_rx_and_process w)) = 0 →
  rx_loop turn clock poll rounds fuel pm nt to fn i x (stop_rx_and_process w) =
    Ok (Some (x, turn (stop_rx_and_process w))).
Proof. intros Hs. destruct rounds; cbn [rx_loop]; by rewrite Hs, andb_false_r. Qed.
End ending.


Example stop_rx_and_process_example :
  rx_loop tick tick_clock poll_ready 3 0 true 5 1000 keep_bytes 0 []
    (stop_rx_and_process (World (SocketInfo empty_cons empty_tx new_umem [] 0 0) (KState [] [] 0) [] 1)) =
  Ok (Some ([], World (SocketInfo empty_cons empty_tx new_umem [] 0 0) (KState [] [] 1) [] 0)).
Proof. apply (stop_rx_and_process_stops tick tick_clock poll_ready keep_bytes 1000 3 0 true 5 0 []). done. Defined.

(** ** Errors of the configuration *)

(** Every error of the configuration gives NULL with the matching [errno]:
    no memory, an error of [xsk_socket__create], of [bpf_get_link_xdp_id], or a
    fill ring without 2048 free slots, which gives [errno] 0. *)
Lemma xsk_configure_socket_errors create link_id cfg um :
  xsk_configure_socket false create link_id cfg um = Ok (None, 0) ∧
  (∀ ret, (∀ c, (create (ifname cfg) (xsk_if_queue cfg) um c).1.1 = ret) → ret ≠ 0 →
     xsk_configure_socket true create link_id cfg um = Ok (None, - ret)) ∧
  ((∀ c, (create (ifname cfg) (xsk_if_queue cfg) um c).1.1 = 0) →
     link_id (ifindex cfg) (xdp_flags cfg) ≠ 0 →
     xsk_configure_socket true create link_id cfg um = Ok (None, - link_id (ifindex cfg) (xdp_flags cfg))) ∧
  (∀ l, (∀ c, (create (ifname cfg) (xsk_if_queue cfg) um c).1.1 = 0) →
     link_id (ifindex cfg) (xdp_flags cfg) = 0 → prod_ok (fq um) 0 [] l → l ≠ [] →
     size (fq um) = XSK_RING_PROD__DEFAULT_NUM_DESCS →
     xsk_configure_socket true create link_id cfg um = Ok (None, 0)).
Proof.
  unfold xsk_configure_socket. cbn [negb]. set (c := XskCfg _ _ _ _ _). split_and!; [done|..].
  - intros ret Hr Hne. specialize (Hr c). destruct (create _ _ um c) as [[r a] t]. cbn in Hr. subst r.
    by rewrite (proj2 (Z.eqb_neq _ _)).
  - intros Hr Hne. specialize (Hr c). destruct (create _ _ um c) as [[r a] t]. cbn in Hr. subst r.
    cbn [negb Z.eqb]. by rewrite (proj2 (Z.eqb_neq _ _)).
  - intros l Hr Hl Hp Hne Hs. specialize (Hr c). destruct (create _ _ um c) as [[r a] t]. cbn in Hr. subst r.
    cbn [negb Z.eqb]. rewrite Hl. cbn [negb Z.eqb].
    destruct (xsk_prod_nb_free_spec (fq um) l XSK_RING_PROD__DEFAULT_NUM_DESCS Hp) as (n & f & E & _ & Hn & _).
    unfold xsk_ring_prod__reserve. rewrite E. destruct l as [|y l]; [done|]. cbn [length] in Hn.
    rewrite (proj2 (Z.ltb_lt _ _)) by lia. done.
Qed.

(** Its cases as equations. *)
Lemma configure_errors_create create link_id cfg um ret :
  (∀ c, (create (ifname cfg) (xsk_if_queue cfg) um c).1.1 = ret) → ret ≠ 0 →
  xsk_configure_socket true create link_id cfg um = Ok (None, - ret).
Proof. apply (xsk_configure_socket_errors create link_id cfg um). Qed.

Lemma configure_errors_link create link_id cfg um :
  (∀ c, (create (ifname cfg) (xsk_if_queue cfg) um c).1.1 = 0) →
  link_id (ifindex cfg) (xdp_flags cfg) ≠ 0 →
  xsk_configure_socket true create link_id cfg um = Ok (None, - link_id (ifindex cfg) (xdp_flags cfg)).
Proof. apply (xsk_configure_socket_errors create link_id cfg um). Qed.
