(* ===== verification/AfXdp.v ===== *)
(** * The AF_XDP receiver of scenarios 1 and 2: af_xdp_user.c

    The program counts packets and drops them: its own copies of the frame
    operations, the completion of transmissions, the checksum helpers, the echo
    of ICMPv6 requests that an [if (false)] disables, and the reception of a
    batch with the statistics.  The phases it shares with lxdpFlow.c, which are
    the same code, are those of Xsk. *)

From S2P Require Import Prelude Packet XskRing Xsk XskInv XskSpec.

(** ** Data *)

(** struct stats_record *)
Record stats_record := Stats {
  timestamp : Z; rx_packets : Z; rx_bytes : Z; tx_packets : Z; tx_bytes : Z
}.

Definition NANOSEC_PER_SEC : Z := 1000000000.

(** The rings, the frames and [outstanding_tx] of this program's
    [struct xsk_socket_info] are Xsk's; [stats] is passed beside it. *)
Definition count_rx_bytes (n : Z) (st : stats_record) : stats_record :=
  Stats (timestamp st) (rx_packets st) (u64 (rx_bytes st + n)) (tx_packets st) (tx_bytes st).
Definition count_rx_packets (n : Z) (st : stats_record) : stats_record :=
  Stats (timestamp st) (u64 (rx_packets st + n)) (rx_bytes st) (tx_packets st) (tx_bytes st).
Definition count_tx (len : Z) (st : stats_record) : stats_record :=
  Stats (timestamp st) (rx_packets st) (rx_bytes st) (u64 (tx_packets st + 1)) (u64 (tx_bytes st + len)).

(** ** Checksums *)

(** [res < addend] adds the carry; the arguments are 16-bit values. *)
Definition csum16_add (csum addend : Z) : Z :=
  let r := u16 (csum + addend) in u16 (r + (if r <? addend then 1 else 0)).
Definition csum16_sub (csum addend : Z) : Z := csum16_add csum (u16 (Z.lnot addend)).
Definition csum_replace2 (sum old new : Z) : Z :=
  u16 (Z.lnot (csum16_add (csum16_sub (u16 (Z.lnot sum)) old) new)).

(** ** Packets *)

Definition ETH_P_IPV6 : Z := 0x86DD.
Definition IPPROTO_ICMPV6 : Z := 58.
Definition ICMPV6_ECHO_REQUEST : Z := 128.
Definition ICMPV6_ECHO_REPLY : Z := 129.
Definition ethhdr_size : Z := 14.
Definition ipv6hdr_size : Z := 40.
Definition icmp6hdr_size : Z := 8.

(** [*p = v] and [memcpy] of bytes at an offset. *)
Definition store_bytes (buf : list Z) (i : Z) (bs : list Z) : res (list Z) :=
  if (0 <=? i) && (i + Z.of_nat (length bs) <=? Z.of_nat (length buf))
  then Ok (take (Z.to_nat i) buf ++ bs ++ drop (Z.to_nat i + length bs) buf)
  else Err OutOfBounds.
Definition load_bytes (buf : list Z) (i n : Z) : res (list Z) :=
  if (0 <=? i) && (i + n <=? Z.of_nat (length buf))
  then Ok (take (Z.to_nat n) (drop (Z.to_nat i) buf)) else Err OutOfBounds.
Definition store16 (buf : list Z) (i v : Z) : res (list Z) :=
  store_bytes buf i [Z.land v 0xFF; Z.land (Z.shiftr v 8) 0xFF].
(** Two fields of [n] bytes exchanged through a temporary. *)
Definition swap_bytes (buf : list Z) (i j n : Z) : res (list Z) :=
  tmp ← load_bytes buf i n;
  other ← load_bytes buf j n;
  buf ← store_bytes buf i other;
  store_bytes buf j tmp.

(** The test of the echo: [None] for a packet that is not an echo request. *)
Definition is_echo_request (pkt : list Z) (len : Z) : res bool :=
  proto ← load16 pkt 12;
  if negb (ntohs proto =? ETH_P_IPV6) then Ok false
  else if len <? ethhdr_size + ipv6hdr_size + icmp6hdr_size then Ok false
  else
    nexthdr ← byte_at pkt (ethhdr_size + 6);
    if negb (nexthdr =? IPPROTO_ICMPV6) then Ok false
    else
      ty ← byte_at pkt (ethhdr_size + ipv6hdr_size);
      Ok (ty =? ICMPV6_ECHO_REQUEST).

(** The reply in place of the request. *)
Definition echo_reply (pkt : list Z) : res (list Z) :=
  pkt ← swap_bytes pkt 0 6 6;
  pkt ← swap_bytes pkt (ethhdr_size + 8) (ethhdr_size + 24) 16;
  pkt ← store_bytes pkt (ethhdr_size + ipv6hdr_size) [ICMPV6_ECHO_REPLY];
  sum ← load16 pkt (ethhdr_size + ipv6hdr_size + 2);
  store16 pkt (ethhdr_size + ipv6hdr_size + 2)
    (csum_replace2 sum (ntohs (Z.shiftl ICMPV6_ECHO_REQUEST 8)) (ntohs (Z.shiftl ICMPV6_ECHO_REPLY 8))).

Section receive.
Context {K : Type}.
Variable turn : world K → world K.
Implicit Types (w : world K) (st : stats_record).

Definition with_mem (m : list Z) w : world K := World (sock w) (kern w) m (stop_capture w).

(** The body of [if (false)]. *)
Definition icmp6_echo (a len : Z) st w : res (bool * stats_record * world K) :=
  let pkt := xsk_umem__get_data (mem w) a in
  b ← is_echo_request pkt len;
  if negb b then Ok (false, st, w)
  else
    pkt ← echo_reply pkt;
    let w := with_mem (take (Z.to_nat a) (mem w) ++ pkt) w in
    let w := turn w in
    let '(ret, idx, t) := xsk_ring_prod__reserve (tx (sock w)) 1 in
    let w := on_sock (with_tx t) w in
    if negb (ret =? 1) then Ok (false, st, w)
    else
      let w := on_sock (λ s, with_tx (xsk_ring_prod__tx_desc (tx s) (default 0 idx) (XdpDesc a len 0)) s) w in
      let w := on_sock (λ s, with_tx (xsk_ring_prod__submit (tx s) 1) s) w in
      let w := on_sock (λ s, with_outstanding (u32 (outstanding_tx s + 1)) s) w in
      Ok (true, count_tx len st, w).

Definition process_packet (a len : Z) st w : res (bool * stats_record * world K) :=
  if false then icmp6_echo a len st w else Ok (false, st, w).

(** The loop of [complete_tx]. *)
Fixpoint free_completed (n : nat) (idx_cq : Z) w : res (world K) :=
  match n with
  | O => Ok w
  | S n =>
    let w := turn w in
    a ← xsk_ring_cons__comp_addr (cq (umem (sock w))) idx_cq;
    xsk ← xsk_free_umem_frame (sock w) a;
    free_completed n (u32 (idx_cq + 1)) (on_sock (λ _, xsk) w)
  end.

(** [sendto] wakes the kernel up; what it then does is its turn. *)
Definition complete_tx w : res (world K) :=
  if outstanding_tx (sock w) =? 0 then Ok w
  else
    let w := turn w in
    let '(completed, idx, c) := xsk_ring_cons__peek (cq (umem (sock w))) XSK_RING_CONS__DEFAULT_NUM_DESCS in
    let w := on_sock (with_cq c) w in
    if 0 <? completed then
      w ← free_completed (Z.to_nat completed) (default 0 idx) w;
      let w := turn w in
      let w := on_sock (λ s, with_cq (xsk_ring_cons__release (cq (umem s)) completed) s) w in
      let out := outstanding_tx (sock w) in
      Ok (on_sock (with_outstanding (u32 (out - (if completed <? out then completed else out)))) w)
    else Ok w.

(** One packet of the batch. *)
Definition count_packet (a len : Z) st w : res (stats_record * world K) :=
  '(kept, st, w) ← process_packet a len st w;
  w ← (if (kept : bool) then Ok w
       else xsk ← xsk_free_umem_frame (sock w) a; Ok (on_sock (λ _, xsk) w));
  Ok (count_rx_bytes len st, w).

Definition handle_receive_packets (fuel : nat) st w : res (stats_record * world K) :=
  '(rcvd, st, w) ← receive_batch turn fuel count_packet st w;
  if rcvd =? 0 then Ok (st, w)
  else
    let st := count_rx_packets rcvd st in
    w ← complete_tx w;
    Ok (st, w).

(** [global_exit] is the flag of the world that the signal handler sets to 0. *)
Definition global_exit w : bool := stop_capture w =? 0.
Definition exit_application w : world K := with_stop 0 w.

Variable poll : K → Z → Z.

(** [rounds] bounds the loop; [None] when they are used up. *)
Fixpoint rx_and_process (rounds fuel : nat) (poll_mode : bool) st w :
  res (option (stats_record * world K)) :=
  let w := turn w in
  if global_exit w then Ok (Some (st, w))
  else
    match rounds with
    | O => Ok None
    | S rounds =>
      let w := turn w in
      let ret := poll (kern w) (-1) in
      if poll_mode && ((ret <=? 0) || (1 <? ret)) then rx_and_process rounds fuel poll_mode st w
      else
        '(st, w) ← handle_receive_packets fuel st w;
        rx_and_process rounds fuel poll_mode st w
    end.
End receive.

(** [clock_gettime(CLOCK_MONOTONIC)] in nanoseconds. *)
Definition gettime (now : option (Z * Z)) : res Z :=
  '(tv_sec, tv_nsec) ← or_fault now (ExitProgram EXIT_FAIL);
  Ok (u64 (tv_sec * NANOSEC_PER_SEC + tv_nsec)).

(** The integer part of [calc_period]: the nanoseconds between two records. *)
Definition period_ns (r p : stats_record) : Z := u64 (timestamp r - timestamp p).

(** ** Lemmas *)

Lemma csum16_add_spec a b :
  0 ≤ a < 2 ^ 16 → 0 ≤ b < 2 ^ 16 →
  0 ≤ csum16_add a b < 2 ^ 16 ∧ csum16_add a b mod 65535 = (a + b) mod 65535.
Proof.
  intros Ha Hb. unfold csum16_add, u16.
  destruct (Z.ltb_spec ((a + b) mod 2 ^ 16) b) as [Hlt|Hge].
  - assert (2 ^ 16 ≤ a + b) as Hc.
    { destruct (Z_lt_le_dec (a + b) (2 ^ 16)); [|done]. rewrite Z.mod_small in Hlt by lia. lia. }
    assert ((a + b) mod 2 ^ 16 = a + b - 2 ^ 16) as -> by (symmetry; apply (Z.mod_unique_pos _ _ 1); lia).
    rewrite Z.mod_small by lia. split; [lia|]. dlia.
  - assert (a + b < 2 ^ 16) as Hc.
    { destruct (Z_lt_le_dec (a + b) (2 ^ 16)) as [|Hc]; [done|exfalso].
      assert ((a + b) mod 2 ^ 16 = a + b - 2 ^ 16) as E by (symmetry; apply (Z.mod_unique_pos _ _ 1); lia). lia. }
    rewrite Z.add_0_r, Z.mod_mod, Z.mod_small by lia. split; [lia|done].
Qed.

Lemma u16_lnot x : 0 ≤ x < 2 ^ 16 → u16 (Z.lnot x) = 65535 - x.
Proof.
  intros Hx. unfold u16. unfold Z.lnot. symmetry. apply (Z.mod_unique_pos _ _ (-1)); lia.
Qed.

Lemma csum_replace2_spec sum old new :
  0 ≤ sum < 2 ^ 16 → 0 ≤ old < 2 ^ 16 → 0 ≤ new < 2 ^ 16 →
  0 ≤ csum_replace2 sum old new < 2 ^ 16 ∧
  (csum_replace2 sum old new + new) mod 65535 = (sum + old) mod 65535.
Proof.
  intros Hs Ho Hn. unfold csum_replace2, csum16_sub. rewrite (u16_lnot sum), (u16_lnot old) by done.
  destruct (csum16_add_spec (65535 - sum) (65535 - old)) as [R1 M1]; [lia..|].
  set (t := csum16_add (65535 - sum) (65535 - old)) in *. clearbody t.
  destruct (csum16_add_spec t new) as [R2 M2]; [lia..|]. set (v := csum16_add t new) in *. clearbody v.
  rewrite u16_lnot by done. split; [lia|]. dlia.
Qed.
