(* ===== verification/AfXdpProps.v ===== *)
(** * Theorems about af_xdp_user.c

    The statistics count exactly the packets that were delivered, nothing is
    ever sent, and the checksum helpers keep an Internet checksum valid. *)

From S2P Require Import Prelude Packet XskRing Xsk XskInv XskSpec XskKernel XskProps AfXdp.

(** ** The statistics *)

Definition packet_bytes_total (dn : list packet) : Z := foldr (λ p n, dlen p.1 + n) 0 dn.

Lemma packet_bytes_total_app l1 l2 :
  packet_bytes_total (l1 ++ l2) = packet_bytes_total l1 + packet_bytes_total l2.
Proof. induction l1 as [|p l1 IH]; [done|]. cbn. unfold packet_bytes_total in *. rewrite IH. lia. Qed.

(** [n] packets counted, the bytes of [dn], and nothing sent. *)
Definition counted (n : Z) (dn : list packet) (st : stats_record) : Prop :=
  rx_packets st = u64 n ∧ rx_bytes st = u64 (packet_bytes_total dn) ∧ tx_packets st = 0 ∧ tx_bytes st = 0.

Section counts.
Context {K : Type}.
Variables (slack : Z) (holds : K → list Z) (delivered : K → list packet) (turn : world K → world K).
Hypothesis turn_ok : ∀ w, rtc (kstep slack holds delivered) w (turn w).
Abbreviation inv := (winv slack holds delivered).

Lemma count_packet_ok n : body_ok slack holds delivered (λ _, counted n) (count_packet turn).
Proof.
  intros w fl m i rl dn d b pend st H (Hp & Hb & Ht1 & Ht2) Hdel Hin Hby Hfree.
  destruct (xsk_free_umem_frame_spec (sock w) (addr d)) as (s & E & _); [by eapply inv_stack|done|].
  unfold count_packet, process_packet. cbn [mbind res_bind]. rewrite E. cbn [mbind res_bind].
  eexists _, s. split; [reflexivity|]. split; [|done]. split_and!; try done. cbn.
  rewrite Hb, packet_bytes_total_app. cbn. rewrite Z.add_0_r. unfold u64. by rewrite Zplus_mod_idemp_l.
Qed.

(** One call counts its batch, and sends nothing. *)
Lemma handle_counts fuel w fl rl dn st :
  inv w 0 [] fl 0 0 rl dn → counted (Z.of_nat (length dn)) dn st →
  ∃ st' w' fl' rl' dn', handle_receive_packets turn fuel st w = Ok (st', w') ∧
    inv w' 0 [] fl' 0 0 rl' (dn ++ dn') ∧ counted (Z.of_nat (length (dn ++ dn'))) (dn ++ dn') st' ∧
    Z.of_nat (length dn') ≤ RX_BATCH_SIZE.
Proof.
  intros H Hc. unfold handle_receive_packets.
  destruct (receive_batch_spec slack holds delivered turn turn_ok (λ _, counted (Z.of_nat (length dn)))
    (λ _ _ _ H, H) fuel _ w fl rl dn st (count_packet_ok _) H Hc) as
    (rcvd & st1 & w1 & fl1 & rl1 & dn1 & E & H1 & (C1 & C2 & C3 & C4) & Hlen & Hn & _).
  rewrite E. cbn [mbind res_bind]. destruct (Z.eqb_spec rcvd 0) as [H0|H0].
  - exists st1, w1, fl1, rl1, dn1. split; [done|]. split; [done|]. split; [|lia].
    split; [|done]. rewrite C1, length_app. f_equal. lia.
  - unfold complete_tx. rewrite (wi_out _ _ _ _ _ _ _ _ _ _ _ H1). cbn [Z.eqb mbind res_bind].
    eexists _, w1, fl1, rl1, dn1. split; [reflexivity|]. split; [done|].
    split; [|lia]. split; [|done]. cbn. rewrite C1, length_app, <-Hlen. unfold u64.
    rewrite Zplus_mod_idemp_l. f_equal. lia.
Qed.

End counts.


(** ** The Internet checksum *)

(** The one's-complement sum of 16-bit words. *)
Definition ones_sum (ws : list Z) : Z := foldl csum16_add 0 ws.
(** A receiver accepts words whose sum, checksum included, is all ones. *)
Definition checksum_valid (ws : list Z) : Prop := ones_sum ws mod 65535 = 0.
Definition words (ws : list Z) : Prop := Forall (λ x, 0 ≤ x < 2 ^ 16) ws.

Lemma foldl_csum a ws :
  0 ≤ a < 2 ^ 16 → words ws →
  0 ≤ foldl csum16_add a ws < 2 ^ 16 ∧
  foldl csum16_add a ws mod 65535 = (a + foldr Z.add 0 ws) mod 65535.
Proof.
  intros Ha Hw. revert a Ha. induction Hw as [|x ws Hx _ IH]; intros a Ha; cbn.
  - by rewrite Z.add_0_r.
  - destruct (csum16_add_spec a x Ha Hx) as [R M]. destruct (IH _ R) as [R' M']. split; [done|].
    rewrite M', <-Zplus_mod_idemp_l, M, Zplus_mod_idemp_l. f_equal. lia.
Qed.

(** [csum_replace2] does what it is for: when a 16-bit word of a packet with a
    valid Internet checksum is replaced, the checksum it computes makes the new
    packet valid, wherever the word and the checksum stand. *)
Lemma csum_replace2_keeps_validity ws1 ws2 sum old new :
  words (ws1 ++ ws2) → 0 ≤ sum < 2 ^ 16 → 0 ≤ old < 2 ^ 16 → 0 ≤ new < 2 ^ 16 →
  checksum_valid (ws1 ++ [sum; old] ++ ws2) →
  checksum_valid (ws1 ++ [csum_replace2 sum old new; new] ++ ws2).
Proof.
  intros Hw Hs Ho Hn. destruct (csum_replace2_spec sum old new Hs Ho Hn) as [R M].
  unfold checksum_valid, ones_sum. apply Forall_app in Hw as [Hw1 Hw2].
  assert (∀ a b, 0 ≤ a < 2 ^ 16 → 0 ≤ b < 2 ^ 16 →
    foldl csum16_add 0 (ws1 ++ [a; b] ++ ws2) mod 65535 =
    ((a + b) + (foldr Z.add 0 ws1 + foldr Z.add 0 ws2)) mod 65535) as Hsum.
  { intros a b Ha Hb. assert (words (ws1 ++ [a; b] ++ ws2)) as Hall.
    { apply Forall_app. split; [done|]. do 2 (constructor; [done|]). done. }
    rewrite (proj2 (foldl_csum 0 _ ltac:(lia) Hall)). f_equal. rewrite foldr_app. cbn.
    assert (∀ l z, foldr Z.add z l = foldr Z.add 0 l + z) as Hz.
    { intros l z. induction l as [|y l IH]; [done|]. cbn. rewrite IH. lia. }
    rewrite (Hz ws1). lia. }
  rewrite !Hsum by done. intros H.
  rewrite <-Zplus_mod_idemp_l, M, Zplus_mod_idemp_l. exact H.
Qed.

Lemma csum_replace2_keeps_validity_witness :
  checksum_valid ([0x1234] ++ [csum_replace2 0x6DCB 0x8000 0x8100; 0x8100] ++ []).
Proof.
  apply (csum_replace2_keeps_validity [0x1234] [] 0x6DCB 0x8000 0x8100);
    [repeat constructor; discriminate|done|done|done|reflexivity].
Defined.
