(* ===== verification/BpfParse.v ===== *)
(** * The BPF helpers: parsing_helpers.h, rewrite_helpers.h, xdp_stats_kern.h

    A packet is the bytes between [data] and [data_end]; a pointer into it is
    its offset from [data], and a read or write past [data_end], which the
    verifier of the kernel refuses, faults.  A parser moves the cursor, writes
    the header pointer it is given, and returns a number. *)

From S2P Require Import Prelude Packet.

(** ** Data *)

Definition ETH_P_8021Q : Z := 0x8100.
Definition ETH_P_8021AD : Z := 0x88A8.
Definition VLAN_MAX_DEPTH : nat := 2.
Definition VLAN_VID_MASK : Z := 0x0FFF.

(** sizeof of the header structures *)
Definition sizeof_ethhdr : Z := 14.
Definition sizeof_vlan_hdr : Z := 4.
Definition sizeof_iphdr : Z := 20.
Definition sizeof_ipv6hdr : Z := 40.
Definition sizeof_icmphdr : Z := 8.
Definition sizeof_icmp6hdr : Z := 8.
Definition sizeof_icmphdr_common : Z := 4.
Definition sizeof_udphdr : Z := 8.
Definition sizeof_tcphdr : Z := 20.

Definition bpf_ntohs (x : Z) : Z := ntohs (u16 x).
Definition bpf_htons (x : Z) : Z := ntohs (u16 x).

(** What a parser leaves: the value returned, [nh->pos], and the header pointer
    if it was written. *)
Record parsed := Parsed { p_ret : Z; p_pos : Z; p_hdr : option Z }.

(** The packet, and where its bytes end. *)
Definition data_end (pkt : buffer) : Z := Z.of_nat (length pkt).

(** ** Parsers *)

(** [x == bpf_htons(..)] of a field in network order. *)
Definition proto_is_vlan (h_proto : Z) : bool :=
  (h_proto =? bpf_htons ETH_P_8021Q) || (h_proto =? bpf_htons ETH_P_8021AD).

(** The unrolled loop: [i] counts up to [VLAN_MAX_DEPTH]; the result is [h_proto],
    [vlh] and the array of [vlans], if there is one. *)
Fixpoint vlan_loop (n : nat) (i : nat) (pkt : buffer) (h_proto vlh : Z) (vlans : option (list Z)) :
  res (Z * Z * option (list Z)) :=
  match n with
  | O => Ok (h_proto, vlh, vlans)
  | S n =>
    if negb (proto_is_vlan h_proto) then Ok (h_proto, vlh, vlans)
    else if data_end pkt <? vlh + sizeof_vlan_hdr then Ok (h_proto, vlh, vlans)
    else
      proto ← load16 pkt (vlh + 2);
      tci ← load16 pkt vlh;
      let vlans := (λ ids, <[i := Z.land (bpf_ntohs tci) VLAN_VID_MASK]> ids) <$> vlans in
      vlan_loop n (S i) pkt proto (vlh + sizeof_vlan_hdr) vlans
  end.

Definition parse_ethhdr_vlan (pkt : buffer) (pos : Z) (vlans : option (list Z)) :
  res (parsed * option (list Z)) :=
  if data_end pkt <? pos + sizeof_ethhdr then Ok (Parsed (-1) pos None, vlans)
  else
    h_proto ← load16 pkt (pos + 12);
    '(h_proto, vlh, vlans) ← vlan_loop VLAN_MAX_DEPTH 0 pkt h_proto (pos + sizeof_ethhdr) vlans;
    Ok (Parsed h_proto vlh (Some pos), vlans).

Definition parse_ethhdr (pkt : buffer) (pos : Z) : res parsed :=
  '(p, _) ← parse_ethhdr_vlan pkt pos None;
  Ok p.

Definition parse_ip6hdr (pkt : buffer) (pos : Z) : res parsed :=
  if data_end pkt <? pos + sizeof_ipv6hdr then Ok (Parsed (-1) pos None)
  else
    nexthdr ← byte_at pkt (pos + 6);
    Ok (Parsed nexthdr (pos + sizeof_ipv6hdr) (Some pos)).

(** [ihl] is the low half of the first byte. *)
Definition parse_iphdr (pkt : buffer) (pos : Z) : res parsed :=
  if data_end pkt <? pos + sizeof_iphdr then Ok (Parsed (-1) pos None)
  else
    b ← byte_at pkt pos;
    let hdrsize := Z.land b 0x0F * 4 in
    if hdrsize <? sizeof_iphdr then Ok (Parsed (-1) pos None)
    else if data_end pkt <? pos + hdrsize then Ok (Parsed (-1) pos None)
    else
      protocol ← byte_at pkt (pos + 9);
      Ok (Parsed protocol (pos + hdrsize) (Some pos)).

(** The parsers of a header of fixed size that return its first byte. *)
Definition parse_type (size : Z) (pkt : buffer) (pos : Z) : res parsed :=
  if data_end pkt <? pos + size then Ok (Parsed (-1) pos None)
  else
    ty ← byte_at pkt pos;
    Ok (Parsed ty (pos + size) (Some pos)).

Definition parse_icmp6hdr : buffer → Z → res parsed := parse_type sizeof_icmp6hdr.
Definition parse_icmphdr : buffer → Z → res parsed := parse_type sizeof_icmphdr.
Definition parse_icmphdr_common : buffer → Z → res parsed := parse_type sizeof_icmphdr_common.

(** [len] is an [int]: the difference of an [int] and a [size_t], converted back. *)
Definition parse_udphdr (pkt : buffer) (pos : Z) : res parsed :=
  if data_end pkt <? pos + sizeof_udphdr then Ok (Parsed (-1) pos None)
  else
    l ← load16 pkt (pos + 4);
    let len := s32 (u64 (bpf_ntohs l - sizeof_udphdr)) in
    Ok (Parsed (if len <? 0 then -1 else len) (pos + sizeof_udphdr) (Some pos)).

(** [doff] is the high half of the thirteenth byte; [min] is what it is compared with. *)
Definition parse_tcphdr_min (min : Z) (pkt : buffer) (pos : Z) : res parsed :=
  if data_end pkt <? pos + sizeof_tcphdr then Ok (Parsed (-1) pos None)
  else
    b ← byte_at pkt (pos + 12);
    let len := Z.land (Z.shiftr b 4) 0x0F * 4 in
    if len <? min then Ok (Parsed (-1) pos None)
    else if data_end pkt <? pos + len then Ok (Parsed (-1) pos None)
    else Ok (Parsed len (pos + len) (Some pos)).

Definition parse_tcphdr : buffer → Z → res parsed := parse_tcphdr_min sizeof_tcphdr.

(** ** Writing *)

(** Bytes stored at an offset, and loaded from one. *)
Definition pkt_store (pkt : buffer) (i : Z) (bs : list Z) : res buffer :=
  if (0 <=? i) && (i + Z.of_nat (length bs) <=? data_end pkt)
  then Ok (take (Z.to_nat i) pkt ++ bs ++ drop (Z.to_nat i + length bs) pkt) else Err OutOfBounds.
Definition pkt_load (pkt : buffer) (i n : Z) : res (list Z) :=
  if (0 <=? i) && (0 <=? n) && (i + n <=? data_end pkt)
  then Ok (take (Z.to_nat n) (drop (Z.to_nat i) pkt)) else Err OutOfBounds.
Definition bytes16 (v : Z) : list Z := [Z.land v 0xFF; Z.land (Z.shiftr v 8) 0xFF].

(** Two fields of [n] bytes exchanged through a temporary: [first] is saved. *)
Definition pkt_swap (pkt : buffer) (first second n : Z) : res buffer :=
  tmp ← pkt_load pkt first n;
  other ← pkt_load pkt second n;
  pkt ← pkt_store pkt first other;
  pkt_store pkt second tmp.

Definition swap_src_dst_mac (pkt : buffer) (eth : Z) : res buffer := pkt_swap pkt (eth + 6) eth 6.
Definition swap_src_dst_ipv6 (pkt : buffer) (ipv6 : Z) : res buffer := pkt_swap pkt (ipv6 + 8) (ipv6 + 24) 16.
Definition swap_src_dst_ipv4 (pkt : buffer) (iphdr : Z) : res buffer := pkt_swap pkt (iphdr + 12) (iphdr + 16) 4.

Section adjust.
(** [bpf_xdp_adjust_head]: the packet after moving [data], or [None] for an error. *)
Variable bpf_xdp_adjust_head : buffer → Z → option buffer.

(** The packet after the call and the value returned. *)
Definition vlan_tag_pop (pkt : buffer) (eth : Z) : res (buffer * Z) :=
  h_proto ← load16 pkt (eth + 12);
  if negb (proto_is_vlan h_proto) then Ok (pkt, -1)
  else
    let vlh := eth + sizeof_ethhdr in
    if data_end pkt <? vlh + sizeof_vlan_hdr then Ok (pkt, -1)
    else
      tci ← load16 pkt vlh;
      let vlid := bpf_ntohs tci in
      h_proto ← load16 pkt (vlh + 2);
      eth_cpy ← pkt_load pkt eth sizeof_ethhdr;
      match bpf_xdp_adjust_head pkt sizeof_vlan_hdr with
      | None => Ok (pkt, -1)
      | Some pkt =>
        if data_end pkt <? sizeof_ethhdr then Ok (pkt, -1)
        else
          pkt ← pkt_store pkt 0 eth_cpy;
          pkt ← pkt_store pkt 12 (bytes16 h_proto);
          Ok (pkt, vlid)
      end.

Definition vlan_tag_push (pkt : buffer) (eth vlid : Z) : res (buffer * Z) :=
  eth_cpy ← pkt_load pkt eth sizeof_ethhdr;
  match bpf_xdp_adjust_head pkt (0 - sizeof_vlan_hdr) with
  | None => Ok (pkt, -1)
  | Some pkt =>
    if data_end pkt <? sizeof_ethhdr then Ok (pkt, -1)
    else
      pkt ← pkt_store pkt 0 eth_cpy;
      let vlh := sizeof_ethhdr in
      if data_end pkt <? vlh + sizeof_vlan_hdr then Ok (pkt, -1)
      else
        pkt ← pkt_store pkt vlh (bytes16 (bpf_htons vlid));
        proto ← load16 pkt 12;
        pkt ← pkt_store pkt (vlh + 2) (bytes16 proto);
        pkt ← pkt_store pkt 12 (bytes16 (bpf_htons ETH_P_8021Q));
        Ok (pkt, 0)
  end.
End adjust.

(** ** Statistics *)

Definition XDP_ABORTED : Z := 0.
Definition XDP_DROP : Z := 1.
Definition XDP_PASS : Z := 2.
Definition XDP_TX : Z := 3.
Definition XDP_REDIRECT : Z := 4.
Definition XDP_ACTION_MAX : Z := XDP_REDIRECT + 1.

(** struct datarec *)
Record datarec := DataRec { rec_packets : Z; rec_bytes : Z }.

(** [xdp_stats_map] as its array of records, read and written by
    [bpf_map_lookup_elem]. *)
Definition xdp_stats_record_action (m : gmap Z datarec) (pkt : buffer) (action : Z) : Z * gmap Z datarec :=
  if XDP_ACTION_MAX <=? action then (XDP_ABORTED, m)
  else
    match m !! action with
    | None => (XDP_ABORTED, m)
    | Some r =>
      (action, <[action := DataRec (u64 (rec_packets r + 1)) (u64 (rec_bytes r + data_end pkt))]> m)
    end.
