(* ===== verification/XdpProgs.v ===== *)
(** * The XDP programs: af_xdp_kern.c (two) and xdp_echo.c

    [Filter] is the program of the flow monitor (libs/xdp/af_xdp_kern.c), which
    redirects pktgen datagrams; [Queues] that of scenarios 1 and 2; [Echo] the
    echo server of xdp_echo.c.  The parsers they repeat from parsing_helpers.h
    are written out where they differ. *)

From S2P Require Import Prelude Packet BpfParse.

(** The context: the packet and the receive queue. *)
Record xdp_md := XdpMd { ctx_data : buffer; rx_queue_index : Z }.

Definition IPPROTO_TCP : Z := 6.
Definition IPPROTO_UDP : Z := 17.

(** [parse_ethhdr] of xdp_echo.c and libs/xdp/af_xdp_kern.c, without VLAN tags. *)
Definition parse_ethhdr_plain (pkt : buffer) (pos : Z) : res parsed :=
  if data_end pkt <? pos + 14 then Ok (Parsed (-1) pos None)
  else
    h_proto ← load16 pkt (pos + 12);
    Ok (Parsed h_proto (pos + sizeof_ethhdr) (Some pos)).

(** A dereference of a header pointer that a parser may not have written. *)
Definition header (p : parsed) : res Z := or_fault (p_hdr p) NullDeref.

Module Queues.
(** [bpf_redirect_map(&xsks_map, key, flags)]: the action. *)
Section redirect.
Variable bpf_redirect_map : Z → Z → Z.
Definition xdp_sock_prog_queues (ctx : xdp_md) : res Z :=
  let index := rx_queue_index ctx in
  if index =? 1 then Ok (bpf_redirect_map index 0)
  else if index =? 2 then Ok XDP_DROP
  else Ok XDP_PASS.
End redirect.
End Queues.

Module Filter.
(** [bpf_redirect_map(&xsks_map, key, flags)]: the action. *)
Section redirect.
Variable bpf_redirect_map : Z → Z → Z.
Definition pktgen_magic : Z := 0x55E99BBE.
Definition sizeof_pktgen_hdr : Z := 16.

(** The magic number is compared as it lies in memory. *)
Definition parse_pktgenhdr (pkt : buffer) (pos : Z) : res parsed :=
  if data_end pkt <? pos + sizeof_pktgen_hdr then Ok (Parsed (-1) pos None)
  else
    pgh_magic ← load32 pkt pos;
    Ok (Parsed (if pgh_magic =? pktgen_magic then 1 else 0) (pos + sizeof_pktgen_hdr) (Some pos)).

(** [xsks_map] has a socket for a queue, or not. *)
Definition xdp_sock_prog (xsks_map : Z → bool) (ctx : xdp_md) : res Z :=
  let index := rx_queue_index ctx in
  let pkt := ctx_data ctx in
  e ← parse_ethhdr_plain pkt 0;
  if negb (p_ret e =? bpf_htons 0x0800) then Ok XDP_PASS
  else
    i ← parse_iphdr pkt (p_pos e);
    if p_ret i =? IPPROTO_UDP then
      u ← parse_udphdr pkt (p_pos i);
      l ← parse_pktgenhdr pkt (p_pos u);
      if p_ret l =? 1 then
        if xsks_map index then Ok (bpf_redirect_map index 0) else Ok XDP_PASS
      else Ok XDP_PASS
    else Ok XDP_PASS.
End redirect.
End Filter.

Module Echo.
(** [bpf_redirect_map(&xsks_map, key, flags)]: the action. *)
Section redirect.
Variable bpf_redirect_map : Z → Z → Z.
(** As six 16-bit words. *)
Definition swap_src_dst_mac (pkt : buffer) : res buffer :=
  d0 ← load16 pkt 0; d1 ← load16 pkt 2; d2 ← load16 pkt 4;
  s0 ← load16 pkt 6; pkt ← pkt_store pkt 0 (bytes16 s0);
  s1 ← load16 pkt 8; pkt ← pkt_store pkt 2 (bytes16 s1);
  s2 ← load16 pkt 10; pkt ← pkt_store pkt 4 (bytes16 s2);
  pkt ← pkt_store pkt 6 (bytes16 d0);
  pkt ← pkt_store pkt 8 (bytes16 d1);
  pkt_store pkt 10 (bytes16 d2).

(** [len < sizeof(h)] compares with the size of a pointer. *)
Definition parse_tcphdr : buffer → Z → res parsed := parse_tcphdr_min 8.

(** [valor_puerto]: the entry of [xdp_puerto_map], or -1. *)
Definition port_value (puerto : option Z) : Z := match puerto with Some v => v | None => -1 end.

(** The datagram goes back: addresses and ports exchanged. *)
Definition echo_udp (pkt : buffer) (iph udph : Z) : res buffer :=
  pkt ← swap_src_dst_mac pkt;
  pkt ← pkt_swap pkt (iph + 12) (iph + 16) 4;
  pkt_swap pkt udph (udph + 2) 2.

(** The action and the packet as it leaves; [xdp_puerto_map] gives the entry of a key. *)
Definition xdp_echo_prog (xdp_puerto_map : Z → option Z) (ctx : xdp_md) : res (Z * buffer) :=
  let index := rx_queue_index ctx in
  let pkt := ctx_data ctx in
  e ← parse_ethhdr_plain pkt 0;
  if negb (p_ret e =? bpf_htons 0x0800) then Ok (XDP_PASS, pkt)
  else
    i ← parse_iphdr pkt (p_pos e);
    let valor_puerto := port_value (xdp_puerto_map 1) in
    if p_ret i =? IPPROTO_TCP then
      t ← parse_tcphdr pkt (p_pos i);
      if p_ret t =? -1 then Ok (XDP_PASS, pkt)
      else
        tcph ← header t;
        dest ← load16 pkt (tcph + 2);
        if dest =? bpf_htons valor_puerto then Ok (XDP_DROP, pkt) else Ok (XDP_PASS, pkt)
    else if p_ret i =? IPPROTO_UDP then
      u ← parse_udphdr pkt (p_pos i);
      if p_ret u =? -1 then Ok (XDP_PASS, pkt)
      else
        udph ← header u;
        dest ← load16 pkt (udph + 2);
        if dest =? bpf_htons valor_puerto then
          iph ← header i;
          pkt ← echo_udp pkt iph udph;
          Ok (XDP_TX, pkt)
        else Ok (bpf_redirect_map index 0, pkt)
    else Ok (XDP_PASS, pkt).
End redirect.
End Echo.
