(* ===== verification/XdpProps.v ===== *)
(** * Theorems about the BPF helpers and the XDP programs

    No parser and no program reads past the packet; the echo exchanges addresses
    and ports and nothing else; VLAN tags pushed are popped; the pktgen filter
    accepts exactly the pktgen datagrams. *)

From S2P Require Import Prelude Packet PacketSpec Frame BpfParse XdpProgs.

(** ** Parsers stay in the packet *)

(** A parser for a header of at least [size] bytes: it returns; it leaves the
    cursor where it was or moves it within the packet; the header pointer, when
    written, is the old cursor and the header is in the packet; and it is
    written unless the result is -1. *)
Definition parser_ok (size : Z) (f : buffer → Z → res parsed) : Prop :=
  ∀ pkt pos, 0 ≤ pos → ∃ p, f pkt pos = Ok p ∧
    (p_pos p = pos ∨ pos ≤ p_pos p ≤ data_end pkt) ∧
    (∀ h, p_hdr p = Some h → h = pos ∧ pos + size ≤ data_end pkt) ∧
    (p_ret p ≠ -1 → p_hdr p = Some pos).

Ltac in_packet :=
  match goal with |- context [if ?a <? ?b then _ else _] => destruct (Z.ltb_spec a b) end.
Ltac parser_done :=
  eexists; split; [reflexivity|]; cbn [p_ret p_pos p_hdr];
    split; [first [by left|right; lia]|]; split; [|first [by intros _|by intros []]];
    first [done | intros ? [= <-]; split; [done|lia]].

Lemma land_nonneg_15 x : 0 ≤ Z.land x 0x0F.
Proof. apply Z.land_nonneg. by right. Qed.

Lemma vlan_loop_ok n i pkt h vlh vs :
  0 ≤ vlh ≤ data_end pkt →
  ∃ h' vlh' vs', vlan_loop n i pkt h vlh vs = Ok (h', vlh', vs') ∧ vlh ≤ vlh' ≤ data_end pkt.
Proof.
  revert i h vlh vs. induction n as [|n IH]; intros i h vlh vs Hv; cbn [vlan_loop]; [eexists _, _, _; split; [done|lia]|].
  destruct (negb _); [eexists _, _, _; split; [done|lia]|]. in_packet; [eexists _, _, _; split; [done|lia]|]. unfold sizeof_vlan_hdr, data_end in *.
  destruct (load16_ok pkt (vlh + 2)) as [a Ha]; [lia..|]. destruct (load16_ok pkt vlh) as [b Hb]; [lia..|].
  rewrite Ha, Hb. cbn [mbind res_bind].
  match goal with |- context [vlan_loop n ?i ?p ?h ?v ?vs] => destruct (IH i h v vs) as (h' & v' & vs' & -> & ?) end; [lia|].
  eexists _, _, _. split; [reflexivity|lia].
Qed.

Lemma parse_ethhdr_ok : parser_ok sizeof_ethhdr parse_ethhdr.
Proof.
  intros pkt pos Hp. unfold parse_ethhdr, parse_ethhdr_vlan. in_packet; [parser_done|].
  unfold sizeof_ethhdr, data_end in *. destruct (load16_ok pkt (pos + 12)) as [h ->]; [lia..|]. cbn [mbind res_bind].
  destruct (vlan_loop_ok VLAN_MAX_DEPTH 0 pkt h (pos + 14) None) as (h' & v & vs & -> & Hv);
    [unfold data_end; lia|]. unfold data_end in Hv. cbn [mbind res_bind]. parser_done.
Qed.

Lemma parse_ip6hdr_ok : parser_ok sizeof_ipv6hdr parse_ip6hdr.
Proof.
  intros pkt pos Hp. unfold parse_ip6hdr. in_packet; [parser_done|]. unfold sizeof_ipv6hdr, data_end in *.
  destruct (byte_at_ok pkt (pos + 6)) as [b ->]; [lia..|]. cbn [mbind res_bind]. parser_done.
Qed.

Lemma parse_iphdr_ok : parser_ok sizeof_iphdr parse_iphdr.
Proof.
  intros pkt pos Hp. unfold parse_iphdr. in_packet; [parser_done|]. unfold sizeof_iphdr, data_end in *.
  destruct (byte_at_ok pkt pos) as [b ->]; [lia..|]. cbn [mbind res_bind]. pose proof (land_nonneg_15 b).
  in_packet; [parser_done|]. in_packet; [parser_done|].
  destruct (byte_at_ok pkt (pos + 9)) as [c ->]; [lia..|]. cbn [mbind res_bind]. parser_done.
Qed.

Lemma parse_type_ok size : 1 ≤ size → parser_ok size (parse_type size).
Proof.
  intros Hs pkt pos Hp. unfold parse_type. in_packet; [parser_done|]. unfold data_end in *.
  destruct (byte_at_ok pkt pos) as [b ->]; [lia..|]. cbn [mbind res_bind]. parser_done.
Qed.

Lemma parse_udphdr_ok : parser_ok sizeof_udphdr parse_udphdr.
Proof.
  intros pkt pos Hp. unfold parse_udphdr. in_packet; [parser_done|]. unfold sizeof_udphdr, data_end in *.
  destruct (load16_ok pkt (pos + 4)) as [b ->]; [lia..|]. cbn [mbind res_bind]. parser_done.
Qed.

Lemma parse_tcphdr_min_ok min : parser_ok sizeof_tcphdr (parse_tcphdr_min min).
Proof.
  intros pkt pos Hp. unfold parse_tcphdr_min. in_packet; [parser_done|]. unfold sizeof_tcphdr, data_end in *.
  destruct (byte_at_ok pkt (pos + 12)) as [b ->]; [lia..|]. cbn [mbind res_bind].
  pose proof (land_nonneg_15 (Z.shiftr b 4)).
  in_packet; [parser_done|]. in_packet; [parser_done|]. parser_done.
Qed.

Lemma parse_ethhdr_plain_ok : parser_ok sizeof_ethhdr parse_ethhdr_plain.
Proof.
  intros pkt pos Hp. unfold parse_ethhdr_plain. in_packet; [parser_done|]. unfold sizeof_ethhdr, data_end in *.
  destruct (load16_ok pkt (pos + 12)) as [b ->]; [lia..|]. cbn [mbind res_bind]. parser_done.
Qed.

Lemma parse_pktgenhdr_ok : parser_ok Filter.sizeof_pktgen_hdr Filter.parse_pktgenhdr.
Proof.
  intros pkt pos Hp. unfold Filter.parse_pktgenhdr. in_packet; [parser_done|].
  unfold Filter.sizeof_pktgen_hdr, data_end in *.
  destruct (load32_ok pkt pos) as [b ->]; [lia..|]. cbn [mbind res_bind]. parser_done.
Qed.

(** No parser of parsing_helpers.h reads past [data_end], whatever the bytes:
    each returns, leaves the cursor in the packet, and gives a header pointer
    only to a header that lies in the packet. *)
Lemma parsers_stay_in_the_packet :
  parser_ok sizeof_ethhdr parse_ethhdr ∧ parser_ok sizeof_ipv6hdr parse_ip6hdr ∧
  parser_ok sizeof_iphdr parse_iphdr ∧ parser_ok sizeof_icmp6hdr parse_icmp6hdr ∧
  parser_ok sizeof_icmphdr parse_icmphdr ∧ parser_ok sizeof_icmphdr_common parse_icmphdr_common ∧
  parser_ok sizeof_udphdr parse_udphdr ∧ parser_ok sizeof_tcphdr parse_tcphdr.
Proof.
  split_and!; [apply parse_ethhdr_ok|apply parse_ip6hdr_ok|apply parse_iphdr_ok|by apply parse_type_ok..
              |apply parse_udphdr_ok|apply parse_tcphdr_min_ok].
Qed.

(** ** Loads and stores at a position *)

Lemma pkt_store_length pkt i bs :
  0 ≤ i → i + Z.of_nat (length bs) ≤ data_end pkt →
  ∃ pkt', pkt_store pkt i bs = Ok pkt' ∧ length pkt' = length pkt.
Proof.
  intros Hi Hl. unfold pkt_store. rewrite (proj2 (Z.leb_le _ _)), (proj2 (Z.leb_le _ _)) by done.
  eexists. split; [reflexivity|]. unfold data_end in Hl. rewrite !length_app, length_take, length_drop. lia.
Qed.

Lemma pkt_load_length pkt i n :
  0 ≤ i → 0 ≤ n → i + n ≤ data_end pkt →
  ∃ l, pkt_load pkt i n = Ok l ∧ Z.of_nat (length l) = n.
Proof.
  intros Hi Hn Hl. unfold pkt_load. rewrite !(proj2 (Z.leb_le _ _)) by done.
  eexists. split; [reflexivity|]. unfold data_end in Hl. rewrite length_take, length_drop. lia.
Qed.

Lemma pkt_swap_length pkt i j n :
  0 ≤ i → 0 ≤ j → 0 ≤ n → i + n ≤ data_end pkt → j + n ≤ data_end pkt →
  ∃ pkt', pkt_swap pkt i j n = Ok pkt' ∧ length pkt' = length pkt.
Proof.
  intros Hi Hj Hn Hin Hjn. unfold pkt_swap.
  destruct (pkt_load_length pkt i n) as (a & -> & Ha); [done..|].
  destruct (pkt_load_length pkt j n) as (b & -> & Hb); [done..|]. cbn [mbind res_bind].
  destruct (pkt_store_length pkt i b) as (p1 & -> & H1); [lia..|]. cbn [mbind res_bind].
  destruct (pkt_store_length p1 j a) as (p2 & -> & H2); [lia|unfold data_end in *; lia|].
  exists p2. split; [done|congruence].
Qed.

Lemma pkt_load_app a b c i :
  Z.of_nat (length a) = i → pkt_load (a ++ b ++ c) i (Z.of_nat (length b)) = Ok b.
Proof.
  intros <-. unfold pkt_load, data_end. rewrite !length_app.
  rewrite !(proj2 (Z.leb_le _ _)) by lia. cbn [andb]. by rewrite !Nat2Z.id, drop_app_length, take_app_length.
Qed.

Lemma pkt_store_app a b c bs i :
  Z.of_nat (length a) = i → length bs = length b → pkt_store (a ++ b ++ c) i bs = Ok (a ++ bs ++ c).
Proof.
  intros <- Hl. unfold pkt_store, data_end. rewrite !length_app.
  rewrite !(proj2 (Z.leb_le _ _)) by lia. cbn [andb].
  by rewrite Nat2Z.id, take_app_length, Hl, <-drop_drop, drop_app_length, drop_app_length.
Qed.

(** Two fields are exchanged. *)
Lemma pkt_swap_app a x m y c i j n :
  Z.of_nat (length a) = i → Z.of_nat (length (a ++ x ++ m)) = j →
  Z.of_nat (length x) = n → length y = length x →
  pkt_swap (a ++ x ++ m ++ y ++ c) i j n = Ok (a ++ y ++ m ++ x ++ c).
Proof.
  intros Hi Hj Hn Hl. unfold pkt_swap. rewrite <-Hn at 1. rewrite pkt_load_app by done. cbn [mbind res_bind].
  replace (a ++ x ++ m ++ y ++ c) with ((a ++ x ++ m) ++ y ++ c) at 1 by (by rewrite <-!(assoc_L (++))).
  rewrite <-Hn, <-Hl, pkt_load_app by done. cbn [mbind res_bind]. rewrite pkt_store_app by done. cbn [mbind res_bind].
  replace (a ++ y ++ m ++ y ++ c) with ((a ++ y ++ m) ++ y ++ c) by (by rewrite <-!(assoc_L (++))).
  rewrite pkt_store_app; [by rewrite <-!(assoc_L (++))| |done].
  rewrite <-Hj, !length_app. lia.
Qed.

Lemma bytes16_lor a b : 0 ≤ a < 256 → 0 ≤ b < 256 → bytes16 (Z.lor a (Z.shiftl b 8)) = [a; b].
Proof.
  intros Ha Hb. unfold bytes16. rewrite lor_shiftl_add by lia. rewrite !land_255, Z.shiftr_div_pow2 by lia.
  change (2 ^ 8) with 256. f_equal; [dlia|]. f_equal. dlia.
Qed.

Lemma load16_lookup pkt i a b :
  0 ≤ i → pkt !! Z.to_nat i = Some a → pkt !! Z.to_nat (i + 1) = Some b →
  load16 pkt i = Ok (Z.lor a (Z.shiftl b 8)).
Proof.
  intros Hi Ha Hb. unfold load16, byte_at. rewrite !(proj2 (Z.ltb_ge _ 0)) by lia. by rewrite Ha, Hb.
Qed.

Lemma pkt_store_word pkt i a b :
  0 ≤ i → i + 2 ≤ data_end pkt →
  pkt_store pkt i [a; b] = Ok (<[Z.to_nat i := a]> (<[S (Z.to_nat i) := b]> pkt)).
Proof.
  intros Hi Hl. unfold pkt_store. rewrite !(proj2 (Z.leb_le _ _)) by done. cbn [andb].
  unfold data_end in Hl. set (n := Z.to_nat i). rewrite insert_take_drop by (rewrite length_insert; lia).
  rewrite take_insert_ge by lia. rewrite (drop_S _ b (S n)) by (apply list_lookup_insert_eq; lia).
  rewrite drop_insert_lt by lia. cbn [app length]. by replace (n + 2)%nat with (S (S n)) by lia.
Qed.

Ltac eval_to_nat :=
  repeat match goal with |- context [Z.to_nat ?k] =>
    let v := eval vm_compute in (Z.to_nat k) in change (Z.to_nat k) with v end.

Lemma echo_swap_mac dst src rest :
  octets 6 dst → octets 6 src →
  Echo.swap_src_dst_mac (dst ++ src ++ rest) = Ok (src ++ dst ++ rest).
Proof.
  intros [Hd1 Hd2] [Hs1 Hs2].
  do 6 (destruct dst as [|? dst]; [done|]). destruct dst; [|done].
  do 6 (destruct src as [|? src]; [done|]). destruct src; [|done].
  repeat match goal with H : Forall _ (_ :: _) |- _ => apply Forall_cons in H as [? H] end.
  unfold Echo.swap_src_dst_mac. cbn [app].
  repeat (first [erewrite load16_lookup by (first [lia|reflexivity]) | progress rewrite !bytes16_lor by done |
    rewrite pkt_store_word by (unfold data_end; cbn; lia); eval_to_nat; cbn [insert list_insert]];
    cbn [mbind res_bind]).
  done.
Qed.

(** ** The echo server *)

(** An IPv4 UDP datagram as the program takes it apart: the IP header up to the
    addresses, its options, and the UDP header without the ports. *)
Record datagram := Datagram {
  g_dst : list Z; g_src : list Z; g_ip : list Z; g_saddr : list Z; g_daddr : list Z;
  g_opts : list Z; g_sport : list Z; g_dport : list Z; g_len : list Z; g_rest : list Z
}.

Definition ip_header (g : datagram) : list Z := g_ip g ++ g_saddr g ++ g_daddr g ++ g_opts g.
Definition datagram_bytes (g : datagram) : list Z :=
  g_dst g ++ g_src g ++ [8; 0] ++ ip_header g ++ g_sport g ++ g_dport g ++ g_len g ++ g_rest g.

(** Its fields have their sizes (the rest begins with the checksum); the header length covers the options; the
    protocol is UDP and the UDP length at least that of the header. *)
Definition datagram_ok (g : datagram) : Prop :=
  octets 6 (g_dst g) ∧ octets 6 (g_src g) ∧ octets 12 (g_ip g) ∧ octets 4 (g_saddr g) ∧
  octets 4 (g_daddr g) ∧ octets 2 (g_sport g) ∧ octets 2 (g_dport g) ∧
  (∃ b, g_ip g !! 0%nat = Some b ∧ Z.land b 0x0F * 4 = 20 + Z.of_nat (length (g_opts g))) ∧
  g_ip g !! 9%nat = Some IPPROTO_UDP ∧ (∃ l, g_len g = be16 l ∧ 8 ≤ l < 2 ^ 16) ∧
  (2 ≤ length (g_rest g))%nat.

(** The answer: addresses and ports exchanged. *)
Definition echoed (g : datagram) : datagram :=
  Datagram (g_src g) (g_dst g) (g_ip g) (g_daddr g) (g_saddr g) (g_opts g) (g_dport g) (g_sport g)
    (g_len g) (g_rest g).

Lemma datagram_lengths g :
  datagram_ok g →
  length (g_dst g) = 6%nat ∧ length (g_src g) = 6%nat ∧ length (g_ip g) = 12%nat ∧
  length (g_saddr g) = 4%nat ∧ length (g_daddr g) = 4%nat ∧ length (g_sport g) = 2%nat ∧
  length (g_dport g) = 2%nat ∧ length (g_len g) = 2%nat.
Proof.
  intros (H1 & H2 & H3 & H4 & H5 & H6 & H7 & _ & _ & (l & Hl & _) & _). rewrite Hl.
  split_and!; [apply H1|apply H2|apply H3|apply H4|apply H5|apply H6|apply H7|done].
Qed.

Ltac datagram_lens :=
  unfold datagram_bytes, ip_header, data_end;
  rewrite ?length_app; cbn [length]; lia.

(** The bytes behind a prefix of the datagram. *)
Lemma drop_prefix {A} (l p s : list A) n : l = p ++ s → length p = n → drop n l = s.
Proof. intros -> <-. apply drop_app_length. Qed.

Lemma datagram_eth g :
  datagram_ok g →
  parse_ethhdr_plain (datagram_bytes g) 0 = Ok (Parsed (bpf_htons 0x0800) 14 (Some 0)).
Proof.
  intros H. pose proof (datagram_lengths g H) as (L1 & L2 & L3 & L4 & L5 & L6 & L7 & L8).
  unfold parse_ethhdr_plain. rewrite (proj2 (Z.ltb_ge _ _)) by datagram_lens.
  assert (drop 12 (datagram_bytes g) = [8; 0] ++ ip_header g ++ g_sport g ++ g_dport g ++ g_len g ++ g_rest g) as Hd.
  { apply (drop_prefix _ (g_dst g ++ g_src g)); [|rewrite length_app; lia]. unfold datagram_bytes.
    by rewrite <-!(assoc_L (++)). }
  change (0 + 12) with (Z.of_nat 12 + Z.of_nat 0). by rewrite (load16_drop _ 12 _ 0 8 0 Hd).
Qed.

Lemma datagram_ip g :
  datagram_ok g →
  parse_iphdr (datagram_bytes g) 14 =
    Ok (Parsed IPPROTO_UDP (34 + Z.of_nat (length (g_opts g))) (Some 14)).
Proof.
  intros H. pose proof (datagram_lengths g H) as (L1 & L2 & L3 & L4 & L5 & L6 & L7 & L8).
  destruct H as (_ & _ & _ & _ & _ & _ & _ & (b & Hb & Hihl) & Hp & _).
  unfold parse_iphdr. rewrite (proj2 (Z.ltb_ge _ _)) by (unfold sizeof_iphdr; datagram_lens).
  assert (drop 14 (datagram_bytes g) = ip_header g ++ g_sport g ++ g_dport g ++ g_len g ++ g_rest g) as Hd.
  { apply (drop_prefix _ (g_dst g ++ g_src g ++ [8; 0])); [|rewrite !length_app; cbn; lia]. unfold datagram_bytes.
    by rewrite <-!(assoc_L (++)). }
  assert (∀ i x, g_ip g !! i = Some x → byte_at (datagram_bytes g) (14 + Z.of_nat i) = Ok x) as Hbyte.
  { intros i x Hi. change 14 with (Z.of_nat 14). rewrite (byte_at_drop _ 14 _ i Hd). unfold ip_header.
    rewrite <-!(assoc_L (++)). by rewrite (lookup_app_l_Some _ _ _ _ Hi). }
  rewrite (Hbyte 0%nat b Hb : byte_at _ 14 = _). cbn [mbind res_bind]. rewrite Hihl. unfold sizeof_iphdr.
  rewrite (proj2 (Z.ltb_ge _ _)) by lia. rewrite (proj2 (Z.ltb_ge _ _)) by datagram_lens.
  rewrite (Hbyte 9%nat _ Hp : byte_at _ (14 + 9) = _). cbn [mbind res_bind]. do 2 f_equal. lia.
Qed.

(** The bytes from the UDP header on. *)
Lemma datagram_udp_drop g :
  datagram_ok g →
  drop (34 + length (g_opts g)) (datagram_bytes g) = g_sport g ++ g_dport g ++ g_len g ++ g_rest g.
Proof.
  intros H. pose proof (datagram_lengths g H) as (L1 & L2 & L3 & L4 & L5 & L6 & L7 & L8).
  apply (drop_prefix _ (g_dst g ++ g_src g ++ [8; 0] ++ ip_header g)).
  - unfold datagram_bytes. by rewrite <-!(assoc_L (++)).
  - unfold ip_header. rewrite !length_app. cbn. lia.
Qed.

Lemma datagram_udp g :
  datagram_ok g →
  ∃ r pos, parse_udphdr (datagram_bytes g) (34 + Z.of_nat (length (g_opts g))) =
    Ok (Parsed r pos (Some (34 + Z.of_nat (length (g_opts g))))) ∧ 0 ≤ r.
Proof.
  intros H. pose proof (datagram_lengths g H) as (L1 & L2 & L3 & L4 & L5 & L6 & L7 & L8).
  pose proof (datagram_udp_drop g H) as Hd. destruct H as (_ & _ & _ & _ & _ & _ & _ & _ & _ & (l & Hl & Hlr) & Hrest).
  set (n := (34 + length (g_opts g))%nat) in *. replace (34 + Z.of_nat (length (g_opts g))) with (Z.of_nat n) by lia.
  unfold parse_udphdr. rewrite (proj2 (Z.ltb_ge _ _)) by (unfold sizeof_udphdr, n; datagram_lens).
  assert (∀ j x, g_len g !! j = Some x →
    (g_sport g ++ g_dport g ++ g_len g ++ g_rest g) !! (4 + j)%nat = Some x) as Hlook.
  { intros j x Hj. do 2 (rewrite lookup_app_r by lia). rewrite lookup_app_l_Some with (x := x); [done|].
    rewrite L6, L7. replace (4 + j - 2 - 2)%nat with j by lia. done. }
  change 4 with (Z.of_nat 4).
  rewrite (load16_drop _ n _ 4 (l / 256) (l mod 256) Hd (Hlook 0%nat _ ltac:(by rewrite Hl)) (Hlook 1%nat _ ltac:(by rewrite Hl))).
  cbn [mbind res_bind]. unfold bpf_ntohs.
  rewrite u16_small by (rewrite lor_shiftl_add; dlia). rewrite ntohs_swap by dlia.
  replace (l / 256 * 256 + l mod 256) with l by dlia. unfold sizeof_udphdr, s32.
  rewrite u64_small by lia. rewrite u32_small by lia.
  rewrite (proj2 (Z.ltb_lt (l - 8) (2 ^ 31))) by lia. rewrite (proj2 (Z.ltb_ge (l - 8) 0)) by lia.
  eexists (l - 8), _. split; [reflexivity|lia].
Qed.

(** The port as the program compares it. *)
Lemma datagram_dport g v :
  datagram_ok g → g_dport g = be16 (u16 v) →
  load16 (datagram_bytes g) (34 + Z.of_nat (length (g_opts g)) + 2) = Ok (bpf_htons v).
Proof.
  intros H Hv. pose proof (datagram_lengths g H) as (L1 & L2 & L3 & L4 & L5 & L6 & L7 & L8).
  pose proof (datagram_udp_drop g H) as Hd. set (n := (34 + length (g_opts g))%nat) in *.
  replace (34 + Z.of_nat (length (g_opts g)) + 2) with (Z.of_nat n + Z.of_nat 2) by lia.
  assert (∀ j x, g_dport g !! j = Some x →
    (g_sport g ++ g_dport g ++ g_len g ++ g_rest g) !! (2 + j)%nat = Some x) as Hlook.
  { intros j x Hj. rewrite lookup_app_r by lia. apply lookup_app_l_Some. by rewrite L6, Nat.add_comm, Nat.add_sub. }
  pose proof (u16_range v) as Hr.
  rewrite (load16_drop _ n _ 2 (u16 v / 256) (u16 v mod 256) Hd (Hlook 0%nat _ ltac:(by rewrite Hv)) (Hlook 1%nat _ ltac:(by rewrite Hv))). f_equal.
  unfold bpf_htons. set (x := u16 v) in *. clearbody x.
  unfold ntohs. rewrite !land_255, Z.shiftr_div_pow2 by lia. change (2 ^ 8) with 256.
  rewrite lor_shiftl_add by dlia. rewrite shiftl_lor_add by dlia. change (2 ^ 8) with 256. dlia.
Qed.

Lemma echo_udp_bytes g :
  datagram_ok g →
  Echo.echo_udp (datagram_bytes g) 14 (34 + Z.of_nat (length (g_opts g))) = Ok (datagram_bytes (echoed g)).
Proof.
  intros H. pose proof (datagram_lengths g H) as (L1 & L2 & L3 & L4 & L5 & L6 & L7 & L8).
  unfold Echo.echo_udp. unfold datagram_bytes at 1. rewrite echo_swap_mac by apply H. cbn [mbind res_bind].
  unfold ip_header.
  replace (g_src g ++ g_dst g ++ [8; 0] ++ (g_ip g ++ g_saddr g ++ g_daddr g ++ g_opts g) ++ g_sport g ++ g_dport g ++ g_len g ++ g_rest g)
    with ((g_src g ++ g_dst g ++ [8; 0] ++ g_ip g) ++ g_saddr g ++ [] ++ g_daddr g ++ (g_opts g ++ g_sport g ++ g_dport g ++ g_len g ++ g_rest g))
    by (by rewrite ?app_nil_l, <-!(assoc_L (++))).
  rewrite (pkt_swap_app _ (g_saddr g) [] (g_daddr g)) by (rewrite ?app_nil_r, ?length_app; cbn [length]; lia).
  cbn [mbind res_bind].
  replace ((g_src g ++ g_dst g ++ [8; 0] ++ g_ip g) ++ g_daddr g ++ [] ++ g_saddr g ++ (g_opts g ++ g_sport g ++ g_dport g ++ g_len g ++ g_rest g))
    with ((g_src g ++ g_dst g ++ [8; 0] ++ g_ip g ++ g_daddr g ++ g_saddr g ++ g_opts g) ++ g_sport g ++ [] ++ g_dport g ++ (g_len g ++ g_rest g))
    by (by rewrite ?app_nil_l, <-!(assoc_L (++))).
  rewrite (pkt_swap_app _ (g_sport g) [] (g_dport g)) by (rewrite ?app_nil_r, ?length_app; cbn [length]; lia).
  unfold datagram_bytes, echoed, ip_header. cbn [g_dst g_src g_ip g_saddr g_daddr g_opts g_sport g_dport g_len g_rest]. by rewrite ?app_nil_l, <-!(assoc_L (++)).
Qed.

(** C17: The echo server answers a UDP datagram to the configured port with the same
    datagram, MAC addresses, IP addresses and ports exchanged, whatever the IP
    options and the payload, and sends it back on the same interface. *)
Theorem xdp_echo_answers redirect m q g v :
  datagram_ok g → m 1 = Some v → g_dport g = be16 (u16 v) →
  Echo.xdp_echo_prog redirect m (XdpMd (datagram_bytes g) q) = Ok (XDP_TX, datagram_bytes (echoed g)).
Proof.
  intros H Hm Hv. unfold Echo.xdp_echo_prog. cbn [ctx_data rx_queue_index].
  rewrite (datagram_eth g H). cbn [mbind res_bind p_ret p_pos]. rewrite Z.eqb_refl. cbn [negb].
  rewrite (datagram_ip g H). cbn [mbind res_bind p_ret p_pos p_hdr header].
  destruct (datagram_udp g H) as (r & pos & Hu & Hr). rewrite Hu. cbn [mbind res_bind p_ret p_pos p_hdr].
  change (IPPROTO_UDP =? IPPROTO_TCP) with false. rewrite Z.eqb_refl. cbv iota.
  rewrite (proj2 (Z.eqb_neq r (-1))) by lia. unfold header. cbn [or_fault p_hdr mbind res_bind].
  rewrite (datagram_dport g v H Hv). cbn [mbind res_bind]. rewrite Hm. cbn [Echo.port_value].
  rewrite Z.eqb_refl. rewrite (echo_udp_bytes g H). done.
Qed.

(** A datagram from 10.0.0.2:5000 to 10.0.0.1:9000 with four bytes of options. *)
Definition sample_datagram : datagram :=
  Datagram [2; 0; 0; 0; 0; 1] [2; 0; 0; 0; 0; 2]
    [0x46; 0; 0; 36; 0; 1; 0; 0; 64; 17; 0x99; 0x88] [10; 0; 0; 2] [10; 0; 0; 1] [1; 1; 1; 0]
    (be16 5000) (be16 9000) (be16 12) [0x12; 0x34; 1; 2; 3; 4].

Lemma sample_datagram_ok : datagram_ok sample_datagram.
Proof.
  unfold datagram_ok, octets. cbn.
  split_and!; try done; try (repeat constructor; done); try (by eexists); try (exists 12; by split_and!).
Qed.

Lemma xdp_echo_answers_witness :
  Echo.xdp_echo_prog (λ _ _, XDP_REDIRECT) (λ _, Some 9000) (XdpMd (datagram_bytes sample_datagram) 0) =
  Ok (XDP_TX, datagram_bytes (echoed sample_datagram)).
Proof. apply (xdp_echo_answers _ _ 0 sample_datagram 9000 sample_datagram_ok); done. Defined.

(** 16-bit words in network order. *)
Fixpoint be_words (l : list Z) : list Z :=
  match l with
  | a :: b :: l => (a * 256 + b) :: be_words l
  | [a] => [a * 256]
  | [] => []
  end.
Definition word_sum (l : list Z) : Z := foldr Z.add 0 (be_words l).

Lemma word_sum_app l1 l2 : (∃ n, length l1 = 2 * n)%nat → word_sum (l1 ++ l2) = word_sum l1 + word_sum l2.
Proof.
  intros [n Hn]. revert l1 Hn. unfold word_sum. induction n as [|n IH]; intros l1 Hn.
  - by destruct l1.
  - destruct l1 as [|a [|b l1]]; cbn in Hn; [lia|lia|]. cbn [app be_words foldr]. rewrite IH by lia. lia.
Qed.

(** The words of the UDP checksum: the pseudo-header and the datagram. *)
Definition udp_words (g : datagram) : list Z :=
  g_saddr g ++ g_daddr g ++ [0; IPPROTO_UDP] ++ g_len g ++ g_sport g ++ g_dport g ++ g_len g ++ g_rest g.



Lemma bytes16_length v : Z.of_nat (length (bytes16 v)) = 2.
Proof. done. Qed.

(** A load and a store of a word within twelve bytes. *)
Ltac word_step :=
  match goal with
  | |- context [load16 ?p ?i] => destruct (load16_ok p i) as [? ->]; [lia..|]
  | |- context [pkt_store ?p ?i (bytes16 ?v)] =>
    destruct (pkt_store_length p i (bytes16 v)) as (? & -> & ?); [lia|rewrite bytes16_length; unfold data_end; lia|]
  end; cbn [mbind res_bind].

Lemma echo_udp_length pkt iph udph :
  0 ≤ iph → 0 ≤ udph → iph + 20 ≤ data_end pkt → udph + 8 ≤ data_end pkt →
  ∃ pkt', Echo.echo_udp pkt iph udph = Ok pkt' ∧ length pkt' = length pkt.
Proof.
  intros Hi Hu Hip Hud. unfold data_end in *. unfold Echo.echo_udp, Echo.swap_src_dst_mac.
  do 11 word_step.
  match goal with |- context [pkt_store ?p 10 ?bs] =>
    destruct (pkt_store_length p 10 bs) as (p1 & -> & Hl1); [lia|rewrite bytes16_length; unfold data_end; lia|] end.
  cbn [mbind res_bind].
  destruct (pkt_swap_length p1 (iph + 12) (iph + 16) 4) as (p2 & -> & Hl2); [unfold data_end; lia..|].
  cbn [mbind res_bind].
  destruct (pkt_swap_length p2 udph (udph + 2) 2) as (p3 & -> & Hl3); [unfold data_end; lia..|].
  exists p3. split; [done|lia].
Qed.

(** C20: The XDP programs are total: for any bytes, queue and maps none reads or
    writes past the packet or through a pointer that was not written; the echo
    program changes no byte unless it answers, and never the length. *)
Theorem xdp_programs_are_total redirect xsks ports ctx :
  (∃ a, Queues.xdp_sock_prog_queues redirect ctx = Ok a) ∧
  (∃ a, Filter.xdp_sock_prog redirect xsks ctx = Ok a) ∧
  (∃ a pkt, Echo.xdp_echo_prog redirect ports ctx = Ok (a, pkt) ∧
     length pkt = length (ctx_data ctx) ∧ (pkt = ctx_data ctx ∨ a = XDP_TX)).
Proof.
  destruct ctx as [pkt q]. cbn [ctx_data]. split_and!.
  - unfold Queues.xdp_sock_prog_queues. destruct (_ =? _); [by eexists|]. destruct (_ =? _); by eexists.
  - unfold Filter.xdp_sock_prog. cbn [ctx_data rx_queue_index].
    destruct (parse_ethhdr_plain_ok pkt 0 ltac:(lia)) as (e & -> & Ep & _). cbn [mbind res_bind].
    destruct (negb _); [by eexists|].
    destruct (parse_iphdr_ok pkt (p_pos e) ltac:(lia)) as (i & -> & Ip & _). cbn [mbind res_bind].
    destruct (_ =? _); [|by eexists].
    destruct (parse_udphdr_ok pkt (p_pos i) ltac:(lia)) as (u & -> & Up & _). cbn [mbind res_bind].
    destruct (parse_pktgenhdr_ok pkt (p_pos u) ltac:(lia)) as (l & -> & _). cbn [mbind res_bind].
    destruct (_ =? _); [destruct (xsks q)|]; by eexists.
  - unfold Echo.xdp_echo_prog. cbn [ctx_data rx_queue_index].
    assert (∀ a, ∃ a' pkt', Ok (a, pkt) = Ok (a', pkt') ∧ length pkt' = length pkt ∧ (pkt' = pkt ∨ a' = XDP_TX))
      as Hsame by (intros a; exists a, pkt; auto).
    destruct (parse_ethhdr_plain_ok pkt 0 ltac:(lia)) as (e & -> & Ep & Ehd & Er). cbn [mbind res_bind].
    destruct (negb _) eqn:Ety; [apply Hsame|].
    destruct (parse_iphdr_ok pkt (p_pos e) ltac:(lia)) as (i & -> & Ip & Ihd & Ir). cbn [mbind res_bind].
    destruct (p_ret i =? IPPROTO_TCP) eqn:Htcp.
    + destruct (parse_tcphdr_min_ok 8 pkt (p_pos i) ltac:(lia)) as (t & Et & Tp & Thd & Tr).
      unfold Echo.parse_tcphdr. rewrite Et. cbn [mbind res_bind].
      destruct (Z.eqb_spec (p_ret t) (-1)) as [|Hne]; [apply Hsame|]. unfold header. rewrite (Tr Hne).
      destruct (Thd _ (Tr Hne)) as [_ Hroom]. unfold sizeof_tcphdr, data_end in Hroom.
      cbn [or_fault mbind res_bind]. destruct (load16_ok pkt (p_pos i + 2)) as [d ->]; [lia..|].
      cbn [mbind res_bind]. destruct (d =? _); apply Hsame.
    + destruct (Z.eqb_spec (p_ret i) IPPROTO_UDP) as [Hudp|]; [|apply Hsame].
      destruct (parse_udphdr_ok pkt (p_pos i) ltac:(lia)) as (u & Eu & Up & Uhd & Ur). rewrite Eu. cbn [mbind res_bind].
      destruct (Z.eqb_spec (p_ret u) (-1)) as [|Hne]; [apply Hsame|]. unfold header. rewrite (Ur Hne).
      destruct (Uhd _ (Ur Hne)) as [_ Hroom]. unfold sizeof_udphdr, data_end in Hroom.
      cbn [or_fault mbind res_bind]. destruct (load16_ok pkt (p_pos i + 2)) as [d ->]; [lia..|].
      cbn [mbind res_bind]. destruct (d =? _); [|apply Hsame].
      assert (p_ret i ≠ -1) as Hi by (rewrite Hudp; done). rewrite (Ir Hi). cbn [or_fault mbind res_bind].
      destruct (Ihd _ (Ir Hi)) as [_ Hiroom]. unfold sizeof_iphdr, data_end in Hiroom.
      assert (0 ≤ p_pos e) as He by lia. assert (0 ≤ p_pos i) as Hpi by lia.
      destruct (echo_udp_length pkt (p_pos e) (p_pos i)) as (pkt' & -> & Hl); [unfold data_end; lia..|].
      cbn [mbind res_bind]. exists XDP_TX, pkt'. auto.
Qed.

(** Without an entry in the port map the echo program behaves as if port 65535
    were configured: [valor_puerto] is -1, and its low 16 bits are compared. *)
Lemma missing_port_is_65535 redirect ctx :
  Echo.xdp_echo_prog redirect (λ _, None) ctx = Echo.xdp_echo_prog redirect (λ _, Some 65535) ctx.
Proof. reflexivity. Qed.

(** ** The pktgen filter *)

Definition has_byte (pkt : buffer) (i v : Z) : Prop := 0 ≤ i ∧ pkt !! Z.to_nat i = Some v.

(** An IPv4 UDP datagram whose payload begins with the magic number of pktgen:
    [n] is where the IP header ends. *)
Definition is_pktgen (pkt : buffer) : Prop :=
  ∃ b n, has_byte pkt 12 8 ∧ has_byte pkt 13 0 ∧ has_byte pkt 14 b ∧
    n = 14 + Z.land b 0x0F * 4 ∧ 34 ≤ n ∧ n + 24 ≤ data_end pkt ∧
    has_byte pkt 23 IPPROTO_UDP ∧
    has_byte pkt (n + 8) 0xBE ∧ has_byte pkt (n + 9) 0x9B ∧ has_byte pkt (n + 10) 0xE9 ∧
    has_byte pkt (n + 11) 0x55.

Lemma byte_at_has pkt i b : byte_at pkt i = Ok b ↔ has_byte pkt i b.
Proof.
  unfold byte_at, has_byte. destruct (Z.ltb_spec i 0); split; try done; try lia.
  - destruct (pkt !! _); cbn; [intros [= ->]; split; [lia|done]|done].
  - intros [_ ->]. done.
Qed.

(** The two bytes of a word are determined by it. *)
Lemma load16_has pkt i w :
  Forall (λ b, 0 ≤ b < 256) pkt → load16 pkt i = Ok w → has_byte pkt i (w mod 256) ∧ has_byte pkt (i + 1) (w / 256).
Proof.
  intros Hb H. unfold load16 in H.
  destruct (byte_at pkt i) as [a|] eqn:Ea; [|done]. cbn [mbind res_bind] in H.
  destruct (byte_at pkt (i + 1)) as [b|] eqn:Eb; [|done]. cbn [mbind res_bind] in H. injection H as <-.
  apply byte_at_has in Ea, Eb. rewrite Forall_lookup in Hb.
  assert (0 ≤ a < 256) by (eapply Hb; apply Ea). assert (0 ≤ b < 256) by (eapply Hb; apply Eb).
  rewrite lor_shiftl_add by lia. change (2 ^ 8) with 256.
  replace ((a + b * 256) mod 256) with a by dlia. replace ((a + b * 256) / 256) with b by dlia. done.
Qed.

Lemma has_load16 pkt i a b :
  has_byte pkt i a → has_byte pkt (i + 1) b → load16 pkt i = Ok (Z.lor a (Z.shiftl b 8)).
Proof. intros Ha Hb. unfold load16. apply byte_at_has in Ha, Hb. by rewrite Ha, Hb. Qed.

Lemma has_byte_inj pkt i a b : has_byte pkt i a → has_byte pkt i b → a = b.
Proof. intros [_ H1] [_ H2]. congruence. Qed.

(** Where the parsers succeed. *)
Lemma eth_ipv4_iff pkt e :
  Forall (λ b, 0 ≤ b < 256) pkt → parse_ethhdr_plain pkt 0 = Ok e →
  (p_ret e = bpf_htons 0x0800 ↔ has_byte pkt 12 8 ∧ has_byte pkt 13 0) ∧
  (p_ret e = bpf_htons 0x0800 → p_pos e = 14).
Proof.
  intros Hb E. unfold parse_ethhdr_plain in E. change (bpf_htons 0x0800) with 8.
  destruct (Z.ltb_spec (data_end pkt) (0 + 14)) as [Hs|Hs].
  - injection E as <-. cbn. split; [|done]. split; [done|].
    intros [_ [_ H]]. apply lookup_lt_Some in H. unfold data_end in Hs. lia.
  - unfold data_end in Hs. destruct (load16_ok pkt (0 + 12)) as [w Hw]; [lia..|]. rewrite Hw in E.
    injection E as <-. cbn [p_ret p_pos]. split; [|done].
    pose proof (load16_has pkt _ w Hb Hw) as [H1 H2]. cbn in H1, H2. split.
    + intros ->. by split.
    + intros [A B]. pose proof (has_byte_inj _ _ _ _ H1 A). pose proof (has_byte_inj _ _ _ _ H2 B). dlia.
Qed.

Lemma ip_udp_iff pkt i :
  parse_iphdr pkt 14 = Ok i → 34 ≤ data_end pkt →
  ∃ b, has_byte pkt 14 b ∧
    (p_ret i = IPPROTO_UDP ↔
     34 ≤ 14 + Z.land b 0x0F * 4 ≤ data_end pkt ∧ has_byte pkt 23 IPPROTO_UDP) ∧
    (p_ret i = IPPROTO_UDP → p_pos i = 14 + Z.land b 0x0F * 4).
Proof.
  intros E Hl. unfold parse_iphdr, sizeof_iphdr in E. rewrite (proj2 (Z.ltb_ge _ _)) in E by lia.
  unfold data_end in Hl. destruct (byte_at_ok pkt 14) as [b Hb]; [lia|]. rewrite Hb in E. cbn [mbind res_bind] in E.
  exists b. split; [by apply byte_at_has|].
  destruct (Z.ltb_spec (Z.land b 0x0F * 4) 20) as [H1|H1]; [injection E as <-; cbn; split; [split; [done|lia]|done]|].
  destruct (Z.ltb_spec (data_end pkt) (14 + Z.land b 0x0F * 4)) as [H2|H2];
    [injection E as <-; cbn; split; [split; [done|lia]|done]|].
  destruct (byte_at_ok pkt 23) as [c Hc]; [lia|]. change (14 + 9) with 23 in E. rewrite Hc in E. injection E as <-.
  cbn [p_ret p_pos]. apply byte_at_has in Hc. split; [|done]. split.
  - intros ->. split; [lia|done].
  - intros [_ H]. by eapply has_byte_inj.
Qed.

Lemma pktgen_iff pkt n l :
  Forall (λ b, 0 ≤ b < 256) pkt → 0 ≤ n → Filter.parse_pktgenhdr pkt n = Ok l →
  (p_ret l = 1 ↔ n + 16 ≤ data_end pkt ∧ has_byte pkt n 0xBE ∧ has_byte pkt (n + 1) 0x9B ∧
                 has_byte pkt (n + 2) 0xE9 ∧ has_byte pkt (n + 3) 0x55).
Proof.
  intros Hb Hn E. unfold Filter.parse_pktgenhdr, Filter.sizeof_pktgen_hdr in E.
  destruct (Z.ltb_spec (data_end pkt) (n + 16)) as [H1|H1]; [injection E as <-; cbn; split; [done|lia]|].
  unfold load32 in E. unfold data_end in H1.
  destruct (load16_ok pkt n) as [lo Hlo]; [lia..|]. destruct (load16_ok pkt (n + 2)) as [hi Hhi]; [lia..|].
  rewrite Hlo, Hhi in E. cbn [mbind res_bind] in E. injection E as <-. cbn [p_ret].
  pose proof (load16_has pkt n lo Hb Hlo) as [A B]. pose proof (load16_has pkt (n + 2) hi Hb Hhi) as [C D].
  replace (n + 2 + 1) with (n + 3) in D by lia.
  assert (0 ≤ lo < 65536 ∧ 0 ≤ hi < 65536) as [Rl Rh].
  { rewrite Forall_lookup in Hb. pose proof (Hb _ _ (proj2 A)). pose proof (Hb _ _ (proj2 B)).
    pose proof (Hb _ _ (proj2 C)). pose proof (Hb _ _ (proj2 D)). dlia. }
  rewrite lor_shiftl_add by lia. change (2 ^ 16) with 65536. unfold Filter.pktgen_magic, data_end.
  destruct (Z.eqb_spec (lo + hi * 65536) 0x55E99BBE) as [Heq|Hne].
  - assert (lo = 0x9BBE ∧ hi = 0x55E9) as [-> ->] by lia. split; [|done]. intros _. by split_and!.
  - split; [done|]. intros (_ & A' & B' & C' & D'). destruct Hne.
    pose proof (has_byte_inj _ _ _ _ A A'). pose proof (has_byte_inj _ _ _ _ B B').
    pose proof (has_byte_inj _ _ _ _ C C'). pose proof (has_byte_inj _ _ _ _ D D'). dlia.
Qed.

(** C18: The filter of the flow monitor redirects exactly the pktgen datagrams of
    the queues that have a socket, and passes everything else to the kernel. *)
Theorem filter_redirects_pktgen redirect xsks pkt q :
  Forall (λ b, 0 ≤ b < 256) pkt →
  ∃ a, Filter.xdp_sock_prog redirect xsks (XdpMd pkt q) = Ok a ∧
    (is_pktgen pkt → xsks q = true → a = redirect q 0) ∧
    (¬ is_pktgen pkt ∨ xsks q = false → a = XDP_PASS).
Proof.
  intros Hb. unfold Filter.xdp_sock_prog. cbn [ctx_data rx_queue_index].
  destruct (parse_ethhdr_plain_ok pkt 0 ltac:(lia)) as (e & Ee & _). rewrite Ee. cbn [mbind res_bind].
  destruct (eth_ipv4_iff pkt e Hb Ee) as [He Hpos].
  destruct (Z.eqb_spec (p_ret e) (bpf_htons 0x0800)) as [H4|H4]; cbn [negb]; last first.
  { exists XDP_PASS. split; [done|]. split; [|done]. intros (b & n & A & B & _). by destruct H4; apply He. }
  rewrite (Hpos H4). destruct (parse_iphdr_ok pkt 14 ltac:(lia)) as (i & Ei & _). rewrite Ei. cbn [mbind res_bind].
  destruct (Z.leb_spec 34 (data_end pkt)) as [Hl|Hl]; last first.
  { assert (i = Parsed (-1) 14 None) as ->.
    { unfold parse_iphdr in Ei. rewrite (proj2 (Z.ltb_lt _ _)) in Ei by (unfold sizeof_iphdr; lia). congruence. }
    exists XDP_PASS. split; [done|]. split; [|done]. intros (b & n & _ & _ & _ & _ & ? & ? & _). lia. }
  destruct (ip_udp_iff pkt i Ei Hl) as (b & Hhb & Hudp & Hip).
  destruct (Z.eqb_spec (p_ret i) IPPROTO_UDP) as [Hu|Hu]; last first.
  { exists XDP_PASS. split; [done|]. split; [|done].
    intros (b' & n & _ & _ & Hb' & -> & H34 & Hle & Hp & _). rewrite (has_byte_inj _ _ _ _ Hb' Hhb) in *.
    destruct Hu. apply Hudp. split; [lia|done]. }
  rewrite (Hip Hu). set (n := 14 + Z.land b 0x0F * 4) in *. destruct (proj1 Hudp Hu) as [Hn Hp].
  destruct (parse_udphdr_ok pkt n ltac:(lia)) as (u & Eu & _). rewrite Eu. cbn [mbind res_bind].
  assert (p_pos u = n + 8 ∨ (p_pos u = n ∧ data_end pkt < n + 8)) as Hup.
  { unfold parse_udphdr, sizeof_udphdr in Eu. destruct (Z.ltb_spec (data_end pkt) (n + 8)).
    - injection Eu as <-. by right.
    - destruct (load16 pkt (n + 4)); [|done]. injection Eu as <-. by left. }
  destruct (parse_pktgenhdr_ok pkt (p_pos u) ltac:(lia)) as (l & El & _). rewrite El. cbn [mbind res_bind].
  pose proof (pktgen_iff pkt (p_pos u) l Hb ltac:(lia) El) as Hpk.
  assert (p_ret l = 1 ↔ is_pktgen pkt) as Hiff.
  { rewrite Hpk. split.
    - intros (Hle & B1 & B2 & B3 & B4). destruct Hup as [Hup|[Hup Hs]]; [|lia]. rewrite Hup in *.
      exists b, n. replace (n + 9) with (n + 8 + 1) by lia. replace (n + 10) with (n + 8 + 2) by lia.
      replace (n + 11) with (n + 8 + 3) by lia. destruct (proj1 He H4). split_and!; try done; lia.
    - intros (b' & n' & _ & _ & Hb' & Hn' & H34 & Hle & _ & B1 & B2 & B3 & B4).
      rewrite (has_byte_inj _ _ _ _ Hb' Hhb) in Hn'. fold n in Hn'. subst n'.
      destruct Hup as [Hup|[Hup Hs]]; [|lia]. rewrite Hup.
      replace (n + 8 + 1) with (n + 9) by lia. replace (n + 8 + 2) with (n + 10) by lia.
      replace (n + 8 + 3) with (n + 11) by lia. split_and!; try done; lia. }
  destruct (Z.eqb_spec (p_ret l) 1) as [H1|H1].
  - destruct (xsks q) eqn:Hq; eexists; (split; [reflexivity|]); split; try done.
    intros [Hno|?]; [|done]. by destruct Hno; apply Hiff.
  - exists XDP_PASS. split; [done|]. split; [|done]. intros Hyes. by destruct H1; apply Hiff.
Qed.

(** ** VLAN tags *)

Section vlan.
(** [bpf_xdp_adjust_head] moves the start of the packet: forward it drops bytes,
    and succeeds while an Ethernet header remains; backward it puts bytes of any
    value in front, if the driver has room. *)
Variable adjust : buffer → Z → option buffer.
Hypothesis adjust_forward : ∀ pkt n,
  0 ≤ n → n + sizeof_ethhdr ≤ data_end pkt → adjust pkt n = Some (drop (Z.to_nat n) pkt).
Hypothesis adjust_backward : ∀ pkt n pkt',
  n < 0 → adjust pkt n = Some pkt' → ∃ junk, Z.of_nat (length junk) = - n ∧ pkt' = junk ++ pkt.

Lemma eth_load macs ty rest :
  length macs = 12%nat → length ty = 2%nat →
  pkt_load (macs ++ ty ++ rest) 0 sizeof_ethhdr = Ok (macs ++ ty).
Proof.
  intros Hm Ht. pose proof (pkt_load_app [] (macs ++ ty) rest 0 eq_refl) as H. cbn [app] in H.
  rewrite length_app, Hm, Ht, <-(assoc_L (++)) in H. exact H.
Qed.

Lemma store_at p old bs c i :
  Z.of_nat (length p) = i → length bs = length old →
  pkt_store (p ++ old ++ c) i bs = Ok (p ++ bs ++ c).
Proof. apply pkt_store_app. Qed.

Lemma load16_at p a b c i :
  Z.of_nat (length p) = i → load16 (p ++ [a; b] ++ c) i = Ok (Z.lor a (Z.shiftl b 8)).
Proof.
  intros <-. replace (Z.of_nat (length p)) with (Z.of_nat (length p) + Z.of_nat 0) by lia.
  by apply (load16_drop _ _ ([a; b] ++ c)); [apply drop_app_length|..].
Qed.

Lemma bytes16_htons v : bytes16 (bpf_htons v) = be16 (u16 v).
Proof.
  unfold bytes16, bpf_htons, be16. pose proof (u16_range v). set (x := u16 v) in *. clearbody x.
  unfold ntohs. rewrite !land_255, !Z.shiftr_div_pow2 by lia. change (2 ^ 8) with 256.
  rewrite !shiftl_lor_add by dlia. change (2 ^ 8) with 256. f_equal; [dlia|]. f_equal. dlia.
Qed.

(** The header is put back in front of the old bytes, of which four remain. *)
Lemma header_restored macs ty rest junk :
  length macs = 12%nat → length ty = 2%nat → length junk = 4%nat →
  ∃ x y, length x = 2%nat ∧ length y = 2%nat ∧
    pkt_store (junk ++ macs ++ ty ++ rest) 0 (macs ++ ty) = Ok (macs ++ ty ++ x ++ y ++ rest).
Proof.
  intros Hm Ht Hj. exists (drop 10 macs), ty. split; [rewrite length_drop; lia|]. split; [done|].
  replace (junk ++ macs ++ ty ++ rest) with ([] ++ (junk ++ take 10 macs) ++ (drop 10 macs ++ ty ++ rest)).
  - rewrite (store_at [] (junk ++ take 10 macs)).
    + by rewrite <-(assoc_L (++)).
    + done.
    + rewrite !length_app, length_take. lia.
  - rewrite app_nil_l, <-(assoc_L (++)). f_equal. by rewrite (assoc_L (++)), take_drop.
Qed.

Lemma vlan_tag_push_spec macs ty rest vlid :
  length macs = 12%nat → octets 2 ty →
  let pkt := macs ++ ty ++ rest in
  vlan_tag_push adjust pkt 0 vlid =
    match adjust pkt (- sizeof_vlan_hdr) with
    | None => Ok (pkt, -1)
    | Some _ => Ok (macs ++ [0x81; 0] ++ be16 (u16 vlid) ++ ty ++ rest, 0)
    end.
Proof.
  intros Hm [Ht Hb] pkt. unfold vlan_tag_push, pkt. rewrite eth_load by done. cbn [mbind res_bind].
  change (0 - sizeof_vlan_hdr) with (- sizeof_vlan_hdr). destruct (adjust _ _) as [p|] eqn:Ea; [|done].
  apply adjust_backward in Ea as (junk & Hj & ->); [|unfold sizeof_vlan_hdr; lia].
  unfold sizeof_vlan_hdr in Hj.
  rewrite (proj2 (Z.ltb_ge _ _)) by (unfold data_end, sizeof_ethhdr; rewrite !length_app; lia).
  destruct (header_restored macs ty rest junk) as (x & y & Hx & Hy & ->); [done|done|lia|]. cbn [mbind res_bind].
  rewrite (proj2 (Z.ltb_ge _ _)) by (unfold data_end, sizeof_ethhdr, sizeof_vlan_hdr; rewrite !length_app; lia).
  rewrite (assoc_L (++) macs ty), (store_at (macs ++ ty) x)
    by (unfold sizeof_ethhdr; rewrite ?length_app, ?bytes16_htons; cbn; lia).
  cbn [mbind res_bind].
  destruct ty as [|a [|b []]]; try done. apply Forall_cons in Hb as [Ha Hb]. apply Forall_cons in Hb as [Hb _].
  rewrite <-(assoc_L (++) macs [a; b]), (load16_at macs) by lia. cbn [mbind res_bind]. rewrite bytes16_lor by done.
  replace (macs ++ [a; b] ++ bytes16 (bpf_htons vlid) ++ y ++ rest)
    with ((macs ++ [a; b] ++ bytes16 (bpf_htons vlid)) ++ y ++ rest) by (by rewrite <-!(assoc_L (++))).
  rewrite (store_at _ y) by (unfold sizeof_ethhdr; rewrite ?length_app; cbn; lia). cbn [mbind res_bind].
  rewrite <-!(assoc_L (++)), (store_at macs [a; b]) by (try lia; done). cbn [mbind res_bind].
  by rewrite !bytes16_htons.
Qed.

Lemma vlan_tag_pop_spec macs tci ty rest :
  length macs = 12%nat → 0 ≤ tci < 2 ^ 16 → octets 2 ty →
  vlan_tag_pop adjust (macs ++ [0x81; 0] ++ be16 tci ++ ty ++ rest) 0 = Ok (macs ++ ty ++ rest, tci).
Proof.
  intros Hm Ht [Hty Hb]. destruct ty as [|a [|b []]]; try done.
  apply Forall_cons in Hb as [Ha Hb]. apply Forall_cons in Hb as [Hb _].
  set (pkt := macs ++ [0x81; 0] ++ be16 tci ++ [a; b] ++ rest).
  assert (load16 pkt (0 + 12) = Ok (Z.lor 0x81 (Z.shiftl 0 8))) as E1 by (apply load16_at; by rewrite Hm).
  assert (load16 pkt (0 + sizeof_ethhdr) = Ok (Z.lor (tci / 256) (Z.shiftl (tci mod 256) 8))) as E2.
  { unfold pkt. rewrite (assoc_L (++) macs). apply load16_at. rewrite length_app, Hm. done. }
  assert (load16 pkt (0 + sizeof_ethhdr + 2) = Ok (Z.lor a (Z.shiftl b 8))) as E3.
  { unfold pkt. rewrite (assoc_L (++) macs), (assoc_L (++) (macs ++ _)). apply load16_at. rewrite !length_app, Hm. done. }
  assert (pkt_load pkt 0 sizeof_ethhdr = Ok (macs ++ [0x81; 0])) as E4 by (by apply eth_load).
  assert (data_end pkt = 18 + Z.of_nat (length rest)) as Hlen
    by (unfold data_end, pkt; rewrite !length_app, Hm; cbn [length be16]; lia).
  assert (drop (Z.to_nat sizeof_vlan_hdr) pkt = drop 4 macs ++ [0x81; 0] ++ be16 tci ++ [a; b] ++ rest) as E5
    by (unfold pkt; change (Z.to_nat sizeof_vlan_hdr) with 4%nat; rewrite drop_app_le by lia; done).
  unfold vlan_tag_pop. rewrite E1. cbn [mbind res_bind].
  change (proto_is_vlan (Z.lor 0x81 (Z.shiftl 0 8))) with true. cbn [negb].
  rewrite (proj2 (Z.ltb_ge _ _)) by (unfold sizeof_ethhdr, sizeof_vlan_hdr; lia).
  rewrite E2, E3, E4. cbn [mbind res_bind].
  rewrite adjust_forward by (unfold sizeof_ethhdr, sizeof_vlan_hdr; lia). rewrite E5.
  rewrite (proj2 (Z.ltb_ge _ _)) by (unfold data_end, sizeof_ethhdr; rewrite !length_app, length_drop; cbn; lia).
  replace (drop 4 macs ++ [0x81; 0] ++ be16 tci ++ [a; b] ++ rest) with
    ([] ++ (drop 4 macs ++ [0x81; 0] ++ be16 tci ++ [a; b]) ++ rest) by (by rewrite app_nil_l, <-!(assoc_L (++))).
  rewrite (store_at [] (drop 4 macs ++ [0x81; 0] ++ be16 tci ++ [a; b]))
    by (rewrite ?length_app, ?length_drop; cbn; lia).
  cbn [mbind res_bind]. rewrite app_nil_l, <-(assoc_L (++)).
  rewrite (store_at macs [0x81; 0]) by (rewrite ?bytes16_lor by done; rewrite ?Hm; done).
  cbn [mbind res_bind]. rewrite bytes16_lor by done. do 2 f_equal. unfold bpf_ntohs.
  rewrite u16_small by (rewrite lor_shiftl_add; dlia). rewrite ntohs_swap by dlia. dlia.
Qed.

(** C19: A VLAN tag that is pushed is popped again: pushing returns 0 and puts the
    802.1Q tag with the low 16 bits of [vlid] behind the addresses, or returns
    -1 and changes nothing when the driver has no room; popping then returns
    those bits and gives the frame back. *)
Theorem vlan_push_pop macs ty rest vlid :
  length macs = 12%nat → octets 2 ty →
  (adjust (macs ++ ty ++ rest) (- sizeof_vlan_hdr) = None →
     vlan_tag_push adjust (macs ++ ty ++ rest) 0 vlid = Ok (macs ++ ty ++ rest, -1)) ∧
  (adjust (macs ++ ty ++ rest) (- sizeof_vlan_hdr) ≠ None →
     ∃ pkt, vlan_tag_push adjust (macs ++ ty ++ rest) 0 vlid = Ok (pkt, 0) ∧
       pkt = macs ++ [0x81; 0] ++ be16 (u16 vlid) ++ ty ++ rest ∧
       vlan_tag_pop adjust pkt 0 = Ok (macs ++ ty ++ rest, u16 vlid)).
Proof.
  intros Hm Ht. pose proof (vlan_tag_push_spec macs ty rest vlid Hm Ht) as Hp. cbn zeta in Hp. split.
  - intros E. by rewrite E in Hp.
  - intros E. destruct (adjust _ _); [|done]. eexists. split; [exact Hp|]. split; [done|].
    apply vlan_tag_pop_spec; [done|apply u16_range|done].
Qed.
End vlan.

(** A driver with room in front of the packet. *)
Definition roomy_adjust (pkt : buffer) (n : Z) : option buffer :=
  if n <? 0 then Some (replicate (Z.to_nat (- n)) 0 ++ pkt)
  else if n + sizeof_ethhdr <=? data_end pkt then Some (drop (Z.to_nat n) pkt) else None.

Lemma vlan_push_pop_witness :
  ∃ pkt, vlan_tag_push roomy_adjust (replicate 12 1 ++ [8; 0] ++ [7; 7]) 0 0x2005 = Ok (pkt, 0) ∧
    pkt = replicate 12 1 ++ [0x81; 0] ++ be16 (u16 0x2005) ++ [8; 0] ++ [7; 7] ∧
    vlan_tag_pop roomy_adjust pkt 0 = Ok (replicate 12 1 ++ [8; 0] ++ [7; 7], u16 0x2005).
Proof.
  apply (vlan_push_pop roomy_adjust).
  - intros pkt n Hn Hl. unfold roomy_adjust. rewrite (proj2 (Z.ltb_ge _ _)) by done.
    by rewrite (proj2 (Z.leb_le _ _)).
  - intros pkt n pkt' Hn. unfold roomy_adjust. rewrite (proj2 (Z.ltb_lt _ _)) by done. intros [= <-].
    exists (replicate (Z.to_nat (- n)) 0). split; [rewrite length_replicate; lia|done].
  - done.
  - split; [done|]. repeat constructor; discriminate.
  - done.
Defined.

Lemma filter_redirects_pktgen_witness :
  ∃ a, Filter.xdp_sock_prog (λ _ _, XDP_REDIRECT) (λ _, true) (XdpMd (replicate 12 1 ++ [8; 0; 0x45] ++
      replicate 8 0 ++ [17] ++ replicate 10 0 ++ replicate 8 0 ++ [0xBE; 0x9B; 0xE9; 0x55] ++ replicate 12 0) 3) = Ok a ∧
    a = XDP_REDIRECT.
Proof.
  destruct (filter_redirects_pktgen (λ _ _, XDP_REDIRECT) (λ _, true) (replicate 12 1 ++ [8; 0; 0x45] ++
      replicate 8 0 ++ [17] ++ replicate 10 0 ++ replicate 8 0 ++ [0xBE; 0x9B; 0xE9; 0x55] ++ replicate 12 0) 3)
    as (a & E & H & _).
  { cbn. repeat constructor; discriminate. }
  exists a. split; [exact E|]. apply H; [|reflexivity].
  exists 0x45, 34. unfold has_byte. split_and!; try lia; try reflexivity.
Defined.
