(* ===== verification/Io.v ===== *)
(** * Code that calls the system: a state monad with exit

    The loader and the programs' [main] are sequences of calls of libbpf and of
    the system, whose state is a type [K].  [io K A] is such code: it gives the
    state it leaves, and a result or the fault that ended it ([ExitProgram] for
    a call of [exit]).  [wp] is its weakest precondition, with a rule per
    construct. *)

From S2P Require Import Prelude.

Definition io (K A : Type) : Type := K → res A * K.

#[global] Instance io_ret {K} : MRet (io K) := λ A a k, (Ok a, k).
#[global] Instance io_bind {K} : MBind (io K) := λ A B f m k,
  match m k with
  | (Ok a, k) => f a k
  | (Err e, k) => (Err e, k)
  end.

Section ops.
Context {K : Type}.

(** A call that changes the state, one that only changes it, and one that only
    reads it. *)
Definition call {A} (f : K → A * K) : io K A := λ k, let '(a, k) := f k in (Ok a, k).
Definition run (f : K → K) : io K unit := λ k, (Ok tt, f k).
Definition ask {A} (f : K → A) : io K A := λ k, (Ok (f k), k).

(** [exit(code)], and code that may fault but makes no call. *)
Definition exit_with {A} (code : Z) : io K A := λ k, (Err (ExitProgram code), k).
Definition pure_res {A} (r : res A) : io K A := λ k, (r, k).

(** A loop over the elements of a list, with the variables it changes. *)
Fixpoint for_each {A S} (l : list A) (body : A → S → io K S) (s : S) : io K S :=
  match l with
  | [] => mret s
  | a :: l => s ← body a s; for_each l body s
  end.

(** A loop that a [return] inside can leave. *)
Fixpoint for_each_or_return {A R} (l : list A) (body : A → io K (option R)) : io K (option R) :=
  match l with
  | [] => mret None
  | a :: l => r ← body a; match r with None => for_each_or_return l body | Some _ => mret r end
  end.

(** ** Weakest preconditions *)

Definition wp {A} (m : io K A) (Q : res A → K → Prop) (k : K) : Prop := Q (m k).1 (m k).2.

Lemma wp_ret {A} (a : A) Q k : Q (Ok a) k → wp (mret a) Q k.
Proof. done. Qed.

Lemma wp_bind {A B} (m : io K A) (f : A → io K B) Q k :
  wp m (λ r k, match r with Ok a => wp (f a) Q k | Err e => Q (Err e) k end) k →
  wp (m ≫= f) Q k.
Proof. unfold wp, mbind, io_bind. by destruct (m k) as [[a|e] k']. Qed.

Lemma wp_call {A} (f : K → A * K) Q k :
  (∀ a k', f k = (a, k') → Q (Ok a) k') → wp (call f) Q k.
Proof. unfold wp, call. destruct (f k) as [a k'] eqn:E. intros H. by apply H. Qed.

Lemma wp_run (f : K → K) Q k : Q (Ok tt) (f k) → wp (run f) Q k.
Proof. done. Qed.

Lemma wp_ask {A} (f : K → A) Q k : Q (Ok (f k)) k → wp (ask f) Q k.
Proof. done. Qed.

Lemma wp_exit {A} code (Q : res A → K → Prop) k : Q (Err (ExitProgram code)) k → wp (exit_with code) Q k.
Proof. done. Qed.

Lemma wp_pure {A} (r : res A) Q k : Q r k → wp (pure_res r) Q k.
Proof. done. Qed.

Lemma wp_mono {A} (m : io K A) (P Q : res A → K → Prop) k :
  wp m P k → (∀ r k', P r k' → Q r k') → wp m Q k.
Proof. unfold wp. auto. Qed.

(** Code whose result is known. *)
Lemma wp_eq {A} (m : io K A) (Q : res A → K → Prop) k r k' : m k = (r, k') → Q r k' → wp m Q k.
Proof. unfold wp. by intros ->. Qed.

(** What holds of every result is the postcondition. *)
Lemma wp_run_eq {A} (m : io K A) Q k r k' : wp m Q k → m k = (r, k') → Q r k'.
Proof. unfold wp. intros H E. by rewrite E in H. Qed.

(** The loop rule: [I] of the elements still to visit. *)
Lemma wp_for_each {A S} (I : list A → S → K → Prop) l (body : A → S → io K S) s k :
  (∀ a l s k, I (a :: l) s k →
     wp (body a s) (λ r k', ∃ s', r = Ok s' ∧ I l s' k') k) →
  I l s k →
  wp (for_each l body s) (λ r k', ∃ s', r = Ok s' ∧ I [] s' k') k.
Proof.
  intros Hbody. revert s k. induction l as [|a l IH]; intros s k HI.
  - apply wp_ret. eauto.
  - cbn [for_each]. apply wp_bind. eapply wp_mono; [by apply Hbody|].
    intros r k' (s' & -> & HI'). by apply IH.
Qed.

(** The loop rule without the elements. *)
Lemma wp_for_each_inv {A S} (I : S → K → Prop) l (body : A → S → io K S) s k :
  (∀ a s k, a ∈ l → I s k → wp (body a s) (λ r k', ∃ s', r = Ok s' ∧ I s' k') k) →
  I s k →
  wp (for_each l body s) (λ r k', ∃ s', r = Ok s' ∧ I s' k') k.
Proof.
  revert s k. induction l as [|a l IH]; intros s k Hbody HI; [apply wp_ret; eauto|].
  cbn [for_each]. apply wp_bind. eapply wp_mono; [apply Hbody; [left|done]|].
  intros r k' (s' & -> & HI'). apply IH; [|done]. intros a' s1 k1 Ha. apply Hbody. by right.
Qed.

Lemma wp_for_each_or_return {A R} (I : K → Prop) (l : list A) (body : A → io K (option R))
    (Q : res (option R) → K → Prop) k :
  (∀ a k, I k → wp (body a) (λ r k', (r = Ok None ∧ I k') ∨ ((∃ v, r = Ok (Some v)) ∧ Q r k')) k) →
  (∀ k, I k → Q (Ok None) k) →
  I k → wp (for_each_or_return l body) Q k.
Proof.
  intros Hbody Hend. revert k. induction l as [|a l IH]; intros k HI; [by apply wp_ret, Hend|].
  cbn [for_each_or_return]. apply wp_bind. eapply wp_mono; [by apply Hbody|].
  intros r k' [[-> HI']|[[v ->] HQ]]; [by apply IH|by apply wp_ret].
Qed.
End ops.

(** One step of the rules, as the code is written. *)
Ltac wp_step :=
  lazymatch goal with
  | |- wp (mbind _ _) _ _ => apply wp_bind
  | |- wp (mret _) _ _ => apply wp_ret
  | |- wp (run _) _ _ => apply wp_run
  | |- wp (ask _) _ _ => apply wp_ask
  | |- wp (exit_with _) _ _ => apply wp_exit
  | |- wp (pure_res _) _ _ => apply wp_pure
  | |- wp (call _) _ _ => apply wp_call; intros ? ? ?
  end.
Ltac wp_steps := repeat (wp_step; cbn beta iota).
