(* ===== verification/Config.v ===== *)
(** * The configuration the user-space programs share

    common_defines.h: [struct config] and the exit codes, and the flags of
    <linux/if_link.h> and <linux/if_xdp.h> the programs use.  A character array
    of the struct is the list of its bytes, of its length in C; [c_string] reads
    it up to its terminating zero. *)

From Stdlib Require Import Ascii.
From S2P Require Import Prelude.

(** ** Exit codes and flags *)

Definition EXIT_OK : Z := 0.
Definition EXIT_FAIL : Z := 1.
Definition EXIT_FAIL_OPTION : Z := 2.
Definition EXIT_FAIL_XDP : Z := 30.
Definition EXIT_FAIL_BPF : Z := 40.
Definition EXIT_FAILURE : Z := 1.

Definition XDP_FLAGS_UPDATE_IF_NOEXIST : Z := 1.
Definition XDP_FLAGS_SKB_MODE : Z := 2.
Definition XDP_FLAGS_DRV_MODE : Z := 4.
Definition XDP_FLAGS_HW_MODE : Z := 8.
Definition XDP_FLAGS_MODES : Z :=
  Z.lor XDP_FLAGS_SKB_MODE (Z.lor XDP_FLAGS_DRV_MODE XDP_FLAGS_HW_MODE).
Definition XDP_COPY : Z := 2.
Definition XDP_ZEROCOPY : Z := 4.
Definition IF_NAMESIZE : Z := 16.

(** ** Character arrays *)

(** [strncpy(dst, src, n)] into an array of [n] bytes: the bytes of the string,
    cut at [n], then zeros. *)
Definition strncpy (src : string) (n : Z) : list ascii :=
  let n := Z.to_nat n in take n (String.list_ascii_of_string src ++ replicate n zero).

(** The C string an array holds; without a zero in it the read goes past it. *)
Fixpoint c_string (buf : list ascii) : res string :=
  match buf with
  | [] => Err OutOfBounds
  | c :: buf => if Ascii.eqb c zero then Ok EmptyString else s ← c_string buf; Ok (String c s)
  end.

(** [a[0]] of a character array. *)
Definition first_char (buf : list ascii) : ascii := default zero (head buf).

(** [strlen(s)] *)
Definition strlen (s : string) : nat := length (String.list_ascii_of_string s).

(** A string without a zero byte, as every C string is. *)
Definition c_str (s : string) : bool :=
  forallb (λ c, negb (Ascii.eqb c zero)) (String.list_ascii_of_string s).

(** ** struct config *)

(** [char *ifname]: NULL, the array of the struct, or a string elsewhere. *)
Inductive name_ptr := NoName | OwnBuf | Elsewhere (s : string).

Record config := Config {
  xdp_flags : Z;               (** __u32 *)
  ifindex : Z;                 (** int *)
  ifname : name_ptr;
  ifname_buf : list ascii;     (** [IF_NAMESIZE] *)
  redirect_ifindex : Z;        (** int *)
  redirect_ifname : name_ptr;
  redirect_ifname_buf : list ascii;   (** [IF_NAMESIZE] *)
  do_unload : bool;
  reuse_maps : bool;
  pin_dir : list ascii;        (** [512] *)
  filename : list ascii;       (** [512] *)
  progsec : list ascii;        (** [32] *)
  src_mac : list ascii;        (** [18] *)
  dest_mac : list ascii;       (** [18] *)
  xsk_bind_flags : Z;          (** __u16 *)
  xsk_if_queue : Z;            (** int *)
  xsk_poll_mode : bool
}.

Definition sizeof_filename : Z := 512.
Definition sizeof_pin_dir : Z := 512.
Definition sizeof_progsec : Z := 32.
Definition sizeof_mac : Z := 18.

(** [struct config cfg = { .ifindex = i, .filename = "", .progsec = sec }]: the
    members not named are zero. *)
Definition config_init (ifi : Z) (sec : string) : config :=
  Config 0 ifi NoName (strncpy "" IF_NAMESIZE) 0 NoName (strncpy "" IF_NAMESIZE) false false
    (strncpy "" sizeof_pin_dir) (strncpy "" sizeof_filename) (strncpy sec sizeof_progsec)
    (strncpy "" sizeof_mac) (strncpy "" sizeof_mac) 0 0 false.

(** Assignments of members. *)
Definition with_xdp_flags (v : Z) (c : config) : config :=
  Config v (ifindex c) (ifname c) (ifname_buf c) (redirect_ifindex c) (redirect_ifname c)
    (redirect_ifname_buf c) (do_unload c) (reuse_maps c) (pin_dir c) (filename c) (progsec c)
    (src_mac c) (dest_mac c) (xsk_bind_flags c) (xsk_if_queue c) (xsk_poll_mode c).
Definition with_dev (buf : list ascii) (ifi : Z) (c : config) : config :=
  Config (xdp_flags c) ifi OwnBuf buf (redirect_ifindex c) (redirect_ifname c)
    (redirect_ifname_buf c) (do_unload c) (reuse_maps c) (pin_dir c) (filename c) (progsec c)
    (src_mac c) (dest_mac c) (xsk_bind_flags c) (xsk_if_queue c) (xsk_poll_mode c).
Definition with_redirect (buf : list ascii) (ifi : Z) (c : config) : config :=
  Config (xdp_flags c) (ifindex c) (ifname c) (ifname_buf c) ifi OwnBuf
    buf (do_unload c) (reuse_maps c) (pin_dir c) (filename c) (progsec c)
    (src_mac c) (dest_mac c) (xsk_bind_flags c) (xsk_if_queue c) (xsk_poll_mode c).
Definition with_switches (unload reuse poll : bool) (c : config) : config :=
  Config (xdp_flags c) (ifindex c) (ifname c) (ifname_buf c) (redirect_ifindex c) (redirect_ifname c)
    (redirect_ifname_buf c) unload reuse (pin_dir c) (filename c) (progsec c)
    (src_mac c) (dest_mac c) (xsk_bind_flags c) (xsk_if_queue c) poll.
Definition with_files (file sec : list ascii) (c : config) : config :=
  Config (xdp_flags c) (ifindex c) (ifname c) (ifname_buf c) (redirect_ifindex c) (redirect_ifname c)
    (redirect_ifname_buf c) (do_unload c) (reuse_maps c) (pin_dir c) file sec
    (src_mac c) (dest_mac c) (xsk_bind_flags c) (xsk_if_queue c) (xsk_poll_mode c).
Definition with_macs (src dest : list ascii) (c : config) : config :=
  Config (xdp_flags c) (ifindex c) (ifname c) (ifname_buf c) (redirect_ifindex c) (redirect_ifname c)
    (redirect_ifname_buf c) (do_unload c) (reuse_maps c) (pin_dir c) (filename c) (progsec c)
    src dest (xsk_bind_flags c) (xsk_if_queue c) (xsk_poll_mode c).
Definition with_bind_flags (v : Z) (c : config) : config :=
  Config (xdp_flags c) (ifindex c) (ifname c) (ifname_buf c) (redirect_ifindex c) (redirect_ifname c)
    (redirect_ifname_buf c) (do_unload c) (reuse_maps c) (pin_dir c) (filename c) (progsec c)
    (src_mac c) (dest_mac c) v (xsk_if_queue c) (xsk_poll_mode c).
Definition with_queue (v : Z) (c : config) : config :=
  Config (xdp_flags c) (ifindex c) (ifname c) (ifname_buf c) (redirect_ifindex c) (redirect_ifname c)
    (redirect_ifname_buf c) (do_unload c) (reuse_maps c) (pin_dir c) (filename c) (progsec c)
    (src_mac c) (dest_mac c) (xsk_bind_flags c) v (xsk_poll_mode c).
Definition with_ifname (p : name_ptr) (ifi : Z) (c : config) : config :=
  Config (xdp_flags c) ifi p (ifname_buf c) (redirect_ifindex c) (redirect_ifname c)
    (redirect_ifname_buf c) (do_unload c) (reuse_maps c) (pin_dir c) (filename c) (progsec c)
    (src_mac c) (dest_mac c) (xsk_bind_flags c) (xsk_if_queue c) (xsk_poll_mode c).

(** The string [cfg->ifname] points to. *)
Definition ifname_string (c : config) : res string :=
  match ifname c with
  | NoName => Err NullDeref
  | OwnBuf => c_string (ifname_buf c)
  | Elsewhere s => Ok s
  end.

(** ** Well-formed configurations *)

(** Every array has its length in C and every integer its width. *)
Record config_wf (c : config) : Prop := {
  wf_xdp_flags : 0 ≤ xdp_flags c < 2 ^ 32;
  wf_ifindex : - 2 ^ 31 ≤ ifindex c < 2 ^ 31;
  wf_ifname_buf : length (ifname_buf c) = Z.to_nat IF_NAMESIZE;
  wf_redirect_ifindex : - 2 ^ 31 ≤ redirect_ifindex c < 2 ^ 31;
  wf_redirect_ifname_buf : length (redirect_ifname_buf c) = Z.to_nat IF_NAMESIZE;
  wf_pin_dir : length (pin_dir c) = Z.to_nat sizeof_pin_dir;
  wf_filename : length (filename c) = Z.to_nat sizeof_filename;
  wf_progsec : length (progsec c) = Z.to_nat sizeof_progsec;
  wf_src_mac : length (src_mac c) = Z.to_nat sizeof_mac;
  wf_dest_mac : length (dest_mac c) = Z.to_nat sizeof_mac;
  wf_bind_flags : 0 ≤ xsk_bind_flags c < 2 ^ 16;
  wf_queue : - 2 ^ 31 ≤ xsk_if_queue c < 2 ^ 31
}.

(** ** Lemmas *)

Lemma strncpy_length s n : length (strncpy s n) = Z.to_nat n.
Proof. unfold strncpy. rewrite length_take, length_app, length_replicate. lia. Qed.

Lemma string_app_nil_r s : s +:+ "" = s.
Proof. induction s as [|c s IH]; [done|]. change (String c (s +:+ "") = String c s). by rewrite IH. Qed.

Lemma c_string_app s buf :
  c_str s = true →
  c_string (String.list_ascii_of_string s ++ buf) = (t ← c_string buf; Ok (s +:+ t)).
Proof.
  induction s as [|c s IH]; intros Hs; [cbn; by destruct (c_string buf)|].
  cbn in Hs. apply andb_true_iff in Hs as [Hc Hs]. cbn.
  destruct (Ascii.eqb c zero); [done|]. unfold c_str in IH. rewrite (IH Hs).
  by destruct (c_string buf).
Qed.

Lemma c_string_unterminated l :
  forallb (λ c, negb (Ascii.eqb c zero)) l = true → c_string l = Err OutOfBounds.
Proof.
  induction l as [|c l IH]; [done|]. cbn. intros [Hc Hl]%andb_true_iff.
  destruct (Ascii.eqb c zero); [done|]. by rewrite (IH Hl).
Qed.

(** [strncpy] gives the string back when it fits with its terminator, and leaves
    an array without a terminator when it does not. *)
Lemma c_string_strncpy s n :
  c_str s = true →
  c_string (strncpy s n) =
    if Z.of_nat (strlen s) <? n then Ok s else Err OutOfBounds.
Proof.
  intros Hs. unfold strncpy, strlen. set (l := String.list_ascii_of_string s).
  destruct (Z.ltb_spec (Z.of_nat (length l)) n) as [Hlt|Hge].
  - rewrite take_app_ge by lia. unfold l at 1. rewrite c_string_app by done. rewrite take_replicate.
    rewrite Nat.min_l by lia. destruct (Z.to_nat n - length l)%nat eqn:E; [lia|].
    cbn. by rewrite string_app_nil_r.
  - rewrite take_app_le by lia. apply c_string_unterminated.
    unfold c_str in Hs. apply forallb_forall. intros c Hc. rewrite forallb_forall in Hs.
    apply Hs. fold l. rewrite <-(take_drop (Z.to_nat n) l). apply in_or_app. by left.
Qed.
