(* ===== verification/CmdLine.v ===== *)
(** * The command line: common_params.c

    The table of options, the help text and the parser that fills
    [struct config].  [getopt_long], [if_nametoindex] and [malloc] are arguments:
    [getopt_long] gives the successive values it returns before -1, each with
    [optarg] ([None] for NULL). *)

From Stdlib Require Import Ascii.
From S2P Require Import Prelude Config.

(** ** Data *)

(** struct option of <getopt.h>; [flag] is NULL in every table. *)
Inductive arg_kind := no_argument | required_argument.
Record option_entry := Opt {
  name : option string; has_arg : arg_kind; val : Z
}.

Record option_wrapper := Wrap {
  opt : option_entry;
  help : string;
  metavar : option string;
  required : bool
}.

Definition BUFSIZE : Z := 30.

(** ** The text of the options *)

(** [s] without the characters after the first [n], as [snprintf] leaves it in a
    buffer of [n + 1]. *)
Definition cut (n : Z) (s : string) : string :=
  String.string_of_list_ascii (take (Z.to_nat n) (String.list_ascii_of_string s)).

(** [snprintf(&buf[pos], BUFSIZE - pos, ...)] after the first [snprintf] gave
    [pos]: a [pos] past the buffer makes the size wrap around, and the text goes
    outside. *)
Definition option_label (nm : string) (mv : option string) : res string :=
  let first := " --" +:+ nm in
  let pos := Z.of_nat (strlen first) in
  match mv with
  | None => Ok (cut (BUFSIZE - 1) first)
  | Some m =>
    if BUFSIZE <? pos then Err OutOfBounds
    else Ok (cut (BUFSIZE - 1) (first +:+ " " +:+ m))
  end.

(** [printf("%-22s", s)] *)
Definition pad22 (s : string) : string :=
  s +:+ String.string_of_list_ascii (replicate (22 - strlen s) " "%char).

Definition newline : string := String (ascii_of_nat 10) EmptyString.

(** One line of the help. *)
Definition option_line (w : option_wrapper) (nm : string) : res string :=
  label ← option_label nm (metavar w);
  let short := if 64 <? val (opt w)
               then " -" +:+ String (ascii_of_nat (Z.to_nat (val (opt w)))) "," else "    " in
  Ok (short +:+ pad22 label +:+ "  " +:+ help w +:+ newline).

(** The table ends at an entry without a name; without one the loop goes past it. *)
Fixpoint _print_options (long_options : list option_wrapper) (req : bool) : res string :=
  match long_options with
  | [] => Err OutOfBounds
  | w :: rest =>
    match name (opt w) with
    | None => Ok ""
    | Some nm =>
      if negb (Bool.eqb (required w) req) then _print_options rest req
      else
        l ← option_line w nm;
        t ← _print_options rest req;
        Ok (l +:+ t)
    end
  end.

Definition usage (prog_name doc : string) (long_options : list option_wrapper) (full : bool) : res string :=
  let head := "Usage: " +:+ prog_name +:+ " [options]" +:+ newline in
  if negb full then Ok (head +:+ "Use --help (or -h) to see full option list." +:+ newline)
  else
    req ← _print_options long_options true;
    others ← _print_options long_options false;
    Ok (head +:+ newline +:+ "DOCUMENTATION:" +:+ newline +:+ " " +:+ doc +:+ newline
        +:+ "Required options:" +:+ newline +:+ req +:+ newline
        +:+ "Other options:" +:+ newline +:+ others +:+ newline).

(** ** The table given to getopt_long *)

(** The loop that counts the entries. *)
Fixpoint count_options (wrapper : list option_wrapper) : res nat :=
  match wrapper with
  | [] => Err OutOfBounds
  | w :: rest =>
    match name (opt w) with
    | None => Ok 0%nat
    | Some _ => n ← count_options rest; Ok (S n)
    end
  end.

(** The copy has one entry per named entry, and none after them; [None] is -1. *)
Definition option_wrappers_to_options (malloc_ok : bool) (wrapper : list option_wrapper) :
  res (option (list option_entry)) :=
  num ← count_options wrapper;
  if negb malloc_ok then Ok None else Ok (Some (opt <$> take num wrapper)).

(** ** Numbers *)

Definition is_space (c : ascii) : bool :=
  let n := Z.of_nat (nat_of_ascii c) in (n =? 32) || ((9 <=? n) && (n <=? 13)).
Definition digit (c : ascii) : option Z :=
  let n := Z.of_nat (nat_of_ascii c) in
  if (48 <=? n) && (n <=? 57) then Some (n - 48) else None.

Fixpoint digits (acc : Z) (s : list ascii) : Z :=
  match s with
  | c :: s => match digit c with Some d => digits (acc * 10 + d) s | None => acc end
  | [] => acc
  end.
Fixpoint skip_spaces (s : list ascii) : list ascii :=
  match s with c :: s' => if is_space c then skip_spaces s' else s | [] => [] end.

(** [atoi]: [strtol] in base 10, which saturates at the limits of [long], as an
    [int]. *)
Definition atoi (s : string) : Z :=
  let l := skip_spaces (String.list_ascii_of_string s) in
  let n := match l with
           | c :: l' =>
             if Ascii.eqb c "-" then - digits 0 l'
             else if Ascii.eqb c "+" then digits 0 l' else digits 0 l
           | [] => 0
           end in
  s32 (Z.max (- 2 ^ 63) (Z.min (2 ^ 63 - 1) n)).

(** ** The parser *)

(** A [__u32] or [__u16] without the bits of [m]. *)
Definition clear32 (x m : Z) : Z := Z.land x (u32 (Z.lnot m)).

Definition chr (c : ascii) : Z := Z.of_nat (nat_of_ascii c).

Section parse.
Variable if_nametoindex : string → Z.

(** [strlen(optarg)], [strncpy(..., optarg, ...)] and [atoi(optarg)] of a NULL
    [optarg]. *)
Definition with_optarg {A} (optarg : option string) (f : string → res A) : res A :=
  match optarg with Some s => f s | None => Err NullDeref end.

(** What one option does: the configuration and [verbose] it leaves, or [None]
    for [goto error] and the default case. *)
Definition parse_option (o : Z) (optarg : option string) (cfg : config) (verbose : Z) :
  res (option (config * Z)) :=
  if o =? chr "d" then
    with_optarg optarg (λ a,
      if IF_NAMESIZE <=? Z.of_nat (strlen a) then Ok None
      else
        nm ← c_string (strncpy a IF_NAMESIZE);
        let cfg := with_dev (strncpy a IF_NAMESIZE) (s32 (if_nametoindex nm)) cfg in
        if ifindex cfg =? 0 then Ok None else Ok (Some (cfg, verbose)))
  else if o =? chr "r" then
    with_optarg optarg (λ a,
      if IF_NAMESIZE <=? Z.of_nat (strlen a) then Ok None
      else
        nm ← c_string (strncpy a IF_NAMESIZE);
        let cfg := with_redirect (strncpy a IF_NAMESIZE) (s32 (if_nametoindex nm)) cfg in
        if redirect_ifindex cfg =? 0 then Ok None else Ok (Some (cfg, verbose)))
  else if o =? chr "A" then
    Ok (Some (with_xdp_flags (clear32 (xdp_flags cfg) XDP_FLAGS_MODES) cfg, verbose))
  else if o =? chr "S" then
    let cfg := with_xdp_flags
      (Z.lor (clear32 (xdp_flags cfg) XDP_FLAGS_MODES) XDP_FLAGS_SKB_MODE) cfg in
    Ok (Some (with_bind_flags (Z.lor (Z.land (xsk_bind_flags cfg) XDP_ZEROCOPY) XDP_COPY) cfg, verbose))
  else if o =? chr "N" then
    Ok (Some (with_xdp_flags
      (Z.lor (clear32 (xdp_flags cfg) XDP_FLAGS_MODES) XDP_FLAGS_DRV_MODE) cfg, verbose))
  else if o =? 3 then
    Ok (Some (with_xdp_flags
      (Z.lor (clear32 (xdp_flags cfg) XDP_FLAGS_MODES) XDP_FLAGS_HW_MODE) cfg, verbose))
  else if o =? chr "F" then
    Ok (Some (with_xdp_flags (clear32 (xdp_flags cfg) XDP_FLAGS_UPDATE_IF_NOEXIST) cfg, verbose))
  else if o =? chr "M" then
    Ok (Some (with_switches (do_unload cfg) true (xsk_poll_mode cfg) cfg, verbose))
  else if o =? chr "U" then
    Ok (Some (with_switches true (reuse_maps cfg) (xsk_poll_mode cfg) cfg, verbose))
  else if o =? chr "p" then
    Ok (Some (with_switches (do_unload cfg) (reuse_maps cfg) true cfg, verbose))
  else if o =? chr "q" then Ok (Some (cfg, 0))
  else if o =? chr "Q" then
    with_optarg optarg (λ a, Ok (Some (with_queue (atoi a) cfg, verbose)))
  else if o =? 1 then
    with_optarg optarg (λ a, Ok (Some (with_files (strncpy a sizeof_filename) (progsec cfg) cfg, verbose)))
  else if o =? 2 then
    with_optarg optarg (λ a, Ok (Some (with_files (filename cfg) (strncpy a sizeof_progsec) cfg, verbose)))
  else if o =? chr "L" then
    with_optarg optarg (λ a, Ok (Some (with_macs (strncpy a sizeof_mac) (dest_mac cfg) cfg, verbose)))
  else if o =? chr "R" then
    with_optarg optarg (λ a, Ok (Some (with_macs (src_mac cfg) (strncpy a sizeof_mac) cfg, verbose)))
  else if o =? chr "c" then
    Ok (Some (with_bind_flags (Z.lor (Z.land (xsk_bind_flags cfg) XDP_ZEROCOPY) XDP_COPY) cfg, verbose))
  else if o =? chr "z" then
    Ok (Some (with_bind_flags (Z.lor (Z.land (xsk_bind_flags cfg) XDP_COPY) XDP_ZEROCOPY) cfg, verbose))
  else Ok None.

(** The while loop over the values of [getopt_long]; [full_help] is set by h. *)
Fixpoint parse_options (argv0 doc : string) (table : list option_wrapper)
    (opts : list (Z * option string)) (cfg : config) (verbose : Z) : res (config * Z) :=
  match opts with
  | [] => Ok (cfg, verbose)
  | (o, optarg) :: opts =>
    r ← parse_option o optarg cfg verbose;
    match r with
    | Some (cfg, verbose) => parse_options argv0 doc table opts cfg verbose
    | None =>
      _ ← usage argv0 doc table (o =? chr "h");
      Err (ExitProgram EXIT_FAIL_OPTION)
    end
  end.

Variable getopt_long : list string → string → list option_entry → list (Z * option string).
Variable malloc_ok : bool.

Definition parse_cmdline_args (argv : list string) (options_wrapper : list option_wrapper)
    (cfg : config) (doc : string) (verbose : Z) : res (config * Z) :=
  r ← option_wrappers_to_options malloc_ok options_wrapper;
  match r with
  | None => Err (ExitProgram EXIT_FAIL_OPTION)
  | Some long_options =>
    parse_options (default "" (head argv)) doc options_wrapper
      (getopt_long argv "hd:r:L:R:ASNFUMQ:czpq" long_options) cfg verbose
  end.
End parse.

(** ** The options of af_xdp_user.c *)

Definition long_options : list option_wrapper :=
  [ Wrap (Opt (Some "help") no_argument (chr "h")) "Show help" None false;
    Wrap (Opt (Some "dev") required_argument (chr "d")) "Operate on device <ifname>" (Some "<ifname>") true;
    Wrap (Opt (Some "skb-mode") no_argument (chr "S"))
      "Install XDP program in SKB (AKA generic) mode" None false;
    Wrap (Opt (Some "native-mode") no_argument (chr "N")) "Install XDP program in native mode" None false;
    Wrap (Opt (Some "auto-mode") no_argument (chr "A")) "Auto-detect SKB or native mode" None false;
    Wrap (Opt (Some "force") no_argument (chr "F"))
      "Force install, replacing existing program on interface" None false;
    Wrap (Opt (Some "copy") no_argument (chr "c")) "Force copy mode" None false;
    Wrap (Opt (Some "zero-copy") no_argument (chr "z")) "Force zero-copy mode" None false;
    Wrap (Opt (Some "queue") required_argument (chr "Q"))
      "Configure interface receive queue for AF_XDP, default=0" None false;
    Wrap (Opt (Some "poll-mode") no_argument (chr "p"))
      "Use the poll() API waiting for packets to arrive" None false;
    Wrap (Opt (Some "unload") no_argument (chr "U")) "Unload XDP program instead of loading" None false;
    Wrap (Opt (Some "quiet") no_argument (chr "q")) "Quiet mode (no output)" None false;
    Wrap (Opt (Some "filename") required_argument 1) "Load program from <file>" (Some "<file>") false;
    Wrap (Opt (Some "progsec") required_argument 2)
      "Load program in <section> of the ELF file" (Some "<section>") false;
    Wrap (Opt None no_argument 0) "" None false ].
