(* ===== verification/CmdLineProps.v ===== *)
(** * Properties of the command line *)

From Stdlib Require Import Ascii.
From S2P Require Import Prelude Config CmdLine.

(** ** Definitions of the statements *)

(** The options of the short list and of the table that take an argument. *)
Definition takes_arg (o : Z) : bool :=
  existsb (Z.eqb o) [chr "d"; chr "r"; chr "L"; chr "R"; chr "Q"; 1; 2].

(** What getopt_long promises: an option that takes an argument comes with one,
    and an argument is a C string. *)
Definition opts_ok (opts : list (Z * option string)) : Prop :=
  Forall (λ oa, takes_arg oa.1 = true → ∃ s, oa.2 = Some s ∧ c_str s = true) opts.

(** The mode an option of the command line asks for. *)
Definition mode_of_option (o : Z) : option Z :=
  if o =? chr "A" then Some 0
  else if o =? chr "S" then Some XDP_FLAGS_SKB_MODE
  else if o =? chr "N" then Some XDP_FLAGS_DRV_MODE
  else if o =? 3 then Some XDP_FLAGS_HW_MODE
  else None.

(** The mode of the last option that asks for one, [m] when none does. *)
Definition last_mode (m : Z) (opts : list (Z * option string)) : Z :=
  fold_left (λ m oa, default m (mode_of_option oa.1)) opts m.

Definition given (os : list Z) (opts : list (Z * option string)) : bool :=
  existsb (λ oa, existsb (Z.eqb oa.1) os) opts.

(** At most one mode. *)
Definition one_mode (flags : Z) : Prop :=
  Z.land flags XDP_FLAGS_MODES ∈ [0; XDP_FLAGS_SKB_MODE; XDP_FLAGS_DRV_MODE; XDP_FLAGS_HW_MODE].

(** The table has a terminator, and every label fits the buffer. *)
Definition table_ok (t : list option_wrapper) : bool :=
  match usage "" "" t true with Ok _ => true | Err _ => false end.

(** ** Flags *)

Lemma land_set_bits x keep m v :
  Z.land keep m = 0 → Z.land v m = v → Z.land (Z.lor (Z.land x keep) v) m = v.
Proof. intros Hk Hv. by rewrite Z.land_lor_distr_l, <-Z.land_assoc, Hk, Z.land_0_r, Z.lor_0_l. Qed.

Lemma land_keep_bits x keep m v :
  Z.land keep m = m → Z.land v m = 0 → Z.land (Z.lor (Z.land x keep) v) m = Z.land x m.
Proof. intros Hk Hv. by rewrite Z.land_lor_distr_l, <-Z.land_assoc, Hk, Hv, Z.lor_0_r. Qed.

(** ** Assignments keep the types *)

Lemma s32_range x : - 2 ^ 31 ≤ s32 x < 2 ^ 31.
Proof. unfold s32. pose proof (u32_range x). destruct (Z.ltb_spec (u32 x) (2 ^ 31)); lia. Qed.

Ltac wf_tac := intros []; split; cbn; rewrite ?strncpy_length; auto using s32_range.

Lemma wf_with_xdp_flags v c : 0 ≤ v < 2 ^ 32 → config_wf c → config_wf (with_xdp_flags v c).
Proof. intros Hv. wf_tac. Qed.
Lemma wf_with_bind_flags v c : 0 ≤ v < 2 ^ 16 → config_wf c → config_wf (with_bind_flags v c).
Proof. intros Hv. wf_tac. Qed.
Lemma wf_with_dev s n c : config_wf c → config_wf (with_dev (strncpy s IF_NAMESIZE) (s32 n) c).
Proof. wf_tac. Qed.
Lemma wf_with_redirect s n c :
  config_wf c → config_wf (with_redirect (strncpy s IF_NAMESIZE) (s32 n) c).
Proof. wf_tac. Qed.
Lemma wf_with_switches u r p c : config_wf c → config_wf (with_switches u r p c).
Proof. wf_tac. Qed.
Lemma wf_with_filename s c :
  config_wf c → config_wf (with_files (strncpy s sizeof_filename) (progsec c) c).
Proof. wf_tac. Qed.
Lemma wf_with_progsec s c :
  config_wf c → config_wf (with_files (filename c) (strncpy s sizeof_progsec) c).
Proof. wf_tac. Qed.
Lemma wf_with_src_mac s c : config_wf c → config_wf (with_macs (strncpy s sizeof_mac) (dest_mac c) c).
Proof. wf_tac. Qed.
Lemma wf_with_dest_mac s c : config_wf c → config_wf (with_macs (src_mac c) (strncpy s sizeof_mac) c).
Proof. wf_tac. Qed.
Lemma wf_with_queue s c : config_wf c → config_wf (with_queue (atoi s) c).
Proof. intros []. split; try assumption. apply s32_range. Qed.

(** New flags of 32 and 16 bits, as the options compute them. *)
Lemma flags32 x m v : 0 ≤ v < 2 ^ 32 → 0 ≤ Z.lor (clear32 x m) v < 2 ^ 32.
Proof. intros Hv. apply lor_below; [lia| |done]. apply land_below; [lia|]. apply u32_range. Qed.
Lemma clear32_below x m : 0 ≤ clear32 x m < 2 ^ 32.
Proof. apply land_below; [lia|]. apply u32_range. Qed.
Lemma flags16 x m v : 0 ≤ m < 2 ^ 16 → 0 ≤ v < 2 ^ 16 → 0 ≤ Z.lor (Z.land x m) v < 2 ^ 16.
Proof. intros Hm Hv. apply lor_below; [lia| |done]. by apply land_below. Qed.

Create HintDb config_wf.
#[export] Hint Resolve wf_with_xdp_flags wf_with_bind_flags wf_with_dev wf_with_redirect
  wf_with_switches wf_with_filename wf_with_progsec wf_with_src_mac wf_with_dest_mac
  wf_with_queue clear32_below : config_wf.
#[export] Hint Extern 2 (0 ≤ Z.lor (clear32 _ _) _ < _) => apply flags32; cbv; done : config_wf.
#[export] Hint Extern 2 (0 ≤ Z.lor (Z.land _ _) _ < _) => apply flags16; cbv; done : config_wf.

(** ** One option *)

(** The options without a name of an interface. *)
Definition plain_options : list Z :=
  [chr "A"; chr "S"; chr "N"; 3; chr "F"; chr "M"; chr "U"; chr "p"; chr "q"; chr "Q"; 1; 2;
   chr "L"; chr "R"; chr "c"; chr "z"].

(** An option the parser takes: of the list, and with the name of an interface
    that fits and exists where it takes one. *)
Definition accepted (nametoindex : string → Z) (oa : Z * option string) : bool :=
  if existsb (Z.eqb oa.1) [chr "d"; chr "r"] then
    match oa.2 with
    | Some s => (Z.of_nat (strlen s) <? IF_NAMESIZE) && negb (s32 (nametoindex s) =? 0)
    | None => false
    end
  else existsb (Z.eqb oa.1) plain_options.

(** What option [o] does to the flags. *)
Definition flags_after (o : Z) (cfg cfg' : config) : Prop :=
  Z.land (xdp_flags cfg') XDP_FLAGS_MODES =
    default (Z.land (xdp_flags cfg) XDP_FLAGS_MODES) (mode_of_option o) ∧
  Z.land (xdp_flags cfg') XDP_FLAGS_UPDATE_IF_NOEXIST =
    (if existsb (Z.eqb o) [chr "F"] then 0
     else Z.land (xdp_flags cfg) XDP_FLAGS_UPDATE_IF_NOEXIST) ∧
  Z.land (xsk_bind_flags cfg') XDP_COPY =
    (if existsb (Z.eqb o) [chr "c"; chr "S"] then XDP_COPY
     else Z.land (xsk_bind_flags cfg) XDP_COPY) ∧
  Z.land (xsk_bind_flags cfg') XDP_ZEROCOPY =
    (if existsb (Z.eqb o) [chr "z"] then XDP_ZEROCOPY
     else Z.land (xsk_bind_flags cfg) XDP_ZEROCOPY).

Ltac flag_tac :=
  split_and!; cbn; unfold clear32;
  first [ done | by apply land_set_bits | by apply land_keep_bits
        | by rewrite <-Z.land_assoc; vm_compute (Z.land (u32 _) _); rewrite ?Z.land_0_r ].

(** One case of the switch: an option that takes an argument has it. *)
Ltac option_done :=
  try match goal with |- context [accepted ?n ?oa] => change (accepted n oa) with true end;
  cbn iota;
  do 2 eexists; split; [done|]; split; [auto 6 with config_wf|flag_tac].
Ltac option_case o Ha c :=
  destruct (Z.eqb_spec o c) as [->|?];
  [ try (destruct (Ha eq_refl) as (? & -> & ?)); cbn [with_optarg] |].

(** d and r: a name that fits, of an interface that exists. *)
Ltac name_case :=
  match goal with
  | H : c_str ?s = true |- context [accepted ?n (?o, ?a)] =>
    change (accepted n (o, a)) with
      ((Z.of_nat (strlen s) <? IF_NAMESIZE) && negb (s32 (n s) =? 0));
    rewrite Z.leb_antisym; destruct (Z.ltb_spec (Z.of_nat (strlen s)) IF_NAMESIZE) as [Hlt|]; [|done];
    cbn [negb andb];
    rewrite c_string_strncpy, (proj2 (Z.ltb_lt _ _)) by done;
    cbn [mbind res_bind with_dev with_redirect ifindex redirect_ifindex];
    destruct (s32 (n s) =? 0); [done|]; cbn [negb]; option_done
  end.

Lemma parse_option_spec nametoindex o a cfg verbose :
  config_wf cfg → (takes_arg o = true → ∃ s, a = Some s ∧ c_str s = true) →
  if accepted nametoindex (o, a)
  then ∃ cfg' v', parse_option nametoindex o a cfg verbose = Ok (Some (cfg', v')) ∧
         config_wf cfg' ∧ flags_after o cfg cfg'
  else parse_option nametoindex o a cfg verbose = Ok None.
Proof.
  intros Hwf Ha. unfold parse_option.
  option_case o Ha (chr "d"); [name_case|].
  option_case o Ha (chr "r"); [name_case|].
  option_case o Ha (chr "A"); [option_done|].
  option_case o Ha (chr "S"); [option_done|].
  option_case o Ha (chr "N"); [option_done|].
  option_case o Ha 3; [option_done|].
  option_case o Ha (chr "F"); [option_done|].
  option_case o Ha (chr "M"); [option_done|].
  option_case o Ha (chr "U"); [option_done|].
  option_case o Ha (chr "p"); [option_done|].
  option_case o Ha (chr "q"); [option_done|].
  option_case o Ha (chr "Q"); [option_done|].
  option_case o Ha 1; [option_done|].
  option_case o Ha 2; [option_done|].
  option_case o Ha (chr "L"); [option_done|].
  option_case o Ha (chr "R"); [option_done|].
  option_case o Ha (chr "c"); [option_done|].
  option_case o Ha (chr "z"); [option_done|].
  assert (accepted nametoindex (o, a) = false) as ->; [|done].
  unfold accepted, plain_options. cbn [fst existsb].
  by rewrite !(proj2 (Z.eqb_neq o _)) by done.
Qed.

(** ** The whole command line *)

Lemma usage_ok prog doc t full : table_ok t = true → ∃ s, usage prog doc t full = Ok s.
Proof.
  unfold table_ok, usage. destruct full; cbn [negb]; [|by eexists].
  destruct (_print_options t true) as [a|], (_print_options t false) as [b|]; try done. by eexists.
Qed.

(** The two outcomes of the loop. *)
Definition parsed_flags (opts : list (Z * option string)) (cfg cfg' : config) : Prop :=
  Z.land (xdp_flags cfg') XDP_FLAGS_MODES = last_mode (Z.land (xdp_flags cfg) XDP_FLAGS_MODES) opts ∧
  Z.land (xdp_flags cfg') XDP_FLAGS_UPDATE_IF_NOEXIST =
    (if given [chr "F"] opts then 0 else Z.land (xdp_flags cfg) XDP_FLAGS_UPDATE_IF_NOEXIST) ∧
  Z.land (xsk_bind_flags cfg') XDP_COPY =
    (if given [chr "c"; chr "S"] opts then XDP_COPY else Z.land (xsk_bind_flags cfg) XDP_COPY) ∧
  Z.land (xsk_bind_flags cfg') XDP_ZEROCOPY =
    (if given [chr "z"] opts then XDP_ZEROCOPY else Z.land (xsk_bind_flags cfg) XDP_ZEROCOPY).

Lemma parsed_flags_cons o a opts cfg cfg1 cfg2 :
  flags_after o cfg cfg1 → parsed_flags opts cfg1 cfg2 → parsed_flags ((o, a) :: opts) cfg cfg2.
Proof.
  intros (H1 & H2 & H3 & H4) (G1 & G2 & G3 & G4). unfold parsed_flags, last_mode, given in *.
  cbn [fold_left existsb fst] in *. rewrite H1 in G1. rewrite H2 in G2. rewrite H3 in G3. rewrite H4 in G4.
  rewrite G1, G2, G3, G4. cbn [existsb].
  split_and!; [done|..]; repeat case_match; try done;
    repeat match goal with H : orb _ _ = _ |- _ => revert H end;
    repeat match goal with |- context [existsb ?f opts] => destruct (existsb f opts) end;
    rewrite ?orb_false_r, ?orb_true_r; by intros.
Qed.

Section commandline.
Variable nametoindex : string → Z.
Variable getopt_long : list string → string → list option_entry → list (Z * option string).
Variable table : list option_wrapper.
Hypothesis Htable : table_ok table = true.

Lemma parse_options_outcome argv0 doc opts cfg verbose :
  config_wf cfg → opts_ok opts →
  if forallb (accepted nametoindex) opts
  then ∃ cfg' v', parse_options nametoindex argv0 doc table opts cfg verbose = Ok (cfg', v') ∧
         config_wf cfg' ∧ parsed_flags opts cfg cfg'
  else parse_options nametoindex argv0 doc table opts cfg verbose = Err (ExitProgram EXIT_FAIL_OPTION).
Proof.
  intros Hwf Hopts. revert cfg verbose Hwf. induction opts as [|[o a] opts IH]; intros cfg verbose Hwf.
  { do 2 eexists. by split. }
  apply Forall_cons in Hopts as [Ho Hopts]. cbn [forallb parse_options].
  pose proof (parse_option_spec nametoindex o a cfg verbose Hwf Ho) as Hs.
  destruct (accepted nametoindex (o, a)); cbn [andb].
  - destruct Hs as (cfg1 & v1 & -> & Hwf1 & Hf). cbn [mbind res_bind].
    pose proof (IH Hopts cfg1 v1 Hwf1) as H. destruct (forallb _ opts); [|done].
    destruct H as (cfg2 & v2 & -> & Hwf2 & Hf2). do 2 eexists.
    split; [done|]. split; [done|]. by eapply parsed_flags_cons.
  - rewrite Hs. cbn [mbind res_bind].
    by destruct (usage_ok argv0 doc table (o =? chr "h") Htable) as [t ->].
Qed.

Lemma last_mode_in m opts :
  m ∈ [0; XDP_FLAGS_SKB_MODE; XDP_FLAGS_DRV_MODE; XDP_FLAGS_HW_MODE] →
  last_mode m opts ∈ [0; XDP_FLAGS_SKB_MODE; XDP_FLAGS_DRV_MODE; XDP_FLAGS_HW_MODE].
Proof.
  unfold last_mode. revert m. induction opts as [|[o a] opts IH]; intros m Hm; [done|].
  cbn [fold_left fst]. apply IH. unfold mode_of_option. repeat case_match; cbn [default]; try done;
    set_solver.
Qed.

(** C22: from a configuration whose arrays have their C lengths and whose integers
    have their widths, with one mode at most, [parse_cmdline_args] exits with
    [EXIT_FAIL_OPTION] or returns a configuration of the same kind; it returns
    exactly when [malloc] succeeds and every option is one of the list with, for
    d and r, the name of an interface that exists and fits. *)
Theorem parse_cmdline_args_types malloc_ok argv lo cfg doc verbose :
  config_wf cfg → one_mode (xdp_flags cfg) →
  option_wrappers_to_options true table = Ok (Some lo) →
  opts_ok (getopt_long argv "hd:r:L:R:ASNFUMQ:czpq" lo) →
  if malloc_ok && forallb (accepted nametoindex) (getopt_long argv "hd:r:L:R:ASNFUMQ:czpq" lo)
  then ∃ cfg' v',
    parse_cmdline_args nametoindex getopt_long malloc_ok argv table cfg doc verbose = Ok (cfg', v') ∧
    config_wf cfg' ∧ one_mode (xdp_flags cfg')
  else parse_cmdline_args nametoindex getopt_long malloc_ok argv table cfg doc verbose =
         Err (ExitProgram EXIT_FAIL_OPTION).
Proof.
  intros Hwf Hmode Hlo Hopts. unfold parse_cmdline_args, option_wrappers_to_options in *.
  destruct (count_options table) as [n|]; [|done]. cbn [mbind res_bind negb] in *. injection Hlo as <-.
  destruct malloc_ok; cbn [negb andb mbind res_bind]; [|done].
  pose proof (parse_options_outcome (default "" (head argv)) doc _ cfg verbose Hwf Hopts) as H.
  case_match; [|done]. destruct H as (cfg' & v' & -> & Hwf' & Hf & _).
  do 2 eexists. split; [done|]. split; [done|]. unfold one_mode. rewrite Hf. by apply last_mode_in.
Qed.

(** the mode of the XDP program is the one the last of -A, -S, -N and
    --offload-mode asks for, and -F lets it replace another program.  The bind
    flags only accumulate: once asked for, copy mode and zero-copy mode are never
    taken back by the other option, so -z with -c or -S asks for both. *)
Lemma command_line_flags argv lo cfg doc verbose cfg' v' :
  config_wf cfg →
  option_wrappers_to_options true table = Ok (Some lo) →
  let opts := getopt_long argv "hd:r:L:R:ASNFUMQ:czpq" lo in
  opts_ok opts →
  parse_cmdline_args nametoindex getopt_long true argv table cfg doc verbose = Ok (cfg', v') →
  Z.land (xdp_flags cfg') XDP_FLAGS_MODES =
    last_mode (Z.land (xdp_flags cfg) XDP_FLAGS_MODES) opts ∧
  Z.land (xdp_flags cfg') XDP_FLAGS_UPDATE_IF_NOEXIST =
    (if given [chr "F"] opts then 0 else Z.land (xdp_flags cfg) XDP_FLAGS_UPDATE_IF_NOEXIST) ∧
  Z.land (xsk_bind_flags cfg') XDP_COPY =
    (if given [chr "c"; chr "S"] opts then XDP_COPY else Z.land (xsk_bind_flags cfg) XDP_COPY) ∧
  Z.land (xsk_bind_flags cfg') XDP_ZEROCOPY =
    (if given [chr "z"] opts then XDP_ZEROCOPY else Z.land (xsk_bind_flags cfg) XDP_ZEROCOPY).
Proof.
  intros Hwf Hlo opts Hopts. unfold parse_cmdline_args. rewrite Hlo. cbn [mbind res_bind]. fold opts.
  pose proof (parse_options_outcome (default "" (head argv)) doc _ cfg verbose Hwf Hopts) as H.
  case_match; [|by rewrite H]. destruct H as (cfg1 & v1 & -> & _ & Hf). by intros [= <- <-].
Qed.
End commandline.

(** The name of a program file comes back from its array when it is shorter than
    the array, and has no terminating zero there otherwise. *)
Lemma filename_argument nametoindex s cfg verbose :
  c_str s = true →
  ∃ cfg', parse_option nametoindex 1 (Some s) cfg verbose = Ok (Some (cfg', verbose)) ∧
    c_string (filename cfg') =
      if Z.of_nat (strlen s) <? sizeof_filename then Ok s else Err OutOfBounds.
Proof. intros Hs. eexists. split; [done|]. by apply c_string_strncpy. Qed.

(** The table that reaches [getopt_long] has no terminating entry: every entry has
    a name. *)
Lemma options_without_terminator table lo :
  option_wrappers_to_options true table = Ok (Some lo) → Forall (λ o, is_Some (name o)) lo.
Proof.
  unfold option_wrappers_to_options. destruct (count_options table) as [n|] eqn:Hn; [|done].
  cbn. intros [= <-]. revert n Hn. induction table as [|w t IH]; intros n Hn; [done|].
  cbn [count_options] in Hn. destruct (name (opt w)) eqn:Hw; [|by injection Hn as <-].
  destruct (count_options t) as [m|]; [|done]. injection Hn as <-. cbn. constructor; [by rewrite Hw|].
  by apply IH.
Qed.

(** ** Witnesses *)

(** A getopt_long for the arguments -d eth0 -z -c. *)
Definition dev_zc_c (argv : list string) (short : string) (lo : list option_entry) :
  list (Z * option string) := [(chr "d", Some "eth0"); (chr "z", None); (chr "c", None)].

Lemma config_init_wf sec : config_wf (config_init (-1) sec).
Proof. split; cbn; rewrite ?strncpy_length; cbv; done || lia. Qed.

Lemma dev_zc_c_ok argv short lo : opts_ok (dev_zc_c argv short lo).
Proof. repeat constructor; cbn; try done. intros _. by eexists. Qed.

Lemma parse_cmdline_args_types_witness :
  ∃ cfg' v',
    parse_cmdline_args (λ _, 3) dev_zc_c true ["af_xdp_user"] long_options (config_init (-1) "xdp_sock")
      "doc" 1 = Ok (cfg', v') ∧
    config_wf cfg' ∧ one_mode (xdp_flags cfg').
Proof.
  refine (parse_cmdline_args_types (λ _, 3) dev_zc_c long_options _ true ["af_xdp_user"] _
            (config_init (-1) "xdp_sock") "doc" 1 _ _ _ _).
  - vm_compute. reflexivity.
  - apply config_init_wf.
  - left.
  - reflexivity.
  - apply dev_zc_c_ok.
Defined.

Definition dev_zc_c_cfg : config :=
  with_bind_flags 6 (with_dev (strncpy "eth0" IF_NAMESIZE) 3 (config_init (-1) "xdp_sock")).

Lemma command_line_flags_witness :
  parse_cmdline_args (λ _, 3) dev_zc_c true ["af_xdp_user"] long_options (config_init (-1) "xdp_sock")
    "doc" 1 = Ok (dev_zc_c_cfg, 1) ∧
  Z.land (xsk_bind_flags dev_zc_c_cfg) XDP_COPY = XDP_COPY ∧
  Z.land (xsk_bind_flags dev_zc_c_cfg) XDP_ZEROCOPY = XDP_ZEROCOPY.
Proof.
  assert (parse_cmdline_args (λ _, 3) dev_zc_c true ["af_xdp_user"] long_options
            (config_init (-1) "xdp_sock") "doc" 1 = Ok (dev_zc_c_cfg, 1)) as H by (vm_compute; reflexivity).
  split; [exact H|].
  refine (proj2 (proj2 (command_line_flags (λ _, 3) dev_zc_c long_options _ ["af_xdp_user"] _
            (config_init (-1) "xdp_sock") "doc" 1 _ _ _ _ _ H))).
  - vm_compute. reflexivity.
  - apply config_init_wf.
  - reflexivity.
  - apply dev_zc_c_ok.
Defined.
