(* ===== verification/Loader.v ===== *)
(** * Loading and attaching XDP programs: common_user_bpf_xdp.c, common_libbpf.c

    libbpf and the kernel are the interfaces [LinkOps], the XDP hook of the
    network interfaces, and [BpfOps], the objects, programs and maps; pointers to
    the structs of libbpf are handles, 0 for NULL.  What is printed is left out.
    The files of the same name under flujos/libs/xdp/common have the same
    functions. *)

From Stdlib Require Import Ascii.
From S2P Require Import Prelude Io Config.

(** ** Error numbers and limits *)

Definition ENOENT : Z := 2.
Definition EBUSY : Z := 16.
Definition EEXIST : Z := 17.
Definition EINVAL : Z := 22.
Definition ENAMETOOLONG : Z := 36.
Definition PATH_MAX : Z := 4096.
Definition MAX_ERRNO : Z := 4095.
Definition BPF_PROG_TYPE_XDP : Z := 6.

(** ** The XDP hook *)

Class LinkOps (K : Type) := {
  (** [bpf_set_link_xdp_fd(ifindex, fd, flags)]: 0 or a negative error *)
  bpf_set_link_xdp_fd : Z → Z → Z → K → Z * K;
  (** [bpf_get_link_xdp_id(ifindex, &id, flags)]: the error, and the id *)
  bpf_get_link_xdp_id : Z → Z → K → Z * Z * K
}.

Section link.
Context {K : Type} `{LinkOps K}.

(** The other of the two software modes, for the second try. *)
Definition opposite_mode (xdp_flags : Z) : Z :=
  Z.lor (Z.land xdp_flags (u32 (Z.lnot XDP_FLAGS_MODES)))
        (if Z.land xdp_flags XDP_FLAGS_SKB_MODE =? 0 then XDP_FLAGS_SKB_MODE else XDP_FLAGS_DRV_MODE).

Definition xdp_link_attach (ifindex xdp_flags prog_fd : Z) : io K Z :=
  err ← call (bpf_set_link_xdp_fd ifindex prog_fd xdp_flags);
  err ← (if (err =? - EEXIST) && (Z.land xdp_flags XDP_FLAGS_UPDATE_IF_NOEXIST =? 0) then
           let old_flags := xdp_flags in
           let xdp_flags := opposite_mode xdp_flags in
           err ← call (bpf_set_link_xdp_fd ifindex (-1) xdp_flags);
           if err =? 0 then call (bpf_set_link_xdp_fd ifindex prog_fd old_flags) else mret err
         else mret err);
  if err <? 0 then mret EXIT_FAIL_XDP else mret EXIT_OK.

Definition xdp_link_detach (ifindex xdp_flags expected_prog_id : Z) : io K Z :=
  '(err, curr_prog_id) ← call (bpf_get_link_xdp_id ifindex xdp_flags);
  if negb (err =? 0) then mret EXIT_FAIL_XDP
  else if curr_prog_id =? 0 then mret EXIT_OK
  else if negb (expected_prog_id =? 0) && negb (curr_prog_id =? expected_prog_id) then mret EXIT_FAIL
  else
    err ← call (bpf_set_link_xdp_fd ifindex (-1) xdp_flags);
    if err <? 0 then mret EXIT_FAIL_XDP else mret EXIT_OK.
End link.

(** ** Objects, programs and maps *)

(** struct bpf_map_info, the members this code reads *)
Record bpf_map_info := MapInfo {
  type : Z; key_size : Z; value_size : Z; max_entries : Z
}.

Class BpfOps (K : Type) := {
  (** [bpf_prog_load_xattr] of a file, type and ifindex: error and object *)
  bpf_prog_load_xattr : string → Z → Z → K → (Z * Z) * K;
  (** [bpf_object__open_xattr] of a file and type: the object or an error pointer *)
  bpf_object__open_xattr : string → Z → K → Z * K;
  bpf_object__load : Z → K → Z * K;
  bpf_object__close : Z → K → K;
  (** what bpf_object__for_each_program and for_each_map visit *)
  bpf_object__programs : Z → K → list Z;
  bpf_object__maps : Z → K → list Z;
  bpf_object__find_program_by_title : Z → string → K → Z;
  bpf_object__find_map_by_name : Z → string → K → Z;
  bpf_program__set_type : Z → Z → K → K;
  bpf_program__set_ifindex : Z → Z → K → K;
  bpf_program__set_expected_attach_type : Z → Z → K → K;
  bpf_program__title : Z → K → string;
  bpf_program__fd : Z → K → Z;
  bpf_map__is_offload_neutral : Z → K → bool;
  bpf_map__set_ifindex : Z → Z → K → K;
  bpf_map__name : Z → K → string;
  bpf_map__fd : Z → K → Z;
  bpf_map__reuse_fd : Z → Z → K → Z * K;
  bpf_map__pin : Z → string → K → Z * K;
  (** the system calls on pinned files and descriptors *)
  bpf_obj_get : string → K → Z * K;
  bpf_obj_get_info_by_fd : Z → K → Z * bpf_map_info;
  bpf_map_update_elem : Z → Z → Z → K → Z * K
}.

Definition IS_ERR_OR_NULL (ptr : Z) : bool := (ptr =? 0) || (2 ^ 64 - MAX_ERRNO <=? ptr).

Section objects.
Context {K : Type} `{BpfOps K}.

(** The object, or 0 for NULL. *)
Definition load_bpf_object_file (filename : string) (ifindex : Z) : io K Z :=
  '(err, obj) ← call (bpf_prog_load_xattr filename BPF_PROG_TYPE_XDP ifindex);
  if negb (err =? 0) then mret 0 else mret obj.

Definition set_offload (ifindex : Z) (map : Z) : io K unit :=
  neutral ← ask (bpf_map__is_offload_neutral map);
  if (neutral : bool) then mret tt else run (bpf_map__set_ifindex map ifindex).

Definition open_bpf_object (file : string) (ifindex : Z) : io K Z :=
  obj ← call (bpf_object__open_xattr file BPF_PROG_TYPE_XDP);
  if IS_ERR_OR_NULL obj then mret 0
  else
    progs ← ask (bpf_object__programs obj);
    first_prog ← for_each progs (λ prog first_prog,
      _ ← run (bpf_program__set_type prog BPF_PROG_TYPE_XDP);
      _ ← run (bpf_program__set_ifindex prog ifindex);
      mret (if first_prog =? 0 then prog else first_prog)) 0;
    maps ← ask (bpf_object__maps obj);
    _ ← for_each maps (λ map _, set_offload ifindex map) tt;
    if first_prog =? 0 then mret 0 else mret obj.

Definition map_path (path name : string) : string := path +:+ "/" +:+ name.

(** [path] is NULL in the source as [None] here. *)
Definition reuse_maps (obj : Z) (path : option string) : io K Z :=
  if obj =? 0 then mret (- ENOENT)
  else
    match path with
    | None => mret (- EINVAL)
    | Some path =>
      maps ← ask (bpf_object__maps obj);
      r ← for_each_or_return maps (λ map,
        name ← ask (bpf_map__name map);
        let buf := map_path path name in
        if PATH_MAX <=? Z.of_nat (strlen buf) then mret (Some (- ENAMETOOLONG))
        else
          pinned_map_fd ← call (bpf_obj_get buf);
          if pinned_map_fd <? 0 then mret (Some pinned_map_fd)
          else
            err ← call (bpf_map__reuse_fd map pinned_map_fd);
            if negb (err =? 0) then mret (Some err) else mret None);
      mret (default 0 r)
    end.

Definition load_bpf_object_file_reuse_maps (file : string) (ifindex : Z) (pin_dir : string) : io K Z :=
  obj ← open_bpf_object file ifindex;
  if obj =? 0 then mret 0
  else
    err ← reuse_maps obj (Some pin_dir);
    if negb (err =? 0) then mret 0
    else
      err ← call (bpf_object__load obj);
      if negb (err =? 0) then mret 0 else mret obj.

(** [XDP_ACTION_MAX] is [XDP_REDIRECT + 1 + 1]. *)
Definition XDP_ACTION_MAX : Z := 4 + 1 + 1.
Definition xdp_action_names : list string :=
  ["XDP_ABORTED"; "XDP_DROP"; "XDP_PASS"; "XDP_TX"; "XDP_REDIRECT"; "XDP_UNKNOWN"]%string.

Definition action2str (action : Z) : res (option string) :=
  if action <? XDP_ACTION_MAX
  then s ← or_fault (xdp_action_names !! Z.to_nat action) OutOfBounds; Ok (Some s)
  else Ok None.

Definition check_map_fd_info (info exp : bpf_map_info) : Z :=
  if negb (key_size exp =? 0) && negb (key_size exp =? key_size info) then EXIT_FAIL
  else if negb (value_size exp =? 0) && negb (value_size exp =? value_size info) then EXIT_FAIL
  else if negb (max_entries exp =? 0) && negb (max_entries exp =? max_entries info) then EXIT_FAIL
  else if negb (type exp =? 0) && negb (type exp =? type info) then EXIT_FAIL
  else 0.

(** [snprintf] cuts a long path; [want_info] is the test of [info]. *)
Definition open_bpf_map_file (pin_dir mapname : string) (want_info : bool) : io K (Z * option bpf_map_info) :=
  let path := map_path pin_dir mapname in
  let filename := String.string_of_list_ascii
                    (take (Z.to_nat (PATH_MAX - 1)) (String.list_ascii_of_string path)) in
  fd ← call (bpf_obj_get filename);
  if fd <? 0 then mret (fd, None)
  else if want_info then
    '(err, info) ← ask (bpf_obj_get_info_by_fd fd);
    if negb (err =? 0) then mret (EXIT_FAIL_BPF, None) else mret (fd, Some info)
  else mret (fd, None).
End objects.

(** ** Loading a program and attaching it *)

Section attach.
Context {K : Type} `{LinkOps K, BpfOps K}.

(** The object, and the configuration with the section of the program. *)
Definition load_bpf_and_xdp_attach (cfg : config) : io K (Z * config) :=
  let offload_ifindex :=
    if Z.land (xdp_flags cfg) XDP_FLAGS_HW_MODE =? 0 then 0 else ifindex cfg in
  file ← pure_res (c_string (filename cfg));
  bpf_obj ← (if Config.reuse_maps cfg then
               dir ← pure_res (c_string (pin_dir cfg));
               load_bpf_object_file_reuse_maps file offload_ifindex dir
             else load_bpf_object_file file offload_ifindex);
  if bpf_obj =? 0 then exit_with EXIT_FAIL_BPF
  else
    bpf_prog ← (if negb (Ascii.eqb (first_char (progsec cfg)) zero) then
                  sec ← pure_res (c_string (progsec cfg));
                  ask (bpf_object__find_program_by_title bpf_obj sec)
                else
                  progs ← ask (bpf_object__programs bpf_obj);
                  mret (default 0 (head progs)));
    if bpf_prog =? 0 then exit_with EXIT_FAIL_BPF
    else
      title ← ask (bpf_program__title bpf_prog);
      let cfg := with_files (filename cfg) (strncpy title sizeof_progsec) cfg in
      prog_fd ← ask (bpf_program__fd bpf_prog);
      if prog_fd <=? 0 then exit_with EXIT_FAIL_BPF
      else
        err ← xdp_link_attach (ifindex cfg) (xdp_flags cfg) prog_fd;
        if negb (err =? 0) then exit_with err else mret (bpf_obj, cfg).
End attach.

(** ** Loading with pinned maps: common_libbpf.c *)

Record bpf_pinned_map := Pinned { name : string; pin_file : string; map_fd : Z }.

(** struct bpf_prog_load_attr_maps; [nr_pinned_maps] is the length of the array. *)
Record bpf_prog_load_attr_maps := Attr {
  file : option string;
  prog_type : Z;
  expected_attach_type : Z;
  attr_ifindex : Z;
  pinned_maps : list bpf_pinned_map
}.

Definition with_fd (fd : Z) (p : bpf_pinned_map) : bpf_pinned_map := Pinned (name p) (pin_file p) fd.

Section pinned.
Context {K : Type} `{BpfOps K}.

(** A loop over the array of pinned maps that assigns its elements. *)
Fixpoint update_each (f : bpf_pinned_map → io K bpf_pinned_map) (l : list bpf_pinned_map) :
  io K (list bpf_pinned_map) :=
  match l with
  | [] => mret []
  | p :: l => p ← f p; l ← update_each f l; mret (p :: l)
  end.

(** One entry of the loop before the load: the pinned file of the map, when it
    opens, replaces the map. *)
Definition try_open (map : Z) (mapname : string) (p : bpf_pinned_map) : io K bpf_pinned_map :=
  if negb (String.eqb mapname (name p)) then mret p
  else
    fd ← call (bpf_obj_get (pin_file p));
    if 0 <? fd then _ ← call (bpf_map__reuse_fd map fd); mret (with_fd fd p)
    else mret p.

(** One entry of the loop after the load: a map whose file did not open is
    pinned. *)
Definition try_pin (map : Z) (mapname : string) (p : bpf_pinned_map) : io K bpf_pinned_map :=
  if negb (String.eqb mapname (name p)) then mret p
  else if negb (map_fd p =? -1) then mret p
  else
    err ← call (bpf_map__pin map (pin_file p));
    if negb (err =? 0) then mret p
    else fd ← ask (bpf_map__fd map); mret (with_fd fd p).

Definition open_pinned (ifindex : Z) (obj : Z) (pins : list bpf_pinned_map) : io K (list bpf_pinned_map) :=
  maps ← ask (bpf_object__maps obj);
  for_each maps (λ map pins,
    mapname ← ask (bpf_map__name map);
    _ ← set_offload ifindex map;
    update_each (try_open map mapname) pins) pins.

Definition pin_maps (obj : Z) (pins : list bpf_pinned_map) : io K (list bpf_pinned_map) :=
  maps ← ask (bpf_object__maps obj);
  for_each maps (λ map pins,
    mapname ← ask (bpf_map__name map);
    update_each (try_pin map mapname) pins) pins.

(** The error code, the pinned maps, and the object and descriptor of success.
    A NULL [attr] is read by the initialiser of [open_attr] before it is tested. *)
Definition bpf_prog_load_xattr_maps (attr : option bpf_prog_load_attr_maps) :
  io K (Z * list bpf_pinned_map * option (Z * Z)) :=
  attr ← pure_res (or_fault attr NullDeref);
  let pins := pinned_maps attr in
  match file attr with
  | None => mret (- EINVAL, pins, None)
  | Some file =>
    obj ← call (bpf_object__open_xattr file (prog_type attr));
    if IS_ERR_OR_NULL obj then mret (- ENOENT, pins, None)
    else
      progs ← ask (bpf_object__programs obj);
      first_prog ← for_each progs (λ prog first_prog,
        _ ← run (bpf_program__set_ifindex prog (attr_ifindex attr));
        _ ← run (bpf_program__set_type prog (prog_type attr));
        _ ← run (bpf_program__set_expected_attach_type prog (expected_attach_type attr));
        mret (if first_prog =? 0 then prog else first_prog)) 0;
      pins ← open_pinned (attr_ifindex attr) obj (with_fd (-1) <$> pins);
      if first_prog =? 0 then
        _ ← run (bpf_object__close obj); mret (- ENOENT, pins, None)
      else
        err ← call (bpf_object__load obj);
        if negb (err =? 0) then
          _ ← run (bpf_object__close obj); mret (- EINVAL, pins, None)
        else
          pins ← pin_maps obj pins;
          fd ← ask (bpf_program__fd first_prog);
          mret (0, pins, Some (obj, fd))
  end.
End pinned.
