(* ===== verification/LoaderProps.v ===== *)
(** * Properties of the loader

    The XDP hook under [LinkLaws] and the pinned files and open objects under
    [BpfLaws], what the documentation of the calls says of them. *)

From S2P Require Import Prelude Io Config Loader.

(** ** Attaching and detaching *)

Definition mode_of (flags : Z) : Z := Z.land flags XDP_FLAGS_MODES.

(** The arguments the C types hold, with a descriptor or -1. *)
Definition link_args (i f : Z) : Prop := 0 < i < 2 ^ 31 ∧ 0 ≤ f < 2 ^ 32.
Definition fd_arg (fd : Z) : Prop := -1 ≤ fd < 2 ^ 31.

(** The id that is reported of the programs of the modes: of the only one,
    whatever the mode asked for; of several, the one of that mode. *)
Definition reported (slot : Z → Z) (m : Z) : Z :=
  match filter (λ id, id ≠ 0) (slot <$> [XDP_FLAGS_SKB_MODE; XDP_FLAGS_DRV_MODE; XDP_FLAGS_HW_MODE]) with
  | [] => 0
  | [id] => id
  | _ => if m =? 0 then 0 else slot m
  end.

(** [slot k i m] is the id of the program on interface [i] in mode [m], 0 for
    none, where mode 0 is the one the kernel chooses, and [prog_id k fd] the id of
    the program of a descriptor. *)
Class LinkLaws (K : Type) `{LinkOps K} := {
  slot : K → Z → Z → Z;
  prog_id : K → Z → Z;
  set_code i fd f k : link_args i f → fd_arg fd → (bpf_set_link_xdp_fd i fd f k).1 ≤ 0;
  set_failed i fd f k : link_args i f → fd_arg fd → (bpf_set_link_xdp_fd i fd f k).1 ≠ 0 →
    ∀ i' m, slot (bpf_set_link_xdp_fd i fd f k).2 i' m = slot k i' m;
  set_attached i fd f k : link_args i f → fd_arg fd → 0 ≤ fd → (bpf_set_link_xdp_fd i fd f k).1 = 0 →
    slot (bpf_set_link_xdp_fd i fd f k).2 i (mode_of f) = prog_id k fd;
  set_detached i f k : link_args i f → (bpf_set_link_xdp_fd i (-1) f k).1 = 0 →
    slot (bpf_set_link_xdp_fd i (-1) f k).2 i (mode_of f) = 0;
  set_elsewhere i fd f k i' m : link_args i f → fd_arg fd → i' ≠ i →
    slot (bpf_set_link_xdp_fd i fd f k).2 i' m = slot k i' m;
  set_noexist i fd f k : link_args i f → fd_arg fd → 0 ≤ fd → Z.land f XDP_FLAGS_UPDATE_IF_NOEXIST ≠ 0 →
    slot k i (mode_of f) ≠ 0 → (bpf_set_link_xdp_fd i fd f k).1 ≠ 0;
  set_ids i fd f k fd' : link_args i f → fd_arg fd →
    prog_id (bpf_set_link_xdp_fd i fd f k).2 fd' = prog_id k fd';
  get_slot i f k : link_args i f → let '(e, id, k') := bpf_get_link_xdp_id i f k in
    (e = 0 → id = reported (slot k i) (mode_of f)) ∧
    (∀ i' m, slot k' i' m = slot k i' m) ∧ ∀ fd, prog_id k' fd = prog_id k fd
}.

Section link.
Context {K : Type} `{LinkLaws K}.

Definition unchanged (k k' : K) : Prop := ∀ i m, slot k' i m = slot k i m.
Definition unchanged_but (i : Z) (k k' : K) : Prop := ∀ i' m, i' ≠ i → slot k' i' m = slot k i' m.

(** What one call of [bpf_set_link_xdp_fd] does, as its result tells. *)
Lemma set_cases i fd f k a k' :
  link_args i f → fd_arg fd → bpf_set_link_xdp_fd i fd f k = (a, k') →
  unchanged_but i k k' ∧ (∀ fd', prog_id k' fd' = prog_id k fd') ∧
  ((a < 0 ∧ unchanged k k') ∨
   (a = 0 ∧ slot k' i (mode_of f) = (if fd =? -1 then 0 else prog_id k fd) ∧
    (0 ≤ fd → Z.land f XDP_FLAGS_UPDATE_IF_NOEXIST ≠ 0 → slot k i (mode_of f) = 0))).
Proof.
  intros Ha Hfd E. pose proof (set_code i fd f k Ha Hfd) as Hc. pose proof (set_failed i fd f k Ha Hfd) as Hf.
  pose proof (set_noexist i fd f k Ha Hfd) as Hn.
  pose proof (λ i' m, set_elsewhere i fd f k i' m Ha Hfd) as He.
  pose proof (λ fd', set_ids i fd f k fd' Ha Hfd) as Hi.
  assert (a = 0 → slot k' i (mode_of f) = (if fd =? -1 then 0 else prog_id k fd)) as Hok.
  { intros ->. destruct (Z.eqb_spec fd (-1)) as [->|Hne].
    - pose proof (set_detached i f k Ha) as Hd. rewrite E in Hd. by apply Hd.
    - pose proof (set_attached i fd f k Ha Hfd) as Hat. rewrite E in Hat. apply Hat; [|done]. unfold fd_arg in Hfd. lia. }
  rewrite E in *. cbn [fst snd] in *. split; [by intros ??; apply He|]. split; [done|].
  destruct (decide (a = 0)) as [->|Hne]; [right|left].
  - split_and!; [done|by apply Hok|]. intros Hp Hx.
    destruct (decide (slot k i (mode_of f) = 0)) as [|Hs]; [done|]. by destruct (Hn Hp Hx Hs).
  - split; [lia|]. intros i' m. by apply Hf.
Qed.

Lemma detach_arg : fd_arg (-1).
Proof. by split. Qed.

Lemma opposite_mode_args i f : link_args i f → link_args i (opposite_mode f).
Proof.
  intros [Hi Hf]. split; [done|]. unfold opposite_mode.
  apply lor_below; [done|by apply land_below|by destruct (_ =? _)].
Qed.

(** When the attachment succeeds: at once, or in the second try. *)
Definition attach_succeeds (i flags fd : Z) (k : K) : Prop :=
  let first := bpf_set_link_xdp_fd i fd flags k in
  let away := bpf_set_link_xdp_fd i (-1) (opposite_mode flags) first.2 in
  let again := bpf_set_link_xdp_fd i fd flags away.2 in
  first.1 = 0 ∨
  (first.1 = - EEXIST ∧ Z.land flags XDP_FLAGS_UPDATE_IF_NOEXIST = 0 ∧ away.1 = 0 ∧ again.1 = 0).

Definition attach_outcome (i flags fd : Z) (k : K) (r : Z) (k' : K) : Prop :=
  unchanged_but i k k' ∧
  ((r = EXIT_OK ∧ attach_succeeds i flags fd k ∧ slot k' i (mode_of flags) = prog_id k fd) ∨
   (r = EXIT_FAIL_XDP ∧ ¬ attach_succeeds i flags fd k ∧
    (unchanged k k' ∨
     (Z.land flags XDP_FLAGS_UPDATE_IF_NOEXIST = 0 ∧ slot k' i (mode_of (opposite_mode flags)) = 0)))).

(** The second try, after an -EEXIST. *)
Lemma second_try i flags fd k k1 :
  link_args i flags → 0 ≤ fd < 2 ^ 31 → bpf_set_link_xdp_fd i fd flags k = (- EEXIST, k1) →
  Z.land flags XDP_FLAGS_UPDATE_IF_NOEXIST = 0 →
  ∃ r k', xdp_link_attach i flags fd k = (Ok r, k') ∧ attach_outcome i flags fd k r k'.
Proof.
  intros Hargs Hfd E1 Hx. unfold xdp_link_attach, attach_outcome, attach_succeeds, call, mbind, io_bind.
  rewrite E1, Hx, !Z.eqb_refl. cbn [andb fst snd mret io_ret].
  assert (fd_arg fd) as Hf by (unfold fd_arg; lia). pose proof (opposite_mode_args i flags Hargs) as Hop.
  pose proof (set_cases _ _ _ _ _ _ Hargs Hf E1) as (Hb1 & Hi1 & Hc1).
  assert (fd =? -1 = false) as Hneg by lia. rewrite Hneg in Hc1.
  destruct Hc1 as [[_ Hu1]|(Habs & _)]; [|done].
  destruct (bpf_set_link_xdp_fd i (-1) (opposite_mode flags) k1) as [b k2] eqn:E2. cbn [fst snd].
  pose proof (set_cases _ _ _ _ _ _ Hop detach_arg E2) as (Hb2 & Hi2 & Hc2).
  assert (unchanged_but i k k2) as Hb by (intros ???; by rewrite Hb2, Hb1).
  destruct Hc2 as [[Hlt Hu2]|(-> & Hs2 & _)].
  { rewrite (proj2 (Z.eqb_neq b 0)) by lia. cbn. rewrite (proj2 (Z.ltb_lt _ _)) by lia.
    do 2 eexists. split; [done|]. split; [done|]. right. split; [done|]. split; [naive_solver lia|].
    left. intros ??. by rewrite Hu2, Hu1. }
  cbn [Z.eqb]. destruct (bpf_set_link_xdp_fd i fd flags k2) as [c k3] eqn:E3. cbn [fst snd].
  pose proof (set_cases _ _ _ _ _ _ Hargs Hf E3) as (Hb3 & Hi3 & Hc3). rewrite Hneg in Hc3.
  assert (unchanged_but i k k3) as Hb' by (intros ???; by rewrite Hb3, Hb).
  destruct Hc3 as [[Hlt Hu3]|(-> & Hs3 & _)].
  - rewrite (proj2 (Z.ltb_lt _ _)) by lia. do 2 eexists. split; [done|]. split; [done|]. right.
    split; [done|]. split; [naive_solver lia|]. right. split; [done|]. by rewrite Hu3.
  - do 2 eexists. split; [done|]. split; [done|]. left. split; [done|]. split; [by right|].
    by rewrite Hs3, Hi2, Hi1.
Qed.


(** No id is reported for a mode that was named only if the mode has no program. *)
Lemma reported_none s m :
  m ∈ [XDP_FLAGS_SKB_MODE; XDP_FLAGS_DRV_MODE; XDP_FLAGS_HW_MODE] → reported s m = 0 → s m = 0.
Proof.
  intros Hm. assert (m ≠ 0) as Hm0 by (repeat (apply elem_of_cons in Hm as [->|Hm]; [done|]); by apply elem_of_nil in Hm).
  unfold reported. rewrite (proj2 (Z.eqb_neq m 0)) by done.
  destruct (filter (λ id, id ≠ 0) (s <$> _)) as [|a [|b l]] eqn:Ef; [| |done].
  - intros _. destruct (decide (s m = 0)) as [|Hs]; [done|exfalso].
    assert (s m ∈ filter (λ id, id ≠ 0) (s <$> [XDP_FLAGS_SKB_MODE; XDP_FLAGS_DRV_MODE; XDP_FLAGS_HW_MODE])) as He.
    { apply list_elem_of_filter. split; [done|]. by apply list_elem_of_fmap_2. }
    rewrite Ef in He. by apply elem_of_nil in He.
  - intros ->. assert (0 ∈ filter (λ id, id ≠ 0) (s <$> [XDP_FLAGS_SKB_MODE; XDP_FLAGS_DRV_MODE; XDP_FLAGS_HW_MODE])) as He.
    { rewrite Ef. by left. }
    by apply list_elem_of_filter in He as [[] _].
Qed.

End link.

(** ** Pinned maps *)

(** What the library shows of itself: the names that hold a pinned map, the objects
    not yet closed, the path that a map was given when it was pinned, which stays when
    pinning fails, and whether a map has been created.  [lib_ok] holds of every state
    that the calls reach. *)
Class BpfView (K : Type) `{BpfOps K} := {
  lib_ok : K → Prop;
  files : K → gset string;
  opened : K → gset Z;
  given_path : Z → K → option string;
  ready : Z → K → Prop
}.

(** [m] is a map of an object that is open. *)
Definition open_map {K} `{BpfView K} (m : Z) (k : K) : Prop :=
  ∃ obj, obj ∈ opened k ∧ m ∈ bpf_object__maps obj k.

(** The open objects stay, with their maps and programs. *)
Definition objects_stay {K} `{BpfView K} (k k' : K) : Prop :=
  lib_ok k' ∧ opened k' = opened k ∧
  ∀ obj, obj ∈ opened k → bpf_object__maps obj k' = bpf_object__maps obj k ∧
                         bpf_object__programs obj k' = bpf_object__programs obj k.
(** Also every file, and the paths of the maps. *)
Definition undisturbed {K} `{BpfView K} (k k' : K) : Prop :=
  objects_stay k k' ∧ files k' = files k ∧ ∀ m, open_map m k → given_path m k' = given_path m k.

(** Only [bpf_map__reuse_fd] gives a map another name, that of the map it gets. *)
Class BpfLaws (K : Type) `{BpfView K} := {
  open_law f t k : lib_ok k → let '(obj, k') := bpf_object__open_xattr f t k in
    if IS_ERR_OR_NULL obj then undisturbed k k'
    else lib_ok k' ∧ files k' = files k ∧ obj ∉ opened k ∧ opened k' = {[obj]} ∪ opened k ∧
         NoDup (bpf_object__maps obj k') ∧ Forall (λ m, given_path m k' = None) (bpf_object__maps obj k');
  (** no map of the object has a path yet *)
  load_law obj k : lib_ok k → obj ∈ opened k → Forall (λ m, given_path m k = None) (bpf_object__maps obj k) →
    let '(err, k') := bpf_object__load obj k in
    undisturbed k k' ∧ (err = 0 → Forall (λ m, ready m k') (bpf_object__maps obj k));
  close_law obj k : lib_ok k → obj ∈ opened k → lib_ok (bpf_object__close obj k) ∧
    files (bpf_object__close obj k) = files k ∧ opened (bpf_object__close obj k) = opened k ∖ {[obj]};
  set_type_law p v k : lib_ok k → undisturbed k (bpf_program__set_type p v k);
  set_prog_ifindex_law p v k : lib_ok k → undisturbed k (bpf_program__set_ifindex p v k);
  set_attach_law p v k : lib_ok k → undisturbed k (bpf_program__set_expected_attach_type p v k);
  set_map_ifindex_law m v k : lib_ok k → undisturbed k (bpf_map__set_ifindex m v k);
  reuse_law m fd k : lib_ok k → undisturbed k (bpf_map__reuse_fd m fd k).2;
  get_law f k : lib_ok k → let '(fd, k') := bpf_obj_get f k in undisturbed k k' ∧ (0 < fd → f ∈ files k);
  (** a map without a path; the other maps keep theirs, and all their names *)
  pin_law m f k : lib_ok k → open_map m k → given_path m k = None → let '(err, k') := bpf_map__pin m f k in
    objects_stay k k' ∧ files k' = (if err =? 0 then {[f]} ∪ files k else files k) ∧
    (∀ m', open_map m' k → m' ≠ m → given_path m' k' = given_path m' k) ∧
    ∀ m', open_map m' k → bpf_map__name m' k' = bpf_map__name m' k ∧ (ready m' k → ready m' k');
  (** a name that can hold a pinned map, and holds none, takes one that was created *)
  pinnable : string → Prop;
  pin_works m f k : lib_ok k → open_map m k → given_path m k = None → ready m k → pinnable f → f ∉ files k → (bpf_map__pin m f k).1 = 0
}.

Section pinned.
Context {K : Type} `{BpfLaws K}.

Lemma objects_stay_refl k : lib_ok k → objects_stay k k.
Proof. intros. by split. Qed.
Lemma objects_stay_trans k1 k2 k3 : objects_stay k1 k2 → objects_stay k2 k3 → objects_stay k1 k3.
Proof.
  intros (? & Ho1 & Hm1) (? & Ho2 & Hm2). split; [done|]. split; [congruence|]. intros obj Hobj.
  destruct (Hm1 obj Hobj) as [<- <-]. apply Hm2. by rewrite Ho1.
Qed.
Lemma open_map_stays k k' m : objects_stay k k' → open_map m k → open_map m k'.
Proof. intros (_ & Ho & Hm) (obj & Hobj & Hin). exists obj. rewrite Ho. by rewrite (proj1 (Hm obj Hobj)). Qed.

Lemma undisturbed_refl k : lib_ok k → undisturbed k k.
Proof. intros. split; [by apply objects_stay_refl|done]. Qed.
Lemma undisturbed_trans k1 k2 k3 : undisturbed k1 k2 → undisturbed k2 k3 → undisturbed k1 k3.
Proof.
  intros (Hs1 & Hf1 & Hp1) (Hs2 & Hf2 & Hp2). split; [by eapply objects_stay_trans|]. split; [congruence|].
  intros m Hm. rewrite Hp2 by (by eapply open_map_stays). by apply Hp1.
Qed.
Lemma undisturbed_ok k k' : undisturbed k k' → lib_ok k'.
Proof. by intros [[? _] _]. Qed.

(** What of an entry stays: its name and its file. *)
Definition key (p : bpf_pinned_map) : string * string := (name p, pin_file p).
Definition same_names (l l' : list bpf_pinned_map) : Prop := map key l' = map key l.

Lemma Forall_same_names (Q : string * string → Prop) l l' :
  same_names l l' → Forall (λ p, Q (key p)) l → Forall (λ p, Q (key p)) l'.
Proof.
  intros Hk. change (λ p, Q (key p)) with (Q ∘ key). rewrite <-!Forall_fmap.
  change (fmap key) with (map key). by rewrite Hk.
Qed.

Lemma same_names_names l l' : same_names l l' → map name l' = map name l.
Proof.
  intros Hk. assert (∀ l, map name l = map fst (map key l)) as E.
  { intros l0. induction l0 as [|p l0 IH]; [done|]. cbn. by rewrite IH. }
  by rewrite !E, Hk.
Qed.

Lemma Forall_requested (l : list bpf_pinned_map) :
  Forall (λ p, pin_file p ∈ (list_to_set (map pin_file l) : gset string)) l.
Proof.
  apply Forall_forall. intros p Hp. apply elem_of_list_to_set, list_elem_of_In, in_map.
  by apply list_elem_of_In.
Qed.

Lemma reset_names l : same_names l (with_fd (-1) <$> l).
Proof. induction l as [|p l IH]; [done|]. unfold same_names in *. cbn. by rewrite <-IH. Qed.

(** An entry with a descriptor has its file, and an entry with its name in [N]
    has it when the file can be made. *)
Definition backed (k : K) (p : bpf_pinned_map) : Prop := map_fd p ≠ -1 → pin_file p ∈ files k.
Definition served (N : list string) (k : K) (nf : string * string) : Prop :=
  nf.1 ∈ N → pinnable nf.2 → nf.2 ∈ files k.

Lemma backed_more k k' l : files k ⊆ files k' → Forall (backed k) l → Forall (backed k') l.
Proof. intros Hs Hb. eapply Forall_impl; [exact Hb|]. intros p Hp Hx. by apply Hs, Hp. Qed.

Lemma served_more N k k' l :
  files k ⊆ files k' → Forall (λ p, served N k (key p)) l → Forall (λ p, served N k' (key p)) l.
Proof. intros Hs Hb. eapply Forall_impl; [exact Hb|]. intros p Hp Hin Hpin. apply Hs. by apply Hp. Qed.

(** *** Before the load *)

Lemma set_offload_spec i m k :
  lib_ok k → wp (set_offload i m) (λ r k', r = Ok tt ∧ undisturbed k k') k.
Proof.
  intros Hk. unfold set_offload. wp_steps. case_match; [apply wp_ret; split; [done|by apply undisturbed_refl]|].
  apply wp_run. split; [done|by apply set_map_ifindex_law].
Qed.

Lemma try_open_spec m n p k : lib_ok k → backed k p →
  wp (try_open m n p) (λ r k', ∃ p', r = Ok p' ∧ key p' = key p ∧ backed k' p' ∧ undisturbed k k') k.
Proof.
  intros Hk Hb. unfold try_open. case_match; [apply wp_ret; eexists; by split_and!; [..|apply undisturbed_refl]|].
  wp_step. wp_step. pose proof (get_law (pin_file p) k Hk) as Hg.
  match goal with E : bpf_obj_get _ _ = _ |- _ => rewrite E in Hg end. destruct Hg as [Hu Hin].
  assert (files k' = files k) as Hf by apply Hu. destruct (Z.ltb_spec 0 a) as [Hlt|Hge].
  - wp_step. wp_step. pose proof (reuse_law m a k' (undisturbed_ok _ _ Hu)) as Hr.
    match goal with E : bpf_map__reuse_fd _ _ _ = _ |- _ => rewrite E in Hr end. cbn in Hr. apply wp_ret. eexists.
    assert (files k'0 = files k') as Hf2 by apply Hr.
    split_and!; [done..| |by eapply undisturbed_trans]. intros _. cbn. rewrite Hf2, Hf. by apply Hin.
  - apply wp_ret. eexists. split_and!; [done..| |done]. intros Hp. rewrite Hf. by apply Hb.
Qed.

Lemma open_each_spec m n l k : lib_ok k → Forall (backed k) l →
  wp (update_each (try_open m n) l) (λ r k', ∃ l', r = Ok l' ∧ same_names l l' ∧ Forall (backed k') l' ∧ undisturbed k k') k.
Proof.
  revert k. induction l as [|p l IH]; intros k Hk Hb.
  { apply wp_ret. eexists. split_and!; [done..|]. by apply undisturbed_refl. }
  apply Forall_cons in Hb as [Hp Hb]. cbn [update_each]. wp_step.
  eapply wp_mono; [by apply try_open_spec|]. intros r k1 (p' & -> & Hkey & Hb1 & Hu1). wp_step.
  assert (files k1 = files k) as Hf1 by apply Hu1.
  eapply wp_mono; [apply IH; [by eapply undisturbed_ok|by apply (backed_more k); [rewrite Hf1|]]|].
  intros r k2 (l' & -> & Hn & Hb2 & Hu2). assert (files k2 = files k1) as Hf2 by apply Hu2. apply wp_ret. eexists.
  split; [done|]. split; [unfold same_names in *; cbn; congruence|]. split; [|by eapply undisturbed_trans].
  constructor; [|done]. intros Hx. rewrite Hf2. by apply Hb1.
Qed.

Lemma open_pinned_spec i obj l k : lib_ok k → Forall (backed k) l →
  wp (open_pinned i obj l) (λ r k', ∃ l', r = Ok l' ∧ same_names l l' ∧ Forall (backed k') l' ∧ undisturbed k k') k.
Proof.
  intros Hk Hb. unfold open_pinned. wp_steps.
  apply (wp_for_each_inv (λ l' k', same_names l l' ∧ Forall (backed k') l' ∧ undisturbed k k')).
  2: { split; [done|]. split; [done|by apply undisturbed_refl]. }
  intros m l1 k1 _ (Hn1 & Hb1 & Hu1). pose proof (undisturbed_ok _ _ Hu1). wp_steps.
  eapply wp_mono; [by apply set_offload_spec|]. intros r k2 [-> Hu2]. assert (files k2 = files k1) as Hf2 by apply Hu2.
  eapply wp_mono; [apply open_each_spec; [by eapply undisturbed_ok|by apply (backed_more k1); [rewrite Hf2|]]|].
  intros r k3 (l3 & -> & Hn3 & Hb3 & Hu3). eexists. split; [done|]. split; [unfold same_names in *; congruence|].
  split; [done|]. by eapply undisturbed_trans, undisturbed_trans.
Qed.

(** *** After the load *)

(** The map [m] may have been pinned to a file of [D]. *)
Definition pinning (D : gset string) (m : Z) (k k' : K) : Prop :=
  objects_stay k k' ∧ files k ⊆ files k' ∧ files k' ⊆ files k ∪ D ∧
  (∀ m', open_map m' k → m' ≠ m → given_path m' k' = given_path m' k) ∧
  ∀ m', open_map m' k → bpf_map__name m' k' = bpf_map__name m' k ∧ (ready m' k → ready m' k').

Lemma pinning_refl D m k : lib_ok k → pinning D m k k.
Proof. intros. split; [by apply objects_stay_refl|]. split_and!; set_solver. Qed.

Lemma pin_other m n l k : n ∉ map name l → update_each (try_pin m n) l k = (Ok l, k).
Proof.
  induction l as [|p l IH]; intros Hn; [done|]. cbn in Hn. apply not_elem_of_cons in Hn as [Hp Hn].
  cbn [update_each]. unfold mbind, io_bind. unfold try_pin at 1. rewrite (proj2 (String.eqb_neq n (name p)) Hp).
  cbn [negb mret io_ret]. by rewrite IH.
Qed.

Lemma try_pin_spec (D : gset string) m p k :
  lib_ok k → open_map m k → given_path m k = None → ready m k → backed k p → pin_file p ∈ D →
  wp (try_pin m (name p) p) (λ r k', ∃ p', r = Ok p' ∧ key p' = key p ∧ backed k' p' ∧
    (pinnable (pin_file p) → pin_file p ∈ files k') ∧ pinning D m k k') k.
Proof.
  intros Hk Hm Hpath Hready Hb HD. unfold try_pin. rewrite String.eqb_refl. cbn [negb].
  destruct (Z.eqb_spec (map_fd p) (-1)) as [Hfd|Hfd]; cbn [negb].
  2: { apply wp_ret. eexists. split_and!; [done..| |by apply pinning_refl]. intros _. by apply Hb. }
  wp_step. wp_step. pose proof (pin_law m (pin_file p) k Hk Hm Hpath) as Hp.
  pose proof (pin_works m (pin_file p) k Hk Hm Hpath Hready) as Hw.
  match goal with E : bpf_map__pin _ _ _ = _ |- _ => rewrite E in Hp, Hw end. destruct Hp as (Hs & Hf & Hother & Hnames).
  cbn in Hw. destruct (Z.eqb_spec a 0) as [Ea|Ea]; cbn [negb]; wp_steps; eexists.
  - assert (pin_file p ∈ files k') as Hin by (rewrite Hf; set_solver).
    split; [done|]. split; [done|]. split; [by intros _|]. split; [by intros _|].
    split; [done|]. rewrite Hf. split_and!; [set_solver|set_solver|done..].
  - split; [done|]. split; [done|]. split; [by intros Hx; rewrite Hfd in Hx|].
    split; [|split; [done|rewrite Hf; split_and!; [done|set_solver|done..]]].
    intros Hpin. rewrite Hf. destruct (decide (pin_file p ∈ files k)) as [|Hni]; [done|]. by destruct Ea; apply Hw.
Qed.

Lemma pin_each_spec (D : gset string) m n l k :
  lib_ok k → open_map m k → given_path m k = None → ready m k → NoDup (map name l) →
  Forall (backed k) l → Forall (λ p, pin_file p ∈ D) l →
  wp (update_each (try_pin m n) l) (λ r k', ∃ l', r = Ok l' ∧ same_names l l' ∧ Forall (backed k') l' ∧
    Forall (λ p, served [n] k' (key p)) l' ∧ pinning D m k k') k.
Proof.
  revert k. induction l as [|p l IH]; intros k Hk Hm Hpath Hready Hnd Hb HD.
  { apply wp_ret. eexists. split_and!; [done..|by apply pinning_refl]. }
  apply Forall_cons in HD as [HpD HD]. apply Forall_cons in Hb as [Hp Hb]. cbn in Hnd.
  apply NoDup_cons in Hnd as [Hnp Hnd]. cbn [update_each]. wp_step. destruct (decide (n = name p)) as [->|Hne].
  - eapply wp_mono; [by apply (try_pin_spec D)|]. intros r k1 (p' & -> & Hkey & Hb1 & Hserve & Hpin). wp_step.
    apply (wp_eq _ _ _ _ _ (pin_other m (name p) l k1 Hnp)). apply wp_ret. eexists. split; [done|].
    split; [unfold same_names; cbn; by rewrite Hkey|]. pose proof Hpin as (_ & Hs & _).
    split; [constructor; [done|by eapply backed_more]|]. split; [|done]. constructor.
    + rewrite Hkey. intros _. apply Hserve.
    + apply Forall_forall. intros q Hq Hin. destruct Hnp. apply list_elem_of_singleton in Hin. cbn in Hin.
      rewrite <-Hin. apply list_elem_of_In, in_map. by apply list_elem_of_In.
  - unfold try_pin at 1. rewrite (proj2 (String.eqb_neq n (name p)) Hne). cbn [negb]. wp_step. wp_step.
    eapply wp_mono; [by apply IH|]. intros r k1 (l' & -> & Hn & Hb1 & Hs1 & Hpin). apply wp_ret. eexists.
    split; [done|]. split; [unfold same_names in *; cbn; by rewrite Hn|]. pose proof Hpin as (_ & Hs & _).
    split; [constructor; [intros Hx; by apply Hs, Hp|done]|]. split; [|done]. constructor; [|done].
    intros Hin. apply list_elem_of_singleton in Hin. cbn in Hin. congruence.
Qed.

(** Where the loop over the maps of [obj] is, from [k] with the entries [l]: [seen] are done. *)
Definition pinned_so_far (D : gset string) (obj : Z) (l : list bpf_pinned_map) (k : K) (seen rest : list Z)
    (l' : list bpf_pinned_map) (k' : K) : Prop :=
  bpf_object__maps obj k = seen ++ rest ∧ same_names l l' ∧ Forall (backed k') l' ∧
  Forall (λ p, served (map (λ m, bpf_map__name m k) seen) k' (key p)) l' ∧
  objects_stay k k' ∧ files k ⊆ files k' ∧ files k' ⊆ files k ∪ D ∧
  Forall (λ m, given_path m k' = None ∧ ready m k') rest ∧ ∀ m, open_map m k → bpf_map__name m k' = bpf_map__name m k.

Lemma pin_round (D : gset string) obj l k seen m rest l1 k1 :
  obj ∈ opened k → NoDup (bpf_object__maps obj k) → NoDup (map name l) → Forall (λ p, pin_file p ∈ D) l →
  pinned_so_far D obj l k seen (m :: rest) l1 k1 →
  wp (update_each (try_pin m (bpf_map__name m k1)) l1)
    (λ r k', ∃ l', r = Ok l' ∧ pinned_so_far D obj l k (seen ++ [m]) rest l' k') k1.
Proof.
  intros Hobj Hnd Hnn HD (Hl & Hn & Hb & Hserved & Hs & Hf1 & Hf2 & Hpaths & Hnames).
  apply Forall_cons in Hpaths as [[Hpath Hready] Hpaths].
  assert (∀ x, x ∈ m :: rest → open_map x k) as Hopen.
  { intros x Hx. exists obj. split; [done|]. rewrite Hl. set_solver. }
  assert (∀ x, open_map x k → open_map x k1) as Hstay by (intros x; by apply open_map_stays).
  eapply wp_mono.
  { apply (pin_each_spec D); [apply Hs|apply Hstay, Hopen; left|done|done| |done|].
    - by rewrite (same_names_names _ _ Hn).
    - by apply (Forall_same_names (λ nf, nf.2 ∈ D) l). }
  intros r k2 (l2 & -> & Hn2 & Hb2 & Hs2 & Hstay2 & Hg1 & Hg2 & Hothers & Hnames2). eexists. split; [done|].
  split; [by rewrite Hl, <-(assoc_L (++))|]. split; [unfold same_names in *; congruence|]. split; [done|]. split.
  { apply (served_more _ _ _ _ Hg1) in Hserved. apply (Forall_same_names _ _ _ Hn2) in Hserved.
    apply Forall_forall. intros p Hp Hin. rewrite Forall_forall in Hserved, Hs2. rewrite map_app in Hin.
    apply elem_of_app in Hin as [Hin|Hin]; [by apply Hserved|]. apply (Hs2 p Hp). cbn in Hin.
    by rewrite Hnames by (apply Hopen; left). }
  split; [by eapply objects_stay_trans|]. split; [set_solver|]. split; [set_solver|]. split.
  - apply Forall_forall. intros x Hx. rewrite Forall_forall in Hpaths. destruct (Hpaths x Hx) as [Hpx Hrx].
    assert (open_map x k1) as Hox by (apply Hstay, Hopen; by right).
    split; [rewrite Hothers; [done|done|]|by apply Hnames2].
    intros ->. rewrite Hl in Hnd. apply NoDup_app in Hnd as (_ & _ & Hnd). apply NoDup_cons in Hnd as [Hnd _]. done.
  - intros x Hx. rewrite (proj1 (Hnames2 x (Hstay x Hx))). by apply Hnames.
Qed.

Lemma pin_maps_spec (D : gset string) obj l k :
  lib_ok k → obj ∈ opened k → NoDup (bpf_object__maps obj k) →
  Forall (λ m, given_path m k = None ∧ ready m k) (bpf_object__maps obj k) → NoDup (map name l) →
  Forall (backed k) l → Forall (λ p, pin_file p ∈ D) l →
  wp (pin_maps obj l) (λ r k', ∃ l', r = Ok l' ∧ pinned_so_far D obj l k (bpf_object__maps obj k) [] l' k') k.
Proof.
  intros Hk Hobj Hnd Hpaths Hnn Hb HD. unfold pin_maps. wp_steps. eapply wp_mono.
  { apply (wp_for_each (λ rest l1 k1, ∃ seen, pinned_so_far D obj l k seen rest l1 k1)).
    2: { exists []. split; [done|]. split; [done|]. split; [done|]. split.
         { apply Forall_forall. intros p _ Hin. by apply elem_of_nil in Hin. }
         split; [by apply objects_stay_refl|]. split_and!; [done|set_solver|done..]. }
    intros m rest l1 k1 (seen & Hso). wp_steps. eapply wp_mono; [by eapply pin_round|].
    intros r k2 (l2 & -> & Hso2). eexists. split; [done|]. by eexists. }
  intros r k' (l' & -> & seen & Hso). exists l'. split; [done|]. pose proof Hso as (Hl & _). rewrite app_nil_r in Hl.
  by rewrite Hl.
Qed.
(** *** The whole load *)

(** Setting the attributes of the programs disturbs nothing. *)
Lemma set_programs_spec at_ progs k :
  lib_ok k →
  wp (for_each progs (λ prog first_prog,
        _ ← run (bpf_program__set_ifindex prog (attr_ifindex at_));
        _ ← run (bpf_program__set_type prog (prog_type at_));
        _ ← run (bpf_program__set_expected_attach_type prog (expected_attach_type at_));
        mret (if first_prog =? 0 then prog else first_prog)) 0)
     (λ r k', ∃ p, r = Ok p ∧ (p = 0 → Forall (λ q, q = 0) progs) ∧ undisturbed k k') k.
Proof.
  intros Hk. eapply wp_mono.
  { apply (wp_for_each (λ rest p k1, (p = 0 → ∃ seen, progs = seen ++ rest ∧ Forall (λ q, q = 0) seen) ∧
                                     undisturbed k k1)); [|split; [by exists []|by apply undisturbed_refl]].
    intros p rest f k1 [Hz Hg]. wp_steps. eexists. split; [done|]. split.
    { intros Hp. destruct (Z.eqb_spec f 0) as [->|]; [|done]. destruct (Hz eq_refl) as (seen & -> & Hs).
      exists (seen ++ [p]). rewrite <-(assoc_L (++)). split; [done|]. apply Forall_app. split; [done|]. by constructor. }
    pose proof (set_prog_ifindex_law p (attr_ifindex at_) k1 (undisturbed_ok _ _ Hg)) as Hu1.
    pose proof (set_type_law p (prog_type at_) _ (undisturbed_ok _ _ Hu1)) as Hu2.
    pose proof (set_attach_law p (expected_attach_type at_) _ (undisturbed_ok _ _ Hu2)) as Hu3.
    by eapply undisturbed_trans, undisturbed_trans, undisturbed_trans. }
  intros r k' (p & -> & Hz & Hg). exists p. split; [done|]. split; [|done]. intros Hp.
  destruct (Hz Hp) as (seen & -> & Hs). by rewrite app_nil_r.
Qed.

(** Why a load may fail: the object does not open, has no program, or is not
    loaded when it is open. *)
Definition no_load (f : string) (t : Z) (k : K) : Prop :=
  let '(obj, k1) := bpf_object__open_xattr f t k in
  IS_ERR_OR_NULL obj = true ∨ Forall (λ q, q = 0) (bpf_object__programs obj k1) ∨
  ∃ k2, undisturbed k1 k2 ∧ (bpf_object__load obj k2).1 ≠ 0.

(** The outcomes of the load, from [k] to [k']. *)
Definition load_outcome (why : Prop) (D : gset string) (k k' : K) (code : Z) (pins : list bpf_pinned_map)
    (out : option (Z * Z)) : Prop :=
  lib_ok k' ∧
  if code =? 0 then
    ∃ obj fd, out = Some (obj, fd) ∧ obj ∉ opened k ∧ opened k' = {[obj]} ∪ opened k ∧
      Forall (λ p, map_fd p ≠ -1 → pin_file p ∈ files k') pins ∧
      Forall (λ p, name p ∈ map (λ m, bpf_map__name m k') (bpf_object__maps obj k') →
                   pinnable (pin_file p) → pin_file p ∈ files k') pins ∧
      files k ⊆ files k' ∧ files k' ⊆ files k ∪ D
  else out = None ∧ code ∈ [- ENOENT; - EINVAL] ∧ why ∧ files k' = files k ∧ opened k' = opened k.

Lemma load_failed (why : Prop) D k k' code pins :
  lib_ok k' → why → code ∈ [- ENOENT; - EINVAL] → files k' = files k → opened k' = opened k →
  load_outcome why D k k' code pins None.
Proof.
  intros Hk Hw Hc Hf Ho. split; [done|]. rewrite (proj2 (Z.eqb_neq code 0)); [by split_and!|].
  intros ->. cbv in Hc. set_solver.
Qed.

(** Closing the object that was opened. *)
Lemma close_opened (k k1 k' : K) a :
  lib_ok k' → a ∉ opened k → opened k1 = {[a]} ∪ opened k → undisturbed k1 k' →
  lib_ok (bpf_object__close a k') ∧ files (bpf_object__close a k') = files k1 ∧ opened (bpf_object__close a k') = opened k.
Proof.
  intros Hk Ha Ho Hu. assert (opened k' = opened k1) as Ho' by apply Hu. assert (files k' = files k1) as Hf by apply Hu.
  destruct (close_law a k' Hk) as (Hk2 & Hf2 & Ho2); [rewrite Ho', Ho; set_solver|].
  split; [done|]. split; [congruence|]. rewrite Ho2, Ho', Ho. set_solver.
Qed.

(** The end of the load: the object [a] is open since [k1], and nothing was disturbed up to [k3]. *)
Lemma load_end_spec (why : Prop) (D : gset string) k k1 a first pins0 pins k3 :
  (first = 0 → why) → (∀ k2, undisturbed k1 k2 → (bpf_object__load a k2).1 ≠ 0 → why) →
  files k1 = files k → a ∉ opened k → opened k1 = {[a]} ∪ opened k → NoDup (bpf_object__maps a k1) →
  Forall (λ m, given_path m k1 = None) (bpf_object__maps a k1) → undisturbed k1 k3 →
  NoDup (map name pins0) → same_names pins0 pins → Forall (λ p, pin_file p ∈ D) pins → Forall (backed k3) pins →
  wp (if first =? 0 then
        _ ← run (bpf_object__close a); mret (- ENOENT, pins, None)
      else
        err ← call (bpf_object__load a);
        if negb (err =? 0) then
          _ ← run (bpf_object__close a); mret (- EINVAL, pins, None)
        else
          pins ← pin_maps a pins;
          fd ← ask (bpf_program__fd first);
          mret (0, pins, Some (a, fd)))
     (λ r k', ∃ code pins' out, r = Ok (code, pins', out) ∧
        same_names pins0 pins' ∧ load_outcome why D k k' code pins' out) k3.
Proof.
  intros Hw1 Hw2 Hf1 Ha Ho Hnd Hpaths Hu Hnn Hn HD Hb. pose proof (undisturbed_ok _ _ Hu) as Hk3.
  destruct (Z.eqb_spec first 0) as [Hz|_].
  { wp_steps. do 3 eexists. split; [done|]. split; [done|]. destruct (close_opened k k1 k3 a Hk3 Ha Ho Hu) as (? & ? & ?).
    apply load_failed; [done|by apply Hw1|set_solver|congruence|done]. }
  assert (∀ m, m ∈ bpf_object__maps a k1 → open_map m k1) as Hopen.
  { intros m Hm. exists a. split; [rewrite Ho; set_solver|done]. }
  assert (opened k3 = opened k1) as Ho3 by apply Hu. assert (a ∈ opened k1) as Hin1 by (rewrite Ho; set_solver).
  assert (bpf_object__maps a k3 = bpf_object__maps a k1) as Hm3 by apply Hu, Hin1.
  wp_step. wp_step. pose proof (load_law a k3 Hk3) as Hl. pose proof (Hw2 k3 Hu) as Hw3.
  match goal with E : bpf_object__load a k3 = _ |- _ => rewrite E in Hl, Hw3 end.
  assert (undisturbed k3 k' ∧ (a0 = 0 → Forall (λ m, ready m k') (bpf_object__maps a k3))) as [Hu4 Hready].
  { apply Hl; [by rewrite Ho3|]. rewrite Hm3. eapply Forall_impl; [apply Forall_and; split; [exact Hpaths|]|].
    - apply Forall_forall. exact Hopen.
    - cbn. intros m [Hp Hop]. rewrite (proj2 (proj2 Hu)) by done. done. }
  pose proof (undisturbed_trans _ _ _ Hu Hu4) as Hu14. pose proof (undisturbed_ok _ _ Hu14) as Hk4.
  destruct (Z.eqb_spec a0 0) as [Hz|Hne]; cbn [negb].
  2: { wp_steps. do 3 eexists. split; [done|]. split; [done|]. destruct (close_opened k k1 k' a Hk4 Ha Ho Hu14) as (? & ? & ?).
    apply load_failed; [done|by apply Hw3|set_solver|congruence|done]. }
  assert (opened k' = opened k1) as Ho4 by apply Hu14. assert (files k' = files k1) as Hf4 by apply Hu14.
  assert (bpf_object__maps a k' = bpf_object__maps a k1) as Hm4 by apply Hu14, Hin1.
  wp_step. eapply wp_mono.
  { apply (pin_maps_spec D); [done|by rewrite Ho4|by rewrite Hm4| | |by eapply backed_more; [|done]; rewrite (proj1 (proj2 Hu4))|done].
    - specialize (Hready Hz). rewrite Hm3 in Hready. rewrite Hm4. rewrite !Forall_forall in *. intros m Hm.
      split; [|by apply Hready]. rewrite (proj2 (proj2 Hu14)) by (by apply Hopen). by apply Hpaths.
    - by rewrite (same_names_names _ _ Hn). }
  intros r k5 (pins' & -> & _ & Hn5 & Hb5 & Hs5 & Hstay & Hg1 & Hg2 & _ & Hnm). wp_steps. do 3 eexists.
  split; [done|]. split; [unfold same_names in *; congruence|]. pose proof Hstay as (Hk5 & Ho5 & Hm5).
  assert (bpf_object__maps a k5 = bpf_object__maps a k') as Hm5a by (apply Hm5; by rewrite Ho4). split; [done|].
  do 2 eexists. split; [done|]. split; [done|]. split; [congruence|]. split; [done|]. split.
  - eapply Forall_impl; [exact Hs5|]. intros p Hp Hin Hpin. apply Hp; [|done]. rewrite Hm5a in Hin.
    erewrite map_ext_in; [exact Hin|]. intros m Hm. cbn. symmetry. apply Hnm. exists a. rewrite Ho4. split; [done|].
    by apply list_elem_of_In.
  - rewrite <-Hf1, <-Hf4. done.
Qed.

End pinned.

(** ** A concrete hook and a concrete library *)

(** The hook: the program per interface and mode; a program of another mode is in
    the way of a new one. *)
Module Hook.
Notation hook := (gmap (Z * Z) Z).
Definition at_slot (k : hook) (i m : Z) : Z := default 0 (k !! (i, m)).
Definition others (k : hook) (i m : Z) : bool :=
  existsb (λ m', negb (m' =? m) && negb (at_slot k i m' =? 0)) [0; 2; 4; 8].

Definition set_link (i fd f : Z) (k : hook) : Z * hook :=
  let m := mode_of f in
  if fd =? -1 then (0, <[(i, m) := 0]> k)
  else if others k i m then (- EEXIST, k)
  else if negb (Z.land f XDP_FLAGS_UPDATE_IF_NOEXIST =? 0) && negb (at_slot k i m =? 0) then (- EBUSY, k)
  else (0, <[(i, m) := fd]> k).

#[export] Instance hook_ops : LinkOps hook := {
  bpf_set_link_xdp_fd := set_link;
  bpf_get_link_xdp_id i f k := (0, reported (at_slot k i) (mode_of f), k)
}.

Lemma at_insert (k : hook) i m v i' m' :
  at_slot (<[(i, m) := v]> k) i' m' = if decide ((i, m) = (i', m')) then v else at_slot k i' m'.
Proof. unfold at_slot. rewrite lookup_insert. by case_decide. Qed.

#[export] Program Instance hook_laws : LinkLaws hook := {
  slot := at_slot; prog_id _ fd := fd
}.
Next Obligation. intros i fd f k _ _. cbn. unfold set_link. repeat case_match; cbn; unfold EEXIST, EBUSY; lia. Qed.
Next Obligation. intros i fd f k _ _. cbn. unfold set_link. repeat case_match; by cbn. Qed.
Next Obligation.
  intros i fd f k _ _ Hfd. cbn. unfold set_link. repeat case_match; cbn; try done; try lia.
  intros _. rewrite at_insert. by rewrite decide_True.
Qed.
Next Obligation. intros i f k _ _. cbn. rewrite at_insert. by rewrite decide_True. Qed.
Next Obligation.
  intros i fd f k i' m _ _ Hi. cbn. unfold set_link. repeat case_match; cbn; try done;
    rewrite at_insert, decide_False by naive_solver; done.
Qed.
Next Obligation.
  intros i fd f k _ _ Hfd Hx Hs. cbn in *. unfold set_link.
  rewrite (proj2 (Z.eqb_neq fd _)) by lia. case_match; [done|].
  by rewrite (proj2 (Z.eqb_neq _ _) Hx), (proj2 (Z.eqb_neq _ _) Hs).
Qed.
Next Obligation. done. Qed.
Next Obligation. done. Qed.
End Hook.
Import Hook.

(** A program of the native mode is in the way of one of the generic mode. *)
Definition native_there : hook := {[ (3, XDP_FLAGS_DRV_MODE) := 5 ]}.



(** The library: one object, 7, with a program and two maps, and a directory of
    pinned maps. *)
Module Library.
Record library := Lib { lib_files : gset string; lib_opened : gset Z; lib_paths : gmap Z string }.
Definition put_file (f : string) (k : library) : library := Lib ({[f]} ∪ lib_files k) (lib_opened k) (lib_paths k).
Definition put_opened (o : gset Z) (k : library) : library := Lib (lib_files k) o (lib_paths k).
Definition put_path (m : Z) (f : string) (k : library) : library := Lib (lib_files k) (lib_opened k) (<[m := f]> (lib_paths k)).

Definition pin (m : Z) (f : string) (k : library) : Z * library :=
  match lib_paths k !! m with
  | Some own => (if String.eqb own f then 0 else - EINVAL, k)
  | None => if decide (f ∈ lib_files k) then (- EEXIST, put_path m f k) else (0, put_path m f (put_file f k))
  end.

#[export] Instance library_ops : BpfOps library := {
  bpf_prog_load_xattr _ _ _ k := ((0, 7), put_opened ({[7]} ∪ lib_opened k) k);
  bpf_object__open_xattr _ _ k :=
    if decide (7 ∈ lib_opened k) then (0, k) else (7, Lib (lib_files k) ({[7]} ∪ lib_opened k) ∅);
  bpf_object__load _ k := (0, k);
  bpf_object__close o k := put_opened (lib_opened k ∖ {[o]}) k;
  bpf_object__programs _ _ := [71];
  bpf_object__maps _ _ := [72; 73];
  bpf_object__find_program_by_title _ _ _ := 71;
  bpf_object__find_map_by_name _ n _ := if String.eqb n "xsks_map" then 72 else 0;
  bpf_program__set_type _ _ k := k;
  bpf_program__set_ifindex _ _ k := k;
  bpf_program__set_expected_attach_type _ _ k := k;
  bpf_program__title _ _ := "xdp_sock";
  bpf_program__fd _ _ := 4;
  bpf_map__is_offload_neutral m _ := m =? 72;
  bpf_map__set_ifindex _ _ k := k;
  bpf_map__name m _ := if m =? 72 then "xsks_map"%string else "xdp_stats_map"%string;
  bpf_map__fd m _ := m - 60;
  bpf_map__reuse_fd _ _ k := (0, k);
  bpf_map__pin := pin;
  bpf_obj_get f k := if decide (f ∈ lib_files k) then (5, k) else (- ENOENT, k);
  bpf_obj_get_info_by_fd _ _ := (0, MapInfo 17 4 4 64);
  bpf_map_update_elem _ _ _ k := (0, k)
}.

#[export] Instance library_view : BpfView library := {
  lib_ok k := lib_opened k ⊆ {[7]}; files := lib_files; opened := lib_opened; given_path m k := lib_paths k !! m; ready _ _ := True
}.

Lemma same_undisturbed (k : library) : lib_opened k ⊆ {[7]} → undisturbed k k.
Proof. intros. apply undisturbed_refl. done. Qed.

Lemma pin_cases m f (k : library) : lib_paths k !! m = None →
  pin m f k = if decide (f ∈ lib_files k) then (- EEXIST, put_path m f k) else (0, put_path m f (put_file f k)).
Proof. unfold pin. by intros ->. Qed.

#[export] Program Instance library_laws : BpfLaws library := { pinnable _ := True }.
Next Obligation.
  intros f t k Hk. cbn. case_decide; cbn; [by apply same_undisturbed|]. split; [set_solver|]. split; [done|]. split; [done|].
  split; [done|]. split; [|by repeat constructor].
  apply NoDup_cons. split; [set_solver|apply NoDup_singleton].
Qed.
Next Obligation.
  intros obj k Hk _ _. cbn. split; [by apply same_undisturbed|]. intros _. by repeat constructor.
Qed.
Next Obligation. intros obj k Hk Ho. cbn in *. split; [set_solver|done]. Qed.
Solve Obligations with (intros; by apply same_undisturbed).
Next Obligation.
  intros f k Hk. cbn. case_decide; (split; [by apply same_undisturbed|]); [done|]. unfold ENOENT. lia.
Qed.
Next Obligation.
  intros m f k Hk _ Hp. cbn in *. rewrite pin_cases by done. case_decide; cbn.
  - split; [done|]. split; [done|]. split; [|done]. intros m' _ Hne. by rewrite lookup_insert_ne.
  - split; [done|]. split; [done|]. split; [|done]. intros m' _ Hne. by rewrite lookup_insert_ne.
Qed.
Next Obligation. intros m f k Hk _ Hp _ _ Hf. cbn in *. rewrite pin_cases by done. by rewrite decide_False. Qed.
End Library.
Import Library.

(** "stats" is pinned already and the map of the sockets is not. *)
Definition two_pins : bpf_prog_load_attr_maps :=
  Attr (Some "prog.o"%string) BPF_PROG_TYPE_XDP 0 0
    [Pinned "xsks_map" "/sys/fs/bpf/xsks" 0; Pinned "xdp_stats_map" "/sys/fs/bpf/stats" 0].
Definition stats_pinned : library := Lib {[ "/sys/fs/bpf/stats"%string ]} ∅ ∅.

