(* ===== verification/XdpSetup.v ===== *)
(** * Setting the programs up and closing them: lxdpFlow.c, comm.c, af_xdp_user.c

    [create_init_xdp_sock] and [close_xdp_sock] of the capture library, their two
    callers in comm.c, and [main] of the receiver.  The calls of the system are
    the interface [SysOps]; what is printed is left out, but the help text. *)

From Stdlib Require Import Ascii.
From S2P Require Import Prelude Io Config CmdLine Loader Packet XskRing.
From S2P Require Xsk AfXdp.

Class SysOps (K : Type) := {
  setrlimit_memlock : K → Z * K;
  (** the bytes of the memory, or [None] for an error *)
  posix_memalign : Z → K → option (list Z) * K;
  calloc : K → bool * K;
  malloc : K → bool * K;
  (** [free] of a block that one of these gave *)
  free_block : K → K;
  (** error code, fill ring and completion ring *)
  xsk_umem__create : Z → K → Z * xsk_ring Z * xsk_ring Z * K;
  (** error code, RX ring and TX ring *)
  xsk_socket__create : string → Z → Xsk.xsk_umem_info → Xsk.xsk_socket_config → K →
    Z * xsk_ring xdp_desc * xsk_ring xdp_desc * K;
  xsk_socket__delete : K → K;
  xsk_umem__delete : K → K;
  if_nametoindex : string → K → Z;
  pthread_create : K → Z * K
}.

(** [strcpy(dst, src)] into an array. *)
Definition strcpy (dst : list ascii) (src : string) : res (list ascii) :=
  let l := String.list_ascii_of_string src in
  if (length l <? length dst)%nat then Ok (l ++ zero :: drop (S (length l)) dst) else Err OutOfBounds.

Section setup.
Context {K : Type} `{LinkOps K, BpfOps K, SysOps K}.

(** ** The umem and the socket *)

Definition packet_buffer_size : Z := Xsk.NUM_FRAMES * Xsk.FRAME_SIZE.

(** NULL when there is no memory or no umem. *)
Definition configure_xsk_umem (size : Z) : io K (option Xsk.xsk_umem_info) :=
  ok ← call calloc;
  if negb ok then mret None
  else
    '(ret, fq, cq) ← call (xsk_umem__create size);
    if negb (ret =? 0) then mret None else mret (Some (Xsk.UmemInfo fq cq)).

(** What [xsk_configure_socket] reads of the configuration. *)
Definition socket_config (cfg : config) : res Xsk.config :=
  nm ← ifname_string cfg;
  Ok (Xsk.Config (xdp_flags cfg) (ifindex cfg) nm (xsk_bind_flags cfg) (xsk_if_queue cfg)).

(** [xsk_configure_socket] of Xsk.v with the calls it makes, after the calloc. *)
Definition configure_with (ok : bool) (c : Xsk.config) (um : Xsk.xsk_umem_info) :
  io K (option Xsk.xsk_socket_info) := λ k,
  let create n q u xc := xsk_socket__create n q u xc k in
  let xc := Xsk.XskCfg Xsk.XSK_RING_CONS__DEFAULT_NUM_DESCS Xsk.XSK_RING_PROD__DEFAULT_NUM_DESCS 0
              (Xsk.xdp_flags c) (Xsk.xsk_bind_flags c) in
  let k' := if ok then (create (Xsk.ifname c) (Xsk.xsk_if_queue c) um xc).2 else k in
  let got := bpf_get_link_xdp_id (Xsk.ifindex c) (Xsk.xdp_flags c) k' in
  match Xsk.xsk_configure_socket ok (λ n q u xc, (create n q u xc).1)
          (λ i f, (bpf_get_link_xdp_id i f k').1.1) c um with
  | Ok (s, _) => (Ok s, if ok && ((create (Xsk.ifname c) (Xsk.xsk_if_queue c) um xc).1.1.1 =? 0) then got.2 else k')
  | Err e => (Err e, got.2)
  end.

Definition configure_socket (cfg : config) (um : Xsk.xsk_umem_info) : io K (option Xsk.xsk_socket_info) :=
  c ← pure_res (socket_config cfg);
  ok ← call calloc;
  configure_with ok c um.

(** The part of the two set-ups that is the same: memory, umem and socket; the
    failures end the program. *)
Definition open_socket (cfg : config) (clear : bool) : io K (Xsk.xsk_socket_info * list Z) :=
  err ← call setrlimit_memlock;
  if negb (err =? 0) then exit_with EXIT_FAILURE
  else
    buf ← call (posix_memalign packet_buffer_size);
    match buf with
    | None => exit_with EXIT_FAILURE
    | Some buf =>
      let buf := if clear then replicate (Z.to_nat packet_buffer_size) 0 else buf in
      um ← configure_xsk_umem packet_buffer_size;
      match um with
      | None => exit_with EXIT_FAILURE
      | Some um =>
        s ← configure_socket cfg um;
        match s with
        | None => exit_with EXIT_FAILURE
        | Some s => mret (s, buf)
        end
      end
    end.

(** ** lxdpFlow.c *)

Definition unload_bpf_xdp_program (cfg : config) : io K Z := xdp_link_detach (ifindex cfg) (xdp_flags cfg) 0.

(** The object and its socket map; [None] for NULL or no such map. *)
Definition load_with_xsks_map (cfg : config) : io K (option (Z * config)) :=
  '(bpf_obj, cfg) ← load_bpf_and_xdp_attach cfg;
  if bpf_obj =? 0 then mret None
  else
    map ← ask (bpf_object__find_map_by_name bpf_obj "xsks_map");
    xsks_map_fd ← ask (bpf_map__fd map);
    if xsks_map_fd <? 0 then mret None else mret (Some (bpf_obj, cfg)).

Definition load_bpf_xdp_program (cfg : config) : io K Z :=
  if negb (Ascii.eqb (first_char (filename cfg)) zero) then
    r ← load_with_xsks_map cfg;
    match r with None => mret (-1) | Some _ => mret 0 end
  else mret 0.

(** [*umem] is the umem of the socket. *)
Definition create_init_xdp_sock (cfg : config) (bpf_program_path : option string) :
  io K (Xsk.xsk_socket_info * list Z) :=
  cfg ← (match bpf_program_path with
         | None => mret cfg
         | Some path =>
           f ← pure_res (strcpy (filename cfg) path);
           let cfg := with_files f (progsec cfg) cfg in
           r ← load_bpf_xdp_program cfg;
           if negb (r =? 0) then exit_with EXIT_FAILURE else mret cfg
         end);
  open_socket cfg true.

(** The socket and the umem are read before they are compared with NULL, so that both
    are freed at the end. *)
Definition close_xdp_sock (xsk_socket : option Xsk.xsk_socket_info) (cfg : config)
    (umem : option Xsk.xsk_umem_info) : io K unit :=
  _ ← pure_res (or_fault xsk_socket NullDeref);
  _ ← run xsk_socket__delete;
  _ ← pure_res (or_fault umem NullDeref);
  _ ← run xsk_umem__delete;
  _ ← unload_bpf_xdp_program cfg;
  _ ← xdp_link_detach (ifindex cfg) (xdp_flags cfg) 0;
  _ ← run free_block;
  _ ← run free_block;
  mret tt.

(** ** comm.c *)

Definition IFNAMSIZ : Z := 16.

(** [cfg.xsk_bind_flags &= XDP_COPY] of an initialised struct. *)
Definition comm_config (poll : bool) : config :=
  with_switches false false poll (config_init (-1) "xdp_sock").

Definition createXDPSocket (itf : string) (queue : Z) : io K (option (Xsk.xsk_socket_info * list Z)) :=
  let cfg := with_queue queue (comm_config true) in
  let cfg := with_bind_flags (Z.land (xsk_bind_flags cfg) XDP_COPY) cfg in
  let cfg := with_switches false false false cfg in
  ok ← call malloc;
  if negb ok then mret None
  else if IFNAMSIZ <=? Z.of_nat (strlen itf) then pure_res (Err OutOfBounds)
  else
    n ← ask (if_nametoindex itf);
    let cfg := with_ifname (Elsewhere itf) (s32 n) cfg in
    if ifindex cfg =? 0 then mret None
    else
      s ← create_init_xdp_sock cfg None;
      mret (Some s).

Definition destroyXDPSocket (s : option Xsk.xsk_socket_info) : io K unit :=
  close_xdp_sock s (comm_config true) (Xsk.umem <$> s).

(** ** main of af_xdp_user.c *)

(** [bpf_object__find_map_fd_by_name]: a NULL object has no map. *)
Definition find_map_fd_by_name (obj : Z) (nm : string) : io K Z :=
  map ← ask (bpf_object__find_map_by_name obj nm);
  ask (bpf_map__fd map).

Section main.
Variable getopt_long : list string → string → list option_entry → list (Z * option string).
Variable turn : Xsk.world K → Xsk.world K.
Variable poll : K → Z → Z.
Variables rounds fuel : nat.

(** The receiver on the socket: its statistics, or [OutOfFuel] when [rounds] are
    used up. *)
Definition receive (cfg : config) (s : Xsk.xsk_socket_info) (buf : list Z) :
  io K (AfXdp.stats_record) := λ k,
  match AfXdp.rx_and_process turn poll rounds fuel (xsk_poll_mode cfg)
          (AfXdp.Stats 0 0 0 0 0) (Xsk.World s k buf 1) with
  | Ok (Some (st, w)) => (Ok st, Xsk.kern w)
  | Ok None => (Err OutOfFuel, k)
  | Err e => (Err e, k)
  end.

Definition doc : string := "AF_XDP kernel bypass example" +:+ newline.

(** The loading of the program the command line asks for; 0 for none. *)
Definition load_custom_program (cfg : config) : io K (Z * config) :=
  if Ascii.eqb (first_char (filename cfg)) zero then mret (0, cfg)
  else
    r ← load_with_xsks_map cfg;
    match r with None => exit_with EXIT_FAILURE | Some r => mret r end.

(** From the socket to the end. *)
Definition run_receiver (cfg : config) (verbose bpf_obj : Z) (s : Xsk.xsk_socket_info) (buf : list Z) :
  io K Z :=
  ret ← (if verbose =? 0 then mret 0 else call pthread_create);
  if negb (ret =? 0) then exit_with EXIT_FAILURE
  else
    map_puerto_fd ← find_map_fd_by_name bpf_obj "xdp_puerto_map";
    _ ← call (bpf_map_update_elem map_puerto_fd 1 9000);
    _ ← receive cfg s buf;
    _ ← run xsk_socket__delete;
    _ ← run xsk_umem__delete;
    _ ← xdp_link_detach (ifindex cfg) (xdp_flags cfg) 0;
    mret EXIT_OK.

Definition main (argv : list string) : io K Z :=
  ok ← call malloc;
  nametoindex ← ask (λ k n, if_nametoindex n k);
  '(cfg, verbose) ← pure_res (parse_cmdline_args nametoindex getopt_long ok argv long_options
                                (config_init (-1) "xdp_sock") doc 1);
  if ifindex cfg =? -1 then
    _ ← pure_res (usage (default "" (head argv)) doc long_options (Z.of_nat (length argv) =? 1));
    mret EXIT_FAIL_OPTION
  else if do_unload cfg then xdp_link_detach (ifindex cfg) (xdp_flags cfg) 0
  else
    '(bpf_obj, cfg) ← load_custom_program cfg;
    '(s, buf) ← open_socket cfg false;
    run_receiver cfg verbose bpf_obj s buf.
End main.
End setup.
