(* ===== verification/CaptureRun.v ===== *)
(** * The capture drives the monitor

    [processThread] of dp.c hands every packet of the capture library to
    [process_packet], while the export thread moves.  The packets the kernel
    delivers through the rings of AF_XDP are the packets of a run of the monitor,
    so what is proved of such runs holds of the program from the wire to the
    lines it prints. *)

From S2P Require Import Prelude Log NodeList Rings FlowData Pools NodePool SessionPool.
From S2P Require Import FlowCore FlowTable Packet Monitor ProcessInv Export System Run.
From S2P Require Import XskRing Xsk XskInv XskSpec XskKernel XskProps.

Section thread.
Context {K : Type}.
Variable turn : world K → world K.
Variable clock_gettime : K → option (Z * Z).
Variable poll : K → Z → Z.
Context (offset_tz : Z) (fopen_ok : string → bool).

(** The callback: the export thread makes the steps the schedule gives it since
    the last packet, then the packet is processed. *)
Definition callback (buf : list Z) (h : pkthdr) (x : sys * list nat) : res (sys * list nat) :=
  σ ← run_events offset_tz fopen_ok (replicate (hd 0%nat x.2) EvExport ++ [EvPacket buf h]) x.1;
  Ok (σ, tail x.2).

Definition processThread (rounds : nat) (x : sys * list nat) (w : world K) :
  res (option ((sys * list nat) * world K)) :=
  rx_and_process turn clock_gettime poll rounds 0 true 5 1000 callback x w.
End thread.

(** ** The packets of a run *)

(** A packet of the kernel and the buffer and header the monitor gets for it. *)
Definition handed_over (p : packet) (bh : list Z * pkthdr) : Prop :=
  take (Z.to_nat (dlen p.1)) bh.1 = p.2 ∧ caplen bh.2 = dlen p.1 ∧ len bh.2 = dlen p.1.

Lemma run_events_app off fo es1 es2 σ :
  run_events off fo (es1 ++ es2) σ = (σ ← run_events off fo es1 σ; run_events off fo es2 σ).
Proof.
  revert σ. induction es1 as [|e es1 IH]; intros σ; [done|]. cbn [app run_events].
  destruct (sys_exec off fo e σ); [apply IH|done].
Qed.

Lemma export_steps n :
  packets (replicate n EvExport) = [] ∧
  ∀ prev, admissible_events prev (replicate n EvExport) ∧ last_second prev (replicate n EvExport) = prev.
Proof. induction n as [|n [IH1 IH2]]; [done|]. split; [apply IH1|]. intros prev. apply IH2. Qed.

Lemma monotone_app t es1 es2 : monotone t (es1 ++ es2) ↔ monotone t es1 ∧ monotone (end_time t es1) es2.
Proof. revert t. induction es1 as [|e es1 IH]; intros t; cbn; [tauto|]. rewrite IH. tauto. Qed.

Lemma end_time_app t es1 es2 : end_time t (es1 ++ es2) = end_time (end_time t es1) es2.
Proof. apply foldl_app. Qed.

Lemma export_times n t : monotone t (replicate n EvExport) ∧ end_time t (replicate n EvExport) = t.
Proof. induction n as [|n [IH1 IH2]]; [done|]. by split; [split|]. Qed.

Lemma last_second_app prev es1 es2 : last_second prev (es1 ++ es2) = last_second (last_second prev es1) es2.
Proof. apply foldl_app. Qed.

(** The time of a packet in microseconds, and its second. *)
Lemma packet_second sec nsec c l :
  0 ≤ sec < 2 ^ 40 → 0 ≤ nsec < 1000000000 →
  packet_time (PktHdr sec (nsec / 1000) c l) / US_IN_SEC = sec.
Proof.
  intros Hs Hn. unfold packet_time. cbn [ts_sec ts_usec]. unfold US_IN_SEC.
  rewrite (u64_small sec) by lia. rewrite u64_small by dlia. dlia.
Qed.

(** The time itself is the clock's, in microseconds. *)
Lemma packet_micros sec nsec c l :
  0 ≤ sec < 2 ^ 40 → 0 ≤ nsec < 1000000000 →
  packet_time (PktHdr sec (nsec / 1000) c l) = (sec * 1000000000 + nsec) / 1000.
Proof.
  intros Hs Hn. unfold packet_time. cbn [ts_sec ts_usec]. unfold US_IN_SEC.
  rewrite (u64_small sec) by lia. rewrite u64_small by dlia. dlia.
Qed.

(** ** The link *)

Section link.
Context {K : Type} (M mem : nat) (off tv : Z) (fo : string → bool).
Hypothesis sessions_enough : (2 ≤ M)%nat.
Hypothesis memory_enough : (3 * M + 3 ≤ mem)%nat.
Hypothesis files_open : ∀ n, fo n = true.
(** The kernel leaves twelve readable bytes behind a packet, and keeps the
    contract of AF_XDP. *)
Variables (holds : K → list Z) (delivered : K → list packet) (turn : world K → world K).
Hypothesis turn_ok : ∀ w, rtc (kstep 12 holds delivered) w (turn w).
(** The clock gives seconds after 1970 that do not go back. *)
Variables (sec nsec : K → Z).
Definition clock (k : K) : option (Z * Z) := Some (sec k, nsec k).
Hypothesis clock_range : ∀ k, 1 ≤ sec k < 2 ^ 40 ∧ 0 ≤ nsec k < 1000000000.
Hypothesis clock_monotone : ∀ w, sec (kern w) ≤ sec (kern (turn w)).

(** A clock whose nanoseconds do not go back either. *)
Definition nanos (k : K) : Z := sec k * 1000000000 + nsec k.
Definition steady : Prop := ∀ w, nanos (kern w) ≤ nanos (kern (turn w)).

(** The monitor in [x] is what a run on [es] gives, and the packets of [es] are
    [dn]. *)
Definition driven_by (σ0 : sys) (k : K) (dn : list packet) (x : sys * list nat) (es : list event) : Prop :=
  run_events off fo es σ0 = Ok x.1 ∧ admissible_events 0 es ∧ last_second 0 es ≤ sec k ∧
  Forall2 handed_over dn (packets es) ∧
  (steady → monotone 0 es ∧ end_time 0 es ≤ nanos k / 1000).
Definition driven (σ0 : sys) (k : K) (dn : list packet) (x : sys * list nat) : Prop :=
  ∃ es, driven_by σ0 k dn x es.

Lemma callback_ok σ0 g :
  sys_inv M σ0 g [] → previous (s_dp σ0) = 0 →
  fn_ok 12 (driven σ0) clock (callback off fo).
Proof.
  intros H0 Hprev k dn [σ sched] d b pkt sc ns (es & Hrun & Hadm & Hlast & Hpk & Hst) [= <- <-] Hd Hb Hroom.
  destruct (clock_range k) as [Hs Hn]. set (h := PktHdr (sec k) (nsec k / 1000) (dlen d) (dlen d)).
  set (n := hd 0%nat sched). set (new := replicate n EvExport ++ [EvPacket pkt h]).
  destruct (export_steps n) as [Hep Hea].
  assert (packet_time h / US_IN_SEC = sec k) as Hsec by (apply packet_second; lia).
  assert (admissible_events 0 (es ++ new)) as Hadm'.
  { apply admissible_events_app. split; [done|]. apply admissible_events_app.
    rewrite (proj2 (Hea _)). split; [apply Hea|]. cbn. unfold admissible. rewrite Hsec. cbn. lia. }
  rewrite <-Hprev in Hadm'.
  destruct (run_spec M off fo (es ++ new) σ0 g [] H0 Hadm' files_open) as (σ' & g' & hs & Er & _).
  pose proof Er as Er'. rewrite run_events_app, Hrun in Er. cbn [mbind res_bind fst] in Er.
  exists (σ', tail sched). unfold callback. cbn [fst snd]. fold n new. rewrite Er. split; [done|].
  exists (es ++ new). split; [exact Er'|]. split; [by rewrite <-Hprev|]. split.
  - unfold new. rewrite !last_second_app, (proj2 (Hea _)). cbn. by rewrite Hsec.
  - split; [unfold new; rewrite !packets_app, Hep; cbn [app packets];
      apply Forall2_app; [done|]; by constructor; [|constructor]|].
    intros Hsteady. destruct (Hst Hsteady) as [Hm He]. unfold new.
    destruct (export_times n (end_time 0 es)) as [Hxm Hxe].
    rewrite !monotone_app, !end_time_app, Hxe. cbn [monotone end_time foldl event_time].
    unfold h at 1 2. rewrite packet_micros by lia. by fold (nanos k).
Qed.

Lemma driven_turn σ0 w dn x : driven σ0 (kern w) dn x → driven σ0 (kern (turn w)) dn x.
Proof.
  intros (es & Hr & Ha & Hl & Hp & Hst). exists es. pose proof (clock_monotone w). split_and!; try done; [lia|].
  intros Hsteady. destruct (Hst Hsteady). split; [done|]. pose proof (Hsteady w). dlia.
Qed.

(** The monitor before the first packet. *)
Lemma driven_start σ0 k : ∀ sched, driven σ0 k [] (σ0, sched).
Proof.
  intros sched. exists []. destruct (clock_range k). split_and!; try done; cbn; [lia|].
  intros _. split; [done|]. unfold nanos. dlia.
Qed.

Variables (create : string → Z → xsk_umem_info → xsk_socket_config → Z * xsk_ring xdp_desc * xsk_ring xdp_desc)
  (link_id : Z → Z → Z) (cfg : config) (um : xsk_umem_info).
Hypothesis create_new : ∀ c, (create (ifname cfg) (xsk_if_queue cfg) um c).1.1 = 0 ∧
  new_cons (create (ifname cfg) (xsk_if_queue cfg) um c).1.2.
Hypothesis link_found : link_id (ifindex cfg) (xdp_flags cfg) = 0.
Hypothesis umem_new : new_prod (fq um).
Variables (k : K) (m : list Z).
Hypothesis nothing_held : holds k = [].
Hypothesis nothing_delivered : delivered k = [].
Hypothesis mem_length : Z.of_nat (length m) = NUM_FRAMES * FRAME_SIZE.

(** C3: The capture drives the monitor.  From the opening of the socket and the
    start of the monitor on, whatever the kernel and the signal handler do
    within the contract of AF_XDP, whatever bytes arrive, and however the export
    thread moves between the packets, the process thread never faults; when it
    ends, the monitor is in the state that a run gives whose packets are exactly
    the ones the kernel delivered and the capture took, in order, once each and
    with their bytes, no frame of the umem is lost, and no flow was dropped. *)
Theorem capture_drives_the_monitor poll b rounds sched :
  ∃ xsk σ0 o, xsk_configure_socket true create link_id cfg um = Ok (Some xsk, 0) ∧
    start_system (2 * M) M mem off fo tv = Ok σ0 ∧
    processThread turn clock poll off fo rounds (σ0, sched) (World xsk k m b) = Ok o ∧
    ∀ x' w', o = Some (x', w') →
      ∃ dn es, accounted 12 holds delivered w' dn ∧ Forall2 handed_over dn (packets es) ∧
        admissible_events 0 es ∧ run_events off fo es σ0 = Ok x'.1 ∧
        unprocessed_flows (flows (s_dp x'.1)) = 0.
Proof.
  destruct (start_system_spec M mem off fo tv sessions_enough memory_enough files_open) as
    (σ0 & g & E0 & H0 & Hp & _ & _ & Hu & _).
  destruct (capture_outcome 12 holds delivered turn turn_ok (driven σ0) clock (callback off fo)
    (driven_turn σ0) (callback_ok σ0 g H0 Hp) (λ k, ex_intro _ _ eq_refl) create link_id cfg um create_new
    link_found umem_new k m (σ0, sched) nothing_held nothing_delivered mem_length) with
    (poll := poll) (b := b) (rounds := rounds) (pm := true) (nt := 5) (to := 1000)
    as (xsk & o & Ex & Eo & Ho).
  { apply driven_start. }
  exists xsk, σ0, o. split_and!; try done. intros x' w' Hx.
  destruct (Ho x' w' Hx) as (dn & Hacc & es & Hr & Ha & _ & Hpk & _). exists dn, es. split_and!; try done.
  pose proof Ha as Ha'. rewrite <-Hp in Ha'.
  destruct (run_spec M off fo es σ0 g [] H0 Ha' files_open) as (σ' & g' & hs & Er & _ & _ & Hu' & _).
  rewrite Hr in Er. injection Er as ->. by rewrite Hu'.
Qed.
End link.

(** ** A run on the kernel of XskKernel.v *)

(** Its turns as a clock, within the range of the theorem. *)
Definition turn_seconds (k : kstate) : Z := Z.max 1 (Z.min (k_time k) (2 ^ 40 - 1)).

Lemma turn_seconds_range k : 1 ≤ turn_seconds k < 2 ^ 40 ∧ 0 ≤ 250000 < 1000000000.
Proof. unfold turn_seconds. lia. Qed.

Lemma turn_seconds_monotone n p w :
  turn_seconds (kern w) ≤ turn_seconds (kern (kernel_turn 12 60 2048 n p w)).
Proof. unfold turn_seconds. rewrite kernel_turn_time. lia. Qed.

Lemma capture_drives_the_monitor_witness :
  ∃ xsk σ0 o, xsk_configure_socket true create_ok link_ok eth0 new_umem = Ok (Some xsk, 0) ∧
    start_system 8 4 100 3600 (λ _, true) 5 = Ok σ0 ∧
    processThread (kernel_turn 12 60 2048 100 3) (clock turn_seconds (λ _, 250000)) poll_ready 3600 (λ _, true)
      20 (σ0, [2; 7]%nat) (World xsk (KState [] [] 0) umem_bytes 0) = Ok o ∧
    ∀ x' w', o = Some (x', w') →
      ∃ dn es, accounted 12 k_held k_delivered w' dn ∧ Forall2 handed_over dn (packets es) ∧
        admissible_events 0 es ∧ run_events 3600 (λ _, true) es σ0 = Ok x'.1 ∧
        unprocessed_flows (flows (s_dp x'.1)) = 0.
Proof.
  apply (capture_drives_the_monitor 4 100 3600 5 (λ _, true)) with (turn := kernel_turn 12 60 2048 100 3).
  - lia.
  - lia.
  - done.
  - apply kernel_turn_ok.
  - apply turn_seconds_range.
  - apply turn_seconds_monotone.
  - intros c. split; [done|apply empty_cons_new].
  - done.
  - apply empty_prod_new.
  - done.
  - done.
  - apply umem_bytes_length.
Defined.
