(* ===== verification/WireCapture.v ===== *)
(** * The packets of the capture as frames

    When the packets the kernel delivered carry well-formed frames, the run of
    the monitor that the capture drives (CaptureRun.v) is a run on those frames
    (WireRun.v), so that what the program prints is the reference NetFlow
    computation on what was on the wire. *)

From S2P Require Import Prelude Log NodeList Rings FlowData Pools NodePool SessionPool.
From S2P Require Import FlowCore FlowTable Packet Monitor ProcessInv PacketSpec Frame Export System Run WireRun.
From S2P Require Import XskRing Xsk XskInv XskSpec XskProps CaptureRun.

(** A packet that starts with the encoding of a well-formed frame. *)
Definition carries (p : packet) (f : frame) : Prop :=
  frame_ok f ∧ ∃ payload, p.2 = encode f ++ payload.

(** The capture of a packet of a frame: the frame, and the packet's length. *)
Definition captured (p : packet) (w : wire) : Prop :=
  carries p (w_frame w) ∧ len (w_header w) = dlen p.1.

Lemma encode_length f : frame_ok f → l4_offset f < Z.of_nat (length (encode f)).
Proof.
  intros (Hd & Hs & _ & _ & Hm & Hc & _ & _ & Ho & _ & Hl).
  apply octets_length in Hd, Hs. apply l4_bytes_pos in Hl. unfold encode, l4_offset.
  rewrite !length_app, length_tagged. unfold ip_bytes, be32, be16. rewrite !length_app. cbn [length].
  rewrite Hd, Hs, Hm, Hc. lia.
Qed.

(** One packet. *)
Lemma wire_of_packet prev buf h p f :
  admissible prev buf h → handed_over p (buf, h) → carries p f →
  ∃ w, wire_event (Some w) = EvPacket buf h ∧ w_frame w = f ∧ wire_ok w ∧ captured p w.
Proof.
  intros (Hroom & _ & _) (Htake & Hcap & Hlen) [Hf [payload Hp]]. cbn [fst snd] in *.
  exists (Wire f (payload ++ drop (Z.to_nat (dlen p.1)) buf) h). cbn [wire_event w_frame w_rest w_header].
  rewrite app_assoc, <-Hp, <-Htake, take_drop. split_and!; [done|done| |by split; [split; [|by exists payload]|]].
  split; [done|]. cbn [w_frame w_header]. rewrite Hcap.
  pose proof (encode_length f Hf) as He. apply (f_equal length) in Htake.
  rewrite Hp, length_app, length_take in Htake. pose proof (fr_ihl_ge f) as Hi. unfold l4_offset in *. lia.
Qed.

(** A run on packets that carry frames is a run on the frames. *)
Lemma wires_of_events es : ∀ prev dn fs,
  admissible_events prev es → Forall2 handed_over dn (packets es) → Forall2 carries dn fs →
  ∃ ws, wire_event <$> ws = es ∧ wires_ok prev ws ∧ w_frame <$> frames ws = fs ∧
    Forall2 captured dn (frames ws).
Proof.
  induction es as [|[buf h|] es IH]; intros prev dn fs Ha Hh Hc.
  - apply Forall2_nil_inv_r in Hh as ->. apply Forall2_nil_inv_l in Hc as ->. by exists [].
  - change (packets (EvPacket buf h :: es)) with ((buf, h) :: packets es) in Hh.
    apply Forall2_cons_inv_r in Hh as (p & dn' & Hp & Hh & ->).
    apply Forall2_cons_inv_l in Hc as (f & fs' & Hf & Hc & ->). destruct Ha as [Ha Has].
    destruct (wire_of_packet prev buf h p f Ha Hp Hf) as (w & Ew & Ef & Hw & Hcw).
    destruct (IH _ dn' fs' Has Hh Hc) as (ws & <- & Hws & <- & Hd). exists (Some w :: ws).
    assert (w_header w = h) as Eh by (cbn in Ew; by injection Ew). destruct Ha as (_ & Hm & Hp1).
    split_and!; [by rewrite <-Ew| |by cbn; rewrite Ef|by constructor].
    cbn [wires_ok]. by rewrite Eh.
  - destruct (IH prev dn fs Ha Hh Hc) as (ws & <- & Hws & <- & Hd). by exists (None :: ws).
Qed.

(** The run of the capture, some more steps of the export thread, and the SIGINT
    shutdown. *)
Lemma wire_capture_spec M mem off fo tv inf m es dn fs n σ0 :
  (2 ≤ M)%nat → (3 * M + 3 ≤ mem)%nat → (∀ x, fo x = true) →
  start_system (2 * M) M mem off fo tv = Ok σ0 →
  admissible_events 0 es → monotone 0 es → end_time 0 es + EXPIRATION_FLOW_TIME < u64 inf →
  Forall2 handed_over dn (packets es) → Forall2 carries dn fs → (length fs < M)%nat →
  ∃ ws σ σ', Forall2 captured dn ws ∧ w_frame <$> ws = fs ∧
    run_events off fo (es ++ replicate n EvExport) σ0 = Ok σ ∧ capturaSenial_flush off fo inf m σ = Ok σ' ∧
    unprocessed_packets (flows (s_dp σ)) = 0 ∧ unprocessed_flows (flows (s_dp σ)) = 0 ∧
    printed (s_x σ') = netflow_flows (netflow_run ws).
Proof.
  intros HM Hmem Hfo E0 Ha Hm Ht Hh Hc Hfs.
  destruct (export_steps n) as [Hep Hea], (export_times n (end_time 0 es)) as [Hxm Hxe].
  destruct (wires_of_events (es ++ replicate n EvExport) 0 dn fs) as (ws & Ew & Hws & Hf & Hd).
  - apply admissible_events_app. split; [done|apply Hea].
  - by rewrite packets_app, Hep, app_nil_r.
  - done.
  - destruct (wire_run_spec M mem off fo tv ws inf m HM Hmem Hfo Hws) as
      (σ1 & σ & σ' & E1 & Er & Ec & Hup & Hu & Hp).
    + by rewrite <-Hf, length_fmap in Hfs.
    + rewrite Ew. apply monotone_app. done.
    + by rewrite Ew, end_time_app, Hxe.
    + rewrite E0 in E1. injection E1 as <-. rewrite Ew in Er. exists (frames ws), σ, σ'. by split_and!.
Qed.
