(* ===== verification/CaptureEnd.v ===== *)
(** * The capture loop ends

    [rx_and_process] in poll mode counts the calls of [poll] that give nothing
    and forgets the count at every packet; when the packets come to an end, so
    does the loop.  [life] bounds what the kernel still has to do. *)

From S2P Require Import Prelude Packet XskRing Xsk.

Section ends.
Context {K X : Type}.
Variables (turn : world K → world K) (clock : K → option (Z * Z)) (poll : K → Z → Z).
Variables (fn : list Z → pkthdr → X → res X) (to : Z).
(** The turns of the kernel until nothing arrives any more. *)
Variable life : K → nat.
Hypothesis life_turn : ∀ w, (life (kern (turn w)) ≤ pred (life (kern w)))%nat.
Hypothesis life_over : ∀ k, life k = 0%nat → poll k to ≤ 0 ∨ 1 < poll k to.
Implicit Types w : world K.

(** [w'] is not younger than [w]. *)
Definition ages w w' : Prop := (life (kern w') ≤ life (kern w))%nat.

Lemma turn_ages w : ages w (turn w).
Proof. unfold ages. pose proof (life_turn w). lia. Qed.

Lemma ages_trans w1 w2 w3 : ages w1 w2 → ages w2 w3 → ages w1 w3.
Proof. unfold ages. lia. Qed.

(** Accesses to the socket take no time. *)
Lemma on_sock_ages f w1 w2 : ages w1 w2 → ages w1 (on_sock f w2).
Proof. done. Qed.

#[local] Hint Resolve turn_ages on_sock_ages : ages.
Ltac older := repeat first [apply on_sock_ages | eapply ages_trans; [|apply turn_ages]]; first [done|unfold ages; lia].

Lemma reserve_again_ages fuel : ∀ ret i sf rcvd w j w',
  reserve_again turn fuel ret i sf rcvd w = Ok (j, w') → ages w w'.
Proof.
  induction fuel as [|fuel IH]; intros ret i sf rcvd w j w' H; cbn [reserve_again] in H; res_inv;
    [unfold ages; lia..|].
  eapply ages_trans; [apply turn_ages|]. by apply IH in H.
Qed.

Lemma fill_frames_ages n : ∀ i w w', fill_frames turn n i w = Ok w' → ages w w'.
Proof.
  induction n as [|n IH]; intros i w w' H; cbn [fill_frames] in H; res_inv; [unfold ages; lia|].
  apply IH in H. eapply ages_trans; [apply turn_ages|]. exact H.
Qed.

Lemma stuff_ring_ages fuel rcvd w w' : stuff_ring turn fuel rcvd w = Ok w' → ages w w'.
Proof.
  unfold stuff_ring. intros H. res_inv.
  - match goal with H1 : reserve_again _ _ _ _ _ _ _ = Ok _, H2 : fill_frames _ _ _ _ = Ok _ |- _ =>
      apply reserve_again_ages in H1; apply fill_frames_ages in H2;
      apply on_sock_ages; eapply ages_trans; [|apply turn_ages];
      eapply ages_trans; [|exact H2]; eapply ages_trans; [|exact H1] end. older.
  - older.
Qed.

Lemma process_received_ages n : ∀ i x w x' w',
  process_received turn (deliver_packet clock fn) n i x w = Ok (x', w') → ages w w'.
Proof.
  induction n as [|n IH]; intros i x w x' w' H; cbn [process_received] in H; res_inv; [unfold ages; lia|].
  apply IH in H. match goal with H1 : deliver_packet _ _ _ _ _ _ = Ok _ |- _ => unfold deliver_packet in H1 end.
  res_inv. eapply ages_trans; [apply turn_ages|]. exact H.
Qed.

Lemma handle_receive_packets_ages fuel x w r x' w' :
  handle_receive_packets turn clock fuel fn x w = Ok (r, x', w') → ages w w'.
Proof.
  unfold handle_receive_packets, receive_batch. intros H. res_inv; [older|].
  match goal with H1 : stuff_ring _ _ _ _ = Ok _, H2 : process_received _ _ _ _ _ _ = Ok _ |- _ =>
    apply stuff_ring_ages in H1; apply process_received_ages in H2;
    apply on_sock_ages; eapply ages_trans; [|apply turn_ages];
    eapply ages_trans; [|exact H2]; eapply ages_trans; [|exact H1] end. older.
Qed.

(** A round without packets counts; a round with packets shortens the life. *)
Lemma rx_loop_ends nt rounds fuel : ∀ i x w o,
  rx_loop turn clock poll rounds fuel true (Z.of_nat nt) to fn i x w = Ok o → 0 ≤ i ≤ Z.of_nat nt →
  (life (kern w) * S nt + Z.to_nat (Z.of_nat nt - i) ≤ rounds)%nat → is_Some o.
Proof.
  induction rounds as [|rounds IH]; intros i x w o H Hi Hr; cbn [rx_loop] in H.
  - assert (i = Z.of_nat nt) as -> by lia. rewrite Z.ltb_irrefl in H. cbn [andb] in H. res_inv. eauto.
  - pose proof (life_turn w) as L1. pose proof (life_turn (turn w)) as L2. pose proof (life_over (kern (turn (turn w)))) as Ho.
    set (w1 := turn w) in *. set (w2 := turn w1) in *. clearbody w1 w2.
    destruct ((i <? Z.of_nat nt) && (stop_capture w1 =? 1)) eqn:Ht; [|res_inv; eauto].
    apply andb_true_iff in Ht as [Hlt%Z.ltb_lt _]. cbn [andb] in H.
    destruct ((poll (kern w2) to <=? 0) || (1 <? poll (kern w2) to)) eqn:Hp.
    + apply IH in H; [done|lia|]. nia.
    + assert (life (kern w2) ≠ 0%nat) as Hne.
      { intros Hz. apply orb_false_iff in Hp as [?%Z.leb_gt ?%Z.ltb_ge]. destruct (Ho Hz); lia. }
      res_inv. apply IH in H; [done|lia|].
      match goal with H1 : handle_receive_packets _ _ _ _ _ _ = Ok _ |- _ =>
        apply handle_receive_packets_ages in H1; unfold ages in H1 end. nia.
Qed.
End ends.
