(* ===== verification/XdpSetupProps.v ===== *)
(** * Properties of the set-up *)

From S2P Require Import Prelude Io Config CmdLine Loader Packet XskRing XskInv XskSpec XskKernel XskProps.
From S2P Require Import XdpSetup.
From S2P Require Xsk.

(** What libbpf and the system promise when they report success: memory of the
    size asked for, and new rings (the receive ring of the default size). *)
Class SysLaws (K : Type) `{SysOps K} := {
  memalign_size n k : 0 ≤ n → match (posix_memalign n k).1 with
                      | Some buf => Z.of_nat (length buf) = n
                      | None => True
                      end;
  umem_rings n k : let '(ret, fq, _, _) := xsk_umem__create n k in ret = 0 → new_prod fq;
  socket_rings nm q um xc k : Xsk.rx_size xc = Xsk.XSK_RING_CONS__DEFAULT_NUM_DESCS →
    let '(ret, rx, _, _) := xsk_socket__create nm q um xc k in ret = 0 → new_cons rx
}.

Section setup.
Context {K : Type} `{LinkOps K, BpfOps K, SysLaws K}.

(** A socket whose frames are all there: 2048 on the stack, 2048 in the fill ring,
    in front of any kernel that has nothing yet. *)
Definition fresh_socket (s : Xsk.xsk_socket_info) (buf : list Z) : Prop :=
  ∀ (A : Type) slack (holds : A → list Z) (delivered : A → list packet) (a : A) b,
    holds a = [] → delivered a = [] →
    ∃ fl, winv slack holds delivered (Xsk.World s a buf b) 0 [] fl 0 0 [] [] ∧ Forall valid_addr fl ∧
      Z.of_nat (length fl) = Xsk.XSK_RING_PROD__DEFAULT_NUM_DESCS ∧
      Xsk.umem_frame_free s = Xsk.NUM_FRAMES - Xsk.XSK_RING_PROD__DEFAULT_NUM_DESCS.

Lemma configured_is_fresh create link_id cfg um buf :
  (∀ c, (create (Xsk.ifname cfg) (Xsk.xsk_if_queue cfg) um c).1.1 = 0 ∧
        new_cons (create (Xsk.ifname cfg) (Xsk.xsk_if_queue cfg) um c).1.2) →
  link_id (Xsk.ifindex cfg) (Xsk.xdp_flags cfg) = 0 → new_prod (Xsk.fq um) →
  Z.of_nat (length buf) = Xsk.NUM_FRAMES * Xsk.FRAME_SIZE →
  ∃ s, Xsk.xsk_configure_socket true create link_id cfg um = Ok (Some s, 0) ∧ fresh_socket s buf.
Proof.
  intros Hc Hl Hu Hb.
  destruct (xsk_configure_socket_spec create link_id cfg um 0 (λ _ : unit, []) (λ _, []) tt buf 0 Hc Hl Hu
    eq_refl eq_refl Hb) as (s & _ & E & _).
  exists s. split; [done|]. intros A slack holds delivered a b Ha Hd.
  destruct (xsk_configure_socket_spec create link_id cfg um slack holds delivered a buf b Hc Hl Hu Ha Hd Hb)
    as (s' & fl & E' & Hw). rewrite E in E'. injection E' as <-. by exists fl.
Qed.

#[local] Opaque packet_buffer_size Xsk.init_frames Xsk.stuff_fill.

(** The calls of a set-up that all succeed, one after the other, from [k] to the last
    state: memory that may be locked without limit, 4096 frames of 4096 bytes, the umem
    in them, a socket of that name and queue with rings of 2048 on it, and the look-up of the
    interface's program. *)
Inductive socket_calls (nm : string) (queue index flags bind : Z) (k : K) : K → Prop :=
  | socket_calls_made k1 buf k2 k3 fq cq k4 k5 rx tx k6 id k7 :
      setrlimit_memlock k = (0, k1) → posix_memalign (4096 * 4096) k1 = (Some buf, k2) →
      calloc k2 = (true, k3) → xsk_umem__create (4096 * 4096) k3 = (0, fq, cq, k4) →
      calloc k4 = (true, k5) →
      xsk_socket__create nm queue (Xsk.UmemInfo fq cq) (Xsk.XskCfg 2048 2048 0 flags bind) k5 = (0, rx, tx, k6) →
      bpf_get_link_xdp_id index flags k6 = (0, id, k7) →
      socket_calls nm queue index flags bind k k7.

(** The ways [open_socket] ends. *)
Definition opened_or_exit (c : Xsk.config) (k : K) (r : res (Xsk.xsk_socket_info * list Z)) (k' : K) : Prop :=
  let calls := socket_calls (Xsk.ifname c) (Xsk.xsk_if_queue c) (Xsk.ifindex c) (Xsk.xdp_flags c) (Xsk.xsk_bind_flags c) k in
  (r = Err (ExitProgram EXIT_FAILURE) ∧ ∀ k2, ¬ calls k2) ∨
  ∃ s buf, r = Ok (s, buf) ∧ fresh_socket s buf ∧ calls k'.

(** The two calls of the umem, and the three of the socket. *)
Definition umem_calls (size : Z) (k : K) (um : Xsk.xsk_umem_info) (k' : K) : Prop :=
  ∃ k1, calloc k = (true, k1) ∧ xsk_umem__create size k1 = (0, Xsk.fq um, Xsk.cq um, k').
Definition info_calls (c : Xsk.config) (um : Xsk.xsk_umem_info) (k k' : K) : Prop :=
  ∃ k1 rx tx k2 id, calloc k = (true, k1) ∧
    xsk_socket__create (Xsk.ifname c) (Xsk.xsk_if_queue c) um
      (Xsk.XskCfg 2048 2048 0 (Xsk.xdp_flags c) (Xsk.xsk_bind_flags c)) k1 = (0, rx, tx, k2) ∧
    bpf_get_link_xdp_id (Xsk.ifindex c) (Xsk.xdp_flags c) k2 = (0, id, k').

Lemma configure_xsk_umem_spec size k :
  wp (configure_xsk_umem size)
     (λ r k', (r = Ok None ∧ ∀ um k2, ¬ umem_calls size k um k2) ∨
              ∃ um, r = Ok (Some um) ∧ new_prod (Xsk.fq um) ∧ umem_calls size k um k') k.
Proof.
  unfold configure_xsk_umem, umem_calls. wp_step. apply wp_call. intros ok k1 Ec. rewrite Ec.
  destruct ok; cbn [negb]; [|wp_steps; left; split; [done|]; intros um k2 (? & ? & _); done].
  wp_step. apply wp_call. intros [[ret fq] cq] k2 Eu.
  pose proof (umem_rings size k1) as Hr. rewrite Eu in Hr. cbn beta iota.
  destruct (Z.eqb_spec ret 0) as [->|]; cbn [negb]; wp_steps.
  2: { left. split; [done|]. intros um k3 (k4 & [= <-] & E). rewrite Eu in E. by injection E as -> _. }
  right. eexists. split; [done|]. split; [by apply Hr|]. by exists k1.
Qed.

(** Only one configuration is given to [xsk_socket__create]. *)
Definition socket_cfg (c : Xsk.config) : Xsk.xsk_socket_config :=
  Xsk.XskCfg Xsk.XSK_RING_CONS__DEFAULT_NUM_DESCS Xsk.XSK_RING_PROD__DEFAULT_NUM_DESCS 0
    (Xsk.xdp_flags c) (Xsk.xsk_bind_flags c).

(** A socket comes from a create that succeeded, and the program's id was read after it. *)
Lemma configure_with_made c um k :
  let '(ret, _, _, k1) := xsk_socket__create (Xsk.ifname c) (Xsk.xsk_if_queue c) um (socket_cfg c) k in
  wp (configure_with true c um)
     (λ r k', ∀ s, r = Ok (Some s) → ret = 0 ∧ k' = (bpf_get_link_xdp_id (Xsk.ifindex c) (Xsk.xdp_flags c) k1).2) k.
Proof.
  unfold wp, configure_with. fold (socket_cfg c).
  assert (∀ q, Xsk.xsk_configure_socket true (λ n q' u xc, (xsk_socket__create n q' u xc k).1) q c um =
     Xsk.xsk_configure_socket true (λ _ _ _ _, (xsk_socket__create (Xsk.ifname c) (Xsk.xsk_if_queue c) um (socket_cfg c) k).1) q c um)
    as -> by done.
  destruct (xsk_socket__create _ _ um (socket_cfg c) k) as [[[ret rx] tx] k1]. cbn [fst snd andb].
  destruct (Z.eqb_spec ret 0) as [->|Hn].
  - by destruct (Xsk.xsk_configure_socket _ _ _ _ _) as [[s e]|e].
  - by rewrite (configure_errors_create (λ _ _ _ _, (ret, rx, tx)) _ c um ret) by done.
Qed.

Lemma configure_socket_spec cfg um buf k c :
  socket_config cfg = Ok c → new_prod (Xsk.fq um) → Z.of_nat (length buf) = packet_buffer_size →
  wp (configure_socket cfg um)
    (λ r k', (r = Ok None ∧ ∀ k2, ¬ info_calls c um k k2) ∨
             ∃ s, r = Ok (Some s) ∧ fresh_socket s buf ∧ info_calls c um k k') k.
Proof.
  intros Hc Hum Hbuf. unfold configure_socket. rewrite Hc. wp_step. wp_step. cbn beta iota.
  wp_step. apply wp_call. intros ok k' Ec. unfold wp, configure_with, info_calls. rewrite Ec.
  destruct ok; [|left; split; [done|]; by intros ? (? & ? & ? & ? & ? & ? & _)].
  pose proof (socket_rings (Xsk.ifname c) (Xsk.xsk_if_queue c) um (socket_cfg c) k' eq_refl) as Hr.
  change (Xsk.XskCfg 2048 2048 0 _ _) with (socket_cfg c). fold (socket_cfg c).
  destruct (xsk_socket__create _ _ um (socket_cfg c) k') as [[[ret rx] tx] k2] eqn:Es.
  assert (∀ q, Xsk.xsk_configure_socket true (λ n q u xc, (xsk_socket__create n q u xc k').1) q c um =
               Xsk.xsk_configure_socket true (λ _ _ _ _, (ret, rx, tx)) q c um) as ->.
  { intros q. unfold Xsk.xsk_configure_socket. fold (socket_cfg c). by rewrite Es. }
  cbn [fst snd andb]. destruct (bpf_get_link_xdp_id (Xsk.ifindex c) (Xsk.xdp_flags c) k2) as [[e id] k3] eqn:El.
  destruct (decide (ret = 0)) as [->|Hn].
  - destruct (decide (e = 0)) as [->|Hl].
    + destruct (configured_is_fresh (λ _ _ _ _, (0, rx, tx)) (λ i f, (bpf_get_link_xdp_id i f k2).1.1) c um buf) as (s & -> & Hs);
        [by intros _; split; [|apply Hr]|by rewrite El|done..|].
      right. exists s. split; [done|]. split; [done|]. exists k', rx, tx, k2, id. by rewrite Es.
    + left. rewrite (configure_errors_link (λ _ _ _ _, (0, rx, tx))) by (done || by rewrite El).
      split; [done|]. intros k4 (k5 & rx' & tx' & k6 & id' & [= <-] & Es' & El'). rewrite Es in Es'.
      injection Es' as _ _ <-. rewrite El in El'. by injection El' as -> _.
  - left. rewrite (configure_errors_create (λ _ _ _ _, (ret, rx, tx)) _ c um ret) by done.
    split; [done|]. intros k4 (k5 & rx' & tx' & k6 & id' & [= <-] & Es' & _). rewrite Es in Es'.
    by injection Es' as -> _.
Qed.

(** Behind the limit and the memory come the umem's calls and the socket's. *)
Lemma socket_calls_parts c k k1 buf k2 k' :
  setrlimit_memlock k = (0, k1) → posix_memalign (4096 * 4096) k1 = (Some buf, k2) →
  socket_calls (Xsk.ifname c) (Xsk.xsk_if_queue c) (Xsk.ifindex c) (Xsk.xdp_flags c) (Xsk.xsk_bind_flags c) k k' →
  ∃ um k3, umem_calls (4096 * 4096) k2 um k3 ∧ info_calls c um k3 k'.
Proof.
  intros E1 E2 [l1 b l2 l3 fq cq l4 l5 rx tx l6 id l7 F1 F2 F3 F4 F5 F6 F7]. rewrite E1 in F1. injection F1 as <-.
  rewrite E2 in F2. injection F2 as <- <-. exists (Xsk.UmemInfo fq cq), l4. split; [by exists l3|].
  by exists l5, rx, tx, l6, id.
Qed.

Lemma open_socket_spec cfg clear k c :
  socket_config cfg = Ok c → wp (open_socket cfg clear) (opened_or_exit c k) k.
Proof.
  intros Hc. unfold open_socket, opened_or_exit. wp_step. apply wp_call. intros err k0 Er.
  destruct (Z.eqb_spec err 0) as [->|Hne]; cbn [negb].
  2: { wp_steps. left. split; [done|]. intros k2 Hk. inversion Hk. congruence. }
  wp_step. apply wp_call. intros mb k' Em. pose proof (memalign_size packet_buffer_size k0 ltac:(done)) as Hm.
  rewrite Em in Hm. cbn [fst] in Hm.
  change packet_buffer_size with (4096 * 4096) in *.
  destruct mb as [buf|]; [|wp_steps; left; split; [done|]; intros k2 Hk; inversion Hk; congruence].
  set (buf' := if clear then _ else buf).
  assert (Z.of_nat (length buf') = packet_buffer_size) as Hb.
  { unfold buf'. destruct clear; [|done]. rewrite length_replicate. by apply Z2Nat.id. }
  wp_step. eapply wp_mono; [apply configure_xsk_umem_spec|].
  intros r k1 [[-> Hf]|(um & -> & Hum & k2 & E2 & Eu)].
  { wp_steps. left. split; [done|]. intros k2 Hk.
    destruct (socket_calls_parts c k k0 buf k' k2 Er Em Hk) as (um & k3 & Hu & _). by apply (Hf um k3). }
  wp_step. eapply wp_mono; [by apply (configure_socket_spec cfg um buf' k1 c)|].
  intros r k3 [[-> Hf]|(s & -> & Hs & k4 & rx & tx & k5 & id & E4 & Es & El)]; wp_steps.
  - left. split; [done|]. intros k3' Hk.
    destruct (socket_calls_parts c k k0 buf k' k3' Er Em Hk) as (um' & k4 & (k5 & E5 & Eu') & Hi).
    rewrite E2 in E5. injection E5 as <-. rewrite Eu in Eu'. injection Eu' as Ef Ec <-.
    assert (um' = um) as -> by (destruct um, um'; cbn in *; congruence). by apply (Hf k3').
  - right. exists s, buf'. split; [done|]. split; [done|]. econstructor; try done. by destruct um.
Qed.

(** The results of [createXDPSocket] for a name that fits, once malloc has given
    [ok] and left [k1]. *)
Definition created (itf : string) (queue : Z) (ok : bool) (k1 : K)
    (r : res (option (Xsk.xsk_socket_info * list Z))) (k' : K) : Prop :=
  let index := s32 (if_nametoindex itf k1) in
  if negb ok || (index =? 0) then r = Ok None ∧ k' = k1
  else
    (∃ s buf, r = Ok (Some (s, buf)) ∧ fresh_socket s buf ∧ socket_calls itf queue index 0 0 k1 k') ∨
    (r = Err (ExitProgram EXIT_FAILURE) ∧ ∀ k2, ¬ socket_calls itf queue index 0 0 k1 k2).

Lemma create_fitting_spec itf queue k :
  (IFNAMSIZ <=? Z.of_nat (strlen itf)) = false →
  wp (createXDPSocket itf queue) (λ r k', created itf queue (malloc k).1 (malloc k).2 r k') k.
Proof.
  intros Hfit. unfold createXDPSocket, created. wp_step. wp_step.
  match goal with E : malloc k = _ |- _ => rewrite E end. cbn [fst snd].
  destruct a; cbn [negb orb]; [|wp_steps; auto]. rewrite Hfit. wp_step. wp_step.
  cbn [with_ifname ifindex]. destruct (Z.eqb_spec (s32 (if_nametoindex itf k')) 0) as [Hz|Hz].
  { wp_steps. auto. }
  wp_step. unfold create_init_xdp_sock. wp_step. wp_step. cbn beta iota.
  eapply wp_mono; [by eapply open_socket_spec|].
  intros r k1 [[-> Hf]|(s & buf & -> & Hs & Hk)]; [by right|]. wp_steps. left. by exists s, buf.
Qed.

(** C26: [createXDPSocket] on the calls of this run.  It gives NULL exactly when there is
    no memory for the name or the name is no interface.  Otherwise it gives a socket
    exactly when all the calls of the set-up succeed in their order ([socket_calls]:
    the limit, the packet memory, the umem, the socket and the look-up of the program), and
    is then in the state they leave; if one of them fails the program ends with
    [EXIT_FAILURE].  The socket has all the frames of the umem: 2048 on the stack and
    2048 valid addresses in the fill ring, so the capture can start on it.  A name of
    16 characters or more overflows the memory of the name.  For a system whose
    memory has the size asked for and whose new rings are empty. *)
Theorem createXDPSocket_outcome itf queue k :
  let '(r, k') := createXDPSocket itf queue k in
  let '(ok, k1) := malloc k in
  let index := s32 (if_nametoindex itf k1) in
  if negb ok then r = Ok None
  else if 16 <=? Z.of_nat (strlen itf) then r = Err OutOfBounds
  else if index =? 0 then r = Ok None
  else
    (∃ s buf, r = Ok (Some (s, buf)) ∧ fresh_socket s buf ∧ socket_calls itf queue index 0 0 k1 k') ∨
    (r = Err (ExitProgram EXIT_FAILURE) ∧ ∀ k2, ¬ socket_calls itf queue index 0 0 k1 k2).
Proof.
  destruct (Z.leb_spec 16 (Z.of_nat (strlen itf))) as [Hlong|Hfit].
  - unfold createXDPSocket, call, mbind, io_bind. destruct (malloc k) as [[] k1]; cbn [negb]; [|done].
    unfold IFNAMSIZ. by rewrite (proj2 (Z.leb_le _ _) Hlong).
  - pose proof (create_fitting_spec itf queue k (proj2 (Z.leb_gt _ _) Hfit)) as Hw. unfold wp, created in Hw.
    destruct (createXDPSocket itf queue k) as [r k'], (malloc k) as [[] k1]; cbn [fst snd negb orb] in *; [|by destruct Hw].
    destruct (_ =? 0); [by destruct Hw|exact Hw].
Qed.
End setup.

(** ** A system on which everything succeeds *)

Module Machine.
Definition machine : Type := list string.   (** the calls made *)
Definition note {A} (c : string) (a : A) (k : machine) : A * machine := (a, k ++ [c]).

#[export] Instance machine_link : LinkOps machine := {
  bpf_set_link_xdp_fd _ _ _ := note "set_link" 0;
  bpf_get_link_xdp_id _ _ k := (0, 9, k)
}.

#[export] Instance machine_bpf : BpfOps machine := {
  bpf_prog_load_xattr _ _ _ := note "load" (0, 7);
  bpf_object__open_xattr _ _ := note "open" 7;
  bpf_object__load _ := note "load" 0;
  bpf_object__close _ k := k;
  bpf_object__programs _ _ := [71];
  bpf_object__maps _ _ := [72];
  bpf_object__find_program_by_title _ _ _ := 71;
  bpf_object__find_map_by_name _ _ _ := 72;
  bpf_program__set_type _ _ k := k;
  bpf_program__set_ifindex _ _ k := k;
  bpf_program__set_expected_attach_type _ _ k := k;
  bpf_program__title _ _ := "xdp_sock";
  bpf_program__fd _ _ := 4;
  bpf_map__is_offload_neutral _ _ := true;
  bpf_map__set_ifindex _ _ k := k;
  bpf_map__name _ _ := "xsks_map";
  bpf_map__fd _ _ := 12;
  bpf_map__reuse_fd _ _ := note "reuse" 0;
  bpf_map__pin _ _ := note "pin" 0;
  bpf_obj_get _ := note "get" 5;
  bpf_obj_get_info_by_fd _ _ := (0, MapInfo 17 4 4 64);
  bpf_map_update_elem _ _ _ := note "update" 0
}.

#[export] Instance machine_sys : SysOps machine := {
  setrlimit_memlock := note "setrlimit" 0;
  posix_memalign n := note "memalign" (Some (replicate (Z.to_nat n) 0));
  calloc := note "calloc" true;
  malloc := note "malloc" true;
  free_block k := k;
  xsk_umem__create _ := note "umem" (0, empty_prod, empty_comp);
  xsk_socket__create _ _ _ _ := note "socket" (0, empty_cons, empty_tx);
  xsk_socket__delete k := k;
  xsk_umem__delete k := k;
  if_nametoindex nm _ := if String.eqb nm "eth0" then 2 else 0;
  pthread_create := note "thread" 0
}.

#[export] Program Instance machine_laws : SysLaws machine.
Next Obligation. intros n k Hn. cbn. rewrite length_replicate. lia. Qed.
Next Obligation. intros n k _. apply empty_prod_new. Qed.
Next Obligation. intros nm q um xc k _ _. apply empty_cons_new. Qed.

End Machine.
Import Machine.

Lemma createXDPSocket_outcome_witness :
  (let '(r, k') := createXDPSocket (K := machine) "eth0" 0 [] in
   ∃ s buf, r = Ok (Some (s, buf)) ∧ fresh_socket s buf ∧ socket_calls (K := machine) "eth0" 0 2 0 0 ["malloc"] k').
Proof.
  pose proof (createXDPSocket_outcome (K := machine) "eth0" 0 []) as H.
  destruct (createXDPSocket (K := machine) "eth0" 0 []) as [r k'].
  change (malloc (K := machine) []) with (true, ["malloc"]) in H. cbn [negb] in H.
  change (16 <=? Z.of_nat (strlen "eth0")) with false in H. cbn iota in H.
  change (s32 (if_nametoindex (K := machine) "eth0" ["malloc"])) with 2 in H. cbn [Z.eqb] in H.
  destruct H as [H|[_ H]]; [exact H|]. exfalso. eapply H. econstructor; reflexivity.
Defined.
