(* ===== verification/DpMain.v ===== *)
(** * main of dp.c: from the wire to the lines of the flow file

    [main] opens the socket, reserves the flow table and the pools, starts the
    two threads, waits for SIGINT, and takes everything down.  The theorem about
    it puts the parts together: set-up (XdpSetupProps.v), capture (XskProps.v),
    monitor (Run.v, WireRun.v) and shutdown (Shutdown.v). *)

From S2P Require Import Prelude Log NodeList Rings FlowData Pools NodePool SessionPool.
From S2P Require Import FlowCore FlowTable FlowInv Packet Monitor ProcessInv PacketSpec Frame Export Blocks System.
From S2P Require Import Run Shutdown WireRun.
From S2P Require Import XskRing Xsk XskInv XskSpec XskKernel XskProps CaptureRun CaptureEnd WireCapture.
From S2P Require Import Io Config CmdLine Loader LoaderProps XdpSetup XdpSetupProps.

Definition ITFNAME : string := "enp3s0f1".
Definition MAX_POOL_NODE : Z := 5000.
(** The nodes and the sessions of the pools. *)
Definition pool_nodes : nat := Z.to_nat MAX_POOL_NODE.
Definition pool_sessions : nat := Z.to_nat (MAX_POOL_NODE / 2).
Definition SIGKILL : Z := 9.
Definition DP_OK : Z := 0.
Definition DP_ERR : Z := -1.

Section main.
Context {K : Type} `{LinkOps K, BpfOps K, SysOps K}.
Variable turn : world K → world K.
Variable clock_gettime : K → option (Z * Z).
Variable poll : K → Z → Z.
(** The time zone, whether files can be opened, the memory for the pools, the
    second of the start, and the value of [(uint64_t) INFINITY]. *)
Context (off : Z) (fo : string → bool) (mem : nat) (tv infinity : Z).
(** How long the process thread is watched, the steps of the export thread before
    each packet, after the last one, and from the flush of the table until the
    thread is told to stop. *)
Context (rounds : nat) (sched : list nat) (last_steps flush_steps : nat).
(** The signal [sigwait] gives, of a mask that holds SIGINT alone: none if main is never
    sent one. *)
Context (sig_caught : option Z).

(** The two threads until the process thread ends: [OutOfFuel] if it is still
    running after [rounds] rounds of its loop. *)
Definition threads (σ : sys) (s : xsk_socket_info) (buf : list Z) : io K (sys * xsk_socket_info) := λ k,
  match processThread turn clock_gettime poll off fo rounds (σ, sched) (World s k buf 0) with
  | Ok (Some (x, w)) => (Ok (x.1, sock w), kern w)
  | Ok None => (Err OutOfFuel, k)
  | Err e => (Err e, k)
  end.

(** The end of [main], on the signal; thread affinity, [mlockall] and the signal mask
    change nothing of the state. *)
Definition on_signal (sg : Z) (σ : sys) : res sys :=
  if (sg =? SIGINT) || (sg =? SIGKILL) then
    capturaSenial off fo infinity sg flush_steps pool_nodes pool_sessions σ
  else Ok σ.

(** [None] if main stays in [sigwait]. *)
Definition main : io K (option (Z * option sys)) :=
  '(_, lg) ← pure_res (startLog true "stderr" init_log);
  xdp_sock ← createXDPSocket ITFNAME 0;
  match xdp_sock with
  | None => mret (Some (DP_ERR, None))
  | Some (s, buf) =>
    ok ← call malloc;
    if negb ok then mret (Some (DP_ERR, None))
    else
      σ ← pure_res (start_threads pool_nodes pool_sessions mem off fo tv lg);
      '(σ, s) ← threads σ s buf;
      σ ← pure_res (run_events off fo (replicate last_steps EvExport) σ);
      match sig_caught with
      | None => mret None
      | Some sg =>
        σ ← pure_res (on_signal sg σ);
        _ ← destroyXDPSocket (Some s);
        mret (Some (DP_OK, Some σ))
      end
  end.
End main.

Lemma detach_returns {K} `{LinkOps K, BpfOps K, SysOps K} i f e (k : K) : ∃ r k', xdp_link_detach i f e k = (Ok r, k').
Proof.
  unfold xdp_link_detach, call, ask, mbind, io_bind. destruct (bpf_get_link_xdp_id i f k) as [[e1 id] k1].
  repeat case_match; simplify_eq; unfold mret, io_ret in *; simplify_eq; eauto.
Qed.

Lemma destroy_returns {K} `{LinkOps K, BpfOps K, SysOps K} s (k : K) : ∃ k', destroyXDPSocket (Some s) k = (Ok tt, k').
Proof.
  unfold destroyXDPSocket, close_xdp_sock, unload_bpf_xdp_program, pure_res, run, mbind, io_bind. cbn [or_fault fmap option_fmap option_map].
  set (c := comm_config true).
  destruct (detach_returns (Config.ifindex c) (Config.xdp_flags c) 0 (xsk_umem__delete (xsk_socket__delete k))) as (r & k1 & ->).
  destruct (detach_returns (Config.ifindex c) (Config.xdp_flags c) 0 k1) as (r2 & k2 & ->). by eexists.
Qed.

(** [main] by the calls it makes. *)
Lemma main_cases {K} `{LinkOps K, BpfOps K, SysOps K} turn ck poll off fo mem tv inf rounds sched n m (k : K) :
  let run sg := (main turn ck poll off fo mem tv inf rounds sched n m sg k).1 in
  match createXDPSocket ITFNAME 0 k with
  | (Err e, _) => ∀ sg, run sg = Err e
  | (Ok None, _) => ∀ sg, run sg = Ok (Some (DP_ERR, None))
  | (Ok (Some (s, buf)), k1) =>
    let '(ok, k2) := malloc k1 in
    if ok then
      ∀ σ0, start_system pool_nodes pool_sessions mem off fo tv = Ok σ0 →
        ∀ x w σ1, processThread turn ck poll off fo rounds (σ0, sched) (World s k2 buf 0) = Ok (Some (x, w)) →
          run_events off fo (replicate n EvExport) x.1 = Ok σ1 →
          run None = Ok None ∧
          ∀ σ, capturaSenial off fo inf SIGINT m pool_nodes pool_sessions σ1 = Ok σ →
            run (Some SIGINT) = Ok (Some (DP_OK, Some σ))
    else ∀ sg, run sg = Ok (Some (DP_ERR, None))
  end.
Proof.
  cbv zeta. unfold main, start_system, call, pure_res, mbind, io_bind. 
  destruct (startLog true "stderr" init_log) as [[u lg]|] eqn:El; [|by vm_compute in El].
  destruct (createXDPSocket ITFNAME 0 k) as [[[[s buf]|]|e] k1]; [|done..].
  destruct (malloc k1) as [[] k2]; [|done]. intros σ0 E0 x w σ1 Et Er. unfold res_bind in E0. cbn [negb].
  rewrite E0. unfold threads. rewrite Et. rewrite Er. split; [done|]. intros σ Ec.
  unfold on_signal. cbn [Z.eqb Pos.eqb SIGINT SIGKILL orb]. rewrite Ec.
  destruct (destroy_returns (sock w) (kern w)) as (k3 & ->). done.
Qed.

(** ** The outcome *)

Lemma pool_sizes : pool_nodes = (2 * pool_sessions)%nat ∧ Z.of_nat pool_sessions = 2500.
Proof. unfold pool_nodes, pool_sessions, MAX_POOL_NODE. change (5000 / 2) with 2500. lia. Qed.
#[local] Opaque pool_nodes pool_sessions.

Section outcome.
Context {K : Type} `{LinkOps K, BpfOps K, SysLaws K}.
Context (off : Z) (fo : string → bool) (mem : nat) (tv infinity : Z).
Hypothesis memory_enough : (3 * pool_sessions + 3 ≤ mem)%nat.
Hypothesis files_open : ∀ n, fo n = true.
Hypothesis infinity_large : 2 ^ 40 * US_IN_SEC + EXPIRATION_FLOW_TIME < u64 infinity.
(** The kernel, within the contract of AF_XDP, with twelve readable bytes behind
    a packet. *)
Variables (holds : K → list Z) (delivered : K → list packet) (turn : world K → world K).
Hypothesis turn_ok : ∀ w, rtc (kstep 12 holds delivered) w (turn w).
(** A clock that does not go back. *)
Variables (sec nsec : K → Z).
Hypothesis clock_range : ∀ k, 1 ≤ sec k < 2 ^ 40 ∧ 0 ≤ nsec k < 1000000000.
Hypothesis clock_steady : steady turn sec nsec.
(** Packets come to an end. *)
Variables (poll : K → Z → Z) (life : K → nat).
Hypothesis life_turn : ∀ w, (life (kern (turn w)) ≤ pred (life (kern w)))%nat.
Hypothesis life_over : ∀ k, life k = 0%nat → poll k 1000 ≤ 0 ∨ 1 < poll k 1000.

Lemma clock_seconds w : sec (kern w) ≤ sec (kern (turn w)).
Proof.
  pose proof (clock_steady w) as Hs. unfold nanos in Hs.
  pose proof (clock_range (kern w)). pose proof (clock_range (kern (turn w))). lia.
Qed.

(** The threads on a new socket: the run they make, and that they end. *)
Lemma threads_outcome σ0 g s buf k rounds sched :
  sys_inv pool_sessions σ0 g [] → previous (s_dp σ0) = 0 → fresh_socket s buf →
  holds k = [] → delivered k = [] →
  ∃ o, processThread turn (clock sec nsec) poll off fo rounds (σ0, sched) (World s k buf 0) = Ok o ∧
    (∀ x w, o = Some (x, w) →
       ∃ dn es, accounted 12 holds delivered w dn ∧ Forall2 handed_over dn (packets es) ∧
         run_events off fo es σ0 = Ok x.1 ∧ admissible_events 0 es ∧ monotone 0 es ∧
         end_time 0 es ≤ 2 ^ 40 * US_IN_SEC) ∧
    ((life k * 6 + 5 ≤ rounds)%nat → is_Some o).
Proof.
  intros Hσ Hp Hf Hh Hd. destruct (Hf K 12 holds delivered k 1 Hh Hd) as (fl & Hw & _).
  pose proof pool_sizes as [_ Hps]. assert (2 ≤ pool_sessions)%nat as HM by lia.
  destruct (rx_loop_spec 12 holds delivered turn turn_ok (driven off fo turn sec nsec σ0)
    (driven_turn pool_sessions mem off fo HM memory_enough turn sec nsec clock_seconds σ0)
    (clock sec nsec) poll rounds 0 true 5 1000 (callback off fo) 0 (World s k buf 1) fl [] [] (σ0, sched))
    as (o & Eo & Ho); [|by eexists|done| |].
  - by apply (callback_ok pool_sessions mem) with (g := g).
  - by apply (driven_start pool_sessions mem).
  - exists o. split; [exact Eo|]. split.
    + intros x w Hx. destruct (Ho x w Hx) as (fl' & rl' & dn & Hw' & (es & Hr & Ha & _ & Hpk & Hst) & _).
      destruct (Hst clock_steady) as [Hm He]. exists dn, es. split_and!; try done.
      * by eapply winv_accounted.
      * pose proof (clock_range (kern w)). unfold nanos in He. unfold US_IN_SEC. dlia.
    + intros Hr. eapply (rx_loop_ends turn (clock sec nsec) poll (callback off fo) 1000 life life_turn life_over 5);
        [exact Eo|lia|]. cbn [kern]. lia.
Qed.

(** The bytes of some packets as the reference computation sees them. *)
Definition prints_netflow (dn : list packet) (lines : list aflow) : Prop :=
  ∀ fs, Forall2 carries dn fs → (length fs < pool_sessions)%nat →
    ∃ ws, Forall2 captured dn ws ∧ w_frame <$> ws = fs ∧ lines = netflow_flows (netflow_run ws).

(** After the threads: the rest of the handler. *)
Lemma run_to_the_end σ0 dn es n m :
  start_system (2 * pool_sessions) pool_sessions mem off fo tv = Ok σ0 →
  Forall2 handed_over dn (packets es) → admissible_events 0 es → monotone 0 es →
  end_time 0 es ≤ 2 ^ 40 * US_IN_SEC →
  ∃ σ σ', run_events off fo (es ++ replicate n EvExport) σ0 = Ok σ ∧
    capturaSenial off fo infinity SIGINT m (2 * pool_sessions) pool_sessions σ = Ok σ' ∧
    prints_netflow dn (printed (s_x σ')).
Proof.
  intros E0 Hpk Ha Hm Ht. pose proof pool_sizes as [_ Hps].
  destruct (export_steps n) as [Hep Hea], (export_times n (end_time 0 es)) as [Hxm Hxe].
  destruct (whole_run pool_sessions mem off fo tv (es ++ replicate n EvExport) infinity m) as
    (σ0' & σ & σ1 & σ' & E0' & Er & Ec & Ec' & Hpr); [lia|done|lia|done|..].
  { apply admissible_events_app. split; [done|apply Hea]. }
  { by apply monotone_app. }
  { rewrite end_time_app, Hxe. lia. }
  rewrite E0 in E0'. injection E0' as <-. exists σ, σ'. split_and!; [done..|].
  intros fs Hfs Hlen. rewrite Hpr.
  destruct (wire_capture_spec pool_sessions mem off fo tv infinity m es dn fs n σ0) as
    (ws & σ2 & σ3 & Hws & Hf & Er2 & Ec2 & _ & _ & Hp); try done; [lia|lia|].
  rewrite Er in Er2. injection Er2 as <-. rewrite Ec in Ec2. injection Ec2 as <-. by exists ws.
Qed.

(** C4: The whole flow monitor, from an interface name to the lines of the flow file.
    [main] of dp.c returns -1 exactly when [createXDPSocket] gives no socket or there is
    no memory for the table, and exits exactly when the set-up exits.  Otherwise the
    process thread comes to its end on that socket (packets come to an end), and
    main waits in [sigwait]: for ever without a signal, and with SIGINT it returns 0.
    Then nothing has faulted in the threads, in the shutdown with its release of both
    pools, nor in the closing of the socket; the packets the thread took are the
    first ones the kernel delivered; and if they carry well-formed frames, fewer than there
    are sessions, the lines printed are exactly the flows of the reference NetFlow
    computation on those frames, however the export thread moved.  This for a kernel
    that leaves twelve readable bytes behind each packet, a clock that does not go back,
    files that open, and memory for the pools. *)
Theorem main_prints_the_flows_on_the_wire k :
  (∀ s buf k1, createXDPSocket ITFNAME 0 k = (Ok (Some (s, buf)), k1) →
     holds (malloc k1).2 = [] ∧ delivered (malloc k1).2 = []) →
  ∃ R, ∀ rounds sched n m, (R ≤ rounds)%nat →
    let run sg := (main turn (clock sec nsec) poll off fo mem tv infinity rounds sched n m sg k).1 in
    match createXDPSocket ITFNAME 0 k with
    | (Err e, _) => e = ExitProgram EXIT_FAILURE ∧ ∀ sg, run sg = Err e
    | (Ok None, _) => ∀ sg, run sg = Ok (Some (DP_ERR, None))
    | (Ok (Some (s, buf)), k1) =>
      let '(ok, k2) := malloc k1 in
      if ok then
        ∃ σ0 x w dn σ, start_system pool_nodes pool_sessions mem off fo tv = Ok σ0 ∧
          processThread turn (clock sec nsec) poll off fo rounds (σ0, sched) (World s k2 buf 0) = Ok (Some (x, w)) ∧
          accounted 12 holds delivered w dn ∧
          run None = Ok None ∧ run (Some SIGINT) = Ok (Some (DP_OK, Some σ)) ∧
          prints_netflow dn (printed (s_x σ))
      else ∀ sg, run sg = Ok (Some (DP_ERR, None))
    end.
Proof.
  intros Hnew. pose proof (create_fitting_spec ITFNAME 0 k eq_refl) as Hc.
  destruct (createXDPSocket ITFNAME 0 k) as [r k1] eqn:E. apply (wp_run_eq _ _ _ _ _ Hc) in E as Hcr.
  exists (life (malloc k1).2 * 6 + 5)%nat. intros rounds sched n m HR. cbv zeta.
  pose proof (main_cases turn (clock sec nsec) poll off fo mem tv infinity rounds sched n m k) as Hmain. rewrite E in Hmain.
  unfold created in Hcr. destruct (_ || _) in Hcr; [destruct Hcr as [-> _]; exact Hmain|].
  destruct Hcr as [(s & buf & -> & Hfresh & _)|[-> _]]; [|by split].
  destruct (Hnew s buf k1 eq_refl) as [Hh Hd]. destruct (malloc k1) as [[] k2]; [|exact Hmain].
  pose proof pool_sizes as [Hpn Hps].
  destruct (start_system_spec pool_sessions mem off fo tv) as (σ0 & g & E0 & Hs0 & Hp & _); [lia|done|done|].
  rewrite <-Hpn in E0. specialize (Hmain σ0 E0).
  destruct (threads_outcome σ0 g s buf k2 rounds sched Hs0 Hp Hfresh Hh Hd) as (o & Eo & Ho & Hend).
  destruct (Hend HR) as [[x w] ->]. destruct (Ho x w eq_refl) as (dn & es & Hacc & Hpk & Hr & Ha & Hm & Ht).
  pose proof E0 as E0'. rewrite Hpn in E0'.
  destruct (run_to_the_end σ0 dn es n m E0' Hpk Ha Hm Ht) as (σ & σ' & Er & Ec & Hpr).
  rewrite run_events_app, Hr in Er. cbn [mbind res_bind] in Er. rewrite <-Hpn in Ec.
  destruct (Hmain x w σ Eo Er) as [Hno Hsig]. exists σ0, x, w, dn, σ'. split_and!; try done. by apply Hsig.
Qed.
End outcome.

(** ** The monitor on the kernel of XskKernel.v *)

Module OnKernel.
#[export] Instance kernel_link : LinkOps kstate := {
  bpf_set_link_xdp_fd _ _ _ k := (0, k);
  bpf_get_link_xdp_id _ _ k := (0, 9, k)
}.

#[export] Instance kernel_bpf : BpfOps kstate := {
  bpf_prog_load_xattr _ _ _ k := ((0, 7), k);
  bpf_object__open_xattr _ _ k := (7, k);
  bpf_object__load _ k := (0, k);
  bpf_object__close _ k := k;
  bpf_object__programs _ _ := [71];
  bpf_object__maps _ _ := [72];
  bpf_object__find_program_by_title _ _ _ := 71;
  bpf_object__find_map_by_name _ _ _ := 72;
  bpf_program__set_type _ _ k := k;
  bpf_program__set_ifindex _ _ k := k;
  bpf_program__set_expected_attach_type _ _ k := k;
  bpf_program__title _ _ := "xdp_sock";
  bpf_program__fd _ _ := 4;
  bpf_map__is_offload_neutral _ _ := true;
  bpf_map__set_ifindex _ _ k := k;
  bpf_map__name _ _ := "xsks_map";
  bpf_map__fd _ _ := 12;
  bpf_map__reuse_fd _ _ k := (0, k);
  bpf_map__pin _ _ k := (0, k);
  bpf_obj_get _ k := (5, k);
  bpf_obj_get_info_by_fd _ _ := (0, MapInfo 17 4 4 64);
  bpf_map_update_elem _ _ _ k := (0, k)
}.

#[export] Instance kernel_sys : SysOps kstate := {
  setrlimit_memlock k := (0, k);
  posix_memalign n k := (Some (replicate (Z.to_nat n) 0), k);
  calloc k := (true, k);
  malloc k := (true, k);
  free_block k := k;
  xsk_umem__create _ k := ((0, empty_prod, empty_comp), k);
  xsk_socket__create _ _ _ _ k := ((0, empty_cons, empty_tx), k);
  xsk_socket__delete k := k;
  xsk_umem__delete k := k;
  if_nametoindex nm _ := if String.eqb nm ITFNAME then 2 else 0;
  pthread_create k := (0, k)
}.

#[export] Program Instance kernel_laws : SysLaws kstate.
Next Obligation. intros n k Hn. cbn. rewrite length_replicate. lia. Qed.
Next Obligation. intros n k _. apply empty_prod_new. Qed.
Next Obligation. intros nm q um xc k _ _. apply empty_cons_new. Qed.

(** No call of the set-up changes the kernel's side. *)
Lemma configure_keeps ok c um k : wp (configure_with (K := kstate) ok c um) (λ _ k', k' = k) k.
Proof. unfold wp, configure_with. by destruct (Xsk.xsk_configure_socket _ _ _ _ _) as [[]|], ok. Qed.

Lemma create_keeps k : wp (createXDPSocket (K := kstate) ITFNAME 0) (λ _ k', k' = k) k.
Proof.
  unfold createXDPSocket, create_init_xdp_sock, open_socket, configure_xsk_umem, configure_socket.
  repeat (lazymatch goal with
    | E : _ = (_, ?k') |- _ => apply (f_equal snd) in E; change (k = k') in E; subst k'
    | |- ?k = ?k => reflexivity
    | |- wp (configure_with _ _ _) _ _ => eapply wp_mono; [apply configure_keeps|]; intros ? ? ->
    | |- wp (match ?x with _ => _ end) _ _ => destruct x
    | |- match ?x with _ => _ end => destruct x
    | |- wp _ _ _ => wp_step; cbn beta iota
    end).
Qed.

(** The network is quiet after five turns. *)
Definition turns_left (k : kstate) : nat := Z.to_nat (5 - k_time k).
End OnKernel.
Import OnKernel.

Lemma turn_seconds_steady n p :
  steady (kernel_turn 12 60 2048 n p) turn_seconds (λ _, 250000).
Proof. intros w. unfold nanos. pose proof (turn_seconds_monotone n p w). lia. Qed.

(** The socket that is made there. *)
Lemma create_gives k :
  ∃ s buf, createXDPSocket (K := kstate) ITFNAME 0 k = (Ok (Some (s, buf)), k).
Proof.
  pose proof (create_fitting_spec (K := kstate) ITFNAME 0 k eq_refl) as Hc. pose proof (create_keeps k) as Hk.
  destruct (createXDPSocket ITFNAME 0 k) as [r k1] eqn:E. apply (wp_run_eq _ _ _ _ _ Hk) in E as Hk'. cbn beta in Hk'. subst k1.
  apply (wp_run_eq _ _ _ _ _ Hc) in E as Hr. unfold created in Hr. cbn [malloc kernel_sys fst snd] in Hr.
  change (negb true || _) with false in Hr. cbn iota in Hr. destruct Hr as [(s & buf & -> & _)|[_ Hx]]; [exists s, buf; reflexivity|].
  exfalso. apply (Hx k). econstructor; reflexivity.
Qed.

Lemma main_prints_the_flows_on_the_wire_witness :
  ∃ R s buf, ∀ rounds sched n m, (R ≤ rounds)%nat →
    let run sg := (main (K := kstate) (kernel_turn 12 60 2048 100 3) (clock turn_seconds (λ _, 250000)) poll_ready 3600
                (λ _, true) (Z.to_nat 8000) 5 (-1) rounds sched n m sg (KState [] [] 0)).1 in
    ∃ σ0 x w dn σ, start_system pool_nodes pool_sessions (Z.to_nat 8000) 3600 (λ _, true) 5 = Ok σ0 ∧
      processThread (kernel_turn 12 60 2048 100 3) (clock turn_seconds (λ _, 250000)) poll_ready 3600 (λ _, true)
        rounds (σ0, sched) (World s (KState [] [] 0) buf 0) = Ok (Some (x, w)) ∧
      accounted 12 k_held k_delivered w dn ∧
      run None = Ok None ∧ run (Some SIGINT) = Ok (Some (DP_OK, Some σ)) ∧
      prints_netflow dn (printed (s_x σ)).
Proof.
  destruct (create_gives (KState [] [] 0)) as (s & buf & E).
  destruct (main_prints_the_flows_on_the_wire (K := kstate) 3600 (λ _, true) (Z.to_nat 8000) 5 (-1)) with
    (holds := k_held) (delivered := k_delivered) (turn := kernel_turn 12 60 2048 100 3)
    (sec := turn_seconds) (nsec := λ _ : kstate, 250000) (poll := poll_ready) (life := turns_left)
    (k := KState [] [] 0) as [R HR].
  - destruct pool_sizes. lia.
  - done.
  - done.
  - apply kernel_turn_ok.
  - apply turn_seconds_range.
  - apply turn_seconds_steady.
  - intros w. unfold turns_left. rewrite kernel_turn_time. lia.
  - intros k Hk. left. unfold turns_left in Hk. unfold poll_ready. rewrite (proj2 (Z.ltb_ge _ _)) by lia. done.
  - intros s' buf' k1 E'. rewrite E in E'. injection E' as <- <- <-. by split.
  - exists R, s, buf. intros rounds sched n m Hr. specialize (HR rounds sched n m Hr). rewrite E in HR. exact HR.
Defined.
