(* ===== verification/Nlattr.v ===== *)
(** * nlattr.c of libbpf: streams of netlink attributes

    A message is the bytes of the buffer it was received into, a pointer into it
    an offset, and a read past the buffer a fault.  [tb], the index of a parsed
    stream, holds an offset or NULL for every type up to [maxtype].  Warnings are
    not modelled, what they print apart. *)

From S2P Require Import Prelude Packet.

(** ** Attributes *)

Definition NLA_ALIGN (n : Z) : Z := Z.land (n + 3) (Z.lnot 3).
Definition NLA_HDRLEN : Z := 4.
Definition NLA_F_NESTED : Z := 2 ^ 15.
Definition NLA_TYPE_MASK : Z := Z.lnot (Z.lor (2 ^ 15) (2 ^ 14)).

Definition nla_len (buf : buffer) (nla : Z) : res Z := load16 buf nla.
Definition nla_type (buf : buffer) (nla : Z) : res Z :=
  t ← load16 buf (nla + 2); Ok (Z.land t NLA_TYPE_MASK).

Definition nla_next (buf : buffer) (nla remaining : Z) : res (Z * Z) :=
  l ← nla_len buf nla;
  let totlen := NLA_ALIGN l in
  Ok (nla + totlen, remaining - totlen).

(** [remaining >= sizeof( *nla)] compares as [size_t], [nla_len <= remaining] as [int]. *)
Definition nla_ok (buf : buffer) (nla remaining : Z) : res bool :=
  if u64 remaining <? 4 then Ok false
  else
    l ← nla_len buf nla;
    Ok ((4 <=? l) && (l <=? remaining)).

Definition libbpf_nla_data (nla : Z) : Z := nla + NLA_HDRLEN.
Definition libbpf_nla_len (buf : buffer) (nla : Z) : res Z :=
  l ← nla_len buf nla; Ok (l - NLA_HDRLEN).
Definition libbpf_nla_getattr_u8 (buf : buffer) (nla : Z) : res Z := byte_at buf (libbpf_nla_data nla).
Definition libbpf_nla_getattr_u32 (buf : buffer) (nla : Z) : res Z := load32 buf (libbpf_nla_data nla).

(** ** Validation *)

Definition LIBBPF_NLA_UNSPEC : Z := 0.
Definition LIBBPF_NLA_U32 : Z := 3.
Definition LIBBPF_NLA_STRING : Z := 5.
Definition LIBBPF_NLA_TYPE_MAX : Z := 8.

(** struct libbpf_nla_policy, three [uint16_t] *)
Record libbpf_nla_policy := Policy { p_type : Z; p_minlen : Z; p_maxlen : Z }.

Definition nla_attr_minlen : list Z := [0; 1; 2; 4; 8; 1; 0; 0; 0].

Definition validate_nla (buf : buffer) (nla maxtype : Z) (policy : list libbpf_nla_policy) : res Z :=
  type ← nla_type buf nla;
  if (type <? 0) || (maxtype <? type) then Ok 0
  else
    pt ← or_fault (policy !! Z.to_nat type) OutOfBounds;
    if LIBBPF_NLA_TYPE_MAX <? p_type pt then Ok 0
    else
      minlen ← (if negb (p_minlen pt =? 0) then Ok (p_minlen pt)
                else if negb (p_type pt =? LIBBPF_NLA_UNSPEC) then
                  or_fault (nla_attr_minlen !! Z.to_nat (p_type pt)) OutOfBounds
                else Ok 0);
      l ← libbpf_nla_len buf nla;
      if u32 l <? minlen then Ok (-1)
      else if negb (p_maxlen pt =? 0) && (p_maxlen pt <? l) then Ok (-1)
      else if p_type pt =? LIBBPF_NLA_STRING then
        z ← byte_at buf (libbpf_nla_data nla + (l - 1));
        if negb (z =? 0) then Ok (-1) else Ok 0
      else Ok 0.

(** ** Parsing *)

Abbreviation index := (list (option Z)).

(** The loop of [libbpf_nla_for_each_attr]; every attribute takes four bytes at
    least, so [len] bounds the rounds. *)
Fixpoint nla_loop (fuel : nat) (buf : buffer) (maxtype : Z) (policy : option (list libbpf_nla_policy))
    (nla rem : Z) (tb : index) : res (Z * index) :=
  ok ← nla_ok buf nla rem;
  if negb ok then Ok (0, tb)
  else
    match fuel with
    | O => Err OutOfFuel
    | S fuel =>
      type ← nla_type buf nla;
      err ← (if maxtype <? type then Ok 0
             else match policy with Some p => validate_nla buf nla maxtype p | None => Ok 0 end);
      if err <? 0 then Ok (err, tb)
      else
        let tb := if maxtype <? type then tb else <[Z.to_nat type := Some nla]> tb in
        '(nla, rem) ← nla_next buf nla rem;
        nla_loop fuel buf maxtype policy nla rem tb
    end.

Definition libbpf_nla_parse (buf : buffer) (maxtype head len : Z) (policy : option (list libbpf_nla_policy)) :
  res (Z * index) :=
  nla_loop (S (Z.to_nat len)) buf maxtype policy head len (replicate (Z.to_nat (maxtype + 1)) None).

Definition libbpf_nla_parse_nested (buf : buffer) (maxtype nla : Z) (policy : option (list libbpf_nla_policy)) :
  res (Z * index) :=
  l ← libbpf_nla_len buf nla;
  libbpf_nla_parse buf maxtype (libbpf_nla_data nla) l policy.

(** [tb[type]] *)
Definition tb_get (tb : index) (type : Z) : res (option Z) := or_fault (tb !! Z.to_nat type) OutOfBounds.

(** ** The extended error message *)

Definition NLM_F_CAPPED : Z := 0x100.
Definition NLM_F_ACK_TLVS : Z := 0x200.
Definition NLMSGERR_ATTR_MSG : Z := 1.
Definition NLMSGERR_ATTR_MAX : Z := 3.

Definition extack_policy : list libbpf_nla_policy :=
  [Policy 0 0 0; Policy LIBBPF_NLA_STRING 0 0; Policy LIBBPF_NLA_U32 0 0; Policy 0 0 0].

(** [nlmsg_len(nlh)]: the length behind the header. *)
Definition nlmsg_payload (buf : buffer) (nlh : Z) : res Z :=
  l ← load32 buf nlh; Ok (s32 (l - 16)).

(** The offset of the message that is printed: [None] when there is no attribute
    or they do not parse, [Some None] for a NULL message. *)
Definition libbpf_nla_dump_errormsg (buf : buffer) (nlh : Z) : res (option (option Z)) :=
  flags ← load16 buf (nlh + 6);
  if Z.land flags NLM_F_ACK_TLVS =? 0 then Ok None
  else
    let err := nlh + 16 in
    inner ← (if Z.land flags NLM_F_CAPPED =? 0 then nlmsg_payload buf (err + 4) else Ok 0);
    let hlen := 20 + inner in
    l ← load32 buf nlh;
    let alen := s32 (l - hlen) in
    '(ret, tb) ← libbpf_nla_parse buf NLMSGERR_ATTR_MAX (err + hlen) alen (Some extack_policy);
    if negb (ret =? 0) then Ok None
    else
      m ← tb_get tb NLMSGERR_ATTR_MSG;
      Ok (Some (option_map libbpf_nla_data m)).
