(* ===== verification/Netlink.v ===== *)
(** * netlink.c of libbpf: the XDP hook over rtnetlink

    The functions behind the interface [LinkOps] of Loader.v: the socket, the
    reception of messages, the request that sets a program, and the dump that
    tells which program an interface has.  The system calls are the interface
    [NetlinkOps]. *)

From S2P Require Import Prelude Packet Io Config Loader Nlattr.

Class NetlinkOps (K : Type) := {
  (** [socket(AF_NETLINK, SOCK_RAW, NETLINK_ROUTE)]: the descriptor, or the negative error *)
  nl_socket : K → Z * K;
  nl_ext_ack : Z → K → Z * K;
  (** 0 or the negative error *)
  nl_bind : Z → K → Z * K;
  (** error, length of the address, port *)
  nl_getsockname : Z → K → Z * Z * Z;
  nl_send : Z → list Z → K → Z * K;
  (** the bytes, at most as many as asked for, or the negative error *)
  nl_recv : Z → Z → K → (Z + list Z) * K;
  nl_close : Z → K → K;
  nl_time : K → Z
}.

(** ** Constants of the protocol *)

Definition LIBBPF_ERRNO__INTERNAL : Z := 4004.
Definition LIBBPF_ERRNO__WRNGPID : Z := 4011.
Definition LIBBPF_ERRNO__INVSEQ : Z := 4012.
Definition LIBBPF_ERRNO__NLPARSE : Z := 4013.

Definition NLM_F_REQUEST : Z := 0x01.
Definition NLM_F_MULTI : Z := 0x02.
Definition NLM_F_ACK : Z := 0x04.
Definition NLM_F_DUMP : Z := 0x300.
Definition NLMSG_ERROR : Z := 2.
Definition NLMSG_DONE : Z := 3.
Definition RTM_SETLINK : Z := 19.
Definition RTM_GETLINK : Z := 18.
Definition RTM_GETQDISC : Z := 38.
Definition RTM_GETTCLASS : Z := 42.
Definition RTM_GETTFILTER : Z := 46.
Definition AF_UNSPEC : Z := 0.
Definition AF_PACKET : Z := 17.
Definition IFLA_XDP : Z := 43.
Definition IFLA_MAX : Z := 51.
Definition IFLA_XDP_FD : Z := 1.
Definition IFLA_XDP_ATTACHED : Z := 2.
Definition IFLA_XDP_FLAGS : Z := 3.
Definition IFLA_XDP_PROG_ID : Z := 4.
Definition IFLA_XDP_DRV_PROG_ID : Z := 5.
Definition IFLA_XDP_SKB_PROG_ID : Z := 6.
Definition IFLA_XDP_HW_PROG_ID : Z := 7.
Definition IFLA_XDP_MAX : Z := 7.
Definition XDP_ATTACHED_NONE : Z := 0.
Definition XDP_ATTACHED_MULTI : Z := 4.
Definition XDP_FLAGS_MASK : Z := 0xf.

Definition NLMSG_HDRLEN : Z := 16.
Definition NLMSG_ALIGN (n : Z) : Z := Z.land (u32 (n + 3)) (Z.lnot 3).
Definition NLMSG_LENGTH (n : Z) : Z := n + NLMSG_HDRLEN.

(** ** Bytes of a struct *)

Definition le16 (v : Z) : list Z := [v mod 256; (v / 256) mod 256].
Definition le32 (v : Z) : list Z := le16 v ++ le16 (v / 65536).

(** A store of some bytes at an offset. *)
Definition poke (off : nat) (bs : list Z) (buf : buffer) : res buffer :=
  if (off + length bs <=? length buf)%nat then Ok (take off buf ++ bs ++ drop (off + length bs) buf)
  else Err OutOfBounds.

(** [NLMSG_OK(nh, len)] and the step of [NLMSG_NEXT]. *)
Definition NLMSG_OK (buf : buffer) (nh len : Z) : res bool :=
  if len <? 16 then Ok false
  else
    l ← load32 buf nh;
    Ok ((16 <=? l) && (l <=? len)).

Section netlink.
Context {K : Type} `{NetlinkOps K}.

(** The socket and its port, or a negative error. *)
Definition libbpf_netlink_open : io K (Z * Z) :=
  sock ← call nl_socket;
  if sock <? 0 then mret (sock, 0)
  else
    _ ← call (nl_ext_ack sock);
    err ← call (nl_bind sock);
    if err <? 0 then _ ← run (nl_close sock); mret (err, 0)
    else
      '(err, addrlen, nl_pid) ← ask (nl_getsockname sock);
      if err <? 0 then _ ← run (nl_close sock); mret (err, 0)
      else if negb (addrlen =? 12) then
        _ ← run (nl_close sock); mret (- LIBBPF_ERRNO__INTERNAL, 0)
      else mret (sock, nl_pid).

(** ** Receiving *)

Section receive.
Context {C : Type}.
(** The function that gets every message, with its result and its cookie. *)
Variables (nl_pid seq : Z) (fn : option (buffer → Z → C → res (Z * C))).

(** The messages of one datagram: the value the function returns, if it does;
    whether more datagrams follow; and the cookie. *)
Fixpoint recv_messages (fuel : nat) (buf : buffer) (nh len : Z) (multipart : bool) (c : C) :
  res (option Z * bool * C) :=
  ok ← NLMSG_OK buf nh len;
  if negb ok then Ok (None, multipart, c)
  else
    match fuel with
    | O => Err OutOfFuel
    | S fuel =>
      pid ← load32 buf (nh + 12);
      if negb (pid =? nl_pid) then Ok (Some (- LIBBPF_ERRNO__WRNGPID), multipart, c)
      else
        s ← load32 buf (nh + 8);
        if negb (s =? u32 seq) then Ok (Some (- LIBBPF_ERRNO__INVSEQ), multipart, c)
        else
          flags ← load16 buf (nh + 6);
          let multipart := multipart || negb (Z.land flags NLM_F_MULTI =? 0) in
          type ← load16 buf (nh + 4);
          l ← load32 buf nh;
          let next := recv_messages fuel buf (nh + NLMSG_ALIGN l) (len - NLMSG_ALIGN l) multipart in
          if type =? NLMSG_ERROR then
            e ← load32 buf (nh + NLMSG_HDRLEN);
            if s32 e =? 0 then next c
            else _ ← libbpf_nla_dump_errormsg buf nh; Ok (Some (s32 e), multipart, c)
          else if type =? NLMSG_DONE then Ok (Some 0, multipart, c)
          else
            match fn with
            | None => next c
            | Some f =>
              '(ret, c) ← f buf nh c;
              if negb (ret =? 0) then Ok (Some ret, multipart, c) else next c
            end
    end.

(** [while (multipart)], for at most [S rounds] datagrams; [buf] is the array
    [char buf[4096]], in which what was there before stays behind a datagram. *)
Fixpoint bpf_netlink_recv (rounds : nat) (sock : Z) (buf : buffer) (c : C) : io K (Z * C) :=
  r ← call (nl_recv sock 4096);
  match r with
  | inl err => mret (err, c)
  | inr bytes =>
    if (length bytes =? 0)%nat then mret (0, c)
    else
      let buf := bytes ++ drop (length bytes) buf in
      '(ret, multipart, c) ← pure_res (recv_messages (S (length bytes)) buf 0 (Z.of_nat (length bytes)) false c);
      match ret with
      | Some v => mret (v, c)
      | None =>
        if negb multipart then mret (0, c)
        else
          match rounds with
          | O => pure_res (Err OutOfFuel)
          | S rounds => bpf_netlink_recv rounds sock buf c
          end
      end
  end.
End receive.

(** ** Setting a program *)

(** The request: the 96 bytes of [req], and [nlmsg_len].  [nla] and [nla_xdp] are
    the offsets of the nested attribute and of the one in it. *)
Definition link_request (ifindex fd flags : Z) : res (buffer * Z) :=
  let req := replicate 96 0 in
  let len := NLMSG_LENGTH 16 in
  req ← poke 0 (le32 len) req;
  req ← poke 6 (le16 (Z.lor NLM_F_REQUEST NLM_F_ACK)) req;
  req ← poke 4 (le16 RTM_SETLINK) req;
  req ← poke 12 (le32 0) req;
  req ← poke 8 (le32 1) req;
  req ← poke 16 [AF_UNSPEC] req;
  req ← poke 20 (le32 ifindex) req;
  let nla := Z.to_nat (NLMSG_ALIGN len) in
  req ← poke (nla + 2) (le16 (Z.lor NLA_F_NESTED IFLA_XDP)) req;
  let nested := NLA_HDRLEN in
  req ← poke nla (le16 nested) req;
  let nla_xdp := (nla + Z.to_nat nested)%nat in
  req ← poke (nla_xdp + 2) (le16 IFLA_XDP_FD) req;
  req ← poke nla_xdp (le16 (NLA_HDRLEN + 4)) req;
  req ← poke (nla_xdp + 4) (le32 fd) req;
  let nested := nested + (NLA_HDRLEN + 4) in
  req ← poke nla (le16 nested) req;
  '(req, nested) ←
    (if negb (flags =? 0) then
       let nla_xdp := (nla + Z.to_nat nested)%nat in
       req ← poke (nla_xdp + 2) (le16 IFLA_XDP_FLAGS) req;
       req ← poke nla_xdp (le16 (NLA_HDRLEN + 4)) req;
       req ← poke (nla_xdp + 4) (le32 flags) req;
       let nested := nested + (NLA_HDRLEN + 4) in
       req ← poke nla (le16 nested) req;
       Ok (req, nested)
     else Ok (req, nested));
  let len := len + NLA_ALIGN nested in
  req ← poke 0 (le32 len) req;
  Ok (req, len).

(** [garbage] is what the array of [bpf_netlink_recv] holds at first. *)
Variables (rounds : nat) (garbage : buffer).

Definition bpf_set_link_xdp_fd (ifindex fd flags : Z) : io K Z :=
  '(sock, nl_pid) ← libbpf_netlink_open;
  if sock <? 0 then mret sock
  else
    '(req, len) ← pure_res (link_request ifindex fd flags);
    sent ← call (nl_send sock (take (Z.to_nat len) req));
    ret ← (if sent <? 0 then mret sent
           else '(ret, _) ← bpf_netlink_recv nl_pid 1 None rounds sock garbage tt; mret ret);
    _ ← run (nl_close sock);
    mret ret.

(** ** The dumps *)

(** A callback [libbpf_dump_nlmsg_t]: cookie, message and attributes. *)
Abbreviation dump_fn C := (buffer → C → Z → index → res (Z * C)).

(** [__dump_link_nlmsg] and its three copies for the classes, qdiscs and filters:
    a message struct of [hdr] bytes and the attributes behind it. *)
Definition dump_nlmsg {C} (hdr maxtype : Z) (dump : dump_fn C) (buf : buffer) (nlh : Z) (cookie : C) :
  res (Z * C) :=
  let msg := nlh + NLMSG_HDRLEN in
  l ← load32 buf nlh;
  let len := s32 (l - NLMSG_LENGTH hdr) in
  let attr := msg + NLMSG_ALIGN hdr in
  '(err, tb) ← libbpf_nla_parse buf maxtype attr len None;
  if negb (err =? 0) then Ok (- LIBBPF_ERRNO__NLPARSE, cookie)
  else dump buf cookie msg tb.

Definition sizeof_ifinfomsg : Z := 16.
Definition sizeof_tcmsg : Z := 20.
Definition dump_link_nlmsg {C} : dump_fn C → buffer → Z → C → res (Z * C) := dump_nlmsg sizeof_ifinfomsg IFLA_MAX.

(** The requests: header, and the struct behind it. *)
Definition dump_request (type seq : Z) (msg : list Z) : list Z :=
  le32 (NLMSG_LENGTH (Z.of_nat (length msg))) ++ le16 type ++ le16 (Z.lor NLM_F_DUMP NLM_F_REQUEST)
  ++ le32 seq ++ le32 0 ++ msg.
Definition ifinfomsg (family : Z) : list Z := family :: replicate 15 0.
Definition tcmsg (family ifindex parent : Z) : list Z :=
  [family; 0; 0; 0] ++ le32 ifindex ++ le32 0 ++ le32 parent ++ le32 0.

(** [send] and [bpf_netlink_recv], as the four [libbpf_nl_get_*] end. *)
Definition nl_get {C} (sock nl_pid type : Z) (msg : list Z) (dump : buffer → Z → C → res (Z * C)) (cookie : C) :
  io K (Z * C) :=
  now ← ask nl_time;
  let seq := s32 now in
  sent ← call (nl_send sock (dump_request type (u32 seq) msg));
  if sent <? 0 then mret (sent, cookie)
  else bpf_netlink_recv nl_pid seq (Some dump) rounds sock garbage cookie.

Definition libbpf_nl_get_link {C} (sock nl_pid : Z) (dump : dump_fn C) (cookie : C) : io K (Z * C) :=
  nl_get sock nl_pid RTM_GETLINK (ifinfomsg AF_PACKET) (dump_link_nlmsg dump) cookie.

(** [TCA_MAX] of the system's headers. *)
Variable TCA_MAX : Z.
Definition dump_class_nlmsg {C} : dump_fn C → buffer → Z → C → res (Z * C) := dump_nlmsg sizeof_tcmsg TCA_MAX.
Definition dump_qdisc_nlmsg {C} : dump_fn C → buffer → Z → C → res (Z * C) := dump_nlmsg sizeof_tcmsg TCA_MAX.
Definition dump_filter_nlmsg {C} : dump_fn C → buffer → Z → C → res (Z * C) := dump_nlmsg sizeof_tcmsg TCA_MAX.

Definition libbpf_nl_get_class {C} (sock nl_pid ifindex : Z) (dump : dump_fn C) (cookie : C) : io K (Z * C) :=
  nl_get sock nl_pid RTM_GETTCLASS (tcmsg AF_UNSPEC ifindex 0) (dump_class_nlmsg dump) cookie.
Definition libbpf_nl_get_qdisc {C} (sock nl_pid ifindex : Z) (dump : dump_fn C) (cookie : C) : io K (Z * C) :=
  nl_get sock nl_pid RTM_GETQDISC (tcmsg AF_UNSPEC ifindex 0) (dump_qdisc_nlmsg dump) cookie.
Definition libbpf_nl_get_filter {C} (sock nl_pid ifindex handle : Z) (dump : dump_fn C) (cookie : C) :
  io K (Z * C) :=
  nl_get sock nl_pid RTM_GETTFILTER (tcmsg AF_UNSPEC ifindex handle) (dump_filter_nlmsg dump) cookie.

(** ** The program of an interface *)

Record xdp_link_info := LinkInfo {
  prog_id : Z; drv_prog_id : Z; hw_prog_id : Z; skb_prog_id : Z;   (** __u32 *)
  attach_mode : Z                                                  (** __u8 *)
}.
Record xdp_id_md := IdMd { md_ifindex : Z; md_flags : Z; md_info : xdp_link_info }.

Definition no_info : xdp_link_info := LinkInfo 0 0 0 0 0.
Definition with_info (i : xdp_link_info) (m : xdp_id_md) : xdp_id_md := IdMd (md_ifindex m) (md_flags m) i.

(** [if (xdp_tb[type]) field = libbpf_nla_getattr_u32(xdp_tb[type])] *)
Definition getattr_if (buf : buffer) (tb : index) (type : Z) (set : Z → xdp_link_info) (i : xdp_link_info) :
  res xdp_link_info :=
  a ← tb_get tb type;
  match a with Some nla => v ← libbpf_nla_getattr_u32 buf nla; Ok (set v) | None => Ok i end.

Definition get_xdp_info (buf : buffer) (xdp_id : xdp_id_md) (ifinfo : Z) (tb : index) : res (Z * xdp_id_md) :=
  i ← load32 buf (ifinfo + 4);
  if negb (md_ifindex xdp_id =? 0) && negb (md_ifindex xdp_id =? s32 i) then Ok (0, xdp_id)
  else
    a ← tb_get tb IFLA_XDP;
    match a with
    | None => Ok (0, xdp_id)
    | Some nla =>
      '(ret, xdp_tb) ← libbpf_nla_parse_nested buf IFLA_XDP_MAX nla None;
      if negb (ret =? 0) then Ok (ret, xdp_id)
      else
        at_ ← tb_get xdp_tb IFLA_XDP_ATTACHED;
        match at_ with
        | None => Ok (0, xdp_id)
        | Some nla =>
          m ← libbpf_nla_getattr_u8 buf nla;
          let i := md_info xdp_id in
          let i := LinkInfo (prog_id i) (drv_prog_id i) (hw_prog_id i) (skb_prog_id i) m in
          if m =? XDP_ATTACHED_NONE then Ok (0, with_info i xdp_id)
          else
            i ← getattr_if buf xdp_tb IFLA_XDP_PROG_ID
                  (λ v, LinkInfo v (drv_prog_id i) (hw_prog_id i) (skb_prog_id i) m) i;
            i ← getattr_if buf xdp_tb IFLA_XDP_SKB_PROG_ID
                  (λ v, LinkInfo (prog_id i) (drv_prog_id i) (hw_prog_id i) v m) i;
            i ← getattr_if buf xdp_tb IFLA_XDP_DRV_PROG_ID
                  (λ v, LinkInfo (prog_id i) v (hw_prog_id i) (skb_prog_id i) m) i;
            i ← getattr_if buf xdp_tb IFLA_XDP_HW_PROG_ID
                  (λ v, LinkInfo (prog_id i) (drv_prog_id i) v (skb_prog_id i) m) i;
            Ok (0, with_info i xdp_id)
        end
    end.

(** struct xdp_link_info in memory: 20 bytes, the last three padding. *)
Definition info_bytes (i : xdp_link_info) : list Z :=
  le32 (prog_id i) ++ le32 (drv_prog_id i) ++ le32 (hw_prog_id i) ++ le32 (skb_prog_id i)
  ++ [attach_mode i; 0; 0; 0].
Definition info_of_bytes (b : list Z) : res xdp_link_info :=
  p ← load32 b 0; d ← load32 b 4; h ← load32 b 8; s ← load32 b 12; m ← byte_at b 16;
  Ok (LinkInfo p d h s m).

(** The error, and the [info_size] bytes written to [*info] when there is none. *)
Definition bpf_get_link_xdp_info (ifindex info_size flags : Z) : io K (Z * option (list Z)) :=
  if negb (Z.land flags (u32 (Z.lnot XDP_FLAGS_MASK)) =? 0) || (info_size =? 0) then mret (- EINVAL, None)
  else
    let flags := Z.land flags XDP_FLAGS_MODES in
    let mask := u32 (flags - 1) in
    if negb (flags =? 0) && negb (Z.land flags mask =? 0) then mret (- EINVAL, None)
    else
      '(sock, nl_pid) ← libbpf_netlink_open;
      if sock <? 0 then mret (sock, None)
      else
        '(ret, xdp_id) ← libbpf_nl_get_link sock nl_pid get_xdp_info (IdMd ifindex flags no_info);
        let sz := Z.min info_size 20 in
        let info := take (Z.to_nat sz) (info_bytes (md_info xdp_id)) ++ replicate (Z.to_nat (info_size - sz)) 0 in
        _ ← run (nl_close sock);
        mret (ret, if ret =? 0 then Some info else None).

Definition get_xdp_id (info : xdp_link_info) (flags : Z) : Z :=
  if negb (attach_mode info =? XDP_ATTACHED_MULTI) then prog_id info
  else if negb (Z.land flags XDP_FLAGS_DRV_MODE =? 0) then drv_prog_id info
  else if negb (Z.land flags XDP_FLAGS_HW_MODE =? 0) then hw_prog_id info
  else if negb (Z.land flags XDP_FLAGS_SKB_MODE =? 0) then skb_prog_id info
  else 0.

(** The error, and the id written to [*prog_id] when there is none. *)
Definition bpf_get_link_xdp_id (ifindex flags : Z) : io K (Z * option Z) :=
  '(ret, info) ← bpf_get_link_xdp_info ifindex 20 flags;
  match info with
  | Some b => info ← pure_res (info_of_bytes b); mret (ret, Some (get_xdp_id info flags))
  | None => mret (ret, None)
  end.
End netlink.
