(* ===== verification/NlattrProps.v ===== *)
(** * Properties of the attribute parser

    The parser finds in an encoded stream the last attribute of every type; on
    any bytes it ends, stays within the stream but for the two bytes of a length,
    and stores attributes that lie in the stream. *)

From S2P Require Import Prelude Packet PacketSpec Frame Nlattr Netlink.

(** ** Bytes at an offset *)

Definition bytes_at (buf : buffer) (p : Z) (l : list Z) : Prop :=
  ∃ pre post, buf = pre ++ l ++ post ∧ p = Z.of_nat (length pre).

Lemma bytes_at_app buf p l1 l2 :
  bytes_at buf p (l1 ++ l2) → bytes_at buf p l1 ∧ bytes_at buf (p + Z.of_nat (length l1)) l2.
Proof.
  intros (pre & post & -> & ->). rewrite <-app_assoc. split; [by exists pre, (l2 ++ post)|].
  exists (pre ++ l1), post. rewrite <-app_assoc, length_app. split; [done|lia].
Qed.

Lemma bytes_at_drop buf p l : bytes_at buf p l → ∃ n post, p = Z.of_nat n ∧ drop n buf = l ++ post.
Proof. intros (pre & post & -> & ->). exists (length pre), post. by rewrite drop_app_length. Qed.

Lemma byte_at_bytes buf p b l : bytes_at buf p (b :: l) → byte_at buf p = Ok b.
Proof.
  intros (n & post & -> & Hd)%bytes_at_drop. replace (Z.of_nat n) with (Z.of_nat n + Z.of_nat 0) by lia.
  by rewrite (byte_at_drop _ _ _ _ Hd).
Qed.

Lemma load16_bytes buf p v l : bytes_at buf p (le16 v ++ l) → load16 buf p = Ok (u16 v).
Proof.
  intros (n & post & -> & Hd)%bytes_at_drop. replace (Z.of_nat n) with (Z.of_nat n + Z.of_nat 0) by lia.
  rewrite (load16_drop _ _ _ 0 (v mod 256) ((v / 256) mod 256) Hd) by done. f_equal.
  rewrite lor_shiftl_add by dlia. unfold u16. dlia.
Qed.

Lemma load32_bytes buf p v l : bytes_at buf p (le32 v ++ l) → load32 buf p = Ok (u32 v).
Proof.
  unfold le32. rewrite <-app_assoc. intros H. pose proof (load16_bytes _ _ _ _ H) as H1.
  apply bytes_at_app in H as [_ H]. pose proof (load16_bytes _ _ _ _ H) as H2. cbn [length] in H2.
  unfold load32. rewrite H1. cbn [mbind res_bind].
  change (p + Z.of_nat (length (le16 v))) with (p + 2) in H2. rewrite H2. cbn [mbind res_bind]. f_equal.
  rewrite lor_shiftl_add by (try apply u16_range; lia). unfold u16, u32. dlia.
Qed.

Lemma length_le16 v : length (le16 v) = 2%nat.
Proof. done. Qed.
Lemma length_le32 v : length (le32 v) = 4%nat.
Proof. done. Qed.

(** ** Encoding *)

Record attr := Attr { a_type : Z; a_data : list Z }.

Definition attr_len (a : attr) : Z := NLA_HDRLEN + Z.of_nat (length (a_data a)).
Definition encode_attr (a : attr) : list Z :=
  le16 (attr_len a) ++ le16 (a_type a) ++ a_data a
  ++ replicate (Z.to_nat (NLA_ALIGN (attr_len a) - attr_len a)) 0.
Definition encode_attrs (l : list attr) : list Z := l ≫= encode_attr.
Definition attr_ok (a : attr) : Prop := 0 ≤ a_type a < 2 ^ 16 ∧ attr_len a < 2 ^ 16.

(** The type without its two flags, and the last attribute of a type. *)
Definition type_of (a : attr) : Z := Z.land (a_type a) NLA_TYPE_MASK.
Definition find_attr (t : Z) (l : list attr) : option attr := last (filter (λ a, type_of a = t) l).

Lemma align_eq n : NLA_ALIGN n = 4 * ((n + 3) / 4).
Proof.
  unfold NLA_ALIGN. change 3 with (Z.ones 2) at 2. rewrite <-Z.ldiff_land, Z.ldiff_ones_r by done.
  rewrite Z.shiftl_mul_pow2, Z.shiftr_div_pow2 by done. change (2 ^ 2) with 4. lia.
Qed.

Lemma align_range n : n ≤ NLA_ALIGN n < n + 4.
Proof. rewrite align_eq. dlia. Qed.

Lemma type_range t : 0 ≤ t < 2 ^ 16 → 0 ≤ Z.land t NLA_TYPE_MASK < 2 ^ 14.
Proof.
  intros Ht. assert (Z.land t NLA_TYPE_MASK = t mod 2 ^ 14) as ->; [|by apply Z.mod_pos_bound].
  assert (Z.land t NLA_TYPE_MASK = Z.land (Z.land t (Z.ones 16)) NLA_TYPE_MASK) as ->.
  { by rewrite (Z.land_ones t 16), Z.mod_small by lia. }
  rewrite <-Z.land_assoc. change (Z.land (Z.ones 16) NLA_TYPE_MASK) with (Z.ones 14). by apply Z.land_ones.
Qed.

Lemma length_encode_attr a : Z.of_nat (length (encode_attr a)) = NLA_ALIGN (attr_len a).
Proof.
  unfold encode_attr. rewrite !length_app, length_replicate, !length_le16. pose proof (align_range (attr_len a)).
  unfold attr_len, NLA_HDRLEN in *. lia.
Qed.

(** ** One attribute *)

Section attribute.
Context (buf : buffer) (p : Z) (a : attr).
Hypothesis there : bytes_at buf p (encode_attr a).
Hypothesis ok : attr_ok a.

Lemma attr_len_range : 4 ≤ attr_len a < 2 ^ 16.
Proof. destruct ok as [_ ?]. unfold attr_len, NLA_HDRLEN in *. lia. Qed.

Lemma nla_len_encoded : nla_len buf p = Ok (attr_len a).
Proof. unfold nla_len. rewrite (load16_bytes _ _ _ _ there), u16_small; [done|]. pose proof attr_len_range. lia. Qed.

Lemma nla_type_encoded : nla_type buf p = Ok (type_of a).
Proof.
  unfold nla_type. apply bytes_at_app in there as [_ Ht].
  change (p + Z.of_nat (length (le16 (attr_len a)))) with (p + 2) in Ht.
  rewrite (load16_bytes _ _ _ _ Ht). cbn [mbind res_bind]. rewrite u16_small by apply ok. done.
Qed.

Lemma nla_data_encoded : bytes_at buf (libbpf_nla_data p) (a_data a).
Proof.
  apply bytes_at_app in there as [_ Ht]. apply bytes_at_app in Ht as [_ Ht]. apply bytes_at_app in Ht as [Ht _].
  rewrite !length_le16 in Ht. unfold libbpf_nla_data, NLA_HDRLEN. by replace (p + 4) with (p + Z.of_nat 2 + Z.of_nat 2) by lia.
Qed.

Lemma nla_ok_encoded rem : attr_len a ≤ rem < 2 ^ 31 → nla_ok buf p rem = Ok true.
Proof.
  intros Hr. pose proof attr_len_range. unfold nla_ok. rewrite u64_small by lia. rewrite (proj2 (Z.ltb_ge _ _)) by lia.
  rewrite nla_len_encoded. cbn [mbind res_bind]. f_equal. apply andb_true_iff. split; apply Z.leb_le; lia.
Qed.

Lemma nla_next_encoded rem :
  nla_next buf p rem = Ok (p + Z.of_nat (length (encode_attr a)), rem - Z.of_nat (length (encode_attr a))).
Proof. unfold nla_next. rewrite nla_len_encoded, length_encode_attr. done. Qed.
End attribute.

(** ** A stream *)

(** [tb] points to the last attribute of every type of [l]. *)
Definition indexes (buf : buffer) (maxtype : Z) (l : list attr) (tb : index) : Prop :=
  Z.of_nat (length tb) = maxtype + 1 ∧
  ∀ t, 0 ≤ t ≤ maxtype →
    match find_attr t l with
    | Some a => ∃ p, tb_get tb t = Ok (Some p) ∧ bytes_at buf p (encode_attr a) ∧ attr_ok a
    | None => tb_get tb t = Ok None
    end.

Lemma find_attr_snoc t l a : find_attr t (l ++ [a]) = if decide (type_of a = t) then Some a else find_attr t l.
Proof.
  unfold find_attr. rewrite filter_app, filter_cons. case_decide; cbn; [by rewrite last_snoc|by rewrite app_nil_r].
Qed.

(** To evaluate it without looking at the data. *)
Lemma find_attr_cons t ty d l :
  find_attr t (Attr ty d :: l) =
    match find_attr t l with
    | Some b => Some b
    | None => if Z.land ty NLA_TYPE_MASK =? t then Some (Attr ty d) else None
    end.
Proof.
  unfold find_attr. rewrite filter_cons. unfold type_of at 1. cbn [a_type].
  destruct (Z.eqb_spec (Z.land ty NLA_TYPE_MASK) t) as [He|Hne]; [rewrite decide_True by done|rewrite decide_False by done].
  - rewrite last_cons. by destruct (last _).
  - by destruct (last _).
Qed.

Lemma indexes_empty buf maxtype : 0 ≤ maxtype → indexes buf maxtype [] (replicate (Z.to_nat (maxtype + 1)) None).
Proof.
  intros Hm. split; [rewrite length_replicate; lia|]. intros t Ht. cbn. unfold tb_get.
  by rewrite lookup_replicate_2 by lia.
Qed.

Lemma indexes_snoc buf maxtype l tb p a :
  indexes buf maxtype l tb → bytes_at buf p (encode_attr a) → attr_ok a →
  indexes buf maxtype (l ++ [a]) (if maxtype <? type_of a then tb else <[Z.to_nat (type_of a) := Some p]> tb).
Proof.
  intros [Hl Hi] Hp Ha. pose proof (type_range _ (proj1 Ha)) as Ht. fold (type_of a) in Ht. split.
  { destruct (_ <? _); [done|]. by rewrite length_insert. }
  intros t Hr. specialize (Hi t Hr). rewrite find_attr_snoc. destruct (Z.ltb_spec maxtype (type_of a)) as [Hgt|Hle].
  - rewrite decide_False by lia. exact Hi.
  - unfold tb_get in *. case_decide as Hd.
    + exists p. subst t. rewrite list_lookup_insert_eq by lia. done.
    + rewrite list_lookup_insert_ne by lia. exact Hi.
Qed.

Lemma nla_loop_encoded buf maxtype l : ∀ fuel p tb l0,
  Forall attr_ok l → bytes_at buf p (encode_attrs l) → Z.of_nat (length (encode_attrs l)) < 2 ^ 31 →
  (length l ≤ fuel)%nat → indexes buf maxtype l0 tb →
  ∃ tb', nla_loop fuel buf maxtype None p (Z.of_nat (length (encode_attrs l))) tb = Ok (0, tb') ∧
    indexes buf maxtype (l0 ++ l) tb'.
Proof.
  induction l as [|a l IH]; intros fuel p tb l0 Hok Hp Hlen Hf Hi.
  { exists tb. rewrite app_nil_r. by destruct fuel. }
  destruct fuel as [|fuel]; cbn [length] in Hf; [lia|]. apply Forall_cons in Hok as [Ha Hok].
  change (encode_attrs (a :: l)) with (encode_attr a ++ encode_attrs l) in *.
  apply bytes_at_app in Hp as [Hpa Hpl]. rewrite length_app in *. pose proof (align_range (attr_len a)) as Hal.
  cbn [nla_loop]. rewrite (nla_ok_encoded buf p a Hpa Ha) by (rewrite Nat2Z.inj_add, length_encode_attr; rewrite Nat2Z.inj_add, length_encode_attr in Hlen; lia).
  cbn [mbind res_bind negb]. rewrite (nla_type_encoded buf p a Hpa Ha). cbn [mbind res_bind].
  assert ((if maxtype <? type_of a then Ok 0 else Ok 0) = Ok 0) as -> by (by destruct (_ <? _)).
  cbn [mbind res_bind]. change (0 <? 0) with false. cbn iota. rewrite (nla_next_encoded buf p a Hpa Ha). cbn [mbind res_bind].
  destruct (IH fuel (p + Z.of_nat (length (encode_attr a)))
    (if maxtype <? type_of a then tb else <[Z.to_nat (type_of a) := Some p]> tb) (l0 ++ [a]))
    as (tb' & E & Hi'); [done|done|lia|lia|by apply indexes_snoc|].
  exists tb'. rewrite <-app_assoc in Hi'. split; [|done]. rewrite <-E. f_equal. lia.
Qed.

Lemma encode_attrs_length l : (length l ≤ length (encode_attrs l))%nat.
Proof.
  induction l as [|a l IH]; [done|].
  change (encode_attrs (a :: l)) with (encode_attr a ++ encode_attrs l). cbn [length]. rewrite length_app. pose proof (length_encode_attr a) as Hl.
  pose proof (align_range (attr_len a)). unfold attr_len, NLA_HDRLEN in *. lia.
Qed.

Lemma length_encode_attrs_cons a l :
  Z.of_nat (length (encode_attrs (a :: l))) = NLA_ALIGN (attr_len a) + Z.of_nat (length (encode_attrs l)).
Proof.
  change (encode_attrs (a :: l)) with (encode_attr a ++ encode_attrs l).
  rewrite length_app, Nat2Z.inj_add, length_encode_attr. done.
Qed.

(** An encoded stream in a buffer is indexed. *)
Lemma parse_encoded buf maxtype p l :
  Forall attr_ok l → bytes_at buf p (encode_attrs l) → Z.of_nat (length (encode_attrs l)) < 2 ^ 31 → 0 ≤ maxtype →
  ∃ tb, libbpf_nla_parse buf maxtype p (Z.of_nat (length (encode_attrs l))) None = Ok (0, tb) ∧
    indexes buf maxtype l tb.
Proof.
  intros Hok Hp Hlen Hm. unfold libbpf_nla_parse.
  apply (nla_loop_encoded buf maxtype l _ p _ []); [done..| |by apply indexes_empty].
  pose proof (encode_attrs_length l). lia.
Qed.

(** ** Any bytes *)

Definition octets_ok (buf : buffer) : Prop := Forall (λ b, 0 ≤ b < 256) buf.

Lemma byte_at_octet buf i : octets_ok buf → 0 ≤ i < Z.of_nat (length buf) → ∃ b, byte_at buf i = Ok b ∧ 0 ≤ b < 256.
Proof.
  intros Hb Hi. destruct (byte_at_ok buf i Hi) as [b E]. exists b. split; [done|].
  unfold byte_at in E. destruct (i <? 0); [done|]. destruct (buf !! Z.to_nat i) as [b'|] eqn:El; [|done].
  injection E as ->. eapply Forall_lookup_1 in Hb; done.
Qed.

Lemma load16_octets buf i :
  octets_ok buf → 0 ≤ i → i + 2 ≤ Z.of_nat (length buf) → ∃ v, load16 buf i = Ok v ∧ 0 ≤ v < 2 ^ 16.
Proof.
  intros Hb H1 H2. unfold load16. destruct (byte_at_octet buf i Hb) as (a & -> & Ha); [lia|].
  destruct (byte_at_octet buf (i + 1) Hb) as (b & -> & Hb'); [lia|]. eexists. split; [done|].
  rewrite lor_shiftl_add by lia. lia.
Qed.

(** A policy with an entry for every type. *)
Definition policy_ok (maxtype : Z) (policy : option (list libbpf_nla_policy)) : Prop :=
  match policy with
  | Some p => Z.of_nat (length p) = maxtype + 1 ∧ Forall (λ q, 0 ≤ p_type q ∧ 0 ≤ p_minlen q) p
  | None => True
  end.

(** A pointer to an attribute of type [t] within [lo] and [hi] that passed the policy. *)
Definition attr_within (buf : buffer) (maxtype lo hi : Z) (policy : option (list libbpf_nla_policy)) (t q : Z) : Prop :=
  lo ≤ q ∧ nla_type buf q = Ok t ∧
  (∃ l, nla_len buf q = Ok l ∧ 4 ≤ l ∧ q + l ≤ hi) ∧
  (∀ p, policy = Some p → validate_nla buf q maxtype p = Ok 0).

Definition index_within (buf : buffer) (maxtype lo hi : Z) policy (tb : index) : Prop :=
  Z.of_nat (length tb) = maxtype + 1 ∧
  ∀ t q, tb !! t = Some (Some q) → attr_within buf maxtype lo hi policy (Z.of_nat t) q.

Lemma validate_returns buf nla maxtype p t l :
  octets_ok buf → Z.of_nat (length p) = maxtype + 1 → Forall (λ q, 0 ≤ p_type q ∧ 0 ≤ p_minlen q) p →
  0 ≤ nla → nla_type buf nla = Ok t → nla_len buf nla = Ok l → 4 ≤ l < 2 ^ 16 → nla + l ≤ Z.of_nat (length buf) →
  ∃ v, validate_nla buf nla maxtype p = Ok v ∧ (v = 0 ∨ v = -1).
Proof.
  intros Hb Hp Hf Hn Et El Hl Hin. unfold validate_nla. rewrite Et. cbn [mbind res_bind].
  destruct (Z.ltb_spec t 0); [eauto|]. destruct (Z.ltb_spec maxtype t); [eauto|]. cbn [orb].
  destruct (lookup_lt_is_Some_2 p (Z.to_nat t)) as [pt Hpt]; [lia|]. rewrite Hpt. cbn [or_fault mbind res_bind].
  pose proof (proj1 (Forall_lookup _ _) Hf _ _ Hpt) as [Hty Hml].
  destruct (Z.ltb_spec LIBBPF_NLA_TYPE_MAX (p_type pt)) as [|Hty2]; [eauto|].
  set (m := if negb (p_minlen pt =? 0) then _ else _).
  assert (∃ n, m = Ok n ∧ (p_type pt = LIBBPF_NLA_STRING → 1 ≤ n)) as (n & -> & Hn1).
  { subst m. destruct (Z.eqb_spec (p_minlen pt) 0) as [Hz|Hz]; cbn [negb].
    - destruct (Z.eqb_spec (p_type pt) LIBBPF_NLA_UNSPEC) as [Hu|Hu]; cbn [negb].
      + exists 0. split; [done|]. rewrite Hu. done.
      + destruct (lookup_lt_is_Some_2 nla_attr_minlen (Z.to_nat (p_type pt))) as [n En].
        { cbn. unfold LIBBPF_NLA_TYPE_MAX in Hty2. lia. }
        rewrite En. exists n. split; [done|]. intros Hs. rewrite Hs in En. cbn in En. injection En as <-. lia.
    - exists (p_minlen pt). split; [done|]. lia. }
  cbn [mbind res_bind]. unfold libbpf_nla_len. rewrite El. cbn [mbind res_bind].
  rewrite u32_small by (unfold NLA_HDRLEN; lia).
  destruct (Z.ltb_spec (l - NLA_HDRLEN) n) as [|Hln]; [eauto|]. destruct (_ && _); [eauto|].
  destruct (Z.eqb_spec (p_type pt) LIBBPF_NLA_STRING) as [Hs|]; [|eauto].
  destruct (byte_at_ok buf (libbpf_nla_data nla + (l - NLA_HDRLEN - 1))) as [z ->].
  { specialize (Hn1 Hs). unfold libbpf_nla_data, NLA_HDRLEN in *. lia. }
  cbn [mbind res_bind]. destruct (negb _); eauto.
Qed.

Lemma nla_loop_safe buf maxtype policy lo hi : ∀ fuel p rem tb,
  octets_ok buf → policy_ok maxtype policy → 0 ≤ lo ≤ p → p + rem = hi → hi + 5 ≤ Z.of_nat (length buf) →
  p + 2 ≤ Z.of_nat (length buf) → - 2 ^ 31 ≤ rem < 2 ^ 31 → (Z.to_nat rem ≤ fuel)%nat → 0 ≤ maxtype →
  index_within buf maxtype lo hi policy tb →
  ∃ ret tb', nla_loop fuel buf maxtype policy p rem tb = Ok (ret, tb') ∧
    (ret = 0 ∨ (ret = -1 ∧ is_Some policy)) ∧ index_within buf maxtype lo hi policy tb'.
Proof.
  induction fuel as [|fuel IH]; intros p rem tb Hb Hpol Hlo Hhi HL Hp Hrem Hf Hmax Htb.
  all: assert (∃ b, nla_ok buf p rem = Ok b ∧
      (b = true → ∃ l, nla_len buf p = Ok l ∧ 4 ≤ l < 2 ^ 16 ∧ l ≤ rem)) as (b & Eb & Hbt);
    [unfold nla_ok; destruct (Z.ltb_spec (u64 rem) 4); [by eexists|];
     destruct (load16_octets buf p Hb) as (l & E & Hl); [lia..|]; unfold nla_len; rewrite E; cbn [mbind res_bind];
     eexists; split; [reflexivity|]; intros [?%Z.leb_le ?%Z.leb_le]%andb_true_iff; exists l; split; [done|lia]|].
  all: cbn [nla_loop]; rewrite Eb; cbn [mbind res_bind]; destruct b; cbn [negb]; [|exists 0, tb; by split; [|split; [left|]]].
  all: destruct (Hbt eq_refl) as (l & El & Hl & Hle).
  { lia. }
  destruct (load16_octets buf (p + 2) Hb) as (ty & Ety & Hty); [lia..|].
  assert (nla_type buf p = Ok (Z.land ty NLA_TYPE_MASK)) as Et by (unfold nla_type; by rewrite Ety).
  pose proof (type_range ty Hty) as Htr. rewrite Et. cbn [mbind res_bind]. set (t := Z.land ty NLA_TYPE_MASK) in *.
  set (check := if maxtype <? t then Ok 0 else _).
  assert (∃ v, check = Ok v ∧ (v = 0 ∨ (v = -1 ∧ is_Some policy)) ∧
    (t ≤ maxtype → v = 0 → ∀ pl, policy = Some pl → validate_nla buf p maxtype pl = Ok 0)) as (v & Ev & Hv & Hval).
  { subst check. destruct (Z.ltb_spec maxtype t); [exists 0; split; [done|]; split; [by left|lia]|].
    destruct policy as [pl|]; [|exists 0; split; [done|]; by split; [left|]]. destruct Hpol as [Hpl Hpf].
    destruct (validate_returns buf p maxtype pl t l Hb Hpl Hpf) as (v & E & Hv); [lia|done|done|lia|lia|].
    exists v. split; [done|]. split; [destruct Hv; [by left|by right]|]. intros _ -> pl' [= <-]. done. }
  rewrite Ev. cbn [mbind res_bind]. destruct (Z.ltb_spec v 0).
  { exists v, tb. split; [done|]. split; [destruct Hv as [->|]; [lia|by right]|done]. }
  assert (v = 0) as -> by (destruct Hv as [|[-> _]]; lia).
  unfold nla_next. rewrite El. cbn [mbind res_bind]. pose proof (align_range l).
  apply IH; try done; try lia.
  destruct Htb as [Hl1 Ht1]. destruct (Z.ltb_spec maxtype t) as [|Hle']; [done|]. split; [by rewrite length_insert|].
  intros t' q. destruct (decide (t' = Z.to_nat t)) as [->|Hne].
  - rewrite list_lookup_insert_eq by lia. intros [= <-]. rewrite Z2Nat.id by lia. split; [lia|].
    split; [done|]. split; [exists l; split; [done|lia]|]. by apply Hval.
  - rewrite list_lookup_insert_ne by done. apply Ht1.
Qed.

Lemma index_within_empty buf maxtype lo hi policy :
  0 ≤ maxtype → index_within buf maxtype lo hi policy (replicate (Z.to_nat (maxtype + 1)) None).
Proof.
  intros Hm. split; [rewrite length_replicate; lia|]. intros t q Hl.
  apply lookup_replicate in Hl as [[=] _].
Qed.

(** C31: The attribute parser is safe on any bytes.  For every stream of the declared length
    with five more readable bytes behind it, whatever it holds and whatever the
    policy, [libbpf_nla_parse] ends, with 0, or with -1 for an attribute that breaks the
    policy; it reads nothing out of bounds; and every pointer it stores is an
    attribute of that type, whose whole length lies in the stream and which
    passed the policy. *)
Theorem nla_parse_is_safe buf maxtype head len policy :
  octets_ok buf → policy_ok maxtype policy → 0 ≤ maxtype → 0 ≤ head → - 2 ^ 31 ≤ len < 2 ^ 31 →
  head + Z.max 0 len + 5 ≤ Z.of_nat (length buf) →
  ∃ ret tb, libbpf_nla_parse buf maxtype head len policy = Ok (ret, tb) ∧
    (ret = 0 ∨ (ret = -1 ∧ is_Some policy)) ∧ index_within buf maxtype head (head + len) policy tb.
Proof.
  intros Hb Hp Hm Hh Hl HL. unfold libbpf_nla_parse.
  apply nla_loop_safe; try done; try lia. by apply index_within_empty.
Qed.

(** A NUL-terminated message, and garbage behind it that claims to be longer. *)
Definition sample_stream : buffer :=
  encode_attr (Attr 1 [72; 105; 0]) ++ [200; 0; 2; 0; 1; 2; 3; 4; 5; 6; 7; 8].

Lemma nla_parse_is_safe_witness :
  libbpf_nla_parse sample_stream NLMSGERR_ATTR_MAX 0 15 (Some extack_policy) = Ok (0, [None; Some 0; None; None]) ∧
  ∃ ret tb, libbpf_nla_parse sample_stream NLMSGERR_ATTR_MAX 0 15 (Some extack_policy) = Ok (ret, tb) ∧
    (ret = 0 ∨ (ret = -1 ∧ is_Some (Some extack_policy))) ∧
    index_within sample_stream NLMSGERR_ATTR_MAX 0 15 (Some extack_policy) tb.
Proof.
  split; [vm_compute; reflexivity|].
  apply (nla_parse_is_safe sample_stream NLMSGERR_ATTR_MAX 0 15 (Some extack_policy)).
  - unfold octets_ok. vm_compute. repeat constructor; discriminate.
  - vm_compute. split; [done|]. repeat constructor; discriminate.
  - done.
  - done.
  - done.
  - vm_compute. discriminate.
Defined.

(** The bytes behind the stream are needed: [nla_ok] compares a negative rest as
    unsigned, so behind an attribute without padding it reads one more length. *)
Example unpadded_end_is_overrun :
  libbpf_nla_parse (le16 5 ++ le16 1 ++ [7]) 3 0 5 None = Err OutOfBounds.
Proof. vm_compute. reflexivity. Qed.

(** The stream the extended error message is looked for in ends 16 bytes behind
    the message: [alen] forgets the header.  Here the attribute found is not of
    the message. *)
Definition ack_without_text : buffer :=
  le32 40 ++ le16 2 ++ le16 NLM_F_ACK_TLVS ++ le32 1 ++ le32 7        (* header *)
  ++ le32 (-22) ++ le32 16 ++ replicate 12 0                           (* error and the request's header *)
  ++ le16 4 ++ le16 3.                                                 (* a cookie without data *)
Example errormsg_overruns_the_message :
  libbpf_nla_dump_errormsg (ack_without_text ++ encode_attr (Attr 1 [88; 0]) ++ replicate 16 0) 0 = Ok (Some (Some 44)).
Proof. vm_compute. reflexivity. Qed.
