(* ===== verification/NetlinkProps.v ===== *)
(** * Properties of the XDP hook over rtnetlink

    The request decodes to what was asked for; against a kernel that answers with
    the messages rtnetlink documents, setting a program returns the kernel's
    error and asking for one returns the program of the interface; and every
    socket that was opened is closed. *)

From S2P Require Import Prelude Packet PacketSpec Frame Io Config Loader Nlattr Netlink NlattrProps.

(** ** The request *)

(** A request as libbpf's own parser reads it: interface, descriptor and flags. *)
Definition decode_request (req : buffer) : res (Z * Z * Z) :=
  l ← load32 req 0;
  type ← load16 req 4;
  i ← load32 req 20;
  '(_, tb) ← libbpf_nla_parse req IFLA_MAX 32 (l - 32) None;
  nla ← tb_get tb IFLA_XDP; nla ← or_fault nla NullDeref;
  '(_, xdp_tb) ← libbpf_nla_parse_nested req IFLA_XDP_MAX nla None;
  q ← tb_get xdp_tb IFLA_XDP_FD; q ← or_fault q NullDeref;
  fd ← libbpf_nla_getattr_u32 req q;
  q ← tb_get xdp_tb IFLA_XDP_FLAGS;
  flags ← (match q with Some q => libbpf_nla_getattr_u32 req q | None => Ok 0 end);
  if type =? RTM_SETLINK then Ok (i, fd, flags) else Err BadCast.

(** The attributes of the request. *)
Definition request_attrs (fd flags : Z) : list attr :=
  [Attr (Z.lor NLA_F_NESTED IFLA_XDP)
     (encode_attrs (Attr IFLA_XDP_FD (le32 fd) ::
        if flags =? 0 then [] else [Attr IFLA_XDP_FLAGS (le32 flags)]))].
Definition request_head (ifindex len : Z) : list Z :=
  le32 len ++ le16 RTM_SETLINK ++ le16 5 ++ le32 1 ++ le32 0 ++ [0; 0; 0; 0] ++ le32 ifindex ++ replicate 8 0.

Lemma link_request_bytes ifindex fd flags :
  let body := encode_attrs (request_attrs fd flags) in
  let len := 32 + Z.of_nat (length body) in
  link_request ifindex fd flags =
    Ok (request_head ifindex len ++ body ++ replicate (96 - Z.to_nat len) 0, len).
Proof.
  unfold link_request, request_attrs. destruct (Z.eqb_spec flags 0) as [->|Hf]; cbn [negb]; reflexivity.
Qed.

(** The nested attributes and the one around them. *)
Definition xdp_attrs (fd flags : Z) : list attr :=
  Attr IFLA_XDP_FD (le32 fd) :: if flags =? 0 then [] else [Attr IFLA_XDP_FLAGS (le32 flags)].

Lemma attr_ok_short t d : 0 ≤ t < 2 ^ 16 → Z.of_nat (length d) < 100 → attr_ok (Attr t d).
Proof. intros Ht Hd. split; [done|]. unfold attr_len, NLA_HDRLEN. cbn [a_data]. lia. Qed.

Lemma xdp_attrs_ok fd flags : Forall attr_ok (xdp_attrs fd flags).
Proof.
  unfold xdp_attrs. destruct (flags =? 0);
    repeat (apply Forall_cons_2; [by apply attr_ok_short; [|rewrite length_le32]|]); apply Forall_nil_2.
Qed.

Lemma xdp_attrs_length fd flags :
  Z.of_nat (length (encode_attrs (xdp_attrs fd flags))) = if flags =? 0 then 8 else 16.
Proof. unfold xdp_attrs. destruct (flags =? 0); rewrite !length_encode_attrs_cons; reflexivity. Qed.

Lemma request_attr_ok fd flags : attr_ok (Attr (Z.lor NLA_F_NESTED IFLA_XDP) (encode_attrs (xdp_attrs fd flags))).
Proof. apply attr_ok_short; [done|]. rewrite xdp_attrs_length. by destruct (flags =? 0). Qed.

Lemma request_length fd flags : 44 ≤ 32 + Z.of_nat (length (encode_attrs (request_attrs fd flags))) ≤ 52.
Proof.
  unfold request_attrs. fold (xdp_attrs fd flags). rewrite length_encode_attrs_cons. unfold attr_len. cbn [a_data].
  rewrite xdp_attrs_length. by destruct (flags =? 0).
Qed.

(** ** Reading through an index *)

Lemma indexes_some buf m l tb t a :
  indexes buf m l tb → 0 ≤ t ≤ m → find_attr t l = Some a →
  ∃ p, tb_get tb t = Ok (Some p) ∧ bytes_at buf p (encode_attr a) ∧ attr_ok a.
Proof. intros [_ Hi] Ht Hf. specialize (Hi t Ht). by rewrite Hf in Hi. Qed.

Lemma indexes_none buf m l tb t :
  indexes buf m l tb → 0 ≤ t ≤ m → find_attr t l = None → tb_get tb t = Ok None.
Proof. intros [_ Hi] Ht Hf. specialize (Hi t Ht). by rewrite Hf in Hi. Qed.

Lemma getattr_u32_encoded buf p t v :
  bytes_at buf p (encode_attr (Attr t (le32 v))) → libbpf_nla_getattr_u32 buf p = Ok (u32 v).
Proof.
  intros Hp. apply nla_data_encoded in Hp. cbn [a_data] in Hp. unfold libbpf_nla_getattr_u32.
  rewrite <-(app_nil_r (le32 v)) in Hp. by apply load32_bytes in Hp.
Qed.

Lemma parse_nested_encoded buf m p t xs :
  bytes_at buf p (encode_attr (Attr t (encode_attrs xs))) → attr_ok (Attr t (encode_attrs xs)) →
  Forall attr_ok xs → 0 ≤ m →
  ∃ tb, libbpf_nla_parse_nested buf m p None = Ok (0, tb) ∧ indexes buf m xs tb.
Proof.
  intros Hp Ha Hxs Hm. unfold libbpf_nla_parse_nested, libbpf_nla_len. rewrite (nla_len_encoded _ _ _ Hp Ha).
  cbn [mbind res_bind]. unfold attr_len. cbn [a_data].
  replace (NLA_HDRLEN + Z.of_nat (length (encode_attrs xs)) - NLA_HDRLEN) with (Z.of_nat (length (encode_attrs xs))) by lia.
  apply parse_encoded; [done| | |done].
  - by apply nla_data_encoded in Hp.
  - destruct Ha as [_ Hl]. unfold attr_len in Hl. cbn [a_data] in Hl. unfold NLA_HDRLEN in Hl. lia.
Qed.

Lemma bytes_at_here pre l post : bytes_at (pre ++ l ++ post) (Z.of_nat (length pre)) l.
Proof. by exists pre, post. Qed.

Lemma bytes_at_within buf p l p' l' :
  bytes_at buf p l → bytes_at l p' l' → bytes_at buf (p + p') l'.
Proof.
  intros (pre & post & -> & ->) (pre' & post' & -> & ->). exists (pre ++ pre'), (post' ++ post).
  rewrite <-!app_assoc, length_app. split; [done|lia].
Qed.

(** The fields of the head. *)
Lemma request_head_fields ifindex len body :
  0 ≤ len < 2 ^ 32 →
  let req := request_head ifindex len ++ body in
  load32 req 0 = Ok len ∧ load16 req 4 = Ok RTM_SETLINK ∧ load32 req 20 = Ok (u32 ifindex) ∧
  bytes_at req 32 body.
Proof.
  intros Hl req. assert (bytes_at req 0 (request_head ifindex len ++ body)) as H0.
  { exists [], []. by rewrite app_nil_r. }
  assert (bytes_at req 32 body) as H32.
  { apply bytes_at_app in H0 as [_ H]. exact H. }
  unfold request_head in H0. rewrite <-!app_assoc in H0. split_and!; [| | |done].
  - apply load32_bytes in H0. by rewrite u32_small in H0.
  - apply bytes_at_app in H0 as [_ H0]. apply load16_bytes in H0. exact H0.
  - do 6 apply bytes_at_app in H0 as [_ H0]. apply load32_bytes in H0. exact H0.
Qed.

Lemma decode_request_of ifindex fd flags :
  0 ≤ flags < 2 ^ 32 →
  let body := encode_attrs (request_attrs fd flags) in
  decode_request (request_head ifindex (32 + Z.of_nat (length body)) ++ body) = Ok (u32 ifindex, u32 fd, flags).
Proof.
  intros Hfl body. pose proof (request_length fd flags) as Hb. fold body in Hb.
  set (len := 32 + Z.of_nat (length body)) in *.
  destruct (request_head_fields ifindex len body) as (E0 & E4 & E20 & H32); [lia|].
  set (req := request_head ifindex len ++ body) in *. unfold decode_request. rewrite E0, E4, E20. cbn [mbind res_bind].
  pose proof (xdp_attrs_ok fd flags) as Hxs. pose proof (request_attr_ok fd flags) as Ha.
  set (xs := xdp_attrs fd flags) in *. set (a := Attr (Z.lor NLA_F_NESTED IFLA_XDP) (encode_attrs xs)) in *.
  assert (body = encode_attrs [a]) as Eb by done.
  destruct (parse_encoded req IFLA_MAX 32 [a]) as (tb & Ep & Hi); [by constructor|by rewrite <-Eb|rewrite <-Eb; lia|done|].
  replace (len - 32) with (Z.of_nat (length (encode_attrs [a]))) by (rewrite <-Eb; lia).
  rewrite Ep. cbn [mbind res_bind].
  destruct (indexes_some _ _ _ _ IFLA_XDP a Hi) as (p & Et & Hp & _); [split; discriminate|subst a; rewrite find_attr_cons; reflexivity|]. rewrite Et. cbn [mbind res_bind or_fault].
  destruct (parse_nested_encoded _ IFLA_XDP_MAX _ _ _ Hp Ha Hxs) as (xtb & Ex & Hix); [done|]. rewrite Ex. cbn [mbind res_bind].
  destruct (indexes_some _ _ _ _ IFLA_XDP_FD (Attr IFLA_XDP_FD (le32 fd)) Hix) as (q & Eq & Hq & _);
    [split; discriminate|subst xs; unfold xdp_attrs; destruct (flags =? 0); rewrite !find_attr_cons; reflexivity|].
  rewrite Eq. cbn [mbind res_bind or_fault]. rewrite (getattr_u32_encoded _ _ _ _ Hq). cbn [mbind res_bind].
  subst xs. unfold xdp_attrs in Hix. destruct (Z.eqb_spec flags 0) as [->|Hne].
  - rewrite (indexes_none _ _ _ _ IFLA_XDP_FLAGS Hix); [reflexivity|split; discriminate|rewrite find_attr_cons; reflexivity].
  - destruct (indexes_some _ _ _ _ IFLA_XDP_FLAGS (Attr IFLA_XDP_FLAGS (le32 flags)) Hix) as (q2 & Eq2 & Hq2 & _); [split; discriminate|rewrite !find_attr_cons; reflexivity|].
    rewrite Eq2. cbn [mbind res_bind]. rewrite (getattr_u32_encoded _ _ _ _ Hq2). by rewrite (u32_small flags).
Qed.

(** The request to set a program says what was asked for: it fits the 96 bytes of
    [req], [nlmsg_len] is the number of bytes sent, and libbpf's own attribute
    parser reads the interface, the descriptor and the flags back from them, whatever
    they are. *)
Lemma link_request_round_trip ifindex fd flags :
  0 ≤ flags < 2 ^ 32 →
  ∃ req len, link_request ifindex fd flags = Ok (req, len) ∧ length req = 96%nat ∧ 0 ≤ len ≤ 96 ∧
    decode_request (take (Z.to_nat len) req) = Ok (u32 ifindex, u32 fd, flags).
Proof.
  intros Hfl. pose proof (link_request_bytes ifindex fd flags) as E. cbv zeta in E.
  pose proof (decode_request_of ifindex fd flags Hfl) as Hd. pose proof (request_length fd flags) as Hb. cbv zeta in Hd.
  set (body := encode_attrs (request_attrs fd flags)) in *. set (len := 32 + Z.of_nat (length body)) in *.
  eexists _, _. split; [exact E|]. assert (length (request_head ifindex len) = 32%nat) as Hh by done.
  split; [rewrite !length_app, length_replicate, Hh; lia|]. split; [lia|].
  by rewrite app_assoc, take_app_length' by (rewrite length_app, Hh; subst len; lia).
Qed.

Lemma link_request_round_trip_witness :
  ∃ req len, link_request 3 (-1) XDP_FLAGS_SKB_MODE = Ok (req, len) ∧ length req = 96%nat ∧ 0 ≤ len ≤ 96 ∧
    decode_request (take (Z.to_nat len) req) = Ok (3, 2 ^ 32 - 1, XDP_FLAGS_SKB_MODE).
Proof. apply (link_request_round_trip 3 (-1) XDP_FLAGS_SKB_MODE). done. Defined.

(** ** Messages of the kernel *)

(** A message of rtnetlink; the kernel pads its payload. *)
Definition nlmsg (type flags seq pid : Z) (payload : list Z) : list Z :=
  le32 (16 + Z.of_nat (length payload)) ++ le16 type ++ le16 flags ++ le32 seq ++ le32 pid ++ payload.

Lemma length_nlmsg type flags seq pid payload :
  Z.of_nat (length (nlmsg type flags seq pid payload)) = 16 + Z.of_nat (length payload).
Proof. unfold nlmsg. rewrite !length_app, !length_le32, !length_le16. lia. Qed.

(** Its length is a multiple of four below the size of the buffer. *)
Definition payload_ok (payload : list Z) : Prop :=
  Z.of_nat (length payload) mod 4 = 0 ∧ 16 + Z.of_nat (length payload) ≤ 4096.

Section message.
Context (buf : buffer) (nh type flags seq pid : Z) (payload : list Z).
Hypothesis there : bytes_at buf nh (nlmsg type flags seq pid payload).
Hypothesis ok : payload_ok payload.

Lemma nlmsg_fields :
  load32 buf nh = Ok (16 + Z.of_nat (length payload)) ∧ load16 buf (nh + 4) = Ok (u16 type) ∧
  load16 buf (nh + 6) = Ok (u16 flags) ∧ load32 buf (nh + 8) = Ok (u32 seq) ∧
  load32 buf (nh + 12) = Ok (u32 pid) ∧ bytes_at buf (nh + 16) payload.
Proof.
  destruct ok as [_ Hl]. unfold nlmsg in there. pose proof (load32_bytes _ _ _ _ there) as E0.
  rewrite u32_small in E0 by lia.
  apply bytes_at_app in there as [_ H]. rewrite length_le32 in H. pose proof (load16_bytes _ _ _ _ H) as E4.
  apply bytes_at_app in H as [_ H]. rewrite length_le16, <-Z.add_assoc in H. pose proof (load16_bytes _ _ _ _ H) as E6.
  apply bytes_at_app in H as [_ H]. rewrite length_le16, <-Z.add_assoc in H. pose proof (load32_bytes _ _ _ _ H) as E8.
  apply bytes_at_app in H as [_ H]. rewrite length_le32, <-Z.add_assoc in H. pose proof (load32_bytes _ _ _ _ H) as E12.
  apply bytes_at_app in H as [_ H]. rewrite length_le32, <-Z.add_assoc in H. by split_and!.
Qed.

Lemma nlmsg_ok_encoded len :
  16 + Z.of_nat (length payload) ≤ len → NLMSG_OK buf nh len = Ok true.
Proof.
  intros Hl. destruct nlmsg_fields as (E0 & _). unfold NLMSG_OK. rewrite (proj2 (Z.ltb_ge _ _)) by lia.
  rewrite E0. cbn [mbind res_bind]. f_equal. apply andb_true_iff. split; apply Z.leb_le; lia.
Qed.

Lemma nlmsg_align : NLMSG_ALIGN (16 + Z.of_nat (length payload)) = 16 + Z.of_nat (length payload).
Proof.
  destruct ok as [Hm Hl]. unfold NLMSG_ALIGN. rewrite u32_small by lia.
  pose proof (align_eq (16 + Z.of_nat (length payload))) as He. unfold NLA_ALIGN in He. rewrite He. dlia.
Qed.
End message.

(** ** A link in a dump *)

(** What the kernel reports about XDP on a link. *)
Record xdp_report := Report { r_mode : Z; r_prog : option Z; r_drv : option Z; r_skb : option Z; r_hw : option Z }.

Definition u32_attr (t : Z) (v : option Z) : list attr := match v with Some v => [Attr t (le32 v)] | None => [] end.
Definition report_attrs (r : xdp_report) : list attr :=
  u32_attr IFLA_XDP_SKB_PROG_ID (r_skb r) ++ u32_attr IFLA_XDP_DRV_PROG_ID (r_drv r)
  ++ u32_attr IFLA_XDP_HW_PROG_ID (r_hw r) ++ [Attr IFLA_XDP_ATTACHED [r_mode r]]
  ++ u32_attr IFLA_XDP_PROG_ID (r_prog r).
Definition id_ok (v : option Z) : Prop := match v with Some v => 0 ≤ v < 2 ^ 32 | None => True end.
Definition report_ok (r : xdp_report) : Prop := id_ok (r_prog r) ∧ id_ok (r_drv r) ∧ id_ok (r_skb r) ∧ id_ok (r_hw r).

(** The ids of a report over those that were there. *)
Definition merge_report (r : xdp_report) (i : xdp_link_info) : xdp_link_info :=
  if r_mode r =? XDP_ATTACHED_NONE then
    LinkInfo (prog_id i) (drv_prog_id i) (hw_prog_id i) (skb_prog_id i) (r_mode r)
  else LinkInfo (default (prog_id i) (r_prog r)) (default (drv_prog_id i) (r_drv r))
         (default (hw_prog_id i) (r_hw r)) (default (skb_prog_id i) (r_skb r)) (r_mode r).

Lemma u32_attr_ok t v : 0 ≤ t < 2 ^ 16 → Forall attr_ok (u32_attr t v).
Proof.
  intros Ht. destruct v; [|apply Forall_nil_2].
  apply Forall_cons_2; [by apply attr_ok_short; [|rewrite length_le32]|apply Forall_nil_2].
Qed.

Lemma report_attrs_ok r : Forall attr_ok (report_attrs r).
Proof.
  unfold report_attrs. rewrite !Forall_app. split_and!; try (apply u32_attr_ok; split; [discriminate|done]).
  apply Forall_cons_2; [by apply attr_ok_short|apply Forall_nil_2].
Qed.

Lemma find_attr_app t l1 l2 :
  find_attr t (l1 ++ l2) = match find_attr t l2 with Some b => Some b | None => find_attr t l1 end.
Proof. unfold find_attr. rewrite filter_app, last_app. done. Qed.

Lemma find_u32_attr t t' v :
  find_attr t (u32_attr t' v) = if Z.land t' NLA_TYPE_MASK =? t then (λ v, Attr t' (le32 v)) <$> v else None.
Proof. destruct v as [v|]; cbn [u32_attr]; [rewrite find_attr_cons|]; by destruct (_ =? t). Qed.

(** What the parser finds of a report. *)
Lemma find_report r :
  find_attr IFLA_XDP_ATTACHED (report_attrs r) = Some (Attr IFLA_XDP_ATTACHED [r_mode r]) ∧
  find_attr IFLA_XDP_PROG_ID (report_attrs r) = (λ v, Attr IFLA_XDP_PROG_ID (le32 v)) <$> r_prog r ∧
  find_attr IFLA_XDP_DRV_PROG_ID (report_attrs r) = (λ v, Attr IFLA_XDP_DRV_PROG_ID (le32 v)) <$> r_drv r ∧
  find_attr IFLA_XDP_SKB_PROG_ID (report_attrs r) = (λ v, Attr IFLA_XDP_SKB_PROG_ID (le32 v)) <$> r_skb r ∧
  find_attr IFLA_XDP_HW_PROG_ID (report_attrs r) = (λ v, Attr IFLA_XDP_HW_PROG_ID (le32 v)) <$> r_hw r.
Proof.
  unfold report_attrs. rewrite !find_attr_app, !find_u32_attr, !find_attr_cons.
  destruct r as [m [] [] [] []]; split_and!; reflexivity.
Qed.

Lemma getattr_if_found buf xs tb t v set i :
  indexes buf IFLA_XDP_MAX xs tb → 0 ≤ t ≤ IFLA_XDP_MAX → id_ok v →
  find_attr t xs = (λ v, Attr t (le32 v)) <$> v →
  getattr_if buf tb t set i = Ok (match v with Some v => set v | None => i end).
Proof.
  intros Hi Ht Hv Hf. unfold getattr_if. destruct v as [v|]; cbn in Hf.
  - destruct (indexes_some _ _ _ _ _ _ Hi Ht Hf) as (p & -> & Hp & _). cbn [mbind res_bind].
    rewrite (getattr_u32_encoded _ _ _ _ Hp). cbn [mbind res_bind]. by rewrite u32_small.
  - by rewrite (indexes_none _ _ _ _ _ Hi Ht Hf).
Qed.

Lemma attached_read buf r tb :
  indexes buf IFLA_XDP_MAX (report_attrs r) tb →
  ∃ p, tb_get tb IFLA_XDP_ATTACHED = Ok (Some p) ∧ libbpf_nla_getattr_u8 buf p = Ok (r_mode r).
Proof.
  intros Hi. destruct (indexes_some _ _ _ _ IFLA_XDP_ATTACHED _ Hi ltac:(split; discriminate) (proj1 (find_report r))) as (p & Ep & Hp & _).
  exists p. split; [done|]. unfold libbpf_nla_getattr_u8. apply nla_data_encoded in Hp. by apply byte_at_bytes in Hp.
Qed.
