(* ===== verification/RtnlProps.v ===== *)
(** * The XDP hook over rtnetlink implements [LinkLaws]

    What rtnetlink documents of the answers to the two requests is the class
    [RtnlLaws]; over it, [bpf_set_link_xdp_fd] and [bpf_get_link_xdp_id] of
    netlink.c satisfy the laws the loader is proved against. *)

From stdpp Require Import gmap.
From S2P Require Import Prelude Packet PacketSpec Frame Io Config Loader LoaderProps.
From S2P Require Import Nlattr Netlink NlattrProps NetlinkProps.

(** ** The messages of a dump *)

Definition RTM_NEWLINK : Z := 16.

(** A link: the fields of [ifinfomsg] around its index, its attributes, and what
    the one of type [IFLA_XDP] among them says. *)
Record link := Link {
  l_front : list Z; l_index : Z; l_back : list Z; l_attrs : list attr; l_report : option xdp_report
}.

Definition link_ok (l : link) : Prop :=
  0 ≤ l_index l < 2 ^ 31 ∧ length (l_front l) = 4%nat ∧ length (l_back l) = 8%nat ∧
  Forall attr_ok (l_attrs l) ∧ Z.of_nat (length (encode_attrs (l_attrs l))) ≤ 4000 ∧
  match l_report l with
  | Some r => report_ok r ∧ 0 ≤ r_mode r < 256 ∧
      ∃ ty, find_attr IFLA_XDP (l_attrs l) = Some (Attr ty (encode_attrs (report_attrs r)))
  | None => find_attr IFLA_XDP (l_attrs l) = None
  end.

Definition link_payload (l : link) : list Z := l_front l ++ le32 (l_index l) ++ l_back l ++ encode_attrs (l_attrs l).
Definition link_msg (seq pid : Z) (l : link) : list Z := nlmsg RTM_NEWLINK NLM_F_MULTI seq pid (link_payload l).
Definition done_msg (seq pid : Z) : list Z := nlmsg NLMSG_DONE NLM_F_MULTI seq pid (le32 0).
Definition link_msgs (seq pid : Z) (ls : list link) : list Z := ls ≫= link_msg seq pid.

(** What the callback does for a link. *)
Definition report_step (c : xdp_id_md) (l : link) : xdp_id_md :=
  if negb (md_ifindex c =? 0) && negb (md_ifindex c =? l_index l) then c
  else match l_report l with Some r => with_info (merge_report r (md_info c)) c | None => c end.

Lemma encode_attrs_aligned l : Z.of_nat (length (encode_attrs l)) mod 4 = 0.
Proof.
  induction l as [|a l IH]; [done|]. rewrite length_encode_attrs_cons, align_eq.
  rewrite Z.add_comm, Z.mul_comm, Z.mod_add by done. done.
Qed.

Lemma link_payload_length l : link_ok l → Z.of_nat (length (link_payload l)) = 16 + Z.of_nat (length (encode_attrs (l_attrs l))).
Proof. intros (_ & H1 & H2 & _). unfold link_payload. rewrite !length_app, H1, H2, length_le32. lia. Qed.

Lemma link_payload_ok l : link_ok l → payload_ok (link_payload l).
Proof.
  intros Hl. unfold payload_ok. rewrite link_payload_length by done. destruct Hl as (_ & _ & _ & _ & Hle & _).
  pose proof (encode_attrs_aligned (l_attrs l)). split; [dlia|lia].
Qed.

Lemma get_xdp_info_link buf nh l tb c :
  link_ok l → bytes_at buf nh (link_payload l) → indexes buf IFLA_MAX (l_attrs l) tb →
  get_xdp_info buf c nh tb = Ok (0, report_step c l).
Proof.
  intros (Hix & Hf & _ & _ & _ & Hr) Hp Hi. unfold link_payload in Hp.
  apply bytes_at_app in Hp as [_ Hp]. rewrite Hf in Hp. unfold get_xdp_info, report_step.
  pose proof (load32_bytes _ _ _ _ Hp) as E. rewrite u32_small in E by lia. change (Z.of_nat 4) with 4 in E.
  rewrite E. cbn [mbind res_bind]. rewrite s32_small by lia.
  destruct (negb (md_ifindex c =? 0) && negb (md_ifindex c =? l_index l)); [done|].
  destruct (l_report l) as [r|].
  2: { rewrite (indexes_none _ _ _ _ IFLA_XDP Hi) by (done || split; discriminate). done. }
  destruct Hr as ((Hp1 & Hp2 & Hp3 & Hp4) & Hm & ty & Hfind).
  destruct (indexes_some _ _ _ _ IFLA_XDP _ Hi ltac:(split; discriminate) Hfind) as (p & Et & Hpb & Hok).
  rewrite Et. cbn [mbind res_bind].
  destruct (parse_nested_encoded _ IFLA_XDP_MAX _ _ _ Hpb Hok (report_attrs_ok r)) as (xtb & Ex & Hx); [done|].
  rewrite Ex. cbn [mbind res_bind Z.eqb negb]. destruct (attached_read _ _ _ Hx) as (q & Eq & Em).
  rewrite Eq. cbn [mbind res_bind]. rewrite Em. cbn [mbind res_bind]. unfold merge_report.
  destruct (r_mode r =? XDP_ATTACHED_NONE); [done|].
  destruct (find_report r) as (_ & F1 & F2 & F3 & F4).
  rewrite (getattr_if_found _ _ _ IFLA_XDP_PROG_ID (r_prog r) _ _ Hx) by (done || split; discriminate).
  cbn [mbind res_bind].
  rewrite (getattr_if_found _ _ _ IFLA_XDP_SKB_PROG_ID (r_skb r) _ _ Hx) by (done || split; discriminate).
  cbn [mbind res_bind].
  rewrite (getattr_if_found _ _ _ IFLA_XDP_DRV_PROG_ID (r_drv r) _ _ Hx) by (done || split; discriminate).
  cbn [mbind res_bind].
  rewrite (getattr_if_found _ _ _ IFLA_XDP_HW_PROG_ID (r_hw r) _ _ Hx) by (done || split; discriminate).
  cbn [mbind res_bind]. destruct (r_prog r), (r_skb r), (r_drv r), (r_hw r); reflexivity.
Qed.

Lemma dump_link buf nh seq pid l c :
  link_ok l → bytes_at buf nh (link_msg seq pid l) →
  dump_link_nlmsg get_xdp_info buf nh c = Ok (0, report_step c l).
Proof.
  intros Hl Hb. pose proof (link_payload_ok l Hl) as Hok. pose proof (link_payload_length l Hl) as Hlen.
  destruct (nlmsg_fields _ _ _ _ _ _ _ Hb Hok) as (E & _ & _ & _ & _ & Hp).
  pose proof Hl as (_ & Hf & Hk & Ha & Hle & _). unfold dump_link_nlmsg, dump_nlmsg. rewrite E. cbn [mbind res_bind].
  rewrite Hlen. change (NLMSG_LENGTH sizeof_ifinfomsg) with 32. change (NLMSG_ALIGN sizeof_ifinfomsg) with 16.
  unfold NLMSG_HDRLEN. rewrite s32_small by lia.
  replace (16 + (16 + Z.of_nat (length (encode_attrs (l_attrs l)))) - 32) with (Z.of_nat (length (encode_attrs (l_attrs l)))) by lia.
  assert (bytes_at buf (nh + 16 + 16) (encode_attrs (l_attrs l))) as Hat.
  { unfold link_payload in Hp. rewrite !app_assoc in Hp. apply bytes_at_app in Hp as [_ Hp].
    rewrite !length_app, Hf, Hk in Hp. exact Hp. }
  destruct (parse_encoded buf IFLA_MAX _ _ Ha Hat) as (tb & Et & Hi); [lia|done|]. rewrite Et.
  cbn [mbind res_bind Z.eqb negb]. by apply get_xdp_info_link.
Qed.

(** ** Datagrams of a dump *)

Section datagram.
Context (seq pid : Z) (Hseq : - 2 ^ 31 ≤ seq < 2 ^ 31) (Hpid : 0 ≤ pid < 2 ^ 32).

Abbreviation receive := (recv_messages pid seq (Some (dump_link_nlmsg get_xdp_info))).

Lemma link_msg_length l :
  link_ok l → Z.of_nat (length (link_msg (u32 seq) pid l)) = NLMSG_ALIGN (16 + Z.of_nat (length (link_payload l))).
Proof. intros Hl. unfold link_msg. by rewrite length_nlmsg, (nlmsg_align _ (link_payload_ok l Hl)). Qed.

(** The head of a message of the exchange. *)
Lemma message_head buf nh type flags payload :
  bytes_at buf nh (nlmsg type flags (u32 seq) pid payload) → payload_ok payload →
  load32 buf (nh + 12) = Ok pid ∧ load32 buf (nh + 8) = Ok (u32 seq) ∧
  load16 buf (nh + 6) = Ok (u16 flags) ∧ load16 buf (nh + 4) = Ok (u16 type) ∧
  load32 buf nh = Ok (16 + Z.of_nat (length payload)).
Proof.
  intros Hb Hok. destruct (nlmsg_fields _ _ _ _ _ _ _ Hb Hok) as (E0 & E4 & E6 & E8 & E12 & _).
  rewrite u32_small in E12 by done. rewrite (u32_small (u32 seq)) in E8 by apply u32_range. by split_and!.
Qed.

Lemma receive_link fuel buf nh rest mp c l :
  link_ok l → bytes_at buf nh (link_msg (u32 seq) pid l) → 0 ≤ rest →
  let len := Z.of_nat (length (link_msg (u32 seq) pid l)) in
  receive (S fuel) buf nh (len + rest) mp c = receive fuel buf (nh + len) rest true (report_step c l).
Proof.
  intros Hl Hb Hr len. pose proof (link_payload_ok l Hl) as Hok. cbn [recv_messages].
  assert (len = 16 + Z.of_nat (length (link_payload l))) as Elen by (subst len; apply length_nlmsg).
  rewrite (nlmsg_ok_encoded _ _ _ _ _ _ _ Hb Hok) by lia. cbn [mbind res_bind negb].
  destruct (message_head _ _ _ _ _ Hb Hok) as (-> & -> & -> & -> & ->). cbn [mbind res_bind].
  rewrite !Z.eqb_refl. cbn [negb]. rewrite (dump_link _ _ _ _ _ _ Hl Hb).
  rewrite (nlmsg_align _ Hok), <-Elen. replace (len + rest - len) with rest by lia.
  change (u16 RTM_NEWLINK =? NLMSG_ERROR) with false. change (u16 RTM_NEWLINK =? NLMSG_DONE) with false.
  change (Z.land (u16 NLM_F_MULTI) NLM_F_MULTI =? 0) with false. cbn [mbind res_bind negb Z.eqb]. by rewrite orb_true_r.
Qed.

Lemma receive_links ls : ∀ fuel buf nh rest mp c,
  Forall link_ok ls → bytes_at buf nh (link_msgs (u32 seq) pid ls) → 0 ≤ rest →
  let len := Z.of_nat (length (link_msgs (u32 seq) pid ls)) in
  receive (length ls + fuel) buf nh (len + rest) mp c =
    receive fuel buf (nh + len) rest (mp || negb (length ls =? 0)%nat) (foldl report_step c ls).
Proof.
  induction ls as [|l ls IH]; intros fuel buf nh rest mp c Hls Hb Hr; cbv zeta.
  - cbn [length link_msgs mbind list_bind Nat.eqb negb foldl]. rewrite orb_false_r.
    change (Z.of_nat 0) with 0. by rewrite !Z.add_0_r.
  - apply Forall_cons in Hls as [Hl Hls]. change (link_msgs (u32 seq) pid (l :: ls)) with
      (link_msg (u32 seq) pid l ++ link_msgs (u32 seq) pid ls) in Hb |- *.
    apply bytes_at_app in Hb as [Hb1 Hb2]. rewrite length_app, Nat2Z.inj_add, <-Z.add_assoc.
    cbn [length Nat.add Nat.eqb negb foldl]. rewrite receive_link by (done || lia).
    rewrite IH by done. by rewrite orb_true_r, Z.add_assoc.
Qed.

Lemma receive_end fuel buf nh mp c : receive fuel buf nh 0 mp c = Ok (None, mp, c).
Proof. by destruct fuel. Qed.

Lemma receive_done fuel buf nh mp c :
  bytes_at buf nh (done_msg (u32 seq) pid) → receive (S fuel) buf nh 20 mp c = Ok (Some 0, true, c).
Proof.
  intros Hb. assert (payload_ok (le32 0)) as Hok by done. cbn [recv_messages].
  rewrite (nlmsg_ok_encoded _ _ _ _ _ _ _ Hb Hok) by done. cbn [mbind res_bind negb].
  destruct (message_head _ _ _ _ _ Hb Hok) as (-> & -> & -> & -> & ->). cbn [mbind res_bind].
  rewrite !Z.eqb_refl. cbn [negb]. change (u16 NLMSG_DONE =? NLMSG_ERROR) with false.
  change (u16 NLMSG_DONE =? NLMSG_DONE) with true. cbn iota.
  change (Z.land (u16 NLM_F_MULTI) NLM_F_MULTI =? 0) with false. by rewrite orb_true_r.
Qed.
End datagram.

(** ** What rtnetlink answers *)

(** The three modes of a link in a report. *)
Definition some_id (id : Z) : option Z := if id =? 0 then None else Some id.
Definition kernel_report (s : Z → Z) : xdp_report :=
  let ids := filter (λ id, id ≠ 0) (s <$> [XDP_FLAGS_SKB_MODE; XDP_FLAGS_DRV_MODE; XDP_FLAGS_HW_MODE]) in
  Report (match ids with
          | [] => XDP_ATTACHED_NONE
          | [_] => if negb (s XDP_FLAGS_DRV_MODE =? 0) then 1 else if negb (s XDP_FLAGS_SKB_MODE =? 0) then 2 else 3
          | _ => XDP_ATTACHED_MULTI
          end)
    (match ids with [id] => Some id | _ => None end)
    (some_id (s XDP_FLAGS_DRV_MODE)) (some_id (s XDP_FLAGS_SKB_MODE)) (some_id (s XDP_FLAGS_HW_MODE)).
Definition no_program (s : Z → Z) : Prop :=
  s XDP_FLAGS_SKB_MODE = 0 ∧ s XDP_FLAGS_DRV_MODE = 0 ∧ s XDP_FLAGS_HW_MODE = 0.
Definition describes (s : Z → Z) (l : link) : Prop :=
  match l_report l with Some r => r = kernel_report s | None => no_program s end.

(** A dump: datagrams of links, the last one with the end. *)
Definition datagrams (seq pid : Z) (gs : list (list link)) (g : list link) : list (list Z) :=
  (link_msgs seq pid <$> gs) ++ [link_msgs seq pid g ++ done_msg seq pid].
Definition fits (d : list Z) : Prop := Z.of_nat (length d) ≤ 4096.
Definition dump_of (slot : Z → Z → Z) (seq pid : Z) (gs : list (list link)) (g : list link) : Prop :=
  let all := concat gs ++ g in
  Forall (λ l, l ≠ []) gs ∧ Forall link_ok all ∧ NoDup (l_index <$> all) ∧
  Forall (λ l, describes (slot (l_index l)) l) all ∧
  (∀ i, i ∉ l_index <$> all → no_program (slot i)) ∧
  Forall fits (datagrams seq pid gs g).

(** An acknowledgement: the error, the request or its header, and attributes. *)
Definition capped (flags : Z) : bool := negb (Z.land flags NLM_F_CAPPED =? 0).
Definition echo (flags : Z) (req : list Z) : list Z := if capped flags then take 16 req else req.
Definition ack_payload (err flags : Z) (req tlvs : list Z) : list Z :=
  le32 err ++ echo flags req ++ tlvs.
Definition ack_msg (err flags seq pid : Z) (req tlvs : list Z) : list Z :=
  nlmsg NLMSG_ERROR flags seq pid (ack_payload err flags req tlvs).
Definition tlvs_ok (tlvs : list Z) : Prop :=
  octets_ok tlvs ∧ Z.of_nat (length tlvs) mod 4 = 0 ∧ Z.of_nat (length tlvs) ≤ 1024.

Class RtnlLaws (K : Type) `{NetlinkOps K} := {
  (** the id of the program of a link in a mode, and of a descriptor *)
  nslot : K → Z → Z → Z;
  nprog : K → Z → Z;
  (** the open sockets and the datagrams that wait on them *)
  socks : K → gset Z;
  inbox : K → Z → list (list Z);
  dump_rounds : nat;
  quiet (k k' : K) : Prop := (∀ i m, nslot k' i m = nslot k i m) ∧ ∀ fd, nprog k' fd = nprog k fd;
  nslot_range k i m : 0 ≤ nslot k i m < 2 ^ 32;
  socket_law k : let '(s, k') := nl_socket k in
    quiet k k' ∧
    (if s <? 0 then socks k' = socks k else s ∉ socks k ∧ socks k' = {[s]} ∪ socks k ∧ inbox k' s = []);
  ext_ack_law s k : let '(_, k') := nl_ext_ack s k in
    quiet k k' ∧ socks k' = socks k ∧ inbox k' s = inbox k s;
  bind_law s k : let '(_, k') := nl_bind s k in
    quiet k k' ∧ socks k' = socks k ∧ inbox k' s = inbox k s;
  port_law s k : 0 ≤ (nl_getsockname s k).2 < 2 ^ 32;
  close_law s k : quiet k (nl_close s k) ∧ socks (nl_close s k) = socks k ∖ {[s]};
  recv_law s n k : let '(r, k') := nl_recv s n k in
    quiet k k' ∧ socks k' = socks k ∧
    match inbox k s with
    | d :: l => r = inr (take (Z.to_nat n) d) ∧ inbox k' s = l
    | [] => ∃ err, r = inl err ∧ err < 0
    end;
  (** RTM_SETLINK with an acknowledgement asked for *)
  set_law s req k i fd f seq : decode_request req = Ok (i, fd, f) → load32 req 8 = Ok seq →
    let '(r, k') := nl_send s req k in
    socks k' = socks k ∧
    if r <? 0 then quiet k k'
    else ∃ err flags tlvs,
      inbox k' s = inbox k s ++ [ack_msg err flags seq (nl_getsockname s k).2 req tlvs] ∧
      tlvs_ok tlvs ∧ 0 ≤ flags < 2 ^ 16 ∧ Z.land flags NLM_F_MULTI = 0 ∧ - MAX_ERRNO ≤ err ≤ 0 ∧
      (err ≠ 0 → quiet k k') ∧ (∀ d, nprog k' d = nprog k d) ∧ (∀ i' m, i' ≠ i → nslot k' i' m = nslot k i' m) ∧
      (err = 0 → nslot k' i (mode_of f) = if s32 fd <? 0 then 0 else nprog k (s32 fd)) ∧
      (0 ≤ s32 fd → Z.land f XDP_FLAGS_UPDATE_IF_NOEXIST ≠ 0 → nslot k i (mode_of f) ≠ 0 → err ≠ 0);
  (** RTM_GETLINK for a dump *)
  dump_law s k seq : 0 ≤ seq < 2 ^ 32 →
    let '(r, k') := nl_send s (dump_request RTM_GETLINK seq (ifinfomsg AF_PACKET)) k in
    quiet k k' ∧ socks k' = socks k ∧
    (0 ≤ r → ∃ gs g, inbox k' s = inbox k s ++ datagrams seq (nl_getsockname s k).2 gs g ∧
       (length gs ≤ dump_rounds)%nat ∧ dump_of (nslot k) seq (nl_getsockname s k).2 gs g)
}.

(** ** The acknowledgement *)

Lemma s32_u32 x : - 2 ^ 31 ≤ x < 2 ^ 31 → s32 (u32 x) = x.
Proof. intros Hx. rewrite <-(s32_small x Hx) at 2. unfold s32, u32. by rewrite Z.mod_mod. Qed.

Lemma le16_octets v : octets_ok (le16 v).
Proof. apply Forall_cons_2; [dlia|apply Forall_cons_2; [dlia|apply Forall_nil_2]]. Qed.
Lemma le32_octets v : octets_ok (le32 v).
Proof. apply Forall_app; split; apply le16_octets. Qed.
#[local] Hint Resolve le16_octets le32_octets : core.

Lemma ack_octets err flags pid req tlvs : octets_ok req → tlvs_ok tlvs → octets_ok (ack_msg err flags 1 pid req tlvs).
Proof.
  intros Hr [Ht _]. unfold ack_msg, nlmsg, ack_payload. repeat (apply Forall_app; split); try apply le32_octets; try apply le16_octets; [|done].
  unfold echo. destruct (capped flags); [by apply Forall_take|done].
Qed.

(** A request of a size rtnetlink takes, and its echo. *)
Definition request_size (req : list Z) : Prop := 16 ≤ Z.of_nat (length req) ≤ 96 ∧ Z.of_nat (length req) mod 4 = 0.

Lemma echo_length flags req :
  request_size req → Z.of_nat (length (echo flags req)) = if capped flags then 16 else Z.of_nat (length req).
Proof. intros [Hr _]. unfold echo. destruct (capped flags); [rewrite length_take; lia|done]. Qed.

Lemma echo_range flags req : request_size req → request_size (echo flags req).
Proof. intros Hr. unfold request_size. rewrite echo_length by done. by destruct (capped flags). Qed.

Lemma ack_payload_length err flags req tlvs :
  Z.of_nat (length (ack_payload err flags req tlvs)) = 4 + Z.of_nat (length (echo flags req)) + Z.of_nat (length tlvs).
Proof. unfold ack_payload. rewrite !length_app, length_le32. lia. Qed.

Lemma ack_length err flags pid req tlvs :
  Z.of_nat (length (ack_msg err flags 1 pid req tlvs)) = 20 + Z.of_nat (length (echo flags req)) + Z.of_nat (length tlvs).
Proof. unfold ack_msg. rewrite length_nlmsg, ack_payload_length. lia. Qed.

Section ack.
Context (err flags pid : Z) (req tail tlvs rest : list Z).
(** The request starts with its own length. *)
Hypothesis req_len : req = le32 (Z.of_nat (length req)) ++ tail.
Hypothesis req_size : request_size req.
Hypothesis tlvs_fit : tlvs_ok tlvs.
Hypothesis flags_ok : 0 ≤ flags < 2 ^ 16.
Hypothesis err_ok : - MAX_ERRNO ≤ err ≤ 0.
Hypothesis pid_ok : 0 ≤ pid < 2 ^ 32.

Abbreviation d := (ack_msg err flags 1 pid req tlvs).
Hypothesis octets : octets_ok (d ++ rest).
Hypothesis room : Z.of_nat (length d) + 21 ≤ Z.of_nat (length (d ++ rest)).

Lemma ack_payload_ok : payload_ok (ack_payload err flags req tlvs).
Proof.
  unfold payload_ok. rewrite ack_payload_length. destruct tlvs_fit as (_ & Hm & Hl). destruct (echo_range flags req req_size) as [Hr Hrm].
  split; [dlia|lia].
Qed.

Lemma ack_there : bytes_at (d ++ rest) 0 d.
Proof. by exists [], rest. Qed.

Lemma ack_errormsg_returns : ∃ x, libbpf_nla_dump_errormsg (d ++ rest) 0 = Ok x.
Proof.
  destruct (nlmsg_fields _ _ _ _ _ _ _ ack_there ack_payload_ok) as (E0 & _ & E6 & _ & _ & Hp).
  pose proof (ack_payload_length err flags req tlvs) as Hl. destruct (echo_range flags req req_size) as [He _]. destruct tlvs_fit as (_ & Hm & Ht).
  pose proof (ack_length err flags pid req tlvs) as Hdl. unfold libbpf_nla_dump_errormsg. rewrite E6. cbn [mbind res_bind].
  rewrite u16_small by done. destruct (Z.land flags NLM_F_ACK_TLVS =? 0); [by eexists|].
  assert ((if Z.land flags NLM_F_CAPPED =? 0 then nlmsg_payload (d ++ rest) (0 + 16 + 4) else Ok 0) =
          Ok (Z.of_nat (length (echo flags req)) - 16)) as ->.
  { pose proof (echo_length flags req req_size) as Hel. set (buf := d ++ rest) in *. unfold ack_payload in Hp.
    assert ((Z.land flags NLM_F_CAPPED =? 0) = negb (capped flags)) as -> by (unfold capped; by rewrite negb_involutive).
    unfold echo in Hp. destruct (capped flags); cbn [negb]; [f_equal; lia|].
    apply bytes_at_app in Hp as [_ Hp]. rewrite length_le32 in Hp. change (0 + 16 + Z.of_nat 4) with (0 + 16 + 4) in Hp.
    pose proof (f_equal (λ r, r ++ tlvs) req_len) as Hr. cbn beta in Hr.
    rewrite <-app_assoc in Hr. rewrite Hr in Hp. unfold nlmsg_payload. rewrite (load32_bytes _ _ _ _ Hp). cbn [mbind res_bind].
    rewrite u32_small by lia. rewrite s32_small by lia. f_equal. lia. }
  cbn [mbind res_bind]. rewrite E0. cbn [mbind res_bind]. rewrite s32_small by lia.
  set (head := 0 + 16 + _). set (alen := 16 + _ - _).
  destruct (nla_loop_safe (d ++ rest) NLMSGERR_ATTR_MAX (Some extack_policy) head (head + alen) (S (Z.to_nat alen))
    head alen (replicate (Z.to_nat (NLMSGERR_ATTR_MAX + 1)) None)) as (ret & tb & E & _ & Hw & _);
    [done|split; [done|by apply (bool_decide_unpack _)]|lia|lia|lia|lia|lia|lia|done|by apply index_within_empty|].
  unfold libbpf_nla_parse. rewrite E. cbn [mbind res_bind]. destruct (negb (ret =? 0)); [by eexists|].
  unfold tb_get. destruct (tb !! Z.to_nat NLMSGERR_ATTR_MSG) as [m|] eqn:El; [by eexists|].
  apply lookup_ge_None in El. unfold NLMSGERR_ATTR_MAX, NLMSGERR_ATTR_MSG in *. lia.
Qed.

Lemma receive_ack :
  Z.land flags NLM_F_MULTI = 0 →
  recv_messages (C := unit) pid 1 None (S (length d)) (d ++ rest) 0 (Z.of_nat (length d)) false tt =
    Ok (if err =? 0 then None else Some err, false, tt).
Proof.
  intros Hmulti. pose proof ack_payload_ok as Hok. pose proof ack_there as Hb. cbn [recv_messages].
  pose proof (length_nlmsg NLMSG_ERROR flags 1 pid (ack_payload err flags req tlvs)) as Hd.
  assert (Z.of_nat (length d) = 16 + Z.of_nat (length (ack_payload err flags req tlvs))) as Hd' by done.
  rewrite (nlmsg_ok_encoded _ _ _ _ _ _ _ Hb Hok) by lia. cbn [mbind res_bind negb].
  destruct (message_head 1 pid pid_ok _ _ _ _ _ Hb Hok) as (-> & -> & -> & -> & ->). cbn [mbind res_bind].
  rewrite !Z.eqb_refl, u16_small, Hmulti by done. cbn [negb orb Z.eqb].
  change (u16 NLMSG_ERROR =? NLMSG_ERROR) with true. cbn iota.
  destruct (nlmsg_fields _ _ _ _ _ _ _ Hb Hok) as (_ & _ & _ & _ & _ & Hp).
  pose proof (load32_bytes _ _ _ _ Hp) as Ee. unfold NLMSG_HDRLEN. rewrite Ee. cbn [mbind res_bind].
  rewrite s32_u32 by (unfold MAX_ERRNO in *; lia).
  destruct (err =? 0).
  - rewrite (nlmsg_align _ Hok), <-Hd', Z.sub_diag. by destruct (length d).
  - destruct ack_errormsg_returns as [x ->]. done.
Qed.
End ack.

Section hook.
Context {K : Type} `{RtnlLaws K}.

#[local] Instance quiet_preorder : PreOrder quiet.
Proof.
  split; [by split|]. intros k1 k2 k3 [H1 H2] [H3 H4]. split; intros; [by rewrite H3|by rewrite H4].
Qed.

(** ** The socket *)

Definition opened_at (k k' : K) (s p : Z) : Prop :=
  0 ≤ s ∧ s ∉ socks k ∧ socks k' = {[s]} ∪ socks k ∧ inbox k' s = [] ∧ (nl_getsockname s k').2 = p.

Lemma open_spec k :
  wp libbpf_netlink_open (λ r k', ∃ s p, r = Ok (s, p) ∧ quiet k k' ∧
    ((s < 0 ∧ socks k' = socks k) ∨ opened_at k k' s p)) k.
Proof.
  unfold libbpf_netlink_open. wp_step. apply wp_call. intros s k1 E1. pose proof (socket_law k) as Hs.
  rewrite E1 in Hs. destruct Hs as [Hq1 Hs]. destruct (Z.ltb_spec s 0) as [Hneg|Hpos].
  { apply wp_ret. do 2 eexists. split; [done|]. split; [done|]. by left. }
  destruct Hs as (Hfresh & Hsk & Hin). wp_step. apply wp_call. intros a k2 E2. pose proof (ext_ack_law s k1) as Ha.
  rewrite E2 in Ha. destruct Ha as (Hq2 & Hk2 & Hi2). wp_step. apply wp_call. intros err k3 E3.
  pose proof (bind_law s k2) as Hb. rewrite E3 in Hb. destruct Hb as (Hq3 & Hk3 & Hi3).
  assert (quiet k k3) as Hq by (do 2 (etrans; [eassumption|]); eassumption).
  assert (socks k3 = {[s]} ∪ socks k) as Hsk3 by (by rewrite Hk3, Hk2, Hsk).
  assert (∀ v, v < 0 → wp (_ ← run (nl_close s); mret (v, 0)) (λ r k', ∃ s0 p, r = Ok (s0, p) ∧ quiet k k' ∧
    ((s0 < 0 ∧ socks k' = socks k) ∨ opened_at k k' s0 p)) k3) as Hclose.
  { intros v Hv. wp_step. wp_step. wp_step. destruct (close_law s k3) as [Hqc Hsc]. do 2 eexists. split; [done|].
    split; [by etrans|]. left. split; [done|]. rewrite Hsc, Hsk3. set_solver. }
  destruct (Z.ltb_spec err 0); [by apply Hclose|]. wp_step. wp_step.
  destruct (nl_getsockname s k3) as [[e al] p] eqn:Ep. cbn beta iota.
  destruct (Z.ltb_spec e 0); [by apply Hclose|]. destruct (negb (al =? 12)); [by apply Hclose|].
  wp_step. do 2 eexists. split; [done|]. split; [done|]. right. split_and!; try done; [by rewrite Hi3, Hi2|by rewrite Ep].
Qed.
(** ** The dump *)

Lemma link_msgs_length seq pid ls : Forall link_ok ls → (length ls * 32 ≤ length (link_msgs seq pid ls))%nat.
Proof.
  induction 1 as [|l ls Hl Hls IH]; [cbn; lia|]. change (link_msgs seq pid (l :: ls)) with (link_msg seq pid l ++ link_msgs seq pid ls).
  rewrite length_app. cbn [length]. pose proof (length_nlmsg RTM_NEWLINK NLM_F_MULTI seq pid (link_payload l)) as E.
  rewrite (link_payload_length l Hl) in E. unfold link_msg. lia.
Qed.

(** One datagram received. *)
Lemma recv_spec s k d l (Q : res (Z + list Z) → K → Prop) :
  inbox k s = d :: l → fits d →
  (∀ k', quiet k k' → socks k' = socks k → inbox k' s = l → Q (Ok (inr d)) k') →
  wp (call (nl_recv s 4096)) Q k.
Proof.
  intros Hi Hf Hd. apply wp_call. intros r k' E. pose proof (recv_law s 4096 k) as Hr. rewrite E, Hi in Hr.
  destruct Hr as (Hq & Hs & -> & Hl). rewrite take_ge; [by apply Hd|].
  unfold fits in Hf. apply Nat2Z.inj_le. rewrite Z2Nat.id by done. done.
Qed.

Section dump.
Context (seq pid : Z) (Hseq : - 2 ^ 31 ≤ seq < 2 ^ 31) (Hpid : 0 ≤ pid < 2 ^ 32) (s : Z).

Definition dumped (k : K) (c : xdp_id_md) (ls : list link) (r : res (Z * xdp_id_md)) (k' : K) : Prop :=
  r = Ok (0, foldl report_step c ls) ∧ quiet k k' ∧ socks k' = socks k.

Abbreviation receive_dump := (bpf_netlink_recv pid seq (Some (dump_link_nlmsg get_xdp_info))).

Lemma bytes_at_front l buf : bytes_at (l ++ buf) 0 l.
Proof. by exists [], buf. Qed.

(** A datagram in the middle, and the last one. *)
Lemma receive_middle buf c ls :
  Forall link_ok ls → ls ≠ [] →
  let d := link_msgs (u32 seq) pid ls in
  recv_messages pid seq (Some (dump_link_nlmsg get_xdp_info)) (S (length d)) (d ++ buf) 0 (Z.of_nat (length d)) false c =
    Ok (None, true, foldl report_step c ls).
Proof.
  intros Hls Hne d. pose proof (link_msgs_length (u32 seq) pid ls Hls) as Hl.
  replace (S (length d)) with (length ls + (S (length d) - length ls))%nat by (subst d; lia).
  pose proof (receive_links seq pid Hpid ls (S (length d) - length ls) (d ++ buf) 0 0 false c Hls
    (bytes_at_front _ _) ltac:(done)) as E. cbv zeta in E. fold d in E. rewrite Z.add_0_r in E. rewrite E.
  rewrite receive_end. destruct ls; [done|]. done.
Qed.

Lemma receive_last buf c ls :
  Forall link_ok ls →
  let d := link_msgs (u32 seq) pid ls ++ done_msg (u32 seq) pid in
  recv_messages pid seq (Some (dump_link_nlmsg get_xdp_info)) (S (length d)) (d ++ buf) 0 (Z.of_nat (length d)) false c =
    Ok (Some 0, true, foldl report_step c ls).
Proof.
  intros Hls d. pose proof (link_msgs_length (u32 seq) pid ls Hls) as Hl.
  assert (length d = (length (link_msgs (u32 seq) pid ls) + 20)%nat) as Hd by (subst d; rewrite length_app; done).
  replace (S (length d)) with (length ls + S (length d - length ls))%nat by lia.
  pose proof (bytes_at_front d buf) as Hb. unfold d in Hb at 2. apply bytes_at_app in Hb as [Hb1 Hb2].
  pose proof (receive_links seq pid Hpid ls (S (length d - length ls)) (d ++ buf) 0 20 false c Hls Hb1 ltac:(done)) as E.
  cbv zeta in E. replace (Z.of_nat (length d)) with (Z.of_nat (length (link_msgs (u32 seq) pid ls)) + 20) by lia.
  rewrite E. by apply receive_done.
Qed.

Lemma receive_dump_spec gs g : ∀ rounds buf k c,
  (length gs ≤ rounds)%nat → Forall (λ l, l ≠ []) gs → Forall link_ok (concat gs ++ g) →
  Forall fits (datagrams (u32 seq) pid gs g) → inbox k s = datagrams (u32 seq) pid gs g →
  wp (receive_dump rounds s buf c) (dumped k c (concat gs ++ g)) k.
Proof.
  induction gs as [|ls gs IH]; intros rounds buf k c Hr Hne Hok Hf Hi.
  - apply Forall_cons in Hf as [Hf _].
    destruct rounds; cbn [bpf_netlink_recv]; apply wp_bind; (eapply recv_spec; [exact Hi|exact Hf|]); intros k' Hq Hs Hi';
      (rewrite (proj2 (Nat.eqb_neq _ _)) by (rewrite length_app; change (length (done_msg (u32 seq) pid)) with 20%nat; lia));
      wp_step; wp_step; rewrite receive_last by done; apply wp_ret; (split; [done|]; by split).
  - destruct rounds as [|rounds]; [cbn in Hr; lia|]. cbn [bpf_netlink_recv]. apply wp_bind.
    apply Forall_cons in Hf as [Hf1 Hf]. eapply recv_spec; [exact Hi|exact Hf1|]. intros k' Hq Hs Hi'.
    apply Forall_cons in Hne as [Hls Hne]. cbn [concat] in Hok |- *. rewrite <-app_assoc in Hok |- *.
    apply Forall_app in Hok as [Hok1 Hok2].
    pose proof (link_msgs_length (u32 seq) pid ls Hok1) as Hl.
    rewrite (proj2 (Nat.eqb_neq _ _)) by (destruct ls; [done|]; cbn [length] in Hl; lia).
    wp_step. wp_step. rewrite receive_middle by done. cbn [negb].
    eapply wp_mono; [apply (IH rounds _ k' (foldl report_step c ls)); [cbn in Hr; lia|exact Hne|exact Hok2|exact Hf|exact Hi']|].
    intros r k2 (-> & Hq2 & Hs2). unfold dumped. rewrite !foldl_app. split; [done|].
    split; [by etrans|]. by rewrite Hs2.
Qed.
End dump.
(** ** Setting a program *)

Lemma fd_sign fd : fd_arg fd → (fd <? 0) = (fd =? -1).
Proof. unfold fd_arg. lia. Qed.

Lemma closed_again (s : Z) (X : gset Z) : s ∉ X → ({[s]} ∪ X) ∖ {[s]} = X.
Proof. set_solver. Qed.

Context (rounds : nat) (garbage : buffer).
Hypothesis garbage_size : length garbage = Z.to_nat 4096.
Hypothesis garbage_octets : octets_ok garbage.
Hypothesis enough : (dump_rounds ≤ rounds)%nat.

(** What a call did to the hook, as its result tells. *)
Definition set_done (i fd f : Z) (k : K) (v : Z) (k' : K) : Prop :=
  (∀ d, nprog k' d = nprog k d) ∧ (∀ i' m, i' ≠ i → nslot k' i' m = nslot k i' m) ∧
  ((v < 0 ∧ quiet k k') ∨
   (v = 0 ∧ nslot k' i (mode_of f) = (if fd =? -1 then 0 else nprog k fd) ∧
    (0 ≤ fd → Z.land f XDP_FLAGS_UPDATE_IF_NOEXIST ≠ 0 → nslot k i (mode_of f) = 0))).

Lemma set_done_quiet i fd f k v k' : v < 0 → quiet k k' → set_done i fd f k v k'.
Proof. intros Hv [H1 H2]. split; [done|]. split; [by intros i' m _|]. left. done. Qed.

Lemma set_done_trans i fd f k1 k2 k3 k4 v :
  quiet k1 k2 → set_done i fd f k2 v k3 → quiet k3 k4 → set_done i fd f k1 v k4.
Proof.
  intros [H1 H2] (Hp & He & Hv) [H3 H4]. split; [intros d; by rewrite H4, Hp, H2|].
  split; [intros i' m Hi; by rewrite H3, He, H1|]. destruct Hv as [[Hv [H5 H6]]|(-> & Hs & Hn)].
  - left. split; [done|]. split; intros; [by rewrite H3, H5|by rewrite H4, H6].
  - right. split; [done|]. split; [by rewrite H3, Hs, H2|]. by rewrite <-H1.
Qed.

(** The request that is sent. *)
Definition request (i fd f : Z) : buffer :=
  let body := encode_attrs (request_attrs fd f) in request_head i (32 + Z.of_nat (length body)) ++ body.

Lemma request_sent i fd f :
  ∃ req len, link_request i fd f = Ok (req, len) ∧ take (Z.to_nat len) req = request i fd f.
Proof.
  eexists _, _. split; [apply link_request_bytes|]. pose proof (request_length fd f).
  rewrite app_assoc, take_app_length' by (rewrite length_app; change (length (request_head _ _)) with 32%nat; lia). done.
Qed.

Lemma request_length_eq i fd f :
  Z.of_nat (length (request i fd f)) = 32 + Z.of_nat (length (encode_attrs (request_attrs fd f))).
Proof. unfold request. rewrite length_app. change (length (request_head _ _)) with 32%nat. lia. Qed.

Lemma request_starts i fd f :
  request i fd f = le32 (Z.of_nat (length (request i fd f))) ++ drop 4 (request i fd f).
Proof. rewrite request_length_eq. done. Qed.

Lemma request_octets i fd f : octets_ok (request i fd f).
Proof.
  assert (∀ n, octets_ok (replicate n 0)) as Hz by (intros n; apply Forall_replicate; lia).
  assert (∀ t d, octets_ok d → octets_ok (encode_attr (Attr t d))) as Ha.
  { intros t d Hd. unfold encode_attr. repeat (apply Forall_app; split); [apply le16_octets|apply le16_octets|exact Hd|apply Hz]. }
  assert (∀ l, Forall (λ a, octets_ok (a_data a)) l → octets_ok (encode_attrs l)) as Hl.
  { induction 1 as [|[t d] l Hd Hl IH]; [apply Forall_nil_2|]. apply Forall_app. split; [by apply Ha|done]. }
  unfold request, request_head, request_attrs. apply Forall_app. split.
  { repeat (apply Forall_app; split); try apply le16_octets; try apply (Hz 4%nat); apply (Hz 8%nat). }
  apply Hl, Forall_singleton. cbn [a_data]. apply Hl.
  apply Forall_cons_2; [apply le32_octets|]. destruct (f =? 0); [apply Forall_nil_2|].
  apply Forall_cons_2; [apply le32_octets|apply Forall_nil_2].
Qed.

Lemma request_decodes i fd f :
  0 ≤ f < 2 ^ 32 → decode_request (request i fd f) = Ok (u32 i, u32 fd, f) ∧ load32 (request i fd f) 8 = Ok 1.
Proof.
  intros Hf. split; [by apply decode_request_of|].
  assert (∃ post, request i fd f =
    (le32 (32 + Z.of_nat (length (encode_attrs (request_attrs fd f)))) ++ le16 RTM_SETLINK ++ le16 5) ++ le32 1 ++ post) as [post E]
    by (by eexists).
  assert (bytes_at (request i fd f) 8 (le32 1 ++ post)) as Hb by (rewrite E; eexists _, []; by rewrite app_nil_r).
  apply load32_bytes in Hb. exact Hb.
Qed.

(** The acknowledgement of a request, received. *)
Lemma recv_ack s k err flags pid req tail tlvs :
  inbox k s = [ack_msg err flags 1 pid req tlvs] → req = le32 (Z.of_nat (length req)) ++ tail →
  request_size req → octets_ok req →
  tlvs_ok tlvs → 0 ≤ flags < 2 ^ 16 → Z.land flags NLM_F_MULTI = 0 → - MAX_ERRNO ≤ err ≤ 0 → 0 ≤ pid < 2 ^ 32 →
  wp (bpf_netlink_recv pid 1 None rounds s garbage tt)
     (λ r k', r = Ok (err, tt) ∧ quiet k k' ∧ socks k' = socks k) k.
Proof.
  intros Hi Hreq Hl Ho Ht Hf Hmulti He Hp. set (d := ack_msg err flags 1 pid req tlvs) in *.
  pose proof (ack_length err flags pid req tlvs) as Hd. fold d in Hd.
  pose proof (echo_range flags req Hl) as [Hr _]. pose proof Ht as (Hto & _ & Htl).
  assert (fits d) as Hfit by (unfold fits; lia).
  assert (∀ (Q : res (Z + list Z) → K → Prop), (∀ k', quiet k k' → socks k' = socks k → Q (Ok (inr d)) k') →
    wp (call (nl_recv s 4096)) Q k) as Hrecv.
  { intros Q HQ. eapply recv_spec; [exact Hi|exact Hfit|]. intros k' Hq Hs _. by apply HQ. }
  assert (recv_messages (C := unit) pid 1 None (S (length d)) (d ++ drop (length d) garbage) 0 (Z.of_nat (length d)) false tt =
    Ok (if err =? 0 then None else Some err, false, tt)) as E.
  { eapply receive_ack; try done.
    - apply Forall_app. split; [by apply ack_octets|by apply Forall_drop].
    - fold d. rewrite length_app, length_drop, garbage_size. lia. }
  destruct rounds; cbn [bpf_netlink_recv]; apply wp_bind, Hrecv; intros k' Hq Hs;
    (rewrite (proj2 (Nat.eqb_neq _ _)) by lia); wp_step; wp_step; rewrite E;
    (destruct (Z.eqb_spec err 0) as [->|]; cbn [negb]; apply wp_ret; split; [done|by split|done|by split]).
Qed.

Lemma set_spec i fd f k :
  link_args i f → fd_arg fd →
  wp (Netlink.bpf_set_link_xdp_fd rounds garbage i fd f)
     (λ r k', ∃ v, r = Ok v ∧ v ≤ 0 ∧ socks k' = socks k ∧ set_done i fd f k v k') k.
Proof.
  intros [Hi Hf] Hfd. unfold Netlink.bpf_set_link_xdp_fd. apply wp_bind. eapply wp_mono; [apply open_spec|].
  intros r k1 (s & p & -> & Hq1 & Ho). destruct (Z.ltb_spec s 0) as [Hneg|Hpos].
  { apply wp_ret. destruct Ho as [[_ Hs]|(? & _)]; [|lia]. exists s. split; [done|]. split; [lia|]. split; [done|].
    by apply set_done_quiet. }
  destruct Ho as [[? _]|(_ & Hfresh & Hsk & Hin & Hport)]; [lia|].
  destruct (request_sent i fd f) as (req & len & Er & Et). wp_step. wp_step. rewrite Er, Et.
  destruct (request_decodes i fd f Hf) as [Hdec Hseq]. wp_step. apply wp_call. intros sent k2 Es.
  pose proof (set_law s (request i fd f) k1 _ _ _ _ Hdec Hseq) as Hl. rewrite Es, u32_small in Hl by lia. destruct Hl as [Hsk2 Hl].
  pose proof (port_law s k1) as Hpr. rewrite Hport in Hl, Hpr.
  assert (∀ v k3, v ≤ 0 → socks k3 = socks k2 → set_done i fd f k v k3 →
    wp (_ ← run (nl_close s); mret v) (λ r k', ∃ v, r = Ok v ∧ v ≤ 0 ∧ socks k' = socks k ∧ set_done i fd f k v k') k3) as Hclose.
  { intros v k3 Hv Hs3 Hd. wp_step. wp_step. wp_step. destruct (close_law s k3) as [Hqc Hsc]. exists v.
    split; [done|]. split; [done|]. split; [by rewrite Hsc, Hs3, Hsk2, Hsk, closed_again|].
    eapply set_done_trans; [|exact Hd|exact Hqc]. reflexivity. }
  apply wp_bind. destruct (Z.ltb_spec sent 0) as [Hsn|Hsn].
  { apply wp_ret. apply Hclose; [lia|done|]. apply set_done_quiet; [done|]. by etrans. }
  destruct Hl as (err & flags & tlvs & Hin2 & Ht & Hfl & Hmu & He & Hfail & Hpg & Hel & Hok & Hne).
  rewrite Hin in Hin2. cbn [app] in Hin2. pose proof (request_length_eq i fd f) as Hrl.
  pose proof (request_length fd f) as Hrr. pose proof (encode_attrs_aligned (request_attrs fd f)) as Hal.
  wp_step. eapply wp_mono.
  { eapply (recv_ack s k2 err flags p); [exact Hin2|apply request_starts|split; [lia|rewrite Hrl; dlia]|apply request_octets|done..]. }
  intros r k3 (-> & Hq3 & Hs3). wp_step. apply Hclose; [lia|done|].
  eapply (set_done_trans i fd f k k1 k2 k3); [done| |done]. split; [done|]. split; [done|].
  destruct (decide (err = 0)) as [->|Hnz]; [right|left; split; [lia|by apply Hfail]].
  rewrite s32_u32 in Hok, Hne by (unfold fd_arg in Hfd; lia). split; [done|]. split.
  - by rewrite Hok, fd_sign.
  - intros H1 H2. destruct (decide (nslot k1 i (mode_of f) = 0)) as [|Hs]; [done|]. by destruct (Hne H1 H2 Hs).
Qed.
(** ** The program of an interface *)

Lemma report_step_other i f inf l :
  i ≠ 0 → l_index l ≠ i → report_step (IdMd i f inf) l = IdMd i f inf.
Proof.
  intros Hi Hl. unfold report_step. cbn [md_ifindex]. rewrite (proj2 (Z.eqb_neq i 0)), (proj2 (Z.eqb_neq i _)) by congruence.
  done.
Qed.

Lemma report_steps_other i f inf ls :
  i ≠ 0 → i ∉ l_index <$> ls → foldl report_step (IdMd i f inf) ls = IdMd i f inf.
Proof.
  intros Hi. induction ls as [|l ls IH]; [done|]. cbn [fmap list_fmap foldl]. rewrite not_elem_of_cons. intros [Hl Hls].
  rewrite report_step_other by congruence. by apply IH.
Qed.

(** The reports of a dump about an interface are those of its link. *)
Lemma report_steps_link i f ls l :
  i ≠ 0 → NoDup (l_index <$> ls) → l ∈ ls → l_index l = i →
  foldl report_step (IdMd i f no_info) ls =
    IdMd i f (match l_report l with Some r => merge_report r no_info | None => no_info end).
Proof.
  intros Hi Hnd Hin Hl. apply list_elem_of_split in Hin as (l1 & l2 & ->).
  rewrite fmap_app, fmap_cons in Hnd. apply NoDup_app in Hnd as (_ & Hd & Hnd).
  apply NoDup_cons in Hnd as [Hn2 _]. rewrite Hl in Hn2.
  assert (i ∉ l_index <$> l1) as Hn1.
  { intros Hx. apply (Hd i Hx). rewrite Hl. by left. }
  rewrite foldl_app, report_steps_other by done. cbn [foldl].
  assert (report_step (IdMd i f no_info) l =
    IdMd i f (match l_report l with Some r => merge_report r no_info | None => no_info end)) as ->.
  { unfold report_step. cbn [md_ifindex]. rewrite Hl, Z.eqb_refl, andb_false_r. by destruct (l_report l). }
  by apply report_steps_other.
Qed.

(** The modes that are accepted: none or one. *)
Lemma one_mode f :
  let m := mode_of f in
  negb (m =? 0) && negb (Z.land m (u32 (m - 1)) =? 0) = false →
  m ∈ [0; XDP_FLAGS_SKB_MODE; XDP_FLAGS_DRV_MODE; XDP_FLAGS_HW_MODE].
Proof.
  cbv zeta. assert (0 ≤ mode_of f < 2 ^ 4) as Hr by (by apply land_below).
  assert (mode_of f = Z.land (mode_of f) XDP_FLAGS_MODES) as He by (unfold mode_of; by rewrite <-Z.land_assoc).
  revert Hr He. generalize (mode_of f). intros m Hr He Hc.
  assert (m ∈ seqZ 0 16) as Hm by (apply elem_of_seqZ; lia).
  change (seqZ 0 16) with [0;1;2;3;4;5;6;7;8;9;10;11;12;13;14;15] in Hm.
  repeat (apply elem_of_cons in Hm as [->|Hm];
    [first [discriminate He|discriminate Hc|apply (bool_decide_unpack _); reflexivity]|]). by apply elem_of_nil in Hm.
Qed.

Lemma flag_of_mode f x : Z.land XDP_FLAGS_MODES x = x → Z.land f x = Z.land (mode_of f) x.
Proof. intros Hx. unfold mode_of. by rewrite <-Z.land_assoc, Hx. Qed.

(** The id of what the kernel reports, by the mode. *)
Lemma reported_id s f :
  mode_of f ∈ [0; XDP_FLAGS_SKB_MODE; XDP_FLAGS_DRV_MODE; XDP_FLAGS_HW_MODE] →
  get_xdp_id (merge_report (kernel_report s) no_info) f = reported s (mode_of f).
Proof.
  intros Hm. unfold get_xdp_id. rewrite !(flag_of_mode f) by reflexivity.
  revert Hm. generalize (mode_of f). intros m Hm.
  unfold merge_report, kernel_report, reported, some_id. cbn [fmap list_fmap r_mode r_prog r_drv r_skb r_hw].
  rewrite !filter_cons, filter_nil.
  destruct (Z.eqb_spec (s XDP_FLAGS_SKB_MODE) 0) as [Ea|Ea], (Z.eqb_spec (s XDP_FLAGS_DRV_MODE) 0) as [Eb|Eb],
    (Z.eqb_spec (s XDP_FLAGS_HW_MODE) 0) as [Ec|Ec];
    repeat first [rewrite decide_True by done|rewrite decide_False by naive_solver];
    cbv [XDP_FLAGS_SKB_MODE XDP_FLAGS_DRV_MODE XDP_FLAGS_HW_MODE XDP_ATTACHED_NONE XDP_ATTACHED_MULTI no_info] in *; cbn;
    try reflexivity; do 4 (apply elem_of_cons in Hm as [->|Hm]; [vm_compute; congruence|]); by apply elem_of_nil in Hm.
Qed.

Lemma reported_nothing s m : no_program s → m ∈ [0; XDP_FLAGS_SKB_MODE; XDP_FLAGS_DRV_MODE; XDP_FLAGS_HW_MODE] → reported s m = 0.
Proof. intros (Ha & Hb & Hc) Hm. unfold reported. cbn [fmap list_fmap]. by rewrite Ha, Hb, Hc. Qed.
Lemma kernel_report_ok k i : report_ok (kernel_report (nslot k i)) ∧ 0 ≤ r_mode (kernel_report (nslot k i)) < 256.
Proof.
  assert (∀ m, id_ok (some_id (nslot k i m))) as Hid.
  { intros m. unfold some_id. destruct (_ =? 0); [done|]. apply nslot_range. }
  unfold kernel_report, report_ok. cbn [r_prog r_drv r_skb r_hw r_mode]. cbn [fmap list_fmap]. rewrite !filter_cons, filter_nil.
  split; [split_and!; [|apply Hid..]|]; repeat case_decide; try done; try apply nslot_range; repeat case_match; done.
Qed.

(** The info that [bpf_get_link_xdp_info] copies. *)
Definition info_ok (i : xdp_link_info) : Prop :=
  0 ≤ Netlink.prog_id i < 2 ^ 32 ∧ 0 ≤ drv_prog_id i < 2 ^ 32 ∧ 0 ≤ hw_prog_id i < 2 ^ 32 ∧ 0 ≤ skb_prog_id i < 2 ^ 32.

Lemma info_round_trip i : info_ok i → info_of_bytes (info_bytes i) = Ok i.
Proof.
  intros (H1 & H2 & H3 & H4). assert (bytes_at (info_bytes i) 0 (info_bytes i)) as Hb.
  { exists [], []. by rewrite app_nil_r. }
  unfold info_bytes in Hb. unfold info_of_bytes.
  assert (∀ p v l, bytes_at (info_bytes i) p (le32 v ++ l) →
    load32 (info_bytes i) p = Ok (u32 v) ∧ bytes_at (info_bytes i) (p + 4) l) as Hstep.
  { intros p v l Hl. split; [by eapply load32_bytes|]. apply bytes_at_app in Hl as [_ Hl]. by rewrite length_le32 in Hl. }
  fold (info_bytes i) in Hb. unfold info_bytes in Hb at 2.
  apply Hstep in Hb as [-> Hb]. change (0 + 4) with 4 in Hb. apply Hstep in Hb as [-> Hb]. change (4 + 4) with 8 in Hb.
  apply Hstep in Hb as [-> Hb]. change (8 + 4) with 12 in Hb. apply Hstep in Hb as [-> Hb]. change (12 + 4) with 16 in Hb.
  apply byte_at_bytes in Hb. cbn [mbind res_bind]. rewrite Hb. cbn [mbind res_bind].
  rewrite !u32_small by done. by destruct i.
Qed.

Lemma merge_info_ok r : report_ok r → info_ok (merge_report r no_info).
Proof.
  intros (H1 & H2 & H3 & H4). unfold merge_report, info_ok.
  destruct (r_mode r =? XDP_ATTACHED_NONE); cbn [Netlink.prog_id drv_prog_id hw_prog_id skb_prog_id]; [done|].
  destruct (r_prog r), (r_drv r), (r_skb r), (r_hw r); done.
Qed.

(** The outcome of a dump, for the interface asked for. *)
Lemma dump_reports k seq pid gs g i f :
  0 < i → mode_of f ∈ [0; XDP_FLAGS_SKB_MODE; XDP_FLAGS_DRV_MODE; XDP_FLAGS_HW_MODE] →
  dump_of (nslot k) seq pid gs g →
  ∃ info, foldl report_step (IdMd i (mode_of f) no_info) (concat gs ++ g) = IdMd i (mode_of f) info ∧
    info_ok info ∧ get_xdp_id info f = reported (nslot k i) (mode_of f).
Proof.
  intros Hi Hm (_ & Hok & Hnd & Hd & Hout & _). set (ls := concat gs ++ g) in *.
  destruct (decide (i ∈ l_index <$> ls)) as [Hin|Hin].
  - apply list_elem_of_fmap in Hin as (l & El & Hin). pose proof Hin as Hin'.
    rewrite (report_steps_link i _ ls l) by (done || lia). eexists. split; [done|].
    pose proof (proj1 (Forall_forall _ _) Hd l Hin) as Hdl. unfold describes in Hdl. rewrite <-El in Hdl.
    destruct (l_report l) as [r|].
    + subst r. split; [apply merge_info_ok, kernel_report_ok|by apply reported_id].
    + split; [done|]. rewrite reported_nothing by done. done.
  - rewrite report_steps_other by (done || lia). exists no_info. split; [done|]. split; [done|].
    rewrite reported_nothing by (done || by apply Hout). done.
Qed.

Lemma get_spec i f k :
  link_args i f →
  wp (Netlink.bpf_get_link_xdp_id rounds garbage i f)
     (λ r k', ∃ e id, r = Ok (e, id) ∧ quiet k k' ∧ socks k' = socks k ∧
        (if e =? 0 then id = Some (reported (nslot k i) (mode_of f)) else id = None)) k.
Proof.
  intros [Hi Hf]. unfold Netlink.bpf_get_link_xdp_id. apply wp_bind. unfold bpf_get_link_xdp_info.
  assert (∀ e k', e < 0 → quiet k k' → socks k' = socks k →
    wp (mret (e, None) : io K (Z * option (list Z))) (λ r k', match r with
      | Ok (ret, info) => wp (match info with
          | Some b => info ← pure_res (info_of_bytes b); mret (ret, Some (get_xdp_id info f))
          | None => mret (ret, None) end) (λ r k', ∃ e id, r = Ok (e, id) ∧ quiet k k' ∧ socks k' = socks k ∧
        (if e =? 0 then id = Some (reported (nslot k i) (mode_of f)) else id = None)) k'
      | Err err => ∃ e id, Err err = Ok (e, id) ∧ quiet k k' ∧ socks k' = socks k ∧
        (if e =? 0 then id = Some (reported (nslot k i) (mode_of f)) else id = None) end) k') as Hfail.
  { intros e k' He Hq Hs. apply wp_ret. apply wp_ret. exists e, None. rewrite (proj2 (Z.eqb_neq e 0)) by lia. done. }
  destruct (negb (Z.land f (u32 (Z.lnot XDP_FLAGS_MASK)) =? 0) || (20 =? 0)); [by apply Hfail|].
  fold (mode_of f). destruct (negb (mode_of f =? 0) && negb (Z.land (mode_of f) (u32 (mode_of f - 1)) =? 0)) eqn:Em;
    [by apply Hfail|]. apply one_mode in Em.
  apply wp_bind. eapply wp_mono; [apply open_spec|]. intros r k1 (s & p & -> & Hq1 & Ho).
  destruct (Z.ltb_spec s 0) as [Hneg|Hpos].
  { destruct Ho as [[_ Hs]|(? & _)]; [|lia]. by apply Hfail. }
  destruct Ho as [[? _]|(_ & Hfresh & Hsk & Hin & Hport)]; [lia|].
  apply wp_bind. unfold libbpf_nl_get_link, nl_get. wp_step. wp_step. wp_step. apply wp_call. intros sent k2 Es.
  pose proof (dump_law s k1 (u32 (s32 (nl_time k1))) (u32_range _)) as Hl. rewrite Es, Hport, Hin in Hl.
  pose proof (port_law s k1) as Hpr. rewrite Hport in Hpr.
  destruct Hl as (Hq2 & Hsk2 & Hl). destruct (Z.ltb_spec sent 0) as [Hsn|Hsn].
  { apply wp_ret. wp_step. wp_step. destruct (close_law s k2) as [Hqc Hsc].
    rewrite (proj2 (Z.eqb_neq sent 0)) by lia. apply Hfail; [done| |by rewrite Hsc, Hsk2, Hsk, closed_again].
    etrans; [exact Hq1|]. by etrans. }
  destruct (Hl Hsn) as (gs & g & Hi2 & Hlen & Hdump). cbn [app] in Hi2. pose proof Hdump as (Hne & Hok & _ & _ & _ & Hfit).
  eapply wp_mono; [eapply (receive_dump_spec (s32 (nl_time k1)) p Hpr s gs g); [lia|exact Hne|exact Hok|exact Hfit|exact Hi2]|].
  intros r k3 (-> & Hq3 & Hs3). destruct (close_law s k3) as [Hqc Hsc].
  destruct (dump_reports k1 _ _ gs g i f ltac:(lia) Em Hdump) as (info & -> & Hio & Hid).
  wp_step. wp_step. cbn [Z.eqb md_info]. wp_step.
  change (Z.to_nat (Z.min 20 20)) with 20%nat. change (Z.to_nat (20 - Z.min 20 20)) with 0%nat.
  rewrite take_ge, app_nil_r by done. wp_step. wp_step. rewrite info_round_trip by done. wp_step.
  exists 0. eexists. split; [done|]. split.
  { etrans; [exact Hq1|]. etrans; [exact Hq2|]. by etrans. }
  split; [by rewrite Hsc, Hs3, Hsk2, Hsk, closed_again|]. cbn [Z.eqb]. rewrite Hid. f_equal. unfold reported.
  cbn [fmap list_fmap]. destruct Hq1 as [Hq1 _]. by rewrite !Hq1.
Qed.
(** C27: netlink.c implements the hook.  Against a kernel that answers as rtnetlink
    documents, [bpf_set_link_xdp_fd] and [bpf_get_link_xdp_id] return on every
    path, the failures of the socket calls included, without reading past the
    buffer, and close the socket they opened.  Setting returns 0 when the program is set and the
    kernel's negative error when nothing changed; asking returns 0 with the id the kernel
    reports of the interface, found among the links of a dump of any number of
    datagrams, and changes nothing. *)
Theorem rtnetlink_implements_the_hook i fd f k :
  link_args i f → fd_arg fd →
  (∃ v k', Netlink.bpf_set_link_xdp_fd rounds garbage i fd f k = (Ok v, k') ∧
     v ≤ 0 ∧ socks k' = socks k ∧ set_done i fd f k v k') ∧
  (∃ e id k', Netlink.bpf_get_link_xdp_id rounds garbage i f k = (Ok (e, id), k') ∧
     quiet k k' ∧ socks k' = socks k ∧
     (if e =? 0 then id = Some (reported (nslot k i) (mode_of f)) else id = None)).
Proof.
  intros Ha Hfd. split.
  - pose proof (set_spec i fd f k Ha Hfd) as Hw. unfold wp in Hw.
    destruct (Netlink.bpf_set_link_xdp_fd _ _ _ _ _ k) as [r k']; cbn [fst snd] in Hw. destruct Hw as (v & -> & Hv). by exists v, k'.
  - pose proof (get_spec i f k Ha) as Hw. unfold wp in Hw.
    destruct (Netlink.bpf_get_link_xdp_id _ _ _ _ k) as [r k']; cbn [fst snd] in Hw. destruct Hw as (e & id & -> & Hv). by exists e, id, k'.
Qed.

(** The hook of the loader over netlink.c. *)
Definition rtnl_link : LinkOps K := {|
  Loader.bpf_set_link_xdp_fd i fd f k :=
    match Netlink.bpf_set_link_xdp_fd rounds garbage i fd f k with
    | (Ok v, k') => (v, k')
    | (Err _, k') => (- EINVAL, k')
    end;
  Loader.bpf_get_link_xdp_id i f k :=
    match Netlink.bpf_get_link_xdp_id rounds garbage i f k with
    | (Ok (e, id), k') => (e, default 0 id, k')
    | (Err _, k') => (- EINVAL, 0, k')
    end
|}.

Lemma rtnl_set i fd f k :
  link_args i f → fd_arg fd →
  let '(v, k') := @Loader.bpf_set_link_xdp_fd K rtnl_link i fd f k in v ≤ 0 ∧ set_done i fd f k v k'.
Proof.
  intros Ha Hfd. pose proof (set_spec i fd f k Ha Hfd) as Hw. unfold wp in Hw. cbn.
  destruct (Netlink.bpf_set_link_xdp_fd _ _ _ _ _ k) as [r k']; cbn [fst snd] in Hw. destruct Hw as (v & -> & Hv & _ & Hd). done.
Qed.

#[local] Existing Instance rtnl_link.
#[local] Ltac of_set := cbn beta; match goal with
  | |- context [Loader.bpf_set_link_xdp_fd ?i ?fd ?f ?k] =>
      pose proof (rtnl_set i fd f k) as Hset; destruct (Loader.bpf_set_link_xdp_fd i fd f k) as [v k'];
      cbn [fst snd]; destruct Hset as (Hv & Hprogs & Helse & Hcase); [done|done|]
  end.
Program Definition rtnl_link_laws : LinkLaws K := {| slot := nslot; LoaderProps.prog_id := nprog |}.
Next Obligation. intros i fd f k Ha Hfd. by of_set. Qed.
Next Obligation. intros i fd f k Ha Hfd. of_set. intros Hn. destruct Hcase as [[_ [Hq _]]|[-> _]]; [done|by destruct Hn]. Qed.
Next Obligation.
  intros i fd f k Ha Hfd. of_set. intros Hp ->. destruct Hcase as [[? _]|(_ & -> & _)]; [lia|].
  by rewrite (proj2 (Z.eqb_neq fd (-1))) by lia.
Qed.
Next Obligation.
  intros i f k Ha. assert (fd_arg (-1)) as Hfd by (by split). of_set. intros ->.
  by destruct Hcase as [[? _]|(_ & -> & _)]; [lia|].
Qed.
Next Obligation. intros i fd f k i' m Ha Hfd Hi. of_set. by apply Helse. Qed.
Next Obligation.
  intros i fd f k Ha Hfd. of_set. intros Hp Hx Hs ->. destruct Hcase as [[? _]|(_ & _ & Hn)]; [lia|].
  by apply Hs, Hn.
Qed.
Next Obligation. intros i fd f k fd' Ha Hfd. of_set. apply Hprogs. Qed.
Next Obligation.
  intros i f k Ha. pose proof (get_spec i f k Ha) as Hw. unfold wp in Hw. cbn.
  destruct (Netlink.bpf_get_link_xdp_id _ _ _ _ k) as [r k']; cbn [fst snd] in Hw. destruct Hw as (e & id & -> & Hq & _ & He). cbn.
  split; [|done]. intros ->. cbn [Z.eqb] in He. by subst id.
Qed.
End hook.

(** ** A kernel with two links *)

Module TwoLinks.
Record kernel := Kernel { progs : gmap (Z * Z) Z; open_fds : gset Z; boxes : Z → list (list Z) }.

Definition lo : Z := 1.
Definition eth0 : Z := 2.
Definition PORT : Z := 4711.
Definition norm (m : Z) : Z := if m =? 0 then XDP_FLAGS_DRV_MODE else m.
Definition is_link (i : Z) : bool := existsb (Z.eqb i) [lo; eth0].
Definition program (k : kernel) (i m : Z) : Z := if is_link i then u32 (default 0 (progs k !! (i, norm m))) else 0.
Definition id_of (k : kernel) (fd : Z) : Z := 100 + u8 fd.
Definition with_box (s : Z) (l : list (list Z)) (k : kernel) : kernel :=
  Kernel (progs k) (open_fds k) (λ s', if decide (s' = s) then l else boxes k s').
Definition with_prog (i m id : Z) (k : kernel) : kernel := Kernel (<[(i, norm m) := id]> (progs k)) (open_fds k) (boxes k).

Definition the_link (k : kernel) (i : Z) (name : list Z) : link :=
  let r := kernel_report (program k i) in
  Link [0; 0; 1; 0] i (replicate 8 0) [Attr 3 name; Attr IFLA_XDP (encode_attrs (report_attrs r))] (Some r).
Definition lo_link (k : kernel) : link := the_link k lo [108; 111; 0].
Definition eth0_link (k : kernel) : link := the_link k eth0 [101; 116; 104; 48; 0].

(** The error for a program, and the acknowledgement. *)
Definition verdict (k : kernel) (i fd f : Z) : Z :=
  if negb (is_link i) then - 19
  else if (0 <=? s32 fd) && negb (Z.land f XDP_FLAGS_UPDATE_IF_NOEXIST =? 0) && negb (program k i (mode_of f) =? 0) then - EBUSY
  else 0.
Definition answer (s : Z) (msgs : list (list Z)) (k : kernel) : kernel := with_box s (boxes k s ++ msgs) k.
Definition send (s : Z) (req : list Z) (k : kernel) : Z * kernel :=
  match load16 req 4, load32 req 8, decode_request req with
  | Ok 19, Ok seq, Ok (i, fd, f) =>
      let err := verdict k i fd f in
      let k := if err =? 0 then with_prog i (mode_of f) (if s32 fd <? 0 then 0 else id_of k (s32 fd)) k else k in
      (1, answer s [ack_msg err (if err =? 0 then NLM_F_CAPPED else 0) seq PORT req []] k)
  | Ok 18, Ok seq, _ => (1, answer s (datagrams seq PORT [[lo_link k]] [eth0_link k]) k)
  | _, _, _ => (- 1, k)
  end.
Definition recv (s n : Z) (k : kernel) : (Z + list Z) * kernel :=
  match boxes k s with
  | d :: l => (inr (take (Z.to_nat n) d), with_box s l k)
  | [] => (inl (- 11), k)
  end.

#[export] Instance ops : NetlinkOps kernel := {
  nl_socket k := if decide (3 ∈ open_fds k) then (- 24, k) else (3, with_box 3 [] (Kernel (progs k) ({[3]} ∪ open_fds k) (boxes k)));
  nl_ext_ack _ k := (0, k);
  nl_bind _ k := (0, k);
  nl_getsockname _ _ := (0, 12, PORT);
  nl_send := send;
  nl_recv := recv;
  nl_close s k := Kernel (progs k) (open_fds k ∖ {[s]}) (boxes k);
  nl_time _ := 1700000000
}.

Lemma program_range k i m : 0 ≤ program k i m < 2 ^ 32.
Proof. unfold program. destruct (is_link i); [apply u32_range|done]. Qed.

Lemma report_bytes r : Z.of_nat (length (encode_attrs (report_attrs r))) ≤ 40.
Proof.
  unfold report_attrs. destruct (r_skb r), (r_drv r), (r_hw r), (r_prog r); cbn [u32_attr app];
    rewrite !length_encode_attrs_cons; unfold attr_len; cbn [a_data]; rewrite ?length_le32; by vm_compute.
Qed.
Lemma program_with_prog k i m id i' m' :
  program (with_prog i m id k) i' m' = if is_link i' && bool_decide ((i, norm m) = (i', norm m')) then u32 id else program k i' m'.
Proof. unfold program, with_prog. cbn [progs]. rewrite lookup_insert. destruct (is_link i'); [|done]. by case_bool_decide; case_decide. Qed.

Lemma the_link_ok k i name :
  0 ≤ i < 2 ^ 31 → Z.of_nat (length name) ≤ 100 → link_ok (the_link k i name).
Proof.
  intros Hi Hn. pose proof (report_bytes (kernel_report (program k i))) as Hr. unfold link_ok, the_link.
  cbn [l_index l_front l_back l_attrs l_report]. set (r := kernel_report _) in *.
  split; [done|]. split; [done|]. split; [done|]. split.
  { apply Forall_cons_2; [|apply Forall_singleton]; (split; [done|]); unfold attr_len, NLA_HDRLEN; cbn [a_data]; lia. }
  split.
  { rewrite !length_encode_attrs_cons. unfold attr_len, NLA_HDRLEN. cbn [a_data].
    pose proof (align_range (4 + Z.of_nat (length name))). pose proof (align_range (4 + Z.of_nat (length (encode_attrs (report_attrs r))))).
    cbn [encode_attrs mbind list_bind length]. lia. }
  assert (∀ id, id_ok (some_id (program k i id))) as Hid.
  { intros m. unfold some_id. destruct (_ =? 0); [done|]. apply program_range. }
  split; [|split; [|exists IFLA_XDP; by rewrite !find_attr_cons]].
  - subst r. unfold report_ok, kernel_report. cbn [r_prog r_drv r_skb r_hw fmap list_fmap]. rewrite !filter_cons, filter_nil.
    split; [|by split]. repeat case_decide; try done; apply program_range.
  - subst r. unfold kernel_report. cbn [r_mode]. repeat case_match; done.
Qed.

Lemma decoded_type req x : decode_request req = Ok x → load16 req 4 = Ok RTM_SETLINK.
Proof.
  unfold decode_request. intros Hd. res_inv.
  all: match goal with E : (_ =? RTM_SETLINK) = true |- _ => apply Z.eqb_eq in E; by subst end.
Qed.

Lemma link_msg_fits seq pid k i name :
  Z.of_nat (length name) ≤ 100 → Z.of_nat (length (link_msg seq pid (the_link k i name))) ≤ 300.
Proof.
  intros Hn. unfold link_msg. rewrite length_nlmsg. unfold link_payload, the_link. cbn [l_index l_front l_back l_attrs].
  rewrite !length_app, !Nat2Z.inj_add, length_le32, !length_encode_attrs_cons, length_replicate. cbn [length]. unfold attr_len, NLA_HDRLEN. cbn [a_data].
  pose proof (report_bytes (kernel_report (program k i))). set (r := kernel_report _) in *.
  pose proof (align_range (4 + Z.of_nat (length name))). pose proof (align_range (4 + Z.of_nat (length (encode_attrs (report_attrs r))))).
  cbn [encode_attrs mbind list_bind length]. lia.
Qed.
Lemma dump_is_ok k seq : dump_of (program k) seq PORT [[lo_link k]] [eth0_link k].
Proof.
  assert (link_ok (lo_link k)) as Hlo by (by apply the_link_ok).
  assert (link_ok (eth0_link k)) as Heth by (by apply the_link_ok).
  unfold dump_of. change (concat [[lo_link k]] ++ [eth0_link k]) with [lo_link k; eth0_link k].
  split; [by apply Forall_singleton|]. split; [by repeat apply Forall_cons_2; [..|apply Forall_nil_2]|].
  change (l_index <$> [lo_link k; eth0_link k]) with [lo; eth0].
  split; [by apply (bool_decide_unpack _)|]. split; [apply Forall_cons_2; [|apply Forall_singleton]; done|].
  split.
  - intros i Hi. assert (is_link i = false) as El.
    { unfold is_link. cbn [existsb]. rewrite !not_elem_of_cons in Hi. unfold lo, eth0 in *. lia. }
    unfold no_program, program. by rewrite El.
  - apply Forall_cons_2; [|apply Forall_singleton]; unfold fits.
    + unfold link_msgs. cbn [mbind list_bind]. rewrite app_nil_r. pose proof (link_msg_fits seq PORT k lo [108; 111; 0] ltac:(done)) as Hl.
      unfold lo_link. lia.
    + unfold link_msgs. cbn [mbind list_bind]. rewrite app_nil_r, length_app.
      pose proof (link_msg_fits seq PORT k eth0 [101; 116; 104; 48; 0] ltac:(done)) as Hl. unfold eth0_link.
      change (length (done_msg seq PORT)) with 20%nat. lia.
Qed.
Lemma set_answer s req k i fd f seq :
  decode_request req = Ok (i, fd, f) → load32 req 8 = Ok seq →
  let err := verdict k i fd f in
  let k1 := if err =? 0 then with_prog i (mode_of f) (if s32 fd <? 0 then 0 else id_of k (s32 fd)) k else k in
  send s req k = (1, answer s [ack_msg err (if err =? 0 then NLM_F_CAPPED else 0) seq PORT req []] k1).
Proof. intros Hd Hs. unfold send. by rewrite (decoded_type _ _ Hd), Hs, Hd. Qed.

Lemma dump_answer s seq k :
  0 ≤ seq < 2 ^ 32 →
  send s (dump_request RTM_GETLINK seq (ifinfomsg AF_PACKET)) k =
    (1, answer s (datagrams seq PORT [[lo_link k]] [eth0_link k]) k).
Proof.
  intros Hs. unfold send. set (req := dump_request _ _ _).
  assert (∃ post, req = (le32 32 ++ le16 RTM_GETLINK ++ le16 0x301) ++ le32 seq ++ post) as [post E] by (by eexists).
  assert (bytes_at req 8 (le32 seq ++ post)) as Hb by (rewrite E; eexists _, []; by rewrite app_nil_r).
  assert (load16 req 4 = Ok 18) as -> by reflexivity.
  rewrite (load32_bytes _ _ _ _ Hb), u32_small by done. done.
Qed.

Lemma verdict_set k i fd f : verdict k i fd f = 0 → is_link i = true.
Proof. unfold verdict. by destruct (is_link i). Qed.

#[export] Program Instance laws : RtnlLaws kernel := {
  nslot := program; nprog := id_of; socks := open_fds; inbox := boxes; dump_rounds := 1
}.
Next Obligation. apply program_range. Qed.
Next Obligation.
  intros k. cbn. case_decide; cbn; [done|]. split; [done|]. split; [done|]. split; [done|]. by rewrite decide_True.
Qed.
Next Obligation. done. Qed.
Next Obligation. done. Qed.
Next Obligation. done. Qed.
Next Obligation. done. Qed.
Next Obligation.
  intros s n k. cbn. unfold recv. destruct (boxes k s) as [|d l] eqn:E; cbn.
  - split; [done|]. split; [done|]. by exists (- 11).
  - split; [done|]. split; [done|]. split; [done|]. by rewrite decide_True.
Qed.
Next Obligation.
  intros s req k i fd f seq Hd Hs. change (nl_send s req k) with (send s req k). rewrite (set_answer _ _ _ _ _ _ _ Hd Hs).
  pose proof (verdict_set k i fd f) as Hlink. set (err := verdict k i fd f) in *.
  set (k1 := if err =? 0 then _ else k). assert (open_fds k1 = open_fds k) as Ho by (subst k1; by destruct (err =? 0)).
  assert (boxes k1 = boxes k) as Hb by (subst k1; by destruct (err =? 0)).
  cbn [Z.ltb Z.compare]. split; [exact Ho|]. exists err, (if err =? 0 then NLM_F_CAPPED else 0), [].
  assert (err ≠ 0 → k1 = k) as Hsame by (intros Hne; subst k1; by rewrite (proj2 (Z.eqb_neq err 0) Hne)).
  assert (∀ i' m, program (answer s [ack_msg err (if err =? 0 then NLM_F_CAPPED else 0) seq PORT req []] k1) i' m = program k1 i' m) as Hp by done.
  split. { cbn. rewrite decide_True by done. by rewrite Hb. }
  split; [split; [apply Forall_nil_2|done]|]. split; [by destruct (err =? 0)|]. split; [by destruct (err =? 0)|].
  split. { subst err. unfold verdict. repeat case_match; done. }
  split. { intros Hne. split; [|done]. intros i' m. rewrite Hp. by rewrite Hsame. }
  split; [done|]. split.
  { intros i' m Hi. rewrite Hp. subst k1. destruct (err =? 0); [|done]. rewrite program_with_prog.
    rewrite bool_decide_false by congruence. by rewrite andb_false_r. }
  split.
  { intros He. rewrite Hp. subst k1. rewrite He. cbn [Z.eqb]. rewrite program_with_prog, Hlink, bool_decide_true by done.
    cbn [andb]. destruct (s32 fd <? 0); [done|]. unfold id_of. apply u32_small. pose proof (u8_range (s32 fd)). lia. }
  intros Hfd Hx Hsl He. subst err. unfold verdict in He. rewrite (Hlink He) in He. cbn [negb] in He.
  change (nslot k) with (program k) in Hsl.
  by rewrite (proj2 (Z.leb_le _ _) Hfd), (proj2 (Z.eqb_neq _ _) Hx), (proj2 (Z.eqb_neq _ _) Hsl) in He.
Qed.
Next Obligation.
  intros s k seq Hs. change (nl_send s ?req k) with (send s req k). rewrite dump_answer by done.
  split; [done|]. split; [done|]. intros _. exists [[lo_link k]], [eth0_link k]. split.
  { cbn. by rewrite decide_True. }
  split; [done|]. apply dump_is_ok.
Qed.
End TwoLinks.
Import TwoLinks.

(** A program of the native mode on the second link. *)
Definition one_program : kernel := Kernel {[ (eth0, XDP_FLAGS_DRV_MODE) := 105 ]} ∅ (λ _, []).
Definition blank : buffer := replicate (Z.to_nat 4096) 0.

Lemma rtnetlink_implements_the_hook_witness :
  (Netlink.bpf_get_link_xdp_id 1 blank eth0 XDP_FLAGS_SKB_MODE one_program).1 = Ok (0, Some 105) ∧
  (Netlink.bpf_set_link_xdp_fd 1 blank eth0 7 XDP_FLAGS_UPDATE_IF_NOEXIST one_program).1 = Ok (- EBUSY) ∧
  ∃ v k', Netlink.bpf_set_link_xdp_fd 1 blank eth0 7 XDP_FLAGS_SKB_MODE one_program = (Ok v, k') ∧ open_fds k' = ∅.
Proof.
  split; [vm_compute; reflexivity|]. split; [vm_compute; reflexivity|].
  destruct (rtnetlink_implements_the_hook (K := kernel) 1 blank) with (i := eth0) (fd := 7) (f := XDP_FLAGS_SKB_MODE)
    (k := one_program) as [(v & k' & E & _ & Ho & _) _].
  - apply length_replicate.
  - apply Forall_replicate. lia.
  - apply le_n.
  - split; split; vm_compute; congruence.
  - split; vm_compute; congruence.
  - exists v, k'. exact (conj E Ho).
Defined.
