(* ===== verification/DefaultProg.v ===== *)
(** * The XDP program that libbpf brings: [xsk_load_xdp_prog] of xsk.c

    The program is an array of instructions, written with the macros of
    linux/filter.h; a comment gives the C it stands for.  The instructions are run by
    the machine bpf.h describes, as far as the program uses it, with the two
    helpers of the kernel as parameters. *)

From S2P Require Import Prelude BpfParse.

(** ** Opcodes *)

Definition BPF_LD : Z := 0x00.
Definition BPF_LDX : Z := 0x01.
Definition BPF_STX : Z := 0x03.
Definition BPF_JMP : Z := 0x05.
Definition BPF_JMP32 : Z := 0x06.
Definition BPF_ALU64 : Z := 0x07.
Definition BPF_W : Z := 0x00.
Definition BPF_DW : Z := 0x18.
Definition BPF_IMM : Z := 0x00.
Definition BPF_MEM : Z := 0x60.
Definition BPF_K : Z := 0x00.
Definition BPF_X : Z := 0x08.
Definition BPF_ADD : Z := 0x00.
Definition BPF_MOV : Z := 0xb0.
Definition BPF_JEQ : Z := 0x10.
Definition BPF_JSGT : Z := 0x60.
Definition BPF_CALL : Z := 0x80.
Definition BPF_EXIT : Z := 0x90.
Definition BPF_OP (code : Z) : Z := Z.land code 0xf0.
Definition BPF_SIZE (code : Z) : Z := Z.land code 0x18.
Definition BPF_PSEUDO_MAP_FD : Z := 1.
Definition BPF_FUNC_unspec : Z := 0.
Definition BPF_FUNC_map_lookup_elem : Z := 1.
Definition BPF_FUNC_redirect_map : Z := 51.

(** struct bpf_insn *)
Record bpf_insn := Insn { code : Z; dst_reg : Z; src_reg : Z; off : Z; imm : Z }.

Definition BPF_ALU64_IMM (OP DST IMM : Z) : bpf_insn :=
  Insn (Z.lor (Z.lor BPF_ALU64 (BPF_OP OP)) BPF_K) DST 0 0 IMM.
Definition BPF_MOV64_IMM (DST IMM : Z) : bpf_insn := Insn (Z.lor (Z.lor BPF_ALU64 BPF_MOV) BPF_K) DST 0 0 IMM.
Definition BPF_EXIT_INSN : bpf_insn := Insn (Z.lor BPF_JMP BPF_EXIT) 0 0 0 0.
Definition BPF_EMIT_CALL (FUNC : Z) : bpf_insn := Insn (Z.lor BPF_JMP BPF_CALL) 0 0 0 (FUNC - BPF_FUNC_unspec).
Definition BPF_LDX_MEM (SIZE DST SRC OFF : Z) : bpf_insn :=
  Insn (Z.lor (Z.lor BPF_LDX (BPF_SIZE SIZE)) BPF_MEM) DST SRC OFF 0.
Definition BPF_STX_MEM (SIZE DST SRC OFF : Z) : bpf_insn :=
  Insn (Z.lor (Z.lor BPF_STX (BPF_SIZE SIZE)) BPF_MEM) DST SRC OFF 0.
Definition BPF_MOV64_REG (DST SRC : Z) : bpf_insn := Insn (Z.lor (Z.lor BPF_ALU64 BPF_MOV) BPF_X) DST SRC 0 0.
Definition BPF_LD_IMM64_RAW_FULL (DST SRC OFF1 OFF2 IMM1 IMM2 : Z) : list bpf_insn :=
  [Insn (Z.lor (Z.lor BPF_LD BPF_DW) BPF_IMM) DST SRC OFF1 IMM1; Insn 0 0 0 OFF2 IMM2].
Definition BPF_LD_MAP_FD (DST MAP_FD : Z) : list bpf_insn :=
  BPF_LD_IMM64_RAW_FULL DST BPF_PSEUDO_MAP_FD 0 0 MAP_FD 0.
Definition BPF_JMP_IMM (OP DST IMM OFF : Z) : bpf_insn := Insn (Z.lor (Z.lor BPF_JMP (BPF_OP OP)) BPF_K) DST 0 OFF IMM.
Definition BPF_JMP32_IMM (OP DST IMM OFF : Z) : bpf_insn :=
  Insn (Z.lor (Z.lor BPF_JMP32 (BPF_OP OP)) BPF_K) DST 0 OFF IMM.

(** The array [prog]; registers are their numbers. *)
Definition prog (xsks_map_fd : Z) : list bpf_insn :=
  [ BPF_LDX_MEM BPF_W 2 1 16; BPF_STX_MEM BPF_W 10 2 (-4) ] ++
  BPF_LD_MAP_FD 1 xsks_map_fd ++
  [ BPF_MOV64_IMM 3 2; BPF_EMIT_CALL BPF_FUNC_redirect_map; BPF_JMP32_IMM BPF_JSGT 0 0 13;
    BPF_MOV64_REG 2 10; BPF_ALU64_IMM BPF_ADD 2 (-4) ] ++
  BPF_LD_MAP_FD 1 xsks_map_fd ++
  [ BPF_EMIT_CALL BPF_FUNC_map_lookup_elem; BPF_MOV64_REG 1 0; BPF_MOV64_IMM 0 2; BPF_JMP_IMM BPF_JEQ 1 0 5;
    BPF_LDX_MEM BPF_W 2 10 (-4) ] ++
  BPF_LD_MAP_FD 1 xsks_map_fd ++
  [ BPF_MOV64_IMM 3 0; BPF_EMIT_CALL BPF_FUNC_redirect_map; BPF_EXIT_INSN ].

(** ** The machine *)

Section machine.
(** The state of the kernel that the helpers change. *)
Context {S : Type}.
(** [bpf_redirect_map(map, key, flags)], and whether [bpf_map_lookup_elem(map, &key)]
    is not NULL. *)
Variable bpf_redirect_map : Z → Z → Z → S → Z * S.
Variable bpf_map_lookup_elem : Z → Z → S → bool * S.
(** The 32-bit words of [struct xdp_md]. *)
Variable ctx : Z → option Z.

(** What a register holds: a number of 64 bits, or a pointer to the context, to the
    stack, to a map (its descriptor), or to an element. *)
Inductive value :=
  | Num (n : Z)
  | CtxPtr (o : Z)
  | StackPtr (o : Z)
  | MapPtr (fd : Z)
  | ElemPtr.

Record machine := Machine {
  pc : Z;
  regs : Z → option value;
  stack : gmap Z Z;   (** bytes by offset from r10 *)
  kernel : S
}.

Definition set_reg (r : Z) (v : value) (m : machine) : machine :=
  Machine (pc m) (λ r', if r' =? r then Some v else regs m r') (stack m) (kernel m).
Definition jump (d : Z) (m : machine) : machine := Machine (pc m + d) (regs m) (stack m) (kernel m).

(** The stack is 512 bytes. *)
Definition in_stack (o n : Z) : bool := (- 512 <=? o) && (o + n <=? 0).
Definition store_word (o v : Z) (st : gmap Z Z) : res (gmap Z Z) :=
  if in_stack o 4 then
    Ok (<[o := v mod 256]> (<[o + 1 := v / 256 mod 256]> (<[o + 2 := v / 65536 mod 256]> (<[o + 3 := v / 16777216 mod 256]> st))))
  else Err OutOfBounds.
Definition load_word (o : Z) (st : gmap Z Z) : res Z :=
  if in_stack o 4 then
    match st !! o, st !! (o + 1), st !! (o + 2), st !! (o + 3) with
    | Some a, Some b, Some c, Some d => Ok (a + 256 * b + 65536 * c + 16777216 * d)
    | _, _, _, _ => Err OutOfBounds
    end
  else Err OutOfBounds.

Definition reg (r : Z) (m : machine) : res value := or_fault (regs m r) BadCast.
Definition num (v : value) : res Z := match v with Num n => Ok n | _ => Err BadCast end.

(** A call: arguments in r1 to r3, result in r0; r1 to r5 are lost. *)
Definition after_call (v : value) (k : S) (m : machine) : machine :=
  Machine (pc m + 1) (λ r, if r =? 0 then Some v else if r <=? 5 then None else regs m r) (stack m) k.
Definition call_helper (f : Z) (m : machine) : res machine :=
  r1 ← reg 1 m;
  r2 ← reg 2 m;
  match r1 with
  | MapPtr fd =>
    if f =? BPF_FUNC_redirect_map then
      key ← num r2;
      r3 ← reg 3 m; flags ← num r3;
      let '(ret, k) := bpf_redirect_map fd (u32 key) flags (kernel m) in
      Ok (after_call (Num (u64 ret)) k m)
    else if f =? BPF_FUNC_map_lookup_elem then
      match r2 with
      | StackPtr o =>
        key ← load_word o (stack m);
        let '(found, k) := bpf_map_lookup_elem fd key (kernel m) in
        Ok (after_call (if (found : bool) then ElemPtr else Num 0) k m)
      | _ => Err BadCast
      end
    else Err BadCast
  | _ => Err BadCast
  end.

(** One instruction; [inr] is the result of the program. *)
Definition exec (i : bpf_insn) (m : machine) : res (machine + Z * S) :=
  let c := code i in
  let next := jump 1 in
  if c =? Z.lor (Z.lor BPF_LDX BPF_W) BPF_MEM then
    p ← reg (src_reg i) m;
    v ← match p with
        | CtxPtr o => or_fault (ctx (o + off i)) OutOfBounds
        | StackPtr o => load_word (o + off i) (stack m)
        | _ => Err BadCast
        end;
    Ok (inl (next (set_reg (dst_reg i) (Num v) m)))
  else if c =? Z.lor (Z.lor BPF_STX BPF_W) BPF_MEM then
    p ← reg (dst_reg i) m;
    v ← reg (src_reg i) m; v ← num v;
    match p with
    | StackPtr o =>
      st ← store_word (o + off i) (u32 v) (stack m);
      Ok (inl (next (Machine (pc m) (regs m) st (kernel m))))
    | _ => Err BadCast
    end
  else if c =? Z.lor (Z.lor BPF_LD BPF_DW) BPF_IMM then
    if src_reg i =? BPF_PSEUDO_MAP_FD then Ok (inl (jump 2 (set_reg (dst_reg i) (MapPtr (imm i)) m))) else Err BadCast
  else if c =? Z.lor (Z.lor BPF_ALU64 BPF_MOV) BPF_K then Ok (inl (next (set_reg (dst_reg i) (Num (u64 (imm i))) m)))
  else if c =? Z.lor (Z.lor BPF_ALU64 BPF_MOV) BPF_X then
    v ← reg (src_reg i) m; Ok (inl (next (set_reg (dst_reg i) v m)))
  else if c =? Z.lor (Z.lor BPF_ALU64 BPF_ADD) BPF_K then
    v ← reg (dst_reg i) m;
    match v with
    | Num n => Ok (inl (next (set_reg (dst_reg i) (Num (u64 (n + imm i))) m)))
    | StackPtr o => Ok (inl (next (set_reg (dst_reg i) (StackPtr (o + imm i)) m)))
    | _ => Err BadCast
    end
  else if c =? Z.lor BPF_JMP BPF_CALL then m ← call_helper (imm i) m; Ok (inl m)
  else if c =? Z.lor (Z.lor BPF_JMP32 BPF_JSGT) BPF_K then
    v ← reg (dst_reg i) m; n ← num v;
    Ok (inl (if imm i <? s32 n then jump (off i) (next m) else next m))
  else if c =? Z.lor (Z.lor BPF_JMP BPF_JEQ) BPF_K then
    v ← reg (dst_reg i) m;
    eq ← match v with Num n => Ok (n =? u64 (imm i)) | ElemPtr => if imm i =? 0 then Ok false else Err BadCast | _ => Err BadCast end;
    Ok (inl (if (eq : bool) then jump (off i) (next m) else next m))
  else if c =? Z.lor BPF_JMP BPF_EXIT then
    v ← reg 0 m; n ← num v; Ok (inr (u32 n, kernel m))
  else Err BadCast.

Fixpoint run_prog (fuel : nat) (p : list bpf_insn) (m : machine) : res (Z * S) :=
  match fuel with
  | O => Err OutOfFuel
  | Datatypes.S fuel =>
    if pc m <? 0 then Err OutOfBounds
    else
      i ← or_fault (p !! Z.to_nat (pc m)) OutOfBounds;
      r ← exec i m;
      match r with inl m => run_prog fuel p m | inr ret => Ok ret end
  end.

(** r1 is the context and r10 the end of the stack. *)
Definition start (k : S) : machine :=
  Machine 0 (λ r, if r =? 1 then Some (CtxPtr 0) else if r =? 10 then Some (StackPtr 0) else None) ∅ k.

(** ** The C program of the comment *)

Definition xdp_sock_prog (xsks_map index : Z) (k : S) : Z * S :=
  let '(ret, k) := bpf_redirect_map xsks_map index XDP_PASS k in
  if 0 <? s32 ret then (u32 ret, k)
  else
    let '(found, k) := bpf_map_lookup_elem xsks_map index k in
    if (found : bool) then let '(ret, k) := bpf_redirect_map xsks_map index 0 k in (u32 ret, k)
    else (XDP_PASS, k).
End machine.

(** ** The instructions are the C program *)

Section correct.
Context {S : Type} (bpf_redirect_map : Z → Z → Z → S → Z * S) (bpf_map_lookup_elem : Z → Z → S → bool * S)
  (ctx : Z → option Z).

Abbreviation run := (run_prog bpf_redirect_map bpf_map_lookup_elem ctx).
Abbreviation exec' := (exec bpf_redirect_map bpf_map_lookup_elem ctx).

Lemma store_word_ok o v st : in_stack o 4 = true → ∃ st', store_word o v st = Ok st'.
Proof. intros H. unfold store_word. rewrite H. by eexists. Qed.

Lemma load_stored o v st st' : 0 ≤ v < 2 ^ 32 → store_word o v st = Ok st' → load_word o st' = Ok v.
Proof.
  unfold store_word, load_word. intros Hv. destruct (in_stack o 4); [|done]. intros [= <-].
  rewrite !lookup_insert_eq, !lookup_insert_ne, !lookup_insert_eq by lia.
  rewrite !lookup_insert_ne, !lookup_insert_eq by lia. rewrite lookup_insert_ne, lookup_insert_ne, lookup_insert_ne, lookup_insert_eq by lia.
  f_equal. Z.div_mod_to_equations. lia.
Qed.

Lemma run_step fuel p m i m' :
  (pc m <? 0) = false → p !! Z.to_nat (pc m) = Some i → exec' i m = Ok (inl m') →
  run (Datatypes.S fuel) p m = run fuel p m'.
Proof. intros Hp Hi He. cbn [run_prog]. rewrite Hp, Hi. cbn [or_fault mbind res_bind]. by rewrite He. Qed.

Lemma run_exit fuel p m i r :
  (pc m <? 0) = false → p !! Z.to_nat (pc m) = Some i → exec' i m = Ok (inr r) →
  run (Datatypes.S fuel) p m = Ok r.
Proof. intros Hp Hi He. cbn [run_prog]. rewrite Hp, Hi. cbn [or_fault mbind res_bind]. by rewrite He. Qed.

(** The call of a helper. *)
Lemma redirect_step m fd key flags ret k :
  regs m 1 = Some (MapPtr fd) → regs m 2 = Some (Num key) → regs m 3 = Some (Num flags) →
  bpf_redirect_map fd (u32 key) flags (kernel m) = (ret, k) →
  exec' (BPF_EMIT_CALL BPF_FUNC_redirect_map) m = Ok (inl (after_call (Num (u64 ret)) k m)).
Proof.
  intros H1 H2 H3 E. change (exec' (BPF_EMIT_CALL BPF_FUNC_redirect_map) m) with
    (m ← call_helper bpf_redirect_map bpf_map_lookup_elem BPF_FUNC_redirect_map m; Ok (inl m) : res (machine + Z * S)).
  unfold call_helper, reg. rewrite H1, H2. cbn [or_fault mbind res_bind]. rewrite Z.eqb_refl. cbn [num mbind res_bind].
  rewrite H3. cbn [or_fault mbind res_bind num]. by rewrite E.
Qed.

Lemma lookup_step m fd o key found k :
  regs m 1 = Some (MapPtr fd) → regs m 2 = Some (StackPtr o) → load_word o (stack m) = Ok key →
  bpf_map_lookup_elem fd key (kernel m) = (found, k) →
  exec' (BPF_EMIT_CALL BPF_FUNC_map_lookup_elem) m = Ok (inl (after_call (if found then ElemPtr else Num 0) k m)).
Proof.
  intros H1 H2 H3 E. change (exec' (BPF_EMIT_CALL BPF_FUNC_map_lookup_elem) m) with
    (m ← call_helper bpf_redirect_map bpf_map_lookup_elem BPF_FUNC_map_lookup_elem m; Ok (inl m) : res (machine + Z * S)).
  unfold call_helper, reg. rewrite H1, H2. cbn [or_fault mbind res_bind]. 
  change (BPF_FUNC_map_lookup_elem =? BPF_FUNC_redirect_map) with false. rewrite Z.eqb_refl, H3. cbn [mbind res_bind].
  by rewrite E.
Qed.

Lemma u64_then_u32 x : u32 (u64 x) = u32 x.
Proof. unfold u64, u32. apply Z.mod_mod_divide. by exists (2 ^ 32). Qed.
Lemma u64_then_s32 x : s32 (u64 x) = s32 x.
Proof. unfold s32. by rewrite u64_then_u32. Qed.

#[local] Ltac step := erewrite run_step; [|reflexivity|reflexivity|reflexivity].

(** Step by step, to the result of the C program. *)
Lemma run_default_program fd index k :
  0 ≤ index < 2 ^ 32 → ctx 16 = Some index →
  run 19 (prog fd) (start k) = Ok (xdp_sock_prog bpf_redirect_map bpf_map_lookup_elem fd index k).
Proof.
  intros Hi Hctx. unfold xdp_sock_prog.
  assert (exec' (BPF_LDX_MEM BPF_W 2 1 16) (start k) = Ok (inl (jump 1 (set_reg 2 (Num index) (start k))))) as E.
  { transitivity (v ← or_fault (ctx 16) OutOfBounds; Ok (inl (jump 1 (set_reg 2 (Num v) (start k)))) : res (machine + Z * S));
      [reflexivity|]. by rewrite Hctx. }
  erewrite run_step; [|reflexivity|reflexivity|exact E]. clear E.
  destruct (store_word_ok (-4) (u32 index) ∅ eq_refl) as [st Hst].
  pose proof (load_stored _ _ _ _ (u32_range _) Hst) as Hload.
  set (m := jump 1 _).
  assert (exec' (BPF_STX_MEM BPF_W 10 2 (-4)) m = Ok (inl (jump 1 (Machine (pc m) (regs m) st k)))) as E.
  { transitivity (st ← store_word (-4) (u32 index) ∅; Ok (inl (jump 1 (Machine (pc m) (regs m) st k))) : res (machine + Z * S));
      [reflexivity|]. by rewrite Hst. }
  erewrite run_step; [|reflexivity|reflexivity|exact E]. clear E.
  step. step.
  destruct (bpf_redirect_map fd (u32 index) 2 k) as [ret k1] eqn:E1.
  erewrite run_step; [|reflexivity|reflexivity|eapply redirect_step; [reflexivity|reflexivity|reflexivity|exact E1]].
  rewrite u32_small in E1 by done. change (bpf_redirect_map fd index XDP_PASS k) with (bpf_redirect_map fd index 2 k). rewrite E1.
  set (m6 := after_call _ _ _).
  assert (exec' (BPF_JMP32_IMM BPF_JSGT 0 0 13) m6 =
    Ok (inl (if 0 <? s32 (u64 ret) then jump 13 (jump 1 m6) else jump 1 m6))) as E by reflexivity.
  rewrite u64_then_s32 in E. destruct (0 <? s32 ret).
  { erewrite run_step; [|reflexivity|reflexivity|exact E].
    erewrite run_exit; [|reflexivity|reflexivity|reflexivity]. by rewrite u64_then_u32. }
  erewrite run_step; [|reflexivity|reflexivity|exact E]. clear E. step. step. step.
  destruct (bpf_map_lookup_elem fd index k1) as [found k2] eqn:E2.
  erewrite run_step; [|reflexivity|reflexivity|eapply (lookup_step _ fd (-4) index); [reflexivity|reflexivity| |exact E2]].
  2: { rewrite u32_small in Hload by done. exact Hload. }
  step. step. set (m14 := jump 1 _).
  destruct found.
  2: { assert (exec' (BPF_JMP_IMM BPF_JEQ 1 0 5) m14 = Ok (inl (jump 5 (jump 1 m14)))) as E by reflexivity.
       erewrite run_step; [|reflexivity|reflexivity|exact E]. erewrite run_exit; [|reflexivity|reflexivity|reflexivity]. done. }
  assert (exec' (BPF_JMP_IMM BPF_JEQ 1 0 5) m14 = Ok (inl (jump 1 m14))) as E by reflexivity.
  erewrite run_step; [|reflexivity|reflexivity|exact E]. clear E. set (m15 := jump 1 m14).
  assert (exec' (BPF_LDX_MEM BPF_W 2 10 (-4)) m15 = Ok (inl (jump 1 (set_reg 2 (Num index) m15)))) as E.
  { transitivity (v ← load_word (-4) st; Ok (inl (jump 1 (set_reg 2 (Num v) m15))) : res (machine + Z * S)); [reflexivity|].
    rewrite u32_small in Hload by done. by rewrite Hload. }
  erewrite run_step; [|reflexivity|reflexivity|exact E]. clear E. step. step.
  destruct (bpf_redirect_map fd (u32 index) 0 k2) as [ret2 k3] eqn:E3.
  erewrite run_step; [|reflexivity|reflexivity|eapply redirect_step; [reflexivity|reflexivity|reflexivity|exact E3]].
  erewrite run_exit; [|reflexivity|reflexivity|reflexivity].
  rewrite u32_small in E3 by done. rewrite E3. by rewrite u64_then_u32.
Qed.
End correct.

(** ** What becomes of a packet *)

Section packet.
Context {S : Type} (bpf_redirect_map : Z → Z → Z → S → Z * S) (bpf_map_lookup_elem : Z → Z → S → bool * S).
(** Whether a socket is in the map at a queue, and the queue to whose socket the packet goes. *)
Variable has_socket : S → Z → Z → bool.
Variable redirected : S → option Z.

(** The helpers since Linux 5.3 and before, from the same documentation: the default
    action of a queue without a socket, and none. *)
Definition helpers_documented (new_kernel : bool) : Prop :=
  (∀ fd i f k, let '(ret, k') := bpf_redirect_map fd i f k in
     (∀ j, has_socket k' fd j = has_socket k fd j) ∧
     if has_socket k fd i && (new_kernel || (f =? 0)) then ret = XDP_REDIRECT ∧ redirected k' = Some i
     else redirected k' = redirected k ∧ ret = if new_kernel then Z.land f 3 else XDP_ABORTED) ∧
  (∀ fd i k, let '(found, k') := bpf_map_lookup_elem fd i k in
     found = has_socket k fd i ∧ k' = k).

Lemma xdp_sock_prog_redirects new_kernel fd index k :
  helpers_documented new_kernel → redirected k = None →
  let '(action, k') := xdp_sock_prog bpf_redirect_map bpf_map_lookup_elem fd index k in
  if has_socket k fd index then action = XDP_REDIRECT ∧ redirected k' = Some index
  else action = XDP_PASS ∧ redirected k' = None.
Proof.
  intros [Hr Hl] Hn. unfold xdp_sock_prog. pose proof (Hr fd index XDP_PASS k) as H1.
  destruct (bpf_redirect_map fd index XDP_PASS k) as [ret k1]. destruct H1 as [Hs1 H1].
  destruct (has_socket k fd index) eqn:Eh, new_kernel; cbn [andb orb] in H1.
  - destruct H1 as [-> H1]. by split.
  - change (XDP_PASS =? 0) with false in H1. cbn [andb] in H1. destruct H1 as [H1 ->]. cbn.
    pose proof (Hl fd index k1) as H2. destruct (bpf_map_lookup_elem fd index k1) as [found k2]. destruct H2 as [-> ->].
    rewrite Hs1, Eh. pose proof (Hr fd index 0 k1) as H3. destruct (bpf_redirect_map fd index 0 k1) as [ret2 k3].
    destruct H3 as [_ H3]. rewrite Hs1, Eh in H3. cbn in H3. destruct H3 as [-> H3]. by split.
  - destruct H1 as [H1 ->]. change (0 <? s32 (Z.land XDP_PASS 3)) with true. split; [reflexivity|]. by rewrite H1.
  - destruct H1 as [H1 ->]. change (0 <? s32 XDP_ABORTED) with false. cbn iota. pose proof (Hl fd index k1) as H2.
    destruct (bpf_map_lookup_elem fd index k1) as [found k2]. destruct H2 as [-> ->]. rewrite Hs1, Eh. by rewrite H1.
Qed.
End packet.

(** C30: The program libbpf assembles.  For every receive queue, every map and whatever the two
    helpers return and change, the instructions end after at most 19 steps, without an
    access outside the context or the stack or to a register that holds nothing, with the
    same calls, the same action and the same state as the C program of the comment.
    With helpers as they are documented, before Linux 5.3 and since, a packet goes to the socket the map
    has at its queue, and to the kernel's own stack where there is none. *)
Theorem default_program_is_the_c_program {S} bpf_redirect_map bpf_map_lookup_elem (ctx : Z → option Z) fd index (k : S) :
  0 ≤ index < 2 ^ 32 → ctx 16 = Some index →
  ∃ action k', run_prog bpf_redirect_map bpf_map_lookup_elem ctx 19 (prog fd) (start k) = Ok (action, k') ∧
    xdp_sock_prog bpf_redirect_map bpf_map_lookup_elem fd index k = (action, k') ∧
    ∀ has_socket redirected new_kernel,
      helpers_documented bpf_redirect_map bpf_map_lookup_elem has_socket redirected new_kernel → redirected k = None →
      if has_socket k fd index then action = XDP_REDIRECT ∧ redirected k' = Some index
      else action = XDP_PASS ∧ redirected k' = None.
Proof.
  intros Hi Hc. pose proof (run_default_program bpf_redirect_map bpf_map_lookup_elem ctx fd index k Hi Hc) as E.
  destruct (xdp_sock_prog bpf_redirect_map bpf_map_lookup_elem fd index k) as [action k'] eqn:Ep.
  exists action, k'. split; [done|]. split; [done|]. intros hs rd nk Hh Hn.
  pose proof (xdp_sock_prog_redirects _ _ hs rd nk fd index k Hh Hn) as Hp. by rewrite Ep in Hp.
Qed.

(** A map with a socket at queue 2, before Linux 5.3: the state is where the packet goes. *)
Definition old_redirect (fd i f : Z) (k : option Z) : Z * option Z :=
  if (i =? 2) && (f =? 0) then (XDP_REDIRECT, Some i) else (XDP_ABORTED, k).
Definition old_lookup (fd i : Z) (k : option Z) : bool * option Z := (i =? 2, k).
Definition queue_ctx (q o : Z) : option Z := if o =? 16 then Some q else None.

Lemma default_program_is_the_c_program_witness :
  run_prog old_redirect old_lookup (queue_ctx 2) 19 (prog 7) (start None) = Ok (XDP_REDIRECT, Some 2) ∧
  ∃ action k', run_prog old_redirect old_lookup (queue_ctx 3) 19 (prog 7) (start None) = Ok (action, k') ∧ action = XDP_PASS.
Proof.
  split; [vm_compute; reflexivity|].
  destruct (default_program_is_the_c_program old_redirect old_lookup (queue_ctx 3) 7 3 None) as (a & k' & E & _ & H);
    [lia|done|].
  exists a, k'. split; [exact E|].
  destruct (H (λ _ _ i, i =? 2) (λ k, k) false) as [Ha _]; [|done|done].
  split.
  - intros fd i f k. unfold old_redirect. cbn. destruct (i =? 2) eqn:E2; cbn; [|done].
    apply Z.eqb_eq in E2 as ->. by destruct (f =? 0).
  - by intros fd i k.
Defined.
