(* ===== verification/XskLib.v ===== *)
(** * xsk.c of libbpf: umems, sockets and their XDP program

    What stands behind [xsk_umem__create], [xsk_socket__create] and their deletes:
    the descriptors, mappings and memory they take and give back, the rings they
    lay over the mappings, and the program and map that send packets to a socket.
    The system calls are the interface [XskSys]; a call that fails returns -1 and
    leaves [errno].  Warnings are left out. *)

From S2P Require Import Prelude Io Config Loader XskRing DefaultProg.
From S2P Require Xsk.

(** ** Data *)

(** struct xsk_ring_prod and xsk_ring_cons: the counters of the user and the addresses. *)
Record ring_struct := RingStruct {
  rs_cached_prod : Z; rs_cached_cons : Z; rs_mask : Z; rs_size : Z;   (** __u32 *)
  rs_producer : Z; rs_consumer : Z; rs_ring : Z; rs_flags : Z         (** addresses *)
}.

Record xsk_umem_config := UmemConfig {
  fill_size : Z; comp_size : Z; frame_size : Z; frame_headroom : Z; umem_flags : Z   (** __u32 *)
}.

(** struct xsk_umem; its [fill] and [comp] point to the structs of the caller. *)
Record xsk_umem := Umem { umem_area : Z; um_config : xsk_umem_config; um_fd : Z; refcount : Z }.

(** struct xsk_socket; its [umem] is the umem of the caller, and of [rx] and [tx] it
    says which are there. *)
Record xsk_socket := Socket {
  has_rx : bool; has_tx : bool; outstanding_tx : Z; sk_config : Xsk.xsk_socket_config;
  sk_fd : Z; sk_ifindex : Z; prog_fd : Z; xsks_map_fd : Z; queue_id : Z; sk_ifname : string
}.

(** struct xdp_ring_offset and xdp_mmap_offsets, 64-bit words *)
Record xdp_ring_offset := RingOffset { o_producer : Z; o_consumer : Z; o_desc : Z; o_flags : Z }.
Record xdp_mmap_offsets := MmapOffsets {
  off_rx : xdp_ring_offset; off_tx : xdp_ring_offset; off_fr : xdp_ring_offset; off_cr : xdp_ring_offset
}.

(** struct xdp_umem_reg and sockaddr_xdp *)
Record xdp_umem_reg := UmemReg { mr_addr : Z; mr_len : Z; chunk_size : Z; headroom : Z; mr_flags : Z }.
Record sockaddr_xdp := SockaddrXdp {
  sxdp_flags : Z; sxdp_ifindex : Z; sxdp_queue_id : Z; sxdp_shared_umem_fd : Z
}.

Definition EPERM : Z := 1.
Definition ENOMEM : Z := 12.
Definition EFAULT : Z := 14.
Definition EOPNOTSUPP : Z := 95.
Definition XDP_SHARED_UMEM : Z := Z.shiftl 1 0.
Definition XDP_RX_RING : Z := 2.
Definition XDP_TX_RING : Z := 3.
Definition XDP_UMEM_FILL_RING : Z := 5.
Definition XDP_UMEM_COMPLETION_RING : Z := 6.
Definition XDP_PGOFF_RX_RING : Z := 0.
Definition XDP_PGOFF_TX_RING : Z := 0x80000000.
Definition XDP_UMEM_PGOFF_FILL_RING : Z := 0x100000000.
Definition XDP_UMEM_PGOFF_COMPLETION_RING : Z := 0x180000000.
Definition XSK_UMEM__DEFAULT_FRAME_HEADROOM : Z := 0.
Definition XSK_UMEM__DEFAULT_FLAGS : Z := 0.
Definition XSK_LIBBPF_FLAGS__INHIBIT_PROG_LOAD : Z := Z.shiftl 1 0.
(** sizes of __u64 and struct xdp_desc *)
Definition addr_size : Z := 8.
Definition desc_size : Z := 16.

Class XskSys (K : Type) := {
  errno : K → Z;
  xs_calloc : K → bool * K;
  xs_free : K → K;
  (** a socket of AF_XDP, and one of AF_INET *)
  xs_socket : K → Z * K;
  inet_socket : K → Z * K;
  xs_close : Z → K → K;
  umem_reg : Z → xdp_umem_reg → K → Z * K;
  (** [setsockopt(fd, SOL_XDP, option, &size, sizeof(size))] *)
  set_ring_size : Z → Z → Z → K → Z * K;
  (** XDP_MMAP_OFFSETS: error, length written in bytes, and the words *)
  mmap_offsets : Z → K → Z * Z * list Z * K;
  (** [mmap] of a length at an offset of a socket: the address, [None] for MAP_FAILED *)
  xs_mmap : Z → Z → Z → K → option Z * K;
  xs_munmap : Z → Z → K → K;
  xs_bind : Z → sockaddr_xdp → K → Z * K;
  xs_nametoindex : string → K → Z * K;
  (** SIOCETHTOOL: error, and max_combined *)
  ethtool_channels : Z → string → K → Z * Z * K;
  create_xskmap : Z → K → Z * K;
  load_xdp : list bpf_insn → K → Z * K;
  prog_get_fd_by_id : Z → K → Z * K;
  map_get_fd_by_id : Z → K → Z * K;
  (** [bpf_obj_get_info_by_fd] of a program, its maps, and of a map, its name *)
  prog_map_ids : Z → K → Z * list Z * K;
  map_info_name : Z → K → Z * string * K;
  map_update : Z → Z → Z → K → Z * K;
  map_delete : Z → Z → K → Z * K
}.

Definition xsk_umem__fd (umem : option xsk_umem) : Z := match umem with Some u => um_fd u | None => - EINVAL end.
Definition xsk_socket__fd (xsk : option xsk_socket) : Z := match xsk with Some s => sk_fd s | None => - EINVAL end.

Section xsk.
Context {K : Type} `{LinkOps K, XskSys K}.
Variable pagesize : Z.

Definition xsk_page_aligned (buffer : Z) : bool := Z.land buffer (pagesize - 1) =? 0.

Definition xsk_set_umem_config (usr_cfg : option xsk_umem_config) : xsk_umem_config :=
  match usr_cfg with
  | None => UmemConfig Xsk.XSK_RING_PROD__DEFAULT_NUM_DESCS Xsk.XSK_RING_CONS__DEFAULT_NUM_DESCS
              Xsk.XSK_UMEM__DEFAULT_FRAME_SIZE XSK_UMEM__DEFAULT_FRAME_HEADROOM XSK_UMEM__DEFAULT_FLAGS
  | Some c => c
  end.

(** The configuration, or the error. *)
Definition xsk_set_xdp_socket_config (usr_cfg : option Xsk.xsk_socket_config) : Xsk.xsk_socket_config + Z :=
  match usr_cfg with
  | None => inl (Xsk.XskCfg Xsk.XSK_RING_CONS__DEFAULT_NUM_DESCS Xsk.XSK_RING_PROD__DEFAULT_NUM_DESCS 0 0 0)
  | Some c =>
    if negb (Z.land (Xsk.libbpf_flags c) (u32 (Z.lnot XSK_LIBBPF_FLAGS__INHIBIT_PROG_LOAD)) =? 0) then inr (- EINVAL)
    else inl c
  end.

(** ** The offsets of the rings *)

(** Since Linux 5.4: four words for each ring. *)
Definition offsets_of_words (w : list Z) : option xdp_mmap_offsets :=
  match w with
  | [a1; a2; a3; a4; b1; b2; b3; b4; c1; c2; c3; c4; d1; d2; d3; d4] =>
      Some (MmapOffsets (RingOffset a1 a2 a3 a4) (RingOffset b1 b2 b3 b4)
                        (RingOffset c1 c2 c3 c4) (RingOffset d1 d2 d3 d4))
  | _ => None
  end.

(** Before: three, and the flags behind the consumer. *)
Definition xsk_mmap_offsets_v1 (w : list Z) : option xdp_mmap_offsets :=
  let ring p c d := RingOffset p c d (u64 (c + 4)) in
  match w with
  | [a1; a2; a3; b1; b2; b3; c1; c2; c3; d1; d2; d3] =>
      Some (MmapOffsets (ring a1 a2 a3) (ring b1 b2 b3) (ring c1 c2 c3) (ring d1 d2 d3))
  | _ => None
  end.

Definition xsk_get_mmap_offsets (fd : Z) : io K (Z * option xdp_mmap_offsets) :=
  '(err, optlen, words) ← call (mmap_offsets fd);
  if negb (err =? 0) then mret (err, None)
  else if optlen =? 128 then mret (0, offsets_of_words words)
  else if optlen =? 96 then mret (0, xsk_mmap_offsets_v1 words)
  else mret (- EINVAL, None).

(** A ring over a mapping at [map]; the producer rings set [cached_cons], too. *)
Definition lay_ring (map size : Z) (o : xdp_ring_offset) (cached_cons : option Z) (r : ring_struct) : ring_struct :=
  RingStruct (rs_cached_prod r) (default (rs_cached_cons r) cached_cons) (u32 (size - 1)) size
    (map + o_producer o) (map + o_consumer o) (map + o_desc o) (map + o_flags o).

(** The length of the mapping of a ring. *)
Definition ring_len (o : xdp_ring_offset) (size entry : Z) : Z := o_desc o + size * entry.

(** ** Umems *)

(** The ends of [xsk_umem__create]: the jumps to [out_umem_alloc] and [out_socket]. *)
Definition umem_result : Type := Z * option (xsk_umem * ring_struct * ring_struct).
Definition out_umem_alloc (err : Z) : io K umem_result := _ ← run xs_free; mret (err, None).
Definition out_umem_socket (fd err : Z) : io K umem_result := _ ← run (xs_close fd); out_umem_alloc err.
(** [err = -errno; goto ...] *)
Definition fail_errno {A} (out : Z → io K A) : io K A := e ← ask errno; out (- e).

(** [fill] and [comp] are the structs of the caller, [None] for NULL. *)
Definition xsk_umem__create (umem_area size : Z) (fill comp : option ring_struct)
    (usr_config : option xsk_umem_config) : io K umem_result :=
  match fill, comp with
  | Some fill, Some comp =>
    if umem_area =? 0 then mret (- EFAULT, None)
    else if (size =? 0) && negb (xsk_page_aligned umem_area) then mret (- EINVAL, None)
    else
      ok ← call xs_calloc;
      if negb ok then mret (- ENOMEM, None)
      else
        fd ← call xs_socket;
        if fd <? 0 then fail_errno out_umem_alloc
        else
          let config := xsk_set_umem_config usr_config in
          err ← call (umem_reg fd (UmemReg umem_area size (frame_size config) (frame_headroom config) (umem_flags config)));
          if negb (err =? 0) then fail_errno (out_umem_socket fd)
          else
            err ← call (set_ring_size fd XDP_UMEM_FILL_RING (fill_size config));
            if negb (err =? 0) then fail_errno (out_umem_socket fd)
            else
              err ← call (set_ring_size fd XDP_UMEM_COMPLETION_RING (comp_size config));
              if negb (err =? 0) then fail_errno (out_umem_socket fd)
              else
                '(err, off) ← xsk_get_mmap_offsets fd;
                if negb (err =? 0) then fail_errno (out_umem_socket fd)
                else
                  off ← pure_res (or_fault off OutOfBounds);
                  let fill_len := ring_len (off_fr off) (fill_size config) addr_size in
                  map ← call (xs_mmap fd fill_len XDP_UMEM_PGOFF_FILL_RING);
                  match map with
                  | None => fail_errno (out_umem_socket fd)
                  | Some fill_map =>
                    let fill := lay_ring fill_map (fill_size config) (off_fr off) (Some (fill_size config)) fill in
                    map ← call (xs_mmap fd (ring_len (off_cr off) (comp_size config) addr_size)
                                  XDP_UMEM_PGOFF_COMPLETION_RING);
                    match map with
                    | None =>
                      (** [map] is MAP_FAILED here *)
                      fail_errno (λ err, _ ← run (xs_munmap (-1) fill_len); out_umem_socket fd err)
                    | Some comp_map =>
                      let comp := lay_ring comp_map (comp_size config) (off_cr off) None comp in
                      mret (0, Some (Umem umem_area config fd 0, fill, comp))
                    end
                  end
  | _, _ => mret (- EFAULT, None)
  end.

(** struct xsk_umem_config_v1 has no flags. *)
Definition xsk_umem__create_v0_0_2 (umem_area size : Z) (fill comp : option ring_struct)
    (usr_config : xsk_umem_config) : io K umem_result :=
  let config := UmemConfig (fill_size usr_config) (comp_size usr_config) (frame_size usr_config)
                  (frame_headroom usr_config) 0 in
  xsk_umem__create umem_area size fill comp (Some config).

(** [fill] and [comp] are what [umem->fill] and [umem->comp] point to. *)
Definition xsk_umem__delete (umem : option xsk_umem) (fill comp : ring_struct) : io K Z :=
  match umem with
  | None => mret 0
  | Some umem =>
    if negb (refcount umem =? 0) then mret (- EBUSY)
    else
      '(err, off) ← xsk_get_mmap_offsets (um_fd umem);
      _ ← (if err =? 0 then
             off ← pure_res (or_fault off OutOfBounds);
             _ ← run (xs_munmap (rs_ring fill - o_desc (off_fr off))
                        (ring_len (off_fr off) (fill_size (um_config umem)) addr_size));
             run (xs_munmap (rs_ring comp - o_desc (off_cr off))
                    (ring_len (off_cr off) (comp_size (um_config umem)) addr_size))
           else mret tt);
      _ ← run (xs_close (um_fd umem));
      _ ← run xs_free;
      mret 0
  end.

(** ** The program and the map of a socket *)

Definition with_fds (prog map : Z) (s : xsk_socket) : xsk_socket :=
  Socket (has_rx s) (has_tx s) (outstanding_tx s) (sk_config s) (sk_fd s) (sk_ifindex s) prog map
    (queue_id s) (sk_ifname s).

Definition xsk_load_xdp_prog (xsk : xsk_socket) : io K (Z * xsk_socket) :=
  prog_fd ← call (load_xdp (prog (xsks_map_fd xsk)));
  if prog_fd <? 0 then mret (prog_fd, xsk)
  else
    err ← call (bpf_set_link_xdp_fd (sk_ifindex xsk) prog_fd (Xsk.cfg_xdp_flags (sk_config xsk)));
    if negb (err =? 0) then _ ← run (xs_close prog_fd); mret (err, xsk)
    else mret (0, with_fds prog_fd (xsks_map_fd xsk) xsk).

Definition xsk_get_max_queues (xsk : xsk_socket) : io K Z :=
  fd ← call inet_socket;
  if fd <? 0 then e ← ask errno; mret (- e)
  else
    '(err, max_combined) ← call (ethtool_channels fd (sk_ifname xsk));
    e ← ask errno;
    let ret := if negb (err =? 0) && negb (e =? EOPNOTSUPP) then - e
               else if negb (err =? 0) || (max_combined =? 0) then 1
               else s32 max_combined in
    _ ← run (xs_close fd);
    mret ret.

Definition xsk_create_bpf_maps (xsk : xsk_socket) : io K (Z * xsk_socket) :=
  max_queues ← xsk_get_max_queues xsk;
  if max_queues <? 0 then mret (max_queues, xsk)
  else
    fd ← call (create_xskmap max_queues);
    if fd <? 0 then mret (fd, xsk) else mret (0, with_fds (prog_fd xsk) fd xsk).

Definition xsk_delete_bpf_maps (xsk : xsk_socket) : io K unit :=
  _ ← call (map_delete (xsks_map_fd xsk) (queue_id xsk));
  run (xs_close (xsks_map_fd xsk)).

(** One round of the loop over the ids: the map's descriptor so far. *)
Definition lookup_map (id : Z) (found : Z) : io K Z :=
  fd ← call (map_get_fd_by_id id);
  if fd <? 0 then mret found
  else
    '(err, name) ← call (map_info_name fd);
    if negb (err =? 0) then _ ← run (xs_close fd); mret found
    else if String.eqb name "xsks_map" then mret fd
    else _ ← run (xs_close fd); mret found.

(** [map_ids] has room for the ids of the first answer. *)
Definition xsk_lookup_bpf_maps (xsk : xsk_socket) : io K (Z * xsk_socket) :=
  '(err, ids) ← call (prog_map_ids (prog_fd xsk));
  if negb (err =? 0) then mret (err, xsk)
  else
    let num_maps := length ids in
    ok ← call xs_calloc;
    if negb ok then mret (- ENOMEM, xsk)
    else
      '(err, ids) ← call (prog_map_ids (prog_fd xsk));
      if negb (err =? 0) then _ ← run xs_free; mret (err, xsk)
      else
        _ ← pure_res (if (length ids <=? num_maps)%nat then Ok tt else Err OutOfBounds);
        fd ← for_each ids lookup_map (-1);
        let err := if fd =? -1 then - ENOENT else 0 in
        _ ← run xs_free;
        mret (err, with_fds (prog_fd xsk) fd xsk).

Definition xsk_set_bpf_maps (xsk : xsk_socket) : io K Z :=
  call (map_update (xsks_map_fd xsk) (queue_id xsk) (sk_fd xsk)).

(** The two ways to a program and a map: made here, or of the program that is there. *)
Definition make_xdp_prog (xsk : xsk_socket) : io K (Z * xsk_socket) :=
  '(err, xsk) ← xsk_create_bpf_maps xsk;
  if negb (err =? 0) then mret (err, xsk)
  else
    '(err, xsk) ← xsk_load_xdp_prog xsk;
    if negb (err =? 0) then _ ← xsk_delete_bpf_maps xsk; mret (err, xsk) else mret (0, xsk).
Definition find_xdp_prog (prog_id : Z) (xsk : xsk_socket) : io K (Z * xsk_socket) :=
  fd ← call (prog_get_fd_by_id prog_id);
  let xsk := with_fds fd (xsks_map_fd xsk) xsk in
  if fd <? 0 then e ← ask errno; mret (- e, xsk)
  else
    '(err, xsk) ← xsk_lookup_bpf_maps xsk;
    if negb (err =? 0) then _ ← run (xs_close (prog_fd xsk)); mret (err, xsk) else mret (0, xsk).

Definition xsk_setup_xdp_prog (xsk : xsk_socket) : io K (Z * xsk_socket) :=
  '(err, prog_id) ← call (bpf_get_link_xdp_id (sk_ifindex xsk) (Xsk.cfg_xdp_flags (sk_config xsk)));
  if negb (err =? 0) then mret (err, xsk)
  else
    '(err, xsk) ← (if prog_id =? 0 then make_xdp_prog xsk else find_xdp_prog prog_id xsk);
    if negb (err =? 0) then mret (err, xsk)
    else
      err ← (if has_rx xsk then xsk_set_bpf_maps xsk else mret 0);
      if negb (err =? 0) then
        _ ← xsk_delete_bpf_maps xsk;
        _ ← run (xs_close (prog_fd xsk));
        mret (err, xsk)
      else mret (0, xsk).

(** ** Sockets *)

Definition with_refcount (n : Z) (u : xsk_umem) : xsk_umem := Umem (umem_area u) (um_config u) (um_fd u) n.

(** What [xsk_socket__create] leaves: the error, the umem, and the socket and its rings. *)
Definition socket_result : Type :=
  Z * xsk_umem * option (xsk_socket * option ring_struct * option ring_struct).

(** The jumps to the labels; [rx_map] and [tx_map] are the mappings there are. *)
Definition out_xsk_alloc (umem : xsk_umem) (err : Z) : io K socket_result :=
  _ ← run xs_free; mret (err, umem, None).
Definition out_socket (umem : xsk_umem) (fd err : Z) : io K socket_result :=
  let umem := with_refcount (s32 (refcount umem - 1)) umem in
  _ ← (if negb (refcount umem =? 0) then run (xs_close fd) else mret tt);
  out_xsk_alloc umem err.
Definition unmap (m : option (Z * Z)) : io K unit :=
  match m with Some (a, len) => run (xs_munmap a len) | None => mret tt end.
Definition out_mmap_rx (rx_map : option (Z * Z)) (umem : xsk_umem) (fd err : Z) : io K socket_result :=
  _ ← unmap rx_map; out_socket umem fd err.
Definition out_mmap_tx (tx_map rx_map : option (Z * Z)) (umem : xsk_umem) (fd err : Z) : io K socket_result :=
  _ ← unmap tx_map; out_mmap_rx rx_map umem fd err.

(** A ring of the kernel's, made when the caller wants it. *)
Definition size_ring (r : option ring_struct) (fd option size : Z) : io K Z :=
  match r with Some _ => call (set_ring_size fd option size) | None => mret 0 end.
(** Its mapping: [None] when it fails, and the ring over it and what to unmap. *)
Definition map_ring (r : option ring_struct) (fd pgoff size : Z) (o : xdp_ring_offset) (cached_cons : option Z) :
  io K (option (option ring_struct * option (Z * Z))) :=
  match r with
  | None => mret (Some (None, None))
  | Some r =>
    let len := ring_len o size desc_size in
    map ← call (xs_mmap fd len pgoff);
    match map with
    | None => mret None
    | Some a => mret (Some (Some (lay_ring a size o cached_cons r), Some (a, len)))
    end
  end.

Definition IFNAMSIZ : nat := 16.
Definition is_some {A} (o : option A) : bool := match o with Some _ => true | None => false end.

Section create.
(** [room] bytes can be read at [ifname]. *)
Variables (ifname : string) (room : nat) (queue : Z).

(** From the mappings on. *)
Definition bind_and_setup (umem : xsk_umem) (config : Xsk.xsk_socket_config) (fd ifindex : Z)
    (rx tx : option ring_struct) (rx_map tx_map : option (Z * Z)) : io K socket_result :=
  let shared := 1 <? refcount umem in
  err ← call (xs_bind fd (SockaddrXdp (if shared then XDP_SHARED_UMEM else Xsk.bind_flags config) ifindex queue
                           (if shared then um_fd umem else 0)));
  if negb (err =? 0) then fail_errno (out_mmap_tx tx_map rx_map umem fd)
  else
    let xsk := Socket (is_some rx) (is_some tx) 0 config fd ifindex (-1) 0 queue (String.substring 0 (IFNAMSIZ - 1) ifname) in
    if Z.land (Xsk.libbpf_flags config) XSK_LIBBPF_FLAGS__INHIBIT_PROG_LOAD =? 0 then
      '(err, xsk) ← xsk_setup_xdp_prog xsk;
      if negb (err =? 0) then out_mmap_tx tx_map rx_map umem fd err
      else mret (0, umem, Some (xsk, rx, tx))
    else mret (0, umem, Some (xsk, rx, tx)).

Definition map_rings (umem : xsk_umem) (config : Xsk.xsk_socket_config) (fd ifindex : Z)
    (rx tx : option ring_struct) : io K socket_result :=
  '(err, off) ← xsk_get_mmap_offsets fd;
  if negb (err =? 0) then fail_errno (out_socket umem fd)
  else
    off ← pure_res (or_fault off OutOfBounds);
    r ← map_ring rx fd XDP_PGOFF_RX_RING (Xsk.rx_size config) (off_rx off) None;
    match r with
    | None => fail_errno (out_socket umem fd)
    | Some (rx, rx_map) =>
      t ← map_ring tx fd XDP_PGOFF_TX_RING (Xsk.tx_size config) (off_tx off) (Some (Xsk.tx_size config));
      match t with
      | None => fail_errno (out_mmap_rx rx_map umem fd)
      | Some (tx, tx_map) => bind_and_setup umem config fd ifindex rx tx rx_map tx_map
      end
    end.

(** From the descriptor on. *)
Definition create_on (umem : xsk_umem) (config : Xsk.xsk_socket_config) (fd : Z) (rx tx : option ring_struct) :
  io K socket_result :=
  ifindex ← call (xs_nametoindex ifname);
  if ifindex =? 0 then fail_errno (out_socket umem fd)
  else
    (** the [memcpy] of the name *)
    _ ← pure_res (if (room <? IFNAMSIZ - 1)%nat then Err OutOfBounds else Ok tt);
    err ← size_ring rx fd XDP_RX_RING (Xsk.rx_size config);
    if negb (err =? 0) then fail_errno (out_socket umem fd)
    else
      err ← size_ring tx fd XDP_TX_RING (Xsk.tx_size config);
      if negb (err =? 0) then fail_errno (out_socket umem fd)
      else map_rings umem config fd ifindex rx tx.

(** With the pointers that may not be NULL. *)
Definition create_for (umem : xsk_umem) (rx tx : option ring_struct) (usr_config : option Xsk.xsk_socket_config) :
  io K socket_result :=
  ok ← call xs_calloc;
  if negb ok then mret (- ENOMEM, umem, None)
  else
    match xsk_set_xdp_socket_config usr_config with
    | inr err => out_xsk_alloc umem err
    | inl config =>
      if negb (refcount umem =? 0) && (Z.land (Xsk.libbpf_flags config) XSK_LIBBPF_FLAGS__INHIBIT_PROG_LOAD =? 0)
      then out_xsk_alloc umem (- EBUSY)
      else
        let another := 0 <? refcount umem in
        let shared := with_refcount (s32 (refcount umem + 1)) umem in
        fd ← (if another then call xs_socket else mret (um_fd umem));
        if another && (fd <? 0) then fail_errno (out_xsk_alloc shared)
        else create_on shared config fd rx tx
    end.

Definition xsk_socket__create (umem : option xsk_umem) (rx tx : option ring_struct)
    (usr_config : option Xsk.xsk_socket_config) :
  io K (Z * option xsk_umem * option (xsk_socket * option ring_struct * option ring_struct)) :=
  match umem with
  | None => mret (- EFAULT, None, None)
  | Some umem =>
    if negb (is_some rx || is_some tx) then mret (- EFAULT, Some umem, None)
    else '(err, umem, s) ← create_for umem rx tx usr_config; mret (err, Some umem, s)
  end.
End create.

(** [rx] and [tx] are what the socket's pointers point to. *)
Definition xsk_socket__delete (xsk : option xsk_socket) (umem : xsk_umem) (rx tx : ring_struct) : io K xsk_umem :=
  match xsk with
  | None => mret umem
  | Some xsk =>
    _ ← (if negb (prog_fd xsk =? -1) then
           _ ← xsk_delete_bpf_maps xsk; run (xs_close (prog_fd xsk))
         else mret tt);
    '(err, off) ← xsk_get_mmap_offsets (sk_fd xsk);
    _ ← (if err =? 0 then
           off ← pure_res (or_fault off OutOfBounds);
           _ ← (if has_rx xsk then
                  run (xs_munmap (rs_ring rx - o_desc (off_rx off)) (ring_len (off_rx off) (Xsk.rx_size (sk_config xsk)) desc_size))
                else mret tt);
           if has_tx xsk then
             run (xs_munmap (rs_ring tx - o_desc (off_tx off)) (ring_len (off_tx off) (Xsk.tx_size (sk_config xsk)) desc_size))
           else mret tt
         else mret tt);
    let umem := with_refcount (s32 (refcount umem - 1)) umem in
    _ ← (if negb (sk_fd xsk =? um_fd umem) then run (xs_close (sk_fd xsk)) else mret tt);
    _ ← run xs_free;
    mret umem
  end.
End xsk.
