(* ===== verification/XskLibProps.v ===== *)
(** * Properties of the umems and sockets of libbpf

    Under [XskLaws], what the calls take and give back: on every path of the creates
    nothing is left behind but what is listed, what the deletes release is what
    the creates took, and a socket made with a receive ring gets the packets of its
    queue. *)

From S2P Require Import Prelude Io Config Loader XskRing XskSpec DefaultProg XskLib.
From S2P Require Xsk.

(** ** What a process holds *)

(** Open descriptors, mappings, and blocks of memory. *)
Record holding := Holding { h_fds : gset Z; h_maps : gset (Z * Z); h_blocks : Z }.

Definition h_open (fd : Z) (h : holding) : holding := Holding ({[fd]} ∪ h_fds h) (h_maps h) (h_blocks h).
Definition h_close (fd : Z) (h : holding) : holding := Holding (h_fds h ∖ {[fd]}) (h_maps h) (h_blocks h).
Definition h_map (m : Z * Z) (h : holding) : holding := Holding (h_fds h) ({[m]} ∪ h_maps h) (h_blocks h).
Definition h_unmap (m : Z * Z) (h : holding) : holding := Holding (h_fds h) (h_maps h ∖ {[m]}) (h_blocks h).
Definition h_alloc (n : Z) (h : holding) : holding := Holding (h_fds h) (h_maps h) (h_blocks h + n).

Lemma close_open fd h : fd ∉ h_fds h → h_close fd (h_open fd h) = h.
Proof. destruct h. unfold h_close, h_open. cbn. intros. f_equal. set_solver. Qed.
Lemma unmap_map m h : m ∉ h_maps h → h_unmap m (h_map m h) = h.
Proof. destruct h. unfold h_unmap, h_map. cbn. intros. f_equal. set_solver. Qed.
Lemma unmap_under m n h : m ≠ n → m ∉ h_maps h → h_unmap m (h_map n (h_map m h)) = h_map n h.
Proof. destruct h. unfold h_unmap, h_map. cbn. intros. f_equal. set_solver. Qed.
Lemma alloc_alloc a b h : h_alloc a (h_alloc b h) = h_alloc (a + b) h.
Proof. destruct h. unfold h_alloc. cbn. f_equal. lia. Qed.
Lemma alloc_0 h : h_alloc 0 h = h.
Proof. destruct h. unfold h_alloc. cbn. f_equal. lia. Qed.

(** The operations on different resources commute. *)
Lemma alloc_open n fd h : h_alloc n (h_open fd h) = h_open fd (h_alloc n h).
Proof. done. Qed.
Lemma alloc_close n fd h : h_alloc n (h_close fd h) = h_close fd (h_alloc n h).
Proof. done. Qed.
Lemma alloc_map n m h : h_alloc n (h_map m h) = h_map m (h_alloc n h).
Proof. done. Qed.
Lemma alloc_unmap n m h : h_alloc n (h_unmap m h) = h_unmap m (h_alloc n h).
Proof. done. Qed.
Lemma map_open m fd h : h_map m (h_open fd h) = h_open fd (h_map m h).
Proof. done. Qed.
Lemma unmap_open m fd h : h_unmap m (h_open fd h) = h_open fd (h_unmap m h).
Proof. done. Qed.
Lemma close_map m fd h : h_close fd (h_map m h) = h_map m (h_close fd h).
Proof. done. Qed.
Lemma close_unmap m fd h : h_close fd (h_unmap m h) = h_unmap m (h_close fd h).
Proof. done. Qed.

(** ** What the calls do *)

Class XskLaws (K : Type) `{LinkOps K, XskSys K} := {
  held : K → holding;
  (** an entry of a map, by descriptor and queue; the text of a program, by descriptor;
      and the program of an interface *)
  entry : K → Z → Z → option Z;
  text : K → Z → option (list bpf_insn);
  attached : K → Z → option (list bpf_insn);
  (** the name of a map, by id *)
  map_name : Z → string;
  fails (k : K) : Prop := 0 < errno k;
  (** a call that gives a new descriptor or fails *)
  gives_fd (k : K) (fd : Z) (k' : K) : Prop :=
    if fd <? 0 then held k' = held k else fd ∉ h_fds (held k) ∧ held k' = h_open fd (held k);
  errno_law k : 0 ≤ errno k;
  calloc_law k : let '(ok, k') := xs_calloc k in held k' = if (ok : bool) then h_alloc 1 (held k) else held k;
  free_law k : held (xs_free k) = h_alloc (-1) (held k);
  socket_law k : let '(fd, k') := xs_socket k in gives_fd k fd k' ∧ (fd < 0 → fails k');
  inet_law k : let '(fd, k') := inet_socket k in gives_fd k fd k' ∧ (fd < 0 → fails k');
  close_law fd k : held (xs_close fd k) = h_close fd (held k);
  reg_law fd r k : let '(err, k') := umem_reg fd r k in held k' = held k ∧ (err ≠ 0 → fails k');
  size_law fd o n k : let '(err, k') := set_ring_size fd o n k in held k' = held k ∧ (err ≠ 0 → fails k');
  offsets_law fd k : let '(err, optlen, words, k') := mmap_offsets fd k in
    held k' = held k ∧ (err = 0 → optlen = 8 * Z.of_nat (length words)) ∧ (err ≠ 0 → fails k');
  mmap_law fd len off k : let '(a, k') := xs_mmap fd len off k in
    match a with
    | Some a => 0 ≤ a ∧ (a, len) ∉ h_maps (held k) ∧ held k' = h_map (a, len) (held k)
    | None => held k' = held k ∧ fails k'
    end;
  munmap_law a len k : held (xs_munmap a len k) = if 0 <=? a then h_unmap (a, len) (held k) else held k;
  bind_law fd sa k : let '(err, k') := xs_bind fd sa k in held k' = held k ∧ (err ≠ 0 → fails k');
  name_law nm k : let '(i, k') := xs_nametoindex nm k in held k' = held k ∧ (i = 0 → fails k');
  ethtool_law fd nm k : let '(err, _, k') := ethtool_channels fd nm k in held k' = held k ∧ (err ≠ 0 → fails k');
  xskmap_law n k : let '(fd, k') := create_xskmap n k in gives_fd k fd k';
  load_law p k : let '(fd, k') := load_xdp p k in gives_fd k fd k' ∧ (0 ≤ fd → text k' fd = Some p);
  set_link_law i fd f k : let '(err, k') := bpf_set_link_xdp_fd i fd f k in
    held k' = held k ∧ err ≤ 0 ∧ (err = 0 → attached k' i = text k fd);
  get_link_law i f k : let '(err, _, k') := bpf_get_link_xdp_id i f k in held k' = held k ∧ err ≤ 0;
  prog_fd_law id k : let '(fd, k') := prog_get_fd_by_id id k in gives_fd k fd k' ∧ (fd < 0 → fails k');
  map_fd_law id k : let '(fd, k') := map_get_fd_by_id id k in gives_fd k fd k' ∧
    (0 ≤ fd → let '(err, name, _) := map_info_name fd k' in err = 0 → name = map_name id);
  (** the maps of a program do not change *)
  ids_law fd k : let '(err, ids, k') := prog_map_ids fd k in
    held k' = held k ∧ err ≤ 0 ∧
    (let '(err2, ids2, _) := prog_map_ids fd (xs_calloc k').2 in err2 = 0 → length ids2 = length ids);
  info_law fd k : let '(_, _, k') := map_info_name fd k in held k' = held k;
  update_law m q fd k : let '(err, k') := map_update m q fd k in
    held k' = held k ∧ err ≤ 0 ∧ (∀ i, attached k' i = attached k i) ∧ (err = 0 → entry k' m q = Some fd);
  delete_law m q k : let '(_, k') := map_delete m q k in held k' = held k
}.

(** Of the maps of a program at most one has the name xsks_map.  The kernel allows
    more, and then libbpf keeps a descriptor of each but loses all but the last. *)
Definition one_xsks_map (K : Type) `{XskLaws K} : Prop :=
  ∀ fd (k : K), let '(_, ids, _) := prog_map_ids fd k in
    (length (filter (λ id, map_name id = "xsks_map"%string) ids) ≤ 1)%nat.

Section laws.
Context {K : Type} {LO : LinkOps K} {XS : XskSys K} {XL : XskLaws K}.
Implicit Types k : K.

(** ** The rules of the calls *)

Lemma wp_calloc (Q : res bool → K → Prop) k :
  (∀ k', held k' = held k → Q (Ok false) k') → (∀ k', held k' = h_alloc 1 (held k) → Q (Ok true) k') →
  wp (call xs_calloc) Q k.
Proof. intros Hf Ht. apply wp_call. intros ok k' E. pose proof (calloc_law k) as Hl. rewrite E in Hl. destruct ok; auto. Qed.

(** A call for a descriptor, under its law. *)
Lemma wp_fd (f : K → Z * K) (Q : res Z → K → Prop) k :
  (let '(fd, k') := f k in gives_fd k fd k' ∧ (fd < 0 → fails k')) →
  (∀ fd k', fd < 0 → held k' = held k → fails k' → Q (Ok fd) k') →
  (∀ fd k', 0 ≤ fd → fd ∉ h_fds (held k) → held k' = h_open fd (held k) → Q (Ok fd) k') →
  wp (call f) Q k.
Proof.
  intros Hl Hf Ht. apply wp_call. intros fd k' E. rewrite E in Hl. destruct Hl as [Hg He]. unfold gives_fd in Hg.
  destruct (Z.ltb_spec fd 0); [by apply Hf; [|done|apply He]|]. destruct Hg. by apply Ht.
Qed.

(** A call that leaves an error, with what it returned. *)
Lemma wp_err_eq (f : K → Z * K) (Q : res Z → K → Prop) k :
  (let '(err, k') := f k in held k' = held k ∧ (err ≠ 0 → fails k')) →
  (∀ err k', err ≠ 0 → held k' = held k → fails k' → Q (Ok err) k') →
  (∀ k', f k = (0, k') → held k' = held k → Q (Ok 0) k') →
  wp (call f) Q k.
Proof.
  intros Hl Hf Ht. apply wp_call. intros err k' E. rewrite E in Hl. destruct Hl as [Hh He].
  destruct (decide (err = 0)) as [->|Hne]; [by apply Ht|]. by apply Hf; [|done|apply He].
Qed.
Lemma wp_err (f : K → Z * K) (Q : res Z → K → Prop) k :
  (let '(err, k') := f k in held k' = held k ∧ (err ≠ 0 → fails k')) →
  (∀ err k', err ≠ 0 → held k' = held k → fails k' → Q (Ok err) k') →
  (∀ k', held k' = held k → Q (Ok 0) k') →
  wp (call f) Q k.
Proof. intros Hl Hf Ht. apply wp_err_eq; auto. Qed.

Lemma wp_mmap_eq fd len off (Q : res (option Z) → K → Prop) k :
  (∀ k', held k' = held k → fails k' → (xs_mmap fd len off k).1 = None → Q (Ok None) k') →
  (∀ a k', xs_mmap fd len off k = (Some a, k') →
     0 ≤ a → (a, len) ∉ h_maps (held k) → held k' = h_map (a, len) (held k) → Q (Ok (Some a)) k') →
  wp (call (xs_mmap fd len off)) Q k.
Proof.
  intros Hf Ht. apply wp_call. intros a k' E. pose proof (mmap_law fd len off k) as Hl. rewrite E in Hl, Hf.
  destruct a as [a|]; [destruct Hl as (? & ? & ?); by apply Ht|]. destruct Hl. by apply Hf.
Qed.
Lemma wp_mmap fd len off (Q : res (option Z) → K → Prop) k :
  (∀ k', held k' = held k → fails k' → (xs_mmap fd len off k).1 = None → Q (Ok None) k') →
  (∀ a k', 0 ≤ a → (a, len) ∉ h_maps (held k) → held k' = h_map (a, len) (held k) → Q (Ok (Some a)) k') →
  wp (call (xs_mmap fd len off)) Q k.
Proof. intros Hf Ht. apply wp_mmap_eq; auto. Qed.

(** The offsets: an error that is in [errno]; offsets; or an answer of another size,
    an error that is not. *)
Definition other_size (fd : Z) k : Prop :=
  let '(err, optlen, _, k') := mmap_offsets fd k in err = 0 ∧ optlen ≠ 128 ∧ optlen ≠ 96.
Definition offsets_read (fd : Z) (off : xdp_mmap_offsets) : Prop :=
  ∃ k1 k2, xsk_get_mmap_offsets fd k1 = (Ok (0, Some off), k2).
Lemma wp_offsets_eq fd (Q : res (Z * option xdp_mmap_offsets) → K → Prop) k :
  (∀ err k', err ≠ 0 → held k' = held k → (fails k' ∨ other_size fd k) → Q (Ok (err, None)) k') →
  (∀ off k', xsk_get_mmap_offsets fd k = (Ok (0, Some off), k') → held k' = held k → Q (Ok (0, Some off)) k') →
  wp (xsk_get_mmap_offsets fd) Q k.
Proof.
  intros Hf Ht. revert Ht. unfold xsk_get_mmap_offsets, wp, call, mbind, io_bind, other_size in *.
  pose proof (offsets_law fd k) as Hl. destruct (mmap_offsets fd k) as [[[err optlen] words] k'].
  destruct Hl as (Hh & Hlen & He). destruct (Z.eqb_spec err 0) as [->|Hne]; cbn [negb]; intros Ht'.
  2: { apply Hf; [done|done|left; by apply He]. }
  specialize (Hlen eq_refl). destruct (Z.eqb_spec optlen 128) as [->|H128].
  { assert (length words = 16%nat) as Hw by lia. do 17 (destruct words as [|? words]; try discriminate Hw). by apply Ht'. }
  destruct (Z.eqb_spec optlen 96) as [->|H96].
  { assert (length words = 12%nat) as Hw by lia. do 13 (destruct words as [|? words]; try discriminate Hw). by apply Ht'. }
  apply Hf; [done|done|]. by right.
Qed.
Lemma wp_offsets fd (Q : res (Z * option xdp_mmap_offsets) → K → Prop) k :
  (∀ err k', err ≠ 0 → held k' = held k → (fails k' ∨ other_size fd k) → Q (Ok (err, None)) k') →
  (∀ off k', offsets_read fd off → held k' = held k → Q (Ok (0, Some off)) k') →
  wp (xsk_get_mmap_offsets fd) Q k.
Proof. intros Hf Ht. apply wp_offsets_eq; [done|]. intros off k' E. apply Ht. by exists k, k'. Qed.
(** ** Umems *)

(** An error; 0 only after offsets of another size. *)
Definition error_code (err : Z) : Prop := err < 0 ∨ (err = 0 ∧ ∃ fd k1, other_size fd k1).

Lemma errno_code k fd k1 : fails k ∨ other_size fd k1 → error_code (- errno k).
Proof.
  intros [Hf|Ho]; [left; unfold fails in Hf; lia|]. pose proof (errno_law k).
  destruct (decide (errno k = 0)) as [E|]; [right; rewrite E; eauto|left; lia].
Qed.

Lemma fails_code k : fails k → error_code (- errno k).
Proof. intros Hf. left. unfold fails in Hf. lia. Qed.

(** The fill ring was mapped at [m], and then the completion ring could not be. *)
Definition comp_map_fails (m : Z * Z) : Prop :=
  ∃ fd len k1 k2, xs_mmap fd m.2 XDP_UMEM_PGOFF_FILL_RING k1 = (Some m.1, k2) ∧
    (xs_mmap fd len XDP_UMEM_PGOFF_COMPLETION_RING k2).1 = None.

Section umem.
Context (pagesize area size : Z) (usr_config : option xsk_umem_config) (fill comp : ring_struct) (k0 : K).
Let config := xsk_set_umem_config usr_config.

(** A umem, with what was taken for it and the rings over the two mappings. *)
Definition umem_made (um : xsk_umem) (f c : ring_struct) (h : holding) : Prop :=
  ∃ off fd m1 m2,
    let l1 := ring_len (off_fr off) (fill_size config) addr_size in
    let l2 := ring_len (off_cr off) (comp_size config) addr_size in
    um = Umem area config fd 0 ∧ offsets_read fd off ∧ 0 ≤ fd ∧ fd ∉ h_fds (held k0) ∧
    0 ≤ m1 ∧ 0 ≤ m2 ∧ (m1, l1) ∉ h_maps (held k0) ∧ (m2, l2) ∉ {[(m1, l1)]} ∪ h_maps (held k0) ∧
    h = h_open fd (h_map (m2, l2) (h_map (m1, l1) (h_alloc 1 (held k0)))) ∧
    f = lay_ring m1 (fill_size config) (off_fr off) (Some (fill_size config)) fill ∧
    c = lay_ring m2 (comp_size config) (off_cr off) None comp.

Definition umem_outcome (r : res (umem_result)) (k' : K) : Prop :=
  ∃ err o, r = Ok (err, o) ∧
    match o with
    | Some (um, f, c) => err = 0 ∧ umem_made um f c (held k')
    | None => error_code err ∧
        (held k' = held k0 ∨ (∃ m, comp_map_fails m ∧ m ∉ h_maps (held k0) ∧ held k' = h_map m (held k0)))
    end.

Lemma umem_error err k' : error_code err → held k' = held k0 → umem_outcome (Ok (err, None)) k'.
Proof. intros He Hh. exists err, None. split; [done|]. split; [done|]. by left. Qed.

(** The jump to [out_socket] with an error. *)
Lemma umem_gives_up k fd :
  fd ∉ h_fds (held k0) → held k = h_open fd (h_alloc 1 (held k0)) → error_code (- errno k) →
  wp (fail_errno (out_umem_socket fd)) umem_outcome k.
Proof.
  intros Hfd Hh He. unfold fail_errno, out_umem_socket, out_umem_alloc. wp_steps.
  apply umem_error; [done|]. rewrite free_law, close_law, Hh, close_open by done.
  rewrite alloc_alloc. apply alloc_0.
Qed.

Lemma create_umem_spec :
  wp (xsk_umem__create pagesize area size (Some fill) (Some comp) usr_config) umem_outcome k0.
Proof.
  unfold xsk_umem__create. destruct (area =? 0); [apply wp_ret, umem_error; [by left|done]|].
  destruct ((size =? 0) && _); [apply wp_ret, umem_error; [by left|done]|].
  wp_step. apply wp_calloc; [intros k1 H1; apply wp_ret, umem_error; [by left|done]|]. intros k1 H1. cbn [negb].
  wp_step. apply wp_fd; [apply socket_law| |].
  { intros fd k2 Hneg H2 He. rewrite (proj2 (Z.ltb_lt _ _) Hneg). unfold fail_errno, out_umem_alloc. wp_steps.
    apply umem_error; [left; unfold fails in He; lia|]. rewrite free_law, H2, H1, alloc_alloc. apply alloc_0. }
  intros fd k2 Hpos Hfresh H2. rewrite H1 in Hfresh, H2. cbn [h_alloc h_fds] in Hfresh. rewrite (proj2 (Z.ltb_ge _ _) Hpos).
  wp_step. apply wp_err; [apply reg_law| |].
  { intros err k3 Hne H3 He. rewrite (proj2 (Z.eqb_neq _ _) Hne). apply umem_gives_up; [done|by rewrite H3, H2|by apply fails_code]. }
  intros k3 H3. cbn [Z.eqb negb]. wp_step. apply wp_err; [apply size_law| |].
  { intros err k4 Hne H4 He. rewrite (proj2 (Z.eqb_neq _ _) Hne). apply umem_gives_up; [done|by rewrite H4, H3, H2|by apply fails_code]. }
  intros k4 H4. cbn [Z.eqb negb]. wp_step. apply wp_err; [apply size_law| |].
  { intros err k5 Hne H5 He. rewrite (proj2 (Z.eqb_neq _ _) Hne). apply umem_gives_up; [done|by rewrite H5, H4, H3, H2|by apply fails_code]. }
  intros k5 H5. cbn [Z.eqb negb]. wp_step. apply wp_offsets.
  { intros err k6 Hne H6 He. rewrite (proj2 (Z.eqb_neq _ _) Hne). apply umem_gives_up; [done|by rewrite H6, H5, H4, H3, H2|by eapply errno_code]. }
  intros off k6 Hoff H6. cbn [Z.eqb negb or_fault]. wp_step. wp_step.
  assert (held k6 = h_open fd (h_alloc 1 (held k0))) as Hk6 by (by rewrite H6, H5, H4, H3, H2).
  wp_step. apply wp_mmap_eq. { intros k7 H7 He _. apply umem_gives_up; [done|by rewrite H7|by apply fails_code]. }
  intros m1 k7 Em1 Hm1 Hf1 H7. rewrite Hk6 in Hf1, H7. cbn [h_open h_alloc h_maps] in Hf1.
  wp_step. apply wp_mmap.
  - intros k8 H8 He Hnone. unfold fail_errno, out_umem_socket, out_umem_alloc. wp_steps. eexists _, None. split; [done|].
    split; [left; unfold fails in He; lia|]. right. exists (m1, ring_len (off_fr off) (fill_size (xsk_set_umem_config usr_config)) addr_size).
    split; [by eexists fd, _, k6, k7|]. split; [exact Hf1|]. rewrite free_law, close_law, munmap_law. cbn [Z.leb Z.compare]. rewrite H8, H7.
    by rewrite map_open, close_open, alloc_map, alloc_alloc, alloc_0 by done.
  - intros m2 k8 Hm2 Hf2 H8. apply wp_ret. eexists _, _. split; [done|]. split; [done|].
    exists off, fd, m1, m2. do 7 (split; [done|]).
    rewrite H7 in Hf2, H8. split; [exact Hf2|]. split; [exact H8|]. by split.
Qed.
End umem.
(** ** The program and the map of a socket *)

Lemma open_open a b h : h_open a (h_open b h) = h_open b (h_open a h).
Proof. destruct h. unfold h_open. cbn. f_equal. set_solver. Qed.

(** A call that changes nothing that is held. *)
Lemma wp_quiet {A} (f : K → A * K) (Q : res A → K → Prop) k :
  (let '(_, k') := f k in held k' = held k) →
  (∀ a k', f k = (a, k') → held k' = held k → Q (Ok a) k') → wp (call f) Q k.
Proof. intros Hl HQ. apply wp_call. intros a k' E. rewrite E in Hl. by apply HQ. Qed.

Section lookup.
Context (h : holding).

Definition named_xsks (l : list Z) : nat := length (filter (λ id, map_name id = "xsks_map"%string) l).

(** The loop over the maps of the program that is there: at most one is kept. *)
Definition lookup_inv (l : list Z) (found : Z) (k : K) : Prop :=
  (found = -1 ∧ held k = h ∧ (named_xsks l ≤ 1)%nat) ∨
  (0 ≤ found ∧ found ∉ h_fds h ∧ held k = h_open found h ∧ named_xsks l = 0%nat).

Lemma lookup_map_spec id l found k :
  lookup_inv (id :: l) found k →
  wp (lookup_map id found) (λ r k', ∃ found', r = Ok found' ∧ lookup_inv l found' k') k.
Proof.
  intros Hf. unfold lookup_inv, named_xsks in Hf. rewrite filter_cons in Hf. fold (named_xsks l) in Hf.
  assert (∀ k', held k' = held k → ∃ found', Ok found = Ok found' ∧ lookup_inv l found' k') as Hkeep.
  { intros k' Hk'. exists found. split; [done|]. unfold lookup_inv, named_xsks. rewrite Hk'.
    fold (named_xsks l). destruct (decide _) in Hf; cbn [length] in Hf; fold (named_xsks l) in Hf;
      (destruct Hf as [(? & ? & ?)|(? & ? & ? & ?)]; [left|right]); split_and!; try done; lia. }
  unfold lookup_map. wp_step. apply wp_call. intros fd k1 E1. pose proof (map_fd_law id k) as Hl. rewrite E1 in Hl.
  destruct Hl as [Hg Hname]. unfold gives_fd in Hg. destruct (Z.ltb_spec fd 0) as [Hneg|Hpos]; [apply wp_ret; by apply Hkeep|].
  destruct Hg as [Hfresh Hk1]. specialize (Hname Hpos). wp_step. apply wp_call. intros [err name] k2 E2.
  pose proof (info_law fd k1) as Hl. rewrite E2 in Hl, Hname.
  assert (held (xs_close fd k2) = held k) as Hclosed by (by rewrite close_law, Hl, Hk1, close_open).
  destruct (Z.eqb_spec err 0) as [->|Hne]; cbn [negb].
  2: { wp_step. wp_step. apply wp_ret. by apply Hkeep. }
  specialize (Hname eq_refl). destruct (String.eqb_spec name "xsks_map") as [->|Hx].
  2: { wp_step. wp_step. apply wp_ret. by apply Hkeep. }
  apply wp_ret. exists fd. split; [done|]. rewrite decide_True in Hf by done. cbn [length] in Hf.
  fold (named_xsks l) in Hf. destruct Hf as [(-> & Hk & Hn)|(_ & _ & _ & Hn)]; [|done]. right. rewrite Hl, Hk1, Hk. rewrite Hk in Hfresh.
  split_and!; try done. lia.
Qed.
End lookup.

Section program.
Context (h : holding) (xsk : xsk_socket).

(** A step of the set-up: an error and nothing kept, or what [P] says. *)
Definition step_outcome (P : xsk_socket → K → Prop) (r : res (Z * xsk_socket)) (k' : K) : Prop :=
  ∃ err s, r = Ok (err, s) ∧ ((err < 0 ∧ held k' = h ∧ prog_fd s = prog_fd xsk) ∨ (err = 0 ∧ P s k')).

Lemma step_error P err s k' : err < 0 → held k' = h → prog_fd s = prog_fd xsk → step_outcome P (Ok (err, s)) k'.
Proof. intros He Hh. exists err, s. split; [done|]. by left. Qed.

Lemma max_queues_spec k :
  held k = h → wp (xsk_get_max_queues xsk) (λ r k', (∃ n, r = Ok n) ∧ held k' = h) k.
Proof.
  intros Hh. unfold xsk_get_max_queues. wp_step. apply wp_fd; [apply inet_law| |].
  { intros fd k1 Hneg Hk1 _. rewrite (proj2 (Z.ltb_lt _ _) Hneg). wp_steps. split; [by eexists|]. by rewrite Hk1. }
  intros fd k1 Hpos Hfresh Hk1. rewrite (proj2 (Z.ltb_ge _ _) Hpos). wp_step. apply wp_call. intros [err mc] k2 E.
  pose proof (ethtool_law fd (sk_ifname xsk) k1) as Hl. rewrite E in Hl. destruct Hl as [Hk2 _]. wp_steps.
  split; [by eexists|]. rewrite close_law, Hk2, Hk1, close_open by done. done.
Qed.

(** The map of a socket that has its own. *)
Definition has_map (s : xsk_socket) (k' : K) : Prop :=
  ∃ mfd, s = with_fds (prog_fd xsk) mfd xsk ∧ 0 ≤ mfd ∧ mfd ∉ h_fds h ∧ held k' = h_open mfd h.

Lemma create_maps_spec k : held k = h → wp (xsk_create_bpf_maps xsk) (step_outcome has_map) k.
Proof.
  intros Hh. unfold xsk_create_bpf_maps. wp_step. eapply wp_mono; [by apply max_queues_spec|].
  intros r k1 [[n ->] Hk1]. destruct (Z.ltb_spec n 0); [apply wp_ret; by apply step_error|].
  wp_step. apply wp_call. intros fd k2 E. pose proof (xskmap_law n k1) as Hl. rewrite E in Hl. unfold gives_fd in Hl.
  destruct (Z.ltb_spec fd 0); [apply wp_ret, step_error; [done|by rewrite Hl|done]|].
  destruct Hl as [Hf Hk2]. apply wp_ret. eexists 0, _. split; [done|]. right. split; [done|]. exists fd.
  rewrite Hk1 in Hf, Hk2. done.
Qed.

Lemma delete_maps_spec s k (Q : res unit → K → Prop) :
  (∀ k', held k' = h_close (xsks_map_fd s) (held k) → Q (Ok tt) k') → wp (xsk_delete_bpf_maps s) Q k.
Proof.
  intros HQ. unfold xsk_delete_bpf_maps. wp_step. apply wp_quiet.
  { pose proof (delete_law (xsks_map_fd s) (queue_id s) k) as Hl. by destruct (map_delete _ _ k). }
  intros a k1 _ Hk1. wp_step. apply HQ. by rewrite close_law, Hk1.
Qed.

(** Map and program, of two new descriptors. *)
Definition has_prog (s : xsk_socket) (k' : K) : Prop :=
  ∃ mfd pfd, s = with_fds pfd mfd xsk ∧ 0 ≤ mfd ∧ 0 ≤ pfd ∧ mfd ∉ h_fds h ∧ pfd ∉ h_fds h ∧ mfd ≠ pfd ∧
    held k' = h_open pfd (h_open mfd h).
Definition made_prog (s : xsk_socket) (k' : K) : Prop :=
  has_prog s k' ∧ attached k' (sk_ifindex xsk) = Some (prog (xsks_map_fd s)).

Lemma make_prog_spec k : held k = h → wp (make_xdp_prog xsk) (step_outcome made_prog) k.
Proof.
  intros Hh. unfold make_xdp_prog. wp_step. eapply wp_mono; [by apply create_maps_spec|].
  intros r k1 (err & s & -> & [(He & Hk1 & Hsp)|[-> (mfd & -> & Hm & Hmf & Hk1)]]); cbn beta iota.
  { rewrite (proj2 (Z.eqb_neq err 0)) by lia. apply wp_ret. by apply step_error. }
  cbn [Z.eqb negb]. set (s := with_fds (prog_fd xsk) mfd xsk). wp_step. unfold xsk_load_xdp_prog.
  assert (∀ err k2, err < 0 → held k2 = h_open mfd h → wp
    (if negb (err =? 0) then _ ← xsk_delete_bpf_maps s; mret (err, s) else mret (0, s)) (step_outcome made_prog) k2) as Hgive.
  { intros err k2 He Hk2. rewrite (proj2 (Z.eqb_neq err 0)) by lia. cbn [negb]. wp_step. apply delete_maps_spec.
    intros k3 Hk3. apply wp_ret. apply step_error; [done| |done]. by rewrite Hk3, Hk2, close_open. }
  wp_step. apply wp_call. intros pfd k2 E. pose proof (load_law (prog (xsks_map_fd s)) k1) as Hl. rewrite E in Hl.
  destruct Hl as [Hl Ht]. unfold gives_fd in Hl. destruct (Z.ltb_spec pfd 0) as [Hp|Hp].
  { apply wp_ret. apply Hgive; [done|]. by rewrite Hl. }
  destruct Hl as [Hpf Hk2]. rewrite Hk1 in Hpf, Hk2. specialize (Ht Hp). wp_step. apply wp_call. intros err k3 E2.
  pose proof (set_link_law (sk_ifindex s) pfd (Xsk.cfg_xdp_flags (sk_config s)) k2) as Hl. rewrite E2 in Hl.
  destruct Hl as (Hk3 & Hneg & Hat). destruct (Z.eqb_spec err 0) as [->|Hne]; cbn [negb].
  2: { wp_step. wp_step. apply wp_ret. apply Hgive; [lia|]. by rewrite close_law, Hk3, Hk2, close_open. }
  apply wp_ret. cbn [Z.eqb negb]. apply wp_ret. eexists 0, _. split; [done|]. right. split; [done|]. split.
  - exists mfd, pfd. cbn [h_open h_fds] in Hpf. rewrite not_elem_of_union, not_elem_of_singleton in Hpf. destruct Hpf.
    split_and!; try done. by rewrite Hk3.
  - exact (eq_trans (Hat eq_refl) Ht).
Qed.

Lemma lookup_maps_spec k : one_xsks_map K → held k = h → wp (xsk_lookup_bpf_maps xsk) (step_outcome has_map) k.
Proof.
  intros Hone Hh. unfold xsk_lookup_bpf_maps. wp_step. apply wp_call. intros [err ids] k1 E1.
  pose proof (ids_law (prog_fd xsk) k) as Hl. rewrite E1 in Hl. destruct Hl as (Hk1 & Hneg & Hlen).
  destruct (Z.eqb_spec err 0) as [->|Hne]; cbn [negb]. 2: { apply wp_ret, step_error; [lia|by rewrite Hk1|done]. }
  wp_step. apply wp_call. intros ok k2 E2. pose proof (calloc_law k1) as Hl. rewrite E2 in Hl, Hlen. cbn [snd] in Hlen.
  destruct ok; cbn [negb]. 2: { apply wp_ret, step_error; [done| |done]. by rewrite Hl, Hk1. }
  wp_step. apply wp_call. intros [err2 ids2] k3 E3. pose proof (ids_law (prog_fd xsk) k2) as Hl2. rewrite E3 in Hl2, Hlen.
  destruct Hl2 as (Hk3 & Hneg2 & _). pose proof (Hone (prog_fd xsk) k2) as Hnd. rewrite E3 in Hnd.
  assert (held k3 = h_alloc 1 h) as Hh3 by (by rewrite Hk3, Hl, Hk1, Hh).
  destruct (Z.eqb_spec err2 0) as [->|Hne2]; cbn [negb].
  2: { wp_step. wp_step. apply wp_ret, step_error; [lia| |done]. by rewrite free_law, Hh3, alloc_alloc, alloc_0. }
  rewrite (proj2 (Nat.leb_le _ _)) by (by rewrite Hlen). wp_step. wp_step. wp_step.
  eapply wp_mono.
  { apply (wp_for_each (lookup_inv (h_alloc 1 h))).
    - intros id l found k' Hi. by apply lookup_map_spec.
    - by left. }
  intros r k4 (fd & -> & Hf). wp_steps.
  destruct Hf as [(-> & Hk4 & _)|(Hpos & Hfresh & Hk4 & _)].
  - apply step_error; [done| |done]. by rewrite free_law, Hk4, alloc_alloc, alloc_0.
  - rewrite (proj2 (Z.eqb_neq fd (-1))) by lia. eexists 0, _. split; [done|]. right. split; [done|]. exists fd.
    split; [done|]. split; [done|]. split; [done|]. by rewrite free_law, Hk4, alloc_open, alloc_alloc, alloc_0.
Qed.
End program.

(** The program of an interface that has one. *)
Lemma find_prog_spec h xsk id k :
  one_xsks_map K → held k = h → wp (find_xdp_prog id xsk) (λ r k', ∃ err s, r = Ok (err, s) ∧
    ((err < 0 ∧ held k' = h) ∨ (err = 0 ∧ has_prog h xsk s k'))) k.
Proof.
  intros Hone Hh. unfold find_xdp_prog. wp_step. apply wp_fd; [apply prog_fd_law| |].
  { intros fd k1 Hneg Hk1 He. rewrite (proj2 (Z.ltb_lt _ _) Hneg). wp_steps. eexists _, _. split; [done|]. left.
    split; [unfold fails in He; lia|by rewrite Hk1]. }
  intros fd k1 Hpos Hfresh Hk1. rewrite (proj2 (Z.ltb_ge _ _) Hpos). rewrite Hh in Hfresh, Hk1.
  wp_step. eapply wp_mono; [by apply (lookup_maps_spec (h_open fd h))|].
  intros r k2 (err & s & -> & [(He & Hk2 & Hsp)|[-> (mfd & -> & Hm & Hmf & Hk2)]]); cbn beta iota.
  - rewrite (proj2 (Z.eqb_neq err 0)) by lia. cbn [negb]. wp_steps. eexists _, _. split; [done|]. left. split; [done|].
    by rewrite close_law, Hk2, Hsp, close_open.
  - cbn [Z.eqb negb]. apply wp_ret. eexists 0, _. split; [done|]. right. split; [done|]. exists mfd, fd.
    cbn [h_open h_fds] in Hmf. rewrite not_elem_of_union, not_elem_of_singleton in Hmf. destruct Hmf as [Hne Hmf].
    split_and!; try done. by rewrite open_open.
Qed.

(** ** The set-up *)

(** What a set-up leaves: descriptors of a map and a program, the entry of the socket when it
    receives, and on an interface without a program the one libbpf brings, for this map. *)
Definition set_up (h : holding) (xsk : xsk_socket) (id : Z) (s : xsk_socket) (k' : K) : Prop :=
  has_prog h xsk s k' ∧
  (has_rx xsk = true → entry k' (xsks_map_fd s) (queue_id xsk) = Some (sk_fd xsk)) ∧
  (id = 0 → attached k' (sk_ifindex xsk) = Some (prog (xsks_map_fd s))).

Lemma setup_spec h xsk k :
  one_xsks_map K → held k = h →
  let '(_, id, _) := bpf_get_link_xdp_id (sk_ifindex xsk) (Xsk.cfg_xdp_flags (sk_config xsk)) k in
  wp (xsk_setup_xdp_prog xsk) (λ r k', ∃ err s, r = Ok (err, s) ∧
    ((err < 0 ∧ held k' = h) ∨ (err = 0 ∧ set_up h xsk id s k'))) k.
Proof.
  intros Hone Hh. destruct (bpf_get_link_xdp_id _ _ k) as [[e id] k1] eqn:E.
  pose proof (get_link_law (sk_ifindex xsk) (Xsk.cfg_xdp_flags (sk_config xsk)) k) as Hl. rewrite E in Hl. destruct Hl as [Hk1 He].
  unfold xsk_setup_xdp_prog. wp_step. apply wp_call. intros a k1' E'. rewrite E in E'. injection E' as <- <-.
  destruct (Z.eqb_spec e 0) as [->|Hne]; cbn [negb].
  2: { apply wp_ret. eexists _, _. split; [done|]. left. split; [lia|]. by rewrite Hk1. }
  wp_step. rewrite Hh in Hk1.
  assert (wp (if id =? 0 then make_xdp_prog xsk else find_xdp_prog id xsk) (λ r k', ∃ err s, r = Ok (err, s) ∧
    ((err < 0 ∧ held k' = h) ∨ (err = 0 ∧ has_prog h xsk s k' ∧
       (id = 0 → attached k' (sk_ifindex xsk) = Some (prog (xsks_map_fd s)))))) k1) as Hprog.
  { destruct (Z.eqb_spec id 0) as [->|Hid].
    - eapply wp_mono; [by apply make_prog_spec|]. intros r k2 (err & s & -> & [(? & ? & _)|[-> [Hp Ha]]]);
        eexists _, _; (split; [done|]); [by left|right; split; [done|]; split; [exact Hp|by intros _]].
    - eapply wp_mono; [by apply find_prog_spec|]. intros r k2 (err & s & -> & [[? ?]|[-> Hp]]);
        eexists _, _; (split; [done|]); [by left|right; split; [done|]; by split]. }
  eapply wp_mono; [exact Hprog|]. clear Hprog. intros r k2 (err & s & -> & [[Hneg Hk2]|(-> & Hp & Ha)]); cbn beta iota.
  { rewrite (proj2 (Z.eqb_neq err 0)) by lia. apply wp_ret. eexists _, _. split; [done|]. by left. }
  cbn [Z.eqb negb]. pose proof Hp as (mfd & pfd & Es & Hm & Hpf & Hmf & Hpff & Hnep & Hk2).
  assert (has_rx s = has_rx xsk) as Erx by (by rewrite Es).
  wp_step. rewrite Erx. destruct (has_rx xsk) eqn:Hrx.
  2: { apply wp_ret. cbn [Z.eqb negb]. apply wp_ret. exists 0, s. split; [done|]. right. split; [done|]. split; [done|].
       split; [by rewrite Hrx|exact Ha]. }
  unfold xsk_set_bpf_maps. apply wp_call. intros err k3 E3.
  pose proof (update_law (xsks_map_fd s) (queue_id s) (sk_fd s) k2) as Hl. rewrite E3 in Hl. destruct Hl as (Hk3 & Hle & Hat & Hen).
  destruct (Z.eqb_spec err 0) as [->|Hnz]; cbn [negb].
  - apply wp_ret. exists 0, s. split; [done|]. right. split; [done|]. split; [|split].
    + exists mfd, pfd. split_and!; try done. by rewrite Hk3.
    + intros _. specialize (Hen eq_refl). by rewrite Es in Hen |- *.
    + intros Hid. by rewrite Hat, Ha.
  - wp_step. apply delete_maps_spec. intros k4 Hk4. wp_steps. eexists _, _. split; [done|]. left. split; [lia|].
    rewrite close_law, Hk4, Hk3, Hk2, Es. cbn [with_fds xsks_map_fd prog_fd]. rewrite open_open.
    rewrite close_open. { by apply close_open. }
    cbn [h_open h_fds]. set_solver.
Qed.
(** ** Sockets *)

Definition h_maybe (m : option (Z * Z)) (h : holding) : holding := match m with Some m => h_map m h | None => h end.
Definition fresh_map (m : option (Z * Z)) (h : holding) : Prop :=
  match m with Some m => 0 ≤ m.1 ∧ m ∉ h_maps h | None => True end.

Lemma unmap_spec m h k (Q : res unit → K → Prop) :
  held k = h_maybe m h → fresh_map m h → (∀ k', held k' = h → Q (Ok tt) k') → wp (unmap m) Q k.
Proof.
  intros Hk Hf HQ. destruct m as [[a len]|]; cbn [unmap]; [|apply wp_ret; by apply HQ].
  destruct Hf as [Ha Hf]. wp_step. apply HQ. rewrite munmap_law, Hk, (proj2 (Z.leb_le 0 a) Ha). by apply unmap_map.
Qed.

Section create.
Context (ifname : string) (room : nat) (queue : Z) (u0 : xsk_umem) (rx tx : option ring_struct) (k0 : K).
Hypothesis count : 0 ≤ refcount u0 < 2 ^ 31 - 1.

Definition shared : xsk_umem := with_refcount (refcount u0 + 1) u0.

(** The descriptor: the umem's for its first socket, a new one for the others; and what is
    held with it. *)
Definition started (fd : Z) : Prop :=
  if 0 <? refcount u0 then 0 ≤ fd ∧ fd ∉ h_fds (held k0) else fd = um_fd u0.
Definition with_fd (fd : Z) : holding :=
  if 0 <? refcount u0 then h_open fd (h_alloc 1 (held k0)) else h_alloc 1 (held k0).

(** A ring that was asked for, over a new mapping. *)
Definition ring_made (r : option ring_struct) (size : Z) (o : xdp_ring_offset) (cached_cons : option Z) (h : holding)
    (r' : option ring_struct) (m : option (Z * Z)) : Prop :=
  match r with
  | None => r' = None ∧ m = None
  | Some r => ∃ a, 0 ≤ a ∧ (a, ring_len o size desc_size) ∉ h_maps h ∧ m = Some (a, ring_len o size desc_size) ∧
                r' = Some (lay_ring a size o cached_cons r)
  end.

(** The calls of a create, in their order, from [k0] to the [bind] that succeeded: the
    descriptor, the index of the interface, the options of the rings that are asked for, the
    offsets, the mappings at the page offsets of the two rings, and the address that is bound. *)
Definition got_fd (fd : Z) (k2 : K) : Prop :=
  ∃ k1, xs_calloc k0 = (true, k1) ∧
    if 0 <? refcount u0 then xs_socket k1 = (fd, k2) else fd = um_fd u0 ∧ k2 = k1.
Definition sized (r : option ring_struct) (fd option size : Z) (k k' : K) : Prop :=
  match r with Some _ => set_ring_size fd option size k = (0, k') | None => k' = k end.
Definition mapped (r : option ring_struct) (fd len pgoff : Z) (k : K) (m : option (Z * Z)) (k' : K) : Prop :=
  match r with
  | Some _ => ∃ a, m = Some (a, len) ∧ xs_mmap fd len pgoff k = (Some a, k')
  | None => m = None ∧ k' = k
  end.
Definition sized_rings (c : Xsk.xsk_socket_config) (fd ifindex : Z) (k5 : K) : Prop :=
  ∃ k2 k3 k4, got_fd fd k2 ∧ xs_nametoindex ifname k2 = (ifindex, k3) ∧ ifindex ≠ 0 ∧
    sized rx fd 2 (Xsk.rx_size c) k3 k4 ∧ sized tx fd 3 (Xsk.tx_size c) k4 k5.
Definition mapped_rings (c : Xsk.xsk_socket_config) (fd ifindex : Z) (off : xdp_mmap_offsets)
    (rx_map tx_map : option (Z * Z)) (k8 : K) : Prop :=
  ∃ k5 k6 k7, sized_rings c fd ifindex k5 ∧ xsk_get_mmap_offsets fd k5 = (Ok (0, Some off), k6) ∧
    mapped rx fd (o_desc (off_rx off) + Xsk.rx_size c * 16) 0 k6 rx_map k7 ∧
    mapped tx fd (o_desc (off_tx off) + Xsk.tx_size c * 16) 0x80000000 k7 tx_map k8.
Definition bound (c : Xsk.xsk_socket_config) (fd ifindex : Z) (off : xdp_mmap_offsets)
    (rx_map tx_map : option (Z * Z)) (k9 : K) : Prop :=
  ∃ k8, mapped_rings c fd ifindex off rx_map tx_map k8 ∧
    xs_bind fd (if 0 <? refcount u0 then SockaddrXdp 1 ifindex queue (um_fd u0)
                else SockaddrXdp (Xsk.bind_flags c) ifindex queue 0) k8 = (0, k9).

(** A socket, with all that was taken for it. *)
Definition socket_made (config : Xsk.xsk_socket_config) (sk : xsk_socket) (rx' tx' : option ring_struct) (k' : K) : Prop :=
  ∃ fd ifindex off rx_map tx_map k9,
    let h := h_maybe tx_map (h_maybe rx_map (with_fd fd)) in
    let bare := Socket (is_some rx) (is_some tx) 0 config fd ifindex (-1) 0 queue (String.substring 0 (IFNAMSIZ - 1) ifname) in
    started fd ∧ bound config fd ifindex off rx_map tx_map k9 ∧ ring_made rx (Xsk.rx_size config) (off_rx off) None (with_fd fd) rx' rx_map ∧
    ring_made tx (Xsk.tx_size config) (off_tx off) (Some (Xsk.tx_size config)) (h_maybe rx_map (with_fd fd)) tx' tx_map ∧
    if Z.land (Xsk.libbpf_flags config) XSK_LIBBPF_FLAGS__INHIBIT_PROG_LOAD =? 0
    then set_up h bare (bpf_get_link_xdp_id ifindex (Xsk.cfg_xdp_flags config) k9).1.2 sk k'
    else sk = bare ∧ held k' = h ∧ k' = k9.

Definition socket_outcome (config : option Xsk.xsk_socket_config) (r : res socket_result) (k' : K) : Prop :=
  ∃ err u o, r = Ok (err, u, o) ∧
    match o with
    | None => error_code err ∧ held k' = held k0 ∧
        (u = u0 ∨ (0 < refcount u0 ∧ (xs_socket (xs_calloc k0).2).1 < 0 ∧ u = shared))
    | Some (sk, rx', tx') => err = 0 ∧ u = shared ∧ ∃ c, config = Some c ∧ socket_made c sk rx' tx' k'
    end.

Lemma socket_error config err k' : error_code err → held k' = held k0 → socket_outcome config (Ok (err, u0, None)) k'.
Proof. intros He Hh. exists err, u0, None. split; [done|]. split; [done|]. split; [done|]. by left. Qed.

Section jumps.
Context (config : option Xsk.xsk_socket_config) (fd : Z) (Hfd : started fd).

Lemma out_socket_spec err k :
  error_code err → held k = with_fd fd → wp (out_socket shared fd err) (socket_outcome config) k.
Proof.
  intros He Hk. unfold out_socket, out_xsk_alloc, shared, started, with_fd in *. cbn [with_refcount refcount].
  rewrite s32_small by lia. replace (refcount u0 + 1 - 1) with (refcount u0) by lia.
  assert (with_refcount (refcount u0) (with_refcount (refcount u0 + 1) u0) = u0) as -> by (by destruct u0).
  destruct (Z.ltb_spec 0 (refcount u0)).
  - rewrite (proj2 (Z.eqb_neq _ _)) by lia. cbn [negb]. wp_steps. apply socket_error; [done|].
    destruct Hfd. rewrite free_law, close_law, Hk, close_open by done. rewrite alloc_alloc. apply alloc_0.
  - assert (refcount u0 = 0) as E by lia. rewrite E. cbn [Z.eqb negb]. wp_steps. apply socket_error; [done|].
    rewrite free_law, Hk, alloc_alloc. apply alloc_0.
Qed.

Lemma out_mmap_rx_spec rx_map err k :
  error_code err → fresh_map rx_map (with_fd fd) → held k = h_maybe rx_map (with_fd fd) →
  wp (out_mmap_rx rx_map shared fd err) (socket_outcome config) k.
Proof.
  intros He Hf Hk. unfold out_mmap_rx. wp_step. eapply unmap_spec; [exact Hk|done|]. intros k1 Hk1.
  by apply out_socket_spec.
Qed.

Lemma out_mmap_tx_spec tx_map rx_map err k :
  error_code err → fresh_map rx_map (with_fd fd) → fresh_map tx_map (h_maybe rx_map (with_fd fd)) →
  held k = h_maybe tx_map (h_maybe rx_map (with_fd fd)) →
  wp (out_mmap_tx tx_map rx_map shared fd err) (socket_outcome config) k.
Proof.
  intros He Hr Ht Hk. unfold out_mmap_tx. wp_step. eapply unmap_spec; [exact Hk|done|]. intros k1 Hk1.
  by apply out_mmap_rx_spec.
Qed.

(** The same after [err = -errno]. *)
Lemma wp_fail_errno {A} (out : Z → io K A) Q k :
  error_code (- errno k) → (∀ err, error_code err → wp (out err) Q k) → wp (fail_errno out) Q k.
Proof. intros He HQ. unfold fail_errno. wp_step. wp_step. by apply HQ. Qed.
End jumps.

Lemma size_ring_spec r fd o n k (Q : res Z → K → Prop) :
  (∀ err k', err ≠ 0 → held k' = held k → fails k' → Q (Ok err) k') →
  (∀ k', sized r fd o n k k' → held k' = held k → Q (Ok 0) k') →
  wp (size_ring r fd o n) Q k.
Proof.
  intros Hf Ht. destruct r; cbn [size_ring]; [|apply wp_ret; by apply Ht]. apply wp_err_eq; [apply size_law|done..].
Qed.

Lemma map_ring_spec r fd pgoff size o cc k h (Q : res (option (option ring_struct * option (Z * Z))) → K → Prop) :
  held k = h →
  (∀ k', held k' = h → fails k' → Q (Ok None) k') →
  (∀ r' m k', mapped r fd (o_desc o + size * 16) pgoff k m k' → ring_made r size o cc h r' m → fresh_map m h →
     held k' = h_maybe m h → Q (Ok (Some (r', m))) k') →
  wp (map_ring r fd pgoff size o cc) Q k.
Proof.
  intros Hk Hf Ht. destruct r as [r|]; cbn [map_ring]; [|apply wp_ret; by apply Ht].
  wp_step. apply wp_mmap_eq; [intros k' Hk' He _; apply wp_ret; apply Hf; [by rewrite Hk'|done]|].
  intros a k' E H0 Ha Hk'. rewrite Hk in Ha, Hk'. apply wp_ret. apply Ht; [by exists a|by eexists|done|done].
Qed.

(** The offsets that were read. *)
Lemma bound_offsets c fd ifindex off rm tm k : bound c fd ifindex off rm tm k → offsets_read fd off.
Proof. intros (? & (k5 & k6 & ? & _ & E & _) & _). by exists k5, k6. Qed.

Section from_fd.
Context (c : Xsk.xsk_socket_config) (fd : Z) (Hfd : started fd) (Hone : one_xsks_map K).
Abbreviation outcome := (socket_outcome (Some c)).

Lemma bind_and_setup_spec ifindex off rx' tx' rx_map tx_map k :
  mapped_rings c fd ifindex off rx_map tx_map k →
  ring_made rx (Xsk.rx_size c) (off_rx off) None (with_fd fd) rx' rx_map →
  ring_made tx (Xsk.tx_size c) (off_tx off) (Some (Xsk.tx_size c)) (h_maybe rx_map (with_fd fd)) tx' tx_map →
  fresh_map rx_map (with_fd fd) → fresh_map tx_map (h_maybe rx_map (with_fd fd)) →
  held k = h_maybe tx_map (h_maybe rx_map (with_fd fd)) →
  wp (bind_and_setup ifname queue shared c fd ifindex rx' tx' rx_map tx_map) outcome k.
Proof.
  intros Hm Hr Ht Hfr Hft Hk. unfold bind_and_setup. wp_step. apply wp_err_eq; [apply bind_law| |].
  { intros err k1 Hne Hk1 He. rewrite (proj2 (Z.eqb_neq _ _) Hne). apply wp_fail_errno; [by apply fails_code|].
    intros e Hcode. apply out_mmap_tx_spec; try done. by rewrite Hk1. }
  intros k1 Eb Hk1. cbn [Z.eqb negb]. rewrite Hk in Hk1.
  assert (bound c fd ifindex off rx_map tx_map k1) as Hb.
  { exists k. split; [done|]. rewrite <-Eb. unfold shared. cbn [refcount with_refcount um_fd].
    by destruct (Z.ltb_spec 0 (refcount u0)), (Z.ltb_spec 1 (refcount u0 + 1)); [..|lia|]; try lia. }
  assert (is_some rx' = is_some rx) as Er by (destruct rx; [destruct Hr as (? & _ & _ & _ & ->)|destruct Hr as [-> _]]; done).
  assert (is_some tx' = is_some tx) as Et by (destruct tx; [destruct Ht as (? & _ & _ & _ & ->)|destruct Ht as [-> _]]; done).
  rewrite Er, Et. set (bare := Socket _ _ _ _ _ _ _ _ _ _).
  assert (∀ sk k', (if Z.land (Xsk.libbpf_flags c) XSK_LIBBPF_FLAGS__INHIBIT_PROG_LOAD =? 0
     then set_up (h_maybe tx_map (h_maybe rx_map (with_fd fd))) bare (bpf_get_link_xdp_id ifindex (Xsk.cfg_xdp_flags c) k1).1.2 sk k'
     else sk = bare ∧ held k' = h_maybe tx_map (h_maybe rx_map (with_fd fd)) ∧ k' = k1) →
    outcome (Ok (0, shared, Some (sk, rx', tx'))) k') as Hmade.
  { intros sk k' Hsk. eexists 0, shared, _. split; [done|]. split; [done|]. split; [done|]. exists c. split; [done|].
    by exists fd, ifindex, off, rx_map, tx_map, k1. }
  destruct (Z.land (Xsk.libbpf_flags c) XSK_LIBBPF_FLAGS__INHIBIT_PROG_LOAD =? 0).
  2: { apply wp_ret. by apply Hmade. }
  wp_step. pose proof (setup_spec _ bare k1 Hone Hk1) as Hs. change (sk_ifindex bare) with ifindex in Hs.
  change (sk_config bare) with c in Hs.
  destruct (bpf_get_link_xdp_id ifindex (Xsk.cfg_xdp_flags c) k1) as [[e id] ke] eqn:Eg. cbn [fst snd] in Hmade.
  eapply wp_mono; [exact Hs|]. intros r k2 (err & s & -> & [[Hneg Hk2]|[-> Hsu]]); cbn beta iota.
  - rewrite (proj2 (Z.eqb_neq err 0)) by lia. apply out_mmap_tx_spec; try done. by left.
  - cbn [Z.eqb negb]. apply wp_ret. by apply Hmade.
Qed.

Lemma map_rings_spec ifindex k :
  sized_rings c fd ifindex k → held k = with_fd fd → wp (map_rings ifname queue shared c fd ifindex rx tx) outcome k.
Proof.
  intros Hsz Hk. unfold map_rings. wp_step. apply wp_offsets_eq.
  { intros err k1 Hne Hk1 He. rewrite (proj2 (Z.eqb_neq _ _) Hne). apply wp_fail_errno; [by eapply errno_code|].
    intros e Hcode. apply out_socket_spec; try done. by rewrite Hk1. }
  intros off k1 Hoff Hk1. rewrite Hk in Hk1. cbn [Z.eqb negb or_fault]. wp_step. wp_step. wp_step.
  eapply map_ring_spec; [exact Hk1| |].
  { intros k2 Hk2 He. apply wp_fail_errno; [by apply fails_code|]. intros e Hcode. by apply out_socket_spec. }
  intros rx' rx_map k2 Hmr Hr Hfr Hk2. wp_step. eapply map_ring_spec; [exact Hk2| |].
  { intros k3 Hk3 He. apply wp_fail_errno; [by apply fails_code|]. intros e Hcode. by apply out_mmap_rx_spec. }
  intros tx' tx_map k3 Hmt Ht Hft Hk3. eapply bind_and_setup_spec; try done. by exists k, k1, k2.
Qed.

Lemma create_on_spec k :
  (IFNAMSIZ - 1 ≤ room)%nat → got_fd fd k → held k = with_fd fd → wp (create_on ifname room queue shared c fd rx tx) outcome k.
Proof.
  intros Hroom Hgot Hk. unfold create_on. wp_step. apply wp_call. intros i k1 E1. pose proof (name_law ifname k) as Hl. rewrite E1 in Hl.
  destruct Hl as [Hk1 He]. rewrite Hk in Hk1.
  assert (∀ k', fails k' → held k' = with_fd fd → wp (fail_errno (out_socket shared fd)) outcome k') as Hfail.
  { intros k' Hf Hk'. apply wp_fail_errno; [by apply fails_code|]. intros e Hcode. by apply out_socket_spec. }
  destruct (Z.eqb_spec i 0) as [->|Hi]; [apply Hfail; [by apply He|done]|].
  rewrite (proj2 (Nat.ltb_ge _ _) Hroom). wp_step. wp_step. wp_step. apply size_ring_spec.
  { intros err k2 Hne Hk2 Hf. rewrite (proj2 (Z.eqb_neq _ _) Hne). apply Hfail; [done|by rewrite Hk2]. }
  intros k2 Hs2 Hk2. cbn [Z.eqb negb]. wp_step. apply size_ring_spec.
  { intros err k3 Hne Hk3 Hf. rewrite (proj2 (Z.eqb_neq _ _) Hne). apply Hfail; [done|by rewrite Hk3, Hk2]. }
  intros k3 Hs3 Hk3. cbn [Z.eqb negb]. apply map_rings_spec; [by exists k, k1, k2|]. by rewrite Hk3, Hk2.
Qed.
End from_fd.

(** The configuration that is used. *)
Definition used_config (usr : option Xsk.xsk_socket_config) : option Xsk.xsk_socket_config :=
  match xsk_set_xdp_socket_config usr with inl c => Some c | inr _ => None end.

Lemma create_for_spec usr :
  one_xsks_map K → (IFNAMSIZ - 1 ≤ room)%nat →
  wp (create_for ifname room queue u0 rx tx usr) (socket_outcome (used_config usr)) k0.
Proof.
  intros Hone Hroom. unfold create_for. wp_step. apply wp_call. intros ok k1 Ek1. pose proof (calloc_law k0) as Hk1. rewrite Ek1 in Hk1.
  destruct ok; cbn [negb]. 2: { apply wp_ret. apply socket_error; [by left|done]. }
  unfold used_config.
  assert (∀ cfg err k', err < 0 → held k' = h_alloc 1 (held k0) → wp (out_xsk_alloc u0 err) (socket_outcome cfg) k') as Hout.
  { intros cfg err k' He Hk'. unfold out_xsk_alloc. wp_steps. apply socket_error; [by left|].
    rewrite free_law, Hk', alloc_alloc. apply alloc_0. }
  destruct (xsk_set_xdp_socket_config usr) as [c|err] eqn:Ec.
  2: { apply Hout; [|done]. unfold xsk_set_xdp_socket_config in Ec. destruct usr as [c|]; [|done].
       destruct (negb _); [|done]. by injection Ec as <-. }
  destruct (negb (refcount u0 =? 0) && _); [by apply Hout|].
  assert (with_refcount (s32 (refcount u0 + 1)) u0 = shared) as -> by (unfold shared; by rewrite s32_small by lia).
  wp_step. destruct (Z.ltb_spec 0 (refcount u0)) as [Hn|Hn]; cbn [andb].
  - apply wp_call. intros fd k2 E2. pose proof (socket_law k1) as Hl. rewrite E2 in Hl. destruct Hl as [Hg He].
    unfold gives_fd in Hg. destruct (Z.ltb_spec fd 0) as [Hneg|Hpos].
    + apply wp_fail_errno; [by apply fails_code, He|]. intros e Hcode. unfold out_xsk_alloc. wp_steps.
      eexists _, _, None. split; [done|]. split; [done|].
      split; [rewrite free_law, Hg, Hk1, alloc_alloc; apply alloc_0|]. right. split; [done|]. split; [|done].
      rewrite Ek1. cbn [snd]. by rewrite E2.
    + destruct Hg as [Hf Hk2]. rewrite Hk1 in Hf, Hk2. apply create_on_spec; try done.
      * unfold started. by rewrite (proj2 (Z.ltb_lt _ _) Hn).
      * exists k1. by rewrite (proj2 (Z.ltb_lt _ _) Hn).
      * unfold with_fd. by rewrite (proj2 (Z.ltb_lt _ _) Hn).
  - apply wp_ret. apply create_on_spec; [|done|done|exists k1|]; unfold started, with_fd; by rewrite (proj2 (Z.ltb_ge _ _) Hn).
Qed.
End create.
(** ** The deletes *)

Section deletes.
(** Every socket answers with the same offsets. *)
Context (off : xdp_mmap_offsets).
Hypothesis layout : ∀ fd k, ∃ k', xsk_get_mmap_offsets fd k = (Ok (0, Some off), k') ∧ held k' = held k.

Lemma same_layout fd off' : offsets_read fd off' → off' = off.
Proof. intros (k1 & k2 & E). destruct (layout fd k1) as (k' & E' & _). rewrite E in E'. by injection E' as ->. Qed.

Lemma read_layout fd k (Q : res (Z * option xdp_mmap_offsets) → K → Prop) :
  (∀ k', held k' = held k → Q (Ok (0, Some off)) k') → wp (xsk_get_mmap_offsets fd) Q k.
Proof. intros HQ. destruct (layout fd k) as (k' & E & Hk'). eapply wp_eq; [exact E|]. by apply HQ. Qed.

Lemma laid_at a size o cc r : rs_ring (lay_ring a size o cc r) - o_desc o = a.
Proof. cbn. lia. Qed.

(** From a state that may have [n] blocks more. *)
Lemma delete_umem_spec area cfg fill comp um f c k0 n h k (Q : res Z → K → Prop) :
  umem_made area cfg fill comp k0 um f c h → held k = h_alloc n h →
  (∀ k', held k' = h_alloc n (held k0) → Q (Ok 0) k') → wp (xsk_umem__delete (Some um) f c) Q k.
Proof.
  intros (off' & fd & m1 & m2 & -> & Hoff & _ & Hfd & Hp1 & Hp2 & Hm1 & Hm2 & -> & -> & ->) Hk HQ. apply same_layout in Hoff as ->.
  unfold xsk_umem__delete. cbn [refcount Z.eqb negb um_fd um_config]. wp_step. apply read_layout. intros k1 Hk1.
  cbn [Z.eqb or_fault]. wp_steps. apply HQ. rewrite !laid_at, free_law, close_law, !munmap_law, Hk1, Hk.
  rewrite (proj2 (Z.leb_le 0 m1) Hp1), (proj2 (Z.leb_le 0 m2) Hp2).
  rewrite alloc_open, !alloc_map, !unmap_open, close_open by done.
  set (l1 := ring_len (off_fr off) _ _) in *. set (l2 := ring_len (off_cr off) _ _) in *.
  apply not_elem_of_union in Hm2 as [Hne%not_elem_of_singleton Hm2].
  rewrite unmap_under by (done || congruence). rewrite unmap_map by done. rewrite !alloc_alloc. f_equal. lia.
Qed.

Lemma release_ring (has : bool) a len k (Q : res unit → K → Prop) :
  (has = true → 0 ≤ a) →
  (∀ k', held k' = (if has then h_unmap (a, len) (held k) else held k) → Q (Ok tt) k') →
  wp (if has then run (xs_munmap a len) else mret tt) Q k.
Proof.
  intros Ha HQ. destruct has; [|apply wp_ret; by apply HQ]. wp_step. apply HQ.
  by rewrite munmap_law, (proj2 (Z.leb_le 0 a) (Ha eq_refl)).
Qed.

Lemma ring_made_at r size o cc h r' m z : ring_made r size o cc h r' m → is_some r = true → 0 ≤ rs_ring (default z r') - o_desc o.
Proof. destruct r; [|done]. intros (a & Ha & _ & _ & ->) _. cbn [from_option id]. by rewrite laid_at. Qed.

(** A ring of a socket is unmapped where it was mapped. *)
Lemma ring_made_unmap r size o cc h r' m z :
  ring_made r size o cc h r' m →
  (if is_some r then h_unmap (rs_ring (default z r') - o_desc o, ring_len o size desc_size) (h_maybe m h) else h_maybe m h) = h.
Proof.
  destruct r as [r|]; [intros (a & _ & Ha & -> & ->)|by intros [-> ->]]. cbn [is_some from_option id]. rewrite laid_at. by apply unmap_map.
Qed.

Lemma unmap_swap (a b : bool) m n h :
  (if a then h_unmap m (if b then h_unmap n h else h) else (if b then h_unmap n h else h)) =
  (if b then h_unmap n (if a then h_unmap m h else h) else (if a then h_unmap m h else h)).
Proof. destruct a, b, h; unfold h_unmap; cbn; try done. f_equal. set_solver. Qed.

(** From any state that holds what the create left in [km]. *)
Lemma delete_socket_spec ifname queue u0 rx tx k0 c sk rx' tx' zr zt km k (Q : res xsk_umem → K → Prop) :
  0 ≤ refcount u0 < 2 ^ 31 - 1 → (refcount u0 ≠ 0 → um_fd u0 ∈ h_fds (held k0)) →
  socket_made ifname queue u0 rx tx k0 c sk rx' tx' km → held k = held km →
  (∀ k', held k' = held k0 → Q (Ok u0) k') →
  wp (xsk_socket__delete (Some sk) (shared u0) (default zr rx') (default zt tx')) Q k.
Proof.
  intros Hn Hu (fd & ifindex & off' & rm & tm & k9 & Hst & Hoff%bound_offsets & Hr & Ht & Hset) Hkm HQ. apply same_layout in Hoff as ->.
  set (h1 := with_fd u0 k0 fd) in *. set (h := h_maybe tm (h_maybe rm h1)) in *.
  set (bare := Socket _ _ _ _ _ _ _ _ _ _) in *.
  assert (∃ p m, sk = with_fds p m bare ∧ ∀ (Q' : res unit → K → Prop), (∀ k', held k' = h → Q' (Ok tt) k') →
     wp (if negb (prog_fd sk =? -1) then _ ← xsk_delete_bpf_maps sk; run (xs_close (prog_fd sk)) else mret tt) Q' k)
    as (p & m & -> & Hprog).
  { destruct (_ =? 0) in Hset.
    - destruct Hset as [(mfd & pfd & -> & Hm & Hp & Hmf & Hpf & Hne & Hk) _]. rewrite <-Hkm in Hk. exists pfd, mfd. split; [done|].
      intros Q' HQ'. cbn [with_fds prog_fd]. rewrite (proj2 (Z.eqb_neq pfd (-1))) by lia. cbn [negb].
      wp_step. apply delete_maps_spec. intros k2 Hk2. wp_step. apply HQ'. cbn [with_fds xsks_map_fd] in Hk2.
      rewrite close_law, Hk2, Hk, open_open, close_open; [by rewrite close_open|]. cbn [h_open h_fds]. set_solver.
    - destruct Hset as (-> & Hk & _). rewrite <-Hkm in Hk. exists (-1), 0. split; [done|]. intros Q' HQ'. apply wp_ret. by apply HQ'. }
  unfold xsk_socket__delete. wp_step. apply Hprog. intros k1 Hk1. wp_step. apply read_layout. intros k2 Hk2. rewrite Hk1 in Hk2.
  cbn [with_fds sk_fd sk_config has_rx has_tx bare]. cbn [Z.eqb or_fault]. wp_step. wp_step. wp_step. wp_step.
  apply release_ring; [by eapply ring_made_at|]. intros k3 Hk3. apply release_ring; [by eapply ring_made_at|]. intros k4 Hk4.
  assert (held k4 = h1) as Hk5.
  { rewrite Hk4, Hk3, Hk2, unmap_swap. rewrite (ring_made_unmap _ _ _ _ _ _ _ _ Ht). apply (ring_made_unmap _ _ _ _ _ _ _ _ Hr). }
  assert (with_refcount (s32 (refcount (shared u0) - 1)) (shared u0) = u0) as ->.
  { unfold shared. cbn [with_refcount refcount]. rewrite s32_small by lia.
    replace (refcount u0 + 1 - 1) with (refcount u0) by lia. by destruct u0. }
  unfold h1, with_fd, started in *. wp_step. destruct (Z.ltb_spec 0 (refcount u0)).
  - destruct Hst as [Hpos Hf]. rewrite (proj2 (Z.eqb_neq fd (um_fd u0))).
    2: { intros ->. apply Hf, Hu. lia. }
    cbn [negb]. wp_steps. apply HQ. rewrite free_law, close_law, Hk5, close_open by done. rewrite alloc_alloc. apply alloc_0.
  - subst fd. rewrite Z.eqb_refl. cbn [negb]. wp_steps. apply HQ. rewrite free_law, Hk5, alloc_alloc. apply alloc_0.
Qed.

(** A umem and a socket from the creates to the deletes; [z] stands for a ring the socket
    does not have. *)
Definition life (pagesize area size : Z) ucfg fill comp ifname room queue rx tx scfg (z : ring_struct) : io K unit :=
  '(_, o) ← xsk_umem__create pagesize area size (Some fill) (Some comp) ucfg;
  match o with
  | None => mret tt
  | Some (um, f, c) =>
    '(_, um', s) ← xsk_socket__create ifname room queue (Some um) rx tx scfg;
    let um' := default um um' in
    um ← (match s with
          | Some (sk, rx', tx') => xsk_socket__delete (Some sk) um' (default z rx') (default z tx')
          | None => mret um'
          end);
    _ ← xsk_umem__delete (Some um) f c;
    mret tt
  end.

Lemma life_spec pagesize area size ucfg fill comp ifname room queue rx tx scfg z k0 :
  one_xsks_map K → (IFNAMSIZ - 1 ≤ room)%nat →
  wp (life pagesize area size ucfg fill comp ifname room queue rx tx scfg z)
     (λ r k', r = Ok tt ∧ (held k' = held k0 ∨
        (∃ m, comp_map_fails m ∧ m ∉ h_maps (held k0) ∧ held k' = h_map m (held k0)))) k0.
Proof.
  intros Hone Hroom. unfold life. wp_step. eapply wp_mono; [apply create_umem_spec|]. intros r k1 (err & o & -> & Ho). cbn beta iota.
  destruct o as [[[um f] c]|]; [|apply wp_ret; split; [done|]; destruct Ho as [_ [Hk|Hk]]; [by left|by right]].
  destruct Ho as [_ Hmade]. pose proof Hmade as (off' & fd & m1 & m2 & Eum & _ & _ & _ & _ & _ & _ & _ & Hk1 & _).
  assert (∀ k, held k = held k1 → wp (_ ← xsk_umem__delete (Some um) f c; mret tt) (λ r k', r = Ok tt ∧ (held k' = held k0 ∨
     (∃ m, comp_map_fails m ∧ m ∉ h_maps (held k0) ∧ held k' = h_map m (held k0)))) k) as Hdel.
  { intros k Hk. wp_step. eapply (delete_umem_spec area ucfg fill comp um f c k0 0 (held k1)); [done|by rewrite Hk, alloc_0|].
    intros k' Hk'. apply wp_ret. split; [done|]. left. by rewrite Hk', alloc_0. }
  wp_step. unfold xsk_socket__create. destruct (negb (is_some rx || is_some tx)).
  { apply wp_ret. cbn beta iota. wp_step. wp_step. by apply Hdel. }
  assert (refcount um = 0) as Hn by (by rewrite Eum).
  wp_step. eapply wp_mono; [apply create_for_spec; [rewrite Hn; lia|done|done]|]. intros r k2 (err2 & u & s & -> & Hs). cbn beta iota.
  wp_step. cbn [from_option id]. destruct s as [[[sk rx'] tx']|].
  - destruct Hs as (_ & -> & cfg & _ & Hsk). wp_step.
    eapply (delete_socket_spec ifname queue um rx tx k1); [rewrite Hn; lia|by rewrite Hn|exact Hsk|done|].
    intros k3 Hk3. by apply Hdel.
  - destruct Hs as (_ & Hk2 & [->|(Habs & _)]); [|lia]. wp_step. wp_step. by apply Hdel.
Qed.
End deletes.

(** ** The rings *)

(** A ring as the user sees it, through the addresses. *)
Definition ring_at {A} (mem : Z → Z) (r : ring_struct) : xsk_ring A :=
  XskRing (rs_cached_prod r) (rs_cached_cons r) (rs_mask r) (rs_size r)
    (mem (rs_producer r)) (mem (rs_consumer r)) ∅ (mem (rs_flags r)).
Definition zero_ring : ring_struct := RingStruct 0 0 0 0 0 0 0 0.
Definition zero_mem (a : Z) : Z := 0.

Lemma fill_ring_new a o :
  new_prod (ring_at zero_mem (lay_ring a Xsk.XSK_RING_PROD__DEFAULT_NUM_DESCS o (Some Xsk.XSK_RING_PROD__DEFAULT_NUM_DESCS) zero_ring)).
Proof. split; [|done]. split; try done. by exists 11. Qed.

Lemma rx_ring_new a o : new_cons (ring_at zero_mem (lay_ring a Xsk.XSK_RING_CONS__DEFAULT_NUM_DESCS o None zero_ring)).
Proof. split; [|done]. split; try done. by exists 11. Qed.

(** ** The properties *)

(** [xsk_umem__create] on every path.  It returns 0 with a umem that has one new descriptor, one block
    and the two mappings of its rings, of the sizes of the configuration, the default rings
    empty and with 2048 free slots when the kernel's memory is zero; or an error with nothing
    kept, a pointer that is NULL among them.  Two exceptions are exact: when the completion ring cannot be mapped
    the mapping of the fill ring stays, and when the kernel answers with offsets of another
    size the error may be 0, since [errno] was not set. *)
Lemma xsk_umem__create_outcome pagesize area size fill comp usr k :
  ∃ err o k', xsk_umem__create pagesize area size fill comp usr k = (Ok (err, o), k') ∧
    match fill, comp with
    | Some f0, Some c0 =>
      match o with
      | Some (um, f, c) => err = 0 ∧ umem_made area usr f0 c0 k um f c (held k') ∧
          (usr = None → f0 = zero_ring → new_prod (ring_at zero_mem f))
      | None => error_code err ∧
          (held k' = held k ∨ (∃ m, comp_map_fails m ∧ m ∉ h_maps (held k) ∧ held k' = h_map m (held k)))
      end
    | _, _ => err = - EFAULT ∧ o = None ∧ k' = k
    end.
Proof.
  destruct fill as [f0|]; [|by eexists _, _, _]. destruct comp as [c0|]; [|by eexists _, _, _].
  pose proof (create_umem_spec pagesize area size usr f0 c0 k) as Hw.
  unfold wp in Hw. destruct (xsk_umem__create _ _ _ _ _ _ k) as [r k']. cbn [fst snd] in Hw.
  destruct Hw as (err & o & -> & Ho). exists err, o, k'. split; [done|]. destruct o as [[[um f] c]|]; [|done].
  destruct Ho as [He Hm]. split; [done|]. split; [done|]. intros -> ->.
  destruct Hm as (off & fd & m1 & m2 & _ & _ & _ & _ & _ & _ & _ & _ & _ & -> & _). apply fill_ring_new.
Qed.

(** C29: [xsk_socket__create] on every path.  It returns 0 with a socket over the umem's descriptor, or over a new one
    when the umem has a socket already, with the mappings of the rings that were asked for and, unless
    inhibited, with the descriptors of a map and a program: on an interface without a program the program
    libbpf brings, for this map, was attached, and the map has the socket at its queue.  Otherwise it returns
    an error, 0 only after offsets of another size, and keeps no descriptor, mapping or block, and the umem counts no
    socket more unless the system refused a further socket. *)
Theorem xsk_socket__create_outcome ifname room queue um rx tx usr k :
  one_xsks_map K → (IFNAMSIZ - 1 ≤ room)%nat →
  match um with Some u => 0 ≤ refcount u < 2 ^ 31 - 1 | None => True end →
  ∃ err u' o k', xsk_socket__create ifname room queue um rx tx usr k = (Ok (err, u', o), k') ∧
    match um with
    | Some u =>
      if is_some rx || is_some tx then
        match o with
        | Some (sk, rx', tx') => err = 0 ∧ u' = Some (shared u) ∧
            ∃ c, used_config usr = Some c ∧ socket_made ifname queue u rx tx k c sk rx' tx' k' ∧
              (Xsk.rx_size c = Xsk.XSK_RING_CONS__DEFAULT_NUM_DESCS → rx = Some zero_ring →
               ∃ r, rx' = Some r ∧ new_cons (ring_at zero_mem r))
        | None => error_code err ∧ held k' = held k ∧
            (u' = Some u ∨ (0 < refcount u ∧ (xs_socket (xs_calloc k).2).1 < 0 ∧ u' = Some (shared u)))
        end
      else err = - EFAULT ∧ u' = um ∧ o = None ∧ k' = k
    | None => err = - EFAULT ∧ u' = None ∧ o = None ∧ k' = k
    end.
Proof.
  intros Hone Hroom Hn. unfold xsk_socket__create. destruct um as [u|]; [|by eexists _, _, _, _].
  destruct (is_some rx || is_some tx); cbn [negb]; [|by eexists _, _, _, _].
  pose proof (create_for_spec ifname room queue u rx tx k Hn usr Hone Hroom) as Hw. unfold wp in Hw. unfold mbind, io_bind.
  destruct (create_for _ _ _ _ _ _ _ k) as [r k']. cbn [fst snd] in Hw. destruct Hw as (err & u' & o & -> & Ho).
  exists err, (Some u'), o, k'. split; [done|]. destruct o as [[[sk rx'] tx']|].
  - destruct Ho as (-> & -> & c & Hc & Hm). split; [done|]. split; [done|]. exists c. split; [done|]. split; [done|].
    intros Hs ->. destruct Hm as (fd & i & off & rm & tm & k9 & _ & _ & (a & _ & _ & _ & ->) & _). eexists. split; [done|].
    rewrite Hs. apply rx_ring_new.
  - destruct Ho as (He & Hk & [->|(Hp & Hs & ->)]); (split; [done|]; split; [done|]); [by left|by right].
Qed.

(** C28: What the creates take the deletes give back.  From any state, when every socket answers with the same
    offsets, creating a umem and a socket, with any configuration, and deleting what was
    made ends with the descriptors, mappings and blocks there were before, whichever calls of the system
    failed on the way; but for the fill ring of a umem whose completion ring could not be mapped. *)
Theorem xsk_leaves_nothing off pagesize area size ucfg fill comp ifname room queue rx tx scfg z k :
  one_xsks_map K → (IFNAMSIZ - 1 ≤ room)%nat →
  (∀ fd k, ∃ k', xsk_get_mmap_offsets fd k = (Ok (0, Some off), k') ∧ held k' = held k) →
  ∃ k', life pagesize area size ucfg fill comp ifname room queue rx tx scfg z k = (Ok tt, k') ∧
    (held k' = held k ∨ (∃ m, comp_map_fails m ∧ m ∉ h_maps (held k) ∧ held k' = h_map m (held k))).
Proof.
  intros Hone Hroom Hl. pose proof (life_spec off Hl pagesize area size ucfg fill comp ifname room queue rx tx scfg z k Hone Hroom) as Hw.
  unfold wp in Hw. destruct (life _ _ _ _ _ _ _ _ _ _ _ _ _ k) as [r k']. cbn [fst snd] in Hw.
  destruct Hw as [-> Hk]. by exists k'.
Qed.
End laws.

(** ** A system *)

Module Box.
Record sys := Sys {
  s_held : holding; s_errno : Z; s_entries : gmap (Z * Z) Z; s_texts : gmap Z (list bpf_insn);
  s_attached : gmap Z (list bpf_insn); s_mmaps : Z    (** the mappings it still allows *)
}.

Definition with_held (h : holding) (k : sys) : sys := Sys h (s_errno k) (s_entries k) (s_texts k) (s_attached k) (s_mmaps k).
Definition failing (e : Z) (k : sys) : sys := Sys (s_held k) e (s_entries k) (s_texts k) (s_attached k) (s_mmaps k).
Definition first_free {A} `{EqDecision A, Countable A} (l : list A) (X : gset A) : option A :=
  find (λ x, bool_decide (x ∉ X)) l.
Definition new_fd (k : sys) : Z * sys :=
  match first_free (seqZ 3 60) (h_fds (s_held k)) with
  | Some fd => (fd, with_held (h_open fd (s_held k)) k)
  | None => (- 1, failing 24 k)
  end.
Definition addresses (len : Z) : list (Z * Z) := (λ i, (i * 65536, len)) <$> seqZ 16 60.
Definition new_map (len : Z) (k : sys) : option Z * sys :=
  match (if 0 <? s_mmaps k then first_free (addresses len) (h_maps (s_held k)) else None) with
  | Some (a, _) => (Some a, Sys (h_map (a, len) (s_held k)) (s_errno k) (s_entries k) (s_texts k) (s_attached k) (s_mmaps k - 1))
  | None => (None, failing 12 k)
  end.

#[export] Instance link : LinkOps sys := {
  bpf_set_link_xdp_fd i fd _ k := match s_texts k !! fd with
    | Some p => (0, Sys (s_held k) (s_errno k) (s_entries k) (s_texts k) (<[i := p]> (s_attached k)) (s_mmaps k))
    | None => (- EINVAL, k) end;
  bpf_get_link_xdp_id i _ k := (0, match s_attached k !! i with Some _ => 9 | None => 0 end, k)
}.

Definition words : list Z := [0; 64; 320; 128; 0; 64; 320; 128; 0; 64; 320; 128; 0; 64; 320; 128].

#[export] Instance ops : XskSys sys := {
  errno k := Z.abs (s_errno k);
  xs_calloc k := (true, with_held (h_alloc 1 (s_held k)) k);
  xs_free k := with_held (h_alloc (-1) (s_held k)) k;
  xs_socket := new_fd;
  inet_socket := new_fd;
  xs_close fd k := with_held (h_close fd (s_held k)) k;
  umem_reg _ _ k := (0, k);
  set_ring_size _ _ _ k := (0, k);
  mmap_offsets _ k := (0, 128, words, k);
  xs_mmap _ len _ k := new_map len k;
  xs_munmap a len k := if 0 <=? a then with_held (h_unmap (a, len) (s_held k)) k else k;
  xs_bind _ _ k := (0, k);
  xs_nametoindex nm k := if String.eqb nm "eth0" then (2, k) else (0, failing 19 k);
  ethtool_channels _ _ k := (0, 4, k);
  create_xskmap _ := new_fd;
  load_xdp p k := let '(fd, k) := new_fd k in
    (fd, Sys (s_held k) (s_errno k) (s_entries k) (<[fd := p]> (s_texts k)) (s_attached k) (s_mmaps k));
  prog_get_fd_by_id _ := new_fd;
  map_get_fd_by_id _ := new_fd;
  prog_map_ids _ k := (0, [5], k);
  map_info_name _ k := (0, "xsks_map"%string, k);
  map_update m q fd k := (0, Sys (s_held k) (s_errno k) (<[(m, q) := fd]> (s_entries k)) (s_texts k) (s_attached k) (s_mmaps k));
  map_delete m q k := (0, Sys (s_held k) (s_errno k) (delete (m, q) (s_entries k)) (s_texts k) (s_attached k) (s_mmaps k))
}.

Lemma first_free_spec {A} `{EqDecision A, Countable A} (l : list A) (X : gset A) a :
  first_free l X = Some a → a ∈ l ∧ a ∉ X.
Proof.
  unfold first_free. intros Hf. apply find_some in Hf as [Hi Hx]. split; [by apply list_elem_of_In|].
  by apply bool_decide_eq_true in Hx.
Qed.

Lemma new_fd_spec k :
  let '(fd, k') := new_fd k in
  (if fd <? 0 then s_held k' = s_held k else fd ∉ h_fds (s_held k) ∧ s_held k' = h_open fd (s_held k)) ∧
  (fd < 0 → 0 < Z.abs (s_errno k')) ∧ (s_texts k' = s_texts k).
Proof.
  unfold new_fd. destruct (first_free (seqZ 3 60) (h_fds (s_held k))) as [fd|] eqn:E; cbn; [|done].
  apply first_free_spec in E as [Hin Hfd]. apply elem_of_seqZ in Hin. rewrite (proj2 (Z.ltb_ge fd 0)) by lia.
  split; [done|]. split; [lia|done].
Qed.

#[export] Program Instance laws : XskLaws sys := {
  held := s_held; entry k m q := s_entries k !! (m, q); text k fd := s_texts k !! fd;
  attached k i := s_attached k !! i; map_name _ := "xsks_map"%string
}.
Next Obligation. intros k. cbn. lia. Qed.
Next Obligation. done. Qed.
Next Obligation. done. Qed.
Next Obligation. intros k. cbn. pose proof (new_fd_spec k) as Hf. destruct (new_fd k). by destruct Hf as (? & ? & _). Qed.
Next Obligation. intros k. cbn. pose proof (new_fd_spec k) as Hf. destruct (new_fd k). by destruct Hf as (? & ? & _). Qed.
Next Obligation. done. Qed.
Next Obligation. done. Qed.
Next Obligation. done. Qed.
Next Obligation. done. Qed.
Next Obligation.
  intros fd len off k. cbn. unfold new_map. destruct (if 0 <? s_mmaps k then _ else _) as [[a len']|] eqn:E; cbn; [|done].
  destruct (0 <? s_mmaps k); [|done]. apply first_free_spec in E as [Hin Hm]. unfold addresses in Hin.
  apply list_elem_of_fmap in Hin as (i & [= -> ->] & Hi). apply elem_of_seqZ in Hi. split; [lia|]. done.
Qed.
Next Obligation. intros a len k. cbn. by destruct (0 <=? a). Qed.
Next Obligation. done. Qed.
Next Obligation. intros nm k. cbn. by destruct (String.eqb nm "eth0"). Qed.
Next Obligation. done. Qed.
Next Obligation. intros n k. cbn. pose proof (new_fd_spec k) as Hf. destruct (new_fd k). by destruct Hf as (? & ? & _). Qed.
Next Obligation.
  intros p k. cbn. pose proof (new_fd_spec k) as Hf. destruct (new_fd k) as [fd k']. cbn. destruct Hf as (? & ? & _).
  split; [done|]. intros _. apply lookup_insert_eq.
Qed.
Next Obligation. intros i fd f k. cbn. destruct (s_texts k !! fd) eqn:E; cbn; [|done]. split; [done|]. split; [done|]. intros _. by rewrite lookup_insert_eq. Qed.
Next Obligation. done. Qed.
Next Obligation. intros id k. cbn. pose proof (new_fd_spec k) as Hf. destruct (new_fd k). by destruct Hf as (? & ? & _). Qed.
Next Obligation. intros id k. cbn. pose proof (new_fd_spec k) as Hf. destruct (new_fd k). by destruct Hf as (? & _). Qed.
Next Obligation. done. Qed.
Next Obligation. done. Qed.
Next Obligation. intros m q fd k. cbn. split; [done|]. split; [done|]. split; [done|]. intros _. apply lookup_insert_eq. Qed.
Next Obligation. done. Qed.

Lemma one_map : one_xsks_map sys.
Proof. intros fd k. cbn. done. Qed.

Definition new_sys (mmaps : Z) : sys := Sys (Holding ∅ ∅ 0) 0 ∅ ∅ ∅ mmaps.
End Box.
Import Box.

Definition the_umem : xsk_umem := Umem 4096 (xsk_set_umem_config None) 0 0.
Definition the_config : Xsk.xsk_socket_config := Xsk.XskCfg 2048 2048 0 XDP_FLAGS_DRV_MODE 0.

(** The umem's descriptor is 0, the map's 3 and the program's 4. *)
Lemma xsk_socket__create_outcome_witness :
  (∃ sk k', xsk_socket__create "eth0" 16 7 (Some the_umem) (Some zero_ring) None (Some the_config) (new_sys 9) =
     (Ok (0, Some (shared the_umem), Some sk), k') ∧ (prog_fd sk.1.1, xsks_map_fd sk.1.1) = (4, 3)) ∧
  ∀ nm, ∃ err u' o k', xsk_socket__create nm 16 7 (Some the_umem) (Some zero_ring) None (Some the_config) (new_sys 9)
      = (Ok (err, u', o), k') ∧
    match o with
    | Some (sk, rx', tx') => err = 0 ∧ u' = Some (shared the_umem) ∧
        ∃ c, used_config (Some the_config) = Some c ∧
          socket_made nm 7 the_umem (Some zero_ring) None (new_sys 9) c sk rx' tx' k' ∧
          (Xsk.rx_size c = Xsk.XSK_RING_CONS__DEFAULT_NUM_DESCS → Some zero_ring = Some zero_ring →
           ∃ r, rx' = Some r ∧ new_cons (ring_at zero_mem r))
    | None => error_code (K := sys) err ∧ held k' = held (new_sys 9) ∧
        (u' = Some the_umem ∨
         (0 < refcount the_umem ∧ (xs_socket (xs_calloc (new_sys 9)).2).1 < 0 ∧ u' = Some (shared the_umem)))
    end.
Proof.
  split; [eexists _, _; split; vm_compute; reflexivity|]. intros nm.
  apply (xsk_socket__create_outcome (K := sys) nm 16 7 (Some the_umem) (Some zero_ring) None (Some the_config) (new_sys 9)).
  - apply one_map.
  - cbn. lia.
  - split; [discriminate|reflexivity].
Defined.

Definition the_layout : xdp_mmap_offsets :=
  let o := RingOffset 0 64 320 128 in MmapOffsets o o o o.

(** With room for one mapping only the fill ring's stays. *)
Lemma xsk_leaves_nothing_witness :
  h_maps (held (life 4096 4096 4096 None zero_ring zero_ring "eth0" 16 7 (Some zero_ring) None None zero_ring (new_sys 1)).2)
    = {[(1048576, 16704)]} ∧
  ∃ k', life 4096 4096 4096 None zero_ring zero_ring "eth0" 16 7 (Some zero_ring) None None zero_ring (new_sys 9) = (Ok tt, k') ∧
    (held k' = held (new_sys 9) ∨ (∃ m, comp_map_fails (K := sys) m ∧ m ∉ h_maps (held (new_sys 9)) ∧ held k' = h_map m (held (new_sys 9)))).
Proof.
  split; [vm_compute; reflexivity|].
  apply (xsk_leaves_nothing (K := sys) the_layout 4096 4096 4096 None zero_ring zero_ring "eth0" 16 7 (Some zero_ring) None None
    zero_ring (new_sys 9) one_map).
  { cbn. lia. }
  intros fd k. exists k. split; [vm_compute; reflexivity|reflexivity].
Defined.

(** ** A program with two maps of that name *)

Module TwoMaps.
(** The kernel of [Box], with a program of two maps on interface 2. *)
#[local] Instance ops : XskSys sys := {
  errno := errno (XskSys := Box.ops);
  xs_calloc := xs_calloc (XskSys := Box.ops);
  xs_free := xs_free (XskSys := Box.ops);
  xs_socket := xs_socket (XskSys := Box.ops);
  inet_socket := inet_socket (XskSys := Box.ops);
  xs_close := xs_close (XskSys := Box.ops);
  umem_reg := umem_reg (XskSys := Box.ops);
  set_ring_size := set_ring_size (XskSys := Box.ops);
  mmap_offsets := mmap_offsets (XskSys := Box.ops);
  xs_mmap := xs_mmap (XskSys := Box.ops);
  xs_munmap := xs_munmap (XskSys := Box.ops);
  xs_bind := xs_bind (XskSys := Box.ops);
  xs_nametoindex := xs_nametoindex (XskSys := Box.ops);
  ethtool_channels := ethtool_channels (XskSys := Box.ops);
  create_xskmap := create_xskmap (XskSys := Box.ops);
  load_xdp := load_xdp (XskSys := Box.ops);
  prog_get_fd_by_id := prog_get_fd_by_id (XskSys := Box.ops);
  map_get_fd_by_id := map_get_fd_by_id (XskSys := Box.ops);
  prog_map_ids _ k := (0, [5; 6], k);
  map_info_name := map_info_name (XskSys := Box.ops);
  map_update := map_update (XskSys := Box.ops);
  map_delete := map_delete (XskSys := Box.ops)
}.

(** After the deletes one descriptor is still open. *)
Example two_maps_leak :
  let k := Sys (Holding ∅ ∅ 0) 0 ∅ ∅ {[2 := []]} 9 in
  elements (h_fds (s_held (life (XS := ops) 4096 4096 4096 None zero_ring zero_ring "eth0" 16 7 (Some zero_ring) None None
    zero_ring k).2)) = [5].
Proof. vm_compute. reflexivity. Qed.
End TwoMaps.
