(* ===== verification/AfXdpStats.v ===== *)
(** * The statistics thread of the receiver: af_xdp_user.c

    [stats_poll] and what it prints every two seconds: totals, and rates over the
    period in [double] arithmetic, which is the binary64 of [SpecFloat]. *)

From Stdlib Require Import SpecFloat.
From S2P Require Import Prelude Packet XskRing Xsk AfXdp.

(** ** double *)

Abbreviation double := spec_float.
Definition prec : Z := 53.
Definition emax : Z := 1024.
(** The conversion of an integer. *)
Definition to_double (n : Z) : double := binary_normalize prec emax n 0 false.
Definition fdiv (x y : double) : double := SFdiv prec emax x y.
Definition feq (x y : double) : bool := SFeqb x y.

(** ** The functions *)

(** The clock's seconds and nanoseconds, or an error. *)
Definition gettime (t : option (Z * Z)) : res Z :=
  match t with
  | None => Err (ExitProgram EXIT_FAIL)
  | Some (tv_sec, tv_nsec) => Ok (u64 (u64 tv_sec * NANOSEC_PER_SEC + tv_nsec))
  end.

Definition calc_period (r p : stats_record) : double :=
  let period := u64 (timestamp r - timestamp p) in
  if 0 <? period then fdiv (to_double period) (to_double NANOSEC_PER_SEC) else to_double 0.

(** What a line shows: packets, packets a second, Kbytes, Mbits a second, and the period. *)
Record line := Line { l_pkts : Z; l_pps : double; l_kbytes : Z; l_mbits : double; l_period : double }.

Definition rate_line (total total_prev bytes bytes_prev : Z) (period : double) : line :=
  let packets := u64 (total - total_prev) in
  let pps := fdiv (to_double packets) period in
  let b := u64 (bytes - bytes_prev) in
  let bps := fdiv (fdiv (to_double (u64 (b * 8))) period) (to_double 1000000) in
  Line total pps (bytes / 1000) bps period.

(** The lines of RX and TX. *)
Definition stats_print (stats_rec stats_prev : stats_record) : line * line :=
  let period := calc_period stats_rec stats_prev in
  let period := if feq period (to_double 0) then to_double 1 else period in
  (rate_line (rx_packets stats_rec) (rx_packets stats_prev) (rx_bytes stats_rec) (rx_bytes stats_prev) period,
   rate_line (tx_packets stats_rec) (tx_packets stats_prev) (tx_bytes stats_rec) (tx_bytes stats_prev) period).

Definition with_timestamp (t : Z) (st : stats_record) : stats_record :=
  Stats t (rx_packets st) (rx_bytes st) (tx_packets st) (tx_bytes st).

(** The loop, for the rounds until [global_exit]: in each, what the other thread has
    counted by then and the clock. *)
Fixpoint stats_loop (rounds : list (stats_record * option (Z * Z))) (previous_stats : stats_record) :
  res (list (line * line)) :=
  match rounds with
  | [] => Ok []
  | (counted, t) :: rounds =>
    now ← gettime t;
    let stats := with_timestamp now counted in
    l ← stats_loop rounds stats;
    Ok (stats_print stats previous_stats :: l)
  end.

Definition stats_poll (t0 : option (Z * Z)) (rounds : list (stats_record * option (Z * Z))) :
  res (list (line * line)) :=
  now ← gettime t0;
  stats_loop rounds (Stats now 0 0 0 0).

(** ** What is printed *)

(** A round gives a pair of lines and needs the clock; nothing else ends the thread. *)
Lemma stats_poll_lines t0 rounds :
  match stats_poll t0 rounds with
  | Ok l => length l = length rounds ∧ is_Some t0 ∧ Forall (λ r, is_Some r.2) rounds
  | Err e => e = ExitProgram EXIT_FAIL ∧ (t0 = None ∨ Exists (λ r, r.2 = None) rounds)
  end.
Proof.
  assert (Hl : ∀ prev, match stats_loop rounds prev with
    | Ok l => length l = length rounds ∧ Forall (λ r, is_Some r.2) rounds
    | Err e => e = ExitProgram EXIT_FAIL ∧ Exists (λ r, r.2 = None) rounds end).
  { induction rounds as [|[c [[s ns]|]] rounds IH]; intros prev; cbn [stats_loop gettime mbind res_bind];
      [auto| |split; [done|by left]].
    cbn [mbind res_bind].     specialize (IH (with_timestamp (u64 (u64 s * NANOSEC_PER_SEC + ns)) c)).
    destruct (stats_loop _ _) as [l|e]; cbn [mbind res_bind length].
    - destruct IH as [Hn IH]. split; [exact (f_equal S Hn)|]. constructor; [by eexists|done].
    - destruct IH as [-> IH]. split; [done|by right]. }
  unfold stats_poll. destruct t0 as [[s ns]|]; cbn [gettime mbind res_bind]; [|auto].
  specialize (Hl (Stats (u64 (u64 s * NANOSEC_PER_SEC + ns)) 0 0 0 0)).
  destruct (stats_loop _ _); destruct Hl; [|auto]. split; [done|]. split; [by eexists|done].
Qed.

(** ** Rates are numbers *)

(** Zero, a positive number or infinity: neither negative nor NaN. *)
Definition non_negative (x : double) : Prop :=
  match x with S754_zero s | S754_infinity s | S754_finite s _ _ => s = false | S754_nan => False end.
Definition positive (x : double) : Prop := match x with S754_finite false _ _ => True | _ => False end.

Definition shr_ok (r : shr_record) : Prop := 0 ≤ shr_m r.

Lemma shr_1_ok r : shr_ok r → shr_ok (shr_1 r).
Proof. destruct r as [[|[p|p|]|[p|p|]] rb sb]; unfold shr_ok; cbn; lia. Qed.

Lemma iter_pos_ok {A} (P : A → Prop) (f : A → A) (p : BinNums.positive) x : (∀ x, P x → P (f x)) → P x → P (SpecFloat.iter_pos f p x).
Proof. intros Hf. revert x. induction p; intros x Hx; cbn [SpecFloat.iter_pos]; auto. Qed.

Lemma shr_fexp_ok m e l : 0 ≤ m → shr_ok (fst (shr_fexp prec emax m e l)).
Proof.
  intros Hm. unfold shr_fexp, shr.
  assert (H0 : shr_ok (shr_record_of_loc m l)) by (by destruct l as [|[]]).
  destruct (fexp _ _ _ - e); cbn [fst]; [done| |done].
  by apply (iter_pos_ok shr_ok); [apply shr_1_ok|].
Qed.

Lemma rounded_non_negative m e l : 0 ≤ m → non_negative (binary_round_aux prec emax false m e l).
Proof.
  intros Hm. unfold binary_round_aux. pose proof (shr_fexp_ok m e l Hm) as H1.
  destruct (shr_fexp _ _ m e l) as [r1 e1]. cbn [fst] in H1.
  set (n := round_nearest_even _ _).
  assert (Hn : 0 ≤ n).
  { unfold shr_ok in H1. subst n. unfold round_nearest_even.
    destruct (loc_of_shr_record r1) as [|[]]; [lia|destruct (Z.even _); lia|lia|lia]. }
  pose proof (shr_fexp_ok n e1 loc_Exact Hn) as H2. destruct (shr_fexp _ _ n e1 loc_Exact) as [r2 e2].
  cbn [fst] in H2. unfold shr_ok in H2.
  destruct (shr_m r2); [done| |lia]. by destruct (_ <=? _).
Qed.

Lemma to_double_non_negative n : 0 ≤ n → non_negative (to_double n).
Proof.
  intros Hn. unfold to_double, binary_normalize. destruct n as [|p|p]; [done| |lia].
  unfold binary_round. destruct (shl_align _ _ _). by apply rounded_non_negative.
Qed.

Lemma fdiv_non_negative x y : non_negative x → positive y → non_negative (fdiv x y).
Proof.
  destruct y as [?|?| |[] my ey]; try done. intros Hx _.
  destruct x as [s|s| |s mx ex]; cbn in Hx; subst; try done.
  unfold fdiv, SFdiv. destruct (SFdiv_core_binary _ _ _ _ _ _) as [[mz ez] lz] eqn:E.
  apply rounded_non_negative. revert E. unfold SFdiv_core_binary. cbv zeta.
  set (m := match _ with Zpos _ => _ | _ => _ end). assert (Hm : 0 ≤ m).
  { subst m. destruct (_ - _ - _); try lia. apply Z.shiftl_nonneg. lia. }
  pose proof (Z.div_pos m (Z.pos my) Hm ltac:(lia)) as Hq. unfold Z.div in Hq.
  destruct (Z.div_eucl _ _) as [q r]. by injection 1 as <- _ _.
Qed.

(** A line's rates, over a positive period. *)
Lemma rates_are_numbers total total_prev bytes bytes_prev period :
  positive period →
  let l := rate_line total total_prev bytes bytes_prev period in
  non_negative (l_pps l) ∧ non_negative (l_mbits l).
Proof.
  intros Hp. cbn [rate_line l_pps l_mbits].
  split; repeat apply fdiv_non_negative; try done; apply to_double_non_negative, u64_range.
Qed.

(** Ten thousand packets of 64 bytes in two seconds: 5000 a second, 2.56 Mbits. *)
Example two_seconds :
  stats_poll (Some (10, 0)) [(Stats 0 10000 640000 0 0, Some (12, 0))]
  = Ok [(Line 10000 (to_double 5000) 640 (fdiv (to_double 256) (to_double 100)) (to_double 2),
         Line 0 (to_double 0) 0 (to_double 0) (to_double 2))].
Proof. vm_compute. reflexivity. Qed.

(** Two readings with one clock value: the period of one second stands in for the zero. *)
Example no_time_between :
  stats_poll (Some (10, 0)) [(Stats 0 7 0 0 0, Some (10, 0))]
  = Ok [(Line 7 (to_double 7) 0 (to_double 0) (to_double 1), Line 0 (to_double 0) 0 (to_double 0) (to_double 1))].
Proof. vm_compute. reflexivity. Qed.
