(* ===== verification/Date.v ===== *)
(** * Dates: date.c

    The three functions of date.c over the calendar of the C library: the day of
    the week and the second of the day, the year and the week, and the offset of a
    time zone.  [gmtime] is computed from the Gregorian calendar; the time zone
    database is a parameter, and of the environment only TZ is kept. *)

From S2P Require Import Prelude.

(** ** The C library: gmtime *)

(** The fields of [struct tm] that date.c reads. *)
Record tm := Tm { tm_sec : Z; tm_min : Z; tm_hour : Z; tm_year : Z; tm_wday : Z; tm_yday : Z }.

Definition leap (y : Z) : bool := ((y mod 4 =? 0) && negb (y mod 100 =? 0)) || (y mod 400 =? 0).
Definition year_length (y : Z) : Z := if leap y then 366 else 365.

(** The days from 1 January 1970 to 1 January of [y]. *)
Definition year_start (y : Z) : Z :=
  365 * (y - 1970) + (y - 1969) / 4 - (y - 1901) / 100 + (y - 1601) / 400.

(** The year of a day: 400 years have 146097 days, so the quotient is at most a year off. *)
Definition year_of (d : Z) : Z :=
  let y := 1970 + 400 * d / 146097 in
  if d <? year_start y then y - 1 else if year_start (y + 1) <=? d then y + 1 else y.

(** NULL when the year does not fit an [int]. *)
Definition gmtime (timestamp : Z) : option tm :=
  let d := timestamp / 86400 in
  let s := timestamp mod 86400 in
  let y := year_of d in
  if (- 2 ^ 31 <=? y - 1900) && (y - 1900 <? 2 ^ 31)
  then Some (Tm (s mod 60) (s / 60 mod 60) (s / 3600) (y - 1900) ((d + 4) mod 7) (d - year_start y))
  else None.

(** ** The functions of date.c *)

Definition DAYS_IN_WEEK : Z := 7.
Definition BASE_YEAR : Z := 1900.
Definition MONTH_YEAR : Z := 11.
Definition SECONDS_IN_DAY : Z := 86400.

(** [*day] and [*second]. *)
Definition day_second_number (timestamp : Z) : res (Z * Z) :=
  struct_timestamp ← or_fault (gmtime timestamp) NullDeref;
  let day := u16 (tm_wday struct_timestamp) in
  let day := if day =? 0 then 7 else day in
  let second := u32 (tm_hour struct_timestamp * 60 * 60 + tm_min struct_timestamp * 60
                     + tm_sec struct_timestamp) in
  Ok (day, second).

(** [*year] and [*week]; the division of [int]s rounds towards zero. *)
Definition week_number (timestamp : Z) : res (Z * Z) :=
  struct_timestamp ← or_fault (gmtime timestamp) NullDeref;
  let year := u16 (BASE_YEAR + tm_year struct_timestamp) in
  let correction := if tm_wday struct_timestamp =? 0 then DAYS_IN_WEEK else tm_wday struct_timestamp in
  let week := u16 (Z.quot (tm_yday struct_timestamp + MONTH_YEAR - correction) DAYS_IN_WEEK) in
  Ok (year, week).

Section zones.
(** [localtime]'s [tm_gmtoff] for a value of TZ and an instant; [None] for NULL. *)
Context (tm_gmtoff : option string → Z → option Z).

(** The offset and the environment left.  [local_timezone] is a pointer into the
    environment: [free] stops the program when there is one. *)
Definition get_timezone_offset (TZ : option string) (timezone : string) (current : Z) :
  res (Z * option string) :=
  let local_timezone := TZ in
  let TZ := Some timezone in
  off ← or_fault (tm_gmtoff TZ current) NullDeref;
  let offset := s32 off in
  match local_timezone with
  | Some _ => Err BadFree
  | None => Ok (offset, None)
  end.

(** With TZ set the function never returns. *)
Lemma get_timezone_offset_needs_no_TZ tz timezone current :
  ∀ r, get_timezone_offset (Some tz) timezone current ≠ Ok r.
Proof. intros r. unfold get_timezone_offset. by destruct (tm_gmtoff _ _). Qed.
End zones.

(** ** The calendar *)

(** [lia] with divisions. *)
Ltac div_lia := Z.div_mod_to_equations; lia.

Lemma div_next a k n :
  0 < n → (a + 1 - k * n) / n = (a - k * n) / n + (if (a + 1) mod n =? 0 then 1 else 0).
Proof.
  intros Hn. rewrite <-!Z.add_opp_r, <-!Z.mul_opp_l, !Z.div_add by lia.
  pose proof (Z.div_mod a n) as H. pose proof (Z.mod_pos_bound a n).
  pose proof (Z.div_mod (a + 1) n). pose proof (Z.mod_pos_bound (a + 1) n).
  destruct (Z.eqb_spec ((a + 1) mod n) 0); nia.
Qed.

Lemma year_start_next y : year_start (y + 1) = year_start y + year_length y.
Proof.
  unfold year_start.
  pose proof (div_next (y - 1) 492 4) as H4. pose proof (div_next (y - 1) 19 100) as H100.
  pose proof (div_next (y - 1) 4 400) as H400.
  replace (y - 1 + 1) with y in * by lia.
  replace (y + 1 - 1969) with (y - 492 * 4) by lia. replace (y - 1969) with (y - 1 - 492 * 4) by lia.
  replace (y + 1 - 1901) with (y - 19 * 100) by lia. replace (y - 1901) with (y - 1 - 19 * 100) by lia.
  replace (y + 1 - 1601) with (y - 4 * 400) by lia. replace (y - 1601) with (y - 1 - 4 * 400) by lia.
  rewrite H4, H100, H400 by done. unfold year_length, leap.
  destruct (Z.eqb_spec (y mod 4) 0), (Z.eqb_spec (y mod 100) 0), (Z.eqb_spec (y mod 400) 0);
    cbn [andb orb negb]; try lia; exfalso; div_lia.
Qed.

Lemma year_of_range d : year_start (year_of d) ≤ d < year_start (year_of d + 1).
Proof.
  unfold year_of. set (y := 1970 + 400 * d / 146097).
  assert (146097 * (y - 1970) ≤ 400 * d < 146097 * (y - 1970) + 146097) as Hy by (subst y; div_lia).
  clearbody y.
  assert (year_start (y - 1) ≤ d < year_start (y + 2)) as H
    by (unfold year_start; clear -Hy; div_lia).
  destruct (Z.ltb_spec d (year_start y)).
  - split; [lia|]. by replace (y - 1 + 1) with y by lia.
  - destruct (Z.leb_spec (year_start (y + 1)) d); [|lia]. split; [done|].
    replace (y + 1 + 1) with (y + 2) by lia. lia.
Qed.

Lemma year_length_range y : 365 ≤ year_length y ≤ 366.
Proof. unfold year_length. destruct (leap y); lia. Qed.

Lemma year_start_mono y z : y ≤ z → year_start y ≤ year_start z.
Proof.
  intros Hyz. pattern z. apply Zlt_lower_bound_ind with y; [|done]. clear z Hyz. intros z IH Hz.
  destruct (decide (y = z)) as [->|]; [done|].
  replace z with ((z - 1) + 1) by lia. rewrite year_start_next.
  pose proof (year_length_range (z - 1)). specialize (IH (z - 1)). lia.
Qed.

(** The year of a day is the one it lies in. *)
Lemma year_of_unique d y : year_start y ≤ d < year_start (y + 1) → year_of d = y.
Proof.
  intros H. pose proof (year_of_range d) as Hd.
  destruct (Z.lt_trichotomy (year_of d) y) as [Hl|[?|Hl]]; [|done|].
  - pose proof (year_start_mono (year_of d + 1) y). lia.
  - pose proof (year_start_mono (y + 1) (year_of d)). lia.
Qed.

(** ** What they compute *)

(** The years that [gmtime] can give. *)
Definition int_year (timestamp : Z) : Prop := - 2 ^ 31 ≤ year_of (timestamp / 86400) - 1900 < 2 ^ 31.

(** The day of the week, Monday 1 to Sunday 7. *)
Definition iso_day (d : Z) : Z := (d + 3) mod 7 + 1.
(** The ISO year and week of a day: those of its week's Thursday. *)
Definition iso_week (d : Z) : Z * Z :=
  let thursday := d - iso_day d + 4 in
  (year_of thursday, (thursday - year_start (year_of thursday)) / 7 + 1).

Lemma gmtime_int_year t :
  int_year t →
  gmtime t = Some (Tm (t mod 86400 mod 60) (t mod 86400 / 60 mod 60) (t mod 86400 / 3600)
                      (year_of (t / 86400) - 1900) ((t / 86400 + 4) mod 7)
                      (t / 86400 - year_start (year_of (t / 86400)))).
Proof.
  unfold int_year, gmtime. intros [H1 H2]. by rewrite (proj2 (Z.leb_le _ _) H1), (proj2 (Z.ltb_lt _ _) H2).
Qed.

Lemma iso_day_wday d : (if (d + 4) mod 7 =? 0 then 7 else (d + 4) mod 7) = iso_day d.
Proof. unfold iso_day. destruct (Z.eqb_spec ((d + 4) mod 7) 0); div_lia. Qed.

Lemma day_second_number_spec t :
  int_year t → day_second_number t = Ok (iso_day (t / 86400), t mod 86400).
Proof.
  intros Ht. unfold day_second_number. rewrite gmtime_int_year by done.
  cbn [or_fault mbind res_bind tm_wday tm_hour tm_min tm_sec].
  rewrite u16_small by div_lia. rewrite iso_day_wday, u32_small; repeat f_equal; div_lia.
Qed.

(** The week is the ISO week, except around New Year: where the ISO week belongs to
    the year before it is 0, and where it belongs to the next year it is 53. *)
Lemma week_number_spec t :
  int_year t →
  let y := year_of (t / 86400) in
  let '(iy, iw) := iso_week (t / 86400) in
  (iy = y ∧ week_number t = Ok (u16 y, iw)) ∨
  (iy = y - 1 ∧ week_number t = Ok (u16 y, 0)) ∨
  (iy = y + 1 ∧ week_number t = Ok (u16 y, 53)).
Proof.
  intros Ht. cbv zeta. unfold week_number. rewrite gmtime_int_year by done.
  cbn [or_fault mbind res_bind tm_year tm_wday tm_yday]. unfold BASE_YEAR, MONTH_YEAR, DAYS_IN_WEEK.
  set (d := t / 86400). rewrite iso_day_wday. unfold iso_week.
  replace (1900 + (year_of d - 1900)) with (year_of d) by div_lia.
  pose proof (year_of_range d) as Hd. pose proof (year_length_range (year_of d)) as Hl.
  pose proof (year_start_next (year_of d)) as Hn.
  assert (1 ≤ iso_day d ≤ 7) as Hw by (unfold iso_day; div_lia).
  rewrite Z.quot_div_nonneg by lia.
  rewrite (u16_small ((d - year_start (year_of d) + 11 - iso_day d) / 7)) by (clearbody d; div_lia).
  generalize (u16 (year_of d)). clearbody d. intros yr.
  destruct (Z.lt_ge_cases (d - iso_day d + 4) (year_start (year_of d))) as [Hb|Hb].
  - right; left. split; [|repeat f_equal; div_lia]. apply year_of_unique.
    pose proof (year_start_next (year_of d - 1)) as Hp. pose proof (year_length_range (year_of d - 1)).
    replace (year_of d - 1 + 1) with (year_of d) in * by lia. lia.
  - destruct (Z.lt_ge_cases (d - iso_day d + 4) (year_start (year_of d + 1))) as [Ha|Ha].
    + left. rewrite (year_of_unique _ (year_of d)) by div_lia. split; [done|]. repeat f_equal. div_lia.
    + right; right. split; [|repeat f_equal; div_lia]. apply year_of_unique.
      pose proof (year_start_next (year_of d + 1)). pose proof (year_length_range (year_of d + 1)). div_lia.
Qed.

(** Friday 1 January 2021, the 53rd week of 2020: week 0. *)
Example new_year_2021 :
  week_number 1609459200 = Ok (2021, 0) ∧ iso_week (1609459200 / 86400) = (2020, 53)
  ∧ day_second_number 1609459200 = Ok (5, 0).
Proof. vm_compute. auto. Qed.

(** Monday 30 December 2019, the first week of 2020: week 53 of 2019. *)
Example year_end_2019 :
  week_number 1577664000 = Ok (2019, 53) ∧ iso_week (1577664000 / 86400) = (2020, 1).
Proof. vm_compute. auto. Qed.
