(* ===== verification/HashMap.v ===== *)
(** * hashmap.c of libbpf: a hash table with chains

    The table behind libbpf's BTF code.  A chain is the list of its entries, whose
    [next] pointers never leave the map; [buckets] is NULL, an array, or an array
    that was freed.  Allocations are told by parameters of the operations. *)

From S2P Require Import Prelude Loader XskLib.

Definition HASHMAP_MIN_CAP_BITS : Z := 2.

(** Of the 64 bits the upper [bits]; a shift by 64 is undefined, but then there are no
    buckets and the result is not used. *)
Definition hash_bits (h bits : Z) : Z := Z.shiftr (u64 (h * 11400714819323198485)) (64 - bits).

Inductive hashmap_insert_strategy := HASHMAP_ADD | HASHMAP_SET | HASHMAP_UPDATE | HASHMAP_APPEND.
#[global] Instance strategy_eq_dec : EqDecision hashmap_insert_strategy.
Proof. solve_decision. Defined.

Record hashmap_entry (K V : Type) := Entry { e_key : K; e_value : V }.
Arguments Entry {K V} e_key e_value.
Arguments e_key {K V} h.
Arguments e_value {K V} h.

(** The pointer [buckets]. *)
Inductive bucket_array (A : Type) := NullArray | FreedArray | Array (l : list A).
Arguments NullArray {A}.
Arguments FreedArray {A}.
Arguments Array {A} l.

Record hashmap (K V : Type) := HashMap {
  buckets : bucket_array (list (hashmap_entry K V));
  cap : Z; cap_bits : Z; sz : Z   (** size_t *)
}.
Arguments HashMap {K V} buckets cap cap_bits sz.
Arguments buckets {K V} h.
Arguments cap {K V} h.
Arguments cap_bits {K V} h.
Arguments sz {K V} h.

Section hashmap.
Context {K V : Type}.
(** The functions of the map, with [ctx] in them. *)
Variables (hash_fn : K → Z) (equal_fn : K → K → bool).
Abbreviation entry := (hashmap_entry K V).
Abbreviation chain := (list entry).
Abbreviation map := (hashmap K V).

Definition hashmap__init : map := HashMap NullArray 0 0 0.
(** [None] is ERR_PTR(-ENOMEM). *)
Definition hashmap__new (malloc : bool) : option map := if malloc then Some hashmap__init else None.

Definition free_buckets (b : bucket_array chain) : res (bucket_array chain) :=
  match b with
  | NullArray => Ok NullArray
  | FreedArray => Err BadFree
  | Array _ => Ok FreedArray
  end.

(** [map->buckets] keeps its value. *)
Definition hashmap__clear (m : map) : res map :=
  b ← free_buckets (buckets m);
  Ok (HashMap b 0 0 0).
Definition hashmap__free (m : option map) : res unit :=
  match m with None => Ok tt | Some m => _ ← hashmap__clear m; Ok tt end.

Definition hashmap__size (m : map) : Z := sz m.
Definition hashmap__capacity (m : map) : Z := cap m.

(** [map->buckets[bkt]], read and written. *)
Definition the_array (b : bucket_array chain) : res (list chain) :=
  match b with Array l => Ok l | _ => Err NullDeref end.
Definition bucket (b : bucket_array chain) (bkt : Z) : res chain :=
  l ← the_array b; or_fault (l !! Z.to_nat bkt) OutOfBounds.
Definition set_bucket (bkt : Z) (c : chain) (b : bucket_array chain) : res (bucket_array chain) :=
  l ← the_array b;
  if (Z.to_nat bkt <? length l)%nat then Ok (Array (<[Z.to_nat bkt := c]> l)) else Err OutOfBounds.

(** A place [pprev] is a bucket and the number of entries before it. *)
Definition hashmap_add_entry (bkt : Z) (e : entry) (b : bucket_array chain) : res (bucket_array chain) :=
  c ← bucket b bkt; set_bucket bkt (e :: c) b.
Definition hashmap_del_entry (bkt : Z) (i : nat) (b : bucket_array chain) : res (bucket_array chain) :=
  c ← bucket b bkt; set_bucket bkt (take i c ++ drop (S i) c) b.

(** ** Loops *)

(** [hashmap__for_each_entry]: its entries in order.  [bkt] is an [int]. *)
Definition for_each_entry (m : map) : res (list entry) :=
  if cap m =? 0 then Ok []
  else if 2 ^ 31 <=? cap m then Err OutOfBounds
  else
    l ← the_array (buckets m);
    if (Z.to_nat (cap m) <=? length l)%nat then Ok (concat (take (Z.to_nat (cap m)) l)) else Err OutOfBounds.

(** [hashmap__for_each_key_entry] *)
Definition for_each_key_entry (m : map) (key : K) : res (list entry) :=
  let bkt := hash_bits (hash_fn key) (cap_bits m) in
  c ← (match buckets m with NullArray => Ok [] | b => bucket b bkt end);
  Ok (List.filter (λ e, equal_fn (e_key e) key) c).

(** ** Growing *)

Definition hashmap_needs_to_grow (m : map) : bool :=
  (cap m =? 0) || (cap m <? u64 (u64 (sz m + 1) * 4) / 3).

(** The loop that moves every entry to its new bucket. *)
Fixpoint move_entries (bits : Z) (es : list entry) (b : bucket_array chain) : res (bucket_array chain) :=
  match es with
  | [] => Ok b
  | e :: es =>
    b ← hashmap_add_entry (hash_bits (hash_fn (e_key e)) bits) e b;
    move_entries bits es b
  end.

(** [calloc n] tells whether there is memory for [n] buckets. *)
Definition hashmap_grow (calloc : Z → bool) (m : map) : res (Z * map) :=
  let new_cap_bits := u64 (cap_bits m + 1) in
  let new_cap_bits := if new_cap_bits <? HASHMAP_MIN_CAP_BITS then HASHMAP_MIN_CAP_BITS else new_cap_bits in
  let new_cap := u64 (Z.shiftl 1 new_cap_bits) in
  if negb (calloc new_cap) then Ok (- ENOMEM, m)
  else
    let new_buckets := Array (replicate (Z.to_nat new_cap) []) in
    es ← for_each_entry m;
    new_buckets ← move_entries new_cap_bits es new_buckets;
    _ ← free_buckets (buckets m);
    Ok (0, HashMap new_buckets new_cap new_cap_bits (sz m)).

(** ** Lookup *)

Fixpoint find_from (key : K) (i : nat) (c : chain) : option (nat * entry) :=
  match c with
  | [] => None
  | e :: c => if equal_fn (e_key e) key then Some (i, e) else find_from key (S i) c
  end.

Definition hashmap_find_entry (m : map) (key : K) (hash : Z) : res (option (nat * entry)) :=
  match buckets m with
  | NullArray => Ok None
  | b => c ← bucket b hash; Ok (find_from key 0 c)
  end.

(** ** The operations *)

(** [entry->key = key; entry->value = value] of an entry of the map. *)
Definition overwrite (bkt : Z) (i : nat) (e : entry) (b : bucket_array chain) : res (bucket_array chain) :=
  c ← bucket b bkt; set_bucket bkt (<[i := e]> c) b.

(** The error, the old key and value, and the map: where the key is new, *)
Definition insert_entry (calloc : Z → bool) (malloc : bool) (m : map) (key : K) (value : V) :
  res (Z * option (K * V) * map) :=
  '(err, m) ← (if hashmap_needs_to_grow m then hashmap_grow calloc m else Ok (0, m));
  if negb (err =? 0) then Ok (err, None, m)
  else
    let h := hash_bits (hash_fn key) (cap_bits m) in
    if negb malloc then Ok (- ENOMEM, None, m)
    else
      b ← hashmap_add_entry h (Entry key value) (buckets m);
      Ok (0, None, HashMap b (cap m) (cap_bits m) (u64 (sz m + 1))).

(** and in general. *)
Definition hashmap__insert (calloc : Z → bool) (malloc : bool) (m : map) (key : K) (value : V)
    (strategy : hashmap_insert_strategy) : res (Z * option (K * V) * map) :=
  let h := hash_bits (hash_fn key) (cap_bits m) in
  found ← (if decide (strategy = HASHMAP_APPEND) then Ok None else hashmap_find_entry m key h);
  match found with
  | Some (i, e) =>
    let old := Some (e_key e, e_value e) in
    if decide (strategy = HASHMAP_ADD) then Ok (- EEXIST, old, m)
    else
      b ← overwrite h i (Entry key value) (buckets m);
      Ok (0, old, HashMap b (cap m) (cap_bits m) (sz m))
  | None =>
    if decide (strategy = HASHMAP_UPDATE) then Ok (- ENOENT, None, m)
    else
      insert_entry calloc malloc m key value
  end.

Definition hashmap__find (m : map) (key : K) : res (option V) :=
  let h := hash_bits (hash_fn key) (cap_bits m) in
  found ← hashmap_find_entry m key h;
  Ok (match found with Some (_, e) => Some (e_value e) | None => None end).

Definition hashmap__delete (m : map) (key : K) : res (option (K * V) * map) :=
  let h := hash_bits (hash_fn key) (cap_bits m) in
  found ← hashmap_find_entry m key h;
  match found with
  | None => Ok (None, m)
  | Some (i, e) =>
    b ← hashmap_del_entry h i (buckets m);
    Ok (Some (e_key e, e_value e), HashMap b (cap m) (cap_bits m) (u64 (sz m - 1)))
  end.
End hashmap.
