(* ===== verification/HashMapProps.v ===== *)
(** * The hash table is a finite map

    Up to 2^30 buckets, and for keys that are compared and hashed by their contents,
    the operations of hashmap.c implement those of [gmap]: [repr] relates a table and
    the map it holds, and [hashmap_is_a_map] follows any sequence of operations. *)

From S2P Require Import Prelude Loader XskLib HashMap.

(** ** Lists of lists *)

Lemma concat_lookup {A} (l : list (list A)) i c :
  l !! i = Some c → concat l ≡ₚ c ++ concat (take i l ++ drop (S i) l).
Proof.
  intros Hi. rewrite <-(take_drop_middle l i c Hi) at 1. rewrite !concat_app. cbn [concat].
  by rewrite !app_assoc, (Permutation_app_comm (concat (take i l)) c).
Qed.

Lemma concat_insert {A} (l : list (list A)) i c c' :
  l !! i = Some c → concat (<[i := c']> l) ≡ₚ c' ++ concat (take i l ++ drop (S i) l).
Proof.
  intros Hi. assert (i < length l)%nat as Hl by (by eapply lookup_lt_Some).
  rewrite (concat_lookup (<[i := c']> l) i c') by (by apply list_lookup_insert_eq).
  rewrite take_insert_ge, drop_insert_lt by lia. done.
Qed.

Lemma concat_replicate_nil {A} n : concat (replicate n ([] : list A)) = [].
Proof. by induction n. Qed.

Lemma take_drop_perm {A} (c : list A) i e : c !! i = Some e → c ≡ₚ e :: (take i c ++ drop (S i) c).
Proof. intros Hi. rewrite <-(take_drop_middle c i e Hi) at 1. symmetry. apply Permutation_middle. Qed.

Section props.
Context {K V A : Type} `{Countable A}.
Variables (hash_fn : K → Z) (equal_fn : K → K → bool).
(** What a key says, which is what the two functions look at. *)
Variable content : K → A.
Hypothesis equal_content : ∀ k1 k2, equal_fn k1 k2 = bool_decide (content k1 = content k2).
Hypothesis hash_content : ∀ k1 k2, content k1 = content k2 → hash_fn k1 = hash_fn k2.

Abbreviation entry := (hashmap_entry K V).
Abbreviation table := (hashmap K V).
Abbreviation place bits k := (Z.to_nat (hash_bits (hash_fn k) bits)).

(** ** The invariant *)

(** Every entry is in the bucket of its hash. *)
Definition placed (bits : Z) (l : list (list entry)) : Prop :=
  ∀ i c e, l !! i = Some c → e ∈ c → i = place bits (e_key e).

(** [2 ^ bits] buckets, and the entries [es] in them. *)
Definition array_ok (bits : Z) (l : list (list entry)) (es : list entry) : Prop :=
  Z.of_nat (length l) = 2 ^ bits ∧ placed bits l ∧ concat l ≡ₚ es.

(** A table with the entries [es]: empty without an array, or with one that is at most
    three quarters full when the last entry came in. *)
Definition holds (m : table) (es : list entry) : Prop :=
  sz m = Z.of_nat (length es) ∧
  match buckets m with
  | NullArray => cap m = 0 ∧ cap_bits m = 0 ∧ es = []
  | FreedArray => False
  | Array l => 2 ≤ cap_bits m ≤ 30 ∧ cap m = 2 ^ cap_bits m ∧ array_ok (cap_bits m) l es ∧
      sz m * 4 / 3 ≤ cap m
  end.

Lemma hash_bits_range h bits : 0 ≤ bits ≤ 64 → 0 ≤ hash_bits h bits < 2 ^ bits.
Proof.
  intros Hb. unfold hash_bits. rewrite Z.shiftr_div_pow2 by lia.
  pose proof (u64_range (h * 11400714819323198485)) as Hu.
  assert (2 ^ 64 = 2 ^ (64 - bits) * 2 ^ bits) as E 
    by (rewrite <-Z.pow_add_r by lia; by replace (64 - bits + bits) with 64 by lia).
  split; [apply Z.div_pos; lia|]. apply Z.div_lt_upper_bound; [lia|]. rewrite <-E. lia.
Qed.

Lemma place_lt bits l es k : 2 ≤ bits ≤ 64 → array_ok bits l es → (place bits k < length l)%nat.
Proof. intros Hb (Hl & _). pose proof (hash_bits_range (hash_fn k) bits). lia. Qed.

(** ** One bucket *)

(** A new chain for the bucket of [k]. *)
Lemma change_bucket bits l es k c c' rest :
  2 ≤ bits ≤ 64 → array_ok bits l es → l !! place bits k = Some c → es ≡ₚ c ++ rest →
  (∀ e, e ∈ c' → place bits k = place bits (e_key e)) →
  set_bucket (hash_bits (hash_fn k) bits) c' (Array l) = Ok (Array (<[place bits k := c']> l)) ∧
  array_ok bits (<[place bits k := c']> l) (c' ++ rest).
Proof.
  intros Hb Hok Hc Hes He. pose proof (place_lt bits l es k Hb Hok) as Hlt.
  destruct Hok as (Hlen & Hp & Hperm). split.
  - unfold set_bucket. cbn [the_array mbind res_bind]. by rewrite (proj2 (Nat.ltb_lt _ _) Hlt).
  - split; [by rewrite length_insert|]. split.
    + intros i c2 e Hi. destruct (decide (i = place bits k)) as [->|Hne].
      * rewrite list_lookup_insert_eq in Hi by done. injection Hi as <-. apply He.
      * rewrite list_lookup_insert_ne in Hi by done. by apply Hp.
    + rewrite (concat_insert _ _ c) by done.
      apply Permutation_app_head, (Permutation_app_inv_l c). rewrite <-Hes, <-Hperm. symmetry. by apply concat_lookup.
Qed.

Lemma the_bucket bits l es k :
  2 ≤ bits ≤ 64 → array_ok bits l es →
  ∃ c rest, bucket (Array l) (hash_bits (hash_fn k) bits) = Ok c ∧ l !! place bits k = Some c ∧
    es ≡ₚ c ++ rest ∧ (∀ e, e ∈ c → place bits k = place bits (e_key e)) ∧
    (∀ e, e ∈ rest → content (e_key e) ≠ content k).
Proof.
  intros Hb Hok. destruct (lookup_lt_is_Some_2 l (place bits k)) as [c Hc]; [by eapply place_lt|].
  exists c, (concat (take (place bits k) l ++ drop (S (place bits k)) l)).
  destruct Hok as (Hlen & Hp & Hperm). split_and!.
  - unfold bucket. cbn [the_array mbind res_bind]. by rewrite Hc.
  - done.
  - rewrite <-Hperm. by apply concat_lookup.
  - intros e. by apply Hp.
  - intros e He Heq. apply list_elem_of_In, in_concat in He as (d & Hd & He).
    apply list_elem_of_In in Hd, He. apply elem_of_app in Hd as [Hd|Hd];
      apply list_elem_of_lookup in Hd as [i Hi].
    + apply lookup_take_Some in Hi as [Hi Hlt]. pose proof (Hp _ _ _ Hi He).
      rewrite (hash_content _ _ Heq) in *. lia.
    + rewrite lookup_drop in Hi. pose proof (Hp _ _ _ Hi He). rewrite (hash_content _ _ Heq) in *. lia.
Qed.

Lemma add_entry_ok bits l es e :
  2 ≤ bits ≤ 64 → array_ok bits l es →
  ∃ l', hashmap_add_entry (hash_bits (hash_fn (e_key e)) bits) e (Array l) = Ok (Array l') ∧
        array_ok bits l' (e :: es).
Proof.
  intros Hb Hok. destruct (the_bucket bits l es (e_key e) Hb Hok) as (c & rest & Eb & Hc & Hes & Hin & _).
  destruct (change_bucket bits l es (e_key e) c (e :: c) rest Hb Hok Hc Hes) as [Es Hok'].
  { intros e' [->|He]%elem_of_cons; [done|by apply Hin]. }
  eexists. split; [unfold hashmap_add_entry; rewrite Eb; cbn [mbind res_bind]; exact Es|].
  destruct Hok' as (H1 & H2 & H3). split; [done|]. split; [done|]. rewrite H3, Hes. done.
Qed.

Lemma move_entries_ok bits new : ∀ l es,
  2 ≤ bits ≤ 64 → array_ok bits l es →
  ∃ l', move_entries hash_fn bits new (Array l) = Ok (Array l') ∧ array_ok bits l' (new ++ es).
Proof.
  induction new as [|e new IH]; intros l es Hb Hok; cbn [move_entries]; [by eexists|].
  destruct (add_entry_ok bits l es e Hb Hok) as (l1 & -> & Hok1). cbn [mbind res_bind].
  destruct (IH l1 _ Hb Hok1) as (l2 & -> & Hok2). eexists. split; [done|].
  destruct Hok2 as (H1 & H2 & H3). split; [done|]. split; [done|]. rewrite H3. symmetry. apply Permutation_middle.
Qed.

Lemma empty_array_ok bits : 0 ≤ bits → array_ok bits (replicate (Z.to_nat (2 ^ bits)) []) [].
Proof.
  intros Hb. split; [rewrite length_replicate; lia|]. split.
  - intros i c e Hi. apply lookup_replicate in Hi as [-> _]. by intros ?%elem_of_nil.
  - by rewrite concat_replicate_nil.
Qed.

Lemma for_each_ok m es :
  holds m es → ∃ es', for_each_entry m = Ok es' ∧ es' ≡ₚ es.
Proof.
  intros [_ Hb]. unfold for_each_entry. destruct (buckets m) as [| |l]; [|done|].
  - destruct Hb as (-> & _ & ->). by eexists.
  - destruct Hb as (Hr & -> & (Hl & _ & Hp) & _).
    assert (2 ^ cap_bits m ≤ 2 ^ 30) by (apply Z.pow_le_mono_r; lia).
    assert (0 < 2 ^ cap_bits m) by lia.
    rewrite (proj2 (Z.eqb_neq _ 0)), (proj2 (Z.leb_gt _ _)) by lia. cbn [the_array mbind res_bind].
    rewrite <-Hl, Nat2Z.id, Nat.leb_refl, firstn_all. by eexists.
Qed.

(** ** Growing *)

(** There is room for one more entry. *)
Definition roomy (m : table) : Prop := (sz m + 1) * 4 / 3 ≤ cap m ∧ buckets m ≠ NullArray.

Section memory.
(** No array of 2^31 buckets can be had. *)
Variable calloc : Z → bool.
Hypothesis memory_bounded : ∀ n, calloc n = true → n < 2 ^ 31.

Lemma next_bits_pow b : 0 ≤ b ≤ 30 → u64 (Z.shiftl 1 (b + 1)) = 2 ^ (b + 1).
Proof.
  intros Hb. rewrite Z.shiftl_1_l. apply u64_small.
  pose proof (Z.pow_le_mono_r 2 (b + 1) 31). lia.
Qed.

(** The array that [hashmap_grow] asks for. *)
Definition grown_bits (m : table) : Z := if cap_bits m + 1 <? 2 then 2 else cap_bits m + 1.

Lemma grow_ok m es :
  holds m es → (hashmap_needs_to_grow m = true) →
  (calloc (2 ^ grown_bits m) = false ∧ hashmap_grow hash_fn calloc m = Ok (- ENOMEM, m)) ∨
  (∃ m', hashmap_grow hash_fn calloc m = Ok (0, m') ∧ holds m' es ∧ roomy m').
Proof.
  intros Hm Hg. pose proof Hm as [Hsz Hb]. unfold hashmap_grow.
  assert (0 ≤ cap_bits m ≤ 30) as Hcb by (destruct (buckets m); [destruct Hb as (_ & -> & _)|done|destruct Hb]; lia).
  rewrite (u64_small (cap_bits m + 1)) by lia. fold HASHMAP_MIN_CAP_BITS.
  change HASHMAP_MIN_CAP_BITS with 2. fold (grown_bits m).
  assert (u64 (Z.shiftl 1 (grown_bits m)) = 2 ^ grown_bits m) as Ep.
  { unfold grown_bits. destruct (cap_bits m + 1 <? 2); [done|]. by apply next_bits_pow. }
  rewrite Ep. destruct (calloc (2 ^ grown_bits m)) eqn:Ec; cbn [negb]; [right|by left].
  apply memory_bounded in Ec. destruct (for_each_ok m es Hm) as (es' & -> & Hes). cbn [mbind res_bind].
  assert (2 ≤ grown_bits m ≤ 30) as Hgb.
  { unfold grown_bits in *. destruct (Z.ltb_spec (cap_bits m + 1) 2); [lia|]. split; [lia|].
    apply Z.pow_lt_mono_r_iff in Ec; lia. }
  destruct (move_entries_ok (grown_bits m) es' _ [] ltac:(lia) (empty_array_ok (grown_bits m) ltac:(lia))) as (l & -> & Hl).
  cbn [mbind res_bind].
  assert (free_buckets (buckets m) = Ok (match buckets m with Array _ => FreedArray | b => b end)) as ->
    by (by destruct (buckets m)).
  cbn [mbind res_bind]. eexists. split; [done|].
  assert ((sz m + 1) * 4 / 3 ≤ 2 ^ grown_bits m) as Hroom.
  { unfold grown_bits. destruct (buckets m) as [| |l0]; [|done|].
    - destruct Hb as (_ & -> & ->). rewrite Hsz. done.
    - destruct Hb as (Hr & Hcap & _ & Hload). rewrite (proj2 (Z.ltb_ge _ _)) by lia.
      rewrite Z.pow_add_r, <-Hcap by lia. pose proof (Z.pow_le_mono_r 2 2 (cap_bits m)) as Hp.
      assert (4 ≤ cap m) by lia. clear -Hload H0. Z.div_mod_to_equations. lia. }
  assert (array_ok (grown_bits m) l es) as Hl'.
  { destruct Hl as (H1 & H2 & H3). split; [done|]. split; [done|]. by rewrite H3, app_nil_r. }
  split; [|by split]. split; [done|]. cbn [buckets cap cap_bits sz]. split; [done|]. split; [done|]. split; [done|].
  clear -Hroom Hsz. Z.div_mod_to_equations. lia.
Qed.
End memory.

(** ** Lookup *)

Lemma find_from_ok key (c : list entry) : ∀ i,
  match find_from equal_fn key i c with
  | Some (j, e) => ∃ n, j = (i + n)%nat ∧ c !! n = Some e ∧ content (e_key e) = content key
  | None => ∀ e, e ∈ c → content (e_key e) ≠ content key
  end.
Proof.
  induction c as [|e c IH]; intros i; cbn [find_from]; [by intros e ?%elem_of_nil|].
  rewrite equal_content. case_bool_decide as He; [exists 0%nat; split; [lia|done]|].
  specialize (IH (S i)). destruct (find_from equal_fn key (S i) c) as [[j e']|].
  - destruct IH as (n & -> & Hn & Hk). exists (S n). split; [lia|done].
  - intros e' [->|Hin]%elem_of_cons; [done|by apply IH].
Qed.

(** Where an entry was found: its chain, and the entries elsewhere. *)
Definition found_at (m : table) (es : list entry) (key : K) (i : nat) (e : entry) : Prop :=
  ∃ l c rest, buckets m = Array l ∧ bucket (Array l) (hash_bits (hash_fn key) (cap_bits m)) = Ok c ∧
    l !! place (cap_bits m) key = Some c ∧ es ≡ₚ c ++ rest ∧
    (∀ e, e ∈ c → place (cap_bits m) key = place (cap_bits m) (e_key e)) ∧
    c !! i = Some e ∧ content (e_key e) = content key.

Lemma find_entry_ok m es key :
  holds m es →
  ∃ r, hashmap_find_entry equal_fn m key (hash_bits (hash_fn key) (cap_bits m)) = Ok r ∧
    match r with
    | Some (i, e) => found_at m es key i e
    | None => ∀ e, e ∈ es → content (e_key e) ≠ content key
    end.
Proof.
  intros [_ Hb]. unfold hashmap_find_entry. destruct (buckets m) as [| |l] eqn:El; [|done|].
  - destruct Hb as (_ & _ & ->). exists None. split; [done|]. by intros e ?%elem_of_nil.
  - destruct Hb as (Hr & _ & Hok & _).
    destruct (the_bucket (cap_bits m) l es key ltac:(lia) Hok) as (c & rest & Eb & Hc & Hes & Hin & Hout).
    rewrite Eb. cbn [mbind res_bind]. eexists. split; [done|].
    pose proof (find_from_ok key c 0) as Hf. destruct (find_from equal_fn key 0 c) as [[j e]|].
    + destruct Hf as (n & -> & Hn & Hk). exists l, c, rest. done.
    + intros e. rewrite Hes. intros [He|He]%elem_of_app; [by apply Hf|by apply Hout].
Qed.

(** The chain of an entry that was found, changed. *)
Lemma change_found m es key i e c' new :
  holds m es → found_at m es key i e →
  (∀ c, c !! i = Some e → (∀ x, x ∈ c → place (cap_bits m) key = place (cap_bits m) (e_key x)) →
     (∀ x, x ∈ c' c → place (cap_bits m) key = place (cap_bits m) (e_key x)) ∧
     c' c ≡ₚ new ++ take i c ++ drop (S i) c) →
  (length new ≤ 1)%nat →
  ∃ es0 l, es ≡ₚ e :: es0 ∧
    (c ← bucket (buckets m) (hash_bits (hash_fn key) (cap_bits m));
     set_bucket (hash_bits (hash_fn key) (cap_bits m)) (c' c) (buckets m)) = Ok (Array l) ∧
    holds (HashMap (Array l) (cap m) (cap_bits m) (Z.of_nat (length new + length es0))) (new ++ es0).
Proof.
  intros [Hsz Hb] (l & c & rest & El & Eb & Hc & Hes & Hin & Hi & Hk) Hc' Hnew. rewrite El in Hb |- *.
  destruct Hb as (Hr & Hcap & Hok & Hload). destruct (Hc' c Hi Hin) as [Hin' Hp].
  destruct (change_bucket (cap_bits m) l es key c (c' c) rest ltac:(lia) Hok Hc Hes Hin') as [Es Hok'].
  exists ((take i c ++ drop (S i) c) ++ rest). eexists.
  assert (es ≡ₚ e :: (take i c ++ drop (S i) c) ++ rest) as He0.
  { rewrite Hes. by rewrite (take_drop_perm c i e Hi) at 1. }
  split; [done|]. rewrite Eb. cbn [mbind res_bind]. split; [exact Es|].
  split; [cbn [sz]; by rewrite (length_app new)|]. cbn [buckets cap cap_bits sz]. split; [done|]. split; [done|].
  split; [destruct Hok' as (H1 & H2 & H3); split; [done|]; split; [done|]; by rewrite H3, Hp, <-app_assoc|].
  apply Permutation_length in He0. cbn [length] in He0. clear -He0 Hload Hsz Hnew. Z.div_mod_to_equations. lia.
Qed.

Lemma overwrite_ok m es key value i e :
  holds m es → found_at m es key i e →
  ∃ es0 l, es ≡ₚ e :: es0 ∧
    overwrite (hash_bits (hash_fn key) (cap_bits m)) i (Entry key value) (buckets m) = Ok (Array l) ∧
    holds (HashMap (Array l) (cap m) (cap_bits m) (sz m)) (Entry key value :: es0).
Proof.
  intros Hm Hf. destruct (change_found m es key i e (λ c, <[i := Entry key value]> c) [Entry key value] Hm Hf)
    as (es0 & l & Hes & E & Hh); [|done|].
  - intros c Hi Hin. assert (i < length c)%nat as Hlt by (by eapply lookup_lt_Some). split.
    + intros x [j Hj]%list_elem_of_lookup. destruct (decide (j = i)) as [->|Hne].
      * rewrite list_lookup_insert_eq in Hj by done. by injection Hj as <-.
      * rewrite list_lookup_insert_ne in Hj by done. apply Hin. by eapply list_elem_of_lookup_2.
    + rewrite (take_drop_perm _ i (Entry key value)) by (by apply list_lookup_insert_eq).
      by rewrite take_insert_ge, drop_insert_lt by lia.
  - exists es0, l. split; [done|]. split; [exact E|]. destruct Hm as [-> _].
    rewrite (Permutation_length Hes). exact Hh.
Qed.

Lemma del_entry_ok m es key i e :
  holds m es → found_at m es key i e →
  ∃ es0 l, es ≡ₚ e :: es0 ∧
    hashmap_del_entry (hash_bits (hash_fn key) (cap_bits m)) i (buckets m) = Ok (Array l) ∧
    holds (HashMap (Array l) (cap m) (cap_bits m) (u64 (sz m - 1))) es0.
Proof.
  intros Hm Hf. destruct (change_found m es key i e (λ c, take i c ++ drop (S i) c) [] Hm Hf)
    as (es0 & l & Hes & E & Hh); [|by cbn; lia|].
  - intros c Hi Hin. split; [|done]. intros x Hx. apply Hin. rewrite (take_drop_perm c i e Hi). by right.
  - exists es0, l. split; [done|]. split; [exact E|].
    assert (u64 (sz m - 1) = Z.of_nat (0 + length es0)) as ->; [|exact Hh].
    destruct Hh as [_ Hh]. cbn [buckets cap cap_bits sz] in Hh. destruct Hh as (Hr & Hc & _ & Hl).
    destruct Hm as [-> _]. rewrite (Permutation_length Hes). cbn [length].
    pose proof (Z.pow_le_mono_r 2 (cap_bits m) 30). rewrite u64_small by (Z.div_mod_to_equations; lia). lia.
Qed.

Lemma put_entry_ok m es key value :
  holds m es → roomy m →
  ∃ l, hashmap_add_entry (hash_bits (hash_fn key) (cap_bits m)) (Entry key value) (buckets m) = Ok (Array l) ∧
    holds (HashMap (Array l) (cap m) (cap_bits m) (u64 (sz m + 1))) (Entry key value :: es).
Proof.
  intros [Hsz Hb] [Hroom Hnull]. destruct (buckets m) as [| |l0]; [done|done|].
  destruct Hb as (Hr & Hcap & Hok & _).
  destruct (add_entry_ok (cap_bits m) l0 es (Entry key value) ltac:(lia) Hok) as (l & E & Hl).
  exists l. split; [exact E|]. pose proof (Z.pow_le_mono_r 2 (cap_bits m) 30) as Hp.
  assert (u64 (sz m + 1) = sz m + 1) as Eu by (apply u64_small; clear -Hroom Hcap Hp Hr Hsz; Z.div_mod_to_equations; lia).
  rewrite Eu. split; [cbn [sz length]; lia|]. by cbn [buckets cap cap_bits sz].
Qed.

Lemma roomy_ready m es : holds m es → hashmap_needs_to_grow m = false → roomy m.
Proof.
  intros [Hsz Hb]. unfold hashmap_needs_to_grow. intros [H0 H1]%orb_false_iff.
  apply Z.eqb_neq in H0. apply Z.ltb_ge in H1. destruct (buckets m) as [| |l] eqn:El; [lia|done|].
  destruct Hb as (Hr & Hcap & _ & Hload). pose proof (Z.pow_le_mono_r 2 (cap_bits m) 30) as Hp.
  assert (0 ≤ sz m < 2 ^ 31) as Hs by (clear -Hload Hcap Hp Hr Hsz; Z.div_mod_to_equations; lia).
  rewrite (u64_small (sz m + 1)), u64_small in H1 by lia. split; [done|by rewrite El].
Qed.

(** ** Tables and maps *)

Definition kv (e : entry) : A * (K * V) := (content (e_key e), (e_key e, e_value e)).

(** The table holds the map: each key once. *)
Definition repr (m : table) (g : gmap A (K * V)) : Prop :=
  ∃ es, holds m es ∧ NoDup (kv <$> es).*1 ∧ g = list_to_map (kv <$> es).

Lemma map_perm es es' :
  NoDup (kv <$> es).*1 → es ≡ₚ es' →
  NoDup (kv <$> es').*1 ∧ (list_to_map (kv <$> es) : gmap A (K * V)) = list_to_map (kv <$> es').
Proof.
  intros Hn Hp. assert (kv <$> es ≡ₚ kv <$> es') as Hp' by (by rewrite Hp). split.
  - by rewrite <-Hp'.
  - by apply list_to_map_proper.
Qed.

Lemma map_without es a :
  (∀ e, e ∈ es → content (e_key e) ≠ a) → (list_to_map (kv <$> es) : gmap A (K * V)) !! a = None ∧ a ∉ (kv <$> es).*1.
Proof.
  intros Hout. assert (a ∉ (kv <$> es).*1) as Ha; [|split; [by apply not_elem_of_list_to_map_1|done]].
  rewrite <-list_fmap_compose. intros (e & -> & He)%list_elem_of_fmap. by apply (Hout e).
Qed.

(** A map with an entry of the key [k], and without one. *)
Lemma map_with es e es0 k :
  NoDup (kv <$> es).*1 → es ≡ₚ e :: es0 → content (e_key e) = content k →
  let g0 : gmap A (K * V) := list_to_map (kv <$> es0) in
  list_to_map (kv <$> es) = <[content k := (e_key e, e_value e)]> g0 ∧ g0 !! content k = None ∧
  NoDup (kv <$> es0).*1 ∧ content k ∉ (kv <$> es0).*1.
Proof.
  intros Hn Hp Hk. destruct (map_perm es _ Hn Hp) as [Hn' E]. cbn [fmap list_fmap kv fst] in Hn'.
  rewrite <-Hk. apply NoDup_cons in Hn' as [Hout Hn']. split; [rewrite E; done|].
  split; [by apply not_elem_of_list_to_map_1|done].
Qed.

Lemma repr_size m g : repr m g → sz m = Z.of_nat (size g).
Proof.
  intros (es & [Hsz _] & Hn & ->). rewrite Hsz, map_size_list_to_map by done. by rewrite length_fmap.
Qed.

(** ** The operations of a map *)

Inductive map_op :=
  | Insert (key : K) (value : V) (strategy : hashmap_insert_strategy)
  | Find (key : K)
  | Delete (key : K).
Inductive reply :=
  | Inserted (err : Z) (old : option (K * V))
  | Found (value : option V)
  | Deleted (old : option (K * V)).

Definition is_map_op (o : map_op) : Prop := match o with Insert _ _ s => s ≠ HASHMAP_APPEND | _ => True end.

Definition table_op (calloc : Z → bool) (malloc : bool) (o : map_op) (m : table) : res (reply * table) :=
  match o with
  | Insert k v s =>
    '(err, old, m) ← hashmap__insert hash_fn equal_fn calloc malloc m k v s; Ok (Inserted err old, m)
  | Find k => v ← hashmap__find hash_fn equal_fn m k; Ok (Found v, m)
  | Delete k => '(old, m) ← hashmap__delete hash_fn equal_fn m k; Ok (Deleted old, m)
  end.

Definition spec_op (o : map_op) (g : gmap A (K * V)) : reply * gmap A (K * V) :=
  match o with
  | Insert k v s =>
    match g !! content k with
    | Some old => if decide (s = HASHMAP_ADD) then (Inserted (- EEXIST) (Some old), g)
                  else (Inserted 0 (Some old), <[content k := (k, v)]> g)
    | None => if decide (s = HASHMAP_UPDATE) then (Inserted (- ENOENT) None, g)
              else (Inserted 0 None, <[content k := (k, v)]> g)
    end
  | Find k => (Found (snd <$> g !! content k), g)
  | Delete k => (Deleted (g !! content k), delete (content k) g)
  end.

(** Without memory an insertion of a new key changes nothing. *)
Definition no_memory (calloc : Z → bool) (malloc : bool) (o : map_op) (g : gmap A (K * V)) : Prop :=
  match o with
  | Insert k _ s => g !! content k = None ∧ s ≠ HASHMAP_UPDATE ∧ (malloc = false ∨ ∃ n, calloc n = false)
  | _ => False
  end.
Definition step_ok (calloc : Z → bool) (malloc : bool) (o : map_op) (g : gmap A (K * V)) (r : reply)
    (g' : gmap A (K * V)) : Prop :=
  (r, g') = spec_op o g ∨ (no_memory calloc malloc o g ∧ r = Inserted (- ENOMEM) None ∧ g' = g).

Section step.
Variables (calloc : Z → bool) (malloc : bool).
Hypothesis memory_bounded : ∀ n, calloc n = true → n < 2 ^ 31.

Lemma repr_lookup m g key :
  repr m g →
  ∃ es r, holds m es ∧ NoDup (kv <$> es).*1 ∧ g = list_to_map (kv <$> es) ∧
    hashmap_find_entry equal_fn m key (hash_bits (hash_fn key) (cap_bits m)) = Ok r ∧
    match r with
    | Some (i, e) => found_at m es key i e ∧ g !! content key = Some (e_key e, e_value e)
    | None => g !! content key = None ∧ content key ∉ (kv <$> es).*1
    end.
Proof.
  intros (es & Hm & Hn & Hg). destruct (find_entry_ok m es key Hm) as (r & E & Hr).
  exists es, r. repeat (split; [done|]). destruct r as [[i e]|]; [|rewrite Hg; by apply map_without].
  split; [done|]. destruct Hr as (l & c & rest & _ & _ & _ & Hes & _ & Hi & Hk).
  assert (es ≡ₚ e :: (take i c ++ drop (S i) c) ++ rest) as Hp by (rewrite Hes; by rewrite (take_drop_perm c i e Hi) at 1).
  destruct (map_with es e _ key Hn Hp Hk) as (E' & _). rewrite Hg, E'. by rewrite lookup_insert_eq.
Qed.

Lemma insert_new m es key value :
  holds m es → NoDup (kv <$> es).*1 → content key ∉ (kv <$> es).*1 →
  let g : gmap A (K * V) := list_to_map (kv <$> es) in
  ∃ err m', insert_entry hash_fn calloc malloc m key value = Ok (err, None : option (K * V), m') ∧
    ((err = 0 ∧ repr m' (<[content key := (key, value)]> g)) ∨
     (err = - ENOMEM ∧ repr m' g ∧ (malloc = false ∨ ∃ n, calloc n = false))).
Proof.
  intros Hm Hn Hout g. unfold insert_entry.
  assert (∃ m1, (if hashmap_needs_to_grow m then hashmap_grow hash_fn calloc m else Ok (0, m)) = Ok (- ENOMEM, m1) ∧
            holds m1 es ∧ (∃ n, calloc n = false) ∨
          (if hashmap_needs_to_grow m then hashmap_grow hash_fn calloc m else Ok (0, m)) = Ok (0, m1) ∧
            holds m1 es ∧ roomy m1) as (m1 & [(-> & Hm1 & Hc)|(-> & Hm1 & Hroom)]).
  { destruct (hashmap_needs_to_grow m) eqn:Eg.
    - destruct (grow_ok calloc memory_bounded m es Hm Eg) as [[Hc E]|(m1 & E & Hm1 & Hr)]; [|by exists m1; right].
      exists m. left. split; [done|]. split; [done|]. by eexists.
    - exists m. right. split; [done|]. split; [done|]. by eapply roomy_ready. }
  all: cbn [mbind res_bind].
  - exists (- ENOMEM), m1. split; [done|]. right. split; [done|]. split; [by exists es|by right].
  - cbn [Z.eqb negb]. destruct malloc; cbn [negb].
    + destruct (put_entry_ok m1 es key value Hm1 Hroom) as (l & -> & Hl). cbn [mbind res_bind].
      exists 0. eexists. split; [done|]. left. split; [done|]. exists (Entry key value :: es).
      split; [exact Hl|]. cbn [fmap list_fmap kv fst e_key e_value]. split; [by apply NoDup_cons|done].
    + exists (- ENOMEM), m1. split; [done|]. right. split; [done|]. split; [by exists es|by left].
Qed.

Lemma insert_step m g key value s :
  s ≠ HASHMAP_APPEND → repr m g →
  ∃ r m' g', table_op calloc malloc (Insert key value s) m = Ok (r, m') ∧
    step_ok calloc malloc (Insert key value s) g r g' ∧ repr m' g'.
Proof.
  intros Hs Hg. destruct (repr_lookup m g key Hg) as (es & r & Hm & Hn & -> & E & Hr).
  unfold table_op, hashmap__insert, step_ok. cbv zeta. destruct (decide (s = HASHMAP_APPEND)); [done|]. rewrite E. cbn [mbind res_bind spec_op].
  destruct r as [[i e]|].
  - destruct Hr as [Hf Hl]. rewrite Hl. destruct (decide (s = HASHMAP_ADD)).
    + eexists _, m, _. split; [done|]. split; [by left|done].
    + destruct (overwrite_ok m es key value i e Hm Hf) as (es0 & l & Hes & -> & Hh). cbn [mbind res_bind].
      assert (content (e_key e) = content key) as Hk by (by destruct Hf as (? & ? & ? & _ & _ & _ & _ & _ & _ & ?)).
      destruct (map_with es e es0 key Hn Hes Hk) as (Eg & Hnone & Hn0 & Hout).
      eexists _, _, _. split; [done|]. split; [by left|]. exists (Entry key value :: es0). split; [exact Hh|].
      cbn [fmap list_fmap kv fst e_key e_value]. split; [by apply NoDup_cons|].
      cbn [list_to_map foldr]. rewrite Eg. by rewrite insert_insert_eq.
  - destruct Hr as [Hnone Hout]. rewrite Hnone. destruct (decide (s = HASHMAP_UPDATE)).
    + eexists _, m, _. split; [done|]. split; [by left|done].
    + destruct (insert_new m es key value Hm Hn Hout) as (err & m' & -> & [[-> Hm']|(-> & Hm' & Hmem)]);
        cbn [mbind res_bind].
      * eexists _, m', _. split; [done|]. split; [by left|done].
      * eexists _, m', _. split; [done|]. split; [|exact Hm']. by right.
Qed.

Lemma find_step m g key :
  repr m g → hashmap__find hash_fn equal_fn m key = Ok (snd <$> g !! content key).
Proof.
  intros Hg. destruct (repr_lookup m g key Hg) as (es & r & _ & _ & _ & E & Hr).
  unfold hashmap__find. rewrite E. cbn [mbind res_bind]. destruct r as [[i e]|].
  - destruct Hr as [_ ->]. done.
  - destruct Hr as [-> _]. done.
Qed.

Lemma delete_step m g key :
  repr m g → ∃ m', hashmap__delete hash_fn equal_fn m key = Ok (g !! content key, m') ∧ repr m' (delete (content key) g).
Proof.
  intros Hg. destruct (repr_lookup m g key Hg) as (es & r & Hm & Hn & Hes & E & Hr).
  unfold hashmap__delete. rewrite E. cbn [mbind res_bind]. destruct r as [[i e]|].
  - destruct Hr as [Hf ->]. destruct (del_entry_ok m es key i e Hm Hf) as (es0 & l & Hp & -> & Hh). cbn [mbind res_bind].
    assert (content (e_key e) = content key) as Hk by (by destruct Hf as (? & ? & ? & _ & _ & _ & _ & _ & _ & ?)).
    destruct (map_with es e es0 key Hn Hp Hk) as (Eg & Hnone & Hn0 & Hout).
    eexists. split; [done|]. exists es0. split; [exact Hh|]. split; [done|].
    rewrite Hes, Eg. by rewrite delete_insert_id.
  - destruct Hr as [Hnone _]. rewrite Hnone. exists m. split; [done|]. by rewrite delete_id.
Qed.
End step.

(** ** Sequences of operations *)

(** An operation and the memory it finds. *)
Abbreviation step := (map_op * (Z → bool) * bool)%type.

Fixpoint run_table (ops : list step) (m : table) : res (list reply * table) :=
  match ops with
  | [] => Ok ([], m)
  | (o, calloc, malloc) :: ops =>
    '(r, m) ← table_op calloc malloc o m;
    '(rs, m) ← run_table ops m;
    Ok (r :: rs, m)
  end.

Inductive follows : list step → gmap A (K * V) → list reply → gmap A (K * V) → Prop :=
  | follows_nil g : follows [] g [] g
  | follows_cons o calloc malloc ops g r g1 rs g2 :
      step_ok calloc malloc o g r g1 → follows ops g1 rs g2 →
      follows ((o, calloc, malloc) :: ops) g (r :: rs) g2.

Definition step_allowed (s : step) : Prop :=
  let '(o, calloc, _) := s in is_map_op o ∧ ∀ n, calloc n = true → n < 2 ^ 31.

Lemma table_step calloc malloc o m g :
  is_map_op o → (∀ n, calloc n = true → n < 2 ^ 31) → repr m g →
  ∃ r m' g', table_op calloc malloc o m = Ok (r, m') ∧ step_ok calloc malloc o g r g' ∧ repr m' g'.
Proof.
  intros Ho Hc Hg. destruct o as [k v s|k|k].
  - by apply insert_step.
  - cbn [table_op]. rewrite (find_step m g k Hg). eexists _, m, g. split; [done|]. split; [by left|done].
  - cbn [table_op]. destruct (delete_step m g k Hg) as (m' & -> & Hm').
    eexists _, m', _. split; [done|]. split; [by left|done].
Qed.

Lemma run_table_follows ops : ∀ m g,
  Forall step_allowed ops → repr m g →
  ∃ rs m' g', run_table ops m = Ok (rs, m') ∧ follows ops g rs g' ∧ repr m' g'.
Proof.
  induction ops as [|[[o calloc] malloc] ops IH]; intros m g Hops Hg; cbn [run_table].
  { exists [], m, g. split; [done|]. split; [constructor|done]. }
  apply Forall_cons in Hops as [[Ho Hc] Hops].
  destruct (table_step calloc malloc o m g Ho Hc Hg) as (r & m1 & g1 & -> & Hs & Hg1). cbn [mbind res_bind].
  destruct (IH m1 g1 Hops Hg1) as (rs & m2 & g2 & -> & Hf & Hg2). cbn [mbind res_bind].
  exists (r :: rs), m2, g2. split; [done|]. split; [by econstructor|done].
Qed.

Lemma repr_init : repr hashmap__init ∅.
Proof. exists []. split; [done|]. split; [constructor|done]. Qed.

(** What a table that holds a map shows and how it ends. *)
Lemma repr_shows m g :
  repr m g →
  hashmap__size m = Z.of_nat (size g) ∧ hashmap__size m * 4 / 3 ≤ hashmap__capacity m ∧
  (∃ es, for_each_entry m = Ok es ∧ kv <$> es ≡ₚ map_to_list g) ∧ hashmap__free (Some m) = Ok tt.
Proof.
  intros Hg. split; [by apply repr_size|]. destruct Hg as (es & Hm & Hn & ->).
  pose proof Hm as [Hsz Hb]. unfold hashmap__size, hashmap__capacity. split_and!.
  - destruct (buckets m) as [| |l]; [|done|by apply Hb]. destruct Hb as (-> & _ & ->). by rewrite Hsz.
  - destruct (for_each_ok m es Hm) as (es' & E & Hp). exists es'. split; [done|].
    rewrite map_to_list_to_map by done. by rewrite Hp.
  - cbn [hashmap__free]. unfold hashmap__clear. destruct (buckets m); done.
Qed.
End props.

(** C32: A new table, driven by any operations that add, set, update, look up or delete, with memory
    that may run out at any of them, answers what a finite map from the contents of keys answers,
    the old keys and values included; an insertion without memory answers -ENOMEM and changes
    nothing.  The table then has the size of the map, is at most three quarters full (rounded down), lists each
    entry once, and can be freed.  Keys are equal when their contents are, and then have one
    hash; and no array of 2^31 buckets can be had. *)
Theorem hashmap_is_a_map {K V A : Type} `{Countable A} (hash_fn : K → Z) (equal_fn : K → K → bool) (content : K → A) ops :
  (∀ k1 k2, equal_fn k1 k2 = bool_decide (content k1 = content k2)) →
  (∀ k1 k2, content k1 = content k2 → hash_fn k1 = hash_fn k2) →
  Forall step_allowed ops →
  ∃ rs (m : hashmap K V) g, run_table hash_fn equal_fn ops hashmap__init = Ok (rs, m) ∧ follows content ops ∅ rs g ∧
    hashmap__size m = Z.of_nat (size g) ∧ hashmap__size m * 4 / 3 ≤ hashmap__capacity m ∧
    (∃ es, for_each_entry m = Ok es ∧ kv content <$> es ≡ₚ map_to_list g) ∧ hashmap__free (Some m) = Ok tt.
Proof.
  intros He Hh Hops. destruct (run_table_follows hash_fn equal_fn content He Hh ops hashmap__init ∅ Hops
    (repr_init hash_fn content)) as (rs & m & g & E & Hf & Hg).
  exists rs, m, g. split; [done|]. split; [done|]. by eapply (repr_shows hash_fn).
Qed.

(** ** Tables of numbers *)

Definition plenty (n : Z) : bool := n <? 2 ^ 31.
Definition same_number (a b : Z) : bool := bool_decide (a = b).
Definition put (k v : Z) : map_op * (Z → bool) * bool := (Insert k v HASHMAP_SET, plenty, true).

(** Five keys, so that the array grows; an old value, a key that is there, one that
    is not, an insertion without memory, and a deletion. *)
Definition sample_ops : list (map_op * (Z → bool) * bool) :=
  [put 1 10; put 2 20; put 3 30; put 4 40; put 5 50; put 2 21;
   (Insert 1 11 HASHMAP_ADD, plenty, true); (Insert 7 70 HASHMAP_UPDATE, plenty, true);
   (Insert 8 80 HASHMAP_ADD, plenty, false); (Find 2, plenty, true); (Delete 3, plenty, true); (Find 3, plenty, true)].

Lemma hashmap_is_a_map_witness :
  (∃ rs m g, run_table id same_number sample_ops hashmap__init = Ok (rs, m) ∧ follows id sample_ops ∅ rs g ∧
    hashmap__size m = Z.of_nat (size g) ∧ hashmap__size m * 4 / 3 ≤ hashmap__capacity m ∧
    (∃ es, for_each_entry m = Ok es ∧ kv id <$> es ≡ₚ map_to_list g) ∧ hashmap__free (Some m) = Ok tt) ∧
  (fst <$> match run_table id same_number sample_ops hashmap__init with Ok r => Some r | Err _ => None end) =
    Some [Inserted 0 None; Inserted 0 None; Inserted 0 None; Inserted 0 None; Inserted 0 None; Inserted 0 (Some (2, 20));
          Inserted (-17) (Some (1, 10)); Inserted (-2) None; Inserted (-12) None; Found (Some 21); Deleted (Some (3, 30));
          Found None].
Proof.
  split; [|vm_compute; reflexivity].
  apply (hashmap_is_a_map id same_number id sample_ops); [intros k1 k2; reflexivity|intros k1 k2 E; exact E|].
  unfold sample_ops, put. repeat constructor; try (intros n Hn; unfold plenty in Hn; lia); try discriminate.
Defined.

(** The comment of HASHMAP_APPEND promises the last value of a key; growing turns the
    chains around, so afterwards the first is found. *)
Example append_then_grow :
  let app k v := λ m, '(_, _, m) ← hashmap__insert id same_number plenty true m k v HASHMAP_APPEND; Ok m in
  let three := m ← app 1 10 hashmap__init; m ← app 1 11 m; app 1 12 m in
  (m ← three; hashmap__find id same_number m 1) = Ok (Some 12) ∧
  (m ← three; m ← app 2 20 m; hashmap__find id same_number m 1) = Ok (Some 10).
Proof. vm_compute. auto. Qed.

(** A cleared table keeps the pointer to the array that was freed: looking a key up reads
    it, and clearing again frees it again. *)
Example cleared_table :
  let cleared := '(_, _, m) ← hashmap__insert id same_number plenty true hashmap__init 1 10 HASHMAP_SET; hashmap__clear m in
  (m ← cleared; hashmap__find id same_number m 1) = Err NullDeref ∧
  (m ← cleared; hashmap__free (Some m)) = Err BadFree.
Proof. vm_compute. auto. Qed.
