(* ===== verification/LibSys.v ===== *)
(** * The set-up of the flow monitor's socket through libbpf

    [SysOps], against which the set-up of lxdpFlow.c and comm.c is proved, has an
    implementation in xsk.c: the calls of XskLib.v over a system of [XskSys].  The
    state is the system's, with the structures of libbpf that the pointers of
    [xsk_umem_info] and [xsk_socket_info] lead to.  A socket that was opened through
    both layers can be closed through both, and nothing stays. *)

From S2P Require Import Prelude Io Config CmdLine Loader LoaderProps XskRing XskSpec.
From S2P Require Import DefaultProg XskLib XskLibProps XdpSetup XdpSetupProps.
From S2P Require Xsk.

(** What the set-up needs of the system beside libbpf; memory has an address. *)
Class HostOps (K : Type) := {
  h_setrlimit : K → Z * K;
  h_memalign : Z → K → option (Z * list Z) * K;
  h_calloc : K → bool * K;
  h_malloc : K → bool * K;
  h_free : K → K;
  h_nametoindex : string → K → Z;
  h_pthread_create : K → Z * K
}.

(** What libbpf keeps for the caller: the address of its memory, the umem with the
    structs of its rings, and the socket with those of its own. *)
Record lib := Lib {
  l_area : Z;
  l_umem : option (xsk_umem * ring_struct * ring_struct);
  l_socket : option (xsk_socket * option ring_struct * option ring_struct)
}.
Definition no_lib : lib := Lib 0 None None.

Section implementation.
Context {K : Type} {LO : LinkOps K} {XS : XskSys K} {HO : HostOps K}.
Variable pagesize : Z.
Abbreviation state := (K * lib)%type.

(** A call of the system, which leaves the structures alone. *)
Definition on_kernel {A} (f : K → A * K) (s : state) : A * state :=
  let '(a, k) := f s.1 in (a, (k, s.2)).

#[export] Instance lib_link : LinkOps state := {
  bpf_set_link_xdp_fd i fd f := on_kernel (bpf_set_link_xdp_fd i fd f);
  bpf_get_link_xdp_id i f := on_kernel (bpf_get_link_xdp_id i f)
}.

Definition blank {A} : xsk_ring A := ring_at zero_mem zero_ring.

(** The structs of the rings come from calloc, and a mapped ring holds zeros. *)
Definition lib_umem_create (size : Z) (s : state) : Z * xsk_ring Z * xsk_ring Z * state :=
  let '(k, L) := s in
  match XskLib.xsk_umem__create pagesize (l_area L) size (Some zero_ring) (Some zero_ring) None k with
  | (Ok (err, Some (um, f, c)), k) =>
      (err, ring_at zero_mem f, ring_at zero_mem c, (k, Lib (l_area L) (Some (um, f, c)) (l_socket L)))
  | (Ok (err, None), k) => (err, blank, blank, (k, Lib (l_area L) None (l_socket L)))
  | (Err _, k) => (-1, blank, blank, (k, L))
  end.

(** The umem as libbpf has it: it counts the socket. *)
Definition the_umem (L : lib) : option xsk_umem :=
  (λ x, with_refcount (if l_socket L then 1 else 0) x.1.1) <$> l_umem L.

(** The name is in an array of 16 bytes, of malloc in comm.c. *)
Definition lib_socket_create (nm : string) (q : Z) (xc : Xsk.xsk_socket_config) (s : state) :
  Z * xsk_ring xdp_desc * xsk_ring xdp_desc * state :=
  let '(k, L) := s in
  match XskLib.xsk_socket__create nm 16 q (the_umem L) (Some zero_ring) (Some zero_ring) (Some xc) k with
  | (Ok (err, _, Some (sk, rx, tx)), k) =>
      (err, ring_at zero_mem (default zero_ring rx), ring_at zero_mem (default zero_ring tx),
       (k, Lib (l_area L) (l_umem L) (Some (sk, rx, tx))))
  | (Ok (err, _, None), k) => (err, blank, blank, (k, L))
  | (Err _, k) => (-1, blank, blank, (k, L))
  end.

Definition lib_socket_delete (s : state) : state :=
  let '(k, L) := s in
  match the_umem L, l_socket L with
  | Some um, Some (sk, rx, tx) =>
    match XskLib.xsk_socket__delete (Some sk) um (default zero_ring rx) (default zero_ring tx) k with
    | (Ok _, k) => (k, Lib (l_area L) (l_umem L) None)
    | (Err _, k) => (k, L)
    end
  | _, _ => s
  end.

(** A umem that is still in use stays. *)
Definition lib_umem_delete (s : state) : state :=
  let '(k, L) := s in
  match l_umem L with
  | Some (_, f, c) =>
    match XskLib.xsk_umem__delete (the_umem L) f c k with
    | (Ok ret, k) => (k, if ret =? 0 then Lib (l_area L) None (l_socket L) else L)
    | (Err _, k) => (k, L)
    end
  | None => s
  end.

Definition lib_memalign (n : Z) (s : state) : option (list Z) * state :=
  match h_memalign n s.1 with
  | (Some (a, buf), k) => (Some buf, (k, Lib a (l_umem s.2) (l_socket s.2)))
  | (None, k) => (None, (k, s.2))
  end.

#[export] Instance lib_sys : SysOps state := {
  setrlimit_memlock := on_kernel h_setrlimit;
  posix_memalign := lib_memalign;
  calloc := on_kernel h_calloc;
  malloc := on_kernel h_malloc;
  free_block s := (h_free s.1, s.2);
  XdpSetup.xsk_umem__create := lib_umem_create;
  XdpSetup.xsk_socket__create nm q _ xc := lib_socket_create nm q xc;
  XdpSetup.xsk_socket__delete := lib_socket_delete;
  XdpSetup.xsk_umem__delete := lib_umem_delete;
  if_nametoindex nm s := h_nametoindex nm s.1;
  pthread_create := on_kernel h_pthread_create
}.
End implementation.

(** ** The laws *)

(** A block that is had counts among what the process holds until it is freed. *)
Class HostLaws (K : Type) `{XskLaws K, HostOps K} := {
  host_rlimit k : held (h_setrlimit k).2 = held k;
  host_memalign n k : let '(r, k') := h_memalign n k in
    match r with
    | Some (_, buf) => held k' = h_alloc 1 (held k) ∧ (0 ≤ n → Z.of_nat (length buf) = n)
    | None => held k' = held k
    end;
  host_calloc k : let '(ok, k') := h_calloc k in held k' = if (ok : bool) then h_alloc 1 (held k) else held k;
  host_malloc k : let '(ok, k') := h_malloc k in held k' = if (ok : bool) then h_alloc 1 (held k) else held k;
  host_free k : held (h_free k) = h_alloc (-1) (held k)
}.

Section laws.
Context {K : Type} {LO : LinkOps K} {XS : XskSys K} {XL : XskLaws K} {HO : HostOps K} {HL : HostLaws K}.
Variable pagesize : Z.
Abbreviation state := (K * lib)%type.
(** Object files, which opening a socket without a program does not touch. *)
Context {BO : BpfOps state}.
(** Every socket answers with the same offsets. *)
Context (off : xdp_mmap_offsets).
Hypothesis layout : ∀ fd (k : K), ∃ k', xsk_get_mmap_offsets fd k = (Ok (0, Some off), k') ∧ held k' = held k.
Hypothesis one_map : one_xsks_map K.

#[local] Instance sys : SysOps state := lib_sys pagesize.

Lemma error_negative err : error_code (K := K) err → err < 0.
Proof.
  intros [?|(-> & fd & k1 & Ho)]; [done|]. exfalso. destruct (layout fd k1) as (k' & E & _).
  unfold other_size in Ho. unfold xsk_get_mmap_offsets, call, mbind, io_bind in E.
  destruct (mmap_offsets fd k1) as [[[err optlen] ws] k2]. destruct Ho as (-> & H128 & H96). cbn [Z.eqb negb] in E.
  rewrite (proj2 (Z.eqb_neq _ _) H128), (proj2 (Z.eqb_neq _ _) H96) in E. discriminate E.
Qed.

Lemma umem_create_cases size k L :
  ∃ err f c k' L', lib_umem_create pagesize size (k, L) = (err, f, c, (k', L')) ∧
    (err < 0 ∨ (err = 0 ∧ new_prod f ∧ ∃ um rf rc, L' = Lib (l_area L) (Some (um, rf, rc)) (l_socket L) ∧
       umem_made (l_area L) None zero_ring zero_ring k um rf rc (held k'))).
Proof.
  unfold lib_umem_create. pose proof (create_umem_spec pagesize (l_area L) size None zero_ring zero_ring k) as Hw.
  unfold wp in Hw. destruct (XskLib.xsk_umem__create _ _ _ _ _ _ k) as [r k']. cbn [fst snd] in Hw.
  destruct Hw as (err & o & -> & Ho). destruct o as [[[um f] c]|].
  - destruct Ho as [-> Hm]. eexists _, _, _, _, _. split; [done|]. right. split; [done|]. split.
    + destruct Hm as (o & fd & m1 & m2 & _ & _ & _ & _ & _ & _ & _ & _ & _ & -> & _). apply fill_ring_new.
    + by exists um, f, c.
  - eexists _, _, _, _, _. split; [done|]. left. apply error_negative, Ho.
Qed.

Lemma socket_create_cases nm q xc k L :
  ∃ err rx tx k' L', lib_socket_create nm q xc (k, L) = (err, rx, tx, (k', L')) ∧
    (err < 0 ∨ (err = 0 ∧ (Xsk.rx_size xc = Xsk.XSK_RING_CONS__DEFAULT_NUM_DESCS → new_cons rx) ∧ ∃ um sk rrx rtx,
       the_umem L = Some um ∧ L' = Lib (l_area L) (l_umem L) (Some (sk, rrx, rtx)) ∧
       socket_made nm q um (Some zero_ring) (Some zero_ring) k xc sk rrx rtx k')).
Proof.
  unfold lib_socket_create. unfold XskLib.xsk_socket__create. destruct (the_umem L) as [um|] eqn:Eu.
  2: { eexists _, _, _, _, _. split; [done|]. left. done. }
  cbn [is_some orb negb].
  assert (0 ≤ refcount um < 2 ^ 31 - 1) as Hn.
  { unfold the_umem in Eu. destruct (l_umem L); [|done]. injection Eu as <-. cbn. destruct (l_socket L); lia. }
  pose proof (create_for_spec nm 16 q um (Some zero_ring) (Some zero_ring) k Hn (Some xc) one_map ltac:(by cbn; lia)) as Hw. unfold wp in Hw.
  unfold mbind, io_bind. destruct (create_for _ _ _ _ _ _ _ k) as [r k']. cbn [fst snd] in Hw.
  destruct Hw as (err & u' & o & -> & Ho). cbn [mret io_ret]. destruct o as [[[sk rx] tx]|].
  - destruct Ho as (-> & -> & c & Hc & Hm). assert (c = xc) as -> by (unfold used_config, xsk_set_xdp_socket_config in Hc; destruct (negb _); [done|congruence]).
    eexists _, _, _, _, _. split; [done|]. right. split; [done|]. split.
    + intros Hsize. destruct Hm as (fd & i & o & rm & tm & k9 & _ & _ & (a & _ & _ & _ & ->) & _). cbn [from_option id]. rewrite Hsize. apply rx_ring_new.
    + by exists um, sk, rx, tx.
  - eexists _, _, _, _, _. split; [done|]. left. apply error_negative, Ho.
Qed.

#[export] Program Instance lib_sys_laws : SysLaws state.
Next Obligation.
  intros n [k L] Hn. cbn. unfold lib_memalign. cbn [fst snd]. pose proof (host_memalign n k) as Hl.
  destruct (h_memalign n k) as [[[a buf]|] k']; [|done]. destruct Hl as [_ Hl]. by apply Hl.
Qed.
Next Obligation.
  intros n [k L]. change (XdpSetup.xsk_umem__create n (k, L)) with (lib_umem_create pagesize n (k, L)).
  destruct (umem_create_cases n k L) as (err & f & c & k' & L' & -> & [Hneg|(_ & Hf & _)]); [lia|done].
Qed.
Next Obligation.
  intros nm q um xc [k L] Hs. change (XdpSetup.xsk_socket__create nm q um xc (k, L)) with (lib_socket_create nm q xc (k, L)).
  destruct (socket_create_cases nm q xc k L) as (err & rx & tx & k' & L' & -> & [Hneg|(_ & Hr & _)]); [lia|by intros _; apply Hr].
Qed.

(** ** Opening *)

(** The structures of an open socket, and what the process held before the umem. *)
Definition opened (h : holding) (k : K) (L : lib) : Prop :=
  ∃ um f c sk rx tx ku hm ks km nm q xc,
    L = Lib (l_area L) (Some (um, f, c)) (Some (sk, rx, tx)) ∧
    held ku = h ∧ umem_made (l_area L) None zero_ring zero_ring ku um f c hm ∧ held ks = h_alloc 1 hm ∧
    socket_made nm q um (Some zero_ring) (Some zero_ring) ks xc sk rx tx km ∧ held k = held km.

(** The umem alone, between the two calls, and [n] blocks. *)
Definition umem_opened (h : holding) (n : Z) (k : K) (L : lib) : Prop :=
  ∃ um f c ku hm, L = Lib (l_area L) (Some (um, f, c)) None ∧ held ku = h ∧
    umem_made (l_area L) None zero_ring zero_ring ku um f c hm ∧ held k = h_alloc n hm.

Lemma configure_umem_opens size k L :
  l_socket L = None →
  wp (configure_xsk_umem size) (λ r s, ∀ um, r = Ok (Some um) → umem_opened (h_alloc 1 (held k)) 0 s.1 s.2) (k, L).
Proof.
  intros Hs. unfold configure_xsk_umem. wp_step. apply wp_call. intros ok s1 E1.
  cbn in E1. unfold on_kernel in E1. cbn [fst snd] in E1. pose proof (host_calloc k) as Hc. destruct (h_calloc k) as [ok' k1].
  injection E1 as <- <-. cbn [snd] in Hc. destruct ok'; cbn [negb]; [|by apply wp_ret].
  wp_step. apply wp_call. intros [[ret fq] cq] s2 E2.
  change (lib_umem_create pagesize size (k1, L) = (ret, fq, cq, s2)) in E2.
  destruct (umem_create_cases size k1 L) as (err & f & c & k2 & L' & E & Ho). rewrite E in E2. injection E2 as <- <- <- <-.
  destruct Ho as [Hneg|(-> & _ & um & rf & rc & -> & Hm)].
  - rewrite (proj2 (Z.eqb_neq err 0)) by lia. by apply wp_ret.
  - apply wp_ret. intros _ _. exists um, rf, rc, k1, (held k2). cbn [l_area l_umem l_socket fst snd]. rewrite Hs. split; [done|].
    split; [exact Hc|]. split; [done|by rewrite alloc_0].
Qed.

Lemma configure_socket_opens cfg um h k L :
  umem_opened h 0 k L →
  wp (configure_socket cfg um) (λ r s, ∀ x, r = Ok (Some x) → opened h s.1 s.2) (k, L).
Proof.
  intros (u & f & c & ku & hm & EL & Hku & Hm & Hkm). rewrite alloc_0 in Hkm. unfold configure_socket. wp_step. wp_step. destruct (socket_config cfg) as [xcfg|e]; [|done].
  wp_step. apply wp_call. intros ok s1 E1. cbn in E1. unfold on_kernel in E1. cbn [fst snd] in E1.
  pose proof (host_calloc k) as Hc. destruct (h_calloc k) as [ok' k1]. injection E1 as <- <-. cbn [snd] in Hc.
  destruct ok'; [|by intros x ?].
  pose proof (configure_with_made xcfg um (k1, L)) as Hw.
  change (XdpSetup.xsk_socket__create (Xsk.ifname xcfg) (Xsk.xsk_if_queue xcfg) um (socket_cfg xcfg) (k1, L))
    with (lib_socket_create (Xsk.ifname xcfg) (Xsk.xsk_if_queue xcfg) (socket_cfg xcfg) (k1, L)) in Hw.
  destruct (socket_create_cases (Xsk.ifname xcfg) (Xsk.xsk_if_queue xcfg) (socket_cfg xcfg) k1 L)
    as (err & rx & tx & k2 & L' & E & Ho). rewrite E in Hw.
  eapply wp_mono; [exact Hw|]. clear Hw. intros r s Hr x Hx. destruct (Hr x Hx) as [-> ->]. clear Hr.
  destruct Ho as [Hneg|(_ & _ & u' & sk & rrx & rtx & Hu & -> & Hsk)]; [lia|].
  cbn [bpf_get_link_xdp_id lib_link]. unfold on_kernel. cbn [fst snd].
  pose proof (get_link_law (Xsk.ifindex xcfg) (Xsk.xdp_flags xcfg) k2) as Hl.
  destruct (bpf_get_link_xdp_id (Xsk.ifindex xcfg) (Xsk.xdp_flags xcfg) k2) as [[e id] k3]. destruct Hl as [Hh _]. cbn [fst snd].
  assert (u' = u) as ->.
  { rewrite EL in Hu. cbn in Hu. injection Hu as <-. destruct Hm as (? & ? & ? & ? & -> & _). done. }
  exists u, f, c, sk, rrx, rtx, ku, hm, k1, k2, (Xsk.ifname xcfg), (Xsk.xsk_if_queue xcfg), (socket_cfg xcfg).
  rewrite EL. cbn [l_area l_umem l_socket]. split; [done|]. split; [done|]. split; [done|]. split; [by rewrite Hc, Hkm|]. split; [done|exact Hh].
Qed.

Lemma open_socket_opens cfg clear k L :
  l_socket L = None →
  wp (open_socket cfg clear) (λ r s, ∀ x, r = Ok x → opened (h_alloc 2 (held k)) s.1 s.2) (k, L).
Proof.
  intros Hs. unfold open_socket. wp_step. apply wp_call. intros err s1 E1.
  cbn [setrlimit_memlock sys lib_sys] in E1. unfold on_kernel in E1. cbn [fst snd] in E1.
  pose proof (host_rlimit k) as Hl. destruct (h_setrlimit k) as [e k1]. injection E1 as <- <-. cbn [snd] in Hl.
  destruct (negb (e =? 0)); [by apply wp_exit|].
  wp_step. apply wp_call. intros mb s2 E2. cbn [posix_memalign sys lib_sys] in E2. unfold lib_memalign in E2. cbn [fst snd] in E2.
  pose proof (host_memalign packet_buffer_size k1) as Hm. destruct (h_memalign packet_buffer_size k1) as [[[a buf]|] k2];
    injection E2 as <- <-; [|by apply wp_exit].
  destruct Hm as [Hm _]. wp_step. eapply wp_mono; [by apply configure_umem_opens|].
  intros r [k3 L3] Hr. destruct r as [um|e']; [|done]. destruct um as [um|]; [|by apply wp_exit].
  specialize (Hr um eq_refl). wp_step. rewrite Hm, Hl, alloc_alloc in Hr. eapply wp_mono; [by apply (configure_socket_opens cfg um (h_alloc 2 (held k)))|].
  intros r [k4 L4] Ho. destruct r as [x|e']; [|done]. destruct x as [x|]; [|by apply wp_exit].
  apply wp_ret. intros y _. by apply (Ho x).
Qed.

Lemma create_opens itf queue k L :
  l_socket L = None →
  wp (createXDPSocket itf queue)
     (λ r s, (r = Ok None → held s.1 = if (h_malloc k).1 then h_alloc 1 (held k) else held k) ∧
             (∀ x, r = Ok (Some x) → opened (h_alloc 3 (held k)) s.1 s.2)) (k, L).
Proof.
  intros Hs. unfold createXDPSocket. wp_step. apply wp_call. intros ok s1 E1.
  cbn [malloc sys lib_sys] in E1. unfold on_kernel in E1. cbn [fst snd] in E1.
  pose proof (host_malloc k) as Hl. destruct (h_malloc k) as [ok' k1]. injection E1 as <- <-. cbn [fst snd].
  destruct ok'; cbn [negb]; [|by apply wp_ret].
  destruct (IFNAMSIZ <=? Z.of_nat (strlen itf)); [done|]. wp_step. wp_step.
  match goal with |- wp (if ?b then _ else _) _ _ => destruct b end; [by apply wp_ret|].
  wp_step. unfold create_init_xdp_sock. wp_step. wp_step.
  eapply wp_mono; [by apply open_socket_opens|]. intros r s2 Ho. destruct r as [x|e]; [|done].
  rewrite Hl, alloc_alloc in Ho.
  apply wp_ret. split; [done|]. intros y _. by apply (Ho x).
Qed.

(** ** Closing *)

Lemma detach_quiet i f id k L (Q : res Z → state → Prop) :
  (∀ ret k', held k' = held k → Q (Ok ret) (k', L)) → wp (xdp_link_detach i f id) Q (k, L).
Proof.
  intros HQ. unfold xdp_link_detach. wp_step. apply wp_call. intros [err cur] s1 E1.
  cbn [bpf_get_link_xdp_id lib_link] in E1. unfold on_kernel in E1. cbn [fst snd] in E1.
  pose proof (get_link_law i f k) as Hl. destruct (bpf_get_link_xdp_id i f k) as [[e c] k1]. injection E1 as <- <- <-.
  destruct Hl as [Hk1 _]. destruct (negb (e =? 0)); [by apply wp_ret, HQ|]. destruct (c =? 0); [by apply wp_ret, HQ|].
  destruct (_ && _); [by apply wp_ret, HQ|]. wp_step. apply wp_call. intros e2 s2 E2.
  cbn [bpf_set_link_xdp_fd lib_link] in E2. unfold on_kernel in E2. cbn [fst snd] in E2.
  pose proof (set_link_law i (-1) f k1) as Hl. destruct (bpf_set_link_xdp_fd i (-1) f k1) as [e3 k2]. injection E2 as <- <-.
  destruct Hl as [Hk2 _]. destruct (_ <? 0); apply wp_ret, HQ; by rewrite Hk2.
Qed.

Lemma socket_deleted h k L :
  opened h k L →
  ∃ k' L', lib_socket_delete (k, L) = (k', L') ∧ umem_opened h 1 k' L'.
Proof.
  intros (um & f & c & sk & rx & tx & ku & hm & ks & km & nm & q & xc & -> & Hku & Hm & Hks & Hsk & Hk).
  unfold lib_socket_delete. cbn [the_umem l_umem l_socket l_area fmap option_fmap option_map fst].
  assert (refcount um = 0) as Hn by (by destruct Hm as (? & ? & ? & ? & -> & _)).
  assert (with_refcount 1 um = shared um) as -> by (unfold shared; by rewrite Hn).
  pose proof (delete_socket_spec off layout nm q um (Some zero_ring) (Some zero_ring) ks xc sk rx tx zero_ring zero_ring km k
    (λ r k', r = Ok um ∧ held k' = held ks) ltac:(lia) ltac:(lia) Hsk Hk ltac:(done)) as Hw.
  unfold wp in Hw. destruct (XskLib.xsk_socket__delete _ _ _ _ k) as [r k']. cbn [fst snd] in Hw. destruct Hw as [-> Hk'].
  eexists _, _. split; [done|]. exists um, f, c, ku, hm. split; [done|]. split; [done|]. by rewrite Hk'.
Qed.

Lemma umem_deleted h n k L :
  umem_opened h n k L →
  ∃ k' L', lib_umem_delete (k, L) = (k', L') ∧ held k' = h_alloc n h ∧ l_umem L' = None ∧ l_socket L' = None.
Proof.
  intros (um & f & c & ku & hm & -> & Hku & Hm & Hk). unfold lib_umem_delete. cbn [the_umem l_umem l_socket l_area fmap option_fmap option_map fst].
  assert (with_refcount 0 um = um) as -> by (by destruct Hm as (? & ? & ? & ? & -> & _)).
  pose proof (delete_umem_spec off layout (l_area L) None zero_ring zero_ring um f c ku n hm k
    (λ r k', r = Ok 0 ∧ held k' = h_alloc n (held ku)) Hm Hk ltac:(done)) as Hw.
  unfold wp in Hw. destruct (XskLib.xsk_umem__delete _ _ _ k) as [r k']. cbn [fst snd] in Hw. destruct Hw as [-> Hk'].
  eexists _, _. split; [done|]. by rewrite Hk', Hku.
Qed.

Lemma destroy_closes h k L s :
  opened h k L →
  wp (destroyXDPSocket (Some s)) (λ r s', r = Ok tt ∧ held s'.1 = h_alloc (-1) h ∧ l_umem s'.2 = None ∧ l_socket s'.2 = None) (k, L).
Proof.
  intros Ho. destruct (socket_deleted h k L Ho) as (k1 & L1 & E1 & Hu).
  destruct (umem_deleted h 1 k1 L1 Hu) as (k2 & L2 & E2 & Hk2 & Hum & Hsk).
  unfold destroyXDPSocket, close_xdp_sock. wp_step. wp_step. cbn [or_fault]. wp_step. wp_step.
  cbn [XdpSetup.xsk_socket__delete sys lib_sys]. rewrite E1. wp_step. wp_step. cbn [or_fault fmap option_fmap option_map].
  wp_step. wp_step. cbn [XdpSetup.xsk_umem__delete sys lib_sys]. rewrite E2.
  wp_step. unfold unload_bpf_xdp_program. apply detach_quiet. intros r3 k3 Hk3.
  wp_step. apply detach_quiet. intros r4 k4 Hk4. wp_steps. cbn [free_block sys lib_sys fst snd].
  by rewrite !host_free, Hk4, Hk3, Hk2, !alloc_alloc.
Qed.
End laws.

(** ** The property *)

(** C33: The set-up of the flow monitor's socket, over xsk.c.  For a system that keeps the laws of
    [XskLaws] and [HostLaws], answers with one layout of the rings, and whose programs have at
    most one map xsks_map, [createXDPSocket] with a name that fits either gives NULL, and then
    the process holds what it held and the name's block if that was had, or ends the program, or
    gives a socket with all its frames in front of an empty kernel.  From any later state in
    which the process holds the same, [destroyXDPSocket] deletes the socket and the umem
    through xsk.c and frees their structs: the process holds the descriptors and mappings it held before
    the socket, and exactly two blocks more, the name and the packet memory, which nothing
    frees. *)
Theorem socket_through_libbpf {K : Type} {LO : LinkOps K} {XS : XskSys K} {XL : XskLaws K} {HO : HostOps K}
    {HL : HostLaws K} {BO : BpfOps (K * lib)} pagesize off itf queue k L :
  (∀ fd (k : K), ∃ k', xsk_get_mmap_offsets fd k = (Ok (0, Some off), k') ∧ held k' = held k) →
  one_xsks_map K → (IFNAMSIZ <=? Z.of_nat (strlen itf)) = false → l_socket L = None →
  let S := lib_sys pagesize in
  let '(r, (k1, L1)) := createXDPSocket itf queue (k, L) in
  (r = Ok None ∧ held k1 = if (h_malloc k).1 then h_alloc 1 (held k) else held k) ∨
  r = Err (ExitProgram EXIT_FAILURE) ∨
  ∃ s buf, r = Ok (Some (s, buf)) ∧ fresh_socket s buf ∧
    ∀ k2, held k2 = held k1 →
    ∃ k3 L3, destroyXDPSocket (Some s) (k2, L1) = (Ok tt, (k3, L3)) ∧ held k3 = h_alloc 2 (held k) ∧
      l_umem L3 = None ∧ l_socket L3 = None.
Proof.
  intros layout Hone Hfit Hs S. pose proof (create_opens pagesize off layout Hone itf queue k L Hs) as Hw.
  pose proof (create_fitting_spec (H1 := lib_sys pagesize) (H2 := lib_sys_laws pagesize off layout Hone) itf queue (k, L) Hfit) as Hc.
  unfold wp, created in Hw, Hc. fold S in Hw, Hc. destruct (createXDPSocket itf queue (k, L)) as [r [k1 L1]]. cbn [fst snd] in Hw, Hc.
  destruct Hw as [Hnone Hopen]. destruct (_ || _) in Hc; [destruct Hc as [-> _]; left; auto|].
  destruct Hc as [(s & buf & -> & Hf & _)|[-> _]]; [|by right; left].
  do 2 right. exists s, buf. split; [done|]. split; [done|]. intros k2 Hk2.
  destruct (Hopen _ eq_refl) as (um & f & c & sk & rx & tx & ku & hm & ks & km & nm & q & xc & EL & Hku & Hm & Hks & Hsk & Hk).
  assert (opened (h_alloc 3 (held k)) k2 L1) as Ho.
  { exists um, f, c, sk, rx, tx, ku, hm, ks, km, nm, q, xc. rewrite Hk2. done. }
  pose proof (destroy_closes pagesize off layout _ k2 L1 s Ho) as Hd. unfold wp in Hd. fold S in Hd.
  destruct (destroyXDPSocket (Some s) (k2, L1)) as [r [k3 L3]]. cbn [fst snd] in Hd. destruct Hd as (-> & Hk3 & ? & ?).
  exists k3, L3. split; [done|]. by rewrite Hk3, alloc_alloc.
Qed.

(** ** A run *)

(** The set-up succeeds when its calls do. *)
Lemma open_socket_succeeds {K} `{LinkOps K, BpfOps K, SysOps K} cfg clear (k k1 k2 k3 k4 : K) b um s :
  setrlimit_memlock k = (0, k1) → posix_memalign packet_buffer_size k1 = (Some b, k2) →
  configure_xsk_umem packet_buffer_size k2 = (Ok (Some um), k3) → configure_socket cfg um k3 = (Ok (Some s), k4) →
  ∃ buf, open_socket cfg clear k = (Ok (s, buf), k4).
Proof.
  intros E1 E2 E3 E4. unfold open_socket, call, mbind, io_bind. rewrite E1. cbn [Z.eqb negb]. rewrite E2.
  rewrite E3, E4. by eexists.
Qed.

Import Box.

#[export] Instance box_host : HostOps Box.sys := {
  h_setrlimit k := (0, k);
  h_memalign n k := (Some (65536, replicate (Z.to_nat n) 0), with_held (h_alloc 1 (s_held k)) k);
  h_calloc k := (true, with_held (h_alloc 1 (s_held k)) k);
  h_malloc k := (true, with_held (h_alloc 1 (s_held k)) k);
  h_free k := with_held (h_alloc (-1) (s_held k)) k;
  h_nametoindex nm _ := if String.eqb nm "eth0" then 2 else 0;
  h_pthread_create k := (0, k)
}.
#[export] Program Instance box_host_laws : HostLaws Box.sys.
Next Obligation. done. Qed.
Next Obligation. intros n k. split; [done|]. intros Hn. rewrite length_replicate. lia. Qed.
Next Obligation. done. Qed.
Next Obligation. done. Qed.
Next Obligation. done. Qed.

(** No object file can be opened. *)
#[export] Instance no_objects {K} : BpfOps K := {
  bpf_prog_load_xattr _ _ _ k := (-2, 0, k);
  bpf_object__open_xattr _ _ k := (0, k);
  bpf_object__load _ k := (-22, k);
  bpf_object__close _ k := k;
  bpf_object__programs _ _ := [];
  bpf_object__maps _ _ := [];
  bpf_object__find_program_by_title _ _ _ := 0;
  bpf_object__find_map_by_name _ _ _ := 0;
  bpf_program__set_type _ _ k := k;
  bpf_program__set_ifindex _ _ k := k;
  bpf_program__set_expected_attach_type _ _ k := k;
  bpf_program__title _ _ := "";
  bpf_program__fd _ _ := -22;
  bpf_map__is_offload_neutral _ _ := true;
  bpf_map__set_ifindex _ _ k := k;
  bpf_map__name _ _ := "";
  bpf_map__fd _ _ := -22;
  bpf_map__reuse_fd _ _ k := (-22, k);
  bpf_map__pin _ _ k := (-22, k);
  bpf_obj_get _ k := (-2, k);
  bpf_obj_get_info_by_fd _ _ := (-22, MapInfo 0 0 0 0);
  bpf_map_update_elem _ _ _ k := (-22, k)
}.

#[local] Instance box_sys : SysOps (Box.sys * lib) := lib_sys 4096.

Definition eth0_config : config :=
  let cfg := with_queue 0 (comm_config true) in
  let cfg := with_bind_flags (Z.land (xsk_bind_flags cfg) XDP_COPY) cfg in
  with_ifname (Elsewhere "eth0") 2 (with_switches false false false cfg).

(** The umem and the socket on a system with nothing open, behind the memory. *)
Definition box_run : io (Box.sys * lib) Xsk.xsk_socket_info :=
  um ← configure_xsk_umem packet_buffer_size;
  um ← pure_res (or_fault um NullDeref);
  s ← configure_socket eth0_config um;
  pure_res (or_fault s NullDeref).
Definition box_start : Box.sys * lib := (new_sys 9, Lib 65536 None None).

(** What a process holds, and whether interface 2 has a program. *)
Definition in_use (s : Box.sys * lib) : list Z * nat * Z * bool :=
  let h := held s.1 in
  (elements (h_fds h), length (elements (h_maps h)), h_blocks h, match attached s.1 2 with Some _ => true | None => false end).

Definition closed (s : Xsk.xsk_socket_info) (k : Box.sys * lib) : Box.sys * lib :=
  let r := destroyXDPSocket (Some s) k in r.2.
Definition report (r : res Xsk.xsk_socket_info * (Box.sys * lib)) : option (list Z * nat * Z * bool * (list Z * nat * Z * bool)) :=
  match r with
  | (Ok s, k) => Some (in_use k, in_use (closed s k))
  | (Err _, _) => None
  end.
Definition box_cycle := report (box_run box_start).

(** Closed again, nothing is held (the name and the packet memory are not part of this
    run), but the program stays on the interface: it is taken off interface -1. *)
Example program_stays : box_cycle = Some (([5; 3; 4], 4%nat, 4, true), ([], 0%nat, 0, true)).
Proof. vm_compute. reflexivity. Qed.

Lemma socket_through_libbpf_witness :
  box_cycle = Some (([5; 3; 4], 4%nat, 4, true), ([], 0%nat, 0, true)) ∧
  let '(r, (k1, L1)) := createXDPSocket "eth0" 0 (new_sys 9, no_lib) in
  (r = Ok None ∧ held k1 = if (h_malloc (new_sys 9)).1 then h_alloc 1 (held (new_sys 9)) else held (new_sys 9)) ∨
  r = Err (ExitProgram EXIT_FAILURE) ∨
  ∃ s buf, r = Ok (Some (s, buf)) ∧ fresh_socket s buf ∧
    ∀ k2, held k2 = held k1 →
    ∃ k3 L3, destroyXDPSocket (Some s) (k2, L1) = (Ok tt, (k3, L3)) ∧ held k3 = h_alloc 2 (held (new_sys 9)) ∧
      l_umem L3 = None ∧ l_socket L3 = None.
Proof.
  split; [vm_compute; reflexivity|].
  apply (socket_through_libbpf (K := Box.sys) 4096 the_layout "eth0" 0 (new_sys 9) no_lib); [|exact one_map|reflexivity|reflexivity].
  intros fd k. exists k. split; [vm_compute; reflexivity|reflexivity].
Defined.
