(* ===== verification/Bytes.v ===== *)
(** * Bytes and memory of libbpf's parsers

    64-bit words in a buffer, runs of bytes, arrays that [malloc] gives without a
    value, and the interface of the allocator. *)

From Stdlib Require Import Ascii.
From S2P Require Import Prelude Io Config Packet PacketSpec Netlink NlattrProps.

(** ** Words *)

Definition load64 (buf : buffer) (i : Z) : res Z :=
  l ← load32 buf i; h ← load32 buf (i + 4);
  Ok (Z.lor l (Z.shiftl h 32)).
Definition le64 (v : Z) : list Z := le32 v ++ le32 (v / 2 ^ 32).

(** [memcpy] of [n] bytes from an offset. *)
Definition bytes_of (buf : buffer) (i n : Z) : res buffer :=
  if (0 <=? i) && (0 <=? n) && (i + n <=? Z.of_nat (length buf))
  then Ok (take (Z.to_nat n) (drop (Z.to_nat i) buf)) else Err OutOfBounds.

Lemma length_le64 v : length (le64 v) = 8%nat.
Proof. done. Qed.

Lemma load64_bytes buf p v l : bytes_at buf p (le64 v ++ l) → load64 buf p = Ok (u64 v).
Proof.
  unfold le64. rewrite <-app_assoc. intros H. pose proof (load32_bytes _ _ _ _ H) as H1.
  apply bytes_at_app in H as [_ H]. change (Z.of_nat (length (le32 v))) with 4 in H.
  pose proof (load32_bytes _ _ _ _ H) as H2.
  unfold load64. rewrite H1. cbn [mbind res_bind]. rewrite H2. cbn [mbind res_bind]. f_equal.
  rewrite lor_shiftl_add by (try apply u32_range; lia). unfold u32, u64. dlia.
Qed.

Lemma load64_ok buf i : 0 ≤ i → i + 8 ≤ Z.of_nat (length buf) → ∃ v, load64 buf i = Ok v.
Proof.
  intros H1 H2. unfold load64. destruct (load32_ok buf i) as [b ->]; [lia..|].
  destruct (load32_ok buf (i + 4)) as [b' ->]; [lia..|]. by eexists.
Qed.

Lemma bytes_of_all buf n : n = Z.of_nat (length buf) → bytes_of buf 0 n = Ok buf.
Proof.
  intros ->. unfold bytes_of. rewrite !(proj2 (Z.leb_le _ _)) by lia. cbn [andb].
  by rewrite Nat2Z.id, drop_0, firstn_all.
Qed.

Lemma bytes_of_prefix buf n :
  0 ≤ n ≤ Z.of_nat (length buf) → bytes_of buf 0 n = Ok (take (Z.to_nat n) buf).
Proof. intros Hn. unfold bytes_of. by rewrite !(proj2 (Z.leb_le _ _)) by lia. Qed.

(** The bytes before the first zero. *)
Fixpoint c_bytes (l : list Z) : list Z :=
  match l with [] => [] | b :: l => if b =? 0 then [] else b :: c_bytes l end.

(** The bytes of a C string. *)
Definition char_bytes (s : string) : list Z := (λ c, Z.of_N (N_of_ascii c)) <$> String.list_ascii_of_string s.

Lemma char_nonzero s : c_str s = true → Forall (λ b, b ≠ 0) (char_bytes s).
Proof.
  unfold c_str, char_bytes. induction (String.list_ascii_of_string s) as [|c l IH]; [by constructor|].
  cbn [forallb]. intros [Hc Hl]%andb_true_iff. constructor; [|by apply IH].
  intros Hz. apply negb_true_iff, Ascii.eqb_neq in Hc. apply Hc.
  rewrite <-(ascii_N_embedding c). replace (N_of_ascii c) with 0%N by lia. done.
Qed.

(** ** Arrays without a value *)

Abbreviation cells := (list (option Z)).

Definition cell (a : cells) (i : Z) : res Z :=
  o ← or_fault (a !! Z.to_nat i) OutOfBounds; or_fault o OutOfBounds.
Definition set_cell (a : cells) (i v : Z) : res cells :=
  if (0 <=? i) && (i <? Z.of_nat (length a)) then Ok (<[Z.to_nat i := Some v]> a) else Err OutOfBounds.

(** An array of values, from a pointer to it. *)
Definition elem (a : list Z) (i : Z) : res Z := or_fault (a !! Z.to_nat i) OutOfBounds.

Lemma set_cell_ok a i v :
  0 ≤ i < Z.of_nat (length a) → set_cell a i v = Ok (<[Z.to_nat i := Some v]> a).
Proof. intros Hi. unfold set_cell. by rewrite (proj2 (Z.leb_le _ _)), (proj2 (Z.ltb_lt _ _)) by lia. Qed.

Lemma cell_at a i v : a !! Z.to_nat i = Some (Some v) → cell a i = Ok v.
Proof. unfold cell. by intros ->. Qed.

Lemma elem_ok a i : 0 ≤ i < Z.of_nat (length a) → ∃ v, elem a i = Ok v.
Proof.
  intros Hi. unfold elem. destruct (lookup_lt_is_Some_2 a (Z.to_nat i)) as [v ->]; [lia|]. by exists v.
Qed.

(** ** The allocator *)

Class MemOps (K : Type) := {
  m_malloc : Z → K → bool * K;   (** false for NULL *)
  m_realloc : Z → K → bool * K;  (** of a block, which stays when it fails *)
  m_free : K → K
}.

(** What it promises: the number of blocks. *)
Class MemLaws (K : Type) `{MemOps K} := {
  blocks : K → Z;
  malloc_blocks n k : blocks (m_malloc n k).2 = blocks k + (if (m_malloc n k).1 then 1 else 0);
  realloc_blocks n k : blocks (m_realloc n k).2 = blocks k;
  free_blocks k : blocks (m_free k) = blocks k - 1
}.

(** [realloc(p, n)] and [free(p)], where [has] tells whether [p] is a block or NULL. *)
Section blocks.
Context {K : Type} `{MemOps K}.
Definition realloc (has : bool) (n : Z) : io K bool := call (if has then m_realloc n else m_malloc n).
Definition free_if (has : bool) : io K unit := if has then run m_free else mret tt.
End blocks.

(** A heap that answers from a list, and then has memory. *)
Module Heap.
Definition heap : Type := list bool * Z.
#[export] Instance heap_ops : MemOps heap := {
  m_malloc _ h := match h with
    | (b :: l, n) => (b, (l, if b then n + 1 else n))
    | ([], n) => (true, ([], n + 1)) end;
  m_realloc _ h := match h with (b :: l, n) => (b, (l, n)) | ([], n) => (true, ([], n)) end;
  m_free h := (h.1, h.2 - 1)
}.
#[export] Program Instance heap_laws : MemLaws heap := { blocks := snd }.
Next Obligation. intros n [[|[] l] m]; cbn; lia. Qed.
Next Obligation. by intros n [[|b l] m]. Qed.
Next Obligation. done. Qed.
End Heap.
