(* ===== verification/Linfo.v ===== *)
(** * bpf_prog_linfo.c of libbpf: the line information of a program

    The kernel reports, for a loaded program, a record per source line with the
    offset of its instruction, and for each its address in the compiled code;
    [bpf_prog_linfo__new] copies both and finds where every function begins, and
    the two look-ups find the line of an instruction or of an address.  A pointer
    into a block is an offset, a read past the block a fault. *)

From S2P Require Import Prelude Io Packet Loader Bytes.

(** The members of struct bpf_prog_info in use; an address is [None] for 0, or the
    bytes or numbers there. *)
Record bpf_prog_info := ProgInfo {
  nr_line_info : Z; line_info : buffer; line_info_rec_size : Z;
  nr_jited_line_info : Z; jited_line_info : option buffer; jited_line_info_rec_size : Z;
  nr_jited_ksyms : Z; jited_ksyms : option (list Z);
  nr_jited_func_lens : Z; jited_func_lens : option (list Z)
}.

Record bpf_prog_linfo := ProgLinfo {
  raw_linfo : option buffer; raw_jited_linfo : option buffer;
  nr_jited_linfo_per_func : option cells; jited_linfo_func_idx : option cells;
  nr_linfo : Z; nr_jited_func : Z; rec_size : Z; jited_rec_size : Z   (** __u32 *)
}.

(** The members that are stored into a new struct. *)
Definition with_raw (b : option buffer) (L : bpf_prog_linfo) : bpf_prog_linfo :=
  ProgLinfo b (raw_jited_linfo L) (nr_jited_linfo_per_func L) (jited_linfo_func_idx L) (nr_linfo L)
    (nr_jited_func L) (rec_size L) (jited_rec_size L).
Definition with_jited (b : option buffer) (n r : Z) (L : bpf_prog_linfo) : bpf_prog_linfo :=
  ProgLinfo (raw_linfo L) b (nr_jited_linfo_per_func L) (jited_linfo_func_idx L) (nr_linfo L) n (rec_size L) r.
Definition with_arrays (per_func func_idx : option cells) (L : bpf_prog_linfo) : bpf_prog_linfo :=
  ProgLinfo (raw_linfo L) (raw_jited_linfo L) per_func func_idx (nr_linfo L) (nr_jited_func L) (rec_size L)
    (jited_rec_size L).

(** [offsetof(struct bpf_line_info, file_name_off)] *)
Definition min_rec_size : Z := 4.

(** ** Dissecting *)

(** The addresses, their record size, and the addresses and lengths of the functions. *)
Section dissect.
Variables (raw : buffer) (jrec nr nr_func : Z) (ksym_func ksym_len : list Z).

(** The loop; [jited] is the offset of the record of [i - 1].  [None] is errout. *)
Fixpoint dissect_loop (fuel : nat) (jited i prev_i f : Z) (per_func func_idx : cells) :
  res (option (Z * Z * cells * cells)) :=
  if (i <? nr) && (f <? nr_func) then
    match fuel with
    | O => Err OutOfFuel
    | S fuel =>
      last_jited_linfo ← load64 raw jited;
      let jited := jited + jrec in
      sym ← elem ksym_func f;
      addr ← load64 raw jited;
      if sym =? addr then
        func_idx ← set_cell func_idx f i;
        before ← elem ksym_func (f - 1);
        len ← elem ksym_len (f - 1);
        if len <? u64 (last_jited_linfo - before + 1) then Ok None
        else
          per_func ← set_cell per_func (f - 1) (u32 (i - prev_i));
          dissect_loop fuel jited (i + 1) i (f + 1) per_func func_idx
      else if addr <=? last_jited_linfo then Ok None
      else dissect_loop fuel jited (i + 1) prev_i f per_func func_idx
    end
  else Ok (Some (prev_i, f, per_func, func_idx)).
End dissect.

Definition dissect_jited_func (L : bpf_prog_linfo) (ksym_func ksym_len : list Z) : res (Z * bpf_prog_linfo) :=
  raw ← or_fault (raw_jited_linfo L) NullDeref;
  per_func ← or_fault (nr_jited_linfo_per_func L) NullDeref;
  func_idx ← or_fault (jited_linfo_func_idx L) NullDeref;
  sym ← elem ksym_func 0;
  addr ← load64 raw 0;
  if negb (sym =? addr) then Ok (- EINVAL, L)
  else
    func_idx ← set_cell func_idx 0 0;
    r ← dissect_loop raw (jited_rec_size L) (nr_linfo L) (nr_jited_func L) ksym_func ksym_len
          (Z.to_nat (nr_linfo L)) 0 1 0 1 per_func func_idx;
    match r with
    | None => Ok (- EINVAL, L)
    | Some (prev_i, f, per_func, func_idx) =>
        if negb (f =? nr_jited_func L) then Ok (- EINVAL, L)
        else
          per_func ← set_cell per_func (nr_jited_func L - 1) (u32 (nr_linfo L - prev_i));
          Ok (0, with_arrays (Some per_func) (Some func_idx) L)
    end.

(** ** The interface *)

Section linfo.
Context {K : Type} `{MemOps K}.

(** [free(NULL)] does nothing. *)
Definition free_opt {A} (p : option A) : io K unit :=
  match p with Some _ => run m_free | None => mret tt end.

Definition bpf_prog_linfo__free (prog_linfo : option bpf_prog_linfo) : io K unit :=
  match prog_linfo with
  | None => mret tt
  | Some L =>
      _ ← free_opt (raw_linfo L); _ ← free_opt (raw_jited_linfo L);
      _ ← free_opt (nr_jited_linfo_per_func L); _ ← free_opt (jited_linfo_func_idx L);
      run m_free
  end.

(** err_free *)
Definition err_free (L : bpf_prog_linfo) : io K (option bpf_prog_linfo) :=
  _ ← bpf_prog_linfo__free (Some L); mret None.

(** "Not enough info to provide jited_line_info" *)
Definition no_jited_info (info : bpf_prog_info) (nr : Z) : bool :=
  (nr_jited_ksyms info =? 0) || match jited_line_info info with None => true | Some _ => false end
  || negb (nr_jited_line_info info =? nr) || (jited_line_info_rec_size info <? 8)
  || negb (nr_jited_func_lens info =? nr_jited_ksyms info)
  || match jited_ksyms info with None => true | Some _ => false end
  || match jited_func_lens info with None => true | Some _ => false end.

(** "Copy jited_line_info": the second half of [bpf_prog_linfo__new]. *)
Definition copy_jited (info : bpf_prog_info) (L : bpf_prog_linfo) : io K (option bpf_prog_linfo) :=
  let nr_func := nr_jited_ksyms info in
  let L := with_jited None nr_func (jited_line_info_rec_size info) L in
  let data_sz := u64 (nr_linfo L * jited_rec_size L) in
  ok ← call (m_malloc data_sz);
  if negb ok then err_free L
  else
    src ← pure_res (or_fault (jited_line_info info) NullDeref);
    raw ← pure_res (bytes_of src 0 data_sz);
    let L := with_jited (Some raw) nr_func (jited_line_info_rec_size info) L in
    ok ← call (m_malloc (nr_func * 4));
    if negb ok then err_free L
    else
      let cells := replicate (Z.to_nat nr_func) None in
      let L := with_arrays (Some cells) None L in
      ok ← call (m_malloc (nr_func * 4));
      if negb ok then err_free L
      else
        let L := with_arrays (Some cells) (Some cells) L in
        ksyms ← pure_res (or_fault (jited_ksyms info) NullDeref);
        lens ← pure_res (or_fault (jited_func_lens info) NullDeref);
        '(err, L) ← pure_res (dissect_jited_func L ksyms lens);
        if negb (err =? 0) then err_free L else mret (Some L).

Definition bpf_prog_linfo__new (info : bpf_prog_info) : io K (option bpf_prog_linfo) :=
  let nr := nr_line_info info in
  if nr =? 0 then mret None
  else if line_info_rec_size info <? min_rec_size then mret None
  else
    ok ← call (m_malloc 48);
    if negb ok then mret None
    else
      let L := ProgLinfo None None None None nr 0 (line_info_rec_size info) 0 in
      let data_sz := u64 (nr * rec_size L) in
      ok ← call (m_malloc data_sz);
      if negb ok then err_free L
      else
        raw ← pure_res (bytes_of (line_info info) 0 data_sz);
        let L := with_raw (Some raw) L in
        if no_jited_info info nr then mret (Some L) else copy_jited info L.
End linfo.

(** ** Look-ups *)

(** The loop of both: over [n] records, while the word of each is not above [x]; the
    offset of the record of [raw_linfo] behind the last one. *)
Fixpoint scan (word : Z → res Z) (step rec : Z) (n : nat) (x pos raw : Z) : res Z :=
  match n with
  | O => Ok raw
  | S n =>
    a ← word pos;
    if x <? a then Ok raw else scan word step rec n x (pos + step) (raw + rec)
  end.

(** The offset of the record in [raw_linfo], [None] for NULL. *)
Definition bpf_prog_linfo__lfind_addr_func (L : bpf_prog_linfo) (addr func_idx nr_skip : Z) : res (option Z) :=
  if nr_jited_func L <=? func_idx then Ok None
  else
    per_func ← or_fault (nr_jited_linfo_per_func L) NullDeref;
    nr ← cell per_func func_idx;
    if nr <=? nr_skip then Ok None
    else
      idx ← or_fault (jited_linfo_func_idx L) NullDeref;
      first ← cell idx func_idx;
      let start := u32 (first + nr_skip) in
      buf ← or_fault (raw_jited_linfo L) NullDeref;
      let raw_jited := u32 (start * jited_rec_size L) in
      a ← load64 buf raw_jited;
      if addr <? a then Ok None
      else
        let raw := u32 (start * rec_size L) in
        raw ← scan (load64 buf) (jited_rec_size L) (rec_size L) (Z.to_nat (nr - nr_skip)) addr raw_jited raw;
        Ok (Some (raw - rec_size L)).

Definition bpf_prog_linfo__lfind (L : bpf_prog_linfo) (insn_off nr_skip : Z) : res (option Z) :=
  if nr_linfo L <=? nr_skip then Ok None
  else
    buf ← or_fault (raw_linfo L) NullDeref;
    let raw := u32 (nr_skip * rec_size L) in
    o ← load32 buf raw;
    if insn_off <? o then Ok None
    else
      raw ← scan (load32 buf) (rec_size L) (rec_size L) (Z.to_nat (nr_linfo L - nr_skip)) insn_off raw raw;
      Ok (Some (raw - rec_size L)).
