(* ===== verification/LinfoProps.v ===== *)
(** * The line information is found

    What [bpf_prog_linfo__new] makes of any report of the kernel: the functions'
    first records, when it accepts them, and then the two look-ups give the last
    record that is not above what they look for. *)

From S2P Require Import Prelude Io Packet PacketSpec Netlink Loader Bytes Linfo.
Import Heap.

(** ** The loop of the look-ups *)

Lemma scan_spec word step rec x n pos raw a :
  (∀ i, (i < n)%nat → word (pos + Z.of_nat i * step) = Ok (a i)) →
  ∃ m, (m ≤ n)%nat ∧ scan word step rec n x pos raw = Ok (raw + Z.of_nat m * rec) ∧
    (∀ i, (i < m)%nat → a i ≤ x) ∧ ((m < n)%nat → x < a m).
Proof.
  revert pos raw a. induction n as [|n IH]; intros pos raw a Ha.
  - exists O. cbn [scan]. split; [lia|]. split; [cbn; f_equal; lia|]. split; intros; lia.
  - cbn [scan]. pose proof (Ha O) as H0. rewrite Z.add_0_r in H0. rewrite H0 by lia. cbn [mbind res_bind].
    destruct (Z.ltb_spec x (a O)) as [Hlt|Hge].
    + exists O. split; [lia|]. split; [cbn; f_equal; lia|]. split; [intros; lia|done].
    + destruct (IH (pos + step) (raw + rec) (λ i, a (S i))) as (m & Hm & -> & Hle & Hgt).
      { intros i Hi. rewrite <-(Ha (S i)), Nat2Z.inj_succ, Z.mul_succ_l by lia. f_equal. lia. }
      exists (S m). split; [lia|]. split; [rewrite Nat2Z.inj_succ, Z.mul_succ_l; f_equal; lia|]. split; [|intros ?; apply Hgt; lia].
      intros [|i] Hi; [done|apply Hle; lia].
Qed.

(** [r] is the offset of record [j], the last from [s] up to [e] that is not above
    [x], or NULL when the first is. *)
Definition last_not_above (key : Z → Z) (rec s e x : Z) (r : option Z) : Prop :=
  match r with
  | None => e ≤ s ∨ x < key s
  | Some off => ∃ j, s ≤ j < e ∧ off = j * rec ∧ (∀ i, s ≤ i ≤ j → key i ≤ x) ∧ (j + 1 < e → x < key (j + 1))
  end.

Lemma scan_last_not_above word step rec x s e key :
  0 ≤ s < e → (∀ i, s ≤ i < e → word (i * step) = Ok (key i)) → key s ≤ x →
  ∃ raw, scan word step rec (Z.to_nat (e - s)) x (s * step) (s * rec) = Ok raw ∧
    last_not_above key rec s e x (Some (raw - rec)).
Proof.
  intros Hs Hw H0.
  destruct (scan_spec word step rec x (Z.to_nat (e - s)) (s * step) (s * rec) (λ i, key (s + Z.of_nat i)))
    as (m & Hm & Hr & Hle & Hgt).
  { intros i Hi. rewrite <-Hw by lia. f_equal. lia. }
  exists (s * rec + Z.of_nat m * rec). split; [done|].
  destruct m as [|m]; [exfalso; specialize (Hgt ltac:(lia)); rewrite Z.add_0_r in Hgt; lia|].
  exists (s + Z.of_nat m). split; [lia|]. split; [lia|]. split.
  - intros i Hi. specialize (Hle (Z.to_nat (i - s)) ltac:(lia)). by replace (s + Z.of_nat (Z.to_nat (i - s))) with i in Hle by lia.
  - intros He. specialize (Hgt ltac:(lia)). by replace (s + Z.of_nat (S m)) with (s + Z.of_nat m + 1) in Hgt by lia.
Qed.

(** ** Dissecting *)

(** The first records [st] of the functions that were found: each has the address of its
    function, and those before the last ascend and end within it. *)
Definition segments (A : Z → Z) (ksym len st : list Z) : Prop :=
  st !! O = Some 0 ∧
  ∀ g s, st !! g = Some s → 0 ≤ s ∧ ksym !! g = Some (A s) ∧
    ∀ s', st !! S g = Some s' → s < s' ∧ (∀ j, s < j < s' → A (j - 1) < A j) ∧
      ∃ l, len !! g = Some l ∧ u64 (A (s' - 1) - A s + 1) ≤ l.

(** What the arrays say of them, when [n] records were seen. *)
Definition told (st : list Z) (per_func func_idx : cells) : Prop :=
  (∀ g s, st !! g = Some s → func_idx !! g = Some (Some s)) ∧
  (∀ g s s', st !! g = Some s → st !! S g = Some s' → per_func !! g = Some (Some (s' - s))).

Lemma segments_snoc A ksym len st p i :
  segments A ksym len st → last st = Some p → p < i → (∀ j, p < j < i → A (j - 1) < A j) →
  ksym !! length st = Some (A i) →
  (∃ l, len !! pred (length st) = Some l ∧ u64 (A (i - 1) - A p + 1) ≤ l) →
  segments A ksym len (st ++ [i]).
Proof.
  intros [H0 Hst] Hp Hi Hup Hk Hl. rewrite last_lookup in Hp.
  split; [by apply lookup_app_l_Some|]. intros g s Hg. apply lookup_snoc_Some in Hg as [[Hlt Hg]|[-> <-]].
  - destruct (Hst g s Hg) as (Hs & Hks & Hnext). split; [done|]. split; [done|].
    intros s' Hs'. apply lookup_snoc_Some in Hs' as [[Hlt' Hs']|[Hg' <-]]; [by apply Hnext|].
    replace (pred (length st)) with g in * by lia. rewrite Hp in Hg. injection Hg as ->. done.
  - destruct (Hst _ _ Hp) as [? _]. split; [lia|]. split; [done|].
    intros s' Hs'. apply lookup_lt_Some in Hs'. rewrite length_app in Hs'. cbn in Hs'. lia.
Qed.

Lemma told_snoc st per_func func_idx p i :
  told st per_func func_idx → last st = Some p → (length st < length func_idx)%nat →
  (length st ≤ length per_func)%nat →
  told (st ++ [i]) (<[pred (length st) := Some (i - p)]> per_func) (<[length st := Some i]> func_idx).
Proof.
  intros [H1 H2] Hp Hf Hn. rewrite last_lookup in Hp. assert (0 < length st)%nat by (apply lookup_lt_Some in Hp; lia).
  split.
  - intros g s Hg. apply lookup_snoc_Some in Hg as [[Hlt Hg]|[-> <-]].
    + rewrite list_lookup_insert_ne by lia. by apply H1.
    + by apply list_lookup_insert_eq.
  - intros g s s' Hg Hs'. apply lookup_snoc_Some in Hs' as [[Hlt Hs']|[Hg' <-]].
    + rewrite list_lookup_insert_ne by lia. apply (H2 g s s'); [|done]. by rewrite lookup_app_l in Hg by lia.
    + replace (pred (length st)) with g in * by lia. rewrite lookup_app_l in Hg by lia.
      rewrite Hp in Hg. injection Hg as ->. apply list_lookup_insert_eq. lia.
Qed.

Section dissect.
Variables (raw : buffer) (jrec nr nr_func : Z) (ksym len : list Z) (A : Z → Z).
Hypothesis addresses : ∀ i, 0 ≤ i < nr → load64 raw (i * jrec) = Ok (A i).
Hypothesis enough_syms : nr_func ≤ Z.of_nat (length ksym) ∧ nr_func ≤ Z.of_nat (length len).
Hypothesis small : nr < 2 ^ 32.

(** The variables of the loop. *)
Record looping (i prev_i f : Z) (per_func func_idx : cells) (st : list Z) : Prop := {
  l_i : prev_i < i ≤ nr;
  l_f : f = Z.of_nat (length st) ∧ f ≤ nr_func;
  l_cells : length per_func = Z.to_nat nr_func ∧ length func_idx = Z.to_nat nr_func;
  l_last : last st = Some prev_i;
  l_in : ∀ g s, st !! g = Some s → s < i;
  l_up : ∀ j, prev_i < j < i → A (j - 1) < A j;
  l_segments : segments A ksym len st;
  l_told : told st per_func func_idx
}.

Lemma elem_lookup (l : list Z) i v : elem l i = Ok v → l !! Z.to_nat i = Some v.
Proof. unfold elem. destruct (l !! Z.to_nat i); cbn; congruence. Qed.

Lemma dissect_loop_spec fuel i prev_i f per_func func_idx st :
  looping i prev_i f per_func func_idx st → (Z.to_nat (nr - i) ≤ fuel)%nat →
  ∃ r, dissect_loop raw jrec nr nr_func ksym len fuel ((i - 1) * jrec) i prev_i f per_func func_idx = Ok r ∧
    match r with
    | None => True
    | Some (p, f, per_func, func_idx) => ∃ i st, looping i p f per_func func_idx st ∧ (nr ≤ i ∨ nr_func ≤ f)
    end.
Proof.
  revert i prev_i f per_func func_idx st.
  induction fuel as [|fuel IH]; intros i prev_i f per_func func_idx st Hl Hfuel;
    pose proof (l_i _ _ _ _ _ _ Hl) as Hi; pose proof (l_f _ _ _ _ _ _ Hl) as [Hf Hf'];
    pose proof (l_cells _ _ _ _ _ _ Hl) as [Hc1 Hc2]; pose proof (l_last _ _ _ _ _ _ Hl) as Hp;
    pose proof (l_segments _ _ _ _ _ _ Hl) as Hseg;
    cbn [dissect_loop]; destruct ((i <? nr) && (f <? nr_func)) eqn:Hc.
  1: lia.
  1, 3: eexists; split; [done|]; exists i, st; split; [done|lia].
  assert (0 ≤ prev_i) as Hp0. { rewrite last_lookup in Hp. by destruct (proj2 Hseg _ _ Hp). }
  assert (0 < length st)%nat as Hst by (rewrite last_lookup in Hp; apply lookup_lt_Some in Hp; lia).
  rewrite (addresses (i - 1)) by lia. cbn [mbind res_bind].
  replace ((i - 1) * jrec + jrec) with (i * jrec) by lia.
  destruct (elem_ok ksym f) as [sym Hs]; [lia|]. rewrite Hs. cbn [mbind res_bind]. rewrite (addresses i) by lia. cbn [mbind res_bind].
  replace (i * jrec) with ((i + 1 - 1) * jrec) by lia.
  destruct (Z.eqb_spec sym (A i)) as [->|Hne].
  - rewrite (set_cell_ok func_idx) by lia. cbn [mbind res_bind].
    assert (elem ksym (f - 1) = Ok (A prev_i)) as ->.
    { rewrite last_lookup in Hp. unfold elem. replace (Z.to_nat (f - 1)) with (pred (length st)) by lia.
      by rewrite (proj1 (proj2 (proj2 Hseg _ _ Hp))). }
    destruct (elem_ok len (f - 1)) as [l El]; [lia|]. rewrite El. cbn [mbind res_bind].
    destruct (Z.ltb_spec l (u64 (A (i - 1) - A prev_i + 1))) as [|Hle]; [by exists None|].
    rewrite set_cell_ok by lia. cbn [mbind res_bind]. rewrite u32_small by lia.
    apply (IH (i + 1) i (f + 1) _ _ (st ++ [i])); [|lia].
    replace (Z.to_nat (f - 1)) with (pred (length st)) by lia. replace (Z.to_nat f) with (length st) by lia. split.
    + lia.
    + rewrite length_app. cbn. lia.
    + by rewrite !length_insert.
    + by rewrite last_snoc.
    + intros g s [[_ Hg]|[_ <-]]%lookup_snoc_Some; [apply (l_in _ _ _ _ _ _ Hl) in Hg|]; lia.
    + intros j Hj. lia.
    + eapply segments_snoc; [done..|lia|by apply (l_up _ _ _ _ _ _ Hl)| |].
      * apply elem_lookup in Hs. by replace (Z.to_nat f) with (length st) in Hs by lia.
      * exists l. split; [|done]. apply elem_lookup in El. by replace (Z.to_nat (f - 1)) with (pred (length st)) in El by lia.
    + apply told_snoc; [apply (l_told _ _ _ _ _ _ Hl)|done|lia|lia].
  - destruct (Z.leb_spec (A i) (A (i - 1))); [by exists None|].
    apply (IH (i + 1) prev_i f _ _ st); [|lia]. destruct Hl as [_ _ Hc' _ Hin Hup _ Ht]. split; try done; [lia|intros g s Hg; apply Hin in Hg; lia|].
    intros j Hj. destruct (decide (j = i)) as [->|]; [lia|apply Hup; lia].
Qed.
End dissect.

(** ** Reports of the kernel *)

(** The words that the look-ups compare. *)
Definition value_or_0 (r : res Z) : Z := match r with Ok v => v | Err _ => 0 end.
Definition insn_off (info : bpf_prog_info) (i : Z) : Z :=
  value_or_0 (load32 (line_info info) (i * line_info_rec_size info)).
Definition jited_addr (buf : buffer) (info : bpf_prog_info) (i : Z) : Z :=
  value_or_0 (load64 buf (i * jited_line_info_rec_size info)).

(** The arrays are as long as they are said to be, and shorter than 4 GiB. *)
Record info_ok (info : bpf_prog_info) : Prop := {
  io_nr : 0 ≤ nr_line_info info < 2 ^ 32;
  io_linfo : nr_line_info info * line_info_rec_size info < 2 ^ 32 ∧
    nr_line_info info * line_info_rec_size info ≤ Z.of_nat (length (line_info info));
  io_jited : ∀ buf, jited_line_info info = Some buf →
    nr_jited_line_info info * jited_line_info_rec_size info < 2 ^ 32 ∧
    nr_jited_line_info info * jited_line_info_rec_size info ≤ Z.of_nat (length buf);
  io_syms : 0 ≤ nr_jited_ksyms info < 2 ^ 32 ∧
    ∀ ksyms, jited_ksyms info = Some ksyms → nr_jited_ksyms info ≤ Z.of_nat (length ksyms);
  io_lens : ∀ lens, jited_func_lens info = Some lens → nr_jited_func_lens info ≤ Z.of_nat (length lens)
}.

Lemma byte_at_take n buf i : i < Z.of_nat n → byte_at (take n buf) i = byte_at buf i.
Proof.
  intros Hi. unfold byte_at. destruct (Z.ltb_spec i 0); [done|]. by rewrite lookup_take_lt by lia.
Qed.
Lemma load32_take n buf i : i + 4 ≤ Z.of_nat n → load32 (take n buf) i = load32 buf i.
Proof. intros Hi. unfold load32, load16. by rewrite !byte_at_take by lia. Qed.
Lemma load64_take n buf i : i + 8 ≤ Z.of_nat n → load64 (take n buf) i = load64 buf i.
Proof. intros Hi. unfold load64. by rewrite !load32_take by lia. Qed.

Lemma record_inside i n r w len : 0 ≤ i < n → 0 ≤ w ≤ r → n * r ≤ len → i * r + w ≤ len.
Proof. nia. Qed.

(** The lines of the instructions. *)
Lemma lfind_spec L info n off skip :
  info_ok info → nr_linfo L = nr_line_info info → rec_size L = line_info_rec_size info →
  4 ≤ rec_size L → Z.of_nat n = nr_linfo L * rec_size L → raw_linfo L = Some (take n (line_info info)) → 0 ≤ skip →
  ∃ r, bpf_prog_linfo__lfind L off skip = Ok r ∧
    last_not_above (insn_off info) (rec_size L) skip (nr_linfo L) off r.
Proof.
  intros [Hnr [Hl1 Hl2] _ _ _] En Er Hrec Hn Eraw Hskip. unfold bpf_prog_linfo__lfind. rewrite Eraw.
  destruct (Z.leb_spec (nr_linfo L) skip) as [Hge|Hlt]; [exists None; split; [done|by left]|].
  cbn [mbind res_bind or_fault].
  assert (∀ i, skip ≤ i < nr_linfo L → load32 (take n (line_info info)) (i * rec_size L) = Ok (insn_off info i)) as Hw.
  { intros i Hi. pose proof (record_inside i (nr_linfo L) (rec_size L) 4 (Z.of_nat n)) as Hr.
    rewrite load32_take by (apply Hr; lia). unfold insn_off. rewrite <-Er.
    destruct (load32_ok (line_info info) (i * rec_size L)) as [v ->]; [nia| |done].
    rewrite <-En, <-Er in Hl2. specialize (Hr ltac:(lia) ltac:(lia) ltac:(lia)). lia. }
  rewrite u32_small by (rewrite <-En, <-Er in Hl1; nia). rewrite (Hw skip) by lia. cbn [mbind res_bind].
  destruct (Z.ltb_spec off (insn_off info skip)); [exists None; split; [done|by right]|].
  destruct (scan_last_not_above (load32 (take n (line_info info))) (rec_size L) (rec_size L) off skip (nr_linfo L)
    (insn_off info)) as (raw & -> & Hlast); [lia|done|done|].
  cbn [mbind res_bind]. by eexists.
Qed.

(** The arrays of all functions, the last of which ends with the records. *)
Definition told_all (nr : Z) (st : list Z) (per_func func_idx : cells) : Prop :=
  ∀ g s, st !! g = Some s →
    func_idx !! g = Some (Some s) ∧ per_func !! g = Some (Some (default nr (st !! S g) - s)).

Section dissected.
Variables (raw : buffer) (ksym len : list Z) (A : Z → Z) (L : bpf_prog_linfo).
Hypothesis addresses : ∀ i, 0 ≤ i < nr_linfo L → load64 raw (i * jited_rec_size L) = Ok (A i).
Hypothesis enough_syms : 0 < nr_jited_func L ≤ Z.of_nat (length ksym) ∧ nr_jited_func L ≤ Z.of_nat (length len).
Hypothesis some_records : 0 < nr_linfo L < 2 ^ 32.

Lemma told_complete p st per_func func_idx :
  told st per_func func_idx → last st = Some p → (length st ≤ length per_func)%nat →
  told_all (nr_linfo L) st (<[pred (length st) := Some (nr_linfo L - p)]> per_func) func_idx.
Proof.
  intros [H1 H2] Hp Hlen g s Hg. split; [by apply H1|]. rewrite last_lookup in Hp.
  assert (g < length st)%nat by (by eapply lookup_lt_Some).
  destruct (decide (g = pred (length st))) as [->|Hne].
  - rewrite list_lookup_insert_eq by lia. rewrite Hp in Hg. injection Hg as ->.
    rewrite lookup_ge_None_2 by lia. done.
  - rewrite list_lookup_insert_ne by lia. destruct (lookup_lt_is_Some_2 st (S g)) as [s' Hs']; [lia|].
    rewrite Hs'. by apply (H2 g s s').
Qed.

Lemma dissect_spec :
  let cells := replicate (Z.to_nat (nr_jited_func L)) None in
  raw_jited_linfo L = Some raw → nr_jited_linfo_per_func L = Some cells → jited_linfo_func_idx L = Some cells →
  dissect_jited_func L ksym len = Ok (- EINVAL, L) ∨
  ∃ st per_func func_idx, dissect_jited_func L ksym len = Ok (0, with_arrays (Some per_func) (Some func_idx) L) ∧
    Z.of_nat (length st) = nr_jited_func L ∧ segments A ksym len st ∧ told_all (nr_linfo L) st per_func func_idx ∧
    ∀ g s, st !! g = Some s → s < nr_linfo L.
Proof.
  intros cells Eraw Ep Ei. unfold dissect_jited_func. rewrite Eraw, Ep, Ei. cbn [mbind res_bind or_fault].
  destruct (elem_ok ksym 0) as [sym Hs]; [lia|]. rewrite Hs. cbn [mbind res_bind].
  pose proof (addresses 0) as H0. rewrite Z.mul_0_l in H0. rewrite H0 by lia. cbn [mbind res_bind].
  destruct (Z.eqb_spec sym (A 0)) as [->|]; [|by left]. cbn [negb].
  rewrite set_cell_ok by (unfold cells; rewrite length_replicate; lia). cbn [mbind res_bind].
  destruct (dissect_loop_spec raw (jited_rec_size L) (nr_linfo L) (nr_jited_func L) ksym len A addresses
    (conj (proj2 (proj1 enough_syms)) (proj2 enough_syms)) (proj2 some_records) (Z.to_nat (nr_linfo L)) 1 0 1 cells
    (<[Z.to_nat 0 := Some 0]> cells) [0]) as (r & Er & Hr).
  { split; try done.
    - lia.
    - cbn. lia.
    - unfold cells. by rewrite length_insert, length_replicate.
    - intros [|g] s Hg; [|done]. injection Hg as <-. lia.
    - intros j Hj. lia.
    - split; [done|]. intros [|g] s Hg; [|done]. injection Hg as <-. split; [done|]. split; [by apply elem_lookup in Hs|done].
    - split; [|by intros [|g]]. intros [|g] s Hg; [|done]. injection Hg as <-.
      apply list_lookup_insert_eq. unfold cells. rewrite length_replicate. lia. }
  { lia. }
  change ((1 - 1) * jited_rec_size L) with 0 in Er. rewrite Er. cbn [mbind res_bind].
  destruct r as [[[[p f] per_func] func_idx]|]; [|by left].
  destruct Hr as (i & st & Hl & _). destruct Hl as [Hi [Hf _] [Hc1 Hc2] Hp Hin _ Hseg Ht].
  destruct (Z.eqb_spec f (nr_jited_func L)) as [Hall|]; [|by left]. cbn [negb].
  rewrite set_cell_ok by lia. cbn [mbind res_bind]. right. eexists st, _, func_idx. split; [reflexivity|].
  split; [lia|]. split; [done|]. split; [|intros g s Hg; apply Hin in Hg; lia].
  assert (0 ≤ p) as Hp0. { rewrite last_lookup in Hp. by destruct (proj2 Hseg _ _ Hp). }
  rewrite u32_small by lia. replace (Z.to_nat (nr_jited_func L - 1)) with (pred (length st)) by lia.
  apply told_complete; [done|done|lia].
Qed.

(** The lines of the addresses. *)
Lemma lfind_addr_func_spec st per_func func_idx addr f skip :
  raw_jited_linfo L = Some raw → nr_jited_linfo_per_func L = Some per_func → jited_linfo_func_idx L = Some func_idx →
  Z.of_nat (length st) = nr_jited_func L → segments A ksym len st → told_all (nr_linfo L) st per_func func_idx →
  nr_linfo L * jited_rec_size L < 2 ^ 32 → nr_linfo L * rec_size L < 2 ^ 32 → 0 ≤ rec_size L → 0 ≤ jited_rec_size L →
  (∀ g s, st !! g = Some s → s < nr_linfo L) → 0 ≤ f → 0 ≤ skip →
  ∃ r, bpf_prog_linfo__lfind_addr_func L addr f skip = Ok r ∧
    match st !! Z.to_nat f with
    | None => r = None
    | Some s => last_not_above A (rec_size L) (s + skip) (default (nr_linfo L) (st !! S (Z.to_nat f))) addr r
    end.
Proof.
  intros Eraw Ep Ei Hlen Hseg Ht Hj Hr Hr0 Hj0 Hin Hf Hskip. unfold bpf_prog_linfo__lfind_addr_func. rewrite Eraw, Ep, Ei.
  destruct (Z.leb_spec (nr_jited_func L) f) as [Hge|Hlt].
  { exists None. split; [done|]. by rewrite lookup_ge_None_2 by lia. }
  destruct (lookup_lt_is_Some_2 st (Z.to_nat f)) as [s Hs]; [lia|]. rewrite Hs.
  destruct (Ht _ _ Hs) as [Hi Hp]. destruct (proj2 Hseg _ _ Hs) as (Hs0 & _ & _).
  set (e := default (nr_linfo L) (st !! S (Z.to_nat f))) in *.
  assert (e ≤ nr_linfo L) as He.
  { unfold e. destruct (st !! S (Z.to_nat f)) eqn:En; cbn; [apply Hin in En; lia|lia]. }
  cbn [mbind res_bind or_fault]. rewrite (cell_at _ _ _ Hp). cbn [mbind res_bind].
  destruct (Z.leb_spec (e - s) skip) as [Hge|Hlt']; [exists None; split; [done|left; lia]|].
  rewrite (cell_at _ _ _ Hi). cbn [mbind res_bind]. rewrite (u32_small (s + skip)) by lia.
  assert (∀ i, s + skip ≤ i < e → load64 raw (i * jited_rec_size L) = Ok (A i)) as Hw by (intros; apply addresses; lia).
  rewrite !u32_small by nia. rewrite Hw by lia. cbn [mbind res_bind].
  destruct (Z.ltb_spec addr (A (s + skip))); [exists None; split; [done|by right]|].
  destruct (scan_last_not_above (load64 raw) (jited_rec_size L) (rec_size L) addr (s + skip) e A)
    as (raw' & Hscan & Hlast); [lia|done|done|].
  replace (e - (s + skip)) with (e - s - skip) in Hscan by lia. rewrite Hscan. cbn [mbind res_bind]. by eexists.
Qed.
End dissected.

(** ** Memory *)

Definition one {A} (o : option A) : Z := match o with Some _ => 1 | None => 0 end.
Definition blocks_of (L : bpf_prog_linfo) : Z :=
  1 + one (raw_linfo L) + one (raw_jited_linfo L) + one (nr_jited_linfo_per_func L) + one (jited_linfo_func_idx L).

(** What the look-ups in [L] give for the report [info]. *)
Definition finds_insns (info : bpf_prog_info) (L : bpf_prog_linfo) : Prop :=
  ∀ off skip, 0 ≤ skip → ∃ r, bpf_prog_linfo__lfind L off skip = Ok r ∧
    last_not_above (insn_off info) (line_info_rec_size info) skip (nr_line_info info) off r.

Definition finds_addrs (info : bpf_prog_info) (L : bpf_prog_linfo) : Prop :=
  ∃ buf ksym len st, jited_line_info info = Some buf ∧ jited_ksyms info = Some ksym ∧ jited_func_lens info = Some len ∧
    Z.of_nat (length st) = nr_jited_ksyms info ∧ segments (jited_addr buf info) ksym len st ∧
    ∀ addr f skip, 0 ≤ f → 0 ≤ skip → ∃ r, bpf_prog_linfo__lfind_addr_func L addr f skip = Ok r ∧
      match st !! Z.to_nat f with
      | None => r = None
      | Some s => last_not_above (jited_addr buf info) (line_info_rec_size info) (s + skip)
                    (default (nr_line_info info) (st !! S (Z.to_nat f))) addr r
      end.

Section memory.
Context {K : Type} `{MemLaws K}.

Lemma free_opt_spec {A} (p : option A) (k : K) :
  wp (free_opt p) (λ r k', r = Ok tt ∧ blocks k' = blocks k - one p) k.
Proof.
  unfold free_opt. destruct p; [apply wp_run|apply wp_ret]; split; try done; cbn; [apply free_blocks|lia].
Qed.

Lemma linfo_free_spec L (k : K) :
  wp (bpf_prog_linfo__free (Some L)) (λ r k', r = Ok tt ∧ blocks k' = blocks k - blocks_of L) k.
Proof.
  unfold bpf_prog_linfo__free, blocks_of.
  do 4 (apply wp_bind; eapply wp_mono; [apply free_opt_spec|]; intros ? ? [-> ?]).
  apply wp_run. split; [done|]. rewrite free_blocks. lia.
Qed.

Lemma err_free_spec L (k0 k : K) :
  blocks k = blocks k0 + blocks_of L → wp (err_free L) (λ r k', r = Ok None ∧ blocks k' = blocks k0) k.
Proof.
  intros Hk. unfold err_free. apply wp_bind. eapply wp_mono; [apply linfo_free_spec|]. intros ? ? [-> ?].
  apply wp_ret. split; [done|lia].
Qed.

Lemma wp_malloc {B} n (f : bool → io K B) Q (k : K) :
  (∀ ok k', blocks k' = blocks k + (if ok : bool then 1 else 0) → wp (f ok) Q k') →
  wp (call (m_malloc n) ≫= f) Q k.
Proof.
  intros Hf. apply wp_bind, wp_call. intros ok k' E. apply Hf. pose proof (malloc_blocks n k) as Hb. by rewrite E in Hb.
Qed.

(** The outcome of [bpf_prog_linfo__new]. *)
Definition made (info : bpf_prog_info) (k : K) (r : res (option bpf_prog_linfo)) (k' : K) : Prop :=
  (r = Ok None ∧ blocks k' = blocks k) ∨
  ∃ L, r = Ok (Some L) ∧ blocks k' = blocks k + blocks_of L ∧ finds_insns info L ∧
    ((∀ addr f skip, 0 ≤ f → bpf_prog_linfo__lfind_addr_func L addr f skip = Ok None) ∨ finds_addrs info L).

Lemma no_jited_info_false info nr :
  no_jited_info info nr = false → 0 ≤ nr_jited_ksyms info →
  0 < nr_jited_ksyms info ∧ nr_jited_line_info info = nr ∧ 8 ≤ jited_line_info_rec_size info ∧
  nr_jited_func_lens info = nr_jited_ksyms info ∧
  ∃ buf ksym len, jited_line_info info = Some buf ∧ jited_ksyms info = Some ksym ∧ jited_func_lens info = Some len.
Proof.
  unfold no_jited_info. destruct (jited_line_info info) as [buf|], (jited_ksyms info) as [ksym|], (jited_func_lens info) as [len|];
    rewrite ?orb_true_r; try done. intros Hno Hpos. repeat split; try lia. by exists buf, ksym, len.
Qed.

Lemma finds_insns_taken info L n :
  info_ok info → nr_linfo L = nr_line_info info → rec_size L = line_info_rec_size info → 4 ≤ rec_size L →
  Z.of_nat n = nr_linfo L * rec_size L → raw_linfo L = Some (take n (line_info info)) → finds_insns info L.
Proof.
  intros Hok En Er Hr Hn Hraw off skip Hs. rewrite <-En, <-Er. by eapply lfind_spec.
Qed.

Lemma copy_jited_spec info L n (k0 k : K) :
  info_ok info → no_jited_info info (nr_line_info info) = false →
  L = ProgLinfo (Some (take n (line_info info))) None None None (nr_line_info info) 0 (line_info_rec_size info) 0 →
  4 ≤ line_info_rec_size info → 0 < nr_line_info info → Z.of_nat n = nr_line_info info * line_info_rec_size info →
  blocks k = blocks k0 + 2 → wp (copy_jited info L) (made info k0) k.
Proof.
  intros Hok Hno -> Hrec Hnz Hn Hk. pose proof Hok as [Hnr [Hl1 Hl2] Hj [Hsy0 Hsy] Hle].
  apply no_jited_info_false in Hno as (Hf & Enr & Hjr & El & buf & ksym & len & Eb & Ek & Elen); [|lia].
  destruct (Hj _ Eb) as [Hj1 Hj2]. specialize (Hsy _ Ek). specialize (Hle _ Elen). rewrite Enr in *. rewrite El in *.
  unfold copy_jited. cbn [with_jited nr_linfo jited_rec_size]. rewrite u64_small by nia.
  apply wp_malloc; intros [] k1 Hk1; cbn [negb];
    [|eapply wp_mono; [apply (err_free_spec _ k0); unfold blocks_of; cbn; lia|by left]].
  rewrite Eb. apply wp_bind, wp_pure. cbn [or_fault]. apply wp_bind, wp_pure. rewrite bytes_of_prefix by nia.
  set (raw := take (Z.to_nat (nr_line_info info * jited_line_info_rec_size info)) buf).
  apply wp_malloc; intros [] k2 Hk2; cbn [negb];
    [|eapply wp_mono; [apply (err_free_spec _ k0); unfold blocks_of; cbn; lia|by left]].
  apply wp_malloc; intros [] k3 Hk3; cbn [negb];
    [|eapply wp_mono; [apply (err_free_spec _ k0); unfold blocks_of; cbn; lia|by left]].
  rewrite Ek, Elen. apply wp_bind, wp_pure. cbn [or_fault]. apply wp_bind, wp_pure. apply wp_bind, wp_pure.
  match goal with |- context [dissect_jited_func ?L _ _] => set (M := L) end.
  assert (∀ i, 0 ≤ i < nr_linfo M → load64 raw (i * jited_rec_size M) = Ok (jited_addr buf info i)) as Ha.
  { intros i Hi. change (0 ≤ i < nr_line_info info) in Hi. change (jited_rec_size M) with (jited_line_info_rec_size info).
    pose proof (record_inside i (nr_line_info info) (jited_line_info_rec_size info) 8 _ Hi ltac:(lia) (Z.le_refl _)) as Hin.
    unfold raw, jited_addr. rewrite load64_take by (rewrite Z2Nat.id; nia).
    destruct (load64_ok buf (i * jited_line_info_rec_size info)) as [v ->]; [nia|lia|done]. }
  destruct (dissect_spec raw ksym len (jited_addr buf info) M Ha)
    as [->|(st & per_func & func_idx & -> & Hlen & Hseg & Ht & Hin)]; [cbn; lia|cbn; lia|done..| |].
  - cbn [Z.eqb negb EINVAL]. eapply wp_mono; [apply (err_free_spec _ k0); unfold blocks_of; cbn; lia|by left].
  - cbn [Z.eqb negb]. apply wp_ret. right. eexists. split; [reflexivity|]. split; [unfold blocks_of; cbn; lia|].
    split; [by eapply (finds_insns_taken _ _ n)|]. right.
    exists buf, ksym, len, st. do 3 (split; [done|]). split; [done|]. split; [done|].
    intros addr f skip Hf0 Hs0.
    eapply (lfind_addr_func_spec raw ksym len (jited_addr buf info) (with_arrays (Some per_func) (Some func_idx) M)); try done; cbn; lia.
Qed.

Lemma linfo_new_spec info (k : K) : info_ok info → wp (bpf_prog_linfo__new info) (made info k) k.
Proof.
  intros Hok. pose proof Hok as [Hnr [Hl1 Hl2] Hj Hsy Hle]. unfold bpf_prog_linfo__new, min_rec_size.
  destruct (Z.eqb_spec (nr_line_info info) 0) as [|Hnz]; [apply wp_ret; by left|].
  destruct (Z.ltb_spec (line_info_rec_size info) 4); [apply wp_ret; by left|].
  apply wp_malloc; intros [] k1 Hk1; cbn [negb]; [|apply wp_ret; left; split; [done|lia]].
  apply wp_malloc; intros [] k2 Hk2; cbn [negb];
    [|eapply wp_mono; [apply (err_free_spec _ k); unfold blocks_of; cbn; lia|by left]].
  cbn [rec_size]. rewrite u64_small, bytes_of_prefix by nia. apply wp_bind, wp_pure. cbn [with_raw].
  destruct (no_jited_info info (nr_line_info info)) eqn:Hno.
  - apply wp_ret. right. eexists. split; [reflexivity|]. split; [unfold blocks_of; cbn; lia|].
    split; [eapply (finds_insns_taken info _ _ Hok); try done; cbn; nia|]. left. intros addr f skip Hf.
    unfold bpf_prog_linfo__lfind_addr_func. cbn [nr_jited_func with_raw]. by rewrite (proj2 (Z.leb_le 0 f)).
  - eapply copy_jited_spec; try done; [lia|nia|lia].
Qed.
End memory.

(** ** The property *)


(** Two functions at 0x1000 and 0x2000, with three and two records of eight bytes. *)
Definition two_functions : bpf_prog_info := ProgInfo
  5 (le32 0 ++ le32 11 ++ le32 2 ++ le32 12 ++ le32 5 ++ le32 13 ++ le32 6 ++ le32 21 ++ le32 9 ++ le32 22) 8
  5 (Some (le64 0x1000 ++ le64 0x1004 ++ le64 0x1010 ++ le64 0x2000 ++ le64 0x2020)) 8
  2 (Some [0x1000; 0x2000]) 2 (Some [0x20; 0x40]).

Definition line_of (L : res (option bpf_prog_linfo)) (addr f skip : Z) : option (res (option Z)) :=
  match L with Ok (Some L) => Some (bpf_prog_linfo__lfind_addr_func L addr f skip) | _ => None end.

Lemma two_functions_ok : info_ok two_functions.
Proof. split; cbn; try (intros ? [= <-]; cbn); try lia. split; [lia|]. intros ? [= <-]. cbn. lia. Qed.

