(* ===== verification/BpfSys.v ===== *)
(** * bpf.c of libbpf: the calls of bpf(2)

    A call fills in a zeroed [union bpf_attr], its bytes here, and hands it to the
    kernel, which may write into it.  A pointer is an address; the kernel, the
    allocator, and the memory that a store of this code changes, are the interface
    [BpfSys].  A member of the union is an offset and a width. *)

From Stdlib Require Import Ascii.
From S2P Require Import Prelude Io Config Packet Loader Netlink Bytes XskLib.

(** ** union bpf_attr *)

Record field := Field { f_off : nat; f_width : nat }.

(** The bytes of a number, and the number of some bytes. *)
Fixpoint le_bytes (n : nat) (v : Z) : list Z :=
  match n with O => [] | S n => v mod 256 :: le_bytes n (v / 256) end.
Fixpoint le_value (l : list Z) : Z :=
  match l with [] => 0 | b :: l => b + 256 * le_value l end.

(** A store of some bytes at an offset. *)
Definition splice (off : nat) (bs : list Z) (a : buffer) : buffer :=
  imap (λ i b, if (off <=? i)%nat then default b (bs !! (i - off)%nat) else b) a.
Definition set_field (f : field) (v : Z) (a : buffer) : buffer := splice (f_off f) (le_bytes (f_width f) v) a.
Definition get_field (f : field) (a : buffer) : Z := le_value (take (f_width f) (drop (f_off f) a)).

Definition sizeof_bpf_attr : Z := 112.
Definition zero_attr : buffer := replicate 112 0.

Definition BPF_OBJ_NAME_LEN : Z := 16.

(** [memcpy(attr.name, name, min(strlen(name), BPF_OBJ_NAME_LEN - 1))], unless [name] is NULL. *)
Definition set_name (off : nat) (name : option string) (a : buffer) : buffer :=
  match name with
  | None => a
  | Some s => splice off (take (Z.to_nat (BPF_OBJ_NAME_LEN - 1)) (char_bytes s)) a
  end.

Module MapCreate.
Definition map_type := Field 0 4.
Definition key_size := Field 4 4.
Definition value_size := Field 8 4.
Definition max_entries := Field 12 4.
Definition map_flags := Field 16 4.
Definition inner_map_fd := Field 20 4.
Definition numa_node := Field 24 4.
Definition map_name : nat := 28.
Definition map_ifindex := Field 44 4.
Definition btf_fd := Field 48 4.
Definition btf_key_type_id := Field 52 4.
Definition btf_value_type_id := Field 56 4.
End MapCreate.

Module MapElem.
Definition map_fd := Field 0 4.
Definition key := Field 8 8.
Definition value := Field 16 8.
Definition next_key := Field 16 8.
Definition flags := Field 24 8.
End MapElem.

Module ProgLoad.
Definition prog_type := Field 0 4.
Definition insn_cnt := Field 4 4.
Definition insns := Field 8 8.
Definition license := Field 16 8.
Definition log_level := Field 24 4.
Definition log_size := Field 28 4.
Definition log_buf := Field 32 8.
Definition kern_version := Field 40 4.
Definition prog_flags := Field 44 4.
Definition prog_name : nat := 48.
Definition prog_ifindex := Field 64 4.
Definition expected_attach_type := Field 68 4.
Definition prog_btf_fd := Field 72 4.
Definition func_info_rec_size := Field 76 4.
Definition func_info := Field 80 8.
Definition func_info_cnt := Field 88 4.
Definition line_info_rec_size := Field 92 4.
Definition line_info := Field 96 8.
Definition line_info_cnt := Field 104 4.
Definition attach_btf_id := Field 108 4.
End ProgLoad.

Module Obj.
Definition pathname := Field 0 8.
Definition bpf_fd := Field 8 4.
End Obj.

Module ProgAttach.
Definition target_fd := Field 0 4.
Definition attach_bpf_fd := Field 4 4.
Definition attach_type := Field 8 4.
Definition attach_flags := Field 12 4.
End ProgAttach.

Module TestRun.
Definition prog_fd := Field 0 4.
Definition retval := Field 4 4.
Definition data_size_in := Field 8 4.
Definition data_size_out := Field 12 4.
Definition data_in := Field 16 8.
Definition data_out := Field 24 8.
Definition repeat := Field 32 4.
Definition duration := Field 36 4.
Definition ctx_size_in := Field 40 4.
Definition ctx_size_out := Field 44 4.
Definition ctx_in := Field 48 8.
Definition ctx_out := Field 56 8.
End TestRun.

Module GetId.
(** also [prog_id], [map_id] and [btf_id] *)
Definition start_id := Field 0 4.
Definition next_id := Field 4 4.
End GetId.

Module ObjInfo.
Definition bpf_fd := Field 0 4.
Definition info_len := Field 4 4.
Definition info := Field 8 8.
End ObjInfo.

Module ProgQuery.
Definition target_fd := Field 0 4.
Definition attach_type := Field 4 4.
Definition query_flags := Field 8 4.
Definition attach_flags := Field 12 4.
Definition prog_ids := Field 16 8.
Definition prog_cnt := Field 24 4.
End ProgQuery.

Module RawTracepoint.
Definition name := Field 0 8.
Definition prog_fd := Field 8 4.
End RawTracepoint.

Module BtfLoad.
Definition btf := Field 0 8.
Definition btf_log_buf := Field 8 8.
Definition btf_size := Field 16 4.
Definition btf_log_size := Field 20 4.
Definition btf_log_level := Field 24 4.
End BtfLoad.

Module TaskFdQuery.
Definition pid := Field 0 4.
Definition fd := Field 4 4.
Definition flags := Field 8 4.
Definition buf_len := Field 12 4.
Definition buf := Field 16 8.
Definition prog_id := Field 24 4.
Definition fd_type := Field 28 4.
Definition probe_offset := Field 32 8.
Definition probe_addr := Field 40 8.
End TaskFdQuery.

(** enum bpf_cmd, and other numbers of <linux/bpf.h> *)
Definition BPF_MAP_CREATE : Z := 0.
Definition BPF_MAP_LOOKUP_ELEM : Z := 1.
Definition BPF_MAP_UPDATE_ELEM : Z := 2.
Definition BPF_MAP_DELETE_ELEM : Z := 3.
Definition BPF_MAP_GET_NEXT_KEY : Z := 4.
Definition BPF_PROG_LOAD : Z := 5.
Definition BPF_OBJ_PIN : Z := 6.
Definition BPF_OBJ_GET : Z := 7.
Definition BPF_PROG_ATTACH : Z := 8.
Definition BPF_PROG_DETACH : Z := 9.
Definition BPF_PROG_TEST_RUN : Z := 10.
Definition BPF_PROG_GET_NEXT_ID : Z := 11.
Definition BPF_MAP_GET_NEXT_ID : Z := 12.
Definition BPF_PROG_GET_FD_BY_ID : Z := 13.
Definition BPF_MAP_GET_FD_BY_ID : Z := 14.
Definition BPF_OBJ_GET_INFO_BY_FD : Z := 15.
Definition BPF_PROG_QUERY : Z := 16.
Definition BPF_RAW_TRACEPOINT_OPEN : Z := 17.
Definition BPF_BTF_LOAD : Z := 18.
Definition BPF_BTF_GET_FD_BY_ID : Z := 19.
Definition BPF_TASK_FD_QUERY : Z := 20.
Definition BPF_MAP_LOOKUP_AND_DELETE_ELEM : Z := 21.
Definition BPF_MAP_FREEZE : Z := 22.
Definition BPF_BTF_GET_NEXT_ID : Z := 23.
Definition BPF_F_NUMA_NODE : Z := Z.shiftl 1 2.
Definition BPF_PROG_TYPE_TRACING : Z := 26.
Definition EAGAIN : Z := 11.
Definition E2BIG : Z := 7.

(** ** The system *)

Class BpfSys (K : Type) := {
  (** [syscall(__NR_bpf, cmd, attr, size)]: the result, and the attribute behind it *)
  sys_bpf : Z → buffer → Z → K → Z * buffer * K;
  bs_errno : K → Z;
  (** an address, [None] for NULL *)
  bs_malloc : Z → K → option Z * K;
  bs_free : option Z → K → K;
  (** [n] bytes at an address, a fault outside of every object; a store *)
  bs_read : Z → Z → K → res (list Z);
  bs_store : Z → list Z → K → K
}.

Section bpf.
Context {K : Type} `{BpfSys K}.

(** The call without what it leaves in [attr]. *)
Definition bpf (cmd : Z) (attr : buffer) : io K Z :=
  '(r, _) ← call (sys_bpf cmd attr sizeof_bpf_attr); mret r.

(** The loop ends when the kernel has no reason to ask for another try. *)
Fixpoint sys_bpf_prog_load (fuel : nat) (attr : buffer) : io K (Z * buffer) :=
  '(fd, attr) ← call (sys_bpf BPF_PROG_LOAD attr sizeof_bpf_attr);
  e ← ask bs_errno;
  if (fd <? 0) && (e =? EAGAIN) then
    match fuel with O => pure_res (Err OutOfFuel) | S fuel => sys_bpf_prog_load fuel attr end
  else mret (fd, attr).

(** ** Maps *)

Record bpf_create_map_attr := CreateMapAttr {
  cm_name : option string; cm_map_type : Z; cm_map_flags : Z; cm_key_size : Z; cm_value_size : Z;
  cm_max_entries : Z; cm_numa_node : Z; cm_btf_fd : Z; cm_btf_key_type_id : Z; cm_btf_value_type_id : Z;
  cm_map_ifindex : Z; cm_inner_map_fd : Z
}.

Definition create_map_attr (c : bpf_create_map_attr) : buffer :=
  let attr := set_field MapCreate.map_type (cm_map_type c) zero_attr in
  let attr := set_field MapCreate.key_size (cm_key_size c) attr in
  let attr := set_field MapCreate.value_size (cm_value_size c) attr in
  let attr := set_field MapCreate.max_entries (cm_max_entries c) attr in
  let attr := set_field MapCreate.map_flags (cm_map_flags c) attr in
  let attr := set_name MapCreate.map_name (cm_name c) attr in
  let attr := set_field MapCreate.numa_node (cm_numa_node c) attr in
  let attr := set_field MapCreate.btf_fd (cm_btf_fd c) attr in
  let attr := set_field MapCreate.btf_key_type_id (cm_btf_key_type_id c) attr in
  let attr := set_field MapCreate.btf_value_type_id (cm_btf_value_type_id c) attr in
  let attr := set_field MapCreate.map_ifindex (cm_map_ifindex c) attr in
  set_field MapCreate.inner_map_fd (cm_inner_map_fd c) attr.

Definition bpf_create_map_xattr (c : bpf_create_map_attr) : io K Z := bpf BPF_MAP_CREATE (create_map_attr c).

Definition bpf_create_map_node (map_type : Z) (name : option string) (key_size value_size max_entries map_flags node : Z) : io K Z :=
  let '(numa, flags) := if 0 <=? node then (node, Z.lor map_flags BPF_F_NUMA_NODE) else (0, map_flags) in
  bpf_create_map_xattr (CreateMapAttr name map_type flags key_size value_size max_entries numa 0 0 0 0 0).
Definition bpf_create_map (map_type key_size value_size max_entries map_flags : Z) : io K Z :=
  bpf_create_map_xattr (CreateMapAttr None map_type map_flags key_size value_size max_entries 0 0 0 0 0 0).
Definition bpf_create_map_name (map_type : Z) (name : option string) (key_size value_size max_entries map_flags : Z) : io K Z :=
  bpf_create_map_xattr (CreateMapAttr name map_type map_flags key_size value_size max_entries 0 0 0 0 0 0).

Definition bpf_create_map_in_map_node (map_type : Z) (name : option string) (key_size inner_map_fd max_entries map_flags node : Z) : io K Z :=
  let attr := set_field MapCreate.map_type map_type zero_attr in
  let attr := set_field MapCreate.key_size key_size attr in
  let attr := set_field MapCreate.value_size 4 attr in
  let attr := set_field MapCreate.inner_map_fd inner_map_fd attr in
  let attr := set_field MapCreate.max_entries max_entries attr in
  let attr := set_field MapCreate.map_flags map_flags attr in
  let attr := set_name MapCreate.map_name name attr in
  let attr :=
    if 0 <=? node then
      let attr := set_field MapCreate.map_flags (Z.lor (get_field MapCreate.map_flags attr) BPF_F_NUMA_NODE) attr in
      set_field MapCreate.numa_node node attr
    else attr in
  bpf BPF_MAP_CREATE attr.
Definition bpf_create_map_in_map (map_type : Z) (name : option string) (key_size inner_map_fd max_entries map_flags : Z) : io K Z :=
  bpf_create_map_in_map_node map_type name key_size inner_map_fd max_entries map_flags (-1).

(** The calls on an element; [key] and [value] are addresses. *)
Definition elem_attr (fd key value flags : Z) : buffer :=
  set_field MapElem.flags flags (set_field MapElem.value value (set_field MapElem.key key
    (set_field MapElem.map_fd fd zero_attr))).
Definition bpf_map_update_elem (fd key value flags : Z) : io K Z := bpf BPF_MAP_UPDATE_ELEM (elem_attr fd key value flags).
Definition bpf_map_lookup_elem (fd key value : Z) : io K Z := bpf BPF_MAP_LOOKUP_ELEM (elem_attr fd key value 0).
Definition bpf_map_lookup_elem_flags (fd key value flags : Z) : io K Z := bpf BPF_MAP_LOOKUP_ELEM (elem_attr fd key value flags).
Definition bpf_map_lookup_and_delete_elem (fd key value : Z) : io K Z :=
  bpf BPF_MAP_LOOKUP_AND_DELETE_ELEM (elem_attr fd key value 0).
Definition bpf_map_delete_elem (fd key : Z) : io K Z :=
  bpf BPF_MAP_DELETE_ELEM (set_field MapElem.key key (set_field MapElem.map_fd fd zero_attr)).
Definition bpf_map_get_next_key (fd key next_key : Z) : io K Z :=
  bpf BPF_MAP_GET_NEXT_KEY (set_field MapElem.next_key next_key (set_field MapElem.key key (set_field MapElem.map_fd fd zero_attr))).
Definition bpf_map_freeze (fd : Z) : io K Z := bpf BPF_MAP_FREEZE (set_field MapElem.map_fd fd zero_attr).

(** ** Programs *)

(** A pointer, 0 for NULL. *)
Definition ptr_to_u64 (p : option Z) : Z := default 0 p.

Record bpf_load_program_attr := LoadProgramAttr {
  lp_prog_type : Z; lp_expected_attach_type : Z; lp_name : option string; lp_insns : Z; lp_insns_cnt : Z;
  lp_license : Z; lp_kern_version : Z; lp_ifindex_or_btf_id : Z; lp_prog_btf_fd : Z;
  lp_func_info_rec_size : Z; lp_func_info : Z; lp_func_info_cnt : Z;
  lp_line_info_rec_size : Z; lp_line_info : Z; lp_line_info_cnt : Z; lp_log_level : Z; lp_prog_flags : Z
}.

(** The loop of [alloc_zero_tailing_info]: [i] of [cnt] records are left. *)
Fixpoint zero_tails (cnt : nat) (orecord nrecord actual_rec_size expected_rec_size : Z) : io K unit :=
  match cnt with
  | O => mret tt
  | S cnt =>
    bs ← (λ k, (bs_read orecord expected_rec_size k, k));
    _ ← run (bs_store nrecord bs);
    _ ← run (bs_store (nrecord + expected_rec_size) (replicate (Z.to_nat (actual_rec_size - expected_rec_size)) 0));
    zero_tails cnt (orecord + actual_rec_size) (nrecord + actual_rec_size) actual_rec_size expected_rec_size
  end.

Definition alloc_zero_tailing_info (orecord cnt actual_rec_size expected_rec_size : Z) : io K (option Z) :=
  let info_len := u64 (actual_rec_size * cnt) in
  info ← call (bs_malloc info_len);
  match info with
  | None => mret None
  | Some info =>
      _ ← zero_tails (Z.to_nat cnt) orecord info actual_rec_size expected_rec_size;
      mret (Some info)
  end.

(** [attr] before the first try. *)
Definition load_attr_bytes (l : bpf_load_program_attr) (log_buf : option Z) (log_buf_sz : Z) : buffer :=
  let attr := set_field ProgLoad.prog_type (lp_prog_type l) zero_attr in
  let attr := set_field ProgLoad.expected_attach_type (lp_expected_attach_type l) attr in
  let attr :=
    if get_field ProgLoad.prog_type attr =? BPF_PROG_TYPE_TRACING
    then set_field ProgLoad.attach_btf_id (lp_ifindex_or_btf_id l) attr
    else set_field ProgLoad.prog_ifindex (lp_ifindex_or_btf_id l) attr in
  let attr := set_field ProgLoad.insn_cnt (u32 (lp_insns_cnt l)) attr in
  let attr := set_field ProgLoad.insns (lp_insns l) attr in
  let attr := set_field ProgLoad.license (lp_license l) attr in
  let attr := set_field ProgLoad.log_level (lp_log_level l) attr in
  let attr :=
    if negb (lp_log_level l =? 0)
    then set_field ProgLoad.log_size log_buf_sz (set_field ProgLoad.log_buf (ptr_to_u64 log_buf) attr)
    else set_field ProgLoad.log_size 0 (set_field ProgLoad.log_buf (ptr_to_u64 None) attr) in
  let attr := set_field ProgLoad.kern_version (lp_kern_version l) attr in
  let attr := set_field ProgLoad.prog_btf_fd (lp_prog_btf_fd l) attr in
  let attr := set_field ProgLoad.func_info_rec_size (lp_func_info_rec_size l) attr in
  let attr := set_field ProgLoad.func_info_cnt (lp_func_info_cnt l) attr in
  let attr := set_field ProgLoad.func_info (lp_func_info l) attr in
  let attr := set_field ProgLoad.line_info_rec_size (lp_line_info_rec_size l) attr in
  let attr := set_field ProgLoad.line_info_cnt (lp_line_info_cnt l) attr in
  let attr := set_field ProgLoad.line_info (lp_line_info l) attr in
  let attr := set_name ProgLoad.prog_name (lp_name l) attr in
  set_field ProgLoad.prog_flags (lp_prog_flags l) attr.

(** The variables of [bpf_load_program_xattr] that the retries change. *)
Record tries := Tries { t_fd : Z; t_attr : buffer; t_finfo : option Z; t_linfo : option Z }.

(** The corrected records of one kind: [None] when malloc failed. *)
Definition correct_func_info (l : bpf_load_program_attr) (t : tries) : io K (option tries) :=
  finfo ← alloc_zero_tailing_info (lp_func_info l) (lp_func_info_cnt l) (lp_func_info_rec_size l)
            (get_field ProgLoad.func_info_rec_size (t_attr t));
  match finfo with
  | None => mret None
  | Some _ =>
      let attr := set_field ProgLoad.func_info (ptr_to_u64 finfo) (t_attr t) in
      let attr := set_field ProgLoad.func_info_rec_size (lp_func_info_rec_size l) attr in
      mret (Some (Tries (t_fd t) attr finfo (t_linfo t)))
  end.
Definition correct_line_info (l : bpf_load_program_attr) (t : tries) : io K (option tries) :=
  linfo ← alloc_zero_tailing_info (lp_line_info l) (lp_line_info_cnt l) (lp_line_info_rec_size l)
            (get_field ProgLoad.line_info_rec_size (t_attr t));
  match linfo with
  | None => mret None
  | Some _ =>
      let attr := set_field ProgLoad.line_info (ptr_to_u64 linfo) (t_attr t) in
      let attr := set_field ProgLoad.line_info_rec_size (lp_line_info_rec_size l) attr in
      mret (Some (Tries (t_fd t) attr (t_finfo t) linfo))
  end.

Definition is_null (p : option Z) : bool := match p with None => true | Some _ => false end.

(** Which correction the kernel's sizes ask for. *)
Definition wants_func_info (l : bpf_load_program_attr) (t : tries) : bool :=
  is_null (t_finfo t) && negb (get_field ProgLoad.func_info_cnt (t_attr t) =? 0)
  && (get_field ProgLoad.func_info_rec_size (t_attr t) <? lp_func_info_rec_size l).
Definition wants_line_info (l : bpf_load_program_attr) (t : tries) : bool :=
  is_null (t_linfo t) && negb (get_field ProgLoad.line_info_cnt (t_attr t) =? 0)
  && (get_field ProgLoad.line_info_rec_size (t_attr t) <? lp_line_info_rec_size l).

Section load.
Variable fuel : nat.

(** [fd = sys_bpf_prog_load(&attr, sizeof(attr))] *)
Definition try_load (t : tries) : io K tries :=
  '(fd, attr) ← sys_bpf_prog_load fuel (t_attr t); mret (Tries fd attr (t_finfo t) (t_linfo t)).

(** The loop of retries, each of which stores [finfo] or [linfo]; [true] for goto done. *)
Fixpoint retry_loop (n : nat) (l : bpf_load_program_attr) (t : tries) : io K (bool * tries) :=
  e ← ask bs_errno;
  if (e =? E2BIG) && (is_null (t_finfo t) || is_null (t_linfo t)) then
    if wants_func_info l t || wants_line_info l t then
      match n with
      | O => pure_res (Err OutOfFuel)
      | S n =>
        r ← (if wants_func_info l t then correct_func_info l t else correct_line_info l t);
        match r with
        | None => mret (true, t)
        | Some t =>
            t ← try_load t;
            if 0 <=? t_fd t then mret (true, t) else retry_loop n l t
        end
      end
    else mret (false, t)
  else mret (false, t).

(** done *)
Definition load_done (t : tries) : io K Z :=
  _ ← run (bs_free (t_finfo t)); _ ← run (bs_free (t_linfo t)); mret (t_fd t).

Definition bpf_load_program_xattr (load_attr : option bpf_load_program_attr) (log_buf : option Z) (log_buf_sz : Z) : io K Z :=
  match load_attr with
  | None => mret (- EINVAL)
  | Some l =>
    if negb (Bool.eqb (is_null log_buf) (log_buf_sz =? 0)) then mret (- EINVAL)
    else
      let log_level := lp_log_level l in
      if (7 <? log_level) || (negb (log_level =? 0) && is_null log_buf) then mret (- EINVAL)
      else
        t ← try_load (Tries 0 (load_attr_bytes l log_buf log_buf_sz) None None);
        if 0 <=? t_fd t then mret (t_fd t)
        else
          '(done, t) ← retry_loop 2 l t;
          if (done : bool) then load_done t
          else if negb (log_level =? 0) || is_null log_buf then load_done t
          else
            let attr := set_field ProgLoad.log_buf (ptr_to_u64 log_buf) (t_attr t) in
            let attr := set_field ProgLoad.log_size log_buf_sz attr in
            let attr := set_field ProgLoad.log_level 1 attr in
            _ ← run (bs_store (ptr_to_u64 log_buf) [0]);
            t ← try_load (Tries (t_fd t) attr (t_finfo t) (t_linfo t));
            load_done t
  end.

Definition bpf_load_program (type insns insns_cnt license kern_version : Z) (log_buf : option Z) (log_buf_sz : Z) : io K Z :=
  bpf_load_program_xattr
    (Some (LoadProgramAttr type 0 None insns insns_cnt license kern_version 0 0 0 0 0 0 0 0 0 0)) log_buf log_buf_sz.

Definition bpf_verify_program (type insns insns_cnt prog_flags license kern_version : Z) (log_buf : option Z)
    (log_buf_sz log_level : Z) : io K Z :=
  let attr := set_field ProgLoad.prog_type type zero_attr in
  let attr := set_field ProgLoad.insn_cnt (u32 insns_cnt) attr in
  let attr := set_field ProgLoad.insns insns attr in
  let attr := set_field ProgLoad.license license attr in
  let attr := set_field ProgLoad.log_buf (ptr_to_u64 log_buf) attr in
  let attr := set_field ProgLoad.log_size log_buf_sz attr in
  let attr := set_field ProgLoad.log_level log_level attr in
  buf ← pure_res (or_fault log_buf NullDeref);
  _ ← run (bs_store buf [0]);
  let attr := set_field ProgLoad.kern_version kern_version attr in
  let attr := set_field ProgLoad.prog_flags prog_flags attr in
  '(fd, _) ← sys_bpf_prog_load fuel attr; mret fd.
End load.

(** ** Pins, attachments, and tests *)

Definition bpf_obj_pin (fd pathname : Z) : io K Z :=
  bpf BPF_OBJ_PIN (set_field Obj.bpf_fd fd (set_field Obj.pathname pathname zero_attr)).
Definition bpf_obj_get (pathname : Z) : io K Z := bpf BPF_OBJ_GET (set_field Obj.pathname pathname zero_attr).

Definition bpf_prog_attach (prog_fd target_fd type flags : Z) : io K Z :=
  let attr := set_field ProgAttach.target_fd target_fd zero_attr in
  let attr := set_field ProgAttach.attach_bpf_fd prog_fd attr in
  let attr := set_field ProgAttach.attach_type type attr in
  bpf BPF_PROG_ATTACH (set_field ProgAttach.attach_flags flags attr).
Definition bpf_prog_detach (target_fd type : Z) : io K Z :=
  let attr := set_field ProgAttach.target_fd target_fd zero_attr in
  bpf BPF_PROG_DETACH (set_field ProgAttach.attach_type type attr).
Definition bpf_prog_detach2 (prog_fd target_fd type : Z) : io K Z :=
  let attr := set_field ProgAttach.target_fd target_fd zero_attr in
  let attr := set_field ProgAttach.attach_bpf_fd prog_fd attr in
  bpf BPF_PROG_DETACH (set_field ProgAttach.attach_type type attr).

(** The result, the flags, [None] when they were not asked for, and the number of ids. *)
Definition bpf_prog_query (target_fd type query_flags : Z) (want_flags : bool) (prog_ids prog_cnt : Z) :
  io K (Z * option Z * Z) :=
  let attr := set_field ProgQuery.target_fd target_fd zero_attr in
  let attr := set_field ProgQuery.attach_type type attr in
  let attr := set_field ProgQuery.query_flags query_flags attr in
  let attr := set_field ProgQuery.prog_cnt prog_cnt attr in
  let attr := set_field ProgQuery.prog_ids prog_ids attr in
  '(ret, attr) ← call (sys_bpf BPF_PROG_QUERY attr sizeof_bpf_attr);
  mret (ret, if want_flags then Some (get_field ProgQuery.attach_flags attr) else None,
        get_field ProgQuery.prog_cnt attr).

(** The result, and what is stored when it is asked for: the size, the program's result and the time. *)
Definition bpf_prog_test_run (prog_fd repeat data size data_out : Z) : io K (Z * (Z * Z * Z)) :=
  let attr := set_field TestRun.prog_fd prog_fd zero_attr in
  let attr := set_field TestRun.data_in data attr in
  let attr := set_field TestRun.data_out data_out attr in
  let attr := set_field TestRun.data_size_in size attr in
  let attr := set_field TestRun.repeat repeat attr in
  '(ret, attr) ← call (sys_bpf BPF_PROG_TEST_RUN attr sizeof_bpf_attr);
  mret (ret, (get_field TestRun.data_size_out attr, get_field TestRun.retval attr, get_field TestRun.duration attr)).

Record bpf_prog_test_run_attr := TestRunAttr {
  tr_prog_fd : Z; tr_repeat : Z; tr_data_in : Z; tr_data_size_in : Z; tr_data_out : option Z; tr_data_size_out : Z;
  tr_retval : Z; tr_duration : Z; tr_ctx_in : Z; tr_ctx_size_in : Z; tr_ctx_out : Z; tr_ctx_size_out : Z
}.

Definition bpf_prog_test_run_xattr (t : bpf_prog_test_run_attr) : io K (Z * bpf_prog_test_run_attr) :=
  if is_null (tr_data_out t) && (0 <? tr_data_size_out t) then mret (- EINVAL, t)
  else
    let attr := set_field TestRun.prog_fd (tr_prog_fd t) zero_attr in
    let attr := set_field TestRun.data_in (tr_data_in t) attr in
    let attr := set_field TestRun.data_out (ptr_to_u64 (tr_data_out t)) attr in
    let attr := set_field TestRun.data_size_in (tr_data_size_in t) attr in
    let attr := set_field TestRun.data_size_out (tr_data_size_out t) attr in
    let attr := set_field TestRun.ctx_in (tr_ctx_in t) attr in
    let attr := set_field TestRun.ctx_out (tr_ctx_out t) attr in
    let attr := set_field TestRun.ctx_size_in (tr_ctx_size_in t) attr in
    let attr := set_field TestRun.ctx_size_out (tr_ctx_size_out t) attr in
    let attr := set_field TestRun.repeat (tr_repeat t) attr in
    '(ret, attr) ← call (sys_bpf BPF_PROG_TEST_RUN attr sizeof_bpf_attr);
    mret (ret, TestRunAttr (tr_prog_fd t) (tr_repeat t) (tr_data_in t) (tr_data_size_in t) (tr_data_out t)
      (get_field TestRun.data_size_out attr) (get_field TestRun.retval attr) (get_field TestRun.duration attr)
      (tr_ctx_in t) (tr_ctx_size_in t) (tr_ctx_out t) (get_field TestRun.ctx_size_out attr)).

(** ** Ids *)

(** The error, and [*next_id], which keeps [next_id] on an error. *)
Definition bpf_obj_get_next_id (start_id next_id cmd : Z) : io K (Z * Z) :=
  '(err, attr) ← call (sys_bpf cmd (set_field GetId.start_id start_id zero_attr) sizeof_bpf_attr);
  mret (err, if err =? 0 then get_field GetId.next_id attr else next_id).
Definition bpf_prog_get_next_id (start_id next_id : Z) : io K (Z * Z) := bpf_obj_get_next_id start_id next_id BPF_PROG_GET_NEXT_ID.
Definition bpf_map_get_next_id (start_id next_id : Z) : io K (Z * Z) := bpf_obj_get_next_id start_id next_id BPF_MAP_GET_NEXT_ID.
Definition bpf_btf_get_next_id (start_id next_id : Z) : io K (Z * Z) := bpf_obj_get_next_id start_id next_id BPF_BTF_GET_NEXT_ID.
Definition bpf_prog_get_fd_by_id (id : Z) : io K Z := bpf BPF_PROG_GET_FD_BY_ID (set_field GetId.start_id id zero_attr).
Definition bpf_map_get_fd_by_id (id : Z) : io K Z := bpf BPF_MAP_GET_FD_BY_ID (set_field GetId.start_id id zero_attr).
Definition bpf_btf_get_fd_by_id (id : Z) : io K Z := bpf BPF_BTF_GET_FD_BY_ID (set_field GetId.start_id id zero_attr).

(** The error, and [*info_len]. *)
Definition bpf_obj_get_info_by_fd (prog_fd info info_len : Z) : io K (Z * Z) :=
  let attr := set_field ObjInfo.bpf_fd prog_fd zero_attr in
  let attr := set_field ObjInfo.info_len info_len attr in
  let attr := set_field ObjInfo.info info attr in
  '(err, attr) ← call (sys_bpf BPF_OBJ_GET_INFO_BY_FD attr sizeof_bpf_attr);
  mret (err, if err =? 0 then get_field ObjInfo.info_len attr else info_len).

Definition bpf_raw_tracepoint_open (name prog_fd : Z) : io K Z :=
  bpf BPF_RAW_TRACEPOINT_OPEN (set_field RawTracepoint.prog_fd prog_fd (set_field RawTracepoint.name name zero_attr)).

(** ** BTF *)

(** [do_log] and what the jump to retry leaves in [attr]. *)
Definition with_btf_log (do_log : bool) (log_buf : option Z) (log_buf_size : Z) (attr : buffer) : buffer :=
  if do_log && negb (is_null log_buf) && negb (log_buf_size =? 0) then
    let attr := set_field BtfLoad.btf_log_level 1 attr in
    let attr := set_field BtfLoad.btf_log_size log_buf_size attr in
    set_field BtfLoad.btf_log_buf (ptr_to_u64 log_buf) attr
  else attr.

Definition bpf_load_btf (btf btf_size : Z) (log_buf : option Z) (log_buf_size : Z) (do_log : bool) : io K Z :=
  let attr := set_field BtfLoad.btf_size btf_size (set_field BtfLoad.btf btf zero_attr) in
  '(fd, attr) ← call (sys_bpf BPF_BTF_LOAD (with_btf_log do_log log_buf log_buf_size attr) sizeof_bpf_attr);
  if (fd =? -1) && negb do_log && negb (is_null log_buf) && negb (log_buf_size =? 0) then
    bpf BPF_BTF_LOAD (with_btf_log true log_buf log_buf_size attr)
  else mret fd.

(** The error and what is stored: length, program id, type, offset and address. *)
Definition bpf_task_fd_query (pid fd flags buf buf_len : Z) : io K (Z * (Z * Z * Z * Z * Z)) :=
  let attr := set_field TaskFdQuery.pid pid zero_attr in
  let attr := set_field TaskFdQuery.fd fd attr in
  let attr := set_field TaskFdQuery.flags flags attr in
  let attr := set_field TaskFdQuery.buf buf attr in
  let attr := set_field TaskFdQuery.buf_len buf_len attr in
  '(err, attr) ← call (sys_bpf BPF_TASK_FD_QUERY attr sizeof_bpf_attr);
  mret (err, (get_field TaskFdQuery.buf_len attr, get_field TaskFdQuery.prog_id attr, get_field TaskFdQuery.fd_type attr,
              get_field TaskFdQuery.probe_offset attr, get_field TaskFdQuery.probe_addr attr)).
End bpf.
