(* ===== verification/BpfSysProps.v ===== *)
(** * What the kernel is told by bpf(2)

    The members of [union bpf_attr] that a call fills in are read back by the kernel
    as they were given, all others as zero; and [bpf_load_program_xattr], for a kernel
    that keeps [BpfSysLaws], shows it no other program than the one it was given. *)

From Stdlib Require Import Ascii.
From S2P Require Import Prelude Io Config Packet Loader Netlink Bytes XskLib BpfSys.

(** ** Members *)

Lemma length_le_bytes n v : length (le_bytes n v) = n.
Proof. revert v. induction n as [|n IH]; intros v; [done|]. cbn. by rewrite IH. Qed.

Lemma le_value_bytes n v : le_value (le_bytes n v) = v mod 256 ^ Z.of_nat n.
Proof.
  revert v. induction n as [|n IH]; intros v; [cbn; by rewrite Z.mod_1_r|].
  cbn [le_bytes le_value]. rewrite IH, Nat2Z.inj_succ, Z.pow_succ_r by lia.
  rewrite Z.rem_mul_r by lia. done.
Qed.

Definition attr_ok (a : buffer) : Prop := length a = 112%nat.
Definition field_ok (f : field) : Prop := (f_off f + f_width f ≤ 112)%nat.

Lemma length_splice off bs a : length (splice off bs a) = length a.
Proof. apply length_imap. Qed.

Lemma attr_ok_set f v a : attr_ok (set_field f v a) ↔ attr_ok a.
Proof. unfold attr_ok, set_field. by rewrite length_splice. Qed.

Lemma lookup_splice off bs a j : (j < length a)%nat →
  splice off bs a !! j = if decide (off ≤ j < off + length bs)%nat then bs !! (j - off)%nat else a !! j.
Proof.
  intros Hj. unfold splice. rewrite list_lookup_imap. destruct (lookup_lt_is_Some_2 a j Hj) as [b ->]. cbn.
  destruct (Nat.leb_spec off j); [|by rewrite decide_False by lia]. case_decide as Hd.
  - destruct (lookup_lt_is_Some_2 bs (j - off)) as [c ->]; [lia|done].
  - by rewrite lookup_ge_None_2 by lia.
Qed.

Lemma lookup_slice {A} n o (l : list A) i : take n (drop o l) !! i = if decide (i < n)%nat then l !! (o + i)%nat else None.
Proof. case_decide; [by rewrite lookup_take_lt, lookup_drop|by rewrite lookup_take_ge by lia]. Qed.

Lemma slice_splice_same off bs a :
  (off + length bs ≤ length a)%nat → take (length bs) (drop off (splice off bs a)) = bs.
Proof.
  intros Hl. apply list_eq. intros i. rewrite lookup_slice. case_decide.
  - rewrite lookup_splice, decide_True by lia. f_equal. lia.
  - symmetry. apply lookup_ge_None. lia.
Qed.

Lemma slice_splice_other off bs a o n :
  (o + n ≤ off ∨ off + length bs ≤ o)%nat →
  take n (drop o (splice off bs a)) = take n (drop o a).
Proof.
  intros Hd. apply list_eq. intros i. rewrite !lookup_slice. case_decide; [|done].
  destruct (decide (o + i < length a)%nat); [by rewrite lookup_splice, decide_False by lia|].
  rewrite !lookup_ge_None_2; [done|lia|rewrite length_splice; lia].
Qed.

Lemma get_set_same f v a :
  field_ok f → attr_ok a → get_field f (set_field f v a) = v mod 256 ^ Z.of_nat (f_width f).
Proof.
  intros Hf Ha. unfold get_field, set_field. pose proof (slice_splice_same (f_off f) (le_bytes (f_width f) v) a) as Hs.
  rewrite length_le_bytes in Hs. rewrite Hs by (unfold field_ok, attr_ok in *; lia). apply le_value_bytes.
Qed.

(** Two members that share no byte. *)
Definition apart (f g : field) : bool :=
  ((f_off f + f_width f <=? f_off g) || (f_off g + f_width g <=? f_off f))%nat.

Lemma get_set_other f g v a : apart f g = true → get_field f (set_field g v a) = get_field f a.
Proof.
  intros Hap. unfold get_field, set_field. rewrite slice_splice_other; [done|]. rewrite length_le_bytes.
  apply orb_true_iff in Hap as [?%Nat.leb_le|?%Nat.leb_le]; lia.
Qed.

(** ** Names *)

(** What the kernel reads in a [char] array. *)
Definition get_name (off : nat) (a : buffer) : list Z := c_bytes (take (Z.to_nat BPF_OBJ_NAME_LEN) (drop off a)).

(** A name cut to what fits in front of the zero. *)
Definition short_name (name : option string) : list Z :=
  match name with None => [] | Some s => take 15 (char_bytes s) end.

Lemma length_short name : (length (short_name name) ≤ 15)%nat.
Proof. destruct name; cbn [short_name length]; [rewrite length_take|]; lia. Qed.

Lemma set_name_short off name a : set_name off name a = splice off (short_name name) a ∨ name = None ∧ set_name off name a = a.
Proof. destruct name as [s|]; [by left|by right]. Qed.

Lemma attr_ok_name off name a : attr_ok (set_name off name a) ↔ attr_ok a.
Proof.
  unfold attr_ok. destruct (set_name_short off name a) as [->|[_ ->]]; [|done]. by rewrite length_splice.
Qed.

Lemma get_set_name_other f off name a :
  (f_off f + f_width f ≤ off ∨ off + 16 ≤ f_off f)%nat → get_field f (set_name off name a) = get_field f a.
Proof.
  intros Hd. pose proof (length_short name) as Hn. destruct (set_name_short off name a) as [->|[_ ->]]; [|done].
  unfold get_field. rewrite slice_splice_other; [done|lia].
Qed.

Definition blank_at (off n : nat) (a : buffer) : Prop := take n (drop off a) = replicate n 0.

Lemma c_bytes_zeros l n : Forall (λ b, b ≠ 0) l → c_bytes (l ++ replicate n 0) = l.
Proof.
  induction 1 as [|b l Hb _ IH]; [by destruct n|]. cbn. destruct (Z.eqb_spec b 0); [done|]. by rewrite IH.
Qed.

(** The name of an attribute that was blank before. *)
Lemma get_set_name off name a :
  (off + 16 ≤ 112)%nat → attr_ok a → blank_at off 16 a → (∀ s, name = Some s → c_str s = true) →
  get_name off (set_name off name a) = short_name name.
Proof.
  intros Ho Ha Hb Hs. unfold get_name. change (Z.to_nat BPF_OBJ_NAME_LEN) with 16%nat.
  destruct name as [s|]; [|cbn [set_name]; rewrite Hb; exact (c_bytes_zeros [] 16 (List.Forall_nil _))].
  change (set_name off (Some s) a) with (splice off (short_name (Some s)) a).
  pose proof (length_short (Some s)) as Hn. set (nm := short_name (Some s)) in *. unfold attr_ok in Ha.
  assert (take 16 (drop off (splice off nm a)) = nm ++ replicate (16 - length nm) 0) as ->.
  { apply list_eq. intros i. rewrite lookup_slice. case_decide.
    - rewrite lookup_splice by lia. case_decide; [rewrite lookup_app_l by lia; f_equal; lia|].
      rewrite lookup_app_r, lookup_replicate_2 by lia.
      assert (take 16 (drop off a) !! i = replicate 16 0 !! i) as Hi by (by rewrite Hb).
      by rewrite lookup_slice, decide_True, lookup_replicate_2 in Hi by lia.
    - symmetry. apply lookup_ge_None. rewrite length_app, length_replicate. lia. }
  apply c_bytes_zeros. unfold nm. cbn. apply Forall_take, char_nonzero. by apply Hs.
Qed.

(** ** The attributes of maps and programs *)

Lemma zero_attr_ok : attr_ok zero_attr.
Proof. done. Qed.

(** Arithmetic on the places of members, and the length of an attribute. *)
Ltac place := unfold field_ok, MapCreate.map_name, ProgLoad.prog_name; cbn; lia.
Ltac solve_attr_ok :=
  repeat first [apply attr_ok_set | apply attr_ok_name]; first [exact zero_attr_ok | assumption].

(** Reading a member through the stores, the last first. *)
Ltac read_field :=
  repeat lazymatch goal with
  | |- context [get_field ?f (set_field ?f ?v ?a)] => rewrite (get_set_same f v a); [|place|solve_attr_ok]
  | |- context [get_field ?f (set_field ?g ?v ?a)] => rewrite (get_set_other f g v a); [|reflexivity]
  | |- context [get_field ?f (set_name ?o ?n ?a)] => rewrite (get_set_name_other f o n a); [|place]
  end.

(** The same for one member. *)
Ltac read_one :=
  repeat lazymatch goal with
  | |- get_field ?f (set_field ?f _ _) = _ => etransitivity; [apply get_set_same; [place|solve_attr_ok]|]
  | |- get_field ?f (set_field ?g _ _) = _ => etransitivity; [apply get_set_other; reflexivity|]
  | |- get_field ?f (set_name _ _ _) = _ => etransitivity; [apply get_set_name_other; place|]
  end; try reflexivity.

Definition read_map_create (a : buffer) : list Z * list Z :=
  (get_name MapCreate.map_name a,
   (λ f, get_field f a) <$> [MapCreate.map_type; MapCreate.key_size; MapCreate.value_size; MapCreate.max_entries;
     MapCreate.map_flags; MapCreate.inner_map_fd; MapCreate.numa_node; MapCreate.map_ifindex; MapCreate.btf_fd;
     MapCreate.btf_key_type_id; MapCreate.btf_value_type_id]).

Lemma blank_set_field off n f v a :
  (f_off f + f_width f ≤ off ∨ off + n ≤ f_off f)%nat → blank_at off n a → blank_at off n (set_field f v a).
Proof.
  intros Hd Hb. unfold blank_at, set_field in *. rewrite slice_splice_other; rewrite ?length_le_bytes; [done|lia].
Qed.

Lemma get_name_other off f v a :
  (f_off f + f_width f ≤ off ∨ off + 16 ≤ f_off f)%nat → get_name off (set_field f v a) = get_name off a.
Proof.
  intros Hd. unfold get_name, set_field. change (Z.to_nat BPF_OBJ_NAME_LEN) with 16%nat.
  rewrite slice_splice_other; rewrite ?length_le_bytes; [done|lia].
Qed.

Ltac read_name :=
  repeat (rewrite get_name_other; [|place]);
  apply get_set_name; [place|solve_attr_ok| |assumption];
  repeat (apply blank_set_field; [place|]); reflexivity.

Lemma read_create_map c :
  (∀ s, cm_name c = Some s → c_str s = true) →
  read_map_create (create_map_attr c) =
    (short_name (cm_name c),
     u32 <$> [cm_map_type c; cm_key_size c; cm_value_size c; cm_max_entries c; cm_map_flags c; cm_inner_map_fd c;
       cm_numa_node c; cm_map_ifindex c; cm_btf_fd c; cm_btf_key_type_id c; cm_btf_value_type_id c]).
Proof.
  intros Hs. unfold read_map_create, create_map_attr. f_equal; [read_name|].
  cbn [fmap list_fmap]. repeat (apply (f_equal2 cons); [read_one|]). reflexivity.
Qed.
