(* ===== verification/BpfLoadProps.v ===== *)
(** * The kernel is shown the program it was given

    [bpf_load_program_xattr] may try five times: with the records of functions and
    lines as they are, with those the kernel is too old for cut and filled with
    zeros, and with a log.  [BpfSysLaws] is what this relies on. *)

From S2P Require Import Prelude Io Config Packet Loader Netlink Bytes XskLib BpfSys BpfSysProps.

(** ** Memory *)

Fixpoint read_mem (m : gmap Z Z) (p : Z) (n : nat) : option (list Z) :=
  match n with
  | O => Some []
  | S n => b ← m !! p; l ← read_mem m (p + 1) n; Some (b :: l)
  end.
Definition write_mem (p : Z) (bs : list Z) (m : gmap Z Z) : gmap Z Z := map_seqZ p bs ∪ m.

Lemma read_mem_length m p n l : read_mem m p n = Some l → length l = n.
Proof.
  revert p l. induction n as [|n IH]; intros p l; cbn; [by intros [= <-]|].
  destruct (m !! p); [|done]. cbn. destruct (read_mem m (p + 1) n) eqn:E; [|done]. cbn.
  intros [= <-]. cbn. by rewrite (IH _ _ E).
Qed.

Lemma read_mem_ext m m' p n :
  (∀ q, p ≤ q < p + Z.of_nat n → m !! q = m' !! q) → read_mem m p n = read_mem m' p n.
Proof.
  revert p. induction n as [|n IH]; intros p Hm; [done|]. cbn. rewrite (Hm p) by lia.
  rewrite (IH (p + 1)); [done|]. intros q Hq. apply Hm. lia.
Qed.

Lemma read_mem_app m p n1 n2 :
  read_mem m p (n1 + n2) = l1 ← read_mem m p n1; l2 ← read_mem m (p + Z.of_nat n1) n2; Some (l1 ++ l2).
Proof.
  revert p. induction n1 as [|n1 IH]; intros p; cbn [Nat.add read_mem].
  - cbn. rewrite Z.add_0_r. by destruct (read_mem m p n2).
  - destruct (m !! p); [|done]. cbn [mbind option_bind]. rewrite IH.
    replace (p + 1 + Z.of_nat n1) with (p + Z.of_nat (S n1)) by lia.
    destruct (read_mem m (p + 1) n1); [|done]. cbn. by destruct (read_mem m (p + Z.of_nat (S n1)) n2).
Qed.

Lemma lookup_write p bs m q :
  write_mem p bs m !! q = if decide (p ≤ q < p + Z.of_nat (length bs)) then bs !! Z.to_nat (q - p) else m !! q.
Proof.
  unfold write_mem. case_decide as Hq.
  - destruct (lookup_lt_is_Some_2 bs (Z.to_nat (q - p))) as [b Hb]; [lia|]. rewrite Hb.
    apply lookup_union_Some_l, lookup_map_seqZ_Some. split; [lia|done].
  - apply lookup_union_r. apply lookup_map_seqZ_None. lia.
Qed.

Lemma read_write_same p bs m : read_mem (write_mem p bs m) p (length bs) = Some bs.
Proof.
  assert (∀ l q, (∀ i b, l !! i = Some b → write_mem p bs m !! (q + Z.of_nat i) = Some b) →
    read_mem (write_mem p bs m) q (length l) = Some l) as Hr.
  { induction l as [|b l IH]; intros q Hl; [done|]. cbn [length read_mem].
    pose proof (Hl O b eq_refl) as H0. rewrite Z.add_0_r in H0. rewrite H0. cbn [mbind option_bind].
    rewrite IH; [done|]. intros i b' Hi. rewrite <-(Hl (S i) b' Hi). f_equal. lia. }
  apply Hr. intros i b Hi. rewrite lookup_write. pose proof (lookup_lt_Some _ _ _ Hi).
  rewrite decide_True by lia. rewrite <-Hi. f_equal. lia.
Qed.

(** Two ranges of addresses without a common one. *)
Definition disj (p n q m : Z) : Prop := n ≤ 0 ∨ m ≤ 0 ∨ p + n ≤ q ∨ q + m ≤ p.

Lemma read_write_other p bs m q n :
  disj p (Z.of_nat (length bs)) q (Z.of_nat n) → read_mem (write_mem p bs m) q n = read_mem m q n.
Proof.
  intros Hd. apply read_mem_ext. intros x Hx. rewrite lookup_write. unfold disj in Hd. by rewrite decide_False by lia.
Qed.

(** ** The laws *)

Class BpfSysLaws (K : Type) `{BpfSys K} := {
  bs_mem : K → gmap Z Z;
  bs_owned : K → gset Z;
  (** the programs the kernel was shown, with the memory then and its answer *)
  bs_shown : K → list (buffer * gmap Z Z * Z);
  (** how often the kernel will still ask for another try *)
  bs_again : K → nat;
  read_law p n k : bs_read p n k = or_fault (read_mem (bs_mem k) p (Z.to_nat n)) OutOfBounds;
  store_law p bs k : is_Some (read_mem (bs_mem k) p (length bs)) →
    let k' := bs_store p bs k in
    bs_mem k' = write_mem p bs (bs_mem k) ∧ bs_owned k' = bs_owned k ∧ bs_shown k' = bs_shown k ∧ bs_again k' = bs_again k;
  malloc_law n k : let '(r, k') := bs_malloc n k in
    bs_shown k' = bs_shown k ∧ bs_again k' = bs_again k ∧
    match r with
    | None => bs_mem k' = bs_mem k ∧ bs_owned k' = bs_owned k
    | Some p => 0 < p < 2 ^ 64 ∧ p ∉ bs_owned k ∧ bs_owned k' = {[p]} ∪ bs_owned k ∧
        (∀ q, p ≤ q < p + n → bs_mem k !! q = None) ∧
        ∃ junk, length junk = Z.to_nat n ∧ bs_mem k' = write_mem p junk (bs_mem k)
    end;
  free_law p k : bs_shown (bs_free p k) = bs_shown k ∧
    bs_owned (bs_free p k) = match p with Some p => bs_owned k ∖ {[p]} | None => bs_owned k end;
  (** the kernel may correct the sizes of records, and write into the log *)
  load_law a n k : let '(fd, a', k') := sys_bpf BPF_PROG_LOAD a n k in
    bs_shown k' = bs_shown k ++ [(a, bs_mem k, fd)] ∧ bs_owned k' = bs_owned k ∧
    (∃ s1 s2, a' = set_field ProgLoad.func_info_rec_size s1 (set_field ProgLoad.line_info_rec_size s2 a)) ∧
    (∃ log, Z.of_nat (length log) ≤ (if get_field ProgLoad.log_level a =? 0 then 0 else Z.max 0 (get_field ProgLoad.log_size a)) ∧
       bs_mem k' = write_mem (get_field ProgLoad.log_buf a) log (bs_mem k)) ∧
    (bs_again k' ≤ bs_again k)%nat ∧ (fd < 0 → bs_errno k' = EAGAIN → (bs_again k' < bs_again k)%nat)
}.

(** ** Cutting records *)

(** The first [s] of every [rec] bytes, then zeros. *)
Fixpoint cut_records (cnt rec s : nat) (l : list Z) : list Z :=
  match cnt with
  | O => []
  | S cnt => take s l ++ replicate (rec - s) 0 ++ cut_records cnt rec s (drop rec l)
  end.

Section load.
Context {K : Type} {BS : BpfSys K} {BL : BpfSysLaws K}.

(** What no store changes. *)
Definition kept (k k' : K) : Prop :=
  bs_owned k' = bs_owned k ∧ bs_shown k' = bs_shown k ∧ bs_again k' = bs_again k.

Lemma wp_store {B} p bs (f : unit → io K B) Q k :
  is_Some (read_mem (bs_mem k) p (length bs)) →
  (∀ k', bs_mem k' = write_mem p bs (bs_mem k) → kept k k' → wp (f tt) Q k') →
  wp (run (bs_store p bs) ≫= f) Q k.
Proof.
  intros Hr Hf. apply wp_bind, wp_run. destruct (store_law p bs k Hr) as (Hm & Ho & Hs & Ha). by apply Hf.
Qed.

Lemma read_mem_writable p bs m q n : is_Some (read_mem m q n) → is_Some (read_mem (write_mem p bs m) q n).
Proof.
  revert q. induction n as [|n IH]; intros q; [done|]. cbn.
  destruct (m !! q) as [b|] eqn:Eb; [|by intros [? [=]]]. cbn.
  destruct (read_mem m (q + 1) n) as [l|] eqn:El; [|by intros [? [=]]]. intros _.
  destruct (IH (q + 1)) as [l' Hl']; [by rewrite El|].
  rewrite lookup_write. case_decide.
  - destruct (lookup_lt_is_Some_2 bs (Z.to_nat (q - p))) as [b' ->]; [lia|]. cbn. rewrite Hl'. by eexists.
  - rewrite Eb. cbn. rewrite Hl'. by eexists.
Qed.

Lemma read_mem_sub m p n q n' l :
  read_mem m p n = Some l → p ≤ q → q + Z.of_nat n' ≤ p + Z.of_nat n →
  read_mem m q n' = Some (take n' (drop (Z.to_nat (q - p)) l)).
Proof.
  intros Hr H1 H2. pose proof (read_mem_length _ _ _ _ Hr) as Hlen.
  replace n with (Z.to_nat (q - p) + (n' + (n - n' - Z.to_nat (q - p))))%nat in Hr by lia.
  rewrite !read_mem_app in Hr. replace (p + Z.of_nat (Z.to_nat (q - p))) with q in Hr by lia.
  destruct (read_mem m p (Z.to_nat (q - p))) as [l1|] eqn:E1; [|done]. cbn [mbind option_bind] in Hr.
  destruct (read_mem m q n') as [l2|] eqn:E2; [|done]. cbn [mbind option_bind] in Hr.
  destruct (read_mem m (q + Z.of_nat n') _) as [l3|]; [|done]. cbn in Hr. injection Hr as <-.
  apply read_mem_length in E1, E2. subst n'. rewrite <-E1. by rewrite drop_app_length, take_app_length.
Qed.

Lemma zero_tails_spec cnt rec s o p l k :
  (s ≤ rec)%nat → read_mem (bs_mem k) o (cnt * rec) = Some l → is_Some (read_mem (bs_mem k) p (cnt * rec)) →
  disj o (Z.of_nat (cnt * rec)) p (Z.of_nat (cnt * rec)) →
  wp (zero_tails cnt o p (Z.of_nat rec) (Z.of_nat s)) (λ r k', r = Ok tt ∧ kept k k' ∧
    read_mem (bs_mem k') p (cnt * rec) = Some (cut_records cnt rec s l) ∧
    ∀ q n, disj p (Z.of_nat (cnt * rec)) q (Z.of_nat n) → read_mem (bs_mem k') q n = read_mem (bs_mem k) q n) k.
Proof.
  intros Hs. revert o p l k. induction cnt as [|cnt IH]; intros o p l k Hl Hp Hd; cbn [zero_tails].
  { apply wp_ret. cbn in Hl. done. }
  cbn [Nat.mul] in *. pose proof (read_mem_length _ _ _ _ Hl) as Hlen.
  apply wp_bind. eapply wp_eq.
  { rewrite read_law, Nat2Z.id. rewrite (read_mem_sub _ _ _ o s _ Hl) by lia.
    rewrite Z.sub_diag, drop_0. reflexivity. }
  cbn beta iota. assert (length (take s l) = s) as Hts by (rewrite length_take; lia).
  destruct Hp as [w Hw]. unfold disj in *.
  apply wp_store; [rewrite Hts, (read_mem_sub _ _ _ p s _ Hw) by lia; by eexists|]. intros k1 Hm1 Hk1.
  rewrite <-Nat2Z.inj_sub, Nat2Z.id by done.
  apply wp_store.
  { rewrite Hm1. apply read_mem_writable. rewrite length_replicate.
    rewrite (read_mem_sub _ _ _ _ (rec - s) _ Hw) by lia. by eexists. }
  intros k2 Hm2 Hk2. set (rec1 := take s l ++ replicate (rec - s) 0).
  assert (length rec1 = rec) as Hr1 by (unfold rec1; rewrite length_app, length_replicate; lia).
  assert (∀ q n, disj p (Z.of_nat rec) q (Z.of_nat n) → read_mem (bs_mem k2) q n = read_mem (bs_mem k) q n) as Hother.
  { intros q n Hq. unfold disj in Hq. rewrite Hm2, read_write_other, Hm1, read_write_other; [done|..];
      unfold disj; rewrite ?Hts, ?length_replicate; lia. }
  assert (read_mem (bs_mem k2) p rec = Some rec1) as Hfirst.
  { replace rec with (s + (rec - s))%nat by lia. rewrite read_mem_app, Hm2.
    rewrite (read_write_other _ _ _ p s) by (unfold disj; rewrite length_replicate; lia).
    pose proof (read_write_same p (take s l) (bs_mem k)) as H1. rewrite Hts in H1.
    pose proof (read_write_same (p + Z.of_nat s) (replicate (rec - s) 0) (bs_mem k1)) as H2. rewrite length_replicate in H2.
    rewrite Hm1 in *. rewrite H1. cbn [mbind option_bind]. by rewrite H2. }
  eapply wp_mono; [apply (IH (o + Z.of_nat rec) (p + Z.of_nat rec) (drop rec l) k2)|].
  - rewrite Hother by (unfold disj; lia). rewrite (read_mem_sub _ _ _ _ (cnt * rec) _ Hl) by lia.
    f_equal. rewrite firstn_all2; [f_equal; lia|]. rewrite length_drop. lia.
  - rewrite Hother by (unfold disj; lia). rewrite (read_mem_sub _ _ _ _ (cnt * rec) _ Hw) by lia. by eexists.
  - unfold disj. lia.
  - intros r k' (-> & Hk' & Hread & Hrest). split; [done|]. split.
    { destruct Hk1 as (?&?&?), Hk2 as (?&?&?), Hk' as (?&?&?). repeat split; congruence. }
    split.
    + rewrite read_mem_app, (Hrest p rec), Hfirst by (unfold disj; lia). cbn [mbind option_bind]. rewrite Hread. cbn [mbind option_bind].
      unfold rec1. by rewrite <-app_assoc.
    + intros q n Hq. unfold disj in Hq. rewrite Hrest by (unfold disj; lia). apply Hother. unfold disj. lia.
Qed.

(** ** What the kernel is shown *)

(** The members that no retry changes. *)
Definition program_fields : list field := [ProgLoad.prog_type; ProgLoad.insn_cnt; ProgLoad.insns; ProgLoad.license;
  ProgLoad.kern_version; ProgLoad.prog_flags; ProgLoad.prog_ifindex; ProgLoad.expected_attach_type; ProgLoad.prog_btf_fd;
  ProgLoad.func_info_cnt; ProgLoad.line_info_cnt; ProgLoad.attach_btf_id].
Definition program_of (a : buffer) : list Z * list Z :=
  (get_name ProgLoad.prog_name a, (λ f, get_field f a) <$> program_fields).

(** Stores into other members. *)
Definition outside (f : field) : bool :=
  forallb (apart f) program_fields && (f_off f + f_width f <=? 48)%nat || forallb (apart f) program_fields && (64 <=? f_off f)%nat.

Lemma apart_comm f g : apart f g = apart g f.
Proof. unfold apart. apply orb_comm. Qed.

Lemma program_set_field f v a :
  outside f = true → program_of (set_field f v a) = program_of a.
Proof.
  intros Ho. unfold program_of. assert (forallb (apart f) program_fields = true ∧ (f_off f + f_width f ≤ 48 ∨ 64 ≤ f_off f)%nat) as [Hap Hd].
  { unfold outside in Ho. apply orb_true_iff in Ho as [Ho|Ho]; apply andb_true_iff in Ho as [H1 H2]; apply Nat.leb_le in H2; auto. }
  f_equal; [apply get_name_other; unfold ProgLoad.prog_name; lia|].
  apply list_fmap_ext. intros i g Hg. apply get_set_other.
  rewrite forallb_forall in Hap. rewrite apart_comm. apply Hap. apply list_elem_of_In. by eapply list_elem_of_lookup_2.
Qed.
(** Arrays of records, and the log. *)
Record records := Records { r_ptr : Z; r_cnt : nat; r_size : nat; r_bytes : list Z }.
Definition r_len (r : records) : nat := (r_cnt r * r_size r)%nat.

(** The member for [r] points to the records, or to a block [p] with cut ones. *)
Definition shows (r : records) (m : gmap Z Z) (ptr : Z) (p : option Z) : Prop :=
  match p with
  | None => ptr = r_ptr r ∧ read_mem m (r_ptr r) (r_len r) = Some (r_bytes r)
  | Some p => ptr = p ∧ ∃ s, (s ≤ r_size r)%nat ∧ read_mem m p (r_len r) = Some (cut_records (r_cnt r) (r_size r) s (r_bytes r))
  end.

Definition shown_ok (prog : list Z * list Z) (fr lr : records) (x : buffer * gmap Z Z * Z) : Prop :=
  program_of x.1.1 = prog ∧ (∃ p, shows fr x.1.2 (get_field ProgLoad.func_info x.1.1) p) ∧
  ∃ p, shows lr x.1.2 (get_field ProgLoad.line_info x.1.1) p.

(** The last answer. *)
Definition answered (h : list (buffer * gmap Z Z * Z)) (fd : Z) : Prop := snd <$> last h = Some fd.

Definition opt_set (p : option Z) : gset Z := match p with Some p => {[p]} | None => ∅ end.

(** The log cannot touch a range. *)
Definition off_log (b n : Z) (p : Z) (len : nat) : Prop := disj b n p (Z.of_nat len).

Lemma off_log_read b n p len log m :
  off_log b n p len → Z.of_nat (length log) ≤ n → read_mem (write_mem b log m) p len = read_mem m p len.
Proof.
  unfold off_log. intros Hd Hl. apply read_write_other. unfold disj in *. lia.
Qed.

Lemma read_mem_lookup m q n x : is_Some (read_mem m q n) → q ≤ x < q + Z.of_nat n → is_Some (m !! x).
Proof.
  revert q. induction n as [|n IH]; intros q Hr Hx; [lia|]. cbn in Hr.
  destruct (m !! q) as [b|] eqn:Eb; [|by destruct Hr]. cbn in Hr.
  destruct (decide (x = q)) as [->|]; [by rewrite Eb|]. apply (IH (q + 1)); [|lia].
  destruct (read_mem m (q + 1) n); [by eexists|by destruct Hr].
Qed.

Lemma fresh_disj m p len q n :
  is_Some (read_mem m q n) → (∀ x, p ≤ x < p + len → m !! x = None) → disj p len q (Z.of_nat n).
Proof.
  intros Hr Hf. unfold disj.
  destruct (decide (len ≤ 0 ∨ Z.of_nat n ≤ 0 ∨ p + len ≤ q ∨ q + Z.of_nat n ≤ p)) as [|Hn]; [done|]. exfalso.
  destruct (read_mem_lookup m q n (Z.max p q) Hr) as [b Hb]; [lia|]. rewrite Hf in Hb; [done|lia].
Qed.

(** What [alloc_zero_tailing_info] gives for readable records. *)
Lemma alloc_zero_tailing_info_spec r s b n k :
  read_mem (bs_mem k) (r_ptr r) (r_len r) = Some (r_bytes r) → 0 ≤ s ≤ Z.of_nat (r_size r) →
  Z.of_nat (r_cnt r) < 2 ^ 32 → Z.of_nat (r_size r) < 2 ^ 32 → 0 ≤ n → is_Some (read_mem (bs_mem k) b (Z.to_nat n)) →
  wp (alloc_zero_tailing_info (r_ptr r) (Z.of_nat (r_cnt r)) (Z.of_nat (r_size r)) s) (λ res k',
    bs_shown k' = bs_shown k ∧ bs_again k' = bs_again k ∧
    (∀ q m, is_Some (read_mem (bs_mem k) q m) → read_mem (bs_mem k') q m = read_mem (bs_mem k) q m) ∧
    match res with
    | Ok None => bs_owned k' = bs_owned k
    | Ok (Some p) => 0 < p < 2 ^ 64 ∧ p ∉ bs_owned k ∧ bs_owned k' = {[p]} ∪ bs_owned k ∧
        shows r (bs_mem k') p (Some p) ∧ off_log b n p (r_len r)
    | Err _ => False
    end) k.
Proof.
  intros Hr Hs Hc Hz Hn Hlog. unfold alloc_zero_tailing_info.
  replace (u64 (Z.of_nat (r_size r) * Z.of_nat (r_cnt r))) with (Z.of_nat (r_len r))
    by (rewrite u64_small by nia; unfold r_len; lia).
  apply wp_bind, wp_call. intros res k1 E. pose proof (malloc_law (Z.of_nat (r_len r)) k) as Hm. rewrite E in Hm.
  destruct Hm as (Hsh & Hag & Hm). destruct res as [p|]; [|apply wp_ret; destruct Hm as [-> ->]; done].
  destruct Hm as (Hp & Hno & Hown & Hfresh & junk & Hj & Hm). rewrite Nat2Z.id in Hj.
  assert (∀ q m, is_Some (read_mem (bs_mem k) q m) → disj p (Z.of_nat (r_len r)) q (Z.of_nat m)) as Hdisj.
  { intros q m Hq. by apply (fresh_disj (bs_mem k)). }
  assert (∀ q m, is_Some (read_mem (bs_mem k) q m) → read_mem (bs_mem k1) q m = read_mem (bs_mem k) q m) as Hsame.
  { intros q m Hq. rewrite Hm. apply read_write_other. rewrite Hj. by apply Hdisj. }
  apply wp_bind. rewrite Nat2Z.id. replace s with (Z.of_nat (Z.to_nat s)) by lia.
  eapply wp_mono; [apply (zero_tails_spec (r_cnt r) (r_size r) (Z.to_nat s) (r_ptr r) p (r_bytes r))|].
  - lia.
  - change (r_cnt r * r_size r)%nat with (r_len r). rewrite Hsame; [done|by rewrite Hr].
  - rewrite Hm. change (r_cnt r * r_size r)%nat with (r_len r). rewrite <-Hj, read_write_same. by eexists.
  - change (r_cnt r * r_size r)%nat with (r_len r).
    specialize (Hdisj (r_ptr r) (r_len r) ltac:(by rewrite Hr)). unfold disj in *. lia.
  - intros res k2 (-> & (Ho2 & Hs2 & Ha2) & Hread & Hrest). apply wp_ret.
    split; [congruence|]. split; [congruence|]. split.
    { intros q m Hq. rewrite Hrest; [by apply Hsame|by apply Hdisj]. }
    split; [done|]. split; [done|]. split; [congruence|]. split.
    + split; [done|]. exists (Z.to_nat s). split; [lia|done].
    + specialize (Hdisj b (Z.to_nat n) Hlog). unfold off_log, disj in *. lia.
Qed.

Section tries.
Variables (l : bpf_load_program_attr) (fr lr : records) (log_buf : option Z) (log_sz : Z) (k0 : K).
Let logp := default 0 log_buf.
Hypothesis log_range : 0 ≤ log_sz < 2 ^ 32 ∧ 0 ≤ logp < 2 ^ 64.
Hypothesis func_records : lp_func_info l = r_ptr fr ∧ lp_func_info_cnt l = Z.of_nat (r_cnt fr) ∧
  lp_func_info_rec_size l = Z.of_nat (r_size fr).
Hypothesis line_records : lp_line_info l = r_ptr lr ∧ lp_line_info_cnt l = Z.of_nat (r_cnt lr) ∧
  lp_line_info_rec_size l = Z.of_nat (r_size lr).
Hypothesis small : ∀ r, r = fr ∨ r = lr → 0 ≤ r_ptr r < 2 ^ 64 ∧ Z.of_nat (r_cnt r) < 2 ^ 32 ∧ Z.of_nat (r_size r) < 2 ^ 32 ∧
  off_log logp log_sz (r_ptr r) (r_len r).
Variable prog : list Z * list Z.

(** The state between two tries, with the blocks [fi] and [li]. *)
Record trying (a : buffer) (fi li : option Z) (k : K) : Prop := {
  y_attr : attr_ok a;
  y_prog : program_of a = prog;
  y_log : get_field ProgLoad.log_level a = 0 ∨
    (get_field ProgLoad.log_buf a = logp ∧ get_field ProgLoad.log_size a = log_sz);
  y_func : shows fr (bs_mem k) (get_field ProgLoad.func_info a) fi;
  y_line : shows lr (bs_mem k) (get_field ProgLoad.line_info a) li;
  y_off : (∀ p, fi = Some p → off_log logp log_sz p (r_len fr)) ∧ (∀ p, li = Some p → off_log logp log_sz p (r_len lr));
  y_owned : bs_owned k = opt_set fi ∪ opt_set li ∪ bs_owned k0 ∧ opt_set fi ## opt_set li ∪ bs_owned k0 ∧ opt_set li ## bs_owned k0;
  y_shown : ∃ h, bs_shown k = bs_shown k0 ++ h ∧ Forall (shown_ok prog fr lr) h;
  y_again : (bs_again k ≤ bs_again k0)%nat;
  y_mapped : is_Some (read_mem (bs_mem k) logp (Z.to_nat log_sz));
  y_sizes : 0 ≤ get_field ProgLoad.func_info_rec_size a ∧ 0 ≤ get_field ProgLoad.line_info_rec_size a
}.

Lemma shows_log r p b log m ptr :
  (r = fr ∨ r = lr) → (∀ q, p = Some q → off_log logp log_sz q (r_len r)) → shows r m ptr p →
  (Z.of_nat (length log) ≤ 0 ∨ b = logp ∧ Z.of_nat (length log) ≤ log_sz) → shows r (write_mem b log m) ptr p.
Proof.
  intros Hr Hp Hs Hlog. destruct (small r Hr) as (_ & _ & _ & Hoff).
  assert (∀ q n, off_log logp log_sz q n → read_mem (write_mem b log m) q n = read_mem m q n) as Hread.
  { intros q n Hq. destruct Hlog as [Hz|[-> Hl]]; [|by eapply off_log_read].
    apply read_write_other. unfold disj. lia. }
  destruct p as [q|]; cbn [shows] in *.
  - destruct Hs as (-> & s & Hs & Hm). split; [done|]. exists s. split; [done|]. rewrite Hread; auto.
  - destruct Hs as [-> Hm]. split; [done|]. rewrite Hread; auto.
Qed.

Lemma load_step a fi li k fd a' k' n :
  trying a fi li k → sys_bpf BPF_PROG_LOAD a n k = (fd, a', k') →
  trying a' fi li k' ∧ answered (bs_shown k') fd ∧ (bs_again k' ≤ bs_again k)%nat ∧ (fd < 0 → bs_errno k' = EAGAIN → (bs_again k' < bs_again k)%nat).
Proof.
  intros [Ha Hp Hl Hf Hli [Hof Hol] Ho (h & Hh & Hall) Hag Hmap Hsizes] E. pose proof (load_law a n k) as Hlaw. rewrite E in Hlaw.
  destruct Hlaw as (Hs & Hown & (s1 & s2 & Ha') & (log & Hlen & Hm) & Hag1 & Hag2). split; [|split; [unfold answered; by rewrite Hs, last_snoc|done]].
  assert (Z.of_nat (length log) ≤ 0 ∨ get_field ProgLoad.log_buf a = logp ∧ Z.of_nat (length log) ≤ log_sz) as Hlog.
  { destruct Hl as [Hl|[Hb Hsz]]; [left; by rewrite Hl in Hlen|].
    destruct (get_field ProgLoad.log_level a =? 0); [by left|right; rewrite Hsz in Hlen; split; [done|lia]]. }
  subst a'. split.
  - solve_attr_ok.
  - rewrite !program_set_field by reflexivity. done.
  - read_field. done.
  - read_field. rewrite Hm. apply shows_log; auto.
  - read_field. rewrite Hm. apply shows_log; auto.
  - done.
  - by rewrite Hown.
  - exists (h ++ [(a, bs_mem k, fd)]). rewrite Hs, Hh, app_assoc. split; [done|]. apply Forall_app. split; [done|].
    apply Forall_singleton. split; [done|]. split; by eexists.
  - lia.
  - rewrite Hm. by apply read_mem_writable.
  - read_field. split; by apply Z.mod_pos_bound.
Qed.

Lemma prog_load_spec fuel a fi li k :
  trying a fi li k → (bs_again k ≤ fuel)%nat →
  wp (sys_bpf_prog_load fuel a) (λ r k', ∃ fd a', r = Ok (fd, a') ∧ trying a' fi li k' ∧ answered (bs_shown k') fd) k.
Proof.
  revert a k. induction fuel as [|fuel IH]; intros a k Ht Hfuel; cbn [sys_bpf_prog_load];
    apply wp_bind, wp_call; intros [fd a'] k' E; destruct (load_step _ _ _ _ _ _ _ _ Ht E) as (Ht' & Han & Hle & Hlt);
    apply wp_bind, wp_ask; destruct (Z.ltb_spec fd 0), (Z.eqb_spec (bs_errno k') EAGAIN); cbn [andb];
    try (apply wp_ret; eauto 6).
  - specialize (Hlt ltac:(lia) ltac:(done)). lia.
  - apply IH; [done|]. specialize (Hlt ltac:(lia) ltac:(done)). lia.
Qed.

Lemma try_load_spec fuel t k :
  trying (t_attr t) (t_finfo t) (t_linfo t) k → (bs_again k0 ≤ fuel)%nat →
  wp (try_load fuel t) (λ r k', ∃ t', r = Ok t' ∧ t_finfo t' = t_finfo t ∧ t_linfo t' = t_linfo t ∧
    trying (t_attr t') (t_finfo t') (t_linfo t') k' ∧ answered (bs_shown k') (t_fd t')) k.
Proof.
  intros Ht Hfuel. unfold try_load. apply wp_bind. eapply wp_mono; [apply prog_load_spec; [done|]|].
  { pose proof (y_again _ _ _ _ Ht). lia. }
  intros r k' (fd & a' & -> & Ht' & Han). apply wp_ret. by exists (Tries fd a' (t_finfo t) (t_linfo t)).
Qed.
(** The corrections. *)
Abbreviation trying_t := (λ t k, trying (t_attr t) (t_finfo t) (t_linfo t) k).

Lemma shows_read r p m m' ptr :
  (∀ q n, is_Some (read_mem m q n) → read_mem m' q n = read_mem m q n) → shows r m ptr p → shows r m' ptr p.
Proof.
  intros Hsame. destruct p as [q|]; cbn [shows]; [|by intros [-> Hr]; rewrite Hsame, Hr].
  intros (-> & s & Hs & Hr). split; [done|]. exists s. split; [done|]. by rewrite Hsame, Hr.
Qed.

Lemma trying_same a fi li k k' :
  bs_shown k' = bs_shown k → bs_again k' = bs_again k → bs_owned k' = bs_owned k →
  (∀ q n, is_Some (read_mem (bs_mem k) q n) → read_mem (bs_mem k') q n = read_mem (bs_mem k) q n) →
  trying a fi li k → trying a fi li k'.
Proof.
  intros Hsh Hag' Hres Hsame [Ha Hp Hl Hf Hli Hoff Ho (h & Hh & Hall) Hag Hmap Hs]. split; try done.
  - by eapply shows_read.
  - by eapply shows_read.
  - by rewrite Hres.
  - exists h. by rewrite Hsh.
  - lia.
  - by rewrite Hsame.
Qed.

Lemma correct_func_spec t k :
  trying_t t k → wants_func_info l t = true →
  wp (correct_func_info l t) (λ r k', ∃ o, r = Ok o ∧ trying_t (default t o) k' ∧ bs_shown k' = bs_shown k ∧
    (∀ t', o = Some t' → is_null (t_finfo t') = false ∧ t_linfo t' = t_linfo t)) k.
Proof.
  intros Ht Hw. pose proof Ht as [Ha Hp Hl Hf Hli [Hof Hol] (Hown & Hd1 & Hd2) (h & Hh & Hall) Hag Hmap [Hs1 Hs2]].
  destruct func_records as (Ep & Ec & Es). destruct (small fr (or_introl eq_refl)) as (Hptr & Hc & Hz & _).
  unfold wants_func_info in Hw. apply andb_true_iff in Hw as [[Hnull _]%andb_true_iff Hlt%Z.ltb_lt].
  destruct (t_finfo t) as [|] eqn:Efi; [done|]. destruct Hf as [Eptr Hr].
  unfold correct_func_info. rewrite Ep, Ec, Es. apply wp_bind.
  eapply wp_mono; [apply (alloc_zero_tailing_info_spec fr _ logp log_sz); [done|lia|done|done|lia|done]|].
  intros [[p|]|] k' (Hsh & Hag' & Hsame & Hres); [| |done]; apply wp_ret.
  - destruct Hres as (Hp64 & Hno & Hown' & Hshow & Hoff). eexists. split; [reflexivity|].
    split; [|by split; [|intros t' [= <-]]]. cbn [from_option id t_attr t_finfo t_linfo]. split.
    + solve_attr_ok.
    + rewrite !program_set_field by reflexivity. done.
    + read_field. done.
    + read_field. cbn [ptr_to_u64 from_option id]. rewrite Z.mod_small by (cbn; lia). done.
    + read_field. by eapply shows_read.
    + split; [by intros ? [= <-]|done].
    + rewrite Hown', Hown. cbn [opt_set]. rewrite Hown in Hno. cbn [opt_set] in *. split_and!; set_solver.
    + exists h. by rewrite Hsh.
    + lia.
    + by rewrite Hsame.
    + read_field. split; [by apply Z.mod_pos_bound|done].
  - exists None. split; [done|]. split; [|done]. cbn [from_option id]. by eapply trying_same.
Qed.
Lemma correct_line_spec t k :
  trying_t t k → wants_line_info l t = true →
  wp (correct_line_info l t) (λ r k', ∃ o, r = Ok o ∧ trying_t (default t o) k' ∧ bs_shown k' = bs_shown k ∧
    (∀ t', o = Some t' → is_null (t_linfo t') = false ∧ t_finfo t' = t_finfo t)) k.
Proof.
  intros Ht Hw. pose proof Ht as [Ha Hp Hl Hf Hli [Hof Hol] (Hown & Hd1 & Hd2) (h & Hh & Hall) Hag Hmap [Hs1 Hs2]].
  destruct line_records as (Ep & Ec & Es). destruct (small lr (or_intror eq_refl)) as (Hptr & Hc & Hz & _).
  unfold wants_line_info in Hw. apply andb_true_iff in Hw as [[Hnull _]%andb_true_iff Hlt%Z.ltb_lt].
  destruct (t_linfo t) as [|] eqn:Efi; [done|]. destruct Hli as [Eptr Hr].
  unfold correct_line_info. rewrite Ep, Ec, Es. apply wp_bind.
  eapply wp_mono; [apply (alloc_zero_tailing_info_spec lr _ logp log_sz); [done|lia|done|done|lia|done]|].
  intros [[p|]|] k' (Hsh & Hag' & Hsame & Hres); [| |done]; apply wp_ret.
  - destruct Hres as (Hp64 & Hno & Hown' & Hshow & Hoff). eexists. split; [reflexivity|].
    split; [|by split; [|intros t' [= <-]]]. cbn [from_option id t_attr t_finfo t_linfo]. split.
    + solve_attr_ok.
    + rewrite !program_set_field by reflexivity. done.
    + read_field. done.
    + read_field. by eapply shows_read.
    + read_field. cbn [ptr_to_u64 from_option id]. rewrite Z.mod_small by (cbn; lia). done.
    + split; [done|by intros ? [= <-]].
    + rewrite Hown', Hown. cbn [opt_set]. rewrite Hown in Hno. cbn [opt_set] in *. split_and!; set_solver.
    + exists h. by rewrite Hsh.
    + lia.
    + by rewrite Hsame.
    + read_field. split; [done|by apply Z.mod_pos_bound].
  - exists None. split; [done|]. split; [|done]. cbn [from_option id]. by eapply trying_same.
Qed.

(** ** The tries *)

Definition nulls (t : tries) : nat := (if is_null (t_finfo t) then 1 else 0) + (if is_null (t_linfo t) then 1 else 0).

Lemma retry_loop_spec fuel n t k :
  trying_t t k → answered (bs_shown k) (t_fd t) → (nulls t ≤ n)%nat → (bs_again k0 ≤ fuel)%nat →
  wp (retry_loop fuel n l t) (λ r k', ∃ b t', r = Ok (b, t') ∧ trying_t t' k' ∧ answered (bs_shown k') (t_fd t')) k.
Proof.
  intros Ht Ha Hn Hfuel. revert t k Ht Ha Hn. induction n as [|n IH]; intros t k Ht Ha Hn; cbn [retry_loop]; apply wp_bind, wp_ask;
    (destruct ((bs_errno k =? E2BIG) && (is_null (t_finfo t) || is_null (t_linfo t))) eqn:Hc; [|apply wp_ret; eauto 6]).
  { apply andb_true_iff in Hc as [_ Hc]. unfold nulls in Hn. destruct (is_null (t_finfo t)), (is_null (t_linfo t)); cbn in *; try done; lia. }
  destruct (wants_func_info l t) eqn:Hf; [|destruct (wants_line_info l t) eqn:Hli; [|apply wp_ret; eauto 6]]; cbn [orb]; apply wp_bind.
  - eapply wp_mono; [by apply correct_func_spec|]. intros r k1 (o & -> & Ht1 & Hsh & Ho).
    destruct o as [t1|]; [|apply wp_ret; rewrite <-Hsh in Ha; eauto 6]. destruct (Ho t1 eq_refl) as [Hn1 El]. apply wp_bind.
    eapply wp_mono; [by apply try_load_spec|]. intros r k2 (t2 & -> & Ef2 & El2 & Ht2 & Ha2).
    destruct (0 <=? t_fd t2); [apply wp_ret; eauto 6|]. apply IH; [done|done|].
    unfold nulls in *. rewrite Ef2, El2, El, Hn1. unfold wants_func_info in Hf. destruct (is_null (t_finfo t)); [|done]. lia.
  - eapply wp_mono; [by apply correct_line_spec|]. intros r k1 (o & -> & Ht1 & Hsh & Ho).
    destruct o as [t1|]; [|apply wp_ret; rewrite <-Hsh in Ha; eauto 6]. destruct (Ho t1 eq_refl) as [Hn1 Ef]. apply wp_bind.
    eapply wp_mono; [by apply try_load_spec|]. intros r k2 (t2 & -> & Ef2 & El2 & Ht2 & Ha2).
    destruct (0 <=? t_fd t2); [apply wp_ret; eauto 6|]. apply IH; [done|done|].
    unfold nulls in *. rewrite Ef2, El2, Ef, Hn1. unfold wants_line_info in Hli. destruct (is_null (t_linfo t)); [|done]. lia.
Qed.

(** The blocks are given back, and the tries are told. *)
Definition all_shown (k : K) : Prop :=
  bs_owned k = bs_owned k0 ∧ ∃ h, bs_shown k = bs_shown k0 ++ h ∧ Forall (shown_ok prog fr lr) h.

Lemma load_done_spec t k :
  trying_t t k → answered (bs_shown k) (t_fd t) →
  wp (load_done t) (λ r k', r = Ok (t_fd t) ∧ all_shown k' ∧ answered (bs_shown k') (t_fd t)) k.
Proof.
  intros [_ _ _ _ _ _ (Ho & Hd1 & Hd2) (h & Hh & Hall) _ _ _] Ha. unfold load_done.
  apply wp_bind, wp_run. destruct (free_law (t_finfo t) k) as [Hs1 Ho1].
  apply wp_bind, wp_run. destruct (free_law (t_linfo t) (bs_free (t_finfo t) k)) as [Hs2 Ho2]. apply wp_ret.
  split; [done|]. split; [|by rewrite Hs2, Hs1]. split; [|exists h; split; [congruence|done]]. rewrite Ho2, Ho1, Ho. clear - Hd1 Hd2.
  destruct (t_finfo t), (t_linfo t); cbn [opt_set] in *; set_solver.
Qed.
End tries.
End load.

(** ** The property *)

(** The program of a [bpf_load_program_attr], member by member. *)
Definition program (l : bpf_load_program_attr) : list Z * list Z :=
  let tracing := u32 (lp_prog_type l) =? BPF_PROG_TYPE_TRACING in
  (short_name (lp_name l),
   [u32 (lp_prog_type l); u32 (lp_insns_cnt l); u64 (lp_insns l); u64 (lp_license l); u32 (lp_kern_version l);
    u32 (lp_prog_flags l); if tracing then 0 else u32 (lp_ifindex_or_btf_id l); u32 (lp_expected_attach_type l);
    u32 (lp_prog_btf_fd l); u32 (lp_func_info_cnt l); u32 (lp_line_info_cnt l);
    if tracing then u32 (lp_ifindex_or_btf_id l) else 0]).

Ltac load_cases := destruct (_ =? BPF_PROG_TYPE_TRACING) eqn:?, (_ =? 0) eqn:?; cbn [negb].

Lemma load_attr_ok l b sz : attr_ok (load_attr_bytes l b sz).
Proof. unfold load_attr_bytes. load_cases; solve_attr_ok. Qed.

Lemma program_of_load l b sz :
  (∀ s, lp_name l = Some s → c_str s = true) → program_of (load_attr_bytes l b sz) = program l.
Proof.
  intros Hs. unfold load_attr_bytes, program_of, program. cbn zeta.
  assert (get_field ProgLoad.prog_type (set_field ProgLoad.expected_attach_type (lp_expected_attach_type l)
    (set_field ProgLoad.prog_type (lp_prog_type l) zero_attr)) = u32 (lp_prog_type l)) as -> by read_one.
  load_cases; (f_equal; [read_name|]; cbn [fmap list_fmap program_fields];
    repeat (apply (f_equal2 cons); [read_one; try by apply Z.mod_mod|]); reflexivity).
Qed.

Lemma load_members l b sz :
  let a := load_attr_bytes l b sz in
  get_field ProgLoad.func_info a = u64 (lp_func_info l) ∧ get_field ProgLoad.line_info a = u64 (lp_line_info l) ∧
  get_field ProgLoad.func_info_rec_size a = u32 (lp_func_info_rec_size l) ∧
  get_field ProgLoad.line_info_rec_size a = u32 (lp_line_info_rec_size l) ∧
  (if lp_log_level l =? 0 then get_field ProgLoad.log_level a = u32 (lp_log_level l)
   else get_field ProgLoad.log_buf a = u64 (ptr_to_u64 b) ∧ get_field ProgLoad.log_size a = u32 sz).
Proof.
  unfold load_attr_bytes. cbn zeta. load_cases; repeat split; read_one.
Qed.

(** Arguments that [bpf_load_program_xattr] refuses. *)
Definition bad_arguments (l : option bpf_load_program_attr) (log_buf : option Z) (log_buf_sz : Z) : bool :=
  match l with
  | None => true
  | Some l => negb (Bool.eqb (is_null log_buf) (log_buf_sz =? 0)) || (7 <? lp_log_level l)
              || (negb (lp_log_level l =? 0) && is_null log_buf)
  end.

(** The records of [l] are where it says, the log is memory, and they are apart. *)
Record load_args {K} `{BpfSysLaws K} (l : bpf_load_program_attr) (fr lr : records) (log_buf : option Z) (log_sz : Z) (k : K) : Prop := {
  la_name : ∀ s, lp_name l = Some s → c_str s = true;
  la_level : 0 ≤ lp_log_level l;
  la_log : 0 ≤ log_sz < 2 ^ 32 ∧ 0 ≤ default 0 log_buf < 2 ^ 64 ∧ is_Some (read_mem (bs_mem k) (default 0 log_buf) (Z.to_nat log_sz));
  la_func : lp_func_info l = r_ptr fr ∧ lp_func_info_cnt l = Z.of_nat (r_cnt fr) ∧ lp_func_info_rec_size l = Z.of_nat (r_size fr);
  la_line : lp_line_info l = r_ptr lr ∧ lp_line_info_cnt l = Z.of_nat (r_cnt lr) ∧ lp_line_info_rec_size l = Z.of_nat (r_size lr);
  la_records : ∀ r, r = fr ∨ r = lr → 0 ≤ r_ptr r < 2 ^ 64 ∧ Z.of_nat (r_cnt r) < 2 ^ 32 ∧ Z.of_nat (r_size r) < 2 ^ 32 ∧
    off_log (default 0 log_buf) log_sz (r_ptr r) (r_len r) ∧ read_mem (bs_mem k) (r_ptr r) (r_len r) = Some (r_bytes r)
}.

Section property.
Context {K : Type} {BS : BpfSys K} {BL : BpfSysLaws K}.

Lemma first_try l fr lr log_buf log_sz (k : K) :
  load_args l fr lr log_buf log_sz k →
  trying fr lr log_buf log_sz k (program l) (load_attr_bytes l log_buf log_sz) None None k.
Proof.
  intros [Hname Hlev (Hsz & Hlog & Hmap) (Ef & _ & Esf) (El & _ & Esl) Hrec].
  destruct (Hrec fr (or_introl eq_refl)) as (Hpf & _ & _ & _ & Hrf), (Hrec lr (or_intror eq_refl)) as (Hpl & _ & _ & _ & Hrl).
  pose proof (load_members l log_buf log_sz) as (Hfi & Hli & Hfs & Hls & Hlg).
  split.
  - apply load_attr_ok.
  - by apply program_of_load.
  - revert Hlg. destruct (Z.eqb_spec (lp_log_level l) 0) as [E0|]; intros Hlg; [left; rewrite Hlg, E0; done|right].
    destruct Hlg as [-> ->]. unfold ptr_to_u64. rewrite u64_small, u32_small by lia. done.
  - rewrite Hfi, u64_small by lia. done.
  - rewrite Hli, u64_small by lia. done.
  - done.
  - cbn [opt_set]. clear. set_solver.
  - exists []. by rewrite app_nil_r.
  - lia.
  - done.
  - rewrite Hfs, Hls. split; by apply Z.mod_pos_bound.
Qed.

(** The last try, with a log. *)
Lemma last_try_spec fuel l fr lr b log_sz (k0 k : K) t :
  (∀ r, r = fr ∨ r = lr → 0 ≤ r_ptr r < 2 ^ 64 ∧ Z.of_nat (r_cnt r) < 2 ^ 32 ∧ Z.of_nat (r_size r) < 2 ^ 32 ∧
     off_log b log_sz (r_ptr r) (r_len r)) →
  0 < log_sz < 2 ^ 32 → 0 ≤ b < 2 ^ 64 → (bs_again k0 ≤ fuel)%nat →
  trying fr lr (Some b) log_sz k0 (program l) (t_attr t) (t_finfo t) (t_linfo t) k →
  let attr := set_field ProgLoad.log_buf (ptr_to_u64 (Some b)) (t_attr t) in
  let attr := set_field ProgLoad.log_size log_sz attr in
  let attr := set_field ProgLoad.log_level 1 attr in
  wp (_ ← run (bs_store (ptr_to_u64 (Some b)) [0]); t ← try_load fuel (Tries (t_fd t) attr (t_finfo t) (t_linfo t)); load_done t)
    (λ r k', ∃ fd, r = Ok fd ∧ all_shown fr lr k0 (program l) k' ∧ answered (bs_shown k') fd) k.
Proof.
  intros Hsmall Hsz Hb Hfuel Ht a1 a2 attr. pose proof Ht as [Ha Hp Hl Hf Hli [Hof Hol] Ho Hh Hag Hmap Hs].
  cbn [ptr_to_u64 from_option id] in *. apply wp_store.
  { cbn [length]. destruct Hmap as [bytes Hmap]. rewrite (read_mem_sub _ _ _ b 1 _ Hmap) by lia. by eexists. }
  intros k1 Hm (Hown & Hsh & Hag1).
  assert (trying fr lr (Some b) log_sz k0 (program l) attr (t_finfo t) (t_linfo t) k1) as Ht1.
  { split.
    - unfold attr, a2, a1. solve_attr_ok.
    - unfold attr, a2, a1. rewrite !program_set_field by reflexivity. done.
    - right. unfold attr, a2, a1. read_field. rewrite !Z.mod_small by (cbn; lia). done.
    - unfold attr, a2, a1. read_field. rewrite Hm. eapply (shows_log fr lr (Some b) log_sz); eauto. right. cbn. split; [done|lia].
    - unfold attr, a2, a1. read_field. rewrite Hm. eapply (shows_log fr lr (Some b) log_sz); eauto. right. cbn. split; [done|lia].
    - done.
    - by rewrite Hown.
    - by rewrite Hsh.
    - lia.
    - rewrite Hm. by apply read_mem_writable.
    - unfold attr, a2, a1. by read_field. }
  apply wp_bind. eapply wp_mono; [eapply (try_load_spec fr lr (Some b) log_sz k0 (conj (conj (Z.lt_le_incl _ _ (proj1 Hsz)) (proj2 Hsz)) Hb) Hsmall); [exact Ht1|done]|].
  intros r k2 (t2 & -> & _ & _ & Ht2 & Ha2).
  eapply wp_mono; [eapply load_done_spec; done|]. intros r k3 (-> & Hs3 & Ha3). by exists (t_fd t2).
Qed.
End property.


(** ** A kernel *)

Module Kernel.
(** It answers from a script: descriptor, errno, and the sizes of records it knows. *)
Record kernel := Kern {
  k_mem : gmap Z Z; k_owned : gset Z; k_shown : list (buffer * gmap Z Z * Z); k_script : list (Z * Z * Z * Z); k_errno : Z
}.

(** An address above all others. *)
Definition top (k : kernel) : Z := foldr (λ q t, Z.max (q + 1) t) 1 (elements (dom (k_mem k) ∪ k_owned k)).

Lemma top_above k q : q ∈ dom (k_mem k) ∪ k_owned k → q < top k.
Proof.
  unfold top. rewrite <-elem_of_elements. induction (elements _) as [|x l IH]; [by intros ?%not_elem_of_nil|].
  intros [->|Hq]%elem_of_cons; cbn [foldr]; [lia|]. specialize (IH Hq). lia.
Qed.
Lemma top_pos k : 1 ≤ top k.
Proof. unfold top. induction (elements _) as [|x l IH]; cbn [foldr]; lia. Qed.

#[export] Instance kernel_sys : BpfSys kernel := {
  sys_bpf cmd a _ k :=
    match k_script k with
    | [] => (3, set_field ProgLoad.func_info_rec_size (get_field ProgLoad.func_info_rec_size a)
                  (set_field ProgLoad.line_info_rec_size (get_field ProgLoad.line_info_rec_size a) a),
             Kern (write_mem (get_field ProgLoad.log_buf a) [] (k_mem k)) (k_owned k) (k_shown k ++ [(a, k_mem k, 3)]) [] 0)
    | (fd, e, s1, s2) :: script =>
        (fd, set_field ProgLoad.func_info_rec_size s1 (set_field ProgLoad.line_info_rec_size s2 a),
         Kern (write_mem (get_field ProgLoad.log_buf a) [] (k_mem k)) (k_owned k) (k_shown k ++ [(a, k_mem k, fd)]) script e)
    end;
  bs_errno := k_errno;
  bs_malloc n k :=
    let p := top k in
    if p <? 2 ^ 64
    then (Some p, Kern (write_mem p (replicate (Z.to_nat n) 0) (k_mem k)) ({[p]} ∪ k_owned k) (k_shown k) (k_script k) (k_errno k))
    else (None, k);
  bs_free p k := match p with
    | Some p => Kern (k_mem k) (k_owned k ∖ {[p]}) (k_shown k) (k_script k) (k_errno k) | None => k end;
  bs_read p n k := or_fault (read_mem (k_mem k) p (Z.to_nat n)) OutOfBounds;
  bs_store p bs k := Kern (write_mem p bs (k_mem k)) (k_owned k) (k_shown k) (k_script k) (k_errno k)
}.

#[export] Program Instance kernel_laws : BpfSysLaws kernel := {
  bs_mem := k_mem; bs_owned := k_owned; bs_shown := k_shown; bs_again k := length (k_script k)
}.
Next Obligation. done. Qed.
Next Obligation. done. Qed.
Next Obligation.
  intros n k. cbn. destruct (Z.ltb_spec (top k) (2 ^ 64)); [|done]. pose proof (top_pos k). cbn.
  split; [done|]. split; [done|]. split; [lia|]. split; [|split; [done|split]].
  - intros Hin. pose proof (top_above k (top k)) as Ht. specialize (Ht ltac:(apply elem_of_union; by right)). lia.
  - intros q Hq. destruct (k_mem k !! q) eqn:E; [|done]. exfalso.
    pose proof (top_above k q) as Ht. specialize (Ht ltac:(apply elem_of_union; left; apply elem_of_dom; by eexists)). lia.
  - eexists. split; [apply length_replicate|done].
Qed.
Next Obligation. by intros [p|] k. Qed.
Next Obligation.
  intros a n [m o sh [|[[[fd e] s1] s2] script] er]; cbn.
  - split; [done|]. split; [done|]. split; [by do 2 eexists|]. split; [|split; [lia|lia]].
    exists []. split; [|done]. cbn. destruct (_ =? 0); lia.
  - split; [done|]. split; [done|]. split; [by do 2 eexists|]. split; [|split; [lia|intros; lia]].
    exists []. split; [|done]. cbn. destruct (_ =? 0); lia.
Qed.
End Kernel.

Import Kernel.

(** A program with two records of functions and one of lines; the kernel wants it once more,
    knows eight of the twelve bytes of a record, and then answers that it is too big. *)
Definition old_kernel : kernel :=
  Kern (write_mem 1000 [1; 2; 3; 4; 5; 6; 7; 8; 9; 10; 11; 12; 21; 22; 23; 24; 25; 26; 27; 28; 29; 30; 31; 32]
    (write_mem 2000 (replicate 16 9) (write_mem 3000 (replicate 32 0) ∅))) ∅ []
    [(-1, EAGAIN, 12, 16); (-1, E2BIG, 8, 16); (-1, EINVAL, 12, 16); (4, 0, 12, 16)] 0.
Definition two_records : records :=
  Records 1000 2 12 [1; 2; 3; 4; 5; 6; 7; 8; 9; 10; 11; 12; 21; 22; 23; 24; 25; 26; 27; 28; 29; 30; 31; 32].
Definition one_line : records := Records 2000 1 16 (replicate 16 9).
Definition a_program : bpf_load_program_attr :=
  LoadProgramAttr 6 0 (Some "xdp_sock") 5000 9 6000 0 0 0 12 1000 2 16 2000 1 0 0.

Lemma a_program_args : load_args a_program two_records one_line (Some 3000) 32 old_kernel.
Proof.
  split.
  - by intros s [= <-].
  - done.
  - split; [lia|]. split; [cbn; lia|]. vm_compute. by eexists.
  - done.
  - done.
  - intros r [->| ->]; (split; [cbn; lia|]; split; [cbn; lia|]; split; [cbn; lia|]; split; [unfold off_log, disj; cbn; lia|]);
      vm_compute; reflexivity.
Qed.

(** What the array of functions held at a try. *)
Definition functions_at (x : buffer * gmap Z Z * Z) : option (list Z) :=
  read_mem x.1.2 (get_field ProgLoad.func_info x.1.1) 24.

