(* ===== verification/Btf.v ===== *)
(** * btf.c and btf.h of libbpf: type information

    The types of a program are a stream of records behind a header, and their names
    a section of strings.  A struct btf holds a copy of the bytes; a pointer to a
    type is its offset there, or the static [btf_void], and a read past the copy a
    fault. *)

From Stdlib Require Import Ascii.
From S2P Require Import Prelude Io Config Packet Loader Bytes XskLib.

Definition BTF_MAGIC : Z := 0xeB9F.
Definition BTF_VERSION : Z := 1.
Definition BTF_MAX_NR_TYPES : Z := 0x7fffffff.
Definition BTF_MAX_STR_OFFSET : Z := 0x7fffffff.
Definition ENOTSUP : Z := 95.
Definition E2BIG : Z := 7.
Definition UINT32_MAX : Z := 2 ^ 32 - 1.

Definition BTF_KIND_UNKN : Z := 0.
Definition BTF_KIND_INT : Z := 1.
Definition BTF_KIND_PTR : Z := 2.
Definition BTF_KIND_ARRAY : Z := 3.
Definition BTF_KIND_STRUCT : Z := 4.
Definition BTF_KIND_UNION : Z := 5.
Definition BTF_KIND_ENUM : Z := 6.
Definition BTF_KIND_FWD : Z := 7.
Definition BTF_KIND_TYPEDEF : Z := 8.
Definition BTF_KIND_VOLATILE : Z := 9.
Definition BTF_KIND_CONST : Z := 10.
Definition BTF_KIND_RESTRICT : Z := 11.
Definition BTF_KIND_FUNC : Z := 12.
Definition BTF_KIND_FUNC_PROTO : Z := 13.
Definition BTF_KIND_VAR : Z := 14.
Definition BTF_KIND_DATASEC : Z := 15.

Definition BTF_INFO_KIND (info : Z) : Z := Z.land (Z.shiftr info 24) 0x0f.
Definition BTF_INFO_VLEN (info : Z) : Z := Z.land info 0xffff.
Definition BTF_INFO_KFLAG (info : Z) : Z := Z.shiftr info 31.
Definition BTF_INT_ENCODING (val : Z) : Z := Z.shiftr (Z.land val 0x0f000000) 24.
Definition BTF_INT_OFFSET (val : Z) : Z := Z.shiftr (Z.land val 0x00ff0000) 16.
Definition BTF_INT_BITS (val : Z) : Z := Z.land val 0x000000ff.
Definition BTF_MEMBER_BITFIELD_SIZE (val : Z) : Z := Z.shiftr val 24.
Definition BTF_MEMBER_BIT_OFFSET (val : Z) : Z := Z.land val 0xffffff.

(** ** Data *)

(** [struct btf_type *]: the static btf_void, or a type of the copy. *)
Inductive type_ptr := VoidType | TypeAt (off : Z).
#[global] Instance type_ptr_eq_dec : EqDecision type_ptr.
Proof. solve_decision. Defined.

(** [types] has the entries that were stored, NULL when there are none; [strings] is an offset. *)
Record btf := Btf {
  data : option buffer; types : list type_ptr; strings : Z; nr_types : Z; types_size : Z; data_size : Z; btf_fd : Z
}.

Definition with_types (types : list type_ptr) (nr size : Z) (b : btf) : btf :=
  Btf (data b) types (strings b) nr size (data_size b) (btf_fd b).
Definition with_strings (off : Z) (b : btf) : btf :=
  Btf (data b) (types b) off (nr_types b) (types_size b) (data_size b) (btf_fd b).

(** ** Members *)

Section access.
Variable b : btf.

Definition the_data : res buffer := or_fault (data b) NullDeref.
Definition word (off : Z) : res Z := d ← the_data; load32 d off.

(** The header at the front, and what lies behind it at an offset. *)
Definition sizeof_btf_header : Z := 24.
Definition hdr_type_off : res Z := word 8.
Definition hdr_str_off : res Z := word 16.
Definition hdr_str_len : res Z := word 20.

(** The members of a type; those of btf_void are zero. *)
Definition t_word (t : type_ptr) (i : Z) : res Z :=
  match t with VoidType => Ok 0 | TypeAt off => word (off + i) end.
Definition t_name_off (t : type_ptr) : res Z := t_word t 0.
Definition t_info (t : type_ptr) : res Z := t_word t 4.
(** the union of [size] and [type] *)
Definition t_size (t : type_ptr) : res Z := t_word t 8.
Definition t_type : type_ptr → res Z := t_size.
(** The words behind a type; nothing is behind btf_void. *)
Definition t_extra (t : type_ptr) (i : Z) : res Z :=
  match t with VoidType => Err OutOfBounds | TypeAt off => word (off + 12 + 4 * i) end.

Definition btf_kind (t : type_ptr) : res Z := info ← t_info t; Ok (u16 (BTF_INFO_KIND info)).
Definition btf_vlen (t : type_ptr) : res Z := info ← t_info t; Ok (u16 (BTF_INFO_VLEN info)).
Definition btf_kflag (t : type_ptr) : res bool := info ← t_info t; Ok (negb (BTF_INFO_KFLAG info =? 0)).

Definition is_kind (k : Z) (t : type_ptr) : res bool := kind ← btf_kind t; Ok (kind =? k).
Definition btf_is_int : type_ptr → res bool := is_kind BTF_KIND_INT.
Definition btf_is_ptr : type_ptr → res bool := is_kind BTF_KIND_PTR.
Definition btf_is_array : type_ptr → res bool := is_kind BTF_KIND_ARRAY.
Definition btf_is_struct : type_ptr → res bool := is_kind BTF_KIND_STRUCT.
Definition btf_is_union : type_ptr → res bool := is_kind BTF_KIND_UNION.
Definition btf_is_composite (t : type_ptr) : res bool :=
  kind ← btf_kind t; Ok ((kind =? BTF_KIND_STRUCT) || (kind =? BTF_KIND_UNION)).
Definition btf_is_enum : type_ptr → res bool := is_kind BTF_KIND_ENUM.
Definition btf_is_fwd : type_ptr → res bool := is_kind BTF_KIND_FWD.
Definition btf_is_typedef : type_ptr → res bool := is_kind BTF_KIND_TYPEDEF.
Definition btf_is_volatile : type_ptr → res bool := is_kind BTF_KIND_VOLATILE.
Definition btf_is_const : type_ptr → res bool := is_kind BTF_KIND_CONST.
Definition btf_is_restrict : type_ptr → res bool := is_kind BTF_KIND_RESTRICT.
Definition btf_is_mod (t : type_ptr) : res bool :=
  kind ← btf_kind t; Ok ((kind =? BTF_KIND_VOLATILE) || (kind =? BTF_KIND_CONST) || (kind =? BTF_KIND_RESTRICT)).
Definition btf_is_func : type_ptr → res bool := is_kind BTF_KIND_FUNC.
Definition btf_is_func_proto : type_ptr → res bool := is_kind BTF_KIND_FUNC_PROTO.
Definition btf_is_var : type_ptr → res bool := is_kind BTF_KIND_VAR.
Definition btf_is_datasec : type_ptr → res bool := is_kind BTF_KIND_DATASEC.

Definition btf_int_encoding (t : type_ptr) : res Z := v ← t_extra t 0; Ok (u8 (BTF_INT_ENCODING v)).
Definition btf_int_offset (t : type_ptr) : res Z := v ← t_extra t 0; Ok (u8 (BTF_INT_OFFSET v)).
Definition btf_int_bits (t : type_ptr) : res Z := v ← t_extra t 0; Ok (u8 (BTF_INT_BITS v)).

(** struct btf_array *)
Definition array_type (t : type_ptr) : res Z := t_extra t 0.
Definition array_nelems (t : type_ptr) : res Z := t_extra t 2.
(** struct btf_member: [name_off], [type], [offset] *)
Definition member_type (t : type_ptr) (i : Z) : res Z := t_extra t (3 * i + 1).
Definition member_offset (t : type_ptr) (i : Z) : res Z := t_extra t (3 * i + 2).

Definition btf_member_bit_offset (t : type_ptr) (member_idx : Z) : res Z :=
  offset ← member_offset t member_idx; kflag ← btf_kflag t;
  Ok (if (kflag : bool) then BTF_MEMBER_BIT_OFFSET offset else offset).
Definition btf_member_bitfield_size (t : type_ptr) (member_idx : Z) : res Z :=
  offset ← member_offset t member_idx; kflag ← btf_kflag t;
  Ok (if (kflag : bool) then BTF_MEMBER_BITFIELD_SIZE offset else 0).

(** ** Parsing *)

Definition btf_parse_hdr : res Z :=
  d ← the_data;
  if data_size b <? sizeof_btf_header then Ok (- EINVAL)
  else
    magic ← load16 d 0; version ← byte_at d 2; flags ← byte_at d 3;
    if negb (magic =? BTF_MAGIC) then Ok (- EINVAL)
    else if negb (version =? BTF_VERSION) then Ok (- ENOTSUP)
    else if negb (flags =? 0) then Ok (- ENOTSUP)
    else
      let meta_left := data_size b - sizeof_btf_header in
      type_off ← hdr_type_off; str_off ← hdr_str_off;
      if meta_left =? 0 then Ok (- EINVAL)
      else if meta_left <? type_off then Ok (- EINVAL)
      else if meta_left <? str_off then Ok (- EINVAL)
      else if str_off <=? type_off then Ok (- EINVAL)
      else if negb (Z.land type_off 0x02 =? 0) then Ok (- EINVAL)
      else Ok 0.

(** The error and [strings]. *)
Definition btf_parse_str_sec : res (Z * Z) :=
  str_off ← hdr_str_off; str_len ← hdr_str_len;
  let start := sizeof_btf_header + str_off in
  let last := start + str_len in
  d ← the_data;
  if (str_len =? 0) || (BTF_MAX_STR_OFFSET <? u32 (str_len - 1)) then Ok (- EINVAL, strings b)
  else
    first ← byte_at d start;
    if negb (first =? 0) then Ok (- EINVAL, strings b)
    else
      z ← byte_at d (last - 1);
      if negb (z =? 0) then Ok (- EINVAL, strings b) else Ok (0, start).

Definition btf_type_size (t : type_ptr) : res Z :=
  let base_size := 12 in
  vlen ← btf_vlen t;
  kind ← btf_kind t;
  Ok (if (kind =? BTF_KIND_FWD) || (kind =? BTF_KIND_CONST) || (kind =? BTF_KIND_VOLATILE) || (kind =? BTF_KIND_RESTRICT)
         || (kind =? BTF_KIND_PTR) || (kind =? BTF_KIND_TYPEDEF) || (kind =? BTF_KIND_FUNC) then base_size
      else if kind =? BTF_KIND_INT then base_size + 4
      else if kind =? BTF_KIND_ENUM then base_size + vlen * 8
      else if kind =? BTF_KIND_ARRAY then base_size + 12
      else if (kind =? BTF_KIND_STRUCT) || (kind =? BTF_KIND_UNION) then base_size + vlen * 12
      else if kind =? BTF_KIND_FUNC_PROTO then base_size + vlen * 8
      else if kind =? BTF_KIND_VAR then base_size + 4
      else if kind =? BTF_KIND_DATASEC then base_size + vlen * 12
      else - EINVAL).
End access.

Section btf.
Context {K : Type} `{MemOps K}.

(** The error and the struct. *)
Definition btf_add_type (b : btf) (t : type_ptr) : io K (Z * btf) :=
  '(err, b) ← (
    if u32 (types_size b - nr_types b) <? 2 then
      if types_size b =? BTF_MAX_NR_TYPES then mret (- E2BIG, b)
      else
        let expand_by := Z.max (Z.shiftr (types_size b) 2) 16 in
        let new_size := Z.min BTF_MAX_NR_TYPES (u32 (types_size b + expand_by)) in
        ok ← realloc (negb (types_size b =? 0)) (8 * new_size);
        if negb (ok : bool) then mret (- ENOMEM, b)
        else mret (0, with_types (if nr_types b =? 0 then [VoidType] else types b) (nr_types b) new_size b)
    else mret (0, b));
  if negb (err =? 0) then mret (err, b)
  else
    let nr := u32 (nr_types b + 1) in
    if types_size b <=? nr then pure_res (Err OutOfBounds)
    else mret (0, with_types (types b ++ [t]) nr (types_size b) b).

(** The loop; a type takes twelve bytes at least. *)
Fixpoint type_sec_loop (fuel : nat) (b : btf) (next_type end_type : Z) : io K (Z * btf) :=
  if next_type <? end_type then
    match fuel with
    | O => pure_res (Err OutOfFuel)
    | S fuel =>
      let t := TypeAt next_type in
      type_size ← pure_res (btf_type_size b t);
      if type_size <? 0 then mret (type_size, b)
      else
        '(err, b) ← btf_add_type b t;
        if negb (err =? 0) then mret (err, b) else type_sec_loop fuel b (next_type + type_size) end_type
    end
  else mret (0, b).

Definition btf_parse_type_sec (b : btf) : io K (Z * btf) :=
  type_off ← pure_res (hdr_type_off b); str_off ← pure_res (hdr_str_off b);
  type_sec_loop (Z.to_nat (str_off - type_off)) b (sizeof_btf_header + type_off) (sizeof_btf_header + str_off).

(** [close(fd)] *)
Variable close : Z → K → K.

Definition btf__free (b : option btf) : io K unit :=
  match b with
  | None => mret tt
  | Some b =>
      _ ← (if negb (btf_fd b =? -1) then run (close (btf_fd b)) else mret tt);
      _ ← free_if (match data b with Some _ => true | None => false end);
      _ ← free_if (negb (types_size b =? 0));
      run m_free
  end.

(** done: an error pointer, or the struct. *)
Definition new_done (err : Z) (b : btf) : io K (Z + btf) :=
  if negb (err =? 0) then _ ← btf__free (Some b); mret (inl err) else mret (inr b).

Definition btf__new (bytes : buffer) (size : Z) : io K (Z + btf) :=
  ok ← call (m_malloc 48);
  if negb ok then mret (inl (- ENOMEM))
  else
    let b := Btf None [] 0 0 0 0 (-1) in
    ok ← call (m_malloc size);
    if negb ok then new_done (- ENOMEM) b
    else
      d ← pure_res (bytes_of bytes 0 size);
      let b := Btf (Some d) [] 0 0 0 size (-1) in
      err ← pure_res (btf_parse_hdr b);
      if negb (err =? 0) then new_done err b
      else
        '(err, str) ← pure_res (btf_parse_str_sec b);
        let b := with_strings str b in
        if negb (err =? 0) then new_done err b
        else '(err, b) ← btf_parse_type_sec b; new_done err b.
End btf.

(** ** Look-ups *)

Definition btf__get_nr_types (b : btf) : Z := nr_types b.

(** [None] for NULL. *)
Definition btf__type_by_id (b : btf) (type_id : Z) : res (option type_ptr) :=
  if nr_types b <? type_id then Ok None
  else t ← or_fault (types b !! Z.to_nat type_id) NullDeref; Ok (Some t).

Definition btf_type_is_void (b : btf) (t : type_ptr) : res bool :=
  match t with VoidType => Ok true | TypeAt _ => btf_is_fwd b t end.
Definition btf_type_is_void_or_null (b : btf) (t : option type_ptr) : res bool :=
  match t with None => Ok true | Some t => btf_type_is_void b t end.

Definition MAX_RESOLVE_DEPTH : nat := 32.

(** The loop: the size at done, -1 when there is none, with [nelems]; or the error. *)
Fixpoint resolve_size_loop (n : nat) (b : btf) (t : option type_ptr) (nelems : Z) : res (Z + Z * Z) :=
  match n with
  | O => Ok (inr (-1, nelems))
  | S n =>
    stop ← btf_type_is_void_or_null b t;
    match t, stop with
    | Some t, false =>
      kind ← btf_kind b t;
      if (kind =? BTF_KIND_INT) || (kind =? BTF_KIND_STRUCT) || (kind =? BTF_KIND_UNION) || (kind =? BTF_KIND_ENUM)
         || (kind =? BTF_KIND_DATASEC) then size ← t_size b t; Ok (inr (size, nelems))
      else if kind =? BTF_KIND_PTR then Ok (inr (8, nelems))
      else if (kind =? BTF_KIND_TYPEDEF) || (kind =? BTF_KIND_VOLATILE) || (kind =? BTF_KIND_CONST)
         || (kind =? BTF_KIND_RESTRICT) || (kind =? BTF_KIND_VAR) then
        type_id ← t_type b t;
        t ← btf__type_by_id b type_id; resolve_size_loop n b t nelems
      else if kind =? BTF_KIND_ARRAY then
        n_array ← array_nelems b t;
        if negb (nelems =? 0) && (UINT32_MAX / nelems <? n_array) then Ok (inl (- E2BIG))
        else
          type_id ← array_type b t;
          t ← btf__type_by_id b type_id; resolve_size_loop n b t (u32 (nelems * n_array))
      else Ok (inl (- EINVAL))
    | _, _ => Ok (inr (-1, nelems))
    end
  end.

Definition btf__resolve_size (b : btf) (type_id : Z) : res Z :=
  t ← btf__type_by_id b type_id;
  r ← resolve_size_loop MAX_RESOLVE_DEPTH b t 1;
  match r with
  | inl err => Ok err
  | inr (size, nelems) =>
      if size <? 0 then Ok (- EINVAL)
      else if negb (nelems =? 0) && (UINT32_MAX / nelems <? size) then Ok (- E2BIG)
      else Ok (nelems * size)
  end.

(** The loop; whether it was left with the depth used up, and the last id and type. *)
Fixpoint resolve_type_loop (n : nat) (b : btf) (type_id : Z) (t : option type_ptr) : res (bool * Z * option type_ptr) :=
  match n with
  | O => Ok (true, type_id, t)
  | S n =>
    stop ← btf_type_is_void_or_null b t;
    match t, stop with
    | Some p, false =>
      is_mod ← btf_is_mod b p; is_typedef ← btf_is_typedef b p; is_var ← btf_is_var b p;
      if (is_mod : bool) || is_typedef || is_var then
        type_id ← t_type b p; t ← btf__type_by_id b type_id; resolve_type_loop n b type_id t
      else Ok (false, type_id, t)
    | _, _ => Ok (false, type_id, t)
    end
  end.

Definition btf__resolve_type (b : btf) (type_id : Z) : res Z :=
  t ← btf__type_by_id b type_id;
  '(deep, type_id, t) ← resolve_type_loop MAX_RESOLVE_DEPTH b type_id t;
  if (deep : bool) then Ok (- EINVAL)
  else
    void ← btf_type_is_void_or_null b t;
    if (void : bool) then Ok (- EINVAL) else Ok (s32 type_id).

(** The offset of a name, [None] for NULL. *)
Definition btf__name_by_offset (b : btf) (offset : Z) : res (option Z) :=
  str_len ← hdr_str_len b;
  Ok (if offset <? str_len then Some (strings b + offset) else None).

(** [strcmp(name, s) == 0] with [name] at an offset; a read past the bytes is a fault. *)
Fixpoint name_is (d : buffer) (off : Z) (s : list Z) : res bool :=
  c ← byte_at d off;
  match s with
  | [] => Ok (c =? 0)
  | b :: s => if c =? b then name_is d (off + 1) s else Ok false
  end.

(** The loop over the ids from [i] on. *)
Fixpoint find_loop (ts : list type_ptr) (b : btf) (i : Z) (type_name : string) : res Z :=
  match ts with
  | [] => Ok (- ENOENT)
  | t :: ts =>
    off ← t_name_off b t; name ← btf__name_by_offset b off;
    same ← (match name with None => Ok false | Some p => d ← the_data b; name_is d p (char_bytes type_name) end);
    if (same : bool) then Ok i else find_loop ts b (i + 1) type_name
  end.

Definition btf__find_by_name (b : btf) (type_name : string) : res Z :=
  if String.eqb type_name "void" then Ok 0 else find_loop (drop 1 (types b)) b 1 type_name.

(** [snprintf(container_name, 256, ...)]: its result, and what fits. *)
Definition container_name (map_name : string) : Z * string :=
  let s := ("____btf_map_" ++ map_name)%string in
  (Z.of_nat (strlen s), String.string_of_list_ascii (take 255 (String.list_ascii_of_string s))).

(** The error or the ids of key and value. *)
Definition btf__get_map_kv_tids (b : btf) (map_name : string) (expected_key_size expected_value_size : Z) : res (Z + Z * Z) :=
  let '(len, name) := container_name map_name in
  if len =? 256 then Ok (inl (- EINVAL))
  else
    container_id ← btf__find_by_name b name;
    if container_id <? 0 then Ok (inl container_id)
    else
      container_type ← btf__type_by_id b container_id;
      match container_type with
      | None => Ok (inl (- EINVAL))
      | Some t =>
        is_struct ← btf_is_struct b t; vlen ← btf_vlen b t;
        if negb (is_struct : bool) || (vlen <? 2) then Ok (inl (- EINVAL))
        else
          key_type ← member_type b t 0; value_type ← member_type b t 1;
          key_size ← btf__resolve_size b key_type;
          if key_size <? 0 then Ok (inl (s32 key_size))
          else if negb (expected_key_size =? key_size) then Ok (inl (- EINVAL))
          else
            value_size ← btf__resolve_size b value_type;
            if value_size <? 0 then Ok (inl (s32 value_size))
            else if negb (expected_value_size =? value_size) then Ok (inl (- EINVAL))
            else Ok (inr (key_type, value_type))
      end.
