(* ===== verification/BtfProps.v ===== *)
(** * Type information: what is parsed, and sizes

    [btf__new] gives from the encoding of any types these types back, in their
    order; and [btf__resolve_size] gives the size of a type as C has it. *)

From S2P Require Import Prelude Io Config Packet PacketSpec Frame Loader Netlink NlattrProps RtnlProps Bytes XskLib Btf.

(** ** Types *)

Record ty := Ty { ty_name : Z; ty_info : Z; ty_size : Z; ty_extra : list Z }.

Definition ty_kind (t : ty) : Z := BTF_INFO_KIND (ty_info t).
Definition ty_vlen (t : ty) : Z := BTF_INFO_VLEN (ty_info t).

(** The words behind a type of a kind, with so many members. *)
Definition extra_words (kind vlen : Z) : option Z :=
  if (kind =? BTF_KIND_FWD) || (kind =? BTF_KIND_CONST) || (kind =? BTF_KIND_VOLATILE) || (kind =? BTF_KIND_RESTRICT)
     || (kind =? BTF_KIND_PTR) || (kind =? BTF_KIND_TYPEDEF) || (kind =? BTF_KIND_FUNC) then Some 0
  else if (kind =? BTF_KIND_INT) || (kind =? BTF_KIND_VAR) then Some 1
  else if kind =? BTF_KIND_ARRAY then Some 3
  else if (kind =? BTF_KIND_ENUM) || (kind =? BTF_KIND_FUNC_PROTO) then Some (2 * vlen)
  else if (kind =? BTF_KIND_STRUCT) || (kind =? BTF_KIND_UNION) || (kind =? BTF_KIND_DATASEC) then Some (3 * vlen)
  else None.

Definition is_u32 (x : Z) : Prop := 0 ≤ x < 2 ^ 32.
Definition ty_ok (t : ty) : Prop :=
  is_u32 (ty_name t) ∧ is_u32 (ty_info t) ∧ is_u32 (ty_size t) ∧ Forall is_u32 (ty_extra t) ∧
  extra_words (ty_kind t) (ty_vlen t) = Some (Z.of_nat (length (ty_extra t))).

Definition encode_ty (t : ty) : list Z :=
  le32 (ty_name t) ++ le32 (ty_info t) ++ le32 (ty_size t) ++ (ty_extra t ≫= le32).
Definition encode_types (T : list ty) : list Z := T ≫= encode_ty.

Definition ty_len (t : ty) : Z := 12 + 4 * Z.of_nat (length (ty_extra t)).

Lemma length_words l : Z.of_nat (length (l ≫= le32)) = 4 * Z.of_nat (length l).
Proof. induction l as [|x l IH]; [done|]. cbn [mbind list_bind]. rewrite length_app, length_le32. cbn [length]. lia. Qed.

Lemma length_encode_ty t : Z.of_nat (length (encode_ty t)) = ty_len t.
Proof. unfold encode_ty, ty_len. rewrite !length_app, !length_le32. pose proof (length_words (ty_extra t)). lia. Qed.

(** The place of every type when they begin at [p]. *)
Fixpoint places (p : Z) (T : list ty) : list Z :=
  match T with [] => [] | t :: T => p :: places (p + ty_len t) T end.

Lemma length_places p T : length (places p T) = length T.
Proof. revert p. induction T as [|t T IH]; intros p; [done|]. cbn. by rewrite IH. Qed.

(** The type at a place of some bytes. *)
Definition ty_at (d : buffer) (p : Z) (t : ty) : Prop := bytes_at d p (encode_ty t).

Lemma bytes_at_take buf p l1 l2 : bytes_at buf p (l1 ++ l2) → bytes_at buf p l1.
Proof. intros H. by apply bytes_at_app in H as [? _]. Qed.

Lemma places_lookup d p T i t q :
  bytes_at d p (encode_types T) → T !! i = Some t → places p T !! i = Some q → ty_at d q t.
Proof.
  revert p i. induction T as [|t' T IH]; intros p i Hd Hi Hq; [done|]. unfold encode_types in Hd. cbn [mbind list_bind] in Hd.
  apply bytes_at_app in Hd as [H1 H2]. rewrite length_encode_ty in H2.
  destruct i as [|i]; [injection Hi as <-; injection Hq as <-; done|]. by apply (IH (p + ty_len t') i).
Qed.

(** ** Reading a type *)

Lemma load32_at d p v : bytes_at d p (le32 v) → is_u32 v → load32 d p = Ok v.
Proof. intros Hb Hv. rewrite (load32_bytes d p v []) by (by rewrite app_nil_r). by rewrite u32_small. Qed.

Section reading.
Variables (b : btf) (d : buffer).
Hypothesis Hd : data b = Some d.

Lemma word_eq off : word b off = load32 d off.
Proof. unfold word, the_data. by rewrite Hd. Qed.

Section one.
Variables (p : Z) (t : ty).
Hypotheses (Hat : ty_at d p t) (Hok : ty_ok t).

Lemma t_parts : t_name_off b (TypeAt p) = Ok (ty_name t) ∧ t_info b (TypeAt p) = Ok (ty_info t) ∧
  t_size b (TypeAt p) = Ok (ty_size t) ∧ t_type b (TypeAt p) = Ok (ty_size t).
Proof.
  destruct Hok as (H1 & H2 & H3 & _). unfold ty_at, encode_ty in Hat.
  apply bytes_at_app in Hat as [Ha Hb]. apply bytes_at_app in Hb as [Hb Hc]. apply bytes_at_app in Hc as [Hc _].
  rewrite !length_le32 in Hb. rewrite !length_le32 in Hc. change (Z.of_nat 4) with 4 in *.
  unfold t_name_off, t_info, t_type, t_size, t_word. rewrite !word_eq, Z.add_0_r.
  replace (p + 4 + 4) with (p + 8) in Hc by lia.
  rewrite (load32_at _ _ _ Ha), (load32_at _ _ _ Hb), (load32_at _ _ _ Hc) by done. done.
Qed.

Lemma t_extra_at i v : ty_extra t !! i = Some v → t_extra b (TypeAt p) (Z.of_nat i) = Ok v.
Proof.
  intros Hi. destruct Hok as (_ & _ & _ & H4 & _). unfold ty_at, encode_ty in Hat.
  rewrite !app_assoc in Hat. apply bytes_at_app in Hat as [_ Hx]. rewrite !length_app, !length_le32 in Hx.
  cbn [t_extra]. rewrite word_eq. change (Z.of_nat (4 + 4 + 4)) with 12 in Hx.
  assert (∀ l q, bytes_at d q (l ≫= le32) → ∀ j w, l !! j = Some w → bytes_at d (q + 4 * Z.of_nat j) (le32 w)) as Hw.
  { clear. induction l as [|x l IH]; intros q Hq j w Hj; [done|]. cbn [mbind list_bind] in Hq.
    apply bytes_at_app in Hq as [Hx Hl]. rewrite length_le32 in Hl.
    destruct j as [|j]; [injection Hj as ->; by rewrite Z.add_0_r|].
    replace (q + 4 * Z.of_nat (S j)) with (q + Z.of_nat 4 + 4 * Z.of_nat j) by lia. by apply IH. }
  apply load32_at; [by eapply Hw|]. by eapply Forall_lookup_1 in H4.
Qed.

Lemma kind_at : btf_kind b (TypeAt p) = Ok (ty_kind t) ∧ btf_vlen b (TypeAt p) = Ok (ty_vlen t).
Proof.
  unfold btf_kind, btf_vlen, ty_kind, ty_vlen. rewrite (proj1 (proj2 t_parts)). cbn [mbind res_bind].
  assert (0 ≤ BTF_INFO_KIND (ty_info t) < 2 ^ 4) as Hk by (apply land_below; lia).
  assert (0 ≤ BTF_INFO_VLEN (ty_info t) < 2 ^ 16) as Hv by (apply land_below; lia).
  by rewrite !u16_small by lia.
Qed.

(** Every number below a bound. *)
Ltac each_below n := first [exfalso; lia | destruct n as [|n]; [|each_below n]].

Lemma kind_cases t' : ∃ n, (n < 16)%nat ∧ ty_kind t' = nth n [0; 1; 2; 3; 4; 5; 6; 7; 8; 9; 10; 11; 12; 13; 14; 15] 0.
Proof.
  assert (0 ≤ ty_kind t' < 2 ^ 4) as Hk by (apply land_below; lia). revert Hk. generalize (ty_kind t'). intros k Hk.
  exists (Z.to_nat k). split; [lia|].
  replace k with (Z.of_nat (Z.to_nat k)) at 1 by lia. assert (Z.to_nat k < 16)%nat as Hn by lia. revert Hn.
  generalize (Z.to_nat k). intros n Hn. each_below n; reflexivity.
Qed.

Lemma type_size_at : btf_type_size b (TypeAt p) = Ok (ty_len t).
Proof.
  unfold btf_type_size. rewrite (proj2 kind_at). cbn [mbind res_bind]. rewrite (proj1 kind_at). cbn [mbind res_bind].
  destruct Hok as (_ & _ & _ & _ & Hx). unfold ty_len in *. f_equal.
  destruct (kind_cases t) as (n & Hn & E). rewrite E in *.
  each_below n; lazy -[Z.mul Z.add Z.of_nat length ty_vlen ty_extra] in Hx |- *; try discriminate; injection Hx as Hx; lia.
Qed.
End one.
End reading.

(** ** Parsing *)

(** What a struct btf says of types [T] in the bytes [d]. *)
Record holds (b : btf) (d : buffer) (T : list ty) : Prop := {
  h_data : data b = Some d;
  h_nr : nr_types b = Z.of_nat (length T);
  h_len : length (types b) = S (length T);
  h_void : types b !! O = Some VoidType;
  h_at : ∀ i t, T !! i = Some t → ∃ p, types b !! S i = Some (TypeAt p) ∧ ty_at d p t
}.

(** The array while it grows: NULL, or with room. *)
Definition room (b : btf) : Prop :=
  (types b = [] ∧ nr_types b = 0 ∧ types_size b = 0) ∨
  (Z.of_nat (length (types b)) = nr_types b + 1 ∧ nr_types b < types_size b ≤ 2 * nr_types b + 32 ∧ types b !! O = Some VoidType).

Definition null_types (b : btf) : bool := types_size b =? 0.
Definition block (b : bool) : Z := if b then 1 else 0.

Section parsing.
Context {K : Type} `{MemLaws K}.

Lemma add_type_spec b t (k : K) :
  room b → 0 ≤ nr_types b < 2 ^ 29 →
  wp (btf_add_type b t) (λ r k', ∃ err b', r = Ok (err, b') ∧
    data b' = data b ∧ strings b' = strings b ∧ data_size b' = data_size b ∧ btf_fd b' = btf_fd b ∧
    blocks k' + block (null_types b') = blocks k + block (null_types b) ∧
    ((err = - ENOMEM ∧ b' = b) ∨
     (err = 0 ∧ room b' ∧ nr_types b' = nr_types b + 1 ∧ types b' = (if null_types b then [VoidType] else types b) ++ [t]))) k.
Proof.
  intros Hroom Hnr. unfold btf_add_type. apply wp_bind.
  destruct (Z.ltb_spec (u32 (types_size b - nr_types b)) 2) as [Hfull|Hfree].
  - destruct (Z.eqb_spec (types_size b) BTF_MAX_NR_TYPES) as [E|_]; [exfalso; destruct Hroom as [(_ & _ & Hz)|(_ & Hs & _)]; unfold BTF_MAX_NR_TYPES in *; lia|].
    set (size := Z.min BTF_MAX_NR_TYPES (u32 (types_size b + Z.max (Z.shiftr (types_size b) 2) 16))).
    assert (nr_types b + 2 ≤ size ≤ 2 * (nr_types b + 1) + 30) as Hsize.
    { assert (0 ≤ types_size b < 2 ^ 31 ∧ types_size b ≤ nr_types b + 1 ∧ nr_types b ≤ types_size b) as Hb.
      { revert Hfull. unfold u32. destruct Hroom as [(_ & -> & ->)|(_ & Hs & _)]; [intros _; lia|]. rewrite Z.mod_small by lia. lia. }
      unfold size, BTF_MAX_NR_TYPES. rewrite Z.shiftr_div_pow2 by lia.
      assert (0 ≤ types_size b / 2 ^ 2 ≤ types_size b) by dlia. rewrite u32_small by dlia. dlia. }
    apply wp_bind, wp_call. intros ok k' E.
    assert (blocks k' = blocks k + block (ok && null_types b)) as Hk.
    { revert E. unfold null_types. destruct (types_size b =? 0); cbn [negb]; intros E.
      - pose proof (malloc_blocks (8 * size) k) as Hm. rewrite E in Hm. cbn in Hm. destruct ok; cbn; lia.
      - pose proof (realloc_blocks (8 * size) k) as Hm. rewrite E in Hm. cbn in Hm. destruct ok; cbn; lia. }
    destruct ok; cbn [negb andb] in *; apply wp_ret.
    + cbn [Z.eqb negb with_types nr_types types_size types]. rewrite u32_small by lia.
      destruct (Z.leb_spec size (nr_types b + 1)); [lia|]. apply wp_ret. eexists _, _. split; [reflexivity|].
      cbn [data strings data_size btf_fd with_types]. do 4 (split; [done|]).
      unfold null_types at 1. cbn [types_size with_types]. rewrite (proj2 (Z.eqb_neq _ _)) by lia. cbn [block].
      split; [unfold null_types in *; destruct (types_size b =? 0); cbn [block] in *; lia|]. right. split; [done|].
      assert ((if nr_types b =? 0 then [VoidType] else types b) = (if null_types b then [VoidType] else types b)) as Et.
      { unfold null_types. destruct Hroom as [(-> & -> & ->)|(Hlt & Hs & Hv)]; [done|].
        rewrite (proj2 (Z.eqb_neq (types_size b) 0)) by lia. destruct (Z.eqb_spec (nr_types b) 0) as [E0|]; [|done].
        destruct (types b) as [|v [|]]; cbn in *; try lia. by injection Hv as ->. }
      rewrite Et. split; [|done]. right. cbn [types nr_types types_size with_types]. rewrite length_app. cbn [length].
      unfold null_types in *. destruct Hroom as [(E1 & E2 & E3)|(Hlt & Hs & Hv)]; [rewrite E3, E2; cbn; split; [done|]; split; [lia|done]|].
      rewrite (proj2 (Z.eqb_neq (types_size b) 0)) in * by lia. split; [lia|]. split; [lia|]. by apply lookup_app_l_Some.
    + apply wp_ret. eexists _, _. split; [reflexivity|]. do 4 (split; [done|]). split; [unfold block in *; cbn in Hk; lia|]. by left.
  - apply wp_ret. cbn [Z.eqb negb].
    assert (types_size b ≠ 0 ∧ nr_types b + 2 ≤ types_size b) as [Hnz Hle].
    { revert Hfree. unfold u32. destruct Hroom as [(_ & -> & ->)|(_ & Hs & _)]; [done|]. rewrite Z.mod_small by lia. lia. }
    rewrite u32_small by lia. destruct (Z.leb_spec (types_size b) (nr_types b + 1)); [lia|]. apply wp_ret.
    eexists _, _. split; [reflexivity|]. cbn [data strings data_size btf_fd with_types]. do 4 (split; [done|]).
    unfold null_types. cbn [types_size with_types types]. rewrite (proj2 (Z.eqb_neq (types_size b) 0)) by done.
    split; [done|]. right. split; [done|]. split; [|done].
    destruct Hroom as [(_ & _ & Hz)|(Hlt & Hs & Hv)]; [done|]. right. cbn [types nr_types types_size with_types].
    rewrite length_app. cbn [length]. split; [lia|]. split; [lia|]. by apply lookup_app_l_Some.
Qed.

Lemma ty_len_ge t : 12 ≤ ty_len t.
Proof. unfold ty_len. lia. Qed.

Definition stored (b : btf) : list type_ptr := if null_types b then [VoidType] else types b.

Lemma type_sec_loop_spec fuel b T p d (k : K) :
  data b = Some d → bytes_at d p (encode_types T) → Forall ty_ok T → room b → 0 ≤ nr_types b →
  nr_types b + Z.of_nat (length T) < 2 ^ 29 → (length (encode_types T) ≤ fuel)%nat →
  wp (type_sec_loop fuel b p (p + Z.of_nat (length (encode_types T)))) (λ r k', ∃ err b', r = Ok (err, b') ∧
    data b' = data b ∧ strings b' = strings b ∧ data_size b' = data_size b ∧ btf_fd b' = btf_fd b ∧
    blocks k' + block (null_types b') = blocks k + block (null_types b) ∧
    (err = - ENOMEM ∨
     (err = 0 ∧ nr_types b' = nr_types b + Z.of_nat (length T) ∧
      types b' = (match T with [] => types b | _ => stored b end) ++ (TypeAt <$> places p T) ∧
      null_types b' = match T with [] => null_types b | _ => false end))) k.
Proof.
  revert b T p k. induction fuel as [|fuel IH]; intros b T p k Hd Hat Hok Hroom Hnr0 Hnr Hfuel;
    (destruct T as [|t T]; [cbn [type_sec_loop encode_types mbind list_bind length]; rewrite Z.add_0_r, Z.ltb_irrefl;
      apply wp_ret; exists 0, b; do 6 (split; [done|]); right; split; [done|]; split; [cbn; lia|]; cbn; by rewrite app_nil_r|]);
    change (encode_types (t :: T)) with (encode_ty t ++ encode_types T) in *; rewrite length_app in *;
    pose proof (length_encode_ty t) as Hlt; pose proof (ty_len_ge t) as Hge; [lia|].
  inversion_clear Hok as [|? ? Ht HT]. apply bytes_at_app in Hat as [Hat1 Hat2]. rewrite Hlt in Hat2.
  cbn [type_sec_loop]. rewrite (proj2 (Z.ltb_lt _ _)) by lia.
  rewrite (type_size_at b d Hd p t Hat1 Ht). apply wp_bind, wp_pure. rewrite (proj2 (Z.ltb_ge _ _)) by lia.
  cbn [length] in Hnr. apply wp_bind. eapply wp_mono; [apply (add_type_spec b (TypeAt p)); [done|lia]|].
  intros r k1 (err & b1 & -> & Hd1 & Hs1 & Hz1 & Hf1 & Hb1 & [[-> ->]|(-> & Hr1 & Hn1 & Ht1)]); cbn [Z.eqb negb ENOMEM Z.opp].
  { apply wp_ret. exists (- ENOMEM), b. do 5 (split; [done|]). split; [done|]. by left. }
  assert (null_types b1 = false) as Hnull.
  { unfold null_types. destruct Hr1 as [(E & _)|(_ & Hs & _)]; [|apply Z.eqb_neq; lia]. rewrite Ht1 in E. by destruct (if null_types b then _ else _). }
  replace (p + Z.of_nat (length (encode_ty t) + length (encode_types T))) with (p + ty_len t + Z.of_nat (length (encode_types T))) by lia.
  eapply wp_mono; [apply (IH b1 T (p + ty_len t) k1); try done; [by rewrite Hd1|lia|lia|lia]|].
  intros r k2 (err & b2 & -> & Hd2 & Hs2 & Hz2 & Hf2 & Hb2 & Hres). exists err, b2. split; [done|].
  split; [congruence|]. split; [congruence|]. split; [congruence|]. split; [congruence|]. split; [lia|].
  destruct Hres as [->|(-> & Hn2 & Hts & Hnul)]; [by left|right]. split; [done|]. cbn [length]. split; [lia|].
  split; [|rewrite Hnul; by destruct T].
  assert (types b2 = types b1 ++ (TypeAt <$> places (p + ty_len t) T)) as ->.
  { rewrite Hts. unfold stored. rewrite Hnull. by destruct T. }
  rewrite Ht1. unfold stored. by rewrite <-app_assoc.
Qed.
End parsing.

(** ** A whole section *)

Definition encode_btf (T : list ty) (strs : list Z) : list Z :=
  le16 BTF_MAGIC ++ [BTF_VERSION; 0] ++ le32 24 ++ le32 0 ++ le32 (Z.of_nat (length (encode_types T)))
  ++ le32 (Z.of_nat (length (encode_types T))) ++ le32 (Z.of_nat (length strs)) ++ encode_types T ++ strs.

(** Names begin with the empty one and end with a zero. *)
Record strings_ok (strs : list Z) : Prop := {
  so_first : strs !! O = Some 0;
  so_last : last strs = Some 0;
  so_octets : octets_ok strs;
  so_len : Z.of_nat (length strs) < 2 ^ 31
}.

Definition blocks_of (b : btf) : Z :=
  1 + (match data b with Some _ => 1 | None => 0 end) + (if null_types b then 0 else 1).

Section freeing.
Context {K : Type} `{MemLaws K}.
Variable close : Z → K → K.

Lemma btf_free_spec b (k : K) :
  btf_fd b = -1 → wp (btf__free close (Some b)) (λ r k', r = Ok tt ∧ blocks k' = blocks k - blocks_of b) k.
Proof.
  intros Hfd. unfold btf__free, blocks_of, free_if. rewrite Hfd. cbn [Z.eqb Pos.eqb negb]. apply wp_bind, wp_ret.
  change (negb (types_size b =? 0)) with (negb (null_types b)).
  destruct (data b), (null_types b); cbn [negb]; wp_steps; rewrite ?free_blocks; (split; [done|lia]).
Qed.

Lemma new_done_error err b (k0 k : K) :
  btf_fd b = -1 → err ≠ 0 → blocks k = blocks k0 + blocks_of b →
  wp (new_done close err b) (λ r k', r = Ok (inl err) ∧ blocks k' = blocks k0) k.
Proof.
  intros Hfd Herr Hk. unfold new_done. rewrite (proj2 (Z.eqb_neq _ _)) by done. cbn [negb].
  apply wp_bind. eapply wp_mono; [by apply btf_free_spec|]. intros r k' [-> Hk']. apply wp_ret. split; [done|lia].
Qed.

End freeing.

Section section.
Variables (T : list ty) (strs : list Z).
Hypotheses (HT : T ≠ []) (Hok : Forall ty_ok T) (Hs : strings_ok strs)
  (Hsmall : Z.of_nat (length (encode_types T)) < 2 ^ 31 ∧ Z.of_nat (length T) < 2 ^ 29).

Abbreviation d := (encode_btf T strs).
Abbreviation tlen := (Z.of_nat (length (encode_types T))).

Lemma header_parts :
  bytes_at d 0 (le16 BTF_MAGIC) ∧ bytes_at d 2 [BTF_VERSION; 0] ∧ bytes_at d 8 (le32 0) ∧ bytes_at d 16 (le32 tlen) ∧
  bytes_at d 20 (le32 (Z.of_nat (length strs))) ∧ bytes_at d 24 (encode_types T) ∧ bytes_at d (24 + tlen) strs.
Proof.
  assert (bytes_at d 0 d) as H by (exists [], []; by rewrite app_nil_r). revert H.
  generalize d at 1 3 4 5 6 7 8 9. intros buf H. unfold encode_btf in H.
  apply bytes_at_app in H as [H1 H]. split; [done|].
  apply bytes_at_app in H as [H2 H]. split; [done|].
  apply bytes_at_app in H as [_ H]. apply bytes_at_app in H as [H3 H]. split; [done|].
  apply bytes_at_app in H as [_ H]. apply bytes_at_app in H as [H4 H]. split; [done|].
  apply bytes_at_app in H as [H5 H]. split; [done|].
  apply bytes_at_app in H as [H6 H]. split; [done|]. done.
Qed.

Lemma length_d : Z.of_nat (length d) = 24 + tlen + Z.of_nat (length strs).
Proof. unfold encode_btf. rewrite !length_app, !length_le32. cbn [length le16]. lia. Qed.

Lemma types_pos : 12 ≤ tlen.
Proof.
  destruct T as [|t T']; [done|]. change (encode_types (t :: T')) with (encode_ty t ++ encode_types T').
  rewrite length_app. pose proof (length_encode_ty t). pose proof (ty_len_ge t). lia.
Qed.

Lemma strs_pos : 0 < Z.of_nat (length strs).
Proof. destruct Hs as [H1 _ _ _]. destruct strs; cbn in *; [done|lia]. Qed.

Lemma word_hdr b p v : data b = Some d → bytes_at d p (le32 v) → is_u32 v → word b p = Ok v.
Proof. intros Hd Hp Hv. rewrite (word_eq b d Hd). by apply load32_at. Qed.

Lemma parse_hdr b : data b = Some d → data_size b = Z.of_nat (length d) → btf_parse_hdr b = Ok 0.
Proof.
  intros Hd Hz. destruct header_parts as (H1 & H2 & H3 & H4 & _). pose proof length_d. pose proof types_pos. pose proof strs_pos.
  destruct Hs as [_ _ _ Hlen]. unfold btf_parse_hdr, the_data, sizeof_btf_header. rewrite Hd. cbn [or_fault mbind res_bind].
  rewrite (proj2 (Z.ltb_ge _ _)) by lia.
  rewrite (load16_bytes d 0 BTF_MAGIC []) by (by rewrite app_nil_r). cbn [mbind res_bind].
  rewrite (byte_at_bytes d 2 BTF_VERSION [0]) by done. cbn [mbind res_bind].
  rewrite (byte_at_bytes d 3 0 [] (proj2 (bytes_at_app d 2 [BTF_VERSION] [0] H2))). cbn [mbind res_bind].
  unfold hdr_type_off, hdr_str_off. rewrite (word_hdr b 8 0 Hd H3) by (unfold is_u32; lia). cbn [mbind res_bind].
  rewrite (word_hdr b 16 tlen Hd H4) by (unfold is_u32; lia). cbn [mbind res_bind].
  change (u16 BTF_MAGIC =? BTF_MAGIC) with true. change (BTF_VERSION =? BTF_VERSION) with true. cbn [negb Z.eqb].
  rewrite (proj2 (Z.eqb_neq _ _)) by lia. rewrite (proj2 (Z.ltb_ge _ 0)), (proj2 (Z.ltb_ge _ tlen)), (proj2 (Z.leb_gt _ _)) by lia. done.
Qed.

Lemma parse_str b : data b = Some d → btf_parse_str_sec b = Ok (0, 24 + tlen).
Proof.
  intros Hd. destruct header_parts as (_ & _ & _ & H4 & H5 & _ & H7). pose proof strs_pos. pose proof types_pos.
  destruct Hs as [Hf Hl Ho Hlen]. unfold btf_parse_str_sec, hdr_str_off, hdr_str_len, the_data, sizeof_btf_header.
  rewrite (word_hdr b 16 tlen Hd H4) by (unfold is_u32; lia). cbn [mbind res_bind].
  rewrite (word_hdr b 20 _ Hd H5) by (unfold is_u32; lia). cbn [mbind res_bind]. rewrite Hd. cbn [mbind res_bind or_fault].
  rewrite (proj2 (Z.eqb_neq _ 0)) by lia. rewrite u32_small by lia. unfold BTF_MAX_STR_OFFSET.
  rewrite (proj2 (Z.ltb_ge _ _)) by lia. cbn [orb].
  assert (∃ rest, strs = 0 :: rest) as [rest Er] by (destruct strs as [|s0 rest]; [done|injection Hf as ->; by eexists]).
  assert (∃ init, strs = init ++ [0]) as [init Ei].
  { destruct (exists_last (l := strs)) as (init & z & Ez); [by rewrite Er|]. exists init.
    rewrite Ez, last_snoc in Hl. by injection Hl as ->. }
  assert (bytes_at d (24 + tlen) (0 :: rest)) as H7a by (by rewrite <-Er). rewrite (byte_at_bytes _ _ _ _ H7a).
  cbn [mbind res_bind Z.eqb negb].
  assert (bytes_at d (24 + tlen) (init ++ [0])) as H7b by (by rewrite <-Ei). apply bytes_at_app in H7b as [_ H7b].
  assert (Z.of_nat (length strs) = Z.of_nat (length init) + 1) as -> by (rewrite Ei, length_app; cbn [length]; lia).
  replace (24 + tlen + (Z.of_nat (length init) + 1) - 1) with (24 + tlen + Z.of_nat (length init)) by lia.
  by rewrite (byte_at_bytes _ _ _ _ H7b).
Qed.

Section new.
Context {K : Type} `{MemLaws K}.
Variable close : Z → K → K.

(** The types and names are there. *)
Definition parsed (b : btf) : Prop :=
  holds b d T ∧ strings b = 24 + tlen ∧ btf_fd b = -1 ∧ null_types b = false.

Lemma parsed_intro b :
  data b = Some d → strings b = 24 + tlen → btf_fd b = -1 → null_types b = false → nr_types b = Z.of_nat (length T) →
  types b = VoidType :: (TypeAt <$> places 24 T) → parsed b.
Proof.
  intros Hd Hst Hfd Hn Hnr Hty. split; [|done]. split; [done|done| | |].
  - rewrite Hty. cbn [length]. by rewrite length_fmap, length_places.
  - by rewrite Hty.
  - intros i t Hi. destruct (lookup_lt_is_Some_2 (places 24 T) i) as [p Hp];
      [rewrite length_places; by eapply lookup_lt_Some|].
    exists p. rewrite Hty. change ((TypeAt <$> places 24 T) !! i = Some (TypeAt p) ∧ ty_at d p t).
    rewrite list_lookup_fmap, Hp. split; [done|].
    eapply places_lookup; [apply header_parts|done|done].
Qed.

Lemma btf_new_spec (k : K) :
  wp (btf__new close d (Z.of_nat (length d))) (λ r k',
    (r = Ok (inl (- ENOMEM)) ∧ blocks k' = blocks k) ∨
    ∃ b, r = Ok (inr b) ∧ parsed b ∧ blocks k' = blocks k + blocks_of b) k.
Proof.
  destruct header_parts as (_ & _ & H3 & H4 & _ & H6 & _). pose proof types_pos as Htp. pose proof length_d.
  unfold btf__new. apply wp_bind, wp_call. intros ok k1 E1. pose proof (malloc_blocks 48 k) as Hm1. rewrite E1 in Hm1. cbn [fst snd] in Hm1.
  destruct ok; cbn [negb]; [|apply wp_ret; left; split; [done|lia]].
  apply wp_bind, wp_call. intros ok k2 E2. pose proof (malloc_blocks (Z.of_nat (length d)) k1) as Hm2. rewrite E2 in Hm2. cbn [fst snd] in Hm2.
  destruct ok; cbn [negb];
    [|eapply wp_mono; [apply (new_done_error close _ _ k); [done|done|unfold blocks_of, null_types; cbn [data types_size Z.eqb]; cbn in Hm1, Hm2; lia]|intros r k' [-> ?]; by left]].
  apply wp_bind, wp_pure. rewrite bytes_of_all by done. apply wp_bind, wp_pure.
  rewrite parse_hdr by done. cbn [Z.eqb negb]. apply wp_bind, wp_pure. rewrite parse_str by done. cbn beta iota. cbn [Z.eqb negb].
  set (b := with_strings _ _). apply wp_bind. unfold btf_parse_type_sec, hdr_type_off, hdr_str_off.
  apply wp_bind, wp_pure. rewrite (word_hdr b 8 0) by (done || unfold is_u32; lia).
  apply wp_bind, wp_pure. rewrite (word_hdr b 16 tlen) by (done || unfold is_u32; lia).
  unfold sizeof_btf_header. rewrite Z.sub_0_r, Nat2Z.id. change (24 + 0) with 24.
  eapply wp_mono; [apply (type_sec_loop_spec _ b T 24 d); try done; [by left|cbn; lia]|].
  intros r k3 (err & b' & -> & Hd' & Hs' & _ & Hf' & Hb' & Hres). cbn beta iota.
  change (null_types b) with true in Hb'. cbn [block] in Hb'.
  destruct Hres as [->|(-> & Hn' & Hty' & Hnull)].
  - eapply wp_mono; [apply (new_done_error close _ _ k); [done|done|]|intros r k' [-> ?]; by left].
    unfold blocks_of. rewrite Hd'. cbn [data b with_strings]. destruct (null_types b'); cbn [block] in Hb'; lia.
  - unfold new_done. cbn [Z.eqb negb]. apply wp_ret. right. exists b'. split; [done|].
    assert (null_types b' = false) as Hnf by (rewrite Hnull; by destruct T). split.
    + apply parsed_intro; try done. rewrite Hty'. by destruct T.
    + unfold blocks_of. rewrite Hnf, Hd' in *. cbn [block data b with_strings] in *. lia.
Qed.
End new.
End section.

(** ** Names *)

(** A name of a type is [s]; an offset behind the strings names nothing. *)
Definition named (strs : list Z) (s : list Z) (t : ty) : Prop :=
  ty_name t < Z.of_nat (length strs) ∧ c_bytes (drop (Z.to_nat (ty_name t)) strs) = s.
#[global] Instance named_dec strs s t : Decision (named strs s t).
Proof. unfold named. apply _. Defined.

Lemma bytes_at_drop_n buf p l n :
  bytes_at buf p l → (n ≤ length l)%nat → bytes_at buf (p + Z.of_nat n) (drop n l).
Proof.
  intros H Hn. rewrite <-(take_drop n l) in H. apply bytes_at_app in H as [_ H]. by rewrite length_take, Nat.min_l in H.
Qed.

Lemma name_is_spec buf p rest s :
  bytes_at buf p rest → 0 ∈ rest → Forall (λ c, c ≠ 0) s → name_is buf p s = Ok (bool_decide (c_bytes rest = s)).
Proof.
  revert p rest. induction s as [|x s IH]; intros p rest Hat Hz Hs.
  - destruct rest as [|c rest]; [by apply not_elem_of_nil in Hz|]. cbn [name_is].
    rewrite (byte_at_bytes _ _ _ _ Hat). cbn [mbind res_bind c_bytes]. by destruct (c =? 0).
  - destruct rest as [|c rest]; [by apply not_elem_of_nil in Hz|]. cbn [name_is].
    rewrite (byte_at_bytes _ _ _ _ Hat). cbn [mbind res_bind c_bytes]. inversion_clear Hs as [|? ? Hx Hs'].
    destruct (Z.eqb_spec c x) as [->|Hne].
    + rewrite (proj2 (Z.eqb_neq x 0)) by done. change (x :: rest) with ([x] ++ rest) in Hat.
      apply bytes_at_app in Hat as [_ Hat]. rewrite (IH _ rest) by (done || by apply elem_of_cons in Hz as [|]).
      f_equal. apply bool_decide_ext. split; [by intros ->|by intros [= ->]].
    + destruct (Z.eqb_spec c 0); rewrite bool_decide_false; congruence.
Qed.

Section lookups.
Variables (b : btf) (d : buffer) (T : list ty) (strs : list Z).
Hypotheses (Hh : holds b d T) (Hok : Forall ty_ok T) (Hs : strings_ok strs) (Hstr : bytes_at d (strings b) strs)
  (Hlen : hdr_str_len b = Ok (Z.of_nat (length strs))).

Lemma find_loop_spec ts T' i nm :
  Forall2 (λ p t, ∃ q, p = TypeAt q ∧ ty_at d q t) ts T' → Forall ty_ok T' → c_str nm = true →
  find_loop ts b i nm = Ok (match list_find (named strs (char_bytes nm)) T' with Some (j, _) => i + Z.of_nat j | None => - ENOENT end).
Proof.
  intros Hts HT Hnm. revert i. induction Hts as [|p t ts T' (q & -> & Hq) Hts IH]; intros i; [done|].
  inversion_clear HT as [|? ? Ht HT']. cbn [find_loop list_find].
  rewrite (proj1 (t_parts b d (h_data _ _ _ Hh) q t Hq Ht)). cbn [mbind res_bind]. unfold btf__name_by_offset. rewrite Hlen.
  cbn [mbind res_bind]. specialize (IH HT' (i + 1)).
  assert ((match list_find (named strs (char_bytes nm)) T' with Some (j, _) => i + 1 + Z.of_nat j | None => - ENOENT end) =
    match prod_map S id <$> list_find (named strs (char_bytes nm)) T' with Some (j, _) => i + Z.of_nat j | None => - ENOENT end) as Hshift.
  { destruct (list_find (named strs (char_bytes nm)) T') as [[j x]|]; [|done]. cbn. lia. }
  destruct (Z.ltb_spec (ty_name t) (Z.of_nat (length strs))) as [Hlt|Hge]; cbn [mbind res_bind or_fault].
  - unfold the_data. rewrite (h_data _ _ _ Hh). cbn [or_fault mbind res_bind].
    destruct Ht as (Hn & _). destruct Hs as [_ Hl _ _].
    rewrite (name_is_spec d _ (drop (Z.to_nat (ty_name t)) strs)).
    + cbn [mbind res_bind]. case_bool_decide as Hc.
      * rewrite decide_True by done. f_equal. lia.
      * rewrite decide_False by (intros [_ ?]; done). by rewrite IH, Hshift.
    + replace (ty_name t) with (Z.of_nat (Z.to_nat (ty_name t))) at 1 by (unfold is_u32 in Hn; lia). apply bytes_at_drop_n; [done|lia].
    + rewrite last_lookup in Hl. apply list_elem_of_lookup. exists (pred (length strs) - Z.to_nat (ty_name t))%nat.
      rewrite lookup_drop, <-Hl. f_equal. unfold is_u32 in Hn. lia.
    + by apply char_nonzero.
  - rewrite decide_False by (intros [? _]; lia). by rewrite IH, Hshift.
Qed.

(** The first type with the name. *)
Lemma find_by_name_spec nm :
  c_str nm = true →
  btf__find_by_name b nm = Ok (if String.eqb nm "void" then 0 else
    match list_find (named strs (char_bytes nm)) T with Some (j, _) => 1 + Z.of_nat j | None => - ENOENT end).
Proof.
  intros Hnm. unfold btf__find_by_name. destruct (String.eqb nm "void"); [done|].
  apply find_loop_spec; [|done|done]. apply Forall2_same_length_lookup_2.
  - rewrite length_drop, (h_len _ _ _ Hh). lia.
  - intros i p t Hp Ht. rewrite lookup_drop in Hp. change (1 + i)%nat with (S i) in Hp. destruct (h_at _ _ _ Hh i t Ht) as (q & Hq & Hat).
    exists q. rewrite Hq in Hp. by injection Hp as <-.
Qed.
End lookups.

(** ** Sizes *)

Definition type_id (T : list ty) (id : Z) (t : ty) : Prop := 1 ≤ id ∧ T !! Z.to_nat (id - 1) = Some t.

Definition sized_kind (k : Z) : bool :=
  (k =? BTF_KIND_INT) || (k =? BTF_KIND_STRUCT) || (k =? BTF_KIND_UNION) || (k =? BTF_KIND_ENUM) || (k =? BTF_KIND_DATASEC).
Definition wrapper_kind (k : Z) : bool :=
  (k =? BTF_KIND_TYPEDEF) || (k =? BTF_KIND_VOLATILE) || (k =? BTF_KIND_CONST) || (k =? BTF_KIND_RESTRICT) || (k =? BTF_KIND_VAR).

(** The dimensions of a type, the size of its elements, and the types between. *)
Inductive base_of (T : list ty) : Z → list Z → Z → nat → Prop :=
  | base_sized id t : type_id T id t → sized_kind (ty_kind t) = true → base_of T id [] (ty_size t) 0
  | base_pointer id t : type_id T id t → ty_kind t = BTF_KIND_PTR → base_of T id [] 8 0
  | base_wrapper id t dims s n : type_id T id t → wrapper_kind (ty_kind t) = true →
      base_of T (ty_size t) dims s n → base_of T id dims s (S n)
  | base_array id t elem index nelems dims s n : type_id T id t → ty_kind t = BTF_KIND_ARRAY →
      ty_extra t = [elem; index; nelems] → base_of T elem dims s n → base_of T id (nelems :: dims) s (S n).

(** [sizeof] of an array. *)
Definition product (l : list Z) : Z := foldr Z.mul 1 l.

Section sizes.
Variables (b : btf) (d : buffer) (T : list ty).
Hypotheses (Hh : holds b d T) (Hok : Forall ty_ok T).

Lemma type_by_id_spec id :
  is_u32 id → ∃ o, btf__type_by_id b id = Ok o ∧
    match o with
    | None => Z.of_nat (length T) < id
    | Some VoidType => id = 0
    | Some (TypeAt p) => ∃ t, type_id T id t ∧ ty_at d p t ∧ ty_ok t
    end.
Proof.
  intros Hid. unfold is_u32 in Hid. unfold btf__type_by_id. rewrite (h_nr _ _ _ Hh).
  destruct (Z.ltb_spec (Z.of_nat (length T)) id) as [|Hle]; [by exists None|].
  destruct (decide (id = 0)) as [->|].
  - change (Z.to_nat 0) with O. rewrite (h_void _ _ _ Hh). by exists (Some VoidType).
  - destruct (lookup_lt_is_Some_2 T (Z.to_nat (id - 1))) as [t Ht]; [lia|].
    destruct (h_at _ _ _ Hh _ _ Ht) as (p & Hp & Hat). replace (S (Z.to_nat (id - 1))) with (Z.to_nat id) in Hp by lia.
    rewrite Hp. exists (Some (TypeAt p)). split; [done|]. exists t. split; [split; [lia|done]|]. split; [done|].
    by eapply Forall_lookup_1 in Hok.
Qed.

Lemma base_of_type id dims s n : base_of T id dims s n → ∃ t, type_id T id t.
Proof. destruct 1; eauto. Qed.

Lemma type_id_unique id t t' : type_id T id t → type_id T id t' → t = t'.
Proof. intros [_ H1] [_ H2]. congruence. Qed.

(** What the loop finds from [id] on. *)
Definition found (n : nat) (id nelems : Z) (r : Z + Z * Z) : Prop :=
  match r with
  | inl e => e = - E2BIG ∨ e = - EINVAL
  | inr (size, ne) => size = -1 ∨ ∃ dims m, base_of T id dims size m ∧ (m < n)%nat ∧ ne = nelems * product dims ∧ is_u32 ne ∧ is_u32 size
  end ∧
  ∀ dims s m, base_of T id dims s m → (m < n)%nat → Forall (λ x, 0 < x) dims → 0 < nelems → nelems * product dims < 2 ^ 32 →
    r = inr (s, nelems * product dims).

Lemma product_pos l : Forall (λ x, 0 < x) l → 0 < product l.
Proof. induction 1 as [|x l Hx _ IH]; [done|]. unfold product in *. cbn [foldr]. nia. Qed.

Lemma found_none n id ne nelems : (∀ dims s m, base_of T id dims s m → (m < n)%nat → False) → found n id nelems (inr (-1, ne)).
Proof. intros Hno. split; [by left|]. intros dims s m Hb Hm. exfalso. eauto. Qed.

Lemma array_words t : ty_ok t → ty_kind t = BTF_KIND_ARRAY →
  ∃ elem index nelems, ty_extra t = [elem; index; nelems] ∧ is_u32 elem ∧ is_u32 nelems.
Proof.
  intros (_ & _ & _ & Hw & Hx) Hk. rewrite Hk in Hx. change (Some 3 = Some (Z.of_nat (length (ty_extra t)))) in Hx.
  assert (length (ty_extra t) = 3%nat) as Hl by (injection Hx; lia). clear Hx.
  destruct (ty_extra t) as [|e [|i [|ne [|]]]]; try discriminate Hl. exists e, i, ne. split; [done|].
  inversion_clear Hw as [|? ? He Hw']. inversion_clear Hw' as [|? ? _ Hw]. by inversion_clear Hw.
Qed.

Lemma base_of_inv id t dims s m :
  type_id T id t → base_of T id dims s m →
  (sized_kind (ty_kind t) = true ∧ dims = [] ∧ s = ty_size t) ∨ (ty_kind t = BTF_KIND_PTR ∧ dims = [] ∧ s = 8) ∨
  (wrapper_kind (ty_kind t) = true ∧ ∃ m', m = S m' ∧ base_of T (ty_size t) dims s m') ∨
  (ty_kind t = BTF_KIND_ARRAY ∧ ∃ elem index nelems dims' m', ty_extra t = [elem; index; nelems] ∧
     dims = nelems :: dims' ∧ m = S m' ∧ base_of T elem dims' s m').
Proof.
  intros Ht. inversion 1 as [? t' Ht'|? t' Ht'|? t' ? ? ? Ht'|? t' ? ? ? ? ? ? Ht']; subst;
    rewrite (type_id_unique _ _ _ Ht Ht') in *; [by left|by right; left|do 2 right; left|do 3 right]; eauto 12.
Qed.

Ltac kinds := unfold sized_kind, wrapper_kind, BTF_KIND_FWD, BTF_KIND_INT, BTF_KIND_STRUCT, BTF_KIND_UNION, BTF_KIND_ENUM, BTF_KIND_DATASEC,
  BTF_KIND_TYPEDEF, BTF_KIND_VOLATILE, BTF_KIND_CONST, BTF_KIND_RESTRICT, BTF_KIND_VAR, BTF_KIND_PTR, BTF_KIND_ARRAY in *; lia.

Lemma base_of_size id dims s m : base_of T id dims s m → is_u32 s.
Proof.
  induction 1 as [id t [_ Ht] _|id t _ _|id t dims s n _ _ _ IH|id t elem index ne dims s n _ _ _ _ IH]; try done.
  eapply Forall_lookup_1 in Ht; [|exact Hok]. by destruct Ht as (_ & _ & ? & _).
Qed.

Lemma found_array n id t elem index ne nelems r :
  type_id T id t → ty_kind t = BTF_KIND_ARRAY → ty_extra t = [elem; index; ne] → is_u32 nelems → is_u32 ne →
  if negb (nelems =? 0) && (UINT32_MAX / nelems <? ne) then found (S n) id nelems (inl (- E2BIG))
  else u32 (nelems * ne) = nelems * ne ∧ (found n elem (nelems * ne) r → found (S n) id nelems r).
Proof.
  intros Ht Ea Ex Hn Hne. unfold is_u32, UINT32_MAX in *.
  assert (∀ dims s m, base_of T id dims s m → ∃ dims' m', dims = ne :: dims' ∧ m = S m' ∧ base_of T elem dims' s m') as Hinv.
  { intros dims s m Hb. destruct (base_of_inv _ _ _ _ _ Ht Hb) as [[? _]|[[? _]|[[? _]|(_ & e & i' & n' & dims' & m' & Ex' & Hrest)]]]; [kinds..|].
    rewrite Ex in Ex'. injection Ex' as <- <- <-. by exists dims', m'. }
  destruct (negb (nelems =? 0) && ((2 ^ 32 - 1) / nelems <? ne)) eqn:Hc.
  - apply andb_true_iff in Hc as [Hz%negb_true_iff%Z.eqb_neq Hlt%Z.ltb_lt]. split; [by left|].
    intros dims s m Hb _ Hpos _ Hprod. exfalso. destruct (Hinv _ _ _ Hb) as (dims' & m' & -> & _).
    inversion_clear Hpos as [|? ? Hp Hpos']. pose proof (product_pos _ Hpos'). change (product (ne :: dims')) with (ne * product dims') in Hprod.
    assert (2 ^ 32 - 1 < nelems * ne) by (Z.div_mod_to_equations; nia).
    nia.
  - assert (nelems * ne < 2 ^ 32) as Hsmall.
    { apply andb_false_iff in Hc as [Hz%negb_false_iff%Z.eqb_eq|Hge%Z.ltb_ge]; [lia|].
      destruct (decide (nelems = 0)); [lia|]. Z.div_mod_to_equations. nia. }
    split; [apply u32_small; nia|]. intros [Hf1 Hf2]. split.
    + destruct r as [e|[size n']]; [done|]. destruct Hf1 as [|(dims & m & Hb & Hm & -> & Hrest)]; [by left|right].
      exists (ne :: dims), (S m). split; [by eapply base_array|]. split; [lia|].
      change (product (ne :: dims)) with (ne * product dims). by rewrite Z.mul_assoc.
    + intros dims s m Hb Hm Hpos Hn0 Hprod. destruct (Hinv _ _ _ Hb) as (dims' & m' & -> & -> & Hb').
      inversion_clear Hpos as [|? ? Hp Hpos']. change (product (ne :: dims')) with (ne * product dims') in *.
      rewrite Z.mul_assoc in *. eapply Hf2; [done|lia|done|nia|done].
Qed.

Lemma resolve_size_loop_spec n id o nelems :
  is_u32 id → is_u32 nelems → btf__type_by_id b id = Ok o →
  ∃ r, resolve_size_loop n b o nelems = Ok r ∧ found n id nelems r.
Proof.
  revert id o nelems. induction n as [|n IH]; intros id o nelems Hid Hne Ho.
  { eexists. split; [done|]. apply found_none. intros. lia. }
  destruct (type_by_id_spec id Hid) as (o' & Ho' & Hcase). rewrite Ho in Ho'. injection Ho' as <-. cbn [resolve_size_loop].
  destruct o as [[|p]|]; cbn [btf_type_is_void_or_null btf_type_is_void mbind res_bind].
  - eexists. split; [done|]. apply found_none. intros dims s m (t & Ht & _)%base_of_type _. lia.
  - destruct Hcase as (t & Ht & Hat & Hty). unfold btf_is_fwd, is_kind.
    pose proof (h_data _ _ _ Hh) as Hd. rewrite (proj1 (kind_at b d Hd p t Hat Hty)). cbn [mbind res_bind].
    destruct (Z.eqb_spec (ty_kind t) BTF_KIND_FWD) as [Ef|Enf].
    { eexists. split; [done|]. apply found_none. intros dims s m Hb _.
      destruct (base_of_inv _ _ _ _ _ Ht Hb) as [[? _]|[[? _]|[[? _]|[? _]]]]; kinds. }
    fold (sized_kind (ty_kind t)). destruct (sized_kind (ty_kind t)) eqn:Esz.
    { rewrite (proj1 (proj2 (proj2 (t_parts b d Hd p t Hat Hty)))). cbn [mbind res_bind]. eexists. split; [done|]. split.
      - right. exists [], O. split; [by eapply base_sized|]. split; [lia|]. split; [cbn; lia|]. split; [done|]. by destruct Hty as (_ & _ & ? & _).
      - intros dims s m Hb _ _ _ _. destruct (base_of_inv _ _ _ _ _ Ht Hb) as [(_ & -> & ->)|[[? _]|[[? _]|[? _]]]]; [|kinds..].
        cbn. by rewrite Z.mul_1_r. }
    destruct (Z.eqb_spec (ty_kind t) BTF_KIND_PTR) as [Ep|Enp].
    { eexists. split; [done|]. split.
      - right. exists [], O. split; [by eapply base_pointer|]. split; [lia|]. split; [cbn; lia|]. split; [done|]. unfold is_u32. lia.
      - intros dims s m Hb _ _ _ _. destruct (base_of_inv _ _ _ _ _ Ht Hb) as [[? _]|[(_ & -> & ->)|[[? _]|[? _]]]]; [kinds| |kinds..].
        cbn. by rewrite Z.mul_1_r. }
    fold (wrapper_kind (ty_kind t)). destruct (wrapper_kind (ty_kind t)) eqn:Ew.
    { rewrite (proj2 (proj2 (proj2 (t_parts b d Hd p t Hat Hty)))). cbn [mbind res_bind].
      assert (is_u32 (ty_size t)) as Hsz by (by destruct Hty as (_ & _ & ? & _)).
      destruct (type_by_id_spec _ Hsz) as (o2 & Ho2 & _). rewrite Ho2. cbn [mbind res_bind].
      destruct (IH _ _ nelems Hsz Hne Ho2) as (r & Hr & Hf1 & Hf2). exists r. split; [done|]. split.
      - destruct r as [e|[size ne]]; [done|]. destruct Hf1 as [|(dims & m & Hb & Hm & Hrest)]; [by left|right].
        exists dims, (S m). split; [by eapply base_wrapper|]. split; [lia|done].
      - intros dims s m Hb Hm. destruct (base_of_inv _ _ _ _ _ Ht Hb) as [[? _]|[[? _]|[(_ & m' & -> & Hb')|[? _]]]]; [kinds|kinds| |kinds].
        apply (Hf2 _ _ m'); [done|lia]. }
    destruct (Z.eqb_spec (ty_kind t) BTF_KIND_ARRAY) as [Ea|Ena].
    + destruct (array_words t Hty Ea) as (elem & index & ne & Ex & He & Hn).
      unfold array_nelems, array_type. change 2 with (Z.of_nat 2). change 0 with (Z.of_nat 0).
      rewrite (t_extra_at b d Hd p t Hat Hty 2 ne), (t_extra_at b d Hd p t Hat Hty 0 elem) by (by rewrite Ex). cbn [mbind res_bind].
      change (Z.of_nat 0) with 0.
      destruct (type_by_id_spec elem He) as (o2 & Ho2 & _).
      destruct (negb (nelems =? 0) && (UINT32_MAX / nelems <? ne)) eqn:Hc.
      * eexists. split; [done|]. pose proof (found_array n id t elem index ne nelems (inl 0) Ht Ea Ex Hne Hn) as Hfa. by rewrite Hc in Hfa.
      * rewrite Ho2. cbn [mbind res_bind].
        destruct (IH elem o2 (u32 (nelems * ne)) He (u32_range _) Ho2) as (r & Hr & Hf). exists r. split; [done|].
        pose proof (found_array n id t elem index ne nelems r Ht Ea Ex Hne Hn) as Hfa. rewrite Hc in Hfa. destruct Hfa as [Hu Hfa].
        apply Hfa. by rewrite <-Hu.
    + eexists. split; [done|]. split; [by right|]. intros dims s m Hb _.
      destruct (base_of_inv _ _ _ _ _ Ht Hb) as [[? _]|[[? _]|[[? _]|[? _]]]]; kinds.
  - eexists. split; [done|]. apply found_none. intros dims s m (t & Ht & Hl)%base_of_type _. apply lookup_lt_Some in Hl. lia.
Qed.
End sizes.

(** ** The properties *)

(** C35: Encoding and parsing type information, for all types in the form of <linux/btf.h>, any strings that begin and end
    with zero, and any failure of malloc.  [btf__new] gives -ENOMEM with the blocks it had, or a struct that holds exactly
    these types in their order with btf_void in front; in it [btf__find_by_name] gives the id of the first type
    with a name, 0 for void, -ENOENT for a name that no type has; and
    [btf__free] gives all of it back. *)
Theorem btf_new_holds_the_types {K : Type} {MO : MemOps K} {ML : MemLaws K} close T strs (k : K) :
  T ≠ [] → Forall ty_ok T → strings_ok strs →
  Z.of_nat (length (encode_types T)) < 2 ^ 31 ∧ Z.of_nat (length T) < 2 ^ 29 →
  let d := encode_btf T strs in
  let '(r, k1) := btf__new close d (Z.of_nat (length d)) k in
  (r = Ok (inl (- ENOMEM)) ∧ blocks k1 = blocks k) ∨
  ∃ b, r = Ok (inr b) ∧ holds b d T ∧
    (∀ nm, c_str nm = true → btf__find_by_name b nm = Ok (if String.eqb nm "void" then 0 else
       match list_find (named strs (char_bytes nm)) T with Some (j, _) => 1 + Z.of_nat j | None => - ENOENT end)) ∧
    ∀ k2, blocks k2 = blocks k1 → ∃ k3, btf__free close (Some b) k2 = (Ok tt, k3) ∧ blocks k3 = blocks k.
Proof.
  intros HT Hok Hs Hsmall d. destruct (btf__new close d (Z.of_nat (length d)) k) as [r k1] eqn:E.
  destruct (wp_run_eq _ _ _ _ _ (btf_new_spec T strs HT Hok Hs Hsmall close k) E)
    as [[-> Hb]|(b & -> & (Hh & Hstr & Hfd & Hn) & Hb)]; [by left|right].
  exists b. split; [done|]. split; [done|]. split.
  - intros nm Hnm. destruct (header_parts T strs) as (_ & _ & _ & _ & H5 & _ & H7).
    apply (find_by_name_spec b d T strs Hh Hok Hs); [by rewrite Hstr| |done].
    apply (word_hdr T strs); [apply (h_data _ _ _ Hh)|done|]. destruct Hs as [_ _ _ Hl]. unfold is_u32. lia.
  - intros k2 Hk2. destruct (btf__free close (Some b) k2) as [r k3] eqn:Ef.
    destruct (wp_run_eq _ _ _ _ _ (btf_free_spec close b k2 Hfd) Ef) as [-> Hf]. exists k3. split; [done|lia].
Qed.

(** What [btf__resolve_size] makes of what its loop found. *)
Definition size_of_found (r : Z + Z * Z) : Z :=
  match r with
  | inl err => err
  | inr (size, nelems) =>
      if size <? 0 then - EINVAL
      else if negb (nelems =? 0) && (UINT32_MAX / nelems <? size) then - E2BIG else nelems * size
  end.

Lemma size_of_found_spec T id n r :
  Forall ty_ok T → found T n id 1 r →
  let v := size_of_found r in
  (0 ≤ v → v < 2 ^ 32 ∧ ∃ dims s m, base_of T id dims s m ∧ (m < n)%nat ∧ v = product dims * s) ∧
  (v < 0 → v = - EINVAL ∨ v = - E2BIG) ∧
  ∀ dims s m, base_of T id dims s m → (m < n)%nat → Forall (λ x, 0 < x) dims → product dims * s < 2 ^ 32 →
    product dims < 2 ^ 32 → v = product dims * s.
Proof.
  intros Hok [Hf1 Hf2]. cbn zeta. destruct r as [e|[size ne]].
  - cbn [size_of_found]. split; [destruct Hf1 as [-> | ->]; done|]. split; [destruct Hf1 as [-> | ->]; auto|].
    intros dims s m Hb Hm Hp _ Hsz. exfalso. specialize (Hf2 dims s m Hb Hm Hp). rewrite Z.mul_1_l in Hf2. by specialize (Hf2 ltac:(lia) Hsz).
  - assert (∀ dims s m, base_of T id dims s m → (m < n)%nat → Forall (λ x, 0 < x) dims → product dims < 2 ^ 32 →
      size = s ∧ ne = product dims) as Hf3.
    { intros dims s m Hb Hm Hp Hsz. specialize (Hf2 dims s m Hb Hm Hp). rewrite Z.mul_1_l in Hf2. specialize (Hf2 ltac:(lia) Hsz). by injection Hf2 as -> ->. }
    unfold size_of_found. destruct (Z.ltb_spec size 0) as [Hneg|Hge].
    { split; [done|]. split; [by left|]. intros dims s m Hb Hm Hp _ Hsz. exfalso.
      destruct (Hf3 _ _ _ Hb Hm Hp Hsz) as [<- _]. 
      pose proof (base_of_size T Hok _ _ _ _ Hb) as Hu. unfold is_u32 in Hu. lia. }
    destruct Hf1 as [->|(dims & m & Hb & Hm & Hne & Hu & Hus)]; [lia|]. rewrite Z.mul_1_l in Hne. unfold is_u32, UINT32_MAX in *.
    destruct (negb (ne =? 0) && ((2 ^ 32 - 1) / ne <? size)) eqn:Hc.
    + split; [done|]. split; [by right|]. intros dims' s' m' Hb' Hm' Hp' Hfit Hsz. exfalso.
      destruct (Hf3 _ _ _ Hb' Hm' Hp' Hsz) as [-> ->]. apply andb_true_iff in Hc as [Hz%negb_true_iff%Z.eqb_neq Hlt%Z.ltb_lt].
      Z.div_mod_to_equations. nia.
    + assert (ne * size < 2 ^ 32).
      { apply andb_false_iff in Hc as [Hz%negb_false_iff%Z.eqb_eq|Hle%Z.ltb_ge]; [lia|].
        destruct (decide (ne = 0)); [lia|]. Z.div_mod_to_equations. nia. }
      split; [|split; [nia|]].
      * intros _. split; [done|]. exists dims, size, m. by rewrite Hne.
      * intros dims' s' m' Hb' Hm' Hp' Hfit Hsz. by destruct (Hf3 _ _ _ Hb' Hm' Hp' Hsz) as [-> ->].
Qed.

(** [btf__resolve_size] with its depth as an argument. *)
Lemma resolve_size_of b id o n r :
  btf__type_by_id b id = Ok o → resolve_size_loop n b o 1 = Ok r → MAX_RESOLVE_DEPTH = n → btf__resolve_size b id = Ok (size_of_found r).
Proof.
  intros Ho Hr Hn. unfold btf__resolve_size. rewrite Hn, Ho. cbn [mbind res_bind]. rewrite Hr. cbn [mbind res_bind].
  unfold size_of_found. destruct r as [e|[size ne]]; [done|]. destruct (size <? 0); [done|].
  by destruct (negb (ne =? 0) && (UINT32_MAX / ne <? size)).
Qed.

Lemma one_u32 : is_u32 1.
Proof. unfold is_u32. lia. Qed.

Lemma resolve_size_at b d T id n :
  holds b d T → Forall ty_ok T → is_u32 id → MAX_RESOLVE_DEPTH = n →
  ∃ r, btf__resolve_size b id = Ok (size_of_found r) ∧ found T n id 1 r.
Proof.
  intros Hh Hok Hid Hn. destruct (type_by_id_spec b d T Hh Hok id Hid) as (o & Ho & _).
  destruct (resolve_size_loop_spec b d T Hh Hok n id o 1 Hid one_u32 Ho) as (r & Hr & Hf).
  exists r. split; [|exact Hf]. exact (resolve_size_of _ _ _ _ _ Ho Hr Hn).
Qed.

(** C36: The size of a type.  For any struct btf that holds well-formed types, whatever they refer to, [btf__resolve_size]
    ends without a fault; a result that is not negative is the product of the type's dimensions and the size of the elements,
    found within 32 steps, and fits 32 bits; every type of that depth with positive dimensions whose size
    fits 32 bits is answered so; and errors are -EINVAL and -E2BIG. *)
Theorem resolve_size_is_the_size b d T id :
  holds b d T → Forall ty_ok T → is_u32 id →
  ∃ v, btf__resolve_size b id = Ok v ∧
    (0 ≤ v → v < 2 ^ 32 ∧ ∃ dims s m, base_of T id dims s m ∧ (m < 32)%nat ∧ v = product dims * s) ∧
    (v < 0 → v = - EINVAL ∨ v = - E2BIG) ∧
    ∀ dims s m, base_of T id dims s m → (m < 32)%nat → Forall (λ x, 0 < x) dims → product dims * s < 2 ^ 32 →
      product dims < 2 ^ 32 → v = product dims * s.
Proof.
  intros Hh Hok Hid. destruct (resolve_size_at b d T id 32 Hh Hok Hid eq_refl) as (r & Hr & Hf).
  exists (size_of_found r). split; [exact Hr|]. exact (size_of_found_spec T id 32 r Hok Hf).
Qed.

Import Heap.

(** int, struct pair of two, pair[5][3], a typedef of it, and a forward. *)
Definition five_types : list ty := [
  Ty 1 (Z.shiftl 1 24) 4 [32]; Ty 5 (Z.shiftl 4 24 + 2) 8 [0; 1; 0; 0; 1; 32]; Ty 0 (Z.shiftl 3 24) 0 [2; 1; 5];
  Ty 0 (Z.shiftl 3 24) 0 [3; 1; 3]; Ty 10 (Z.shiftl 8 24) 4 []].
Definition their_names : list Z := [0] ++ char_bytes "int" ++ [0] ++ char_bytes "pair" ++ [0] ++ char_bytes "pairs" ++ [0].

Lemma five_types_ok : Forall ty_ok five_types.
Proof. repeat constructor; vm_compute; intuition congruence. Qed.
Lemma their_names_ok : strings_ok their_names.
Proof. split; try reflexivity. vm_compute. repeat constructor; intuition congruence. Qed.

Definition five_btf : btf :=
  match btf__new (K := heap) (λ _ h, h) (encode_btf five_types their_names) 152 ([], 0) with
  | (Ok (inr b), _) => b | _ => Btf None [] 0 0 0 0 (-1) end.

Lemma bytes_at_cut d n l : (n ≤ length d)%nat → take (length l) (drop n d) = l → bytes_at d (Z.of_nat n) l.
Proof.
  intros Hn Hl. exists (take n d), (drop (length l) (drop n d)). split; [|by rewrite length_take, Nat.min_l].
  pose proof (take_drop (length l) (drop n d)) as H. rewrite Hl in H. by rewrite H, take_drop.
Qed.

Lemma five_btf_holds : holds five_btf (encode_btf five_types their_names) five_types.
Proof.
  split; [vm_compute; reflexivity..|]. intros i t Hi.
  assert (∃ n, types five_btf !! S i = Some (TypeAt (Z.of_nat n)) ∧ (n ≤ 152)%nat ∧
    take (length (encode_ty t)) (drop n (encode_btf five_types their_names)) = encode_ty t) as (n & H1 & H2 & H3).
  { do 5 (destruct i as [|i]; [injection Hi as <-; (exists 24%nat + exists 40%nat + exists 76%nat + exists 100%nat + exists 124%nat);
      (split; [vm_compute; reflexivity|]); (split; [lia|vm_compute; reflexivity])|]). done. }
  exists (Z.of_nat n). split; [done|]. by apply bytes_at_cut.
Qed.

Definition no_heap : heap := ([], 0).

Lemma btf_new_holds_the_types_witness :
  btf__find_by_name five_btf "pairs" = Ok 5 ∧ btf__find_by_name five_btf "trio" = Ok (- ENOENT) ∧
  (btf__new (K := heap) (λ _ h, h) (encode_btf five_types their_names) 152 ([true; true; false], 7)).2 = ([], 7) ∧
  let d := encode_btf five_types their_names in
  let '(r, k1) := btf__new (K := heap) (λ _ h, h) d (Z.of_nat (length d)) no_heap in
  (r = Ok (inl (- ENOMEM)) ∧ blocks k1 = blocks no_heap) ∨
  ∃ b, r = Ok (inr b) ∧ holds b d five_types ∧
    (∀ nm, c_str nm = true → btf__find_by_name b nm = Ok (if String.eqb nm "void" then 0 else
       match list_find (named their_names (char_bytes nm)) five_types with Some (j, _) => 1 + Z.of_nat j | None => - ENOENT end)) ∧
    ∀ k2, blocks k2 = blocks k1 → ∃ k3, btf__free (λ _ h, h) (Some b) k2 = (Ok tt, k3) ∧ blocks k3 = blocks no_heap.
Proof.
  split; [vm_compute; reflexivity|]. split; [vm_compute; reflexivity|]. split; [vm_compute; reflexivity|].
  assert (five_types ≠ []) as Hne by done.
  assert (Z.of_nat (length (encode_types five_types)) < 2 ^ 31 ∧ Z.of_nat (length five_types) < 2 ^ 29) as Hlen by (split; reflexivity).
  pose proof (btf_new_holds_the_types (K := heap) (λ _ h, h) five_types their_names no_heap Hne five_types_ok their_names_ok Hlen) as H.
  exact H.
Defined.

Lemma resolve_size_is_the_size_witness :
  List.map (btf__resolve_size five_btf) [1; 2; 3; 4; 5; 6] = [Ok 4; Ok 8; Ok 40; Ok 120; Ok 120; Ok (- EINVAL)] ∧
  ∃ v, btf__resolve_size five_btf 5 = Ok v ∧
    (0 ≤ v → v < 2 ^ 32 ∧ ∃ dims s m, base_of five_types 5 dims s m ∧ (m < 32)%nat ∧ v = product dims * s) ∧
    (v < 0 → v = - EINVAL ∨ v = - E2BIG) ∧
    ∀ dims s m, base_of five_types 5 dims s m → (m < 32)%nat → Forall (λ x, 0 < x) dims → product dims * s < 2 ^ 32 →
      product dims < 2 ^ 32 → v = product dims * s.
Proof.
  split; [vm_compute; reflexivity|].
  refine (resolve_size_is_the_size five_btf (encode_btf five_types their_names) five_types 5 five_btf_holds five_types_ok _).
  split; [done|reflexivity].
Defined.
