(* ===== verification/Object.v ===== *)
(** * libbpf.c: objects, their maps and programs

    What stands between the ELF file and the kernel: an object that was read has maps
    and programs; loading creates the maps, writes their descriptors into the
    instructions and loads the programs; maps and programs are pinned to files, and
    closing gives the descriptors back.  The system is the interface [ObjSys]:
    a call that fails is negative and leaves [errno].  Reading the ELF file, BTF of the
    kernel and .BTF.ext are outside: an object here has no .BTF.ext.  Warnings and
    the return of memory are left out. *)

From Stdlib Require Import Ascii.
From S2P Require Import Prelude Io Config Packet Loader DefaultProg Netlink XskLib Bytes Btf.
From S2P Require BpfSys.

Definition ENOSPC : Z := 28.
Definition ESRCH : Z := 3.
Definition LIBBPF_ERRNO__RELOC : Z := 4005.
Definition LIBBPF_ERRNO__VERIFY : Z := 4007.
Definition LIBBPF_ERRNO__PROG2BIG : Z := 4008.
Definition LIBBPF_ERRNO__PROGTYPE : Z := 4010.
Definition BPF_FS_MAGIC : Z := 0xcafe4a11.
Definition BPF_LOG_BUF_SIZE : Z := Z.shiftr (2 ^ 32 - 1) 8.
Definition BPF_MAXINSNS : Z := 4096.
Definition BPF_PSEUDO_MAP_VALUE : Z := 2.
Definition BPF_MAP_TYPE_PERF_EVENT_ARRAY : Z := 4.
Definition BPF_MAP_TYPE_ARRAY_OF_MAPS : Z := 12.
Definition BPF_MAP_TYPE_HASH_OF_MAPS : Z := 13.
Definition BPF_PROG_TYPE_UNSPEC : Z := 0.
Definition BPF_PROG_TYPE_KPROBE : Z := 2.

(** ** Data *)

Record bpf_map_def := MapDef { md_type : Z; md_key_size : Z; md_value_size : Z; md_max_entries : Z; md_map_flags : Z }.
#[global] Instance bpf_map_def_eq_dec : EqDecision bpf_map_def.
Proof. solve_decision. Defined.

Inductive libbpf_map_type := LIBBPF_MAP_UNSPEC | LIBBPF_MAP_DATA | LIBBPF_MAP_BSS | LIBBPF_MAP_RODATA.
#[global] Instance libbpf_map_type_eq_dec : EqDecision libbpf_map_type.
Proof. solve_decision. Defined.

(** A pointer to a string is [None] for NULL. *)
Record bpf_map := Map {
  m_fd : Z; m_name : string; m_sec_idx : Z; map_ifindex : Z; inner_map_fd : Z; def : bpf_map_def;
  m_btf_key_type_id : Z; m_btf_value_type_id : Z; libbpf_type : libbpf_map_type;
  pin_path : option string; pinned : bool; reused : bool
}.

Inductive relo_type := RELO_LD64 | RELO_CALL | RELO_DATA.
(** [map_idx], or [text_off] of RELO_CALL *)
Record reloc_desc := Reloc { relo : relo_type; insn_idx : Z; map_idx : Z }.

(** [insns] with its count and [fds] are [None] for NULL. *)
Record bpf_program := Program {
  p_idx : Z; p_name : string; prog_ifindex : Z; section_name : string; pin_name : string;
  insns : option (list bpf_insn); main_prog_cnt : Z; p_type : Z; relocs : list reloc_desc; log_level : Z;
  nr : Z; fds : option (list Z); p_expected_attach_type : Z; attach_btf_id : Z; prog_flags : Z
}.

Record bpf_object := Object {
  license : string; kern_version : Z; programs : list bpf_program; maps : list bpf_map;
  sec_data : buffer; sec_rodata : buffer; loaded : bool; has_pseudo_calls : bool;
  btf_maps_shndx : Z; text_shndx : Z; o_btf : option btf; cap_name : bool
}.

(** Members that are assigned. *)
Definition with_map_fd (fd : Z) (m : bpf_map) : bpf_map :=
  Map fd (m_name m) (m_sec_idx m) (map_ifindex m) (inner_map_fd m) (def m) (m_btf_key_type_id m)
    (m_btf_value_type_id m) (libbpf_type m) (pin_path m) (pinned m) (reused m).
Definition with_pin (path : option string) (p : bool) (m : bpf_map) : bpf_map :=
  Map (m_fd m) (m_name m) (m_sec_idx m) (map_ifindex m) (inner_map_fd m) (def m) (m_btf_key_type_id m)
    (m_btf_value_type_id m) (libbpf_type m) path p (reused m).
Definition with_tids (k v : Z) (m : bpf_map) : bpf_map :=
  Map (m_fd m) (m_name m) (m_sec_idx m) (map_ifindex m) (inner_map_fd m) (def m) k v (libbpf_type m) (pin_path m)
    (pinned m) (reused m).
Definition with_map_ifindex (i : Z) (m : bpf_map) : bpf_map :=
  Map (m_fd m) (m_name m) (m_sec_idx m) i (inner_map_fd m) (def m) (m_btf_key_type_id m)
    (m_btf_value_type_id m) (libbpf_type m) (pin_path m) (pinned m) (reused m).

Definition with_insns (l : option (list bpf_insn)) (main : Z) (r : list reloc_desc) (p : bpf_program) : bpf_program :=
  Program (p_idx p) (p_name p) (prog_ifindex p) (section_name p) (pin_name p) l main (p_type p) r (log_level p) (nr p)
    (fds p) (p_expected_attach_type p) (attach_btf_id p) (prog_flags p).
Definition with_fds (n : Z) (l : option (list Z)) (p : bpf_program) : bpf_program :=
  Program (p_idx p) (p_name p) (prog_ifindex p) (section_name p) (pin_name p) (insns p) (main_prog_cnt p) (p_type p)
    (relocs p) (log_level p) n l (p_expected_attach_type p) (attach_btf_id p) (prog_flags p).
Definition with_types (t e : Z) (p : bpf_program) : bpf_program :=
  Program (p_idx p) (p_name p) (prog_ifindex p) (section_name p) (pin_name p) (insns p) (main_prog_cnt p) t
    (relocs p) (log_level p) (nr p) (fds p) e (attach_btf_id p) (prog_flags p).
Definition with_load_args (i l f : Z) (p : bpf_program) : bpf_program :=
  Program (p_idx p) (p_name p) i (section_name p) (pin_name p) (insns p) (main_prog_cnt p) (p_type p)
    (relocs p) l (nr p) (fds p) (p_expected_attach_type p) (attach_btf_id p) f.
Definition with_attach_btf_id (i : Z) (p : bpf_program) : bpf_program :=
  Program (p_idx p) (p_name p) (prog_ifindex p) (section_name p) (pin_name p) (insns p) (main_prog_cnt p) (p_type p)
    (relocs p) (log_level p) (nr p) (fds p) (p_expected_attach_type p) i (prog_flags p).

Definition with_maps (l : list bpf_map) (o : bpf_object) : bpf_object :=
  Object (license o) (kern_version o) (programs o) l (sec_data o) (sec_rodata o) (loaded o) (has_pseudo_calls o)
    (btf_maps_shndx o) (text_shndx o) (o_btf o) (cap_name o).
Definition with_programs (l : list bpf_program) (o : bpf_object) : bpf_object :=
  Object (license o) (kern_version o) l (maps o) (sec_data o) (sec_rodata o) (loaded o) (has_pseudo_calls o)
    (btf_maps_shndx o) (text_shndx o) (o_btf o) (cap_name o).
Definition with_loaded (o : bpf_object) : bpf_object :=
  Object (license o) (kern_version o) (programs o) (maps o) (sec_data o) (sec_rodata o) true (has_pseudo_calls o)
    (btf_maps_shndx o) (text_shndx o) (o_btf o) (cap_name o).

(** struct bpf_map_info, as far as this file reads it *)
Record map_info := Info { i_name : string; i_def : bpf_map_def; i_key_type_id : Z; i_value_type_id : Z }.

(** struct bpf_load_program_attr; [prog_ifindex] and [attach_btf_id] are a union. *)
Record load_attr := LoadAttr {
  la_prog_type : Z; la_expected_attach_type : Z; la_name : option string; la_insns : list bpf_insn;
  la_license : string; la_kern_version : Z; la_ifindex_or_btf_id : Z; la_prog_btf_fd : Z; la_log_level : Z; la_prog_flags : Z
}.

(** ** The system *)

Class ObjSys (K : Type) := {
  oerrno : K → Z;
  (** malloc, strdup and reallocarray: whether they give memory *)
  o_alloc : K → bool * K;
  (** what [dirname] makes of a path *)
  o_dirname : string → string;
  o_mkdir : string → K → Z * K;
  (** the error and [f_type] *)
  o_statfs : string → K → Z * Z * K;
  o_unlink : string → K → Z * K;
  o_rmdir : string → K → Z * K;
  o_close : Z → K → Z * K;
  (** [open("/", O_RDONLY | O_CLOEXEC)] and [dup3(fd, new_fd, O_CLOEXEC)] *)
  o_open_root : K → Z * K;
  o_dup3 : Z → Z → K → Z * K;
  (** the functions of bpf.c; an information is written when there is no error *)
  o_obj_pin : Z → string → K → Z * K;
  o_obj_get : string → K → Z * K;
  o_map_info : Z → K → Z * map_info * K;
  o_create_map : BpfSys.bpf_create_map_attr → K → Z * K;
  o_update_elem : Z → Z → buffer → Z → K → Z * K;
  o_map_freeze : Z → K → Z * K;
  (** [bpf_load_program_xattr] with a buffer for the log, or NULL, of a size: the
      result, and whether the log has text *)
  o_load_program : load_attr → bool → Z → K → Z * bool * K;
  o_num_possible_cpus : K → Z * K;
  (** [__bpf_object__open] up to its loop over the programs: an error with nothing open, or the object *)
  o_collect : string → K → (Z + bpf_object) * K;
  (** [libbpf_attach_btf_id_by_name]: the error and the id *)
  o_attach_btf_id : string → K → Z * Z * K
}.

Section libbpf.
Context {K : Type} `{ObjSys K}.

(** [zclose(fd)]: what [close] gave; the variable is -1 afterwards. *)
Definition zclose (fd : Z) : io K Z := if 0 <=? fd then call (o_close fd) else mret 0.

(** ** Names of sections *)

(** An element of [section_names]; [strncmp] over the length of [sec] is a prefix test. *)
Record section_name_def := Sec {
  sec : string; s_prog_type : Z; s_expected_attach_type : Z; is_attachable : bool; is_attach_btf : bool; attach_type : Z
}.
Definition BPF_PROG_SEC (s : string) (ptype : Z) : section_name_def := Sec s ptype 0 false false 0.
Definition BPF_APROG_SEC (s : string) (ptype atype : Z) : section_name_def := Sec s ptype 0 true false atype.
Definition BPF_EAPROG_SEC (s : string) (ptype eatype : Z) : section_name_def := Sec s ptype eatype true false eatype.
Definition BPF_PROG_BTF (s : string) (ptype eatype : Z) : section_name_def := Sec s ptype eatype false true 0.
Definition BPF_APROG_COMPAT (s : string) (ptype : Z) : section_name_def := BPF_PROG_SEC s ptype.

Definition section_names : list section_name_def := [
  BPF_PROG_SEC "socket" 1; BPF_PROG_SEC "kprobe/" BPF_PROG_TYPE_KPROBE; BPF_PROG_SEC "uprobe/" BPF_PROG_TYPE_KPROBE;
  BPF_PROG_SEC "kretprobe/" BPF_PROG_TYPE_KPROBE; BPF_PROG_SEC "uretprobe/" BPF_PROG_TYPE_KPROBE;
  BPF_PROG_SEC "classifier" 3; BPF_PROG_SEC "action" 4; BPF_PROG_SEC "tracepoint/" 5; BPF_PROG_SEC "tp/" 5;
  BPF_PROG_SEC "raw_tracepoint/" 17; BPF_PROG_SEC "raw_tp/" 17;
  BPF_PROG_BTF "tp_btf/" BpfSys.BPF_PROG_TYPE_TRACING 23;
  BPF_PROG_SEC "xdp" BPF_PROG_TYPE_XDP; BPF_PROG_SEC "perf_event" 7;
  BPF_PROG_SEC "lwt_in" 10; BPF_PROG_SEC "lwt_out" 11; BPF_PROG_SEC "lwt_xmit" 12; BPF_PROG_SEC "lwt_seg6local" 19;
  BPF_APROG_SEC "cgroup_skb/ingress" 8 0; BPF_APROG_SEC "cgroup_skb/egress" 8 1; BPF_APROG_COMPAT "cgroup/skb" 8;
  BPF_APROG_SEC "cgroup/sock" 9 2; BPF_EAPROG_SEC "cgroup/post_bind4" 9 12; BPF_EAPROG_SEC "cgroup/post_bind6" 9 13;
  BPF_APROG_SEC "cgroup/dev" 15 6; BPF_APROG_SEC "sockops" 13 3;
  BPF_APROG_SEC "sk_skb/stream_parser" 14 4; BPF_APROG_SEC "sk_skb/stream_verdict" 14 5; BPF_APROG_COMPAT "sk_skb" 14;
  BPF_APROG_SEC "sk_msg" 16 7; BPF_APROG_SEC "lirc_mode2" 20 16; BPF_APROG_SEC "flow_dissector" 22 17;
  BPF_EAPROG_SEC "cgroup/bind4" 18 8; BPF_EAPROG_SEC "cgroup/bind6" 18 9;
  BPF_EAPROG_SEC "cgroup/connect4" 18 10; BPF_EAPROG_SEC "cgroup/connect6" 18 11;
  BPF_EAPROG_SEC "cgroup/sendmsg4" 18 14; BPF_EAPROG_SEC "cgroup/sendmsg6" 18 15;
  BPF_EAPROG_SEC "cgroup/recvmsg4" 18 19; BPF_EAPROG_SEC "cgroup/recvmsg6" 18 20;
  BPF_EAPROG_SEC "cgroup/sysctl" 23 18; BPF_EAPROG_SEC "cgroup/getsockopt" 25 21; BPF_EAPROG_SEC "cgroup/setsockopt" 25 22
]%string.

(** The error, with the type and the expected attachment. *)
Definition libbpf_prog_type_by_name (name : string) : Z * (Z * Z) :=
  match list_find (λ s, String.prefix (sec s) name = true) section_names with
  | Some (_, s) => (0, (s_prog_type s, s_expected_attach_type s))
  | None => (- ESRCH, (0, 0))
  end.

Definition libbpf_attach_type_by_name (name : string) : Z * Z :=
  match list_find (λ s, String.prefix (sec s) name = true) section_names with
  | Some (_, s) => if is_attachable s then (0, attach_type s) else (- EINVAL, 0)
  | None => (- EINVAL, 0)
  end.

(** The list of names in a warning; the buffer has 32 bytes a name. *)
Definition libbpf_get_type_names (attach_type : bool) : option string :=
  let len := Z.of_nat (length section_names) * 32 in
  foldl (λ buf s, buf ← buf;
    if attach_type && negb (is_attachable s) then Some buf
    else if len <? Z.of_nat (strlen buf) + Z.of_nat (strlen (sec s)) + 2 then None
    else Some (buf +:+ " " +:+ sec s)) (Some ""%string) section_names.

(** ** Pinning *)

Definition make_parent_dir (path : string) : io K Z :=
  ok ← call o_alloc;
  if negb ok then mret (- ENOMEM)
  else
    err ← call (o_mkdir (o_dirname path)); e ← ask oerrno;
    mret (if negb (err =? 0) && negb (e =? EEXIST) then - e else 0).

Definition check_path (path : string) : io K Z :=
  ok ← call o_alloc;
  if negb ok then mret (- ENOMEM)
  else
    '(r, f_type) ← call (o_statfs (o_dirname path)); e ← ask oerrno;
    let err := if r =? 0 then 0 else - e in
    mret (if (err =? 0) && negb (f_type =? BPF_FS_MAGIC) then - EINVAL else err).

(** What [bpf_map__pin] does once the map has a path. *)
Definition pin_at (path : string) (map : bpf_map) : io K (Z * bpf_map) :=
  err ← make_parent_dir path;
  if negb (err =? 0) then mret (err, map)
  else
    err ← check_path path;
    if negb (err =? 0) then mret (err, map)
    else
      r ← call (o_obj_pin (m_fd map) path);
      if negb (r =? 0) then e ← ask oerrno; mret (- e, map)
      else mret (0, with_pin (Some path) true map).

Definition bpf_map__pin (map : bpf_map) (path : option string) : io K (Z * bpf_map) :=
  match pin_path map with
  | Some own =>
      if match path with Some p => negb (String.eqb p own) | None => false end then mret (- EINVAL, map)
      else if pinned map then mret (0, map)
      else pin_at own map
  | None =>
      match path with
      | None => mret (- EINVAL, map)
      | Some p =>
          if pinned map then mret (- EEXIST, map)
          else
            ok ← call o_alloc;
            if negb ok then e ← ask oerrno; mret (- e, map)
            else pin_at p (with_pin (Some p) (pinned map) map)
      end
  end.

Definition unpin_at (path : string) (map : bpf_map) : io K (Z * bpf_map) :=
  err ← check_path path;
  if negb (err =? 0) then mret (err, map)
  else
    r ← call (o_unlink path);
    if negb (r =? 0) then e ← ask oerrno; mret (- e, map) else mret (0, with_pin (pin_path map) false map).

Definition bpf_map__unpin (map : bpf_map) (path : option string) : io K (Z * bpf_map) :=
  match pin_path map, path with
  | Some own, Some p => if negb (String.eqb p own) then mret (- EINVAL, map) else unpin_at own map
  | Some own, None => unpin_at own map
  | None, None => mret (- EINVAL, map)
  | None, Some p => unpin_at p map
  end.

(** [snprintf(buf, PATH_MAX, "%s/%s", path, name)], [None] when it does not fit. *)
Definition path_under (path name : string) : option string :=
  let s := map_path path name in if PATH_MAX <=? Z.of_nat (strlen s) then None else Some s.

(** The end of [bpf_object__pin_maps]: the maps before, the last first. *)
Fixpoint unpin_back (before : list bpf_map) : io K (list bpf_map) :=
  match before with
  | [] => mret []
  | map :: before =>
      map ← match pin_path map with
            | None => mret map
            | Some _ => '(_, map) ← bpf_map__unpin map None; mret map
            end;
      before ← unpin_back before; mret (map :: before)
  end.

(** The loop over the maps; [before] has those that are done, the last first. *)
Fixpoint pin_maps_from (before todo : list bpf_map) (path : option string) : io K (Z * list bpf_map) :=
  match todo with
  | [] => mret (0, rev before)
  | map :: todo =>
      let fail err map := before ← unpin_back before; mret (err, rev before ++ map :: todo) in
      let pin p := '(err, map) ← bpf_map__pin map p;
                   if negb (err =? 0) then fail err map else pin_maps_from (map :: before) todo path in
      match path, pin_path map with
      | Some dir, _ =>
          match path_under dir (m_name map) with None => fail (- ENAMETOOLONG) map | Some buf => pin (Some buf) end
      | None, None => pin_maps_from (map :: before) todo path
      | None, Some _ => pin None
      end
  end.

Definition bpf_object__pin_maps (obj : bpf_object) (path : option string) : io K (Z * bpf_object) :=
  if negb (loaded obj) then mret (- ENOENT, obj)
  else '(err, l) ← pin_maps_from [] (maps obj) path; mret (err, with_maps l obj).

Fixpoint unpin_maps_from (todo : list bpf_map) (path : option string) : io K (Z * list bpf_map) :=
  match todo with
  | [] => mret (0, [])
  | map :: todo =>
      let unpin p := '(err, map) ← bpf_map__unpin map p;
                     if negb (err =? 0) then mret (err, map :: todo)
                     else '(err, l) ← unpin_maps_from todo path; mret (err, map :: l) in
      match path, pin_path map with
      | Some dir, _ =>
          match path_under dir (m_name map) with None => mret (- ENAMETOOLONG, map :: todo) | Some buf => unpin (Some buf) end
      | None, None => '(err, l) ← unpin_maps_from todo path; mret (err, map :: l)
      | None, Some _ => unpin None
      end
  end.

Definition bpf_object__unpin_maps (obj : bpf_object) (path : option string) : io K (Z * bpf_object) :=
  '(err, l) ← unpin_maps_from (maps obj) path; mret (err, with_maps l obj).

(** *** Programs *)

Definition instance_fd (prog : bpf_program) (i : Z) : res Z := l ← or_fault (fds prog) NullDeref; elem l i.

Definition bpf_program__pin_instance (prog : bpf_program) (path : string) (instance : Z) : io K Z :=
  err ← make_parent_dir path;
  if negb (err =? 0) then mret err
  else
    err ← check_path path;
    if negb (err =? 0) then mret err
    else if (instance <? 0) || (nr prog <=? instance) then mret (- EINVAL)
    else
      fd ← pure_res (instance_fd prog instance);
      r ← call (o_obj_pin fd path);
      if negb (r =? 0) then e ← ask oerrno; mret (- e) else mret 0.

Definition bpf_program__unpin_instance (prog : bpf_program) (path : string) (instance : Z) : io K Z :=
  err ← check_path path;
  if negb (err =? 0) then mret err
  else if (instance <? 0) || (nr prog <=? instance) then mret (- EINVAL)
  else
    r ← call (o_unlink path);
    if negb (r =? 0) then e ← ask oerrno; mret (- e) else mret 0.

(** A number in decimal, for ["%s/%d"]. *)
Fixpoint digits (fuel : nat) (n : Z) : string :=
  let d := String (ascii_of_N (48 + Z.to_N (n mod 10))) EmptyString in
  match fuel with
  | O => d
  | S fuel => if n <? 10 then d else digits fuel (n / 10) +:+ d
  end.
Definition decimal (n : Z) : string := digits 20 n.

(** err_unpin: the instances from [i - 1] down. *)
Fixpoint unpin_instances_back (i : nat) (prog : bpf_program) (path : string) : io K unit :=
  match i with
  | O => mret tt
  | S i =>
      _ ← match path_under path (decimal (Z.of_nat i)) with
          | None => mret 0 | Some buf => bpf_program__unpin_instance prog buf (Z.of_nat i) end;
      unpin_instances_back i prog path
  end.

(** The loop over the instances; [n] are left. *)
Fixpoint pin_instances (n i : nat) (prog : bpf_program) (path : string) : io K Z :=
  match n with
  | O => mret 0
  | S n =>
      let fail err := _ ← unpin_instances_back i prog path; _ ← call (o_rmdir path); mret err in
      match path_under path (decimal (Z.of_nat i)) with
      | None => fail (- ENAMETOOLONG)
      | Some buf =>
          err ← bpf_program__pin_instance prog buf (Z.of_nat i);
          if negb (err =? 0) then fail err else pin_instances n (S i) prog path
      end
  end.

Definition bpf_program__pin (prog : bpf_program) (path : string) : io K Z :=
  err ← make_parent_dir path;
  if negb (err =? 0) then mret err
  else
    err ← check_path path;
    if negb (err =? 0) then mret err
    else if nr prog <=? 0 then mret (- EINVAL)
    else if nr prog =? 1 then bpf_program__pin_instance prog path 0
    else pin_instances (Z.to_nat (nr prog)) 0 prog path.

Fixpoint unpin_instances (n i : nat) (prog : bpf_program) (path : string) : io K Z :=
  match n with
  | O => err ← call (o_rmdir path); if negb (err =? 0) then e ← ask oerrno; mret (- e) else mret 0
  | S n =>
      match path_under path (decimal (Z.of_nat i)) with
      | None => mret (- ENAMETOOLONG)
      | Some buf =>
          err ← bpf_program__unpin_instance prog buf (Z.of_nat i);
          if negb (err =? 0) then mret err else unpin_instances n (S i) prog path
      end
  end.

Definition bpf_program__unpin (prog : bpf_program) (path : string) : io K Z :=
  err ← check_path path;
  if negb (err =? 0) then mret err
  else if nr prog <=? 0 then mret (- EINVAL)
  else if nr prog =? 1 then bpf_program__unpin_instance prog path 0
  else unpin_instances (Z.to_nat (nr prog)) 0 prog path.

(** *** The programs of an object *)

Definition bpf_program__is_function_storage (prog : bpf_program) (obj : bpf_object) : bool :=
  (p_idx prog =? text_shndx obj) && has_pseudo_calls obj.

(** [__bpf_program__iter] on indices: the first or last without [p], else the next or the one before. *)
Definition bpf_program_iter (p : option nat) (obj : bpf_object) (forward : bool) : option nat :=
  let n := length (programs obj) in
  match n, p with
  | O, _ => None
  | _, None => Some (if forward then O else (n - 1)%nat)
  | _, Some i => if forward then if (S i <? n)%nat then Some (S i) else None
                 else match i with O => None | S i => Some i end
  end.

(** [bpf_program__next] and [bpf_program__prev]: the loop over what only stores functions. *)
Fixpoint bpf_program_step (fuel : nat) (p : option nat) (obj : bpf_object) (forward : bool) : option nat :=
  match bpf_program_iter p obj forward with
  | None => None
  | Some i =>
      match programs obj !! i with
      | Some prog =>
          if bpf_program__is_function_storage prog obj then
            match fuel with O => None | S fuel => bpf_program_step fuel (Some i) obj forward end
          else Some i
      | None => None
      end
  end.
Definition bpf_program__next (prev : option nat) (obj : bpf_object) : option nat :=
  bpf_program_step (length (programs obj)) prev obj true.
Definition bpf_program__prev (next : option nat) (obj : bpf_object) : option nat :=
  bpf_program_step (length (programs obj)) next obj false.

(** What [bpf_object__for_each_program] visits after [prev]. *)
Fixpoint for_each_program_from (fuel : nat) (prev : option nat) (obj : bpf_object) : list nat :=
  match fuel with
  | O => []
  | S fuel => match bpf_program__next prev obj with None => [] | Some i => i :: for_each_program_from fuel (Some i) obj end
  end.
Definition for_each_program (obj : bpf_object) : list nat := for_each_program_from (length (programs obj)) None obj.

(** The programs that are visited. *)
Definition visited (obj : bpf_object) : list bpf_program :=
  omap (λ i, programs obj !! i) (for_each_program obj).

(** The index of the program of a section. *)
Definition find_program_by_title (obj : bpf_object) (title : string) : option nat :=
  snd <$> list_find (λ i, match programs obj !! i with Some p => String.eqb (section_name p) title | None => false end = true)
    (for_each_program obj).

Fixpoint unpin_programs_back (before : list bpf_program) (path : string) : io K unit :=
  match before with
  | [] => mret tt
  | prog :: before =>
      _ ← match path_under path (pin_name prog) with None => mret 0 | Some buf => bpf_program__unpin prog buf end;
      unpin_programs_back before path
  end.

Fixpoint pin_programs_from (before todo : list bpf_program) (path : string) : io K Z :=
  match todo with
  | [] => mret 0
  | prog :: todo =>
      match path_under path (pin_name prog) with
      | None => _ ← unpin_programs_back before path; mret (- ENAMETOOLONG)
      | Some buf =>
          err ← bpf_program__pin prog buf;
          if negb (err =? 0) then _ ← unpin_programs_back before path; mret err
          else pin_programs_from (prog :: before) todo path
      end
  end.

Definition bpf_object__pin_programs (obj : bpf_object) (path : string) : io K Z :=
  if negb (loaded obj) then mret (- ENOENT) else pin_programs_from [] (visited obj) path.

Definition bpf_object__unpin_programs (obj : bpf_object) (path : string) : io K Z :=
  r ← for_each_or_return (visited obj) (λ prog,
    match path_under path (pin_name prog) with
    | None => mret (Some (- ENAMETOOLONG))
    | Some buf => err ← bpf_program__unpin prog buf; mret (if negb (err =? 0) then Some err else None)
    end);
  mret (default 0 r).

Definition bpf_object__pin (obj : bpf_object) (path : string) : io K (Z * bpf_object) :=
  '(err, obj) ← bpf_object__pin_maps obj (Some path);
  if negb (err =? 0) then mret (err, obj)
  else
    err ← bpf_object__pin_programs obj path;
    if negb (err =? 0) then '(_, obj) ← bpf_object__unpin_maps obj (Some path); mret (err, obj)
    else mret (0, obj).

(** ** Maps *)

Definition bpf_map__is_internal (map : bpf_map) : bool := bool_decide (libbpf_type map ≠ LIBBPF_MAP_UNSPEC).
Definition map_is_offload_neutral (map : bpf_map) : bool := md_type (def map) =? BPF_MAP_TYPE_PERF_EVENT_ARRAY.
Definition bpf_map_type__is_map_in_map (type : Z) : bool :=
  (type =? BPF_MAP_TYPE_ARRAY_OF_MAPS) || (type =? BPF_MAP_TYPE_HASH_OF_MAPS).

(** The index of the map with a name. *)
Definition find_map_by_name (obj : bpf_object) (name : string) : option nat :=
  fst <$> list_find (λ m, m_name m = name) (maps obj).

Definition bpf_map__reuse_fd (map : bpf_map) (fd : Z) : io K (Z * bpf_map) :=
  '(err, info) ← call (o_map_info fd);
  if negb (err =? 0) then mret (err, map)
  else
    ok ← call o_alloc;
    if negb ok then e ← ask oerrno; mret (- e, map)
    else
      new_fd ← call o_open_root;
      if new_fd <? 0 then e ← ask oerrno; mret (- e, map)
      else
        new_fd ← call (o_dup3 fd new_fd);
        if new_fd <? 0 then e ← ask oerrno; _ ← call (o_close new_fd); mret (- e, map)
        else
          err ← zclose (m_fd map);
          let map := with_map_fd (-1) map in
          if negb (err =? 0) then e ← ask oerrno; _ ← call (o_close new_fd); mret (- e, map)
          else
            mret (0, Map new_fd (i_name info) (m_sec_idx map) (map_ifindex map) (inner_map_fd map) (i_def info)
                       (i_key_type_id info) (i_value_type_id info) (libbpf_type map) (pin_path map) (pinned map) true).

Definition bpf_map__resize (map : bpf_map) (max_entries : Z) : Z * bpf_map :=
  if max_entries =? 0 then (- EINVAL, map)
  else if 0 <=? m_fd map then (- EBUSY, map)
  else
    let d := def map in
    (0, Map (m_fd map) (m_name map) (m_sec_idx map) (map_ifindex map) (inner_map_fd map)
          (MapDef (md_type d) (md_key_size d) (md_value_size d) max_entries (md_map_flags d)) (m_btf_key_type_id map)
          (m_btf_value_type_id map) (libbpf_type map) (pin_path map) (pinned map) (reused map)).

Definition map_is_reuse_compat (map : bpf_map) (map_fd : Z) : io K bool :=
  '(err, info) ← call (o_map_info map_fd);
  mret (if negb (err =? 0) then false else bool_decide (i_def info = def map)).

(** The map has the path [path]. *)
Definition bpf_object__reuse_map (map : bpf_map) (path : string) : io K (Z * bpf_map) :=
  pin_fd ← call (o_obj_get path);
  if pin_fd <? 0 then
    e ← ask oerrno; mret (if e =? ENOENT then 0 else - e, map)
  else
    compat ← map_is_reuse_compat map pin_fd;
    if negb compat then _ ← call (o_close pin_fd); mret (- EINVAL, map)
    else
      '(err, map) ← bpf_map__reuse_fd map pin_fd;
      if negb (err =? 0) then _ ← call (o_close pin_fd); mret (err, map)
      else mret (0, with_pin (pin_path map) true map).

Definition bpf_object__populate_internal_map (obj : bpf_object) (map : bpf_map) : io K Z :=
  if bool_decide (libbpf_type map = LIBBPF_MAP_BSS) then mret 0
  else
    let data := if bool_decide (libbpf_type map = LIBBPF_MAP_DATA) then sec_data obj else sec_rodata obj in
    err ← call (o_update_elem (m_fd map) 0 data 0);
    if (err =? 0) && bool_decide (libbpf_type map = LIBBPF_MAP_RODATA) then
      _ ← call (o_map_freeze (m_fd map)); mret 0
    else mret err.

Definition libbpf_type_to_btf_name (t : libbpf_map_type) : string :=
  match t with LIBBPF_MAP_DATA => ".data" | LIBBPF_MAP_BSS => ".bss" | LIBBPF_MAP_RODATA => ".rodata" | LIBBPF_MAP_UNSPEC => "" end.

Definition bpf_map_find_btf_info (obj : bpf_object) (b : btf) (map : bpf_map) : res (Z * bpf_map) :=
  if m_sec_idx map =? btf_maps_shndx obj then Ok (0, map)
  else if negb (bpf_map__is_internal map) then
    r ← btf__get_map_kv_tids b (m_name map) (md_key_size (def map)) (md_value_size (def map));
    Ok (match r with inl ret => (ret, map) | inr (k, v) => (0, with_tids k v map) end)
  else
    ret ← btf__find_by_name b (libbpf_type_to_btf_name (libbpf_type map));
    Ok (if ret <? 0 then (ret, map) else (0, with_tids 0 ret map)).

(** How the creation of one map ends: go on, [return err], or [goto err_out]. *)
Inductive created := Created | Return (err : Z) | ErrOut (err : Z).

(** The number of elements; [nr_cpus] is kept for the next map.  An error is negative. *)
Definition map_size (d : bpf_map_def) (nr_cpus : Z) : io K (Z + Z * Z) :=
  if (md_type d =? BPF_MAP_TYPE_PERF_EVENT_ARRAY) && (md_max_entries d =? 0) then
    nr_cpus ← (if nr_cpus =? 0 then call o_num_possible_cpus else mret nr_cpus);
    mret (if nr_cpus <? 0 then inl nr_cpus else inr (nr_cpus, nr_cpus))
  else mret (inr (md_max_entries d, nr_cpus)).

(** The descriptor of BTF with the types of the map, which are stored in the map too. *)
Definition map_btf (obj : bpf_object) (map : bpf_map) : res (Z * Z * Z * bpf_map) :=
  match o_btf obj with
  | None => Ok (0, 0, 0, map)
  | Some b =>
      '(ret, map) ← bpf_map_find_btf_info obj b map;
      Ok (if ret =? 0 then (btf_fd b, m_btf_key_type_id map, m_btf_value_type_id map, map) else (0, 0, 0, map))
  end.

Definition map_attr (obj : bpf_object) (map : bpf_map) (max_entries inner b_fd key value : Z) : BpfSys.bpf_create_map_attr :=
  let d := def map in
  BpfSys.CreateMapAttr (if cap_name obj then Some (m_name map) else None) (md_type d) (md_map_flags d) (md_key_size d)
    (md_value_size d) max_entries 0 b_fd key value (map_ifindex map) inner.

(** The map with its descriptor; tried again without BTF. *)
Definition create_or_retry (obj : bpf_object) (map : bpf_map) (max_entries inner b_fd key value : Z) : io K bpf_map :=
  fd ← call (o_create_map (map_attr obj map max_entries inner b_fd key value));
  if (fd <? 0) && (negb (key =? 0) || negb (value =? 0)) then
    fd ← call (o_create_map (map_attr obj map max_entries inner 0 0 0)); mret (with_map_fd fd (with_tids 0 0 map))
  else mret (with_map_fd fd map).

(** The data of a section, and the file of a map that has a path. *)
Definition fill_and_pin (obj : bpf_object) (map : bpf_map) : io K (created * bpf_map) :=
  err ← (if bpf_map__is_internal map then bpf_object__populate_internal_map obj map else mret 0);
  if err <? 0 then _ ← zclose (m_fd map); mret (ErrOut err, with_map_fd (-1) map)
  else
    match pin_path map with
    | Some _ =>
        if pinned map then mret (Created, map)
        else '(err, map) ← bpf_map__pin map None; mret (if negb (err =? 0) then Return err else Created, map)
    | None => mret (Created, map)
    end.

(** One round of the loop of [bpf_object__create_maps].  Of [create_attr], which all rounds share, only
    [inner_map_fd] is not assigned in every round; [nr_cpus] is kept too. *)
Definition create_map (obj : bpf_object) (inner nr_cpus : Z) (map : bpf_map) : io K (created * bpf_map * Z * Z) :=
  '(err, map) ← match pin_path map with Some path => bpf_object__reuse_map map path | None => mret (0, map) end;
  if negb (err =? 0) then mret (Return err, map, inner, nr_cpus)
  else if 0 <=? m_fd map then mret (Created, map, inner, nr_cpus)
  else
    size ← map_size (def map) nr_cpus;
    match size with
    | inl err => mret (ErrOut err, map, inner, nr_cpus)
    | inr (max_entries, nr_cpus) =>
        let inner := if bpf_map_type__is_map_in_map (md_type (def map)) && (0 <=? inner_map_fd map)
                     then inner_map_fd map else inner in
        '(b_fd, key, value, map) ← pure_res (map_btf obj map);
        map ← create_or_retry obj map max_entries inner b_fd key value;
        if m_fd map <? 0 then e ← ask oerrno; mret (ErrOut (- e), map, inner, nr_cpus)
        else '(how, map) ← fill_and_pin obj map; mret (how, map, inner, nr_cpus)
    end.

(** [zclose] of the descriptors of some maps. *)
Fixpoint close_maps (l : list bpf_map) : io K (list bpf_map) :=
  match l with
  | [] => mret []
  | map :: l => _ ← zclose (m_fd map); l ← close_maps l; mret (with_map_fd (-1) map :: l)
  end.

(** The loop; [done] are the maps before. *)
Fixpoint create_maps_from (obj : bpf_object) (done todo : list bpf_map) (inner nr_cpus : Z) : io K (Z * list bpf_map) :=
  match todo with
  | [] => mret (0, done)
  | map :: todo =>
      '(how, map, inner, nr_cpus) ← create_map obj inner nr_cpus map;
      match how with
      | Created => create_maps_from obj (done ++ [map]) todo inner nr_cpus
      | Return err => mret (err, done ++ map :: todo)
      | ErrOut err => done ← close_maps done; mret (err, done ++ map :: todo)
      end
  end.
Definition bpf_object__create_maps (obj : bpf_object) : io K (Z * bpf_object) :=
  '(err, l) ← create_maps_from obj [] (maps obj) 0 0; mret (err, with_maps l obj).

(** ** Relocation *)

(** An instruction by its index; assigning it. *)
Definition insn_at (l : list bpf_insn) (i : Z) : res bpf_insn :=
  if i <? 0 then Err OutOfBounds else or_fault (l !! Z.to_nat i) OutOfBounds.
Definition set_insn (i : Z) (x : bpf_insn) (l : list bpf_insn) : list bpf_insn := <[Z.to_nat i := x]> l.
Definition with_imm (v : Z) (i : bpf_insn) : bpf_insn := Insn (code i) (dst_reg i) (src_reg i) (off i) v.
Definition with_src (v : Z) (i : bpf_insn) : bpf_insn := Insn (code i) (dst_reg i) v (off i) (imm i).

Definition insns_cnt (prog : bpf_program) : Z := Z.of_nat (length (default [] (insns prog))).

(** A relocation of RELO_CALL: the functions of .text are appended once. *)
Definition bpf_program__reloc_text (prog : bpf_program) (obj : bpf_object) (r : reloc_desc) : io K (Z * bpf_program) :=
  if p_idx prog =? text_shndx obj then mret (- LIBBPF_ERRNO__RELOC, prog)
  else
    '(err, prog) ←
      (if main_prog_cnt prog =? 0 then
         match list_find (λ p, p_idx p = text_shndx obj) (programs obj) with
         | None => mret (- LIBBPF_ERRNO__RELOC, prog)
         | Some (_, text) =>
             ok ← call o_alloc;
             if negb ok then mret (- ENOMEM, prog)
             else
               l ← pure_res (or_fault (insns text) NullDeref);
               mret (0, with_insns (Some (default [] (insns prog) ++ l)) (insns_cnt prog) (relocs prog) prog)
         end
       else mret (0, prog));
    if negb (err =? 0) then mret (err, prog)
    else
      l ← pure_res (or_fault (insns prog) NullDeref);
      i ← pure_res (insn_at l (insn_idx r));
      let v := s32 (imm i + main_prog_cnt prog - insn_idx r) in
      mret (0, with_insns (Some (set_insn (insn_idx r) (with_imm v i) l)) (main_prog_cnt prog) (relocs prog) prog).

(** A relocation of RELO_LD64 or RELO_DATA. *)
Definition relocate_map (prog : bpf_program) (obj : bpf_object) (r : reloc_desc) : res (Z * bpf_program) :=
  if insns_cnt prog <=? insn_idx r + 1 then Ok (- LIBBPF_ERRNO__RELOC, prog)
  else
    l ← or_fault (insns prog) NullDeref;
    i ← insn_at l (insn_idx r);
    l ← match relo r with
        | RELO_DATA =>
            j ← insn_at l (insn_idx r + 1); Ok (set_insn (insn_idx r + 1) (with_imm (imm i) j) l)
        | _ => Ok l
        end;
    map ← (if map_idx r <? 0 then Err OutOfBounds else or_fault (maps obj !! Z.to_nat (map_idx r)) OutOfBounds);
    let src := match relo r with RELO_DATA => BPF_PSEUDO_MAP_VALUE | _ => BPF_PSEUDO_MAP_FD end in
    Ok (0, with_insns (Some (set_insn (insn_idx r) (with_imm (m_fd map) (with_src src i)) l)) (main_prog_cnt prog)
             (relocs prog) prog).

Fixpoint relocate_each (rs : list reloc_desc) (prog : bpf_program) (obj : bpf_object) : io K (Z * bpf_program) :=
  match rs with
  | [] => mret (0, with_insns (insns prog) (main_prog_cnt prog) [] prog)
  | r :: rs =>
      '(err, prog) ← match relo r with
                     | RELO_CALL => bpf_program__reloc_text prog obj r
                     | _ => pure_res (relocate_map prog obj r)
                     end;
      if negb (err =? 0) then mret (err, prog) else relocate_each rs prog obj
  end.
Definition bpf_program__relocate (prog : bpf_program) (obj : bpf_object) : io K (Z * bpf_program) :=
  relocate_each (relocs prog) prog obj.

(** The loop over the programs, which sees those before as they are now; [n] programs are left from [i] on. *)
Fixpoint relocate_from (n i : nat) (obj : bpf_object) : io K (Z * bpf_object) :=
  match n with
  | O => mret (0, obj)
  | S n =>
      prog ← pure_res (or_fault (programs obj !! i) OutOfBounds);
      '(err, prog) ← bpf_program__relocate prog obj;
      let obj := with_programs (<[i := prog]> (programs obj)) obj in
      if negb (err =? 0) then mret (err, obj) else relocate_from n (S i) obj
  end.
Definition bpf_object__relocate (obj : bpf_object) : io K (Z * bpf_object) := relocate_from (length (programs obj)) 0 obj.

(** ** Loading *)

Section load.
Variable fuel : nat.

(** retry_load: with a buffer twice as long while the log does not fit.  The descriptor,
    or whether the log has text, and [errno]. *)
Fixpoint load_retry (n : nat) (attr : load_attr) (log_buf_size : Z) : io K (Z + bool * Z) :=
  has ← call o_alloc;
  '(ret, text) ← call (o_load_program attr has log_buf_size);
  if 0 <=? ret then mret (inl ret)
  else
    e ← ask oerrno;
    if e =? ENOSPC then
      match n with O => pure_res (Err OutOfFuel) | S n => load_retry n attr (s32 (Z.shiftl log_buf_size 1)) end
    else mret (inr (has && text, e)).

(** [prog_ifindex] is stored first, and [attach_btf_id] over it. *)
Definition program_attr (prog : bpf_program) (obj : bpf_object) (insns : list bpf_insn) : load_attr :=
  LoadAttr (p_type prog) (p_expected_attach_type prog) (if cap_name obj then Some (p_name prog) else None) insns
    (license obj) (kern_version obj) (attach_btf_id prog) 0 (log_level prog) (prog_flags prog).

Definition as_kprobe (a : load_attr) : load_attr :=
  LoadAttr BPF_PROG_TYPE_KPROBE 0 (la_name a) (la_insns a) (la_license a) (la_kern_version a) (la_ifindex_or_btf_id a)
    (la_prog_btf_fd a) (la_log_level a) (la_prog_flags a).

(** The error, and the descriptor when it is 0. *)
Definition load_program (prog : bpf_program) (obj : bpf_object) : io K (Z * Z) :=
  match insns prog with
  | None | Some [] => mret (- EINVAL, -1)
  | Some l =>
      let attr := program_attr prog obj l in
      r ← load_retry fuel attr BPF_LOG_BUF_SIZE;
      match r with
      | inl fd => mret (0, fd)
      | inr (text, e) =>
          if (text : bool) then mret (- LIBBPF_ERRNO__VERIFY, -1)
          else if BPF_MAXINSNS <=? Z.of_nat (length l) then mret (- LIBBPF_ERRNO__PROG2BIG, -1)
          else if negb (p_type prog =? BPF_PROG_TYPE_KPROBE) then
            '(fd, _) ← call (o_load_program (as_kprobe attr) false 0);
            if 0 <=? fd then _ ← call (o_close fd); mret (- LIBBPF_ERRNO__PROGTYPE, -1) else mret (- e, -1)
          else mret (- e, -1)
      end
  end.

(** Without a preprocessor. *)
Definition bpf_program__load (prog : bpf_program) (obj : bpf_object) : io K (Z * bpf_program) :=
  r ← match fds prog with
      | Some l => if nr prog <? 0 then ok ← call o_alloc; mret (if ok : bool then Some (1, [-1]) else None)
                  else mret (Some (nr prog, l))
      | None => ok ← call o_alloc; mret (if ok : bool then Some (1, [-1]) else None)
      end;
  match r with
  | None => mret (- ENOMEM, prog)
  | Some (n, l) =>
      '(err, fd) ← load_program prog obj;
      l ← (if err =? 0 then match l with [] => pure_res (Err OutOfBounds) | _ :: l => mret (fd :: l) end else mret l);
      mret (err, with_insns None (main_prog_cnt prog) (relocs prog) (with_fds n (Some l) prog))
  end.

Fixpoint load_progs_from (done todo : list bpf_program) (obj : bpf_object) (level : Z) : io K (Z * list bpf_program) :=
  match todo with
  | [] => mret (0, done)
  | prog :: todo =>
      if bpf_program__is_function_storage prog obj then load_progs_from (done ++ [prog]) todo obj level
      else
        let prog := with_load_args (prog_ifindex prog) (Z.lor (log_level prog) level) (prog_flags prog) prog in
        '(err, prog) ← bpf_program__load prog obj;
        if negb (err =? 0) then mret (err, done ++ prog :: todo) else load_progs_from (done ++ [prog]) todo obj level
  end.
Definition bpf_object__load_progs (obj : bpf_object) (level : Z) : io K (Z * bpf_object) :=
  '(err, l) ← load_progs_from [] (programs obj) obj level; mret (err, with_programs l obj).

(** The first [n] descriptors. *)
Fixpoint close_fds (n : nat) (l : list Z) : io K unit :=
  match n, l with
  | O, _ => mret tt
  | S _, [] => pure_res (Err OutOfBounds)
  | S n, fd :: l => _ ← zclose fd; close_fds n l
  end.

Definition bpf_program__unload (prog : bpf_program) : io K bpf_program :=
  _ ← (if 0 <? nr prog then l ← pure_res (or_fault (fds prog) NullDeref); close_fds (Z.to_nat (nr prog)) l else mret tt);
  mret (with_fds (-1) None prog).

Fixpoint unload_programs (l : list bpf_program) : io K (list bpf_program) :=
  match l with
  | [] => mret []
  | prog :: l => prog ← bpf_program__unload prog; l ← unload_programs l; mret (prog :: l)
  end.

Definition bpf_object__unload (obj : bpf_object) : io K bpf_object :=
  l ← close_maps (maps obj); ps ← unload_programs (programs obj); mret (with_programs ps (with_maps l obj)).

(** out: what was pinned by itself is not any more. *)
Fixpoint unpin_auto (l : list bpf_map) : io K (list bpf_map) :=
  match l with
  | [] => mret []
  | map :: l =>
      map ← (if pinned map && negb (reused map) then '(_, map) ← bpf_map__unpin map None; mret map else mret map);
      l ← unpin_auto l; mret (map :: l)
  end.

Definition load_failed (err : Z) (obj : bpf_object) : io K (Z * bpf_object) :=
  l ← unpin_auto (maps obj); obj ← bpf_object__unload (with_maps l obj); mret (err, obj).

Definition bpf_object__load_xattr (obj : bpf_object) (level : Z) : io K (Z * bpf_object) :=
  if loaded obj then mret (- EINVAL, obj)
  else
    '(err, obj) ← bpf_object__create_maps (with_loaded obj);
    if negb (err =? 0) then load_failed err obj
    else
      '(err, obj) ← bpf_object__relocate obj;
      if negb (err =? 0) then load_failed err obj
      else
        '(err, obj) ← bpf_object__load_progs obj level;
        if negb (err =? 0) then load_failed err obj else mret (0, obj).

Definition bpf_object__load (obj : bpf_object) : io K (Z * bpf_object) := bpf_object__load_xattr obj 0.

(** ** Opening and closing *)

(** [bpf_object__close], as far as the system sees it. *)
Definition bpf_object__close (obj : bpf_object) : io K unit :=
  obj ← bpf_object__unload obj;
  _ ← match o_btf obj with
      | Some b => if negb (btf_fd b =? -1) then call (o_close (btf_fd b)) else mret 0
      | None => mret 0
      end;
  _ ← unload_programs (programs obj);
  mret tt.

(** The end of [__bpf_object__open]: types from the names of the sections.  The error and the programs. *)
Fixpoint guess_types (done todo : list bpf_program) (obj : bpf_object) : io K (Z * list bpf_program) :=
  match todo with
  | [] => mret (0, done)
  | prog :: todo =>
      if bpf_program__is_function_storage prog obj then guess_types (done ++ [prog]) todo obj
      else
        let '(err, (t, e)) := libbpf_prog_type_by_name (section_name prog) in
        if err =? - ESRCH then guess_types (done ++ [prog]) todo obj
        else if negb (err =? 0) then mret (err, done ++ prog :: todo)
        else
          let prog := with_types t e prog in
          if t =? BpfSys.BPF_PROG_TYPE_TRACING then
            '(err, id) ← call (o_attach_btf_id (section_name prog));
            if negb (err =? 0) then mret (err, done ++ prog :: todo)
            else guess_types (done ++ [with_attach_btf_id id prog]) todo obj
          else guess_types (done ++ [prog]) todo obj
  end.

(** The object, or the error of the pointer. *)
Definition bpf_object__open (path : string) : io K (Z + bpf_object) :=
  r ← call (o_collect path);
  match r with
  | inl err => mret (inl err)
  | inr obj =>
      '(err, l) ← guess_types [] (programs obj) obj;
      let obj := with_programs l obj in
      if negb (err =? 0) then _ ← bpf_object__close obj; mret (inl err) else mret (inr obj)
  end.

(** *** [bpf_prog_load_xattr]: the error, with the object and the first program's descriptor *)

Definition bpf_program__nth_fd (prog : bpf_program) (n : Z) : res Z :=
  if (nr prog <=? n) || (n <? 0) then Ok (- EINVAL)
  else fd ← instance_fd prog n; Ok (if fd <? 0 then - ENOENT else fd).
Definition bpf_program__fd (prog : bpf_program) : res Z := bpf_program__nth_fd prog 0.

Record prog_load_attr := ProgLoadAttr {
  pl_file : string; pl_prog_type : Z; pl_expected_attach_type : Z; pl_ifindex : Z; pl_log_level : Z; pl_prog_flags : Z
}.

(** The loop over the programs: [None] for a program without a type. *)
Fixpoint set_programs (a : prog_load_attr) (obj : bpf_object) (l : list bpf_program) : option (list bpf_program) :=
  match l with
  | [] => Some []
  | prog :: l =>
      if bpf_program__is_function_storage prog obj then l ← set_programs a obj l; Some (prog :: l)
      else
        let prog := if negb (pl_prog_type a =? BPF_PROG_TYPE_UNSPEC)
                    then with_types (pl_prog_type a) (pl_expected_attach_type a) prog else prog in
        if p_type prog =? BPF_PROG_TYPE_UNSPEC then None
        else l ← set_programs a obj l; Some (with_load_args (pl_ifindex a) (pl_log_level a) (pl_prog_flags a) prog :: l)
  end.

Definition bpf_prog_load_xattr (a : prog_load_attr) : io K (Z * option (bpf_object * Z)) :=
  r ← bpf_object__open (pl_file a);
  match r with
  | inl _ => mret (- ENOENT, None)
  | inr obj =>
      match set_programs a obj (programs obj) with
      | None => _ ← bpf_object__close obj; mret (- EINVAL, None)
      | Some l =>
          let obj := with_programs l obj in
          let obj := with_maps ((λ m, if map_is_offload_neutral m then m else with_map_ifindex (pl_ifindex a) m) <$> maps obj) obj in
          match head (for_each_program obj) with
          | None => _ ← bpf_object__close obj; mret (- ENOENT, None)
          | Some i =>
              '(err, obj) ← bpf_object__load obj;
              if negb (err =? 0) then _ ← bpf_object__close obj; mret (- EINVAL, None)
              else
                first_prog ← pure_res (or_fault (programs obj !! i) OutOfBounds);
                fd ← pure_res (bpf_program__fd first_prog);
                mret (0, Some (obj, fd))
          end
      end
  end.
End load.
End libbpf.
