(* ===== verification/ObjectProps.v ===== *)
(** * Objects of libbpf: what loading leaves behind

    A system under [ObjLaws] shows what is behind every descriptor.  Loading an object
    that was read leaves a map behind a descriptor of its own for every map, and a program
    with the instructions linked to those descriptors for every program; or it fails and
    leaves nothing. *)

From S2P Require Import Prelude Io Config Packet Loader DefaultProg Netlink XskLib Bytes Btf Object.
From S2P Require BpfSys.

(** ** The system *)

(** Behind a descriptor: a map, with the element at key 0 that was stored in it; a
    program; something else. *)
Inductive kobj :=
  | KMap (a : BpfSys.bpf_create_map_attr) (elem : option buffer)
  | KProg (a : load_attr)
  | KOther.

Class ObjView (K : Type) `{ObjSys K} := {
  kobjs : K → gmap Z kobj;
  os_files : K → gset string
}.

Definition quiet {K} `{ObjView K} (k k' : K) : Prop := kobjs k' = kobjs k ∧ os_files k' = os_files k.

(** A call that gives a descriptor gives a new one, or fails with an error. *)
Definition gives {K} `{ObjView K} (o : kobj) (fd : Z) (k k' : K) : Prop :=
  if fd <? 0 then quiet k k' ∧ 0 < oerrno k'
  else kobjs k !! fd = None ∧ kobjs k' = <[fd := o]> (kobjs k) ∧ os_files k' = os_files k.

(** The kernel takes a log of less than [2 ^ 30] bytes (UINT_MAX >> 2, and UINT_MAX >> 8
    before Linux 5.2), and only then says that it is too short. *)
Class ObjLaws (K : Type) `{ObjView K} := {
  alloc_law k : quiet k (o_alloc k).2;
  cpus_law k : quiet k (o_num_possible_cpus k).2;
  close_law fd k : kobjs (o_close fd k).2 = delete fd (kobjs k) ∧ os_files (o_close fd k).2 = os_files k;
  create_law a k : gives (KMap a None) (o_create_map a k).1 k (o_create_map a k).2;
  update_law fd v k a e : kobjs k !! fd = Some (KMap a e) →
    let '(r, k') := o_update_elem fd 0 v 0 k in
    r ≤ 0 ∧ os_files k' = os_files k ∧
    kobjs k' = if r =? 0 then <[fd := KMap a (Some v)]> (kobjs k) else kobjs k;
  freeze_law fd k : quiet k (o_map_freeze fd k).2;
  load_law a has size k : let '(r, _, k') := o_load_program a has size k in
    gives (KProg a) r k k' ∧ (r < 0 → oerrno k' = ENOSPC → 0 < size < 2 ^ 30)
}.

Section props.
Context {K : Type} `{ObjLaws K}.
Implicit Types (k : K) (F : list Z) (obj : bpf_object).

Lemma quiet_refl k : quiet k k.
Proof. done. Qed.
Lemma quiet_trans k1 k2 k3 : quiet k1 k2 → quiet k2 k3 → quiet k1 k3.
Proof. intros [? ?] [? ?]. split; congruence. Qed.

Lemma gives_quiet o fd k k1 k2 : quiet k k1 → gives o fd k1 k2 → gives o fd k k2.
Proof.
  unfold gives. intros [Hk Hf]. destruct (fd <? 0).
  - intros [[Hk2 Hf2] ?]. split; [split; congruence|done].
  - by rewrite Hk, Hf.
Qed.

(** ** Descriptors *)

(** Over [m0], what was behind descriptors, exactly the descriptors of [F] are new,
    one time each. *)
Definition owns F (m0 : gmap Z kobj) (k : K) : Prop :=
  NoDup F ∧ (∀ fd, fd ∈ F → m0 !! fd = None ∧ is_Some (kobjs k !! fd)) ∧
  ∀ fd, fd ∉ F → kobjs k !! fd = m0 !! fd.

#[global] Instance owns_perm : Proper ((≡ₚ) ==> (=) ==> (=) ==> iff) owns.
Proof.
  intros F1 F2 HF ? m0 -> ? k ->. unfold owns. rewrite HF. by setoid_rewrite HF.
Qed.

Lemma owns_start k : owns [] (kobjs k) k.
Proof. split; [constructor|]. by split; [intros ? ?%elem_of_nil|]. Qed.

Lemma owns_none m0 k : owns [] m0 k → kobjs k = m0.
Proof. intros (_ & _ & Hs). apply map_eq. intros fd. apply Hs, not_elem_of_nil. Qed.

Lemma owns_quiet F m0 k k' : kobjs k' = kobjs k → owns F m0 k → owns F m0 k'.
Proof. unfold owns. by intros ->. Qed.

Lemma owns_new F m0 k k' fd o :
  kobjs k !! fd = None → kobjs k' = <[fd := o]> (kobjs k) → owns F m0 k → owns (fd :: F) m0 k'.
Proof.
  intros Hn Hk' (Hd & Hf & Hs).
  assert (fd ∉ F) as HF by (intros [_ [? Hx]]%Hf; congruence).
  split; [by constructor|]. rewrite Hk'. split.
  - intros x [->|Hx]%elem_of_cons; [by rewrite <-Hs, lookup_insert_eq|].
    rewrite lookup_insert_ne by set_solver. by apply Hf.
  - intros x Hx. rewrite lookup_insert_ne by set_solver. apply Hs. set_solver.
Qed.

Lemma owns_close fd F m0 k k' : kobjs k' = delete fd (kobjs k) → owns (fd :: F) m0 k → owns F m0 k'.
Proof.
  intros Hk' (Hd & Hf & Hs). apply NoDup_cons in Hd as [Hfd Hd]. split; [done|]. rewrite Hk'. split.
  - intros x Hx. rewrite lookup_delete_ne by set_solver. apply Hf. by right.
  - intros x Hx. destruct (decide (fd = x)) as [->|Hne].
    + rewrite lookup_delete_eq. symmetry. apply Hf. by left.
    + rewrite lookup_delete_ne by done. apply Hs. set_solver.
Qed.

(** Another value behind a descriptor that is owned. *)
Lemma owns_update fd o F m0 k k' :
  fd ∈ F → kobjs k' = <[fd := o]> (kobjs k) → owns F m0 k → owns F m0 k'.
Proof.
  intros Hfd Hk' (Hd & Hf & Hs). split; [done|]. rewrite Hk'. split.
  - intros x Hx. split; [by apply Hf|]. rewrite lookup_insert. case_decide; [done|by apply Hf].
  - intros x Hx. rewrite lookup_insert_ne by set_solver. by apply Hs.
Qed.

(** What is open among descriptors of which the negative ones are none. *)
Definition open_fds F : list Z := filter (λ fd, 0 ≤ fd) F.

Lemma zclose_spec fd F m0 k :
  owns (open_fds [fd] ++ F) m0 k →
  wp (zclose fd) (λ r k', (∃ e, r = Ok e) ∧ owns F m0 k' ∧ os_files k' = os_files k) k.
Proof.
  intros Ho. unfold zclose, open_fds in *. destruct (Z.leb_spec 0 fd).
  - rewrite filter_cons_True in Ho by done. wp_step. pose proof (close_law fd k) as [Hc Hf].
    match goal with E : o_close _ _ = _ |- _ => rewrite E in * end. split; [by eexists|]. split; [|done].
    by eapply owns_close.
  - rewrite filter_cons_False in Ho by lia. wp_step. split; [by eexists|]. done.
Qed.

(** ** Creating the maps *)

(** A map that has no file. *)
Definition never_pinned (m : bpf_map) : Prop := pin_path m = None ∧ pinned m = false.

(** The attributes of BTF that go with [m]: none, or those that BTF has for it. *)
Definition btf_of obj (m : bpf_map) (b key value : Z) : Prop :=
  (b = 0 ∧ key = 0 ∧ value = 0) ∨
  ∃ t m', o_btf obj = Some t ∧ bpf_map_find_btf_info obj t m = Ok (0, m') ∧
    b = btf_fd t ∧ key = m_btf_key_type_id m' ∧ value = m_btf_value_type_id m'.

(** What the map [m] is created with.  An array of perf events without a size has one
    place per processor; [inner_map_fd] is only set for a map in map. *)
Definition asks_for obj (m : bpf_map) (a : BpfSys.bpf_create_map_attr) : Prop :=
  let d := def m in
  BpfSys.cm_name a = (if cap_name obj then Some (m_name m) else None) ∧
  BpfSys.cm_map_type a = md_type d ∧ BpfSys.cm_map_flags a = md_map_flags d ∧
  BpfSys.cm_key_size a = md_key_size d ∧ BpfSys.cm_value_size a = md_value_size d ∧
  BpfSys.cm_map_ifindex a = map_ifindex m ∧ BpfSys.cm_numa_node a = 0 ∧
  (BpfSys.cm_max_entries a = md_max_entries d ∨
   md_type d = BPF_MAP_TYPE_PERF_EVENT_ARRAY ∧ md_max_entries d = 0 ∧ 0 ≤ BpfSys.cm_max_entries a) ∧
  (bpf_map_type__is_map_in_map (md_type d) = true → 0 ≤ inner_map_fd m → BpfSys.cm_inner_map_fd a = inner_map_fd m) ∧
  btf_of obj m (BpfSys.cm_btf_fd a) (BpfSys.cm_btf_key_type_id a) (BpfSys.cm_btf_value_type_id a).

(** The element that a map of a data section starts with. *)
Definition first_elem obj (m : bpf_map) : option buffer :=
  match libbpf_type m with
  | LIBBPF_MAP_DATA => Some (sec_data obj)
  | LIBBPF_MAP_RODATA => Some (sec_rodata obj)
  | _ => None
  end.

(** [m'] is [m] with a descriptor, behind which is the map it asks for; one that had a
    descriptor already stays. *)
Definition made obj k (m m' : bpf_map) : Prop :=
  if 0 <=? m_fd m then m' = m
  else ∃ a key value, 0 ≤ m_fd m' ∧ m' = with_map_fd (m_fd m') (with_tids key value m) ∧
    kobjs k !! m_fd m' = Some (KMap a (first_elem obj m)) ∧ asks_for obj m a.

(** BTF has an answer for every map. *)
Definition btf_answers obj : Prop :=
  ∀ t m, o_btf obj = Some t → ∃ r, bpf_map_find_btf_info obj t m = Ok r.

Lemma with_tids_same m : m = with_tids (m_btf_key_type_id m) (m_btf_value_type_id m) m.
Proof. by destruct m. Qed.

Lemma find_btf_info_tids obj t m r m' :
  bpf_map_find_btf_info obj t m = Ok (r, m') → ∃ key value, m' = with_tids key value m.
Proof.
  unfold bpf_map_find_btf_info. intros E.
  assert (m' = m ∨ ∃ key value, m' = with_tids key value m) as [->|]; [|eexists _, _; apply with_tids_same|done].
  destruct (m_sec_idx m =? btf_maps_shndx obj); [injection E; auto|]. destruct (negb _).
  - destruct (btf__get_map_kv_tids _ _ _ _) as [[ret|[key value]]|]; [| |done]; injection E; eauto.
  - destruct (btf__find_by_name _ _) as [ret|]; [|done]. revert E. cbn.
    destruct (ret <? 0); injection 1; eauto.
Qed.

Lemma first_elem_tids obj key value fd m : first_elem obj (with_map_fd fd (with_tids key value m)) = first_elem obj m.
Proof. done. Qed.

Lemma populate_spec obj map a k :
  kobjs k !! m_fd map = Some (KMap a None) → libbpf_type map ≠ LIBBPF_MAP_UNSPEC →
  wp (bpf_object__populate_internal_map obj map) (λ r k', ∃ err, r = Ok err ∧ err ≤ 0 ∧ os_files k' = os_files k ∧
    kobjs k' = if err <? 0 then kobjs k else <[m_fd map := KMap a (first_elem obj map)]> (kobjs k)) k.
Proof.
  intros Hfd Ht. unfold bpf_object__populate_internal_map, first_elem. case_bool_decide as Hb.
  { wp_step. rewrite Hb. exists 0. split_and!; [done..|]. cbn. by rewrite insert_id. }
  apply wp_bind, wp_call. intros err k1 E. set (v := if bool_decide _ then _ else _) in E.
  pose proof (update_law (m_fd map) v k a None Hfd) as Hu. rewrite E in Hu. destruct Hu as (Hle & Hf & Hk1).
  destruct (Z.eqb_spec err 0) as [->|Hne]; cbn [andb].
  - case_bool_decide as Hr.
    + apply wp_bind, wp_call. intros x k2 E2. pose proof (freeze_law (m_fd map) k1) as [Hq Hq'].
      rewrite E2 in Hq, Hq'. cbn in Hq, Hq'. wp_step. exists 0. split_and!; [done|done|congruence|].
      cbn. rewrite Hq, Hk1. subst v. by rewrite Hr.
    + wp_step. exists 0. split_and!; [done..|]. cbn. rewrite Hk1. subst v. by destruct (libbpf_type map).
  - wp_step. exists err. split_and!; [done..|]. by rewrite (proj2 (Z.ltb_lt _ _)) by lia.
Qed.

(** How one round ends; a map that fails leaves nothing. *)
Definition round_ends obj (m : bpf_map) (k : K) (how : created) (m' : bpf_map) (k' : K) : Prop :=
  os_files k' = os_files k ∧
  match how with
  | Created => made obj k' m m' ∧ if 0 <=? m_fd m then kobjs k' = kobjs k
               else kobjs k !! m_fd m' = None ∧ ∃ o, kobjs k' = <[m_fd m' := o]> (kobjs k)
  | Return _ => False
  | ErrOut err => err < 0 ∧ m_fd m < 0 ∧ m_fd m' < 0 ∧ never_pinned m' ∧ kobjs k' = kobjs k
  end.

Lemma map_size_spec d n k :
  wp (map_size d n) (λ r k', quiet k k' ∧ ((∃ err, r = Ok (inl err) ∧ err < 0) ∨
    ∃ max n', r = Ok (inr (max, n')) ∧
      (max = md_max_entries d ∨ md_type d = BPF_MAP_TYPE_PERF_EVENT_ARRAY ∧ md_max_entries d = 0 ∧ 0 ≤ max))) k.
Proof.
  unfold map_size. destruct (_ && _) eqn:Ec; [|wp_step; split; [done|right; eauto]].
  apply andb_true_iff in Ec as [Et%Z.eqb_eq Em%Z.eqb_eq].
  apply wp_bind, (wp_mono _ (λ r k', quiet k k' ∧ ∃ n', r = Ok n')).
  { destruct (n =? 0); [|wp_step; split; [done|by eexists]]. apply wp_call. intros c k1 E.
    pose proof (cpus_law k) as Hq. rewrite E in Hq. split; [done|by eexists]. }
  intros r k1 (Hq & n' & ->). wp_step. split; [done|]. destruct (Z.ltb_spec n' 0); [left; eauto|right].
  do 2 eexists. split; [done|]. right. by split_and!.
Qed.

Lemma map_btf_spec obj m : btf_answers obj →
  ∃ b key value key' value', map_btf obj m = Ok (b, key, value, with_tids key' value' m) ∧ btf_of obj m b key value.
Proof.
  intros Hb. unfold map_btf, btf_of. destruct (o_btf obj) as [t|] eqn:Et.
  2: { do 5 eexists. split; [by rewrite (with_tids_same m) at 1|by left]. }
  destruct (Hb t m Et) as [[ret m'] E]. rewrite E. cbn [mbind res_bind].
  destruct (find_btf_info_tids _ _ _ _ _ E) as (key & value & Em).
  destruct (Z.eqb_spec ret 0) as [->|]; subst m'.
  - do 5 eexists. split; [done|]. right. by eexists _, _.
  - do 5 eexists. split; [done|by left].
Qed.

(** What [map_attr] gives for a map that was read is what the map asks for. *)
Lemma map_attr_asks obj m key' value' max inner b key value :
  (max = md_max_entries (def m) ∨ md_type (def m) = BPF_MAP_TYPE_PERF_EVENT_ARRAY ∧ md_max_entries (def m) = 0 ∧ 0 ≤ max) →
  btf_of obj m b key value →
  asks_for obj m (map_attr obj (with_tids key' value' m) max
    (if bpf_map_type__is_map_in_map (md_type (def m)) && (0 <=? inner_map_fd m) then inner_map_fd m else inner) b key value).
Proof.
  intros Hmax Hbtf. unfold asks_for. cbn [BpfSys.cm_name BpfSys.cm_map_type BpfSys.cm_map_flags BpfSys.cm_key_size
    BpfSys.cm_value_size BpfSys.cm_map_ifindex BpfSys.cm_numa_node BpfSys.cm_max_entries BpfSys.cm_inner_map_fd
    BpfSys.cm_btf_fd BpfSys.cm_btf_key_type_id BpfSys.cm_btf_value_type_id map_attr m_name def map_ifindex with_tids].
  split_and!; try done. intros -> Hi. by rewrite (proj2 (Z.leb_le _ _)).
Qed.

(** A map was created, or an error is told. *)
Lemma create_or_retry_spec obj m key' value' max inner b key value k :
  (max = md_max_entries (def m) ∨ md_type (def m) = BPF_MAP_TYPE_PERF_EVENT_ARRAY ∧ md_max_entries (def m) = 0 ∧ 0 ≤ max) →
  btf_of obj m b key value →
  wp (create_or_retry obj (with_tids key' value' m) max
    (if bpf_map_type__is_map_in_map (md_type (def m)) && (0 <=? inner_map_fd m) then inner_map_fd m else inner) b key value)
    (λ r k', ∃ fd a key' value', r = Ok (with_map_fd fd (with_tids key' value' m)) ∧ asks_for obj m a ∧
      gives (KMap a None) fd k k') k.
Proof.
  intros Hmax Hbtf. unfold create_or_retry. apply wp_bind, wp_call. intros fd k1 E.
  set (a := map_attr _ _ _ _ _ _ _) in E. pose proof (create_law a k) as Hg. rewrite E in Hg.
  destruct ((fd <? 0) && _) eqn:Ec; [|wp_step; exists fd, a, key', value'; split_and!; [done|by apply map_attr_asks|done]].
  apply andb_true_iff in Ec as [Hfd _]. unfold gives in Hg. cbn in Hg. rewrite Hfd in Hg. destruct Hg as [Hq _].
  apply wp_bind, wp_call. intros fd' k2 E2. set (a' := map_attr _ _ _ _ _ _ _) in E2.
  pose proof (create_law a' k1) as Hg. rewrite E2 in Hg. cbn in Hg. wp_step.
  exists fd', a', 0, 0. split; [done|]. split; [apply map_attr_asks; [done|by left]|].
  unfold gives in *. destruct Hq as [Hk Hf]. destruct (fd' <? 0).
  - destruct Hg as [? ?]. split; [by eapply quiet_trans|done].
  - rewrite <-Hk, <-Hf. done.
Qed.

Lemma fill_and_pin_spec obj m a k :
  pin_path m = None → pinned m = false → 0 ≤ m_fd m → kobjs k !! m_fd m = Some (KMap a None) →
  wp (fill_and_pin obj m) (λ r k', os_files k' = os_files k ∧ (
    (r = Ok (Created, m) ∧ kobjs k' = <[m_fd m := KMap a (first_elem obj m)]> (kobjs k)) ∨
    (∃ err, r = Ok (ErrOut err, with_map_fd (-1) m) ∧ err < 0 ∧ kobjs k' = delete (m_fd m) (kobjs k)))) k.
Proof.
  intros Hpath Hpin Hfd Hk. unfold fill_and_pin. rewrite Hpath. apply wp_bind.
  apply (wp_mono _ (λ r k', ∃ err, r = Ok err ∧ err ≤ 0 ∧ os_files k' = os_files k ∧
    kobjs k' = if err <? 0 then kobjs k else <[m_fd m := KMap a (first_elem obj m)]> (kobjs k))).
  { unfold bpf_map__is_internal. case_bool_decide as Hi; [by apply populate_spec|]. wp_step.
    exists 0. split_and!; [done..|]. unfold first_elem. rewrite Hi. cbn. by rewrite insert_id. }
  intros r k1 (err & -> & Hle & Hf & Hk1). destruct (Z.ltb_spec err 0) as [Hlt|Hge].
  - unfold zclose. rewrite (proj2 (Z.leb_le _ _)) by done. apply wp_bind, wp_call. intros x k2 E.
    pose proof (close_law (m_fd m) k1) as [Hc Hfc]. rewrite E in Hc, Hfc. cbn in Hc, Hfc. wp_step.
    split; [congruence|right]. exists err. split_and!; [done..|congruence].
  - wp_step. split; [done|]. by left.
Qed.

Lemma create_map_spec obj inner nr_cpus m k :
  never_pinned m → btf_answers obj →
  wp (create_map obj inner nr_cpus m) (λ r k', ∃ how m' inner' nr_cpus', r = Ok (how, m', inner', nr_cpus') ∧
    round_ends obj m k how m' k') k.
Proof.
  intros (Hpath & Hpin) Hbtf. unfold create_map, round_ends, made. rewrite Hpath. wp_step. wp_step. cbn beta iota. cbn [negb Z.eqb].
  destruct (Z.leb_spec 0 (m_fd m)) as [Hpre|Hneg].
  { wp_step. do 4 eexists. by split. }
  apply wp_bind. eapply wp_mono; [apply map_size_spec|].
  intros r k1 (Hq1 & [(err & -> & Hlt)|(max & n & -> & Hmax)]); cbn beta iota.
  { wp_step. do 4 eexists. split; [done|]. split; [apply Hq1|]. split_and!; [done..|apply Hq1]. }
  destruct (map_btf_spec obj m Hbtf) as (b & key & value & key' & value' & -> & Hb). wp_step. wp_step. cbn beta iota.
  apply wp_bind. eapply wp_mono; [by apply create_or_retry_spec|].
  intros r k2 (fd & a & key2 & value2 & -> & Ha & Hg). unfold gives in Hg. cbn [m_fd with_map_fd with_tids].
  destruct Hq1 as [Hk1 Hf1]. rewrite Hk1, Hf1 in *. destruct (Z.ltb_spec fd 0) as [Hlt|Hge].
  { destruct Hg as [[Hk2 Hf2] He]. wp_step. wp_step. wp_step. do 4 eexists. split; [done|]. split; [congruence|].
    split_and!; [lia|done..|congruence]. }
  destruct Hg as (Hnone & Hk2 & Hf2). apply wp_bind. eapply wp_mono; [apply (fill_and_pin_spec _ _ a)|]; try done.
  { by rewrite Hk2, lookup_insert_eq. }
  cbn [m_fd with_map_fd with_tids]. intros r k3 (Hf3 & [(-> & Hk3)|(err & -> & Hlt & Hk3)]); cbn beta iota; wp_step.
  - do 4 eexists. split; [done|]. split; [congruence|]. split; [|split; [done|]].
    + exists a, key2, value2. split_and!; [done|done| |done]. by rewrite Hk3, lookup_insert_eq.
    + eexists. by rewrite Hk3, Hk2, insert_insert_eq.
  - do 4 eexists. split; [done|]. split; [congruence|]. split_and!; [done..|]. by rewrite Hk3, Hk2, delete_insert_id.
Qed.

Lemma made_mono obj k k' m m' : kobjs k ⊆ kobjs k' → made obj k m m' → made obj k' m m'.
Proof.
  unfold made. destruct (0 <=? m_fd m); [done|]. intros Hk (a & key & value & Hfd & Hm & Ha & Has).
  exists a, key, value. split_and!; [done..| |done]. by eapply lookup_weaken.
Qed.

Lemma made_fd obj k m m' : made obj k m m' → 0 ≤ m_fd m'.
Proof. unfold made. destruct (Z.leb_spec 0 (m_fd m)); [by intros ->|]. by intros (a & key & value & ? & _). Qed.

Lemma made_pinned obj k m m' : made obj k m m' → never_pinned m → never_pinned m'.
Proof. unfold made. destruct (0 <=? m_fd m); [by intros ->|]. by intros (a & key & value & _ & -> & _). Qed.

Lemma open_fds_app l1 l2 : open_fds (l1 ++ l2) = open_fds l1 ++ open_fds l2.
Proof. apply filter_app. Qed.

Lemma open_fds_id l : Forall (λ fd, 0 ≤ fd) l → open_fds l = l.
Proof.
  unfold open_fds. induction 1 as [|fd l Hfd _ IH]; [done|]. by rewrite filter_cons_True, IH.
Qed.

Lemma open_fds_none l : Forall (λ fd, fd < 0) l → open_fds l = [].
Proof.
  unfold open_fds. induction 1 as [|fd l Hfd _ IH]; [done|]. by rewrite filter_cons_False by lia.
Qed.

Lemma made_open obj k ms ms' : Forall2 (made obj k) ms ms' → open_fds (m_fd <$> ms') = m_fd <$> ms'.
Proof.
  intros Hm. apply open_fds_id, Forall_fmap. induction Hm; constructor; [by eapply made_fd|done].
Qed.

Lemma made_never obj k ms ms' : Forall2 (made obj k) ms ms' → Forall never_pinned ms → Forall never_pinned ms'.
Proof. induction 1; inversion_clear 1; constructor; [by eapply made_pinned|auto]. Qed.

(** Closing maps gives back their descriptors. *)
Lemma close_maps_spec l F m0 k :
  owns (open_fds (m_fd <$> l) ++ F) m0 k →
  wp (close_maps l) (λ r k', r = Ok (with_map_fd (-1) <$> l) ∧ owns F m0 k' ∧ os_files k' = os_files k) k.
Proof.
  revert k. induction l as [|m l IH]; intros k Ho; cbn [close_maps]; [by wp_step|].
  change (m_fd <$> m :: l) with ([m_fd m] ++ (m_fd <$> l)) in Ho.
  rewrite open_fds_app, <-app_assoc in Ho. apply wp_bind. eapply wp_mono; [by apply zclose_spec|].
  intros r k1 ([e ->] & Ho1 & Hf1). apply wp_bind. eapply wp_mono; [by apply IH|].
  intros r k2 (-> & Ho2 & Hf2). wp_step. split; [done|]. split; [done|congruence].
Qed.

(** The maps before are made, those that are left are as they were; the object owns
    the descriptors that it has. *)
Lemma create_maps_from_spec obj m0 todo : ∀ ms done inner nr_cpus k,
  Forall2 (made obj k) ms done → Forall never_pinned (ms ++ todo) → btf_answers obj →
  owns (open_fds (m_fd <$> done ++ todo)) m0 k →
  wp (create_maps_from obj done todo inner nr_cpus) (λ r k', os_files k' = os_files k ∧ ∃ err l, r = Ok (err, l) ∧
    Forall never_pinned l ∧ length l = length (done ++ todo) ∧ owns (open_fds (m_fd <$> l)) m0 k' ∧
    if err =? 0 then Forall2 (made obj k') (ms ++ todo) l ∧ kobjs k ⊆ kobjs k' else err < 0) k.
Proof.
  induction todo as [|m todo IH]; intros ms done inner nr_cpus k Hmade Hfresh Hbtf Ho; cbn [create_maps_from].
  { wp_step. rewrite !app_nil_r in *. split; [done|]. do 2 eexists. split; [done|]. split; [by eapply made_never|]. done. }
  apply Forall_app in Hfresh as [Hms Hfresh]. inversion_clear Hfresh as [|? ? Hm Htodo].
  apply wp_bind. eapply wp_mono; [by apply create_map_spec|].
  intros r k1 (how & m' & inner' & nr' & -> & Hf1 & Hhow). cbn beta iota. rewrite fmap_app, open_fds_app in Ho.
  change (m_fd <$> m :: todo) with ([m_fd m] ++ (m_fd <$> todo)) in Ho. rewrite open_fds_app in Ho.
  destruct how as [|err|err]; [|done|].
  - destruct Hhow as (Hm' & Hcase). pose proof (made_fd _ _ _ _ Hm') as Hfd.
    assert (kobjs k ⊆ kobjs k1 ∧ owns (open_fds (m_fd <$> (done ++ [m']) ++ todo)) m0 k1) as [Hsub Ho1].
    { rewrite fmap_app, open_fds_app, fmap_app, open_fds_app, <-app_assoc. cbn [fmap list_fmap].
      rewrite (open_fds_id [m_fd m']) by by constructor. unfold made in Hm'. destruct (Z.leb_spec 0 (m_fd m)) as [Hpre|Hneg].
      - subst m'. rewrite (open_fds_id [m_fd m]) in Ho by by constructor. rewrite Hcase. split; [done|by eapply owns_quiet].
      - rewrite (open_fds_none [m_fd m]) in Ho by by constructor. destruct Hcase as (Hnone & o & Hk1). rewrite Hk1.
        split; [by apply insert_subseteq|]. cbn [app] in *. rewrite <-Permutation_middle. by eapply owns_new. }
    eapply wp_mono; [apply (IH (ms ++ [m]))|].
    + apply Forall2_app; [|by constructor]. eapply Forall2_impl; [exact Hmade|]. intros ??. by apply made_mono.
    + rewrite <-app_assoc. cbn. apply Forall_app. split; [done|by constructor].
    + done.
    + exact Ho1.
    + intros r k2 (Hf2 & Hr). rewrite <-!app_assoc in Hr. split; [congruence|].
      destruct Hr as (err & l & -> & Hn & Hlen & Ho2 & Hr). do 2 eexists. split; [done|]. split; [done|].
      rewrite !length_app in *. cbn [length] in *. split; [lia|]. split; [done|].
      destruct (err =? 0); [|done]. split; [apply Hr|]. by etrans; [|apply Hr].
  - destruct Hhow as (Hlt & Hneg & Hneg' & Hnp & Hk1). rewrite (open_fds_none [m_fd m]) in Ho by by constructor. cbn [app] in Ho.
    apply wp_bind. eapply wp_mono; [apply (close_maps_spec _ (open_fds (m_fd <$> todo)) m0)|].
    + by eapply owns_quiet.
    + intros r k2 (-> & Ho2 & Hf2). wp_step. split; [congruence|]. do 2 eexists. split; [done|].
      rewrite (proj2 (Z.eqb_neq _ _)) by lia. split; [|split; [|split; [|done]]].
      * apply Forall_app. split; [|by constructor]. apply Forall_fmap. eapply Forall_impl; [by eapply made_never|]. done.
      * rewrite !length_app, length_fmap. done.
      * rewrite fmap_app, open_fds_app, (open_fds_none (m_fd <$> _)) by (rewrite <-list_fmap_compose; by apply Forall_fmap, Forall_forall).
        change (m_fd <$> m' :: todo) with ([m_fd m'] ++ (m_fd <$> todo)). by rewrite open_fds_app, (open_fds_none [m_fd m']) by by constructor.
Qed.
End props.
