(* ===== verification/ObjectLink.v ===== *)
(** * Relocation in libbpf

    [link] is what the relocations of a program mean, instruction by instruction and
    in no order; [bpf_object__relocate] reaches it for every program of the object. *)

From S2P Require Import Prelude Io Config Packet Loader DefaultProg Netlink XskLib Bytes Btf Object ObjectProps.

(** ** The meaning of relocations *)

Definition is_call (r : reloc_desc) : bool := match relo r with RELO_CALL => true | _ => false end.

(** The instructions that a relocation is about: loading an address takes two. *)
Definition spans (r : reloc_desc) : list Z :=
  if is_call r then [insn_idx r] else [insn_idx r; insn_idx r + 1].

Definition reloc_ok (n nr_maps : nat) (r : reloc_desc) : Prop :=
  0 ≤ insn_idx r ∧ Forall (λ i, i < Z.of_nat n) (spans r) ∧
  (is_call r = false → 0 ≤ map_idx r < Z.of_nat nr_maps).

(** The relocations of [n] instructions: each in range, and of instructions of its own. *)
Definition relocs_ok (n nr_maps : nat) (rs : list reloc_desc) : Prop :=
  NoDup (rs ≫= spans) ∧ Forall (reloc_ok n nr_maps) rs.

Fixpoint relo_at (rs : list reloc_desc) (i : Z) : option reloc_desc :=
  match rs with
  | [] => None
  | r :: rs => if insn_idx r =? i then Some r else relo_at rs i
  end.

Definition imm_at (l : list bpf_insn) (i : Z) : Z := from_option imm 0 (l !! Z.to_nat i).

(** An instruction with a relocation has the descriptor of its map, or the distance to
    the function behind the [main] instructions of the program; behind one that loads an
    address inside a section is the offset that was in the first. *)
Definition link_insn (mapfds : list Z) (main : Z) (rs : list reloc_desc) (base : list bpf_insn) (i : nat) (x : bpf_insn) : bpf_insn :=
  let i := Z.of_nat i in
  match relo_at rs i with
  | Some r =>
      let fd := default 0 (mapfds !! Z.to_nat (map_idx r)) in
      match relo r with
      | RELO_CALL => with_imm (s32 (imm x + main - i)) x
      | RELO_LD64 => with_imm fd (with_src BPF_PSEUDO_MAP_FD x)
      | RELO_DATA => with_imm fd (with_src BPF_PSEUDO_MAP_VALUE x)
      end
  | None =>
      match relo_at rs (i - 1) with
      | Some r => match relo r with RELO_DATA => with_imm (imm_at base (i - 1)) x | _ => x end
      | None => x
      end
  end.
Definition link (mapfds : list Z) (main : Z) (rs : list reloc_desc) (base : list bpf_insn) : list bpf_insn :=
  imap (link_insn mapfds main rs base) base.

Definition text_of (obj : bpf_object) : option (nat * bpf_program) :=
  list_find (λ p, p_idx p = text_shndx obj) (programs obj).

(** A program with its relocations done; one that calls a function has those of [text] too. *)
Definition link_program (mapfds : list Z) (text : list bpf_insn) (p : bpf_program) : bpf_program :=
  let l := default [] (insns p) in
  if existsb is_call (relocs p) then
    with_insns (Some (link mapfds (Z.of_nat (length l)) (relocs p) (l ++ text))) (Z.of_nat (length l)) [] p
  else with_insns (Some (link mapfds 0 (relocs p) l)) 0 [] p.

(** What the program at [i] finds in .text: instructions already linked if .text comes earlier. *)
Definition text_for (mapfds : list Z) (obj : bpf_object) (i : nat) : list bpf_insn :=
  match text_of obj with
  | Some (j, t) => default [] (insns (if (j <? i)%nat then link_program mapfds [] t else t))
  | None => []
  end.

Definition link_object (mapfds : list Z) (obj : bpf_object) : list bpf_program :=
  imap (λ i p, link_program mapfds (text_for mapfds obj i) p) (programs obj).

(** ** One relocation after the other *)

Lemma relo_at_Some rs i r : relo_at rs i = Some r → r ∈ rs ∧ insn_idx r = i.
Proof.
  induction rs as [|r' rs IH]; [done|]. cbn. destruct (Z.eqb_spec (insn_idx r') i) as [|].
  - intros [= <-]. split; [by left|done].
  - intros [? ?]%IH. split; [by right|done].
Qed.

Lemma spans_first r : insn_idx r ∈ spans r.
Proof. unfold spans. destruct (is_call r); by left. Qed.
Lemma spans_second r : relo r = RELO_DATA → insn_idx r + 1 ∈ spans r.
Proof. unfold spans, is_call. intros ->. right. by left. Qed.

(** A relocation shares no instruction with the others. *)
Definition alone (r : reloc_desc) (rs : list reloc_desc) : Prop := ∀ r' i, r' ∈ rs → i ∈ spans r → i ∉ spans r'.

Lemma relocs_ok_cons n m r rs : relocs_ok n m (r :: rs) → alone r rs ∧ reloc_ok n m r ∧ relocs_ok n m rs.
Proof.
  intros [Hd Hr]. cbn in Hd. apply NoDup_app in Hd as (_ & Hdis & Hd). inversion_clear Hr as [|? ? Hr1 Hr2].
  split; [|done]. intros r' i Hr' Hi Hi'. apply (Hdis i Hi). apply list_elem_of_bind. by exists r'.
Qed.

Lemma alone_at r rs i : alone r rs → i ∈ spans r → relo_at rs i = None.
Proof.
  intros Ha Hi. destruct (relo_at rs i) as [r'|] eqn:E; [|done]. apply relo_at_Some in E as [Hin <-].
  by destruct (Ha r' _ Hin Hi (spans_first r')).
Qed.

Lemma alone_data r rs i r' :
  alone r rs → i ∈ spans r → relo_at rs (i - 1) = Some r' → relo r' ≠ RELO_DATA.
Proof.
  intros Ha Hi E Hd. apply relo_at_Some in E as [Hin E]. apply (Ha r' i Hin Hi).
  replace i with (insn_idx r' + 1) by lia. by apply spans_second.
Qed.

Lemma imm_link_other fds main r l i :
  0 ≤ i → relo_at [r] i = None → (∀ r', relo_at [r] (i - 1) = Some r' → relo r' ≠ RELO_DATA) →
  imm_at (link fds main [r] l) i = imm_at l i.
Proof.
  intros Hi Hn Hd. unfold imm_at, link. rewrite list_lookup_imap. destruct (l !! Z.to_nat i) as [x|]; [|done]. cbn [fmap option_fmap option_map from_option].
  unfold link_insn. rewrite Z2Nat.id by done. rewrite Hn. destruct (relo_at [r] (i - 1)) as [r'|]; [|done].
  specialize (Hd r' eq_refl). by destruct (relo r').
Qed.

Lemma link_cons fds main r rs l :
  alone r rs → Forall (λ r, 0 ≤ insn_idx r) rs → link fds main rs (link fds main [r] l) = link fds main (r :: rs) l.
Proof.
  intros Ha Hpos. unfold link at 1 3. apply list_eq. intros j. rewrite !list_lookup_imap. unfold link at 2. rewrite list_lookup_imap.
  destruct (l !! j) as [x|]; [|done]. cbn [fmap option_fmap option_map]. f_equal. set (i := Z.of_nat j).
  assert (∀ rs base x, link_insn fds main rs base j x =
    match relo_at rs i with
    | Some r => let fd := default 0 (fds !! Z.to_nat (map_idx r)) in
                match relo r with RELO_CALL => with_imm (s32 (imm x + main - i)) x
                | RELO_LD64 => with_imm fd (with_src BPF_PSEUDO_MAP_FD x)
                | RELO_DATA => with_imm fd (with_src BPF_PSEUDO_MAP_VALUE x) end
    | None => match relo_at rs (i - 1) with
              | Some r => match relo r with RELO_DATA => with_imm (imm_at base (i - 1)) x | _ => x end
              | None => x end
    end) as Hl by done.
  rewrite !Hl. cbn [relo_at]. destruct (Z.eqb_spec (insn_idx r) i) as [Hi|Hi].
  - pose proof (spans_first r) as Hs. rewrite Hi in Hs. rewrite (alone_at _ _ _ Ha Hs).
    destruct (relo_at rs (i - 1)) as [r'|] eqn:E; [|done]. pose proof (alone_data _ _ _ _ Ha Hs E). by destruct (relo r').
  - destruct (relo_at rs i) as [r'|] eqn:E.
    + assert (insn_idx r = i - 1 → relo r ≠ RELO_DATA) as Hnd.
      { intros Hi1 Hd. pose proof (spans_second r Hd) as Hs. rewrite Hi1 in Hs. replace (i - 1 + 1) with i in Hs by lia.
        by rewrite (alone_at _ _ _ Ha Hs) in E. }
      destruct (Z.eqb_spec (insn_idx r) (i - 1)) as [Hi1|]; [|done]. specialize (Hnd Hi1). by destruct (relo r).
    + destruct (Z.eqb_spec (insn_idx r) (i - 1)) as [Hi1|Hi1].
      * pose proof (spans_first r) as Hs. rewrite Hi1 in Hs. by rewrite (alone_at _ _ _ Ha Hs).
      * destruct (relo_at rs (i - 1)) as [r'|] eqn:E1; [|done]. destruct (relo r') eqn:Er; try done.
        pose proof (relo_at_Some _ _ _ E1) as [Hin Hr']. rewrite Forall_forall in Hpos. specialize (Hpos r' Hin).
        f_equal. apply imm_link_other; [lia| |].
        -- cbn. by rewrite (proj2 (Z.eqb_neq _ _)).
        -- cbn. intros r1. destruct (Z.eqb_spec (insn_idx r) (i - 1 - 1)) as [Hi2|]; [|done]. intros [= <-] Hd.
           pose proof (spans_second r Hd) as Hs. rewrite Hi2 in Hs. replace (i - 1 - 1 + 1) with (i - 1) in Hs by lia.
           by rewrite (alone_at _ _ _ Ha Hs) in E1.
Qed.

Lemma length_link fds main rs l : length (link fds main rs l) = length l.
Proof. apply length_imap. Qed.

Lemma lookup_link fds main rs l i : link fds main rs l !! i = link_insn fds main rs l i <$> l !! i.
Proof. apply list_lookup_imap. Qed.

(** A relocation does nothing behind the instructions it is about. *)
Lemma link_app fds main r l t :
  Forall (λ i, 0 ≤ i < Z.of_nat (length l)) (spans r) → link fds main [r] (l ++ t) = link fds main [r] l ++ t.
Proof.
  intros Hs. apply list_eq. intros j. rewrite lookup_link. destruct (decide (j < length l)%nat) as [Hj|Hj].
  - rewrite !lookup_app_l by (rewrite ?length_link; lia). rewrite lookup_link.
    destruct (lookup_lt_is_Some_2 l j Hj) as [x Hx]. rewrite Hx. cbn [fmap option_fmap option_map]. f_equal.
    unfold link_insn. destruct (relo_at [r] _); [done|]. destruct (relo_at [r] (Z.of_nat j - 1)) as [r'|] eqn:E; [|done].
    apply relo_at_Some in E as [_ E]. destruct (relo r'); try done. f_equal. unfold imm_at.
    destruct (decide (j = 0%nat)) as [->|]; [|by rewrite lookup_app_l by lia].
    cbn. destruct l; [cbn in Hj; lia|done].
  - rewrite !lookup_app_r by (rewrite ?length_link; lia). rewrite length_link. destruct (t !! _) as [x|]; [|done].
    cbn [fmap option_fmap option_map]. f_equal. rewrite Forall_forall in Hs. pose proof (Hs _ (spans_first r)) as H1.
    unfold link_insn. cbn [relo_at]. rewrite (proj2 (Z.eqb_neq _ (Z.of_nat j))) by lia.
    destruct (Z.eqb_spec (insn_idx r) (Z.of_nat j - 1)) as [E|]; [|done]. destruct (relo r) eqn:Er; try done.
    pose proof (Hs _ (spans_second r Er)). lia.
Qed.

(** Without calls the length of the program does not matter. *)
Lemma link_no_calls fds main main' rs l : existsb is_call rs = false → link fds main rs l = link fds main' rs l.
Proof.
  intros Hc. apply imap_ext. intros i x _. unfold link_insn. destruct (relo_at rs (Z.of_nat i)) as [r|] eqn:E; [|done].
  apply relo_at_Some in E as [Hin _]. destruct (relo r) eqn:Er; try done.
  assert (existsb is_call rs = true) as Hx; [|by rewrite Hx in Hc].
  apply existsb_exists. exists r. split; [by apply list_elem_of_In|]. unfold is_call. by rewrite Er.
Qed.

(** ** The code does the relocations one by one *)

Lemma insn_at_ok l i : 0 ≤ i < Z.of_nat (length l) → ∃ x, l !! Z.to_nat i = Some x ∧ insn_at l i = Ok x.
Proof.
  intros Hi. destruct (lookup_lt_is_Some_2 l (Z.to_nat i)) as [x Hx]; [lia|]. exists x. split; [done|].
  unfold insn_at. rewrite (proj2 (Z.ltb_ge _ _)) by lia. by rewrite Hx.
Qed.

(** Two lists that agree where it counts. *)
Lemma link_single fds main r l l' :
  length l' = length l →
  (∀ i x, l !! i = Some x → l' !! i = Some (link_insn fds main [r] l i x)) → l' = link fds main [r] l.
Proof.
  intros Hlen Hl. apply list_eq. intros i. rewrite lookup_link. destruct (l !! i) as [x|] eqn:E; cbn.
  - by apply Hl.
  - apply lookup_ge_None_2. rewrite Hlen. by apply lookup_ge_None_1.
Qed.

Lemma length_set_insn i x l : length (set_insn i x l) = length l.
Proof. apply length_insert. Qed.

Lemma lookup_set_insn i x l j : 0 ≤ i < Z.of_nat (length l) →
  set_insn i x l !! j = if i =? Z.of_nat j then Some x else l !! j.
Proof.
  intros Hi. unfold set_insn. destruct (Z.eqb_spec i (Z.of_nat j)) as [->|Hne].
  - rewrite Nat2Z.id, list_lookup_insert_eq by lia. done.
  - apply list_lookup_insert_ne. lia.
Qed.

Lemma call_step fds main r l x :
  relo r = RELO_CALL → 0 ≤ insn_idx r < Z.of_nat (length l) → l !! Z.to_nat (insn_idx r) = Some x →
  set_insn (insn_idx r) (with_imm (s32 (imm x + main - insn_idx r)) x) l = link fds main [r] l.
Proof.
  intros Hr Hi Hx. apply link_single; [apply length_set_insn|]. intros j y Hy. rewrite lookup_set_insn by done.
  unfold link_insn. cbn [relo_at]. destruct (Z.eqb_spec (insn_idx r) (Z.of_nat j)) as [E|_].
  - rewrite E, Nat2Z.id in Hx. rewrite Hr. simplify_eq. by rewrite E.
  - rewrite Hy. destruct (insn_idx r =? Z.of_nat j - 1); [by rewrite Hr|done].
Qed.

Lemma map_step obj p r l main :
  is_call r = false → reloc_ok (length l) (length (maps obj)) r → insns p = Some l →
  relocate_map p obj r =
    Ok (0, with_insns (Some (link (m_fd <$> maps obj) main [r] l)) (main_prog_cnt p) (relocs p) p).
Proof.
  intros Hc (Hi & Hs & Hm) Hl. specialize (Hm Hc). unfold spans in Hs. rewrite Hc in Hs.
  inversion_clear Hs as [|? ? H1 Hs']. inversion_clear Hs' as [|? ? H2 _]. unfold relocate_map, insns_cnt. rewrite Hl.
  cbn [default]. rewrite (proj2 (Z.leb_gt _ _)) by (cbn; lia). cbn [or_fault mbind res_bind].
  destruct (insn_at_ok l (insn_idx r)) as (x & Hx & ->); [lia|].
  destruct (insn_at_ok l (insn_idx r + 1)) as (y & Hy & ->); [lia|].
  destruct (lookup_lt_is_Some_2 (maps obj) (Z.to_nat (map_idx r))) as [m Hmap]; [lia|].
  rewrite (proj2 (Z.ltb_ge (map_idx r) 0)), Hmap by lia.
  assert (default 0 ((m_fd <$> maps obj) !! Z.to_nat (map_idx r)) = m_fd m) as Hfd by (by rewrite list_lookup_fmap, Hmap).
  destruct (relo r) eqn:Er; [| by unfold is_call in Hc; rewrite Er in Hc|]; cbn [or_fault mbind res_bind]; do 4 f_equal;
    apply link_single; rewrite ?length_set_insn; try done; intros j z Hz;
    rewrite !lookup_set_insn by (rewrite ?length_set_insn; lia); unfold link_insn; cbn [relo_at]; rewrite ?Er, ?Hfd;
    (destruct (Z.eqb_spec (insn_idx r) (Z.of_nat j)) as [E|E]; [rewrite E, Nat2Z.id in Hx; simplify_eq; by rewrite Er, Hfd|]).
  - rewrite Hz. destruct (insn_idx r =? Z.of_nat j - 1); by rewrite ?Er.
  - destruct (Z.eqb_spec (insn_idx r + 1) (Z.of_nat j)) as [E'|E'].
    + rewrite (proj2 (Z.eqb_eq (insn_idx r) (Z.of_nat j - 1))) by lia. rewrite E', Nat2Z.id in Hy. simplify_eq. rewrite Er.
      do 2 f_equal. unfold imm_at. replace (Z.of_nat j - 1) with (insn_idx r) by lia. by rewrite Hx.
    + by rewrite (proj2 (Z.eqb_neq (insn_idx r) (Z.of_nat j - 1))) by lia.
Qed.

Section relocate.
Context {K : Type} `{ObjLaws K}.
Implicit Types (k : K) (obj : bpf_object) (p t : bpf_program).

(** What a program keeps while it is relocated. *)
Definition same_program p p' : Prop :=
  ∃ l main rs, p' = with_insns l main rs p ∧ (is_Some (insns p) → is_Some l).

Lemma same_program_refl p : same_program p p.
Proof. exists (insns p), (main_prog_cnt p), (relocs p). split; [by destruct p|done]. Qed.
Lemma same_program_with p p' l main rs : same_program p p' → same_program p (with_insns (Some l) main rs p').
Proof. intros (l1 & m1 & r1 & -> & _). exists (Some l), main, rs. by split. Qed.
Lemma same_program_trans p1 p2 p3 : same_program p1 p2 → same_program p2 p3 → same_program p1 p3.
Proof.
  intros (l1 & m1 & r1 & -> & Hl1) (l2 & m2 & r2 & -> & Hl2). exists l2, m2, r2. split; [done|]. intros ?. by apply Hl2, Hl1.
Qed.

(** The instructions of .text, as they are in the object. *)
Definition text_insns obj : list bpf_insn := default [] (text_of obj ≫= λ jt, insns jt.2).

Definition all_read obj : Prop := Forall (λ p, is_Some (insns p)) (programs obj).

Lemma text_read obj j t : all_read obj → text_of obj = Some (j, t) → insns t = Some (text_insns obj).
Proof.
  intros Ha E. pose proof E as (Hj & _)%list_find_Some. unfold text_insns. rewrite E. cbn.
  unfold all_read in Ha. rewrite Forall_lookup in Ha. by destruct (Ha _ _ Hj) as [l ->].
Qed.

(** One call: .text is appended the first time. *)
Lemma reloc_text_spec obj p r l k :
  all_read obj → insns p = Some l → is_call r = true → 0 ≤ insn_idx r < Z.of_nat (length l) → 0 ≤ main_prog_cnt p →
  wp (bpf_program__reloc_text p obj r) (λ r' k', quiet k k' ∧ ∃ err p', r' = Ok (err, p') ∧ same_program p p' ∧
    if err =? 0 then p_idx p ≠ text_shndx obj ∧
      (if main_prog_cnt p =? 0 then
         p' = with_insns (Some (link (m_fd <$> maps obj) (Z.of_nat (length l)) [r] (l ++ text_insns obj)))
                (Z.of_nat (length l)) (relocs p) p
       else p' = with_insns (Some (link (m_fd <$> maps obj) (main_prog_cnt p) [r] l)) (main_prog_cnt p) (relocs p) p)
    else err < 0) k.
Proof.
  intros Ha Hl Hc Hi Hmain. assert (relo r = RELO_CALL) as Hr by (unfold is_call in Hc; by destruct (relo r)).
  unfold bpf_program__reloc_text. destruct (Z.eqb_spec (p_idx p) (text_shndx obj)) as [|Hidx].
  { wp_step. split; [done|]. do 2 eexists. split; [done|]. split; [apply same_program_refl|]. done. }
  apply wp_bind. destruct (Z.eqb_spec (main_prog_cnt p) 0) as [Hm|Hm].
  - destruct (list_find _ (programs obj)) as [[j t]|] eqn:Ef.
    2: { wp_step. cbn. split; [done|]. do 2 eexists. split; [done|]. split; [apply same_program_refl|]. done. }
    apply wp_bind, wp_call. intros ok k1 E. pose proof (alloc_law k) as Hq. rewrite E in Hq. cbn in Hq.
    destruct ok; cbn [negb].
    2: { wp_step. cbn. split; [done|]. do 2 eexists. split; [done|]. split; [apply same_program_refl|]. done. }
    rewrite (text_read obj j t Ha Ef). cbn [or_fault]. wp_step. wp_step. cbn beta iota. wp_step. cbn [negb Z.eqb].
    cbn [insns with_insns or_fault]. rewrite Hl. change (default [] (Some l)) with l. wp_step. wp_step. wp_step.
    destruct (insn_at_ok (l ++ text_insns obj) (insn_idx r)) as (x & Hx & ->); [rewrite length_app; lia|]. wp_step. cbn beta iota.
    wp_step. split; [done|]. do 2 eexists. split; [done|]. split; [by do 2 apply same_program_with; apply same_program_refl|].
    cbn [Z.eqb]. split; [done|]. unfold insns_cnt. cbn [main_prog_cnt with_insns relocs]. rewrite Hl. change (default [] (Some l)) with l.
    rewrite <-(call_step _ _ _ _ x); [done..|rewrite length_app; lia|done].
  - wp_step. cbn beta iota. cbn [negb Z.eqb]. rewrite Hl. cbn [or_fault]. wp_step. wp_step. wp_step.
    destruct (insn_at_ok l (insn_idx r)) as (x & Hx & ->); [done|]. wp_step. cbn beta iota. wp_step. split; [done|].
    do 2 eexists. split; [done|]. split; [apply same_program_with, same_program_refl|]. cbn [Z.eqb]. split; [done|].
    by rewrite <-(call_step _ _ _ _ x).
Qed.

Lemma reloc_ok_mono n n' m r : (n ≤ n')%nat → reloc_ok n m r → reloc_ok n' m r.
Proof. intros Hn (Hi & Hs & Hm). split; [done|]. split; [|done]. eapply Forall_impl; [exact Hs|]. cbn. lia. Qed.

Lemma relocs_ok_pos n m rs : relocs_ok n m rs → Forall (λ r, 0 ≤ insn_idx r) rs.
Proof. intros [_ Hr]. eapply Forall_impl; [exact Hr|]. by intros r []. Qed.

Lemma reloc_ok_spans n m r : reloc_ok n m r → Forall (λ i, 0 ≤ i < Z.of_nat n) (spans r).
Proof.
  intros (Hi & Hs & _). rewrite Forall_forall in *. intros i Hin. split; [|by apply Hs].
  unfold spans in Hin. destruct (is_call r); set_unfold; lia.
Qed.

Lemma reloc_ok_call n m r : is_call r = true → reloc_ok n m r → 0 ≤ insn_idx r < Z.of_nat n.
Proof. intros _ Hr. apply reloc_ok_spans in Hr. rewrite Forall_forall in Hr. apply Hr, spans_first. Qed.

(** The program after relocations [rs] from [l] on. *)
Definition linked_with obj (rs : list reloc_desc) p (l : list bpf_insn) : bpf_program :=
  let called := existsb is_call rs && (main_prog_cnt p =? 0) in
  let main := if called then Z.of_nat (length l) else main_prog_cnt p in
  with_insns (Some (link (m_fd <$> maps obj) main rs (if called then l ++ text_insns obj else l))) main [] p.

Lemma linked_call_first obj r rs p l main :
  is_call r = true → main_prog_cnt p = 0 → 0 < main → main = Z.of_nat (length l) →
  alone r rs → Forall (λ r, 0 ≤ insn_idx r) rs →
  linked_with obj rs (with_insns (Some (link (m_fd <$> maps obj) main [r] (l ++ text_insns obj))) main (relocs p) p)
    (link (m_fd <$> maps obj) main [r] (l ++ text_insns obj)) = linked_with obj (r :: rs) p l.
Proof.
  intros Hc Hm Hpos Hmain Ha Hrs. unfold linked_with. cbn [existsb main_prog_cnt with_insns]. rewrite Hc, Hm.
  rewrite (proj2 (Z.eqb_neq main 0)), andb_false_r by lia. cbn [orb andb Z.eqb]. rewrite link_cons by done.
  by rewrite <-Hmain.
Qed.

Lemma linked_call_next obj r rs p l :
  main_prog_cnt p ≠ 0 → alone r rs → Forall (λ r, 0 ≤ insn_idx r) rs →
  linked_with obj rs (with_insns (Some (link (m_fd <$> maps obj) (main_prog_cnt p) [r] l)) (main_prog_cnt p) (relocs p) p)
    (link (m_fd <$> maps obj) (main_prog_cnt p) [r] l) = linked_with obj (r :: rs) p l.
Proof.
  intros Hm Ha Hrs. unfold linked_with. cbn [existsb main_prog_cnt with_insns].
  rewrite (proj2 (Z.eqb_neq _ 0)), !andb_false_r by done. by rewrite link_cons.
Qed.

Lemma linked_map obj r rs p l :
  let called := existsb is_call rs && (main_prog_cnt p =? 0) in
  let main := if called then Z.of_nat (length l) else main_prog_cnt p in
  is_call r = false → Forall (λ i, 0 ≤ i < Z.of_nat (length l)) (spans r) → alone r rs → Forall (λ r, 0 ≤ insn_idx r) rs →
  linked_with obj rs (with_insns (Some (link (m_fd <$> maps obj) main [r] l)) (main_prog_cnt p) (relocs p) p)
    (link (m_fd <$> maps obj) main [r] l) = linked_with obj (r :: rs) p l.
Proof.
  intros called main Hc Hs Ha Hrs. unfold linked_with. cbn [existsb main_prog_cnt with_insns]. rewrite Hc. cbn [orb].
  rewrite length_link. fold called. fold main. destruct called; [rewrite <-link_app by done|]; by rewrite link_cons.
Qed.

Lemma relocate_each_spec obj n rs : all_read obj → ∀ p l k,
  insns p = Some l → relocs_ok n (length (maps obj)) rs → (n ≤ length l)%nat → 0 ≤ main_prog_cnt p →
  wp (relocate_each rs p obj) (λ r k', quiet k k' ∧ ∃ err p', r = Ok (err, p') ∧ same_program p p' ∧
    if err =? 0 then p' = linked_with obj rs p l ∧ (existsb is_call rs = true → p_idx p ≠ text_shndx obj)
    else err < 0) k.
Proof.
  intros Hread. induction rs as [|r rs IH]; intros p l k Hl Hok Hn Hm; cbn [relocate_each].
  { wp_step. split; [done|]. do 2 eexists. split; [done|]. rewrite Hl. split; [apply same_program_with, same_program_refl|].
    cbn [Z.eqb]. split; [|done]. unfold linked_with. cbn [existsb andb]. do 2 f_equal. apply list_eq. intros i.
    rewrite lookup_link. by destruct (l !! i). }
  pose proof (relocs_ok_pos _ _ _ Hok) as Hpos. inversion_clear Hpos as [|? ? _ Hpos'].
  apply relocs_ok_cons in Hok as (Ha & Hr & Hok). apply (reloc_ok_mono n (length l)) in Hr; [|done]. apply wp_bind.
  destruct (is_call r) eqn:Hc.
  - assert (relo r = RELO_CALL) as Er by (unfold is_call in Hc; by destruct (relo r)). rewrite Er.
    pose proof (reloc_ok_call _ _ _ Hc Hr) as Hi. eapply wp_mono; [by apply reloc_text_spec|].
    intros r' k1 (Hq & err & p1 & -> & Hsame & Hres). cbn beta iota. destruct (Z.eqb_spec err 0) as [->|He]; cbn [negb].
    2: { wp_step. split; [done|]. do 2 eexists. split; [done|]. split; [done|]. by rewrite (proj2 (Z.eqb_neq _ _)). }
    destruct Hres as [Hidx Hp1].
    assert (∃ l1, insns p1 = Some l1 ∧ (n ≤ length l1)%nat ∧ 0 ≤ main_prog_cnt p1 ∧ linked_with obj rs p1 l1 = linked_with obj (r :: rs) p l)
      as (l1 & Hl1 & Hn1 & Hm1 & Heq).
    { destruct (Z.eqb_spec (main_prog_cnt p) 0) as [Hz|Hz]; subst p1; eexists; (split; [done|]);
        rewrite ?length_link, ?length_app; (split; [lia|]); (split; [cbn; lia|]).
      - apply linked_call_first; try done; lia.
      - by apply linked_call_next. }
    eapply wp_mono; [by apply IH|]. intros r' k2 (Hq2 & err & p' & -> & Hsame' & Hres).
    split; [by eapply quiet_trans|]. do 2 eexists. split; [done|]. split; [by eapply same_program_trans|].
    destruct (err =? 0); [|done]. rewrite <-Heq. split; [apply Hres|done].
  - assert (∀ A (x y : A), match relo r with RELO_CALL => x | _ => y end = y) as Hy.
    { intros. unfold is_call in Hc. by destruct (relo r). }
    rewrite Hy. set (main := if existsb is_call rs && (main_prog_cnt p =? 0) then Z.of_nat (length l) else main_prog_cnt p).
    rewrite (map_step obj p r l main Hc Hr Hl). wp_step. cbn beta iota. cbn [negb Z.eqb].
    eapply wp_mono; [eapply (IH _ (link (m_fd <$> maps obj) main [r] l)); [done|done|by rewrite length_link|done]|].
    intros r' k2 (Hq2 & err & p' & -> & Hsame' & Hres). split; [done|]. do 2 eexists. split; [done|].
    split; [eapply same_program_trans; [|exact Hsame']; apply same_program_with, same_program_refl|].
    destruct (err =? 0); [|done]. destruct Hres as [-> Hidx]. cbn [existsb]. rewrite Hc. split; [|exact Hidx].
    apply linked_map; try done. by eapply reloc_ok_spans.
Qed.

(** ** The programs of an object *)

(** A program as it was read: with instructions, not loaded, its relocations to do. *)
Definition program_read (nr_maps : nat) p : Prop :=
  ∃ l, insns p = Some l ∧ main_prog_cnt p = 0 ∧ relocs_ok (length l) nr_maps (relocs p) ∧ fds p = None ∧ nr p = -1.

Lemma relocate_spec obj p k :
  all_read obj → program_read (length (maps obj)) p →
  wp (bpf_program__relocate p obj) (λ r k', quiet k k' ∧ ∃ err p', r = Ok (err, p') ∧ same_program p p' ∧
    if err =? 0 then p' = link_program (m_fd <$> maps obj) (text_insns obj) p ∧
      (existsb is_call (relocs p) = true → p_idx p ≠ text_shndx obj)
    else err < 0) k.
Proof.
  intros Hread (l & Hl & Hm & Hok & _). unfold bpf_program__relocate.
  eapply wp_mono; [apply (relocate_each_spec obj (length l) (relocs p) Hread p l k); try done; lia|].
  intros r k' (Hq & err & p' & -> & Hsame & Hres). split; [done|]. do 2 eexists. split; [done|]. split; [done|].
  destruct (err =? 0); [|done]. destruct Hres as [-> Hidx]. split; [|done].
  unfold linked_with, link_program. rewrite Hl, Hm. change (default [] (Some l)) with l. rewrite andb_true_r.
  by destruct (existsb is_call (relocs p)).
Qed.

(** The object when the programs before [i] are done. *)
Definition progs_at obj (i : nat) : list bpf_program :=
  imap (λ j p, if (j <? i)%nat then link_program (m_fd <$> maps obj) (text_for (m_fd <$> maps obj) obj j) p else p)
    (programs obj).
Notation obj_at obj i := (with_programs (progs_at obj i) obj).

Lemma progs_at_0 obj : progs_at obj 0 = programs obj.
Proof. unfold progs_at. apply list_eq. intros j. rewrite list_lookup_imap. by destruct (programs obj !! j). Qed.

Lemma progs_at_end obj : progs_at obj (length (programs obj)) = link_object (m_fd <$> maps obj) obj.
Proof.
  apply imap_ext. intros j p Hj. apply lookup_lt_Some in Hj. by rewrite (proj2 (Nat.ltb_lt _ _)).
Qed.

Lemma lookup_progs_at obj i j : progs_at obj i !! j =
  (λ p, if (j <? i)%nat then link_program (m_fd <$> maps obj) (text_for (m_fd <$> maps obj) obj j) p else p) <$> programs obj !! j.
Proof. apply list_lookup_imap. Qed.

Lemma progs_at_next obj i p : programs obj !! i = Some p →
  <[i := link_program (m_fd <$> maps obj) (text_for (m_fd <$> maps obj) obj i) p]> (progs_at obj i) = progs_at obj (S i).
Proof.
  intros Hp. assert (length (progs_at obj i) = length (programs obj)) as Hlen by apply length_imap.
  pose proof (lookup_lt_Some _ _ _ Hp). apply list_eq. intros j. rewrite lookup_progs_at, list_lookup_insert. case_decide as Hj.
  - destruct Hj as [<- _]. rewrite Hp. cbn [fmap option_fmap option_map]. by rewrite (proj2 (Nat.ltb_lt _ _)) by lia.
  - rewrite lookup_progs_at. destruct (programs obj !! j); [|done]. cbn [fmap option_fmap option_map].
    destruct (Nat.ltb_spec j i), (Nat.ltb_spec j (S i)); try done; lia.
Qed.

Lemma link_same fds text p : same_program p (link_program fds text p).
Proof. unfold link_program. destruct (existsb _ _); apply same_program_with, same_program_refl. Qed.

Lemma progs_at_same obj i : Forall2 same_program (programs obj) (progs_at obj i).
Proof.
  apply Forall2_lookup. intros j. rewrite lookup_progs_at. destruct (programs obj !! j) as [p|]; constructor.
  destruct (j <? i)%nat; [apply link_same|apply same_program_refl].
Qed.

Lemma list_find_imap {A} (P : A → Prop) `{∀ x, Decision (P x)} (f : nat → A → A) l :
  (∀ j x, P (f j x) ↔ P x) → list_find P (imap f l) = (λ jx, (jx.1, f jx.1 jx.2)) <$> list_find P l.
Proof.
  revert f. induction l as [|x l IH]; intros f Hf; [done|]. cbn [imap list_find]. destruct (decide (P x)) as [Hx|Hx].
  - by rewrite decide_True by by apply Hf.
  - rewrite decide_False by by rewrite Hf. rewrite (IH (f ∘ S)) by (intros; apply Hf). by destruct (list_find P l) as [[]|].
Qed.

Lemma text_insns_at obj i :
  (∀ j t, text_of obj = Some (j, t) → (j < i)%nat → existsb is_call (relocs t) = false) →
  text_insns (obj_at obj i) = text_for (m_fd <$> maps obj) obj i.
Proof.
  intros Hc. unfold text_insns, text_of. cbn [programs with_programs text_shndx]. unfold progs_at. rewrite list_find_imap.
  2: { intros j p. destruct (j <? i)%nat; [|done]. unfold link_program. by destruct (existsb _ _). }
  unfold text_for, text_of in *. destruct (list_find _ (programs obj)) as [[j t]|] eqn:E; [|done].
  cbn [fmap option_fmap option_map mbind option_bind fst snd]. destruct (Nat.ltb_spec j i) as [Hj|Hj]; [|done].
  unfold link_program. by rewrite (Hc j t eq_refl Hj).
Qed.

Lemma text_of_idx obj j t : text_of obj = Some (j, t) → programs obj !! j = Some t ∧ p_idx t = text_shndx obj.
Proof. intros (Hj & Hidx & _)%list_find_Some. done. Qed.

(** Programs that are done keep the functions of .text apart. *)
Definition calls_leave_text obj (i : nat) : Prop :=
  ∀ j p, programs obj !! j = Some p → (j < i)%nat → existsb is_call (relocs p) = true → p_idx p ≠ text_shndx obj.

Lemma relocate_from_spec obj n : ∀ i k,
  Forall (program_read (length (maps obj))) (programs obj) → (n + i = length (programs obj))%nat → calls_leave_text obj i →
  wp (relocate_from n i (obj_at obj i)) (λ r k', quiet k k' ∧ ∃ err ps, r = Ok (err, with_programs ps obj) ∧
    Forall2 same_program (programs obj) ps ∧
    if err =? 0 then ps = link_object (m_fd <$> maps obj) obj else err < 0) k.
Proof.
  induction n as [|n IH]; intros i k Hread Hi Hcalls; cbn [relocate_from].
  { wp_step. split; [done|]. exists 0, (progs_at obj i). split; [done|]. split; [apply progs_at_same|]. cbn.
    rewrite <-progs_at_end. by f_equal. }
  destruct (lookup_lt_is_Some_2 (programs obj) i) as [p Hp]; [lia|].
  pose proof Hread as Hread'. rewrite Forall_lookup in Hread'. pose proof (Hread' _ _ Hp) as Hpr.
  cbn [programs with_programs]. rewrite lookup_progs_at, Hp. cbn [fmap option_fmap option_map or_fault].
  rewrite (proj2 (Nat.ltb_ge i i)) by lia. wp_step. wp_step. cbn beta iota. apply wp_bind. eapply wp_mono.
  { apply relocate_spec; [|exact Hpr]. apply Forall_lookup. intros j q. cbn [programs with_programs].
    rewrite lookup_progs_at. destruct (programs obj !! j) as [q'|] eqn:Hq; [|done]. intros [= <-].
    destruct (Hread' _ _ Hq) as (l & Hl & _). destruct (j <? i)%nat; [|by rewrite Hl].
    unfold link_program. by destruct (existsb _ _). }
  intros r k1 (Hq & err & p' & -> & Hsame & Hres). cbn beta iota. cbn [programs with_programs].
  destruct (Z.eqb_spec err 0) as [->|He]; cbn [negb].
  - destruct Hres as [-> Hidx]. rewrite text_insns_at.
    2: { intros j t [Hj Ht]%text_of_idx Hji. apply not_true_is_false. intros Hc. by destruct (Hcalls j t Hj Hji Hc). }
    cbn [maps with_programs]. rewrite progs_at_next by done. eapply wp_mono; [apply IH|]; [done|lia| |].
    + intros j q Hq' Hj Hc. destruct (decide (j = i)) as [->|]; [|apply (Hcalls j); [done|lia|done]].
      simplify_eq. by apply Hidx.
    + intros r k2 (Hq2 & Hr). split; [by eapply quiet_trans|done].
  - wp_step. split; [done|]. do 2 eexists. split; [done|]. split; [|by rewrite (proj2 (Z.eqb_neq _ _))].
    apply Forall2_lookup. intros j. rewrite list_lookup_insert. case_decide as Hj.
    + destruct Hj as [<- _]. rewrite Hp. by constructor.
    + pose proof (progs_at_same obj i) as Hs. rewrite Forall2_lookup in Hs. apply Hs.
Qed.

(** Relocating an object links every program, or fails. *)
Lemma object_relocate_spec obj k :
  Forall (program_read (length (maps obj))) (programs obj) →
  wp (bpf_object__relocate obj) (λ r k', quiet k k' ∧ ∃ err ps, r = Ok (err, with_programs ps obj) ∧
    Forall2 same_program (programs obj) ps ∧
    if err =? 0 then ps = link_object (m_fd <$> maps obj) obj else err < 0) k.
Proof.
  intros Hread. unfold bpf_object__relocate. pose proof (relocate_from_spec obj (length (programs obj)) 0 k Hread) as Hs.
  rewrite progs_at_0 in Hs. replace (with_programs (programs obj) obj) with obj in Hs by by destruct obj.
  apply Hs; [lia|]. intros ????. lia.
Qed.
End relocate.
