(* ===== verification/ObjectLoad.v ===== *)
(** * Loading an object of libbpf

    [bpf_object__load_xattr] and [bpf_prog_load_xattr] put together from their parts:
    after success every map and program is behind a descriptor of its own; after
    a failure nothing is. *)

From S2P Require Import Prelude Io Config Packet Loader DefaultProg Netlink XskLib Bytes Btf Object ObjectProps ObjectLink.
From S2P Require BpfSys.

(** Tries enough for the log: its buffer doubles from [BPF_LOG_BUF_SIZE] on. *)
Definition log_fuel (n : nat) : Prop := (7 ≤ n)%nat.

Section load.
Context {K : Type} `{ObjLaws K}.
Variable fuel : nat.
Hypothesis enough : log_fuel fuel.
Implicit Types (k : K) (obj : bpf_object) (p : bpf_program) (F : list Z).

(** ** One program *)

(** The buffer doubles until the kernel does not take it; seven times from [BPF_LOG_BUF_SIZE] on. *)
Lemma load_retry_spec n attr size k :
  0 < size → 2 ^ 30 ≤ size * 2 ^ Z.of_nat n →
  wp (load_retry n attr size) (λ r k', ∃ x, r = Ok x ∧
    match x with
    | inl fd => 0 ≤ fd ∧ gives (KProg attr) fd k k'
    | inr (_, e) => quiet k k' ∧ 0 < e
    end) k.
Proof.
  revert size k. induction n as [|n IH]; intros size k Hpos Hn; cbn [load_retry];
    apply wp_bind, wp_call; intros has k1 E1; pose proof (alloc_law k) as Hq; rewrite E1 in Hq; cbn in Hq;
    apply wp_bind, wp_call; intros [ret text] k2 E2; pose proof (load_law attr has size k1) as Hl; rewrite E2 in Hl;
    destruct Hl as [Hg He]; apply (gives_quiet _ _ k _ _ Hq) in Hg.
  all: destruct (Z.leb_spec 0 ret) as [Hr|Hr]; [wp_step; by exists (inl ret)|].
  all: unfold gives in Hg; rewrite (proj2 (Z.ltb_lt ret 0)) in Hg by done; destruct Hg as [Hq2 Hpe].
  all: wp_step; wp_step; destruct (Z.eqb_spec (oerrno k2) ENOSPC) as [Hs|Hs];
    [specialize (He Hr Hs)|wp_step; eexists; split; [done|]; by split].
  - rewrite Z.mul_1_r in Hn. lia.
  - rewrite Nat2Z.inj_succ, Z.pow_succ_r in Hn by lia. rewrite Z.shiftl_mul_pow2, s32_small by lia.
    eapply wp_mono; [apply IH; lia|]. intros r k3 (x & -> & Hx). exists x. split; [done|].
    destruct x as [fd|[? e]]; (split; [|]); try apply Hx.
    + eapply gives_quiet; [exact Hq2|apply Hx].
    + eapply quiet_trans; [exact Hq2|apply Hx].
Qed.

Lemma load_program_spec p obj k :
  wp (load_program fuel p obj) (λ r k', ∃ err fd, r = Ok (err, fd) ∧
    if err =? 0 then 0 ≤ fd ∧ ∃ l, insns p = Some l ∧ gives (KProg (program_attr p obj l)) fd k k'
    else err < 0 ∧ quiet k k') k.
Proof.
  unfold load_program. destruct (insns p) as [[|x l]|] eqn:El; [by wp_step; do 2 eexists| |by wp_step; do 2 eexists].
  set (attr := program_attr p obj (x :: l)). apply wp_bind. eapply wp_mono; [apply load_retry_spec; [done|]|].
  { etrans; [|apply Z.mul_le_mono_nonneg_l, Z.pow_le_mono_r; [done|done|apply Nat2Z.inj_le, enough]]. by vm_compute. }
  intros r k1 (v & -> & Hv). destruct v as [fd|[text e]]; cbn beta iota.
  { wp_step. do 2 eexists. split; [done|]. cbn [Z.eqb]. split; [apply Hv|]. eexists. split; [done|]. apply Hv. }
  destruct Hv as [Hq He]. destruct text.
  { wp_step. do 2 eexists. split; [done|]. done. }
  destruct (BPF_MAXINSNS <=? _). { wp_step. do 2 eexists. split; [done|]. done. }
  assert (- e =? 0 = false) as He0 by lia.
  destruct (negb _).
  2: { wp_step. do 2 eexists. split; [done|]. rewrite He0. split; [lia|done]. }
  apply wp_bind, wp_call. intros [fd t] k2 E2. pose proof (load_law (as_kprobe attr) false 0 k1) as Hl. rewrite E2 in Hl.
  destruct Hl as [Hg _]. unfold gives in Hg. destruct (Z.leb_spec 0 fd) as [Hfd|Hfd].
  - rewrite (proj2 (Z.ltb_ge fd 0)) in Hg by done. destruct Hg as (Hnone & Hk2 & Hf2).
    apply wp_bind, wp_call. intros y k3 E3. pose proof (close_law fd k2) as [Hc Hfc]. rewrite E3 in Hc, Hfc. cbn in Hc, Hfc.
    wp_step. do 2 eexists. split; [done|]. cbn. split; [done|]. destruct Hq as [Hk Hf]. split; [|congruence].
    by rewrite Hc, Hk2, delete_insert_id.
  - rewrite (proj2 (Z.ltb_lt fd 0)) in Hg by done. wp_step. do 2 eexists. split; [done|]. rewrite He0. split; [lia|].
    eapply quiet_trans; [exact Hq|apply Hg].
Qed.

(** A program that is not loaded, and one that is. *)
Definition unloaded p : Prop := fds p = None ∧ nr p = -1.

Definition loaded_program p (fd : Z) : bpf_program :=
  with_insns None (main_prog_cnt p) (relocs p) (with_fds 1 (Some [fd]) p).

(** The descriptors of a program, of which the negative ones are none. *)
Definition prog_fds p : list Z := take (Z.to_nat (nr p)) (default [] (fds p)).
Definition fds_ok p : Prop := 0 < nr p → ∃ l, fds p = Some l ∧ nr p ≤ Z.of_nat (length l).

Lemma unloaded_fds p : unloaded p → prog_fds p = [] ∧ fds_ok p.
Proof. intros [Hf Hn]. unfold prog_fds, fds_ok. rewrite Hn. split; [done|lia]. Qed.

Lemma program_load_spec p obj k :
  unloaded p →
  wp (bpf_program__load fuel p obj) (λ r k', ∃ err p', r = Ok (err, p') ∧ p_idx p' = p_idx p ∧
    if err =? 0 then ∃ fd l, 0 ≤ fd ∧ insns p = Some l ∧ p' = loaded_program p fd ∧ gives (KProg (program_attr p obj l)) fd k k'
    else err < 0 ∧ quiet k k' ∧ fds_ok p' ∧ open_fds (prog_fds p') = []) k.
Proof.
  intros [Hfds Hnr]. unfold bpf_program__load. rewrite Hfds. wp_step. wp_step. wp_step. wp_step. cbn beta iota.
  match goal with E : o_alloc _ = (?ok, ?k1) |- _ => pose proof (alloc_law k) as Hq; rewrite E in Hq; cbn in Hq; destruct ok end.
  2: { wp_step. do 2 eexists. split; [done|]. split; [done|]. cbn. split; [done|]. split; [done|].
       destruct (unloaded_fds p) as [-> ?]; [done|]. done. }
  apply wp_bind. eapply wp_mono; [apply load_program_spec|]. intros r k1 (err & fd & -> & Hr). cbn beta iota. wp_step.
  destruct (Z.eqb_spec err 0) as [->|He].
  - wp_step. wp_step. do 2 eexists. split; [done|]. split; [done|]. cbn [Z.eqb]. destruct Hr as (Hfd & l & Hl & Hg). exists fd, l.
    split_and!; [done..|]. by eapply gives_quiet.
  - wp_step. wp_step. do 2 eexists. split; [done|]. split; [done|]. rewrite (proj2 (Z.eqb_neq _ _)) by done.
    split; [apply Hr|]. split; [eapply quiet_trans; [exact Hq|apply Hr]|].
    split; [|done]. intros _. by exists [-1].
Qed.

(** ** All programs *)

Definition with_level (level : Z) p : bpf_program := with_load_args (prog_ifindex p) (Z.lor (log_level p) level) (prog_flags p) p.

(** What loading makes of a program: one that only stores functions stays; another is
    behind the descriptor it has. *)
Definition loaded_as obj (level : Z) k p p' : Prop :=
  if bpf_program__is_function_storage p obj then p' = p
  else ∃ fd l, 0 ≤ fd ∧ insns p = Some l ∧ p' = loaded_program (with_level level p) fd ∧
       kobjs k !! fd = Some (KProg (program_attr (with_level level p) obj l)).

Lemma loaded_as_mono obj level k k' p p' :
  kobjs k ⊆ kobjs k' → loaded_as obj level k p p' → loaded_as obj level k' p p'.
Proof.
  unfold loaded_as. intros Hk. destruct (bpf_program__is_function_storage _ _); [done|].
  intros (fd & l & Hfd & Hl & Hp & Hx). exists fd, l. split_and!; try done. by eapply lookup_weaken.
Qed.

Lemma unloaded_bind l : Forall unloaded l → l ≫= prog_fds = [].
Proof. induction 1 as [|p l Hp _ IH]; [done|]. cbn. by rewrite (proj1 (unloaded_fds p Hp)), IH. Qed.

Lemma loaded_as_fds obj level k p p' :
  unloaded p → loaded_as obj level k p p' → Forall (λ fd, 0 ≤ fd) (prog_fds p') ∧ fds_ok p'.
Proof.
  intros Hu Hl. unfold loaded_as in Hl. destruct (bpf_program__is_function_storage _ _).
  - subst p'. by destruct (unloaded_fds p Hu) as [-> ?].
  - destruct Hl as (fd & l & Hfd & _ & -> & _). split; [by repeat constructor|]. intros _. by exists [fd].
Qed.

Lemma loaded_all obj level k ps l : Forall unloaded ps → Forall2 (loaded_as obj level k) ps l →
  Forall (λ fd, 0 ≤ fd) (l ≫= prog_fds) ∧ Forall fds_ok l.
Proof.
  intros Hu Hl. revert Hu. induction Hl as [|p p' ps l Hp _ IH]; intros Hu; [by split; constructor|].
  inversion_clear Hu as [|? ? Hu1 Hu2]. destruct (loaded_as_fds _ _ _ _ _ Hu1 Hp), (IH Hu2). split; [|by constructor].
  cbn. by apply Forall_app.
Qed.

Lemma with_level_unloaded level p : unloaded p → unloaded (with_level level p).
Proof. done. Qed.

Lemma load_progs_from_spec obj level F m0 todo : ∀ ps done k,
  Forall2 (loaded_as obj level k) ps done → Forall unloaded (ps ++ todo) → owns ((done ≫= prog_fds) ++ F) m0 k →
  wp (load_progs_from fuel done todo obj level) (λ r k', os_files k' = os_files k ∧ kobjs k ⊆ kobjs k' ∧
    ∃ err l, r = Ok (err, l) ∧ p_idx <$> l = p_idx <$> done ++ todo ∧ Forall fds_ok l ∧ owns (open_fds (l ≫= prog_fds) ++ F) m0 k' ∧
    if err =? 0 then Forall2 (loaded_as obj level k') (ps ++ todo) l else err < 0) k.
Proof.
  induction todo as [|p todo IH]; intros ps done k Hdone Hun Ho; cbn [load_progs_from].
  { rewrite !app_nil_r, ?app_nil_r in *. destruct (loaded_all _ _ _ _ _ Hun Hdone) as [Hpos Hok]. wp_step.
    split; [done|]. split; [done|]. do 2 eexists. split; [done|]. split; [done|]. split; [done|].
    rewrite open_fds_id by done. by split. }
  pose proof Hun as [Hps Hrest]%Forall_app. inversion_clear Hrest as [|? ? Hp Htodo].
  assert (ps ++ p :: todo = (ps ++ [p]) ++ todo) as Happ by by rewrite <-app_assoc.
  destruct (bpf_program__is_function_storage p obj) eqn:Es.
  { assert (done ++ p :: todo = (done ++ [p]) ++ todo) as -> by by rewrite <-app_assoc.
    rewrite Happ in *. apply IH; [|done|].
    - apply Forall2_app; [done|]. constructor; [|done]. unfold loaded_as. by rewrite Es.
    - by rewrite bind_app, (unloaded_bind [p]), app_nil_r by by constructor. }
  apply wp_bind. eapply wp_mono; [apply (program_load_spec (with_level level p)), Hp|].
  intros r k1 (err & p' & -> & Hidx & Hr). cbn beta iota. destruct (Z.eqb_spec err 0) as [->|He]; cbn [negb].
  - destruct Hr as (fd & l & Hfd & Hl & Hp' & Hg). unfold gives in Hg. rewrite (proj2 (Z.ltb_ge fd 0)) in Hg by done.
    destruct Hg as (Hnone & Hk1 & Hf1). assert (kobjs k ⊆ kobjs k1) as Hsub by (rewrite Hk1; by apply insert_subseteq).
    rewrite Happ in *. eapply wp_mono; [apply (IH (ps ++ [p]))|]; [|done| |].
    + apply Forall2_app; [|constructor; [|constructor]].
      * eapply Forall2_impl; [exact Hdone|]. intros ??. by apply loaded_as_mono.
      * unfold loaded_as. rewrite Es. exists fd, l. split_and!; try done. by rewrite Hk1, lookup_insert_eq.
    + assert (prog_fds p' = [fd]) as Hpf by (by rewrite Hp'). rewrite bind_app. cbn [mbind list_bind].
      rewrite Hpf, <-app_assoc. cbn [app]. rewrite <-Permutation_middle. by eapply owns_new.
    + intros r k2 (Hf2 & Hs2 & err & l2 & -> & Hlen & Hr2). split; [congruence|]. split; [by etrans|]. do 2 eexists.
      split; [done|]. split; [|exact Hr2]. rewrite Hlen, !fmap_app, <-app_assoc. cbn. by rewrite Hidx.
  - destruct Hr as (Hlt & [Hk1 Hf1] & Hok & Hnone). destruct (loaded_all _ _ _ _ _ Hps Hdone) as [Hpos Hok'].
    wp_step. split; [done|]. split; [by rewrite Hk1|]. do 2 eexists. split; [done|].
    split; [rewrite !fmap_app; cbn; by rewrite Hidx|]. split; [|split].
    + apply Forall_app. split; [done|]. constructor; [done|]. eapply Forall_impl; [exact Htodo|]. intros q Hq. by apply unloaded_fds.
    + rewrite bind_app. cbn [mbind list_bind]. rewrite (unloaded_bind todo), app_nil_r, open_fds_app, Hnone, app_nil_r by done.
      rewrite open_fds_id by done. by eapply owns_quiet.
    + by rewrite (proj2 (Z.eqb_neq _ _)).
Qed.

(** ** Giving everything back *)

Definition descriptors obj : list Z := open_fds (m_fd <$> maps obj) ++ open_fds (programs obj ≫= prog_fds).

Lemma close_fds_spec n l F m0 k :
  (n ≤ length l)%nat → owns (open_fds (take n l) ++ F) m0 k →
  wp (close_fds n l) (λ r k', r = Ok tt ∧ owns F m0 k' ∧ os_files k' = os_files k) k.
Proof.
  revert l k. induction n as [|n IH]; intros l k Hn Ho; cbn [close_fds]; [by wp_step|].
  destruct l as [|fd l]; [cbn in Hn; lia|]. cbn [take] in Ho. change (fd :: take n l) with ([fd] ++ take n l) in Ho.
  rewrite open_fds_app, <-app_assoc in Ho. apply wp_bind. eapply wp_mono; [by apply zclose_spec|].
  intros r k1 ([e ->] & Ho1 & Hf1). eapply wp_mono; [apply IH; [cbn in Hn; lia|done]|].
  intros r k2 (-> & Ho2 & Hf2). split_and!; [done..|congruence].
Qed.

Lemma program_unload_spec p F m0 k :
  fds_ok p → owns (open_fds (prog_fds p) ++ F) m0 k →
  wp (bpf_program__unload p) (λ r k', r = Ok (with_fds (-1) None p) ∧ owns F m0 k' ∧ os_files k' = os_files k) k.
Proof.
  intros Hok Ho. unfold bpf_program__unload. apply wp_bind. destruct (Z.ltb_spec 0 (nr p)) as [Hn|Hn].
  - destruct (Hok Hn) as (l & Hl & Hlen). rewrite Hl. cbn [or_fault]. wp_step. wp_step. unfold prog_fds in Ho. rewrite Hl in Ho.
    eapply wp_mono; [apply close_fds_spec; [lia|exact Ho]|]. intros r k1 (-> & Ho1 & Hf1). wp_step. done.
  - wp_step. wp_step. split; [done|]. split; [|done]. unfold prog_fds in Ho. by replace (Z.to_nat (nr p)) with 0%nat in Ho by lia.
Qed.

Lemma unload_programs_spec l F m0 k :
  Forall fds_ok l → owns (open_fds (l ≫= prog_fds) ++ F) m0 k →
  wp (unload_programs l) (λ r k', r = Ok (with_fds (-1) None <$> l) ∧ owns F m0 k' ∧ os_files k' = os_files k) k.
Proof.
  intros Hl. revert k. induction Hl as [|p l Hp _ IH]; intros k Ho; cbn [unload_programs]; [by wp_step|].
  cbn [mbind list_bind] in Ho. rewrite open_fds_app, <-app_assoc in Ho. apply wp_bind.
  eapply wp_mono; [by apply program_unload_spec|]. intros r k1 (-> & Ho1 & Hf1). apply wp_bind.
  eapply wp_mono; [by apply IH|]. intros r k2 (-> & Ho2 & Hf2). wp_step. split_and!; [done..|congruence].
Qed.

(** The object without descriptors. *)
Definition emptied obj : bpf_object :=
  with_programs (with_fds (-1) None <$> programs obj) (with_maps (with_map_fd (-1) <$> maps obj) obj).

Lemma unload_spec obj F m0 k :
  Forall fds_ok (programs obj) → owns (descriptors obj ++ F) m0 k →
  wp (bpf_object__unload obj) (λ r k', r = Ok (emptied obj) ∧ owns F m0 k' ∧ os_files k' = os_files k) k.
Proof.
  intros Hok Ho. unfold descriptors in Ho. rewrite <-app_assoc in Ho. unfold bpf_object__unload. apply wp_bind.
  eapply wp_mono; [by apply close_maps_spec|]. intros r k1 (-> & Ho1 & Hf1). apply wp_bind.
  eapply wp_mono; [by apply unload_programs_spec|]. intros r k2 (-> & Ho2 & Hf2). wp_step. split_and!; [done..|congruence].
Qed.

Lemma unpin_auto_spec l k (Q : res (list bpf_map) → K → Prop) :
  Forall (λ m, pinned m = false) l → Q (Ok l) k → wp (unpin_auto l) Q k.
Proof.
  intros Hl. revert Q. induction Hl as [|m l Hm _ IH]; intros Q HQ; cbn [unpin_auto]; [by wp_step|].
  rewrite Hm. cbn [andb]. wp_step. wp_step. wp_step. apply IH. by wp_step.
Qed.

(** ** The object *)

Definition object_read obj : Prop :=
  loaded obj = false ∧ Forall never_pinned (maps obj) ∧ btf_answers obj ∧
  Forall (program_read (length (maps obj))) (programs obj).

(** [obj'] is [obj] with other maps and programs, as many, and marked as loaded. *)
Definition same_shape obj obj' : Prop :=
  obj' = with_programs (programs obj') (with_maps (maps obj') (with_loaded obj)) ∧
  length (maps obj') = length (maps obj) ∧ p_idx <$> programs obj' = p_idx <$> programs obj.

(** [obj'] is [obj] loaded: every map is behind its descriptor, every program too, with the
    instructions linked to the maps; over [m0] the object's descriptors are new, and no
    others. *)
Definition object_loaded obj (level : Z) (m0 : gmap Z kobj) obj' k : Prop :=
  obj' = with_programs (programs obj') (with_maps (maps obj') (with_loaded obj)) ∧
  Forall2 (made obj k) (maps obj) (maps obj') ∧
  Forall2 (loaded_as obj level k) (link_object (m_fd <$> maps obj') obj) (programs obj') ∧
  Forall fds_ok (programs obj') ∧ owns (descriptors obj') m0 k.

(** [obj'] holds nothing. *)
Definition object_empty obj' : Prop :=
  loaded obj' = true ∧ Forall (λ m, m_fd m = -1) (maps obj') ∧ Forall unloaded (programs obj').

Lemma emptied_empty obj : loaded obj = true → object_empty (emptied obj).
Proof.
  intros Hl. split; [done|]. split; cbn; apply Forall_fmap, Forall_forall; done.
Qed.

Lemma same_unloaded p p' : same_program p p' → unloaded p → unloaded p'.
Proof. by intros (l & main & rs & -> & _). Qed.

Lemma same_all_unloaded ps ps' : Forall2 same_program ps ps' → Forall unloaded ps → Forall unloaded ps'.
Proof.
  induction 1; inversion_clear 1; constructor; [by eapply same_unloaded|eauto].
Qed.

Lemma read_unloaded n l : Forall (program_read n) l → Forall unloaded l.
Proof. intros Hr. eapply Forall_impl; [exact Hr|]. by intros p (x & _ & _ & _ & ? & ?). Qed.

Lemma unloaded_ok l : Forall unloaded l → Forall fds_ok l.
Proof. intros Hl. eapply Forall_impl; [exact Hl|]. intros p Hp. by apply unloaded_fds. Qed.

(** What the loading of [obj] from [k0] on, over [m0], ends with. *)
Definition load_ends obj (level : Z) (m0 : gmap Z kobj) (k0 : K) (r : res (Z * bpf_object)) k : Prop :=
  os_files k = os_files k0 ∧ ∃ err obj', r = Ok (err, obj') ∧ Forall never_pinned (maps obj') ∧ same_shape obj obj' ∧
    if err =? 0 then object_loaded obj level m0 obj' k ∧ kobjs k0 ⊆ kobjs k
    else err < 0 ∧ object_empty obj' ∧ kobjs k = m0.

(** From a failure on: everything is given back. *)
Lemma fails_and_ends obj level err obj1 m0 k0 k :
  err < 0 → same_shape obj obj1 → Forall never_pinned (maps obj1) → Forall fds_ok (programs obj1) →
  owns (descriptors obj1) m0 k → os_files k = os_files k0 →
  wp (load_failed err obj1) (load_ends obj level m0 k0) k.
Proof.
  intros Herr Hshape Hpin Hok Ho Hf. unfold load_failed. apply wp_bind. apply unpin_auto_spec.
  { eapply Forall_impl; [exact Hpin|]. by intros m []. }
  replace (with_maps (maps obj1) obj1) with obj1 by by destruct obj1. apply wp_bind.
  eapply wp_mono; [apply (unload_spec _ [] m0); [done|by rewrite app_nil_r]|].
  intros r k1 (-> & Ho1 & Hf1). wp_step. split; [congruence|]. do 2 eexists. split; [done|].
  split; [by apply Forall_fmap; eapply Forall_impl; [exact Hpin|]|].
  rewrite (proj2 (Z.eqb_neq _ _)) by lia. destruct Hshape as (Hobj & Hlm & Hlp). split.
  - unfold same_shape, emptied. cbn [maps programs with_maps with_programs]. rewrite length_fmap, <-list_fmap_compose.
    split_and!; [|done..]. rewrite Hobj. done.
  - split; [done|]. split; [apply emptied_empty; by rewrite Hobj|by apply owns_none].
Qed.

Lemma link_object_idx mapfds obj : p_idx <$> link_object mapfds obj = p_idx <$> programs obj.
Proof.
  apply list_eq. intros i. rewrite !list_lookup_fmap. unfold link_object. rewrite list_lookup_imap.
  destruct (programs obj !! i) as [p|]; [|done]. cbn. f_equal. unfold link_program. by destruct (existsb _ _).
Qed.

Lemma same_idx ps ps' : Forall2 same_program ps ps' → p_idx <$> ps' = p_idx <$> ps.
Proof. induction 1 as [|p p' ps ps' (l & main & rs & -> & _) _ IH]; [done|]. cbn. by rewrite IH. Qed.

(** Loading the programs of an object with its maps. *)
Lemma load_progs_ends obj level l m0 k0 k :
  object_read obj → Forall2 (made obj k) (maps obj) l → owns (m_fd <$> l) m0 k →
  os_files k = os_files k0 → kobjs k0 ⊆ kobjs k →
  let obj2 := with_programs (link_object (m_fd <$> l) obj) (with_maps l (with_loaded obj)) in
  Forall unloaded (programs obj2) →
  wp ('(err, obj) ← bpf_object__load_progs fuel obj2 level;
      if negb (err =? 0) then load_failed err obj else mret (0, obj)) (load_ends obj level m0 k0) k.
Proof.
  intros (_ & Hfresh & _ & _) Hmade Ho Hf Hsub0 obj2 Hun. unfold bpf_object__load_progs. apply wp_bind, wp_bind.
  pose proof (made_open _ _ _ _ Hmade) as Hopen. eapply wp_mono.
  { apply (load_progs_from_spec obj2 level (m_fd <$> l) m0 (programs obj2) [] []); [constructor|done|done]. }
  intros r k1 (Hf1 & Hsub & err & ps & -> & Hidx & Hok & Ho1 & Hr). cbn beta iota. wp_step. cbn beta iota.
  assert (owns (descriptors (with_programs ps obj2)) m0 k1) as Hd.
  { unfold descriptors. cbn [maps with_programs with_maps programs obj2]. by rewrite Hopen, Permutation_app_comm. }
  assert (Forall2 (made obj k1) (maps obj) l) as Hm1.
  { eapply Forall2_impl; [exact Hmade|]. intros ??. by apply made_mono. }
  pose proof (made_never _ _ _ _ Hmade Hfresh) as Hnever.
  assert (same_shape obj (with_programs ps obj2)) as Hshape.
  { split_and!; [done|symmetry; exact (Forall2_length _ _ _ Hmade)|]. cbn [programs with_programs]. rewrite Hidx.
    apply link_object_idx. }
  destruct (Z.eqb_spec err 0) as [->|He]; cbn [negb].
  - wp_step. split; [congruence|]. do 2 eexists. split; [done|]. split; [done|]. split; [done|]. cbn [Z.eqb].
    split; [by split_and!|by etrans].
  - apply fails_and_ends; try done. congruence.
Qed.

Lemma load_xattr_spec obj level m0 k :
  object_read obj → owns (open_fds (m_fd <$> maps obj)) m0 k →
  wp (bpf_object__load_xattr fuel obj level) (load_ends obj level m0 k) k.
Proof.
  intros Hread Ho0. pose proof Hread as (Hl & Hfresh & Hbtf & Hprogs). unfold bpf_object__load_xattr. rewrite Hl.
  unfold bpf_object__create_maps. apply wp_bind, wp_bind. eapply wp_mono.
  { apply (create_maps_from_spec (with_loaded obj) m0 (maps obj) [] [] 0 0 k); [constructor|done|done|done]. }
  intros r k1 (Hf1 & err & l & -> & Hnever & Hlen & Ho & Hr). cbn beta iota. wp_step. cbn beta iota. cbn [app] in Hr, Hlen.
  pose proof (read_unloaded _ _ Hprogs) as Hun.
  destruct (Z.eqb_spec err 0) as [->|He]; cbn [negb].
  2: { apply fails_and_ends; [done|by split|done|by apply unloaded_ok| |done]. unfold descriptors.
       cbn [maps programs with_maps with_loaded]. by rewrite unloaded_bind, app_nil_r. }
  destruct Hr as [Hr Hsub]. assert (Forall2 (made obj k1) (maps obj) l) as Hmade by exact Hr. apply wp_bind.
  pose proof (made_open _ _ _ _ Hmade) as Hopen. rewrite Hopen in Ho. eapply wp_mono.
  { apply object_relocate_spec. cbn [maps programs with_maps with_loaded]. by rewrite <-(Forall2_length _ _ _ Hmade). }
  intros r k2 ([Hk2 Hf2] & err & ps & -> & Hsame & Hr2). cbn beta iota. cbn [programs with_maps with_loaded] in Hsame.
  pose proof (same_all_unloaded _ _ Hsame Hun) as Hun2. destruct (Z.eqb_spec err 0) as [->|He]; cbn [negb].
  - subst ps. apply (load_progs_ends obj level l m0 k k2); [done| |by eapply owns_quiet|congruence|by rewrite Hk2|done].
    eapply Forall2_impl; [exact Hmade|]. intros ??. apply made_mono. by rewrite Hk2.
  - apply fails_and_ends; [done| |done|by apply unloaded_ok| |congruence].
    + split_and!; [done|exact Hlen|exact (same_idx _ _ Hsame)].
    + unfold descriptors. cbn [maps programs with_maps with_loaded with_programs]. rewrite unloaded_bind, app_nil_r, Hopen by done.
      by eapply owns_quiet.
Qed.
End load.

