(* ===== verification/ObjectOpen.v ===== *)
(** * From a file to loaded programs: [bpf_prog_load_xattr]

    Opening sets the types of the programs, loading makes the maps and programs, and
    whatever fails everything is closed.  [OpenLaws] is what reading an ELF file
    gives. *)

From S2P Require Import Prelude Io Config Packet Loader DefaultProg Netlink XskLib Bytes Btf Object ObjectProps ObjectLink ObjectLoad.
From S2P Require BpfSys.

(** The descriptor of BTF that an object has. *)
Definition btf_fds (obj : bpf_object) : list Z :=
  match o_btf obj with
  | Some b => if btf_fd b =? -1 then [] else [btf_fd b]
  | None => []
  end.

(** An error that [ERR_PTR] can hold. *)
Definition error_code (err : Z) : Prop := - MAX_ERRNO ≤ err < 0.

Class OpenLaws (K : Type) `{ObjLaws K} := {
  (** a file that is read gives an object that holds nothing but its BTF *)
  collect_law path k : match o_collect path k with
    | (inl err, k') => error_code err ∧ quiet k k'
    | (inr obj, k') => object_read obj ∧ Forall (λ m, m_fd m = -1) (maps obj) ∧ os_files k' = os_files k ∧
        owns (btf_fds obj) (kobjs k) k'
    end;
  attach_law name k : let '(err, _, k') := o_attach_btf_id name k in (err = 0 ∨ error_code err) ∧ quiet k k'
}.

(** ** What is asked of the programs *)

(** The type and the expected attachment: those of the call, or those of the section's name
    if it is known. *)
Definition type_of (a : prog_load_attr) (p : bpf_program) : Z * Z :=
  if negb (pl_prog_type a =? BPF_PROG_TYPE_UNSPEC) then (pl_prog_type a, pl_expected_attach_type a)
  else
    let '(err, te) := libbpf_prog_type_by_name (section_name p) in
    if err =? 0 then te else (p_type p, p_expected_attach_type p).

Definition asked_program (a : prog_load_attr) (obj : bpf_object) (p p' : bpf_program) : Prop :=
  if bpf_program__is_function_storage p obj then p' = p
  else ∃ id, (type_of a p).1 ≠ BPF_PROG_TYPE_UNSPEC ∧
    p' = with_load_args (pl_ifindex a) (pl_log_level a) (pl_prog_flags a)
           (with_attach_btf_id id (with_types (type_of a p).1 (type_of a p).2 p)).

Definition asked_map (a : prog_load_attr) (m : bpf_map) : bpf_map :=
  if map_is_offload_neutral m then m else with_map_ifindex (pl_ifindex a) m.

(** [obj'] is the object [obj] of a file as it goes into the loading. *)
Definition asked (a : prog_load_attr) (obj obj' : bpf_object) : Prop :=
  obj' = with_maps (asked_map a <$> maps obj) (with_programs (programs obj') obj) ∧
  Forall2 (asked_program a obj) (programs obj) (programs obj').

(** Opening: the types by name. *)
Definition guessed_program (obj : bpf_object) (p p' : bpf_program) : Prop :=
  if bpf_program__is_function_storage p obj then p' = p
  else
    let '(err, te) := libbpf_prog_type_by_name (section_name p) in
    if err =? 0 then ∃ id, p' = with_attach_btf_id id (with_types te.1 te.2 p) else p' = p.

(** ** Steps over the programs *)

Lemma program_iter_range p obj j : bpf_program_iter p obj true = Some j →
  j = from_option S 0%nat p ∧ (j < length (programs obj))%nat.
Proof.
  unfold bpf_program_iter. destruct (length (programs obj)) as [|n] eqn:E; [done|]. destruct p as [i|].
  - destruct (Nat.ltb_spec (S i) (S n)); [|done]. intros [= <-]. by split.
  - intros [= <-]. split; [done|lia].
Qed.

Lemma program_step_spec n p obj j : bpf_program_step n p obj true = Some j →
  ∃ prog, programs obj !! j = Some prog ∧ bpf_program__is_function_storage prog obj = false ∧
  ∀ i q, (from_option S 0%nat p ≤ i < j)%nat → programs obj !! i = Some q → bpf_program__is_function_storage q obj = true.
Proof.
  revert p. induction n as [|n IH]; intros p; cbn [bpf_program_step]; destruct (bpf_program_iter p obj true) as [i|] eqn:Ei; try done;
    apply program_iter_range in Ei as [Hi _]; destruct (programs obj !! i) as [q|] eqn:Hq; try done;
    destruct (bpf_program__is_function_storage q obj) eqn:Es; try done.
  - intros [= <-]. exists q. split_and!; [done..|]. intros i' q' Hi'. lia.
  - intros (prog & Hp & Hs & Hbefore)%IH. exists prog. split_and!; [done..|]. intros i' q' Hi' Hq'.
    destruct (decide (i' = i)) as [->|]; [by simplify_eq|]. apply (Hbefore i'); [cbn; lia|done].
  - intros [= <-]. exists q. split_and!; [done..|]. intros i' q' Hi'. lia.
Qed.

(** The first program that [bpf_object__for_each_program] visits. *)
Lemma first_program_spec obj j : head (for_each_program obj) = Some j →
  ∃ prog, programs obj !! j = Some prog ∧ bpf_program__is_function_storage prog obj = false ∧
  ∀ i q, (i < j)%nat → programs obj !! i = Some q → bpf_program__is_function_storage q obj = true.
Proof.
  unfold for_each_program. destruct (length (programs obj)) as [|n] eqn:E; [done|]. cbn [for_each_program_from].
  unfold bpf_program__next. destruct (bpf_program_step _ None obj true) as [i|] eqn:Ei; [|done]. cbn. intros [= <-].
  apply program_step_spec in Ei as (prog & ? & ? & Hb). exists prog. split_and!; [done..|].
  intros i' q Hi'. apply Hb. cbn. lia.
Qed.

(** ** Preserving what was read *)

Lemma asked_map_fd a m : m_fd (asked_map a m) = m_fd m.
Proof. unfold asked_map. by destruct (map_is_offload_neutral m). Qed.

Lemma asked_never a l : Forall never_pinned l → Forall never_pinned (asked_map a <$> l).
Proof.
  intros Hf. apply Forall_fmap. eapply Forall_impl; [exact Hf|]. intros m Hm. cbn. unfold asked_map.
  by destruct (map_is_offload_neutral m).
Qed.

Lemma guessed_read obj n ps ps' :
  Forall2 (guessed_program obj) ps ps' → Forall (program_read n) ps → Forall (program_read n) ps'.
Proof.
  induction 1 as [|p p' ps ps' Hp _ IH]; inversion_clear 1; constructor; [|by apply IH]. unfold guessed_program in Hp.
  destruct (bpf_program__is_function_storage _ _); [by subst|]. destruct (libbpf_prog_type_by_name _) as [err te].
  destruct (err =? 0); [destruct Hp as [id ->]|subst p']; done.
Qed.

Lemma asked_read a obj n ps ps' :
  Forall2 (asked_program a obj) ps ps' → Forall (program_read n) ps → Forall (program_read n) ps'.
Proof.
  induction 1 as [|p p' ps ps' Hp _ IH]; inversion_clear 1; constructor; [|by apply IH]. unfold asked_program in Hp.
  destruct (bpf_program__is_function_storage _ _); [by subst|]. by destruct Hp as (id & _ & ->).
Qed.

Section open.
Context {K : Type} `{OpenLaws K}.
Variable fuel : nat.
Hypothesis enough : log_fuel fuel.
Implicit Types (k : K) (obj : bpf_object) (p : bpf_program) (F : list Z).

Lemma close_spec obj F m0 k :
  Forall fds_ok (programs obj) → owns (descriptors obj ++ btf_fds obj ++ F) m0 k →
  wp (bpf_object__close obj) (λ r k', r = Ok tt ∧ owns F m0 k' ∧ os_files k' = os_files k) k.
Proof.
  intros Hok Ho. unfold bpf_object__close. apply wp_bind. eapply wp_mono; [by apply unload_spec|].
  intros r k1 (-> & Ho1 & Hf1). cbn beta iota. apply wp_bind.
  change (o_btf (emptied obj)) with (o_btf obj). unfold btf_fds in Ho1.
  apply (wp_mono _ (λ r k', (∃ e, r = Ok e) ∧ owns F m0 k' ∧ os_files k' = os_files k)).
  { destruct (o_btf obj) as [b|]; [|wp_step; split; [by eexists|done]].
    destruct (Z.eqb_spec (btf_fd b) (-1)) as [|Hne]; cbn [negb]; [wp_step; split; [by eexists|done]|].
    apply wp_call. intros e k2 E. pose proof (close_law (btf_fd b) k1) as [Hc Hf]. rewrite E in Hc, Hf. cbn in Hc, Hf.
    split; [by eexists|]. split; [by eapply owns_close|congruence]. }
  intros r k2 ([e ->] & Ho2 & Hf2). apply wp_bind. eapply wp_mono; [apply (unload_programs_spec _ F m0)|].
  - cbn [programs emptied with_programs]. apply Forall_fmap, Forall_forall. by intros p _.
  - cbn [programs emptied with_programs]. rewrite unloaded_bind; [done|]. apply Forall_fmap, Forall_forall. done.
  - intros r k3 (-> & Ho3 & Hf3). wp_step. split_and!; [done..|congruence].
Qed.

(** An object that holds nothing but its BTF is closed. *)
Lemma close_unloaded_spec obj m0 k :
  open_fds (m_fd <$> maps obj) = [] → Forall unloaded (programs obj) → owns (btf_fds obj) m0 k →
  wp (bpf_object__close obj) (λ r k', r = Ok tt ∧ kobjs k' = m0 ∧ os_files k' = os_files k) k.
Proof.
  intros Hm Hu Ho. eapply wp_mono; [apply (close_spec obj [] m0); [by apply unloaded_ok|]|].
  - unfold descriptors. by rewrite Hm, unloaded_bind, !app_nil_r.
  - intros r k' (-> & Ho' & Hf). split_and!; [done|by apply owns_none|done].
Qed.

Lemma read_unopened l : Forall (λ m, m_fd m = -1) l → open_fds (m_fd <$> l) = [].
Proof.
  intros Hf. apply open_fds_none, Forall_fmap. eapply Forall_impl; [exact Hf|]. cbn. lia.
Qed.

Lemma type_by_name_code name : (libbpf_prog_type_by_name name).1 = 0 ∨ (libbpf_prog_type_by_name name).1 = - ESRCH.
Proof. unfold libbpf_prog_type_by_name. destruct (list_find _ _) as [[? ?]|]; [by left|by right]. Qed.

Lemma guess_types_spec obj todo : ∀ ps done k,
  Forall2 (guessed_program obj) ps done → Forall unloaded (done ++ todo) →
  wp (guess_types done todo obj) (λ r k', quiet k k' ∧ ∃ err l, r = Ok (err, l) ∧ Forall unloaded l ∧
    if err =? 0 then Forall2 (guessed_program obj) (ps ++ todo) l else error_code err) k.
Proof.
  induction todo as [|p todo IH]; intros ps done k Hd Hu; cbn [guess_types].
  { rewrite app_nil_r in *. wp_step. split; [done|]. do 2 eexists. split; [done|]. split; [done|]. done. }
  assert (ps ++ p :: todo = (ps ++ [p]) ++ todo) as Happ by by rewrite <-app_assoc.
  assert (∀ p' k1, quiet k k1 → guessed_program obj p p' → unloaded p' →
    wp (guess_types (done ++ [p']) todo obj) (λ r k', quiet k k' ∧ ∃ err l, r = Ok (err, l) ∧ Forall unloaded l ∧
      if err =? 0 then Forall2 (guessed_program obj) (ps ++ p :: todo) l else error_code err) k1) as Hstep.
  { intros p' k1 Hq Hp Hup. rewrite Happ. eapply wp_mono; [apply (IH (ps ++ [p]))|].
    - apply Forall2_app; [done|by repeat constructor].
    - rewrite <-app_assoc. cbn. apply Forall_app in Hu as [Hu1 Hu2]. inversion_clear Hu2. apply Forall_app. split; [done|by constructor].
    - intros r k2 (Hq2 & Hr). split; [by eapply quiet_trans|done]. }
  assert (unloaded p) as Hup by (apply Forall_app in Hu as [_ Hu]; by inversion_clear Hu).
  destruct (bpf_program__is_function_storage p obj) eqn:Es.
  { apply Hstep; [done| |done]. unfold guessed_program. by rewrite Es. }
  assert (∀ p', (let '(err, te) := libbpf_prog_type_by_name (section_name p) in
    if err =? 0 then ∃ id, p' = with_attach_btf_id id (with_types te.1 te.2 p) else p' = p) → guessed_program obj p p') as Hg.
  { intros p' Hp'. unfold guessed_program. by rewrite Es. }
  pose proof (type_by_name_code (section_name p)) as Hcode.
  destruct (libbpf_prog_type_by_name (section_name p)) as [err [t e]]. destruct (Z.eqb_spec err (- ESRCH)) as [->|Hne].
  { apply Hstep; [done|by apply Hg|done]. }
  destruct (Z.eqb_spec err 0) as [->|Hne0]; cbn [negb].
  2: { by destruct Hcode. }
  cbn [Z.eqb fst snd] in Hg. destruct (t =? BpfSys.BPF_PROG_TYPE_TRACING).
  - apply wp_bind, wp_call. intros [err id] k1 E. pose proof (attach_law (section_name (with_types t e p)) k) as Hq. rewrite E in Hq.
    destruct Hq as [Herr Hq]. destruct (Z.eqb_spec err 0) as [->|Hne1]; cbn [negb].
    + apply Hstep; [done|apply Hg; by exists id|done].
    + wp_step. split; [done|]. do 2 eexists. split; [done|]. apply Forall_app in Hu as [Hu1 Hu2].
      inversion_clear Hu2. split; [apply Forall_app; split; [done|by constructor]|].
      rewrite (proj2 (Z.eqb_neq _ _)) by done. by destruct Herr.
  - apply Hstep; [done| |done]. apply Hg. exists (attach_btf_id p). by destruct p.
Qed.

Lemma object_open_spec path k :
  wp (bpf_object__open path) (λ r k', os_files k' = os_files k ∧ ∃ x, r = Ok x ∧
    match x with
    | inl err => error_code err ∧ kobjs k' = kobjs k
    | inr obj => ∃ obj0, (o_collect path k).1 = inr obj0 ∧ object_read obj0 ∧ Forall (λ m, m_fd m = -1) (maps obj0) ∧
        obj = with_programs (programs obj) obj0 ∧
        Forall2 (guessed_program obj0) (programs obj0) (programs obj) ∧ owns (btf_fds obj0) (kobjs k) k'
    end) k.
Proof.
  unfold bpf_object__open. apply wp_bind, wp_call. intros x k1 E. pose proof (collect_law path k) as Hc. rewrite E in Hc |- *.
  destruct x as [err|obj].
  { wp_step. destruct Hc as [Herr [Hk Hf]]. split; [done|]. eexists. by split. }
  destruct Hc as (Hread & Hfds & Hf & Ho). pose proof Hread as (Hl & Hfresh & Hb & Hp). apply wp_bind.
  eapply wp_mono; [apply (guess_types_spec obj (programs obj) [] []); [constructor|by eapply read_unloaded]|].
  intros r k2 ([Hk2 Hf2] & err & l & -> & Hu & Hg). cbn beta iota. destruct (Z.eqb_spec err 0) as [->|Hne]; cbn [negb].
  - wp_step. split; [congruence|]. eexists. split; [done|]. exists obj. split_and!; [done..|by apply Hg|by eapply owns_quiet].
  - apply wp_bind. eapply wp_mono; [apply (close_unloaded_spec _ (kobjs k)); [by apply read_unopened|done|by eapply owns_quiet]|].
    intros r k3 (-> & Hk3 & Hf3). wp_step. split; [congruence|]. eexists. split; [done|]. done.
Qed.

(** ** The whole call *)

Lemma owns_app D B m0 k k' : owns B m0 k → owns D (kobjs k) k' → owns (D ++ B) m0 k'.
Proof.
  intros (HdB & HfB & HsB) (HdD & HfD & HsD).
  assert (∀ x, x ∈ D → x ∉ B) as Hdis.
  { intros x HxD HxB. apply HfD in HxD as [Hn _]. apply HfB in HxB as [_ [o Ho]]. congruence. }
  split; [by apply NoDup_app|]. split.
  - intros x [Hx|Hx]%elem_of_app.
    + split; [|by apply HfD]. rewrite <-HsB by by apply Hdis. by apply HfD.
    + split; [by apply HfB|]. rewrite HsD; [by apply HfB|]. intros Hx'. by apply (Hdis x).
  - intros x Hx. rewrite HsD, HsB; [done|set_solver|set_solver].
Qed.

(** The type that is asked for goes over the one of the section. *)
Lemma set_guessed a obj p0 p :
  guessed_program obj p0 p → bpf_program__is_function_storage p0 obj = false →
  ∃ id, (if negb (pl_prog_type a =? BPF_PROG_TYPE_UNSPEC)
         then with_types (pl_prog_type a) (pl_expected_attach_type a) p else p) =
    with_attach_btf_id id (with_types (type_of a p0).1 (type_of a p0).2 p0).
Proof.
  intros Hg Hs. unfold guessed_program in Hg. rewrite Hs in Hg. unfold type_of.
  destruct (libbpf_prog_type_by_name (section_name p0)) as [err te].
  assert (p0 = with_attach_btf_id (attach_btf_id p0) (with_types (p_type p0) (p_expected_attach_type p0) p0)) as Hp0 by by destruct p0.
  destruct (negb _); (destruct (err =? 0); [destruct Hg as [id ->]; by exists id|subst p]).
  - by exists (attach_btf_id p0).
  - exists (attach_btf_id p0). exact Hp0.
Qed.

Lemma guessed_storage obj p0 p obj' :
  text_shndx obj' = text_shndx obj → has_pseudo_calls obj' = has_pseudo_calls obj → guessed_program obj p0 p →
  bpf_program__is_function_storage p obj' = bpf_program__is_function_storage p0 obj.
Proof.
  intros Ht Hh Hg. unfold bpf_program__is_function_storage at 1. rewrite Ht, Hh.
  assert (p_idx p = p_idx p0) as ->; [|done]. unfold guessed_program in Hg. destruct (bpf_program__is_function_storage p0 obj); [by subst|].
  destruct (libbpf_prog_type_by_name _) as [err te]. destruct (err =? 0); [by destruct Hg as [id ->]|by subst].
Qed.

Lemma asked_programs_spec a obj obj' ps0 ps l :
  text_shndx obj' = text_shndx obj → has_pseudo_calls obj' = has_pseudo_calls obj →
  Forall2 (guessed_program obj) ps0 ps → set_programs a obj' ps = Some l → Forall2 (asked_program a obj) ps0 l.
Proof.
  intros Ht Hh Hg. revert l. induction Hg as [|p0 p ps0 ps Hp _ IH]; intros l; cbn [set_programs]; [by intros [= <-]|].
  rewrite (guessed_storage obj p0 p obj') by done. destruct (bpf_program__is_function_storage p0 obj) eqn:Es.
  - destruct (set_programs a obj' ps) as [l1|]; [|done]. intros [= <-]. constructor; [|by apply IH].
    unfold asked_program, guessed_program in *. by rewrite Es in *.
  - destruct (set_guessed a obj p0 p Hp Es) as (id & ->). cbn [p_type with_attach_btf_id with_types].
    destruct (Z.eqb_spec (type_of a p0).1 BPF_PROG_TYPE_UNSPEC) as [|Hne]; [done|].
    destruct (set_programs a obj' ps) as [l1|]; [|done]. intros [= <-]. constructor; [|by apply IH].
    unfold asked_program. rewrite Es. by exists id.
Qed.

(** A loaded program's first descriptor. *)
Lemma loaded_fd obj level k p p' :
  loaded_as obj level k p p' → bpf_program__is_function_storage p obj = false →
  ∃ fd, fds p' = Some [fd] ∧ bpf_program__fd p' = Ok fd ∧ 0 ≤ fd.
Proof.
  unfold loaded_as. intros Hl Hs. rewrite Hs in Hl. destruct Hl as (fd & l & Hfd & _ & -> & _). exists fd. split; [done|].
  split; [|done]. unfold bpf_program__fd, bpf_program__nth_fd. cbn [nr loaded_program with_insns with_fds]. cbn [Z.leb Z.ltb Z.compare orb].
  unfold instance_fd. cbn [fds loaded_program with_insns with_fds or_fault mbind res_bind].
  change (elem [fd] 0) with (Ok fd). cbn [mbind res_bind]. by rewrite (proj2 (Z.ltb_ge fd 0)).
Qed.

(** What [bpf_prog_load_xattr] ends with. *)
Definition prog_load_ends (a : prog_load_attr) (k0 : K) (r : res (Z * option (bpf_object * Z))) k : Prop :=
  os_files k = os_files k0 ∧ ∃ err out, r = Ok (err, out) ∧
    if err =? 0 then
      ∃ obj0 obj1 obj m1 i prog fd, out = Some (obj, fd) ∧ (o_collect (pl_file a) k0).1 = inr obj0 ∧
        asked a obj0 obj1 ∧ object_loaded obj1 0 m1 obj k ∧ owns (descriptors obj ++ btf_fds obj) (kobjs k0) k ∧
        programs obj !! i = Some prog ∧ fds prog = Some [fd] ∧ 0 ≤ fd ∧
        ∀ j q, (j < i)%nat → programs obj !! j = Some q → bpf_program__is_function_storage q obj = true
    else out = None ∧ (err = - ENOENT ∨ err = - EINVAL) ∧ kobjs k = kobjs k0.

Lemma prog_load_failed a err obj k0 k :
  err = - ENOENT ∨ err = - EINVAL → open_fds (m_fd <$> maps obj) = [] → Forall unloaded (programs obj) →
  owns (btf_fds obj) (kobjs k0) k → os_files k = os_files k0 →
  wp (_ ← bpf_object__close obj; mret (err, None)) (prog_load_ends a k0) k.
Proof.
  intros Herr Hm Hu Ho Hf. apply wp_bind. eapply wp_mono; [by apply close_unloaded_spec|].
  intros r k1 (-> & Hk1 & Hf1). wp_step. split; [congruence|]. do 2 eexists. split; [done|].
  rewrite (proj2 (Z.eqb_neq err 0)); [done|]. unfold ENOENT, EINVAL in Herr. lia.
Qed.

(** A program of the loaded object that is not just a store of functions. *)
Lemma loaded_storage obj level m0 obj' k i q : object_loaded obj level m0 obj' k → programs obj !! i = Some q →
  ∃ p p', link_object (m_fd <$> maps obj') obj !! i = Some p ∧ programs obj' !! i = Some p' ∧
    loaded_as obj level k p p' ∧ bpf_program__is_function_storage p obj = bpf_program__is_function_storage q obj ∧
    p_idx p' = p_idx q.
Proof.
  intros (_ & _ & Hp & _) Hq. unfold link_object in *. rewrite Forall2_lookup in Hp. specialize (Hp i).
  rewrite list_lookup_imap, Hq in Hp |- *. cbn [fmap option_fmap option_map] in Hp |- *. inversion Hp as [p p' Hl E1 E2|].
  subst p. do 2 eexists. split; [done|]. split; [done|]. split; [exact Hl|].
  assert (∀ f t, p_idx (link_program f t q) = p_idx q) as Hidx by (intros; unfold link_program; by destruct (existsb _ _)).
  split; [unfold bpf_program__is_function_storage; by rewrite Hidx|]. rewrite <-(Hidx (m_fd <$> maps obj') (text_for (m_fd <$> maps obj') obj i)).
  unfold loaded_as in Hl. destruct (bpf_program__is_function_storage _ _); [by subst|]. by destruct Hl as (fd & l & _ & _ & -> & _).
Qed.

(** The end of a successful loading. *)
Lemma prog_load_succeeds a obj0 obj1 obj i k0 k1 k :
  (o_collect (pl_file a) k0).1 = inr obj0 → asked a obj0 obj1 → object_loaded obj1 0 (kobjs k1) obj k →
  owns (btf_fds obj) (kobjs k0) k1 → head (for_each_program obj1) = Some i → os_files k = os_files k0 →
  wp (first_prog ← pure_res (or_fault (programs obj !! i) OutOfBounds);
      fd ← pure_res (bpf_program__fd first_prog); mret (0, Some (obj, fd))) (prog_load_ends a k0) k.
Proof.
  intros Hc Hasked Hload Ho Hi Hf. apply first_program_spec in Hi as (q & Hq & Hs & Hbefore).
  destruct (loaded_storage _ _ _ _ _ _ _ Hload Hq) as (p & p' & _ & Hp' & Hl & Hsp & _). rewrite Hs in Hsp.
  destruct (loaded_fd _ _ _ _ _ Hl Hsp) as (fd & Hfds & Hfd & Hpos). rewrite Hp'. cbn [or_fault].
  wp_step. wp_step. rewrite Hfd. wp_step. wp_step. wp_step. split; [done|]. do 2 eexists. split; [done|]. cbn [Z.eqb].
  exists obj0, obj1, obj, (kobjs k1), i, p', fd. split_and!; try done.
  - apply (owns_app _ _ _ k1); [done|]. apply Hload.
  - intros j q' Hj Hq'. destruct (programs obj1 !! j) as [q1|] eqn:Hq1.
    + destruct (loaded_storage _ _ _ _ _ _ _ Hload Hq1) as (p1 & p1' & _ & Hp1 & _ & _ & Hidx). simplify_eq.
      pose proof (Hbefore j q1 Hj Hq1) as Hst. unfold bpf_program__is_function_storage in *. rewrite Hidx.
      destruct Hload as [-> _]. exact Hst.
    + destruct Hload as (_ & _ & Hall & _). apply Forall2_length in Hall. unfold link_object in Hall. rewrite length_imap in Hall.
      apply lookup_lt_Some in Hq'. apply lookup_ge_None in Hq1. lia.
Qed.

Lemma empty_open_fds obj : object_empty obj → open_fds (m_fd <$> maps obj) = [].
Proof. intros (_ & Hm & _). by apply read_unopened. Qed.

Lemma prog_load_xattr_spec a k : wp (bpf_prog_load_xattr fuel a) (prog_load_ends a k) k.
Proof.
  unfold bpf_prog_load_xattr. apply wp_bind. eapply wp_mono; [apply object_open_spec|].
  intros r k1 (Hf1 & x & -> & Hx). cbn beta iota. destruct x as [err|obj].
  { wp_step. split; [done|]. do 2 eexists. split; [done|]. cbn. destruct Hx. by split; [|split; [left|]]. }
  destruct Hx as (obj0 & Hc & Hread & Hfds & Hobj & Hg & Ho). pose proof Hread as (Hl & Hfresh & Hb & Hp).
  remember (programs obj) as ps eqn:Hps. clear Hps. subst obj. cbn [maps programs with_programs].
  destruct (set_programs a (with_programs ps obj0) ps) as [l|] eqn:El.
  2: { apply prog_load_failed; [by right|by apply read_unopened| |done|done].
       eapply read_unloaded, guessed_read; done. }
  pose proof (asked_programs_spec a obj0 (with_programs ps obj0) _ _ _ eq_refl eq_refl Hg El) as Hasked.
  pose proof (asked_read _ _ _ _ _ Hasked Hp) as Hp1.
  pose proof (asked_never a _ Hfresh) as Hfresh1.
  set (obj1 := with_maps (asked_map a <$> maps obj0) (with_programs l obj0)).
  match goal with |- context [for_each_program ?o] => change o with obj1 end.
  assert (asked a obj0 obj1) as Hask by done.
  assert (object_read obj1) as Hread1.
  { split; [done|]. split; [done|]. split; [done|]. unfold obj1. cbn [maps programs with_maps with_programs]. by rewrite length_fmap. }
  assert (open_fds (m_fd <$> maps obj1) = []) as Hnone.
  { apply read_unopened, Forall_fmap. eapply Forall_impl; [exact Hfds|]. intros m Hm. cbn. by rewrite asked_map_fd. }
  destruct (head (for_each_program obj1)) as [i|] eqn:Hi.
  2: { apply prog_load_failed; [by left|done|by eapply read_unloaded|done|done]. }
  apply wp_bind. unfold bpf_object__load. eapply wp_mono; [apply (load_xattr_spec fuel enough obj1 0 (kobjs k1)); [exact Hread1|by rewrite Hnone; apply owns_start]|].
  intros r k2 (Hf2 & err & obj & -> & _ & Hshape & Hr). cbn beta iota. destruct (Z.eqb_spec err 0) as [->|Hne]; cbn [negb].
  - eapply (prog_load_succeeds a obj0 obj1 obj i k k1 k2); [done|done|apply Hr| |done|congruence].
    destruct Hshape as [-> _]. done.
  - destruct Hr as (Hlt & He & Hk2). apply prog_load_failed; [by right|by apply empty_open_fds|apply He| |congruence].
    rewrite (proj1 Hshape). by eapply owns_quiet.
Qed.
End open.

