(* ===== verification/ObjectPin.v ===== *)
(** * Pinning the maps of an object

    [bpf_object__pin_maps] makes a file for every map or, when one fails, takes away
    those it made; [bpf_object__unpin_maps] takes away all of them.  [PinLaws] is
    what the kernel says of files in its bpf file system. *)

From S2P Require Import Prelude Io Config Packet Loader DefaultProg Netlink XskLib Bytes Btf Object ObjectProps.

(** [os_files] are the files with something pinned; they are in a bpf file system and
    can be removed. *)
Class PinLaws (K : Type) `{ObjLaws K} := {
  alloc_errno k : (o_alloc k).1 = false → 0 < oerrno (o_alloc k).2;
  mkdir_law d k : let '(r, k') := o_mkdir d k in quiet k k' ∧ (r ≠ 0 → 0 < oerrno k');
  statfs_law d k : let '(r, _, k') := o_statfs d k in quiet k k' ∧ (r ≠ 0 → 0 < oerrno k');
  statfs_pinned f k : f ∈ os_files k → (o_statfs (o_dirname f) k).1 = (0, BPF_FS_MAGIC);
  pin_law fd f k : let '(r, k') := o_obj_pin fd f k in kobjs k' = kobjs k ∧
    if r =? 0 then f ∉ os_files k ∧ os_files k' = {[f]} ∪ os_files k
    else os_files k' = os_files k ∧ 0 < oerrno k';
  unlink_law f k : let '(r, k') := o_unlink f k in kobjs k' = kobjs k ∧
    if r =? 0 then os_files k' = os_files k ∖ {[f]} else os_files k' = os_files k ∧ 0 < oerrno k';
  unlink_pinned f k : f ∈ os_files k → (o_unlink f k).1 = 0
}.

(** Memory never runs out. *)
Definition memory (K : Type) `{ObjSys K} : Prop := ∀ k : K, (o_alloc k).1 = true.

(** The map pinned in a directory, and its file. *)
Definition pin_file_of (dir : string) (m : bpf_map) : string := map_path dir (m_name m).
Definition pinned_in (dir : string) (m : bpf_map) : bpf_map := with_pin (Some (pin_file_of dir m)) true m.
Definition unpinned_in (dir : string) (m : bpf_map) : bpf_map := with_pin (Some (pin_file_of dir m)) false m.
Definition files_of (dir : string) (l : list bpf_map) : gset string := list_to_set (pin_file_of dir <$> l).
Definition fits (dir : string) (m : bpf_map) : Prop := path_under dir (m_name m) ≠ None.

Section pin.
Context {K : Type} `{PinLaws K}.
Implicit Types (k : K) (m : bpf_map) (f dir : string).

Lemma make_parent_dir_spec f k :
  wp (make_parent_dir f) (λ r k', quiet k k' ∧ ∃ err, r = Ok err ∧ err ≤ 0) k.
Proof.
  unfold make_parent_dir. apply wp_bind, wp_call. intros ok k1 E1. pose proof (alloc_law k) as Hq. rewrite E1 in Hq. cbn in Hq.
  destruct ok; cbn [negb]; [|wp_step; split; [done|by eexists]].
  apply wp_bind, wp_call. intros e k2 E2. pose proof (mkdir_law (o_dirname f) k1) as Hm. rewrite E2 in Hm. destruct Hm as [Hq2 He].
  wp_step. wp_step. wp_step. split; [by eapply quiet_trans|]. eexists. split; [done|].
  destruct (Z.eqb_spec e 0) as [->|Hne]; cbn [negb andb]; [done|]. specialize (He Hne). by destruct (negb _); lia.
Qed.

Lemma check_path_spec f k :
  wp (check_path f) (λ r k', quiet k k' ∧ ∃ err, r = Ok err ∧ err ≤ 0 ∧ (memory K → f ∈ os_files k → err = 0)) k.
Proof.
  unfold check_path. apply wp_bind, wp_call. intros ok k1 E1. pose proof (alloc_law k) as Hq. rewrite E1 in Hq. cbn in Hq.
  destruct ok; cbn [negb].
  2: { wp_step. split; [done|]. eexists. split; [done|]. split; [done|]. intros Hmem. specialize (Hmem k). by rewrite E1 in Hmem. }
  apply wp_bind, wp_call. intros [e t] k2 E2. pose proof (statfs_law (o_dirname f) k1) as Hs. rewrite E2 in Hs. destruct Hs as [Hq2 He].
  pose proof (statfs_pinned f k1) as Hp. rewrite E2 in Hp. cbn in Hp. wp_step. wp_step. wp_step.
  split; [by eapply quiet_trans|]. eexists. split; [done|]. split.
  - destruct (Z.eqb_spec e 0) as [->|Hne]; cbn [andb Z.eqb]; [by destruct (negb _)|]. specialize (He Hne).
    by rewrite (proj2 (Z.eqb_neq (- _) 0)) by lia; cbn [andb]; lia.
  - intros _ Hf. destruct Hq as [_ Hf1]. rewrite <-Hf1 in Hf. specialize (Hp Hf). by injection Hp as -> ->.
Qed.

Lemma pin_at_spec f m k :
  wp (pin_at f m) (λ r k', kobjs k' = kobjs k ∧ ∃ err m', r = Ok (err, m') ∧
    if err =? 0 then m' = with_pin (Some f) true m ∧ f ∉ os_files k ∧ os_files k' = {[f]} ∪ os_files k
    else err < 0 ∧ m' = m ∧ os_files k' = os_files k) k.
Proof.
  unfold pin_at. apply wp_bind. eapply wp_mono; [apply make_parent_dir_spec|]. intros r k1 ([Hk1 Hf1] & err & -> & Hle). cbn beta iota.
  destruct (Z.eqb_spec err 0) as [->|Hne]; cbn [negb].
  2: { wp_step. split; [done|]. do 2 eexists. split; [done|]. rewrite (proj2 (Z.eqb_neq _ _)) by done. split_and!; [lia|done..]. }
  apply wp_bind. eapply wp_mono; [apply check_path_spec|]. intros r k2 ([Hk2 Hf2] & err & -> & Hle2 & _). cbn beta iota.
  destruct (Z.eqb_spec err 0) as [->|Hne]; cbn [negb].
  2: { wp_step. split; [congruence|]. do 2 eexists. split; [done|]. rewrite (proj2 (Z.eqb_neq _ _)) by done. split_and!; [lia|done|congruence]. }
  apply wp_bind, wp_call. intros r k3 E3. pose proof (pin_law (m_fd m) f k2) as Hp. rewrite E3 in Hp. destruct Hp as [Hk3 Hp].
  destruct (Z.eqb_spec r 0) as [->|Hne]; cbn [negb].
  - wp_step. split; [congruence|]. do 2 eexists. split; [done|]. cbn [Z.eqb]. rewrite Hf2, Hf1 in Hp. done.
  - wp_step. wp_step. wp_step. split; [congruence|]. do 2 eexists. split; [done|].
    rewrite (proj2 (Z.eqb_neq (- _) _)) by lia. split_and!; [lia|done|destruct Hp; congruence].
Qed.

(** A map that is not pinned gets the path, also when pinning it fails. *)
Lemma map_pin_spec f m k :
  never_pinned m →
  wp (bpf_map__pin m (Some f)) (λ r k', kobjs k' = kobjs k ∧ ∃ err m', r = Ok (err, m') ∧
    if err =? 0 then m' = with_pin (Some f) true m ∧ f ∉ os_files k ∧ os_files k' = {[f]} ∪ os_files k
    else err < 0 ∧ os_files k' = os_files k ∧ (m' = m ∨ m' = with_pin (Some f) false m)) k.
Proof.
  intros [Hpath Hpin]. unfold bpf_map__pin. rewrite Hpath, Hpin. apply wp_bind, wp_call. intros ok k1 E1.
  pose proof (alloc_law k) as [Hk1 Hf1]. pose proof (alloc_errno k) as He. rewrite E1 in Hk1, Hf1, He. cbn in Hk1, Hf1, He.
  destruct ok; cbn [negb].
  - eapply wp_mono; [apply pin_at_spec|]. intros r k2 (Hk2 & err & m' & -> & Hr). split; [congruence|].
    do 2 eexists. split; [done|]. rewrite Hf1 in Hr. destruct (err =? 0); [done|]. destruct Hr as (? & -> & ?).
    split_and!; [done..|by right].
  - specialize (He eq_refl). wp_step. wp_step. wp_step. split; [done|]. do 2 eexists. split; [done|].
    rewrite (proj2 (Z.eqb_neq (- _) _)) by lia. split_and!; [lia|done|by left].
Qed.

Lemma unpin_at_spec f m k :
  wp (unpin_at f m) (λ r k', kobjs k' = kobjs k ∧ ∃ err m', r = Ok (err, m') ∧
    (memory K → f ∈ os_files k → err = 0) ∧
    if err =? 0 then m' = with_pin (pin_path m) false m ∧ os_files k' = os_files k ∖ {[f]}
    else err < 0 ∧ m' = m ∧ os_files k' = os_files k) k.
Proof.
  unfold unpin_at. apply wp_bind. eapply wp_mono; [apply check_path_spec|]. intros r k1 ([Hk1 Hf1] & err & -> & Hle & Hmem). cbn beta iota.
  destruct (Z.eqb_spec err 0) as [->|Hne]; cbn [negb].
  2: { wp_step. split; [done|]. do 2 eexists. split; [done|]. split; [done|].
       rewrite (proj2 (Z.eqb_neq _ _)) by done. split_and!; [lia|done..]. }
  apply wp_bind, wp_call. intros r k2 E2. pose proof (unlink_law f k1) as Hu. pose proof (unlink_pinned f k1) as Hp.
  rewrite E2 in Hu, Hp. destruct Hu as [Hk2 Hu]. cbn in Hp. rewrite Hf1 in *.
  destruct (Z.eqb_spec r 0) as [->|Hne]; cbn [negb].
  - wp_step. split; [congruence|]. do 2 eexists. split; [done|]. split; [done|]. by cbn [Z.eqb].
  - wp_step. wp_step. wp_step. split; [congruence|]. do 2 eexists. split; [done|].
    split; [intros _ Hf; by destruct Hne; apply Hp|]. rewrite (proj2 (Z.eqb_neq (- _) _)) by lia.
    split_and!; [lia|done|apply Hu].
Qed.

(** Maps that were pinned are taken back: those of them that can be, and all while there is memory. *)
Lemma unpin_back_spec dir l k :
  NoDup (pin_file_of dir <$> l) → files_of dir l ⊆ os_files k →
  wp (unpin_back (pinned_in dir <$> l)) (λ r k', kobjs k' = kobjs k ∧ (∃ l', r = Ok l') ∧
    os_files k' ⊆ os_files k ∧ os_files k ∖ files_of dir l ⊆ os_files k' ∧
    (memory K → os_files k' = os_files k ∖ files_of dir l)) k.
Proof.
  revert k. induction l as [|m l IH]; intros k Hd Hf; cbn [unpin_back fmap list_fmap].
  { wp_step. unfold files_of. cbn. split; [done|]. split; [by eexists|]. split_and!; set_solver. }
  inversion_clear Hd as [|? ? Hm Hd']. unfold files_of in Hf. cbn in Hf. fold (files_of dir l) in Hf.
  assert (pin_file_of dir m ∉ files_of dir l) as Hm' by (unfold files_of; by rewrite elem_of_list_to_set).
  cbn [pin_path pinned_in with_pin]. apply wp_bind, wp_bind. unfold bpf_map__unpin. cbn [pin_path pinned_in with_pin].
  eapply wp_mono; [apply unpin_at_spec|]. intros r k1 (Hk1 & err & m' & -> & Hmem & Hr). cbn beta iota. wp_step.
  cbn beta iota. apply wp_bind.
  assert (os_files k1 ⊆ os_files k ∧ os_files k ∖ {[pin_file_of dir m]} ⊆ os_files k1 ∧
    (memory K → os_files k1 = os_files k ∖ {[pin_file_of dir m]})) as (H1a & H1b & H1c).
  { destruct (Z.eqb_spec err 0) as [->|Hne].
    - destruct Hr as [_ ->]. split_and!; [set_solver|set_solver|done].
    - destruct Hr as (_ & _ & ->). split_and!; [done|set_solver|]. intros Hmm. destruct Hne. apply Hmem; [done|set_solver]. }
  eapply wp_mono; [apply IH; [done|set_solver]|]. intros r k2 (Hk2 & (l' & ->) & H2a & H2b & H2c). cbn beta iota. wp_step.
  split; [congruence|]. split; [by eexists|]. unfold files_of. cbn [fmap list_fmap list_to_set]. fold (files_of dir l).
  split_and!; [set_solver|set_solver|]. intros Hmm. rewrite (H2c Hmm), (H1c Hmm). set_solver.
Qed.

Lemma files_of_app dir l1 l2 : files_of dir (l1 ++ l2) = files_of dir l1 ∪ files_of dir l2.
Proof. unfold files_of. by rewrite fmap_app, list_to_set_app_L. Qed.
Lemma files_of_rev dir l : files_of dir (rev l) = files_of dir l.
Proof. unfold files_of. rewrite fmap_rev. apply list_to_set_perm_L. by rewrite <-Permutation_rev. Qed.

(** What pinning [l] in [dir], from the files [S] on, ends with. *)
Definition pin_ends dir (l : list bpf_map) (S : gset string) (r : res (Z * list bpf_map)) k : Prop :=
  ∃ err l', r = Ok (err, l') ∧
    if err =? 0 then
      l' = pinned_in dir <$> l ∧ files_of dir l ## S ∧ os_files k = files_of dir l ∪ S ∧ Forall (fits dir) l
    else err < 0 ∧ S ⊆ os_files k ∧ os_files k ⊆ files_of dir l ∪ S ∧ (memory K → os_files k = S).

(** A failure takes back what was pinned before. *)
Lemma pin_fails dir before l (S : gset string) k err (rest : list bpf_map) :
  NoDup (pin_file_of dir <$> rev before ++ l) → files_of dir before ## S → os_files k = files_of dir before ∪ S → err < 0 →
  wp (before' ← unpin_back (pinned_in dir <$> before); mret (err, rev before' ++ rest))
    (λ r k', kobjs k' = kobjs k ∧ pin_ends dir (rev before ++ l) S r k') k.
Proof.
  intros Hd Hdis Hk Herr. rewrite fmap_app, fmap_rev in Hd. apply NoDup_app in Hd as [Hd _].
  rewrite <-Permutation_rev in Hd. apply wp_bind. eapply wp_mono; [apply unpin_back_spec; [done|set_solver]|].
  intros r k1 (Hk1 & (l' & ->) & H1a & H1b & H1c). cbn beta iota. wp_step. split; [done|].
  do 2 eexists. split; [done|]. rewrite (proj2 (Z.eqb_neq _ _)) by lia. rewrite files_of_app, files_of_rev. rewrite Hk in *.
  split; [done|]. split; [set_solver|]. split; [set_solver|]. intros Hm. rewrite H1c by done. set_solver.
Qed.

Lemma pin_maps_from_spec dir todo : ∀ before S k,
  NoDup (pin_file_of dir <$> rev before ++ todo) → Forall never_pinned todo →
  files_of dir before ## S → os_files k = files_of dir before ∪ S → Forall (fits dir) before →
  wp (pin_maps_from (pinned_in dir <$> before) todo (Some dir))
    (λ r k', kobjs k' = kobjs k ∧ pin_ends dir (rev before ++ todo) S r k') k.
Proof.
  induction todo as [|m todo IH]; intros before S k Hd Hn Hdis Hk Hfit; cbn [pin_maps_from].
  { wp_step. split; [done|]. rewrite app_nil_r. do 2 eexists. split; [done|]. cbn [Z.eqb]. rewrite files_of_rev.
    rewrite fmap_rev. split_and!; [done..|]. by rewrite <-Permutation_rev. }
  inversion_clear Hn as [|? ? Hm Hn']. destruct (path_under dir (m_name m)) as [buf|] eqn:Hbuf; [|by apply pin_fails].
  assert (fits dir m) as Hfm by (unfold fits; by rewrite Hbuf).
  unfold path_under in Hbuf. destruct (PATH_MAX <=? _); [done|]. injection Hbuf as <-.
  change (map_path dir (m_name m)) with (pin_file_of dir m).
  apply wp_bind. eapply wp_mono; [by apply map_pin_spec|]. intros r k1 (Hk1 & err & m' & -> & Hr). cbn beta iota.
  destruct (Z.eqb_spec err 0) as [->|Hne]; cbn [negb].
  - destruct Hr as (-> & Hnew & Hf1). change (pinned_in dir m :: (pinned_in dir <$> before)) with (pinned_in dir <$> m :: before).
    assert (files_of dir (m :: before) = {[pin_file_of dir m]} ∪ files_of dir before) as Hfm' by done.
    assert (rev before ++ m :: todo = rev (m :: before) ++ todo) as Happ by (cbn; by rewrite <-app_assoc). rewrite Happ in *.
    eapply wp_mono; [apply (IH (m :: before) S)|]; [done|done|set_solver|rewrite Hf1, Hfm', Hk; set_solver|by constructor|].
    intros r k2 (Hk2 & Hr). split; [congruence|done].
  - destruct Hr as (Hlt & Hf1 & _). eapply wp_mono; [apply (pin_fails dir before (m :: todo) S)|]; [done|done|congruence|lia|].
    intros r k2 (Hk2 & Hr). split; [congruence|done].
Qed.

(** Unpinning what was pinned, while there is memory. *)
Lemma unpin_maps_from_spec dir l k :
  memory K → NoDup (pin_file_of dir <$> l) → files_of dir l ⊆ os_files k →
  Forall (fits dir) l →
  wp (unpin_maps_from (pinned_in dir <$> l) (Some dir)) (λ r k', kobjs k' = kobjs k ∧
    r = Ok (0, unpinned_in dir <$> l) ∧ os_files k' = os_files k ∖ files_of dir l) k.
Proof.
  intros Hmem. revert k. induction l as [|m l IH]; intros k Hd Hf Hp; cbn [unpin_maps_from fmap list_fmap].
  { wp_step. unfold files_of. cbn. split_and!; [done..|set_solver]. }
  inversion_clear Hd as [|? ? Hm Hd']. inversion_clear Hp as [|? ? Hp1 Hp2].
  assert (files_of dir (m :: l) = {[pin_file_of dir m]} ∪ files_of dir l) as Hfm by done. rewrite Hfm in *.
  assert (pin_file_of dir m ∉ files_of dir l) as Hm' by (unfold files_of; by rewrite elem_of_list_to_set).
  cbn [m_name pinned_in with_pin]. unfold fits, path_under in *. destruct (PATH_MAX <=? _); [done|].
  unfold bpf_map__unpin. cbn [pin_path pinned_in with_pin]. rewrite String.eqb_refl. cbn [negb]. apply wp_bind.
  eapply wp_mono; [apply unpin_at_spec|]. intros r k1 (Hk1 & err & m' & -> & Herr & Hr). cbn beta iota.
  rewrite (Herr Hmem) in * by set_solver. cbn [Z.eqb negb] in *. destruct Hr as [-> Hf1]. apply wp_bind.
  eapply wp_mono; [apply IH; [done| |done]|].
  { rewrite Hf1. set_solver. }
  intros r k2 (Hk2 & -> & Hf2). cbn beta iota. wp_step. split; [congruence|]. split; [done|]. rewrite Hf2, Hf1. set_solver.
Qed.
End pin.

(** The string behind a prefix. *)
Lemma append_inj (p s1 s2 : string) : (p +:+ s1)%string = (p +:+ s2)%string → s1 = s2.
Proof. induction p as [|c p IH]; [done|]. cbn. intros [= E]. by apply IH. Qed.

Lemma pin_file_inj dir m1 m2 : pin_file_of dir m1 = pin_file_of dir m2 → m_name m1 = m_name m2.
Proof. unfold pin_file_of, map_path. intros E%append_inj%append_inj. done. Qed.

Lemma pin_files_NoDup dir l : NoDup (m_name <$> l) → NoDup (pin_file_of dir <$> l).
Proof.
  induction l as [|m l IH]; [done|]. cbn. intros [Hm Hl]%NoDup_cons. constructor; [|by apply IH].
  intros (m' & E & Hin)%list_elem_of_fmap. apply Hm. apply pin_file_inj in E. rewrite E. by apply list_elem_of_fmap_2.
Qed.

Section outcome.
Context {K : Type} `{PinLaws K}.

Lemma object_pins_spec obj dir (k : K) :
  loaded obj = true → Forall never_pinned (maps obj) → NoDup (m_name <$> maps obj) →
  wp (bpf_object__pin_maps obj (Some dir)) (λ r k', kobjs k' = kobjs k ∧
    ∃ err l, r = Ok (err, with_maps l obj) ∧ pin_ends dir (maps obj) (os_files k) (Ok (err, l)) k') k.
Proof.
  intros Hl Hn Hd. pose proof (pin_files_NoDup dir _ Hd) as Hd'.
  unfold bpf_object__pin_maps. rewrite Hl. cbn [negb]. apply wp_bind.
  eapply wp_mono; [apply (pin_maps_from_spec dir (maps obj) [] (os_files k) k Hd' Hn)|].
  { change (files_of dir []) with (∅ : gset string). set_solver. }
  { change (files_of dir []) with (∅ : gset string). set_solver. }
  { constructor. }
  intros r k' (Hk & err & l & -> & Hr). cbn beta iota. wp_step. split; [done|]. do 2 eexists. split; [done|]. by exists err, l.
Qed.

Lemma object_unpins_spec obj dir (k : K) :
  memory K → NoDup (m_name <$> maps obj) → files_of dir (maps obj) ⊆ os_files k → Forall (fits dir) (maps obj) →
  wp (bpf_object__unpin_maps (with_maps (pinned_in dir <$> maps obj) obj) (Some dir)) (λ r k', kobjs k' = kobjs k ∧
    r = Ok (0, with_maps (unpinned_in dir <$> maps obj) obj) ∧ os_files k' = os_files k ∖ files_of dir (maps obj)) k.
Proof.
  intros Hm Hd Hf Hfit. unfold bpf_object__unpin_maps. apply wp_bind.
  eapply wp_mono; [apply unpin_maps_from_spec; [done|by apply pin_files_NoDup|done|done]|].
  intros r k' (Hk & -> & Hf'). cbn beta iota. by wp_step.
Qed.
End outcome.

(** C40: Pinning the maps of a loaded object in a directory, none pinned before and no
    two of one name, either makes a new file for every map and for nothing else, or
    returns an error; then, unless memory ran out meanwhile, no file stays.  Unpinning
    from the directory takes the files away again. *)
Theorem object_pin_maps_outcome {K : Type} `{PinLaws K} obj dir k :
  loaded obj = true → Forall never_pinned (maps obj) → NoDup (m_name <$> maps obj) →
  ∃ err obj' k', bpf_object__pin_maps obj (Some dir) k = (Ok (err, obj'), k') ∧ kobjs k' = kobjs k ∧
    if err =? 0 then
      obj' = with_maps (pinned_in dir <$> maps obj) obj ∧
      files_of dir (maps obj) ## os_files k ∧ os_files k' = files_of dir (maps obj) ∪ os_files k ∧
      (memory K → ∃ k2, bpf_object__unpin_maps obj' (Some dir) k' = (Ok (0, with_maps (unpinned_in dir <$> maps obj) obj), k2) ∧
                        kobjs k2 = kobjs k ∧ os_files k2 = os_files k)
    else
      err < 0 ∧ os_files k ⊆ os_files k' ∧ os_files k' ⊆ files_of dir (maps obj) ∪ os_files k ∧
      (memory K → os_files k' = os_files k).
Proof.
  intros Hl Hn Hd. pose proof (object_pins_spec obj dir k Hl Hn Hd) as Hw.
  destruct (bpf_object__pin_maps obj (Some dir) k) as [r k'] eqn:E.
  destruct (wp_run_eq _ _ _ _ _ Hw E) as (Hk & err & l & -> & err' & l' & [= <- <-] & Hr).
  exists err, (with_maps l obj), k'. split; [done|]. split; [done|]. destruct (err =? 0); [|done].
  destruct Hr as (-> & Hdis & Hf & Hfit). split_and!; [done..|]. intros Hm.
  pose proof (object_unpins_spec obj dir k' Hm Hd ltac:(set_solver) Hfit) as Hw2.
  destruct (bpf_object__unpin_maps _ _ k') as [r k2] eqn:E2.
  destruct (wp_run_eq _ _ _ _ _ Hw2 E2) as (Hk2 & -> & Hf2). exists k2. split_and!; [done|congruence|set_solver].
Qed.
