(* ===== verification/ObjectKernel.v ===== *)
(** * A system for the objects of libbpf

    A small kernel that keeps [ObjLaws], [OpenLaws] and [PinLaws], with one object
    file; the theorems on objects at work in it. *)

From Stdlib Require Import Ascii.
From S2P Require Import Prelude Io Config Packet Loader DefaultProg Netlink XskLib Bytes Btf Object.
From S2P Require Import ObjectProps ObjectLink ObjectLoad ObjectOpen ObjectPin.
From S2P Require BpfSys.

Module ObjKernel.
Record kernel := Kernel { k_objs : gmap Z kobj; k_files : gset string; k_errno : Z }.

Definition next_fd (m : gmap Z kobj) : Z := map_fold (λ fd _ n, Z.max (fd + 1) n) 3 m.
Definition fails (e : Z) (k : kernel) : Z * kernel := (-1, Kernel (k_objs k) (k_files k) e).
Definition opens (o : kobj) (k : kernel) : Z * kernel :=
  let fd := next_fd (k_objs k) in (fd, Kernel (<[fd := o]> (k_objs k)) (k_files k) (k_errno k)).
Definition set_objs (m : gmap Z kobj) (k : kernel) : kernel := Kernel m (k_files k) (k_errno k).
Definition set_files (f : gset string) (k : kernel) : kernel := Kernel (k_objs k) f (k_errno k).

(** The part in front of the last slash. *)
Fixpoint dirname (s : string) : string :=
  match s with
  | EmptyString => EmptyString
  | String c s => if String.index 0 "/" s then String c (dirname s) else if Ascii.eqb c "/" then EmptyString else String c (dirname s)
  end.
Definition in_bpf (d : string) : bool := String.prefix "/sys/fs/bpf" d.
Definition bpf_files (k : kernel) : gset string := filter (λ f, in_bpf (dirname f) = true) (k_files k).

(** A program that looks a map up and calls a function in .text, and a data section. *)
Definition sample : bpf_object :=
  Object "GPL" 0
    [Program 1 "text" 0 ".text" "text" (Some [Insn 183 0 0 0 2; Insn 149 0 0 0 0]) 0 0 [] 0 (-1) None 0 0 0;
     Program 3 "xdp_sock" 0 "xdp_sock" "xdp_sock"
       (Some [Insn 24 1 0 0 0; Insn 0 0 0 0 0; Insn 133 0 1 0 (-1); Insn 149 0 0 0 0]) 0 0
       [Reloc RELO_LD64 0 0; Reloc RELO_CALL 2 0] 0 (-1) None 0 0 0]
    [Map (-1) "xsks_map" 5 0 (-1) (MapDef 17 4 4 64 0) 0 0 LIBBPF_MAP_UNSPEC None false false;
     Map (-1) "prog.data" 6 0 (-1) (MapDef 2 4 2 1 0) 0 0 LIBBPF_MAP_DATA None false false]
    [7; 8] [] false true (-1) 1 None true.

#[export] Instance kernel_sys : ObjSys kernel := {
  oerrno := k_errno;
  o_alloc k := (true, k);
  o_dirname := dirname;
  o_mkdir _ k := fails EEXIST k;
  o_statfs d k := (0, if in_bpf d then BPF_FS_MAGIC else 0, k);
  o_unlink f k := if decide (f ∈ bpf_files k) then (0, set_files (k_files k ∖ {[f]}) k) else fails ENOENT k;
  o_rmdir _ k := (0, k);
  o_close fd k := (0, set_objs (delete fd (k_objs k)) k);
  o_open_root k := opens KOther k;
  o_dup3 fd fd' k := match k_objs k !! fd with Some o => (fd', set_objs (<[fd' := o]> (k_objs k)) k) | None => fails EINVAL k end;
  o_obj_pin _ f k :=
    if decide (f ∈ k_files k) then fails EEXIST k
    else if in_bpf (dirname f) then (0, set_files ({[f]} ∪ k_files k) k) else fails EINVAL k;
  o_obj_get f k := if decide (f ∈ bpf_files k) then opens KOther k else fails ENOENT k;
  o_map_info fd k :=
    match k_objs k !! fd with
    | Some (KMap a _) => (0, Info (default "" (BpfSys.cm_name a))
        (MapDef (BpfSys.cm_map_type a) (BpfSys.cm_key_size a) (BpfSys.cm_value_size a) (BpfSys.cm_max_entries a) (BpfSys.cm_map_flags a))
        (BpfSys.cm_btf_key_type_id a) (BpfSys.cm_btf_value_type_id a), k)
    | _ => let '(r, k) := fails EINVAL k in (r, Info "" (MapDef 0 0 0 0 0) 0 0, k)
    end;
  o_create_map a k := if BpfSys.cm_map_type a =? 0 then fails EINVAL k else opens (KMap a None) k;
  o_update_elem fd _ v _ k :=
    match k_objs k !! fd with
    | Some (KMap a _) => (0, set_objs (<[fd := KMap a (Some v)]> (k_objs k)) k)
    | _ => fails EINVAL k
    end;
  o_map_freeze _ k := (0, k);
  o_load_program a _ size k :=
    if negb (la_log_level a =? 0) && (0 <? size) && (size <? 2 ^ 26) then let '(r, k) := fails ENOSPC k in (r, true, k)
    else match la_insns a with
         | [] => let '(r, k) := fails EINVAL k in (r, false, k)
         | _ :: _ => let '(r, k) := opens (KProg a) k in (r, false, k)
         end;
  o_num_possible_cpus k := (4, k);
  o_collect path k := (if String.eqb path "prog.o" then inr sample else inl (- ENOENT), k);
  o_attach_btf_id _ k := (0, 7, k)
}.

#[export] Instance kernel_view : ObjView kernel := { kobjs := k_objs; os_files := bpf_files }.

Lemma next_fd_fresh m : 0 ≤ next_fd m ∧ m !! next_fd m = None.
Proof.
  assert (3 ≤ next_fd m ∧ ∀ fd, is_Some (m !! fd) → fd < next_fd m) as [Hn Hfd].
  { unfold next_fd. induction m as [|fd o m Hm Hf IH] using map_first_key_ind; 
      [rewrite map_fold_empty; split; [done|]; intros ? [? Hx]; by rewrite lookup_empty in Hx|].
    rewrite map_fold_insert_first_key by done. destruct IH as [IH1 IH2]. split; [lia|]. intros x [v Hx].
    apply lookup_insert_Some in Hx as [[<- _]|[_ Hx]]; [lia|]. specialize (IH2 x (mk_is_Some _ _ Hx)). lia. }
  split; [lia|]. apply eq_None_not_Some. intros Hs%Hfd. lia.
Qed.

Lemma opens_gives o k : gives o (opens o k).1 k (opens o k).2.
Proof.
  unfold gives, opens. cbn [fst snd]. destruct (next_fd_fresh (k_objs k)) as [Hpos Hnone].
  by rewrite (proj2 (Z.ltb_ge _ _)).
Qed.

Lemma fails_gives o e k : 0 < e → gives o (fails e k).1 k (fails e k).2.
Proof. intros He. by split. Qed.

#[local] Arguments in_bpf : simpl never.
#[local] Arguments dirname : simpl never.

#[export] Program Instance kernel_laws : ObjLaws kernel.
Next Obligation. done. Qed.
Next Obligation. done. Qed.
Next Obligation. done. Qed.
Next Obligation.
  intros a k. cbn. destruct (_ =? 0); [by apply fails_gives|apply opens_gives].
Qed.
Next Obligation.
  intros fd v k a e Hk. cbn in *. rewrite Hk. cbn. done.
Qed.
Next Obligation. done. Qed.
Next Obligation.
  intros a has size k. cbn. destruct (_ && _) eqn:E.
  - cbn. split; [by split|]. intros _ _. apply andb_true_iff in E as [[_ ?%Z.ltb_lt]%andb_true_iff ?%Z.ltb_lt]. lia.
  - destruct (la_insns a).
    + cbn. split; [by split|]. done.
    + split; [exact (opens_gives (KProg a) k)|]. cbn. pose proof (proj1 (next_fd_fresh (k_objs k))). lia.
Qed.

Lemma bpf_files_set f k : bpf_files (set_files f k) = filter (λ f, in_bpf (dirname f) = true) f.
Proof. done. Qed.

#[export] Program Instance kernel_pin : PinLaws kernel.
Next Obligation. done. Qed.
Next Obligation. done. Qed.
Next Obligation. done. Qed.
Next Obligation. intros f k Hf. cbn in *. unfold bpf_files in Hf. apply elem_of_filter in Hf as [-> _]. done. Qed.
Next Obligation.
  intros fd f k. cbn. case_decide as Hf; cbn; [done|]. destruct (in_bpf (dirname f)) eqn:Eb; cbn; [|done].
  split; [done|]. unfold bpf_files. split; [by rewrite elem_of_filter; intros [_ ?]|]. apply set_eq. intros x.
  rewrite elem_of_union, elem_of_singleton, !elem_of_filter. cbn. rewrite elem_of_union, elem_of_singleton. naive_solver.
Qed.
Next Obligation.
  intros f k. cbn. case_decide as Hf; cbn; [|done]. split; [done|]. unfold bpf_files. apply set_eq. intros x.
  rewrite elem_of_difference, !elem_of_filter. cbn. rewrite elem_of_difference. naive_solver.
Qed.
Next Obligation. intros f k Hf. cbn in *. by rewrite decide_True. Qed.

Lemma kernel_memory : memory kernel.
Proof. done. Qed.

Lemma sample_read : object_read sample.
Proof.
  split; [done|]. split; [by repeat constructor|]. split; [by intros|].
  repeat constructor.
  - exists [Insn 183 0 0 0 2; Insn 149 0 0 0 0]. split_and!; try done. by repeat constructor.
  - eexists. split_and!; try done. split; [|by repeat constructor]. cbn. repeat constructor; set_solver.
Qed.

#[export] Program Instance kernel_open : OpenLaws kernel.
Next Obligation.
  intros path k. cbn. destruct (String.eqb path "prog.o"); [|by split]. split; [exact sample_read|].
  split; [by repeat constructor|]. split; [done|exact (owns_start k)].
Qed.
Next Obligation. intros name k. cbn. by split; [left|]. Qed.
End ObjKernel.
Import ObjKernel.

Definition quiet_kernel : kernel := Kernel {[ 5 := KOther ]} {[ "/sys/fs/bpf/other"%string ]} 0.

(** The first map reuses descriptor 4; the function of .text comes after the program's
    four instructions. *)
Definition reusing : bpf_object := with_maps (imap (λ i m, if (i =? 0)%nat then with_map_fd 4 m else m) (maps sample)) sample.
Definition four_open : kernel := set_objs (<[4 := KOther]> (k_objs quiet_kernel)) quiet_kernel.
Definition linked_program : load_attr := LoadAttr 0 0 (Some "xdp_sock"%string)
  [Insn 24 1 BPF_PSEUDO_MAP_FD 0 4; Insn 0 0 0 0 0; Insn 133 0 1 0 1; Insn 149 0 0 0 0; Insn 183 0 0 0 2; Insn 149 0 0 0 0]
  "GPL" 0 0 0 1 0.

Lemma reusing_read : object_read reusing.
Proof.
  destruct sample_read as (_ & Hm & Hb & Hp). split; [done|]. split; [by repeat constructor|]. split; [by intros|done].
Qed.
Lemma reusing_owns : owns (open_fds (m_fd <$> maps reusing)) (k_objs quiet_kernel) four_open.
Proof.
  change (open_fds (m_fd <$> maps reusing)) with [4]. split; [by apply NoDup_singleton|]. split.
  - intros fd ->%list_elem_of_singleton. split; [done|by eexists].
  - intros fd Hfd. cbn. rewrite lookup_insert_ne; [done|]. intros <-. apply Hfd. by left.
Qed.


Definition prog_o (file : string) : prog_load_attr := ProgLoadAttr file BPF_PROG_TYPE_UNSPEC 0 0 0 0.


(** Pinned and unpinned again; the second name of two is taken. *)
Definition loaded_sample : bpf_object := with_loaded sample.
Definition taken : kernel := set_files {[ "/sys/fs/bpf/prog.data"%string ]} quiet_kernel.

Lemma object_pin_maps_outcome_witness :
  (∃ obj' k' k2, bpf_object__pin_maps loaded_sample (Some "/sys/fs/bpf/d"%string) quiet_kernel = (Ok (0, obj'), k') ∧
     os_files k' = {[ "/sys/fs/bpf/d/xsks_map"; "/sys/fs/bpf/d/prog.data"; "/sys/fs/bpf/other" ]}%string ∧
     (bpf_object__unpin_maps obj' (Some "/sys/fs/bpf/d"%string) k').2 = k2 ∧ os_files k2 = os_files quiet_kernel) ∧
  ∃ obj' k', bpf_object__pin_maps loaded_sample (Some "/sys/fs/bpf"%string) taken = (Ok (- EEXIST, obj'), k') ∧
     os_files k' = os_files taken.
Proof.
  split.
  - destruct (object_pin_maps_outcome loaded_sample "/sys/fs/bpf/d" quiet_kernel) as (err & obj' & k' & E & _ & Hr);
      [reflexivity|by repeat constructor|repeat constructor; set_solver|].
    exists obj', k'. assert (err = 0) as ->.
    { vm_compute in E. by injection E as <- <- <-. }
    destruct Hr as (_ & _ & Hf & Hu). destruct (Hu kernel_memory) as (k2 & E2 & _ & Hf2). exists k2.
    split_and!; [exact E| |by rewrite E2|exact Hf2]. rewrite Hf. vm_compute. reflexivity.
  - destruct (object_pin_maps_outcome loaded_sample "/sys/fs/bpf" taken) as (err & obj' & k' & E & _ & Hr);
      [reflexivity|by repeat constructor|repeat constructor; set_solver|].
    exists obj', k'. assert (err = - EEXIST) as ->.
    { vm_compute in E. by injection E as <- <- <-. }
    destruct Hr as (_ & _ & _ & Hf). split; [exact E|]. by apply Hf, kernel_memory.
Defined.
