(* ===== verification/ObjectReuse.v ===== *)
(** * Maps of libbpf that are already there

    A map of an object can take the place of one that the kernel has, through a
    descriptor of it, and it can be pinned under any name.  [PlaceLaws] is when the kernel
    does pin, and [ReuseLaws] what it says of descriptors that are copied.  An object among
    others keeps to its own descriptors. *)

From S2P Require Import Prelude Io Config Packet Loader DefaultProg Netlink XskLib Bytes Btf Object.
From S2P Require Import ObjectProps ObjectLink ObjectLoad ObjectOpen ObjectPin.
From S2P Require BpfSys.

(** Behind the descriptor is a map. *)
Definition map_behind {K} `{ObjView K} (k : K) (fd : Z) : Prop := ∃ a e, kobjs k !! fd = Some (KMap a e).

(** [place] has the names in a directory of a bpf file system, which can all be made. *)
Class PlaceLaws (K : Type) `{PinLaws K} := {
  place : string → Prop;
  place_mkdir f k : place f → let '(r, k') := o_mkdir (o_dirname f) k in r = 0 ∨ oerrno k' = EEXIST;
  place_statfs f k : place f → (o_statfs (o_dirname f) k).1 = (0, BPF_FS_MAGIC);
  place_pin fd f k : place f → f ∉ os_files k → map_behind k fd → (o_obj_pin fd f k).1 = 0
}.

Class ReuseLaws (K : Type) `{ObjLaws K} := {
  get_law f k : let '(fd, k') := o_obj_get f k in
    os_files k' = os_files k ∧
    if fd <? 0 then kobjs k' = kobjs k
    else f ∈ os_files k ∧ kobjs k !! fd = None ∧ ∃ o, kobjs k' = <[fd := o]> (kobjs k);
  info_law fd k : let '(r, _, k') := o_map_info fd k in quiet k k' ∧ (r = 0 → map_behind k fd);
  root_law k : gives KOther (o_open_root k).1 k (o_open_root k).2;
  dup3_law fd fd' k : 0 ≤ fd' → let '(r, k') := o_dup3 fd fd' k in
    os_files k' = os_files k ∧
    if r <? 0 then kobjs k' = kobjs k
    else r = fd' ∧ ∃ o, kobjs k !! fd = Some o ∧ kobjs k' = <[fd' := o]> (kobjs k)
}.

(** ** Descriptors among others *)

Section holds.
Context {K : Type} `{ObjLaws K}.
Implicit Types (k : K) (A R F : list Z).

(** The descriptors of [F] are there, one time each. *)
Definition holds F k : Prop := NoDup F ∧ ∀ fd, fd ∈ F → 0 ≤ fd ∧ is_Some (kobjs k !! fd).
(** What is behind the descriptors of [R] stays. *)
Definition kept R k k' : Prop := ∀ fd, fd ∈ R → kobjs k' !! fd = kobjs k !! fd.

#[global] Instance holds_perm : Proper ((≡ₚ) ==> (=) ==> iff) holds.
Proof. intros F1 F2 HF ? k ->. unfold holds. rewrite HF. by setoid_rewrite HF. Qed.

Lemma kept_refl R k : kept R k k.
Proof. done. Qed.
Lemma kept_trans R k1 k2 k3 : kept R k1 k2 → kept R k2 k3 → kept R k1 k3.
Proof. intros Hk1 Hk2 fd Hfd. by rewrite Hk2, Hk1. Qed.
Lemma kept_eq R k k' : kobjs k' = kobjs k → kept R k k'.
Proof. by intros Hk fd _; rewrite Hk. Qed.
Lemma kept_sub R R' k k' : R' ⊆ R → kept R k k' → kept R' k k'.
Proof. intros Hs Hk fd Hfd. by apply Hk, Hs. Qed.

Lemma holds_eq F k k' : kobjs k' = kobjs k → holds F k → holds F k'.
Proof. unfold holds. by intros ->. Qed.
Lemma holds_sub A R k : holds (A ++ R) k → holds R k.
Proof. intros [(_ & _ & Hd)%NoDup_app Hs]. split; [done|]. intros fd Hfd. apply Hs. set_solver. Qed.

(** The others, [R], are part of what was there before [A]. *)
Definition part_of R (m0 : gmap Z kobj) k : Prop := NoDup R ∧ ∀ fd, fd ∈ R → 0 ≤ fd ∧ m0 !! fd = kobjs k !! fd ∧ is_Some (m0 !! fd).

Lemma holds_owns A R k : holds (A ++ R) k → ∃ m0, owns A m0 k ∧ part_of R m0 k.
Proof.
  intros [(HA & Hdis & HR)%NoDup_app Hs]. exists (filter (λ x, x.1 ∉ A) (kobjs k)).
  assert (∀ fd, fd ∉ A → filter (λ x, x.1 ∉ A) (kobjs k) !! fd = kobjs k !! fd) as Hout.
  { intros fd Hfd. destruct (kobjs k !! fd) as [o|] eqn:E.
    - by apply map_lookup_filter_Some.
    - apply map_lookup_filter_None. by left. }
  split; [split; [done|split]|split; [done|]].
  - intros fd Hfd. split; [|apply Hs; set_solver]. apply map_lookup_filter_None. right. intros o _ Hn. by apply Hn.
  - intros fd Hfd. by rewrite Hout.
  - intros fd Hfd. assert (fd ∉ A) as HfA by (intros Hx; by apply (Hdis fd)). rewrite Hout by done.
    split_and!; [|done|]; apply Hs; set_solver.
Qed.

Lemma owns_holds A R m0 k k' : Forall (λ fd, 0 ≤ fd) A → owns A m0 k' → part_of R m0 k → holds (A ++ R) k' ∧ kept R k k'.
Proof.
  intros Hpos (HA & HfA & Hs) [HR HfR]. rewrite Forall_forall in Hpos.
  assert (∀ fd, fd ∈ R → fd ∉ A) as Hdis.
  { intros fd HxR HxA. apply HfR in HxR as (_ & _ & o & Ho). apply HfA in HxA as [Hn _]. congruence. }
  split; [split|].
  - apply NoDup_app. split_and!; [done| |done]. intros fd HxA HxR. by apply (Hdis fd).
  - intros fd [Hx|Hx]%elem_of_app; [split; [by apply Hpos|by apply HfA]|]. rewrite Hs by by apply Hdis. split; by apply HfR.
  - intros fd Hx. rewrite Hs by by apply Hdis. by apply HfR.
Qed.

(** A descriptor that is closed, or put in place, outside of [F]. *)
Lemma holds_outside F k k' fd o :
  fd ∉ F → kobjs k' = partial_alter (λ _, o) fd (kobjs k) → holds F k → holds F k' ∧ kept F k k'.
Proof.
  intros Hfd Hk' [Hd Hs].
  assert (kept F k k') as Hkept by (intros x Hx; rewrite Hk'; apply lookup_partial_alter_ne; by intros <-).
  split; [|done]. split; [done|]. intros x Hx. rewrite Hkept by done. by apply Hs.
Qed.

Lemma negative_outside F k fd : holds F k → fd < 0 → fd ∉ F.
Proof. intros [_ Hs] Hlt Hfd. destruct (Hs fd Hfd). lia. Qed.

Lemma fresh_outside F k fd : holds F k → kobjs k !! fd = None → fd ∉ F.
Proof. intros [_ Hs] Hn Hfd. destruct (Hs fd Hfd) as [_ [o Ho]]. congruence. Qed.

Lemma map_behind_kept R k k' fd : kept R k k' → fd ∈ R → map_behind k fd → map_behind k' fd.
Proof. intros Hk Hfd (a & e & Ha). exists a, e. by rewrite Hk. Qed.
End holds.

(** ** A descriptor of an existing map *)

Section reuse.
Context {K : Type} `{ReuseLaws K}.
Implicit Types (k : K) (R F : list Z) (m : bpf_map).

(** The map has a descriptor of a map, or none. *)
Definition map_fd_ok k m : Prop := 0 ≤ m_fd m → map_behind k (m_fd m).

(** A call that changes the map [m] to [m'] with the descriptors [R] around it. *)
Definition map_changes R m k m' k' : Prop :=
  holds (open_fds [m_fd m'] ++ R) k' ∧ kept R k k' ∧ map_fd_ok k' m'.

Lemma open_fds_one fd : open_fds [fd] = if decide (0 ≤ fd) then [fd] else [].
Proof. unfold open_fds. rewrite filter_cons, filter_nil. done. Qed.

Lemma map_changes_id R m m' k k' :
  m_fd m' = m_fd m → kobjs k' = kobjs k →
  holds (open_fds [m_fd m] ++ R) k → map_fd_ok k m → map_changes R m k m' k'.
Proof.
  intros Hm Hk Hh Hok. unfold map_changes, map_fd_ok, map_behind in *. rewrite Hm, Hk.
  split; [by eapply holds_eq|]. split; [by apply kept_eq|done].
Qed.

(** Closing a descriptor that is not one of [F]. *)
Lemma close_outside F fd k : fd ∉ F → holds F k →
  wp (call (o_close fd)) (λ r k', (∃ e, r = Ok e) ∧ holds F k' ∧ kept F k k' ∧ os_files k' = os_files k) k.
Proof.
  intros Hfd Hh. apply wp_call. intros e k1 E. pose proof (close_law fd k) as [Hc Hf]. rewrite E in Hc, Hf. cbn in Hc, Hf.
  destruct (holds_outside F k k1 fd None Hfd Hc Hh). split; [by eexists|]. done.
Qed.

(** From the copy on: the map's own descriptor is closed, and the copy takes its place. *)
Lemma take_copy m fd (m2 : bpf_map) R k :
  0 ≤ fd → m_fd m2 = fd → map_behind k fd → holds (fd :: open_fds [m_fd m] ++ R) k →
  wp (err ← zclose (m_fd m);
      let map := with_map_fd (-1) m in
      if negb (err =? 0) then e ← ask oerrno; _ ← call (o_close fd); mret (- e, map) else mret (0, m2))
    (λ r k', ∃ err m', r = Ok (err, m') ∧ (m' = with_map_fd (-1) m ∨ m' = m2) ∧
      os_files k' = os_files k ∧ map_changes R m k m' k') k.
Proof.
  intros Hfd Hm2 Hb Hh.
  assert (fd :: open_fds [m_fd m] ++ R ≡ₚ open_fds [m_fd m] ++ fd :: R) as HP by by rewrite <-Permutation_middle.
  rewrite HP in Hh. destruct (holds_owns _ _ _ Hh) as (m0 & Ho & Hpart). apply wp_bind.
  eapply wp_mono; [apply (zclose_spec (m_fd m) [] m0 k); by rewrite app_nil_r|].
  intros r k1 ([err ->] & Ho1 & Hf1). cbn beta iota zeta.
  destruct (owns_holds [] _ _ _ _ (Forall_nil_2 _) Ho1 Hpart) as [Hh1 Hk1]. cbn [app] in Hh1.
  assert (map_behind k1 fd) as Hb1 by (eapply map_behind_kept; [done|left|done]).
  destruct (err =? 0); cbn [negb].
  - wp_step. do 2 eexists. split; [done|]. split; [by right|]. split; [done|]. unfold map_changes, map_fd_ok. rewrite Hm2.
    rewrite open_fds_one, decide_True by done. split; [done|].
    split; [eapply kept_sub; [|done]; set_solver|done].
  - wp_step. wp_step. apply wp_bind.
    eapply wp_mono; [apply (close_outside R fd); [by destruct Hh1 as [[? _]%NoDup_cons _]|by apply (holds_sub [fd])]|].
    intros r k2 ([e ->] & Hh2 & Hk2 & Hf2). cbn beta iota. wp_step. do 2 eexists. split; [done|]. split; [by left|].
    split; [congruence|]. split; [done|]. split; [eapply kept_trans; [|done]; eapply kept_sub; [|done]; set_solver|].
    by intros Hx.
Qed.

(** The map keeps its path, and has another descriptor, of a map again, or none. *)
Lemma reuse_fd_spec m fd R k :
  holds (open_fds [m_fd m] ++ R) k → map_fd_ok k m →
  wp (bpf_map__reuse_fd m fd) (λ r k', ∃ err m', r = Ok (err, m') ∧ pin_path m' = pin_path m ∧ pinned m' = pinned m ∧
    os_files k' = os_files k ∧ map_changes R m k m' k') k.
Proof.
  intros Hh Hok. unfold bpf_map__reuse_fd. apply wp_bind, wp_call. intros [e info] k1 E1.
  pose proof (info_law fd k) as Hi. rewrite E1 in Hi. destruct Hi as [[Hk1 Hf1] Hmap]. cbn beta iota.
  destruct (Z.eqb_spec e 0) as [->|He]; cbn [negb].
  2: { wp_step. do 2 eexists. split; [done|]. split_and!; [done..|]. by apply map_changes_id. }
  specialize (Hmap eq_refl). apply wp_bind, wp_call. intros ok k2 E2. pose proof (alloc_law k1) as [Hk2 Hf2].
  rewrite E2 in Hk2, Hf2. cbn in Hk2, Hf2. destruct ok; cbn [negb].
  2: { wp_step. wp_step. wp_step. do 2 eexists. split; [done|]. split_and!; [done..|congruence|]. by apply map_changes_id; [|congruence| |]. }
  apply wp_bind, wp_call. intros fd1 k3 E3. pose proof (root_law k2) as Hr. rewrite E3 in Hr. cbn in Hr. unfold gives in Hr.
  destruct (Z.ltb_spec fd1 0) as [Hlt|Hge].
  { destruct Hr as [[Hk3 Hf3] _]. wp_step. wp_step. wp_step. do 2 eexists. split; [done|]. split_and!; [done..|congruence|].
    by apply map_changes_id; [|congruence| |]. }
  destruct Hr as (Hnone & Hk3 & Hf3). assert (kobjs k2 = kobjs k) as Hk02 by congruence. rewrite Hk02 in Hnone, Hk3.
  pose proof (fresh_outside _ _ _ Hh Hnone) as Hout.
  destruct (holds_outside _ _ k3 _ _ Hout Hk3 Hh) as [Hh3 Hkept3].
  apply wp_bind, wp_call. intros fd2 k4 E4. pose proof (dup3_law fd fd1 k3 Hge) as Hd. rewrite E4 in Hd. destruct Hd as [Hf4 Hd].
  assert (map_fd_ok k3 m) as Hok3.
  { intros Hpos. eapply map_behind_kept; [exact Hkept3| |by apply Hok]. rewrite open_fds_one, decide_True by done. set_solver. }
  destruct (Z.ltb_spec fd2 0) as [Hlt|Hge2].
  - wp_step. wp_step. apply wp_bind. eapply wp_mono; [apply (close_outside (open_fds [m_fd m] ++ R) fd2)|].
    + eapply negative_outside; [exact Hh3|done].
    + eapply holds_eq; [exact Hd|exact Hh3].
    + intros r k5 ([x ->] & Hh5 & Hkept5 & Hf5). cbn beta iota. wp_step. do 2 eexists. split; [done|]. split_and!; [done..|congruence|].
      assert (kept (open_fds [m_fd m] ++ R) k3 k5) as Hkept35.
      { eapply kept_trans; [|exact Hkept5]. by apply kept_eq. }
      split; [done|]. split.
      * eapply kept_sub; [|eapply kept_trans; [exact Hkept3|exact Hkept35]]. set_solver.
      * intros Hpos. eapply map_behind_kept; [exact Hkept35| |by apply Hok3]. rewrite open_fds_one, decide_True by done. set_solver.
  - destruct Hd as (-> & o & Ho & Hk4). set (F := open_fds [m_fd m] ++ R) in *.
    assert (kobjs k4 = <[fd1 := o]> (kobjs k)) as Hk04 by by rewrite Hk4, Hk3, insert_insert_eq.
    assert (map_behind k4 fd1) as Hb4.
    { rewrite <-Hk1 in Hnone. destruct Hmap as (a & x & Ha). exists a, x. rewrite Hk04, lookup_insert_eq, <-Ho, Hk3.
      rewrite lookup_insert_ne; [done|]. intros <-. congruence. }
    destruct (holds_outside F k k4 fd1 (Some o) Hout Hk04 Hh) as [Hh4 Hkept4].
    assert (holds (fd1 :: F) k4) as Hh4'.
    { destruct Hh4 as [Hd4 Hs4]. split; [by constructor|]. intros x [->|Hx]%elem_of_cons; [|by apply Hs4].
      split; [done|]. by rewrite Hk04, lookup_insert_eq. }
    set (m2 := Map _ _ _ _ _ _ _ _ _ _ _ _). eapply wp_mono; [apply (take_copy m fd1 m2 R k4); [done|done|done|exact Hh4']|].
    intros r k5 (err & m' & -> & Hm' & Hf5 & Hh5 & Hk5 & Hok5). do 2 eexists. split; [done|].
    split; [by destruct Hm' as [->| ->]|]. split; [by destruct Hm' as [->| ->]|]. split; [congruence|]. split; [done|].
    split; [|done]. eapply kept_trans; [|exact Hk5]. eapply kept_sub; [|exact Hkept4]. set_solver.
Qed.
End reuse.

(** ** Pinning that works *)

Section place.
Context {K : Type} `{PlaceLaws K}.
Implicit Types (k : K) (m : bpf_map) (f : string).

Lemma make_parent_works f k : memory K → place f →
  wp (make_parent_dir f) (λ r k', r = Ok 0 ∧ quiet k k') k.
Proof.
  intros Hmem Hf. unfold make_parent_dir. apply wp_bind, wp_call. intros ok k1 E1. pose proof (Hmem k) as Ha.
  pose proof (alloc_law k) as Hq. rewrite E1 in Ha, Hq. cbn in Ha, Hq. subst ok. cbn [negb].
  apply wp_bind, wp_call. intros e k2 E2. pose proof (place_mkdir f k1 Hf) as Hm. pose proof (mkdir_law (o_dirname f) k1) as Hm2.
  rewrite E2 in Hm, Hm2. destruct Hm2 as [Hq2 _]. wp_step. wp_step. wp_step. split; [|by eapply quiet_trans]. f_equal.
  destruct Hm as [-> | ->]; [done|]. by rewrite andb_false_r.
Qed.

Lemma check_path_works f k : memory K → place f → wp (check_path f) (λ r k', r = Ok 0 ∧ quiet k k') k.
Proof.
  intros Hmem Hf. unfold check_path. apply wp_bind, wp_call. intros ok k1 E1. pose proof (Hmem k) as Ha.
  pose proof (alloc_law k) as Hq. rewrite E1 in Ha, Hq. cbn in Ha, Hq. subst ok. cbn [negb].
  apply wp_bind, wp_call. intros [e t] k2 E2. pose proof (place_statfs f k1 Hf) as Hs. pose proof (statfs_law (o_dirname f) k1) as Hq2.
  rewrite E2 in Hs, Hq2. cbn in Hs. injection Hs as -> ->. wp_step. wp_step. wp_step. split; [done|].
  eapply quiet_trans; [exact Hq|apply Hq2].
Qed.

(** A map that was created gets a file of a free name. *)
Lemma map_pin_works f m k :
  memory K → place f → never_pinned m → f ∉ os_files k → map_behind k (m_fd m) →
  wp (bpf_map__pin m (Some f)) (λ r k', ∃ m', r = Ok (0, m')) k.
Proof.
  intros Hmem Hf [Hpath Hpin] Hnew Hb. unfold bpf_map__pin. rewrite Hpath, Hpin.
  apply wp_bind, wp_call. intros ok k1 E1. pose proof (Hmem k) as Ha.
  pose proof (alloc_law k) as [Hk1 Hf1]. rewrite E1 in Ha, Hk1, Hf1. cbn in Ha, Hk1, Hf1. subst ok. cbn [negb].
  unfold pin_at. apply wp_bind. eapply wp_mono; [by apply make_parent_works|]. intros r k2 (-> & Hk2 & Hf2). cbn beta iota.
  cbn [Z.eqb negb]. apply wp_bind. eapply wp_mono; [by apply check_path_works|]. intros r k3 (-> & Hk3 & Hf3). cbn beta iota.
  cbn [Z.eqb negb m_fd with_pin]. apply wp_bind, wp_call. intros r k4 E4.
  pose proof (place_pin (m_fd m) f k3 Hf) as Hp. rewrite E4 in Hp. cbn [fst] in Hp. rewrite Hp.
  - cbn [Z.eqb negb]. wp_step. by eexists.
  - congruence.
  - destruct Hb as (a & e & Ha). exists a, e. congruence.
Qed.
End place.
