(* ===== verification/ObjectLib.v ===== *)
(** * The loader over libbpf

    The interfaces [BpfOps] and [BpfLaws] of the loader, implemented by the modelled
    functions of libbpf: the objects are on a heap, the loader has pointers to them, to
    their maps and to their programs.  So loading with pinned maps is correct over
    any system that keeps the laws of descriptors and files. *)

From S2P Require Import Prelude Io Config Packet BpfParse DefaultProg Netlink XskLib Bytes Btf.
From S2P Require Import Object ObjectProps ObjectLink ObjectLoad ObjectOpen ObjectPin ObjectReuse.
From S2P Require Import Loader LoaderProps.
From S2P Require BpfSys.

(** ** Pointers *)

(** The addresses of an object and of its maps and programs, and back. *)
Definition place_of : Type := nat + (nat * nat + nat * nat).
Definition address (x : place_of) : Z := Z.neg (encode x).
Definition object_at (n : nat) : Z := address (inl n).
Definition map_at (n i : nat) : Z := address (inr (inl (n, i))).
Definition program_at (n i : nat) : Z := address (inr (inr (n, i))).
Definition at_address (p : Z) : option place_of := match p with Zneg x => decode x | _ => None end.

Lemma at_address_spec x : at_address (address x) = Some x.
Proof. apply decode_encode. Qed.
#[global] Instance address_inj : Inj (=) (=) address.
Proof. intros x y E. assert (Some x = Some y) as [= ->] by by rewrite <-!at_address_spec, E. done. Qed.

(** ** The library *)

(** The system, and the objects that are open. *)
Record lib (K : Type) := Lib { sys : K; heap : gmap nat bpf_object }.
Arguments Lib {K} _ _.
Arguments sys {K} _.
Arguments heap {K} _.

(** Seven retries with a larger log are enough. *)
Definition tries : nat := 7.

Section lib.
Context {K : Type} `{ObjSys K}.
Implicit Types (k : lib K) (s : K) (n i : nat) (o : bpf_object) (m : bpf_map) (p : bpf_program).

Definition find_object (obj : Z) k : option (nat * bpf_object) :=
  match at_address obj with Some (inl n) => o ← heap k !! n; Some (n, o) | _ => None end.
Definition find_map (map : Z) k : option (nat * nat * bpf_object * bpf_map) :=
  match at_address map with
  | Some (inr (inl (n, i))) => o ← heap k !! n; m ← maps o !! i; Some (n, i, o, m)
  | _ => None
  end.
Definition find_program (prog : Z) k : option (nat * nat * bpf_object * bpf_program) :=
  match at_address prog with
  | Some (inr (inr (n, i))) => o ← heap k !! n; p ← programs o !! i; Some (n, i, o, p)
  | _ => None
  end.

(** The calls on an object, a map and a program.  Nothing is behind another pointer: the
    code reads none, and these answer -EINVAL, as they do for a fault. *)
Definition on_object (obj : Z) (f : bpf_object → io K (Z * bpf_object)) k : Z * lib K :=
  match find_object obj k with
  | Some (n, o) =>
      match f o (sys k) with
      | (Ok (err, o), s) => (err, Lib s (<[n := o]> (heap k)))
      | (Err _, s) => (- EINVAL, Lib s (heap k))
      end
  | None => (- EINVAL, k)
  end.
Definition on_map (map : Z) (f : bpf_map → io K (Z * bpf_map)) k : Z * lib K :=
  match find_map map k with
  | Some (n, i, o, m) =>
      match f m (sys k) with
      | (Ok (err, m), s) => (err, Lib s (<[n := with_maps (<[i := m]> (maps o)) o]> (heap k)))
      | (Err _, s) => (- EINVAL, Lib s (heap k))
      end
  | None => (- EINVAL, k)
  end.
Definition on_program (prog : Z) (f : bpf_program → bpf_program) k : lib K :=
  match find_program prog k with
  | Some (n, i, o, p) => Lib (sys k) (<[n := with_programs (<[i := f p]> (programs o)) o]> (heap k))
  | None => k
  end.

Definition ERR_PTR (err : Z) : Z := 2 ^ 64 + err.

(** An object comes to the heap. *)
Definition add_object (o : bpf_object) s (h : gmap nat bpf_object) : Z * lib K :=
  let n := fresh (dom h) in (object_at n, Lib s (<[n := o]> h)).

(** [bpf_object__open_xattr] does not read the type of its attributes. *)
Definition lib_open (file : string) (_ : Z) k : Z * lib K :=
  match bpf_object__open file (sys k) with
  | (Ok (inr o), s) => add_object o s (heap k)
  | (Ok (inl err), s) => (ERR_PTR err, Lib s (heap k))
  | (Err _, s) => (0, Lib s (heap k))
  end.

Definition lib_prog_load (file : string) (type ifindex : Z) k : (Z * Z) * lib K :=
  match Object.bpf_prog_load_xattr tries (ProgLoadAttr file type 0 ifindex 0 0) (sys k) with
  | (Ok (err, Some (o, _)), s) => let '(obj, k) := add_object o s (heap k) in ((err, obj), k)
  | (Ok (err, None), s) => ((err, 0), Lib s (heap k))
  | (Err _, s) => ((- EINVAL, 0), Lib s (heap k))
  end.

Definition lib_close (obj : Z) k : lib K :=
  match find_object obj k with
  | Some (n, o) => Lib (Object.bpf_object__close o (sys k)).2 (delete n (heap k))
  | None => k
  end.

Definition lib_maps (obj : Z) k : list Z :=
  match find_object obj k with Some (n, o) => map_at n <$> seq 0 (length (maps o)) | None => [] end.
Definition lib_programs (obj : Z) k : list Z :=
  match find_object obj k with Some (n, o) => program_at n <$> for_each_program o | None => [] end.

Definition lib_find_program (obj : Z) (title : string) k : Z :=
  match find_object obj k with
  | Some (n, o) => from_option (program_at n) 0 (find_program_by_title o title)
  | None => 0
  end.
Definition lib_find_map (obj : Z) (name : string) k : Z :=
  match find_object obj k with
  | Some (n, o) => from_option (map_at n) 0 (find_map_by_name o name)
  | None => 0
  end.

Definition lib_map {A} (a : A) (f : bpf_map → A) (map : Z) k : A :=
  match find_map map k with Some (_, _, _, m) => f m | None => a end.
Definition lib_program {A} (a : A) (f : bpf_program → A) (prog : Z) k : A :=
  match find_program prog k with Some (_, _, _, p) => f p | None => a end.

Definition with_expected (e : Z) p : bpf_program := with_types (p_type p) e p.
Definition with_type (t : Z) p : bpf_program := with_types t (p_expected_attach_type p) p.
Definition with_prog_ifindex (idx : Z) p : bpf_program := with_load_args idx (log_level p) (prog_flags p) p.

#[export] Instance lib_ops : BpfOps (lib K) := {
  bpf_prog_load_xattr := lib_prog_load;
  bpf_object__open_xattr := lib_open;
  bpf_object__load obj := on_object obj (Object.bpf_object__load tries);
  bpf_object__close := lib_close;
  bpf_object__programs := lib_programs;
  bpf_object__maps := lib_maps;
  bpf_object__find_program_by_title := lib_find_program;
  bpf_object__find_map_by_name := lib_find_map;
  bpf_program__set_type prog t := on_program prog (with_type t);
  bpf_program__set_ifindex prog idx := on_program prog (with_prog_ifindex idx);
  bpf_program__set_expected_attach_type prog e := on_program prog (with_expected e);
  bpf_program__title := lib_program EmptyString section_name;
  bpf_program__fd := lib_program (- EINVAL) (λ p, match Object.bpf_program__fd p with Ok fd => fd | Err _ => - EINVAL end);
  bpf_map__is_offload_neutral := lib_map false map_is_offload_neutral;
  bpf_map__set_ifindex map idx k := (on_map map (λ m, mret (0, with_map_ifindex idx m)) k).2;
  bpf_map__name := lib_map EmptyString m_name;
  bpf_map__fd := lib_map (- EINVAL) m_fd;
  bpf_map__reuse_fd map fd := on_map map (λ m, Object.bpf_map__reuse_fd m fd);
  bpf_map__pin map path := on_map map (λ m, Object.bpf_map__pin m (Some path));
  bpf_obj_get path k := let '(fd, s) := o_obj_get path (sys k) in (fd, Lib s (heap k));
  bpf_obj_get_info_by_fd fd k := let '(err, info, _) := o_map_info fd (sys k) in
    let d := i_def info in (err, MapInfo (md_type d) (md_key_size d) (md_value_size d) (md_max_entries d));
  bpf_map_update_elem fd key value k :=
    let '(err, s) := o_update_elem fd key (le32 value) 0 (sys k) in (err, Lib s (heap k))
}.
End lib.

(** ** What the loader sees *)

Section view.
Context {K : Type} `{OpenLaws K, !PinLaws K, !PlaceLaws K, !ReuseLaws K}.
Implicit Types (k : lib K) (s : K) (n i : nat) (o : bpf_object) (m : bpf_map) (p : bpf_program) (h : gmap nat bpf_object).

Definition all_fds o : list Z := descriptors o ++ btf_fds o.
Definition heap_fds h : list Z := map_to_list h ≫= λ x, all_fds x.2.

(** An object is as it was read until it is loaded; its programs know their descriptors,
    its maps have a descriptor of a map or none, and no map is pinned without a path. *)
Definition object_ok s o : Prop :=
  Forall (λ m, pin_path m = None → pinned m = false) (maps o) ∧ Forall fds_ok (programs o) ∧
  (loaded o = false → btf_answers o ∧ Forall (program_read (length (maps o))) (programs o)) ∧
  Forall (map_fd_ok s) (maps o).

#[export] Instance lib_view : BpfView (lib K) := {
  lib_ok k := holds (heap_fds (heap k)) (sys k) ∧ map_Forall (λ _, object_ok (sys k)) (heap k);
  files k := os_files (sys k);
  opened k := set_map object_at (dom (heap k));
  given_path := lib_map None pin_path;
  ready := lib_map False (λ m, 0 ≤ m_fd m)
}.

Lemma heap_fds_insert n o h : heap_fds (<[n := o]> h) ≡ₚ all_fds o ++ heap_fds (delete n h).
Proof.
  unfold heap_fds. rewrite <-insert_delete_eq. rewrite map_to_list_insert by apply lookup_delete_eq. done.
Qed.
Lemma heap_fds_focus n o h : h !! n = Some o → heap_fds h ≡ₚ all_fds o ++ heap_fds (delete n h).
Proof. intros Hn. unfold heap_fds. by rewrite <-(map_to_list_delete h n o Hn). Qed.

Lemma heap_fds_elem n o h fd : h !! n = Some o → fd ∈ all_fds o → fd ∈ heap_fds h.
Proof. intros Hn Hfd. rewrite (heap_fds_focus n o h Hn). set_solver. Qed.

Lemma map_fd_elem o m : m ∈ maps o → 0 ≤ m_fd m → m_fd m ∈ all_fds o.
Proof.
  intros Hm Hfd. unfold all_fds, descriptors. rewrite !elem_of_app. left. left. unfold open_fds. rewrite list_elem_of_filter.
  split; [done|]. by apply list_elem_of_fmap_2.
Qed.

Lemma object_ok_kept s s' o : kept (all_fds o) s s' → object_ok s o → object_ok s' o.
Proof.
  intros Hk (Hp & Hf & Hr & Hm). split_and!; [done..|]. rewrite !Forall_forall in *. intros m Hin Hfd.
  eapply map_behind_kept; [done|by apply map_fd_elem|by apply Hm].
Qed.

Lemma heap_ok_kept s s' h : kept (heap_fds h) s s' → map_Forall (λ _, object_ok s) h → map_Forall (λ _, object_ok s') h.
Proof.
  intros Hk Hh n o Hn. eapply object_ok_kept; [|by eapply Hh]. eapply kept_sub; [|done]. intros fd. by eapply heap_fds_elem.
Qed.

(** The object [n] becomes [o], its descriptors among the others. *)
Lemma lib_ok_insert k n o s' :
  lib_ok k → holds (all_fds o ++ heap_fds (delete n (heap k))) s' → kept (heap_fds (delete n (heap k))) (sys k) s' →
  object_ok s' o → lib_ok (Lib s' (<[n := o]> (heap k))).
Proof.
  intros [_ Hok] Hh Hk Ho. split; cbn [sys heap]; [by rewrite heap_fds_insert|].
  rewrite <-insert_delete_eq. apply map_Forall_insert_2; [done|]. eapply heap_ok_kept; [done|]. by apply map_Forall_delete.
Qed.

Lemma lib_ok_focus k n o : lib_ok k → heap k !! n = Some o →
  holds (all_fds o ++ heap_fds (delete n (heap k))) (sys k) ∧ object_ok (sys k) o.
Proof. intros [Hh Hok] Hn. rewrite (heap_fds_focus _ _ _ Hn) in Hh. split; [done|by eapply Hok]. Qed.

(** Only the system changes, not behind the descriptors of the objects. *)
Lemma lib_ok_sys k s' : lib_ok k → holds (heap_fds (heap k)) s' → kept (heap_fds (heap k)) (sys k) s' →
  lib_ok (Lib s' (heap k)).
Proof. intros [_ Hok] Hh Hk. split; [done|]. by eapply heap_ok_kept. Qed.

(** ** What stays *)

Lemma opened_find obj k : obj ∈ opened k ↔ ∃ n o, obj = object_at n ∧ heap k !! n = Some o.
Proof.
  cbn [opened lib_view]. rewrite elem_of_map. setoid_rewrite elem_of_dom. split.
  - intros (n & -> & o & Ho). by exists n, o.
  - intros (n & o & -> & Ho). exists n. split; [done|by exists o].
Qed.

Lemma find_object_at n o k : heap k !! n = Some o → find_object (object_at n) k = Some (n, o).
Proof. intros Hn. unfold find_object, object_at. rewrite at_address_spec. by rewrite Hn. Qed.
Lemma find_map_at n i o m k : heap k !! n = Some o → maps o !! i = Some m → find_map (map_at n i) k = Some (n, i, o, m).
Proof. intros Hn Hi. unfold find_map, map_at. rewrite at_address_spec, Hn. cbn. by rewrite Hi. Qed.

(** A pointer at which something is found. *)
Lemma find_object_inv obj k n o : find_object obj k = Some (n, o) → heap k !! n = Some o.
Proof.
  unfold find_object. destruct (at_address obj) as [[n'|]|]; [|done..]. destruct (heap k !! n') as [o'|] eqn:E; [|done].
  by intros [= -> ->].
Qed.
Lemma find_map_inv map k n i o m : find_map map k = Some (n, i, o, m) → heap k !! n = Some o ∧ maps o !! i = Some m.
Proof.
  unfold find_map. destruct (at_address map) as [[|[[n' i']|]]|]; [done| |done..].
  destruct (heap k !! n') as [o'|] eqn:E; [|done]. cbn. destruct (maps o' !! i') as [m'|] eqn:Ei; [|done].
  by intros [= -> -> -> ->].
Qed.
Lemma find_program_inv prog k n i o p :
  find_program prog k = Some (n, i, o, p) → heap k !! n = Some o ∧ programs o !! i = Some p.
Proof.
  unfold find_program. destruct (at_address prog) as [[|[|[n' i']]]|]; [done|done| |done].
  destruct (heap k !! n') as [o'|] eqn:E; [|done]. cbn. destruct (programs o' !! i') as [p'|] eqn:Ei; [|done].
  by intros [= -> -> -> ->].
Qed.

Lemma lib_maps_at n o k : heap k !! n = Some o → lib_maps (object_at n) k = map_at n <$> seq 0 (length (maps o)).
Proof. intros Hn. unfold lib_maps. by rewrite (find_object_at _ _ _ Hn). Qed.

Lemma open_map_find map k : open_map map k ↔ ∃ n i o m, map = map_at n i ∧ heap k !! n = Some o ∧ maps o !! i = Some m.
Proof.
  unfold open_map. setoid_rewrite opened_find. cbn [bpf_object__maps lib_ops]. split.
  - intros (obj & (n & o & -> & Hn) & Hin). rewrite (lib_maps_at _ _ _ Hn) in Hin.
    apply list_elem_of_fmap in Hin as (i & -> & Hi%elem_of_seq). destruct (lookup_lt_is_Some_2 (maps o) i) as [m Hm]; [lia|].
    by exists n, i, o, m.
  - intros (n & i & o & m & -> & Hn & Hm). exists (object_at n). split; [by exists n, o|]. rewrite (lib_maps_at _ _ _ Hn).
    apply list_elem_of_fmap_2, elem_of_seq. apply lookup_lt_Some in Hm. lia.
Qed.

(** What the loader's loops over an object depend on. *)
Definition same_frame o o' : Prop :=
  length (maps o') = length (maps o) ∧ p_idx <$> programs o' = p_idx <$> programs o ∧
  text_shndx o' = text_shndx o ∧ has_pseudo_calls o' = has_pseudo_calls o.

Lemma program_step_frame f q o o' b : same_frame o o' → bpf_program_step f q o' b = bpf_program_step f q o b.
Proof.
  intros (_ & Hi & Ht & Hh).
  assert (∀ q, bpf_program_iter q o' b = bpf_program_iter q o b) as Hiter.
  { intros q'. unfold bpf_program_iter. assert (length (programs o') = length (programs o)) as ->; [|done].
    by rewrite <-(length_fmap p_idx), Hi, length_fmap. }
  assert (∀ j, (λ p, bpf_program__is_function_storage p o') <$> programs o' !! j =
               (λ p, bpf_program__is_function_storage p o) <$> programs o !! j) as Hs.
  { intros j. assert ((p_idx <$> programs o') !! j = (p_idx <$> programs o) !! j) as Hj by by rewrite Hi.
    rewrite !list_lookup_fmap in Hj. unfold bpf_program__is_function_storage. rewrite Ht, Hh.
    destruct (programs o' !! j), (programs o !! j); try done. cbn in *. by injection Hj as ->. }
  revert q. induction f as [|f IH]; intros q; cbn [bpf_program_step]; rewrite Hiter;
    destruct (bpf_program_iter q o b) as [j|]; try done; specialize (Hs j);
    destruct (programs o' !! j), (programs o !! j); try done; cbn in Hs; injection Hs as ->.
  - done.
  - destruct (bpf_program__is_function_storage _ _); [apply IH|done].
Qed.

Lemma for_each_program_frame o o' : same_frame o o' → for_each_program o' = for_each_program o.
Proof.
  intros Hf. pose proof Hf as (_ & Hi & _). unfold for_each_program.
  assert (length (programs o') = length (programs o)) as Hlen by by rewrite <-(length_fmap p_idx), Hi, length_fmap.
  rewrite Hlen. generalize (length (programs o)) at 1 2 as f, (@None nat) as q. induction f as [|f IH]; intros q; [done|].
  cbn [for_each_program_from].
  unfold bpf_program__next. rewrite (program_step_frame _ _ o o' _ Hf), Hlen.
  destruct (bpf_program_step _ q o true); [|done].
  by rewrite IH.
Qed.

Lemma stays_insert k n o o' s' : heap k !! n = Some o → same_frame o o' →
  lib_ok (Lib s' (<[n := o']> (heap k))) → objects_stay k (Lib s' (<[n := o']> (heap k))).
Proof.
  intros Hn Hf Hok. split; [done|]. split.
  { cbn [opened lib_view heap]. rewrite dom_insert_L. f_equal. assert (n ∈ dom (heap k)) by by apply elem_of_dom. set_solver. }
  intros obj (n' & o1 & -> & Hn')%opened_find. cbn [bpf_object__maps bpf_object__programs lib_ops].
  unfold lib_maps, lib_programs. rewrite (find_object_at _ _ _ Hn'). destruct (decide (n' = n)) as [->|Hne].
  - rewrite Hn in Hn'. injection Hn' as <-. rewrite (find_object_at n o') by apply lookup_insert_eq.
    rewrite (for_each_program_frame _ _ Hf). by destruct Hf as (-> & _).
  - by rewrite (find_object_at n' o1) by (cbn [heap]; by rewrite lookup_insert_ne).
Qed.

(** The maps keep something too. *)
Lemma lib_map_insert {A} (a : A) (f : bpf_map → A) k n o o' s' map :
  heap k !! n = Some o → f <$> maps o' = f <$> maps o → open_map map k →
  lib_map a f map (Lib s' (<[n := o']> (heap k))) = lib_map a f map k.
Proof.
  intros Hn Hf (n' & i & o1 & m & -> & Hn' & Hi)%open_map_find. unfold lib_map. rewrite (find_map_at _ _ _ _ _ Hn' Hi).
  destruct (decide (n' = n)) as [->|Hne].
  - rewrite Hn in Hn'. injection Hn' as <-. assert ((f <$> maps o') !! i = (f <$> maps o) !! i) as E by by rewrite Hf.
    rewrite !list_lookup_fmap, Hi in E. destruct (maps o' !! i) as [m'|] eqn:Hi'; [|done]. injection E as E.
    rewrite (find_map_at n i o' m'); [done|apply lookup_insert_eq|done].
  - rewrite (find_map_at n' i o1 m); [done| |done]. cbn [heap]. by rewrite lookup_insert_ne.
Qed.

Lemma undisturbed_insert k n o o' s' : heap k !! n = Some o → same_frame o o' → pin_path <$> maps o' = pin_path <$> maps o →
  os_files s' = os_files (sys k) → lib_ok (Lib s' (<[n := o']> (heap k))) → undisturbed k (Lib s' (<[n := o']> (heap k))).
Proof.
  intros Hn Hf Hp Hfiles Hok. split; [by eapply stays_insert|]. split; [done|]. intros map Hm. by eapply lib_map_insert.
Qed.

Lemma undisturbed_sys k s' : os_files s' = os_files (sys k) → lib_ok (Lib s' (heap k)) → undisturbed k (Lib s' (heap k)).
Proof. intros Hf Hok. split; [by split|]. by split. Qed.
End view.
